(* ===== verification/_CoqProject ===== *)
-Q . S2P
Prelude.v
Utf8.v
PyText.v
Uuid.v
Json.v
JsonIndent.v
Base64.v
Sha256.v
Ttlv.v
World.v
Store.v
StoreSpec.v
StoreInv.v
StoreOpen.v
StoreLive.v
StoreBind.v
Certificates.v
Recovery.v
KeyProviders.v
KmipRecovery.v
RecoveryArchive.v
RecoveryRestore.v
RecoverySound.v
RecoverySteadfast.v
RecoveryRuntime.v
RecoveryPhases.v
RecoveryLive.v
RecoveryGate.v
Protocol.v
ProtocolSpec.v
ProtocolWf.v
KeyService.v
Demo.v
IpAddress.v
Networks.v
IpRoundtrip.v
Server.v
Trace.v
TraceWriter.v
Diagnostics.v
Connection.v
Slots.v
SourceGroups.v
SourceGroupsProps.v
Firewall.v
FirewallRouting.v
FirewallServices.v
RoutingPermissions.v
Nftables.v
FirewallText.v
FirewallMeaning.v
StoreProps.v
RecoveryProps.v
RecoveryRuntimeProps.v
ServiceProps.v
ServerProps.v
KeyProvidersProps.v
KmipRecoveryProps.v
ConnectionProps.v
TraceProps.v
FirewallProps.v
RoutingRules.v
FirewallRoutingProps.v
SourceGroupClients.v
FirewallServicesProps.v
RoutingPermissionsProps.v
RoutingAppliedProps.v
ChunkUploads.v
ChunkUploadsSteps.v
ChunkUploadsProps.v
TrafficPublishing.v
TrafficPublishingProps.v
PortForwarding.v
PortForwardingSteps.v
PortForwardingProps.v
PortForwardingAppliedProps.v
UploadPublication.v
UploadPublicationProps.v
