(* ===== verification/Prelude.v ===== *)
(** * Atlaso: verification of the KMIP key-provider service and of the appliance firewall,
      traffic publishing and uploads

    Atlaso is an appliance whose KMIP service keeps the encryption keys of vSphere key
    providers.  This library models the service ([src/atlaso/app/kmip/]) and proves that
    keys survive faults and restarts, that a provider reaches its own keys only, that
    messages are parsed and answered exactly, and that logs and traces hold no secrets.  It
    also models the control plane of the service, the firewall of the appliance
    ([services/firewall.py]) and the translation of addresses and ports
    ([services/traffic_publishing.py], [services/port_forwarding.py]), and proves what the
    rendered rules let through and which translations are accepted; and the uploads
    of browsers ([services/chunk_uploads.py], [services/upload_publication.py]).

    ** The program

    A client connects over mutual TLS.  [server.py] maps the fingerprint of its certificate
    to a provider, cuts requests out of the stream, decodes them ([ttlv.py]), hands them to
    the dispatcher ([protocol.py]) and sends the encoded responses; warnings are redacted,
    and an optional trace ([trace.py]) records metadata of each batch item.  The dispatcher
    calls the key store ([store.py]): a SQLite database of wrapped keys, and a file with the
    key-encryption key sealed under a master key.  The sealed file also commits to the
    database by a hash, in two phases around every mutation, so that a rolled back or
    damaged database is refused and an interrupted transaction is finished at the next
    start.

    For disaster recovery a store is exported to an encrypted archive ([recovery.py]), from
    which another appliance builds a candidate store under its own secret.  A privileged
    helper ([recovery_runtime.py]) publishes the candidate by moving directories, with a
    journal that keeps the service from starting until an administrator has reviewed the
    imported public trust.  The control plane keeps the trust graph of providers, vCenters
    and certificates in its database and renders the configuration that the service reads
    ([services/vsphere_key_providers.py]); [services/kmip_recovery.py] exports and imports
    that graph with the archives.

    The firewall is one nftables table, rendered as text from the settings, the rules of the
    operator and rules that the appliance generates: input rules for the services that are
    enabled, and forwarding rules from the roles of the interfaces and the routing
    permissions.  Rules name Source Groups, which hold addresses or refer to each other.
    Traffic publishing translates source addresses (NAT rules) and destinations (port
    forwards) between the interfaces of the lab; the saved rules are rendered to a snapshot
    for a privileged helper, which reports what it has applied.

    Browsers upload large files in chunks to sessions of one process-wide store, which an
    endpoint claims when they are complete, and publishes at a destination whose revision
    the operator agreed to overwrite.

    ** The files

    Python and the data formats (models of the standard library, not of the sources):
    - [Prelude]: exceptions and the result type [res], the state-and-error monad [ST] with
      [catch], the weakest precondition [wp] of a computation with its rules, bytes and
      big-endian integers, slices; the tactic [res_inv];
    - [Utf8], [PyText], [Uuid], [Base64], [Json], [JsonIndent], [Sha256], [IpAddress],
      [Networks], [IpRoundtrip]: the string functions, [uuid], [base64], [json] (with its
      text and its parser), [hashlib.sha256] and [ipaddress] as far as the sources use them,
      with their round trips; [Nftables]: the fragment of nftables that is rendered, its
      text and the decision of a chain on a packet.

    Components:
    - [Ttlv]: [ttlv.py]; [Ttlv] is the node, [encode], [decode], [child], [children];
    - [World]: the state around the store: the KEK file, the database on disk and the open
      connection, the recovery custody file, the store object, random bytes, the clock, and
      the faults ahead (an error or a power failure at each I/O step);
    - [Store]: [store.py], one definition per function and method, over [World]; AES-GCM is
      the class [Aead] with the laws [AeadLaws] (decryption inverts encryption, which
      succeeds within its documented limits and adds the 16 bytes of the tag, and only
      documented exceptions are raised);
    - [StoreSpec], [StoreInv], [StoreOpen], [StoreLive], [StoreBind]: the invariant of the
      files and of the open store, the abstract map of keys [contents], what every method
      does to it under all faults ([wp]) and without faults ([live]), opening a store, and
      why the commitment and the authenticated metadata determine what they cover;
    - [Protocol]: [protocol.py] over the interface [KeyStore]; [ProtocolSpec] states the laws
      [KeyStoreLaws] a store promises and proves the dispatcher against them, [ProtocolWf]
      that responses are well formed and which exceptions escape, [KeyService] that the
      wrapped-key store is an instance;
    - [Certificates]: the admission of a public certificate in
      [services/vsphere_key_providers.py]; X.509 parsing is the class [X509];
      [KeyProviders]: the trust graph, its validation and the rendered configuration;
    - [KmipRecovery]: [services/kmip_recovery.py], export and import of the trust graph over
      the tables of a database session;
    - [Recovery]: [recovery.py]; scrypt is the class [Scrypt] (32 bytes for every input), the
      column affinity of SQLite the class [SqlAffinity] (no laws).  [RecoveryArchive] has the
      round trip of an archive, [RecoveryRestore] what a faultless export and build do,
      [RecoverySound] what a build that returned implies, and [RecoverySteadfast] that a
      computation that returned in spite of faults returns the same without them;
    - [RecoveryRuntime]: [recovery_runtime.py] over the state [Runtime]: the entries of the
      protected anchor directory, the active state directory, the installed configuration
      and a process with its faults.  [RecoveryPhases] has the phases of an import and the
      triples [safe] that every step keeps them, [RecoveryLive] that a faultless run goes
      through, [RecoveryGate] the review, the approval and the startup gate;
    - [Server]: the configuration in [server.py]; [Connection]: [_receive_exact], the handler
      [handle] and the trace writes over sockets; [Slots]: the connection limit as a
      transition system; [Diagnostics]: the redacted warnings;
    - [Trace], [TraceWriter]: [trace.py] and the events of [InteropTraceWriter];
    - [SourceGroups]: the Source Groups of [services/firewall.py], their entries, references,
      expansion, validation and stored state ([str.lower] beyond ASCII is the class
      [PyCase]); [Firewall]: validation and rendering of rules; [FirewallRouting]: the
      generated forwarding rules; [FirewallServices]: the generated rules of the services
      ([str.upper] is the class [PyUpper]); [RoutingPermissions]: validation of permissions
      in [services/routing_permissions.py], the rows the operator sees and their fingerprint;
    - [FirewallText], [FirewallMeaning], [RoutingRules], [SourceGroupClients]: the texts of
      addresses, the meaning of a rule and that its statements have it, which forwarding
      rules are generated, and which clients a Source Group admits;
    - [ChunkUploads]: [services/chunk_uploads.py] over the state [Uploads]: the sessions with
      their open files, the timer, the clock, the staging volume and how each operation on
      the disk ends; [ChunkUploadsSteps]: what each method does; [UploadPublication]:
      [services/upload_publication.py] over the names and inodes of a [Disk];
    - [TrafficPublishing]: [services/traffic_publishing.py], the enabling setting, the targets,
      the validation and rendering of NAT rules; [PortForwarding]:
      [services/port_forwarding.py] with [port_forward_schemas.py], over the tables of a
      [Session] with failing statements (a text validated by pydantic is the class
      [Pydantic], the answers of the helper are arguments); [PortForwardingSteps]: what its
      transactions do;
    - [Demo]: a concrete cipher and a concrete store, created and reopened by evaluation,
      used by the instances of the theorems.

    Theorems: at the end of [Ttlv], [ProtocolSpec], [ProtocolWf], [Diagnostics], [Slots] and
    [RecoveryGate], and in [StoreProps] (the store), [RecoveryProps] (archives and
    candidates), [RecoveryRuntimeProps] (imports), [ServiceProps] (dispatcher and store together),
    [ServerProps] (configuration), [KeyProvidersProps] and [KmipRecoveryProps] (control
    plane), [ConnectionProps] (streams, isolation of connections, limits), [TraceProps]
    (traces), [SourceGroupsProps], [FirewallProps], [FirewallRoutingProps],
    [FirewallServicesProps], [RoutingPermissionsProps] and [RoutingAppliedProps] (firewall),
    [TrafficPublishingProps], [PortForwardingProps] and [PortForwardingAppliedProps]
    (translation), [ChunkUploadsProps] and [UploadPublicationProps] (uploads).

    ** What is shown

    - Store: every call has the whole effect of its abstract operation on the map of keys or
      none of it, under every pattern of faults; no run of calls, crashes and restarts loses
      or changes a key; opening succeeds on sound files and refuses any other
      database, metadata is authenticated, and a read-only store writes nothing.
    - Recovery: an exported store comes back on another appliance with every key; a candidate
      that is accepted is sound whatever the archive holds; an import that fails or is
      stopped anywhere, any number of times, loses no store and can be completed; the
      service starts on an imported store only after an approval, which requires that the
      configuration admits no client beyond the imported trust.
    - Codec: the decoder accepts exactly the encodings of bounded trees; both directions
      terminate and their limits are exact.
    - Dispatcher: responses answer item by item, a provider is isolated from the others, and
      which exceptions are answered.
    - Server: configurations are validated and fail closed; requests on a stream are served
      in order whatever the packets; limits on size and connections hold.
    - Logs and traces: neither depends on the content of messages beyond allowlisted fields,
      and the trace file stays one that the validator accepts.
    - Control plane: the service accepts the configuration that is rendered for it and
      admits exactly the clients of enabled providers; imported trust is stored as it was
      returned, and disabled.
    - Firewall: Source Groups expand to what they reach, and cycles are reported; the rendered
      table decides as the rules say; nothing is forwarded between management networks and
      others, lab networks reach each other exactly as permitted, and new connections reach
      exactly the services that are enabled, from the clients they admit.  The actions shown
      for routing permissions are those of the rendered table, and permissions shown as
      applied are those of the table that was applied.
    - Translation: an accepted NAT rule stays within the lab; along every run of saves,
      deletions and switches a packet is translated by at most one port forward, and an
      accepted one reaches no address or management network of the appliance and takes no
      port it listens on; a forward shown as applied is the one that was applied; and the
      applied snapshot tells whether it has forwards.
    - Uploads: whatever calls are made and however the disk fails, capacity is bounded, an
      upload that is handed over holds the accepted bytes in order, sessions of different
      owners do not interfere, and abandoned ones are released; an upload replaces the
      revision that was approved and no other, and is taken back when its caller fails.
    - Some theorems record behaviour that looks unintended: [service_get] (identifiers that
      are no UUID), [nul_name_unanswered], [custody_store_lost], [tracing_drops_response],
      [recovery_completes_once], [accepted_any_list_unrendered], [superscript_port_raises],
      [scope_slugs_collide], [separator_hides_forwards], [previous_file_lost] and
      [separator_port_rendered].

    ** Bounds and fuel

    Recursion that is not structural takes fuel.  [Ttlv.decode] has 18 levels, one more than
    the depth limit can use; [receive_loop] has the requested size, since each round but the
    last adds a byte; [walk] has the number of nodes, since each is popped once; the JSON
    parser has the length of its input; [expand] and [visit] follow references through
    Source Groups with the number of groups, since a path holds each of them once.  In each
    case a theorem or lemma shows that the fuel never runs out.  32- and 64-bit fields are
    [Z] with explicit ranges and big-endian representations; Python integers are [Z].

    ** SHA-256

    [Sha256] is the algorithm.  Theorems in which a digest stands for what it was made of
    assume that SHA-256 does not collide on the two texts at hand ([collision_free] of
    these two), never that it has no collisions.

    ** Not modelled

    TLS, certificates and their parsing (parameters), threads other than the slots (the
    store serialises its methods with a lock, so a connection sees one call at a time),
    SQLite beyond the statements used, Unicode tables beyond ASCII in the trace validator
    (the class [PyRuntime]), [tls_context], [KmipTcpServerGroup], [build_server],
    [check_config] and the command lines.  Of the recovery helper the parsing of its request
    and the modes and owners of single files are left out; each system call is a step that
    happens, fails or is the last one before the machine stops, so a file that was written
    and not yet flushed survives a stop.  During an import nothing else writes to the two
    directories (the service is stopped, and the helper holds the appliance lock), and a
    new random name is not taken.  The legacy admission check ([legacy.py]) is outside.  Of the
    control plane and the firewall the dictionaries for views, [update_bootstrap_management_ipv6]
    and the normalisation of host names are left out; a packet is what the rendered matches
    read of it, a list without ports (which nft refuses) is a set without elements, and the
    semantics of the kernel's address translation and connection tracking are outside.  Of uploads the token of an overwrite challenge is left out, and other
    processes that change the destination while the lock is held; of port forwards the time
    stamps and the restoring of archives.  The rest of the appliance (user interface, DHCP,
    DNS, network boot, scripts) is not modelled.

    ** Plan

    Next: the retained service posture ([service_checkpoint] of the recovery helper), and
    the reverse proxies, whose listeners port forwards already respect. *)

From Stdlib Require Export ZArith Lia Strings.Byte Strings.Ascii Strings.String.
From stdpp Require Export prelude.

(* ------------------------------------------------------------------ *)
(** ** Python values shared by every component *)

Open Scope Z_scope.

(** A Python [bytes] object. *)
Abbreviation bytes := (list byte).

(** A Python [str]: its sequence of code points. *)
Abbreviation pystr := (list Z).

(** An ASCII literal of the source as a Python string. *)
Definition str (s : string) : pystr :=
  map (fun a => Z.of_N (N_of_ascii a)) (list_ascii_of_string s).
Arguments str : simpl never.

#[global] Instance byte_eq_dec : EqDecision byte := Byte.byte_eq_dec.

(** Python's exceptions, with the class names of the source.  [OutOfFuel] is
    not a Python exception: it marks a loop of the model that ran out of its
    bound, and each component proves that its entry points never return it.
    [PowerFailure] is not one either: it ends a run of the process at an I/O
    step, and no handler of the source sees it.  [SqliteError] stands for
    [sqlite3.OperationalError] and [sqlite3.IntegrityError], [IntegrityError] is the class
    of SQLAlchemy. *)
Inductive exn : Type :=
| TtlvError (msg : string)
| ProtocolFailure (reason : Z) (message : string)
| KeyStoreError (msg : string)
| KeyNotFoundError (msg : string)
| KeyStateError (msg : string)
| ConfigurationError (msg : string)
| TraceValidationError (msg : string)
| RecoveryError (msg : string)
| UploadError (status : Z) (message : string)
| PublicationConflict
| FileExistsError
| LookupError
| ValueError (msg : string)
| JSONDecodeError
| UnicodeEncodeError
| UnicodeDecodeError
| StructError
| TypeError
| KeyError
| AttributeError
| IndexError
| OverflowError
| AssertionError
| InvalidTag
| OSError
| SqliteError
| IntegrityError
| PowerFailure
| OutOfFuel.

(** [isinstance(exc, KeyStoreError)]: the store's three classes. *)
Definition is_KeyStoreError (e : exn) : bool :=
  match e with
  | KeyStoreError _ | KeyNotFoundError _ | KeyStateError _ => true
  | _ => false
  end.

(** [isinstance(exc, ValueError)]. *)
Definition is_ValueError (e : exn) : bool :=
  match e with
  | ValueError _ | TtlvError _ | ConfigurationError _ | TraceValidationError _ | RecoveryError _ | PublicationConflict | JSONDecodeError
  | UnicodeEncodeError | UnicodeDecodeError => true
  | _ => false
  end.

(** [isinstance(exc, Exception)]. *)
Definition is_Exception (e : exn) : bool :=
  match e with PowerFailure | OutOfFuel => false | _ => true end.

(* ------------------------------------------------------------------ *)
(** ** The error monad *)

Inductive res (A : Type) : Type :=
| Ok (a : A)
| Raise (e : exn).
Arguments Ok {A} a.
Arguments Raise {A} e.

#[global] Instance res_ret : MRet res := fun _ a => Ok a.
#[global] Instance res_bind : MBind res := fun _ _ f r =>
  match r with Ok a => f a | Raise e => Raise e end.
#[global] Instance res_fmap : FMap res := fun _ _ f r =>
  match r with Ok a => Ok (f a) | Raise e => Raise e end.

(** [if b: raise e]. *)
Definition raise_if (b : bool) (e : exn) : res unit := if b then Raise e else Ok tt.

(** [try: ... except C as exc: raise e from exc], for the classes [catch] selects. *)
Definition rethrow {A} (catch : exn -> bool) (e : exn) (r : res A) : res A :=
  match r with
  | Raise e' => if catch e' then Raise e else Raise e'
  | Ok a => Ok a
  end.

Definition is_ok {A} (r : res A) : bool :=
  match r with Ok _ => true | Raise _ => false end.

Lemma bind_Ok {A B} (r : res A) (f : A -> res B) b :
  (r ≫= f) = Ok b <-> exists a, r = Ok a /\ f a = Ok b.
Proof. destruct r; cbn; split; [eauto | intros (?&[= ->]&?); done | done | by intros (?&?&?)]. Qed.

Lemma bind_Raise {A B} (r : res A) (f : A -> res B) e :
  (r ≫= f) = Raise e <-> r = Raise e \/ exists a, r = Ok a /\ f a = Raise e.
Proof. destruct r; cbn; split; intros; destruct_or?; destruct_and?; naive_solver. Qed.

Lemma fmap_Ok {A B} (r : res A) (f : A -> B) b :
  (f <$> r) = Ok b <-> exists a, r = Ok a /\ f a = b.
Proof. destruct r; cbn; naive_solver. Qed.

Lemma fmap_Raise {A B} (r : res A) (f : A -> B) e :
  (f <$> r) = Raise e <-> r = Raise e.
Proof. destruct r; cbn; naive_solver. Qed.

Lemma raise_if_Ok b e u : raise_if b e = Ok u <-> b = false.
Proof. destruct b, u; cbn; naive_solver. Qed.

Lemma raise_if_Raise b e e' : raise_if b e = Raise e' <-> b = true /\ e' = e.
Proof. destruct b; cbn; naive_solver. Qed.

Lemma rethrow_Ok {A} c e (r : res A) a : rethrow c e r = Ok a <-> r = Ok a.
Proof. destruct r as [|e']; cbn; [done|]. destruct (c e'); naive_solver. Qed.

Lemma rethrow_Raise {A} c e (r : res A) e' :
  rethrow c e r = Raise e' <->
  exists e0, r = Raise e0 /\ e' = (if c e0 then e else e0).
Proof.
  destruct r as [|e0]; cbn; [split; [done|by intros (?&?&?)]|].
  destruct (c e0) eqn:E; split.
  - intros [= <-]. exists e0. by rewrite E.
  - intros (?&[= <-]&->). by rewrite E.
  - intros [= <-]. exists e0. by rewrite E.
  - intros (?&[= <-]&->). by rewrite E.
Qed.

(** Decompose a successful (or failed) monadic computation in the context. *)
Ltac res_step :=
  match goal with
  | H : mbind _ _ = Ok _ |- _ => apply bind_Ok in H; destruct H as (?&?&?)
  | H : mbind _ _ = Raise _ |- _ => apply bind_Raise in H; destruct H as [?|(?&?&?)]
  | H : fmap _ _ = Ok _ |- _ => apply fmap_Ok in H; destruct H as (?&?&?)
  | H : fmap _ _ = Raise _ |- _ => apply fmap_Raise in H
  | H : raise_if _ _ = Ok _ |- _ => apply raise_if_Ok in H
  | H : raise_if _ _ = Raise _ |- _ => apply raise_if_Raise in H; destruct H as [? ?]
  | H : rethrow _ _ _ = Ok _ |- _ => apply rethrow_Ok in H
  | H : mret _ = _ |- _ => unfold mret, res_ret in H
  | H : Ok _ = Ok _ |- _ => injection H as H
  | H : Raise _ = Raise _ |- _ => injection H as H
  | H : Ok _ = Raise _ |- _ => discriminate H
  | H : Raise _ = Ok _ |- _ => discriminate H
  end.
Ltac res_inv := repeat (res_step; simplify_eq).

(* ------------------------------------------------------------------ *)
(** ** State and exceptions *)

(** A computation that threads a state of type [S]; the state survives a raise. *)
Definition ST (S A : Type) : Type := S -> res A * S.

#[global] Instance ST_ret {S} : MRet (ST S) := fun _ a w => (Ok a, w).
#[global] Instance ST_bind {S} : MBind (ST S) := fun _ _ f c w =>
  match c w with
  | (Ok a, w') => f a w'
  | (Raise e, w') => (Raise e, w')
  end.

Definition lift {S A} (r : res A) : ST S A := fun w => (r, w).
Definition gets {S A} (f : S -> A) : ST S A := fun w => (Ok (f w), w).
Definition modify {S} (f : S -> S) : ST S unit := fun w => (Ok tt, f w).

(** [try: c except <classes> as exc: h(exc)]. *)
Definition catch {S A} (classes : exn -> bool) (c : ST S A) (h : exn -> ST S A) : ST S A := fun w =>
  match c w with
  | (Raise e, w') => if classes e then h e w' else (Raise e, w')
  | r => r
  end.

(** Every run of [c] from [w] ends in an outcome that satisfies [Q]. *)
Definition wp {S A} (c : ST S A) (Q : res A -> S -> Prop) (w : S) : Prop :=
  Q (c w).1 (c w).2.

Section wp.
Context {S A B : Type}.
Implicit Types (w : S) (Q : res A -> S -> Prop).

Lemma wp_run (c : ST S A) Q w r w' : wp c Q w -> c w = (r, w') -> Q r w'.
Proof. unfold wp. intros H E. by rewrite E in H. Qed.

Lemma run_bind_Ok (c : ST S A) (k : A -> ST S B) w b w' :
  (c ≫= k) w = (Ok b, w') -> exists a w1, c w = (Ok a, w1) /\ k a w1 = (Ok b, w').
Proof. unfold mbind, ST_bind. destruct (c w) as [[a|e] w1]; [eauto|done]. Qed.

Lemma lift_run (r : res A) w x w' : lift r w = (x, w') -> r = x /\ w = w'.
Proof. unfold lift. split; congruence. Qed.

Lemma catch_Ok classes (c : ST S A) h w a w' :
  catch classes c h w = (Ok a, w') ->
  c w = (Ok a, w') \/ exists e w1, c w = (Raise e, w1) /\ classes e = true /\ h e w1 = (Ok a, w').
Proof.
  unfold catch. destruct (c w) as [[b|e] w1]; [by left|]. destruct (classes e) eqn:E; [|done].
  intros Hh. right. eauto.
Qed.

Lemma wp_eq (c : ST S A) Q w r w' : c w = (r, w') -> Q r w' -> wp c Q w.
Proof. unfold wp. by intros ->. Qed.

Lemma wp_mono (c : ST S A) (Q Q' : res A -> S -> Prop) w :
  wp c Q w -> (forall r w', Q r w' -> Q' r w') -> wp c Q' w.
Proof. unfold wp. auto. Qed.

Lemma wp_and (c : ST S A) (Q Q' : res A -> S -> Prop) w :
  wp c Q w -> wp c Q' w -> wp c (fun r w' => Q r w' /\ Q' r w') w.
Proof. unfold wp. auto. Qed.

Lemma wp_ret (a : A) Q w : Q (Ok a) w -> wp (mret a) Q w.
Proof. done. Qed.

Lemma wp_bind (c : ST S A) (k : A -> ST S B) (Q : res B -> S -> Prop) w :
  wp c (fun r w' => match r with Ok a => wp (k a) Q w' | Raise e => Q (Raise e) w' end) w ->
  wp (c ≫= k) Q w.
Proof. unfold wp, mbind, ST_bind. cbn. destruct (c w) as [[a|e] w']; done. Qed.

Lemma wp_lift (r : res A) Q w : Q r w -> wp (lift r) Q w.
Proof. done. Qed.

Lemma wp_gets (f : S -> A) Q w : Q (Ok (f w)) w -> wp (gets f) Q w.
Proof. done. Qed.

Lemma wp_modify (f : S -> S) (Q : res unit -> S -> Prop) w : Q (Ok tt) (f w) -> wp (modify f) Q w.
Proof. done. Qed.

Lemma wp_catch (classes : exn -> bool) (c : ST S A) (h : exn -> ST S A) Q w :
  wp c (fun r w' => match r with
                    | Ok a => Q (Ok a) w'
                    | Raise e => if classes e then wp (h e) Q w' else Q (Raise e) w'
                    end) w ->
  wp (catch classes c h) Q w.
Proof.
  unfold wp, catch. cbn. destruct (c w) as [[a|e] w']; [done|]. cbn. by destruct (classes e).
Qed.
End wp.

(* ------------------------------------------------------------------ *)
(** ** Bytes as integers *)

(** [b] as an element of [range(256)]. *)
Definition byte_val (b : byte) : Z := Z.of_N (Byte.to_N b).

(** The low eight bits of [z] as a byte. *)
Definition to_byte (z : Z) : byte :=
  match Byte.of_N (Z.to_N (z mod 256)) with Some b => b | None => x00 end.

Lemma byte_val_range b : 0 <= byte_val b < 256.
Proof. unfold byte_val. pose proof (Byte.to_N_bounded b). lia. Qed.

Lemma byte_val_to_byte z : byte_val (to_byte z) = z mod 256.
Proof.
  unfold byte_val, to_byte.
  pose proof (Z.mod_pos_bound z 256 ltac:(lia)) as Hz.
  destruct (Byte.of_N _) as [b|] eqn:E.
  - apply Byte.to_of_N in E. rewrite E. lia.
  - apply Byte.of_N_None_iff in E. lia.
Qed.

Lemma to_byte_val b : to_byte (byte_val b) = b.
Proof.
  unfold to_byte. rewrite Z.mod_small by apply byte_val_range.
  unfold byte_val. by rewrite N2Z.id, Byte.of_to_N.
Qed.

#[global] Instance byte_val_inj : Inj (=) (=) byte_val.
Proof. intros a b H. by rewrite <- (to_byte_val a), H, to_byte_val. Qed.

(** [int.from_bytes(b, "big")]. *)
Definition from_bytes_big (b : bytes) : Z :=
  fold_left (fun acc x => acc * 256 + byte_val x) b 0.

(** [z.to_bytes(n, "big")] for a [z] that fits in [n] bytes. *)
Fixpoint to_bytes_big (n : nat) (z : Z) : bytes :=
  match n with
  | O => []
  | S n' => to_bytes_big n' (z / 256) ++ [to_byte z]
  end.

Lemma from_bytes_big_snoc b x :
  from_bytes_big (b ++ [x]) = from_bytes_big b * 256 + byte_val x.
Proof. unfold from_bytes_big. by rewrite fold_left_app. Qed.

Lemma length_to_bytes_big n z : length (to_bytes_big n z) = n.
Proof. revert z; induction n; intros z; cbn; [done|]. rewrite length_app, IHn. cbn. lia. Qed.

Lemma from_bytes_big_range b : 0 <= from_bytes_big b < 256 ^ Z.of_nat (length b).
Proof.
  induction b as [|x b IH] using rev_ind; [cbn; lia|].
  rewrite from_bytes_big_snoc, length_app. cbn [length].
  rewrite Nat2Z.inj_add, Z.pow_add_r by lia.
  change (256 ^ Z.of_nat 1) with 256. pose proof (byte_val_range x). lia.
Qed.

Lemma from_to_bytes_big n z :
  from_bytes_big (to_bytes_big n z) = z mod 256 ^ Z.of_nat n.
Proof.
  revert z; induction n as [|n IH]; intros z; [cbn; by rewrite Z.mod_1_r|].
  cbn [to_bytes_big]. rewrite from_bytes_big_snoc, IH, byte_val_to_byte.
  rewrite Nat2Z.inj_succ, Z.pow_succ_r by lia.
  rewrite Z.rem_mul_r by lia. lia.
Qed.

Lemma to_from_bytes_big b : to_bytes_big (length b) (from_bytes_big b) = b.
Proof.
  induction b as [|x b IH] using rev_ind; [done|].
  rewrite length_app, Nat.add_comm. cbn.
  rewrite from_bytes_big_snoc.
  pose proof (byte_val_range x).
  rewrite Z.div_add_l, (Z.div_small (byte_val x)) by lia.
  rewrite Z.add_0_r, IH. f_equal. f_equal.
  apply byte_val_inj. rewrite byte_val_to_byte, Z.add_comm, Z.mod_add by lia.
  by apply Z.mod_small.
Qed.

(** Two's complement: the signed value of an [n]-byte unsigned [u]. *)
Definition to_signed (n : nat) (u : Z) : Z :=
  if u <? 2 ^ (8 * Z.of_nat n - 1) then u else u - 2 ^ (8 * Z.of_nat n).

(** [struct.pack(">i", z)] ([n] = 4) and [struct.pack(">q", z)] ([n] = 8). *)
Definition pack_signed (n : nat) (z : Z) : res bytes :=
  if (- 2 ^ (8 * Z.of_nat n - 1) <=? z) && (z <? 2 ^ (8 * Z.of_nat n - 1))
  then Ok (to_bytes_big n z)
  else Raise StructError.

(** [struct.unpack(">i", b)[0]] and [struct.unpack(">q", b)[0]]. *)
Definition unpack_signed (n : nat) (b : bytes) : Z := to_signed n (from_bytes_big b).

Lemma pow256 n : 256 ^ Z.of_nat n = 2 ^ (8 * Z.of_nat n).
Proof. by rewrite Z.pow_mul_r by lia. Qed.

Lemma pow2_half n : (0 < n)%nat -> 2 ^ (8 * Z.of_nat n) = 2 * 2 ^ (8 * Z.of_nat n - 1).
Proof. intros. rewrite <- Z.pow_succ_r by lia. f_equal. lia. Qed.

Lemma unpack_pack n z b :
  (0 < n)%nat -> pack_signed n z = Ok b -> unpack_signed n b = z /\ length b = n.
Proof.
  unfold pack_signed, unpack_signed, to_signed. intros Hn H.
  destruct (_ && _) eqn:E; [|done]. injection H as <-.
  split; [|apply length_to_bytes_big].
  apply andb_prop in E as [E1 E2].
  rewrite from_to_bytes_big, pow256, pow2_half by done.
  set (h := 2 ^ _) in *.
  destruct (Z.ltb_spec z 0).
  - rewrite <- (Z_mod_plus_full z 1), Z.mod_small by lia. destruct (Z.ltb_spec (z + 1 * (2 * h)) h); lia.
  - rewrite Z.mod_small by lia. destruct (Z.ltb_spec z h); lia.
Qed.

Lemma pack_unpack n b :
  (0 < n)%nat -> length b = n -> pack_signed n (unpack_signed n b) = Ok b.
Proof.
  unfold pack_signed, unpack_signed, to_signed. intros Hn Hb.
  pose proof (from_bytes_big_range b) as Hr. rewrite Hb, pow256, pow2_half in Hr by done.
  rewrite pow2_half by done. set (h := 2 ^ _) in *.
  destruct (Z.ltb_spec (from_bytes_big b) h).
  - replace (_ && _) with true by (symmetry; apply andb_true_intro; lia).
    by rewrite <- Hb, to_from_bytes_big.
  - replace (_ && _) with true by (symmetry; apply andb_true_intro; lia).
    f_equal. rewrite <- (to_from_bytes_big b) at 2.
    rewrite <- (to_from_bytes_big (to_bytes_big n _)), length_to_bytes_big, from_to_bytes_big.
    rewrite pow256, pow2_half, Hb by done. fold h.
    rewrite <- (Z_mod_plus_full _ 1), Z.mod_small by lia. f_equal; lia.
Qed.

Lemma unpack_signed_range n b :
  (0 < n)%nat -> length b = n ->
  - 2 ^ (8 * Z.of_nat n - 1) <= unpack_signed n b < 2 ^ (8 * Z.of_nat n - 1).
Proof.
  intros Hn Hb. pose proof (pack_unpack n b Hn Hb) as H. unfold pack_signed in H.
  destruct (_ && _) eqn:E in H; [lia|done].
Qed.

(* ------------------------------------------------------------------ *)
(** ** Lists as Python sequences *)

(** [len(l)]. *)
Definition zlen {A} (l : list A) : Z := Z.of_nat (length l).

(** [l[a:b]] for nonnegative [a] and [b]. *)
Definition slice {A} (l : list A) (a b : Z) : list A :=
  take (Z.to_nat (b - a)) (drop (Z.to_nat a) l).

(** [key in collection] for a list of constants. *)
Definition mem {A} `{EqDecision A} (x : A) (l : list A) : bool := bool_decide (x ∈ l).

Lemma zlen_nonneg {A} (l : list A) : 0 <= zlen l.
Proof. unfold zlen. lia. Qed.

Lemma zlen_app {A} (l k : list A) : zlen (l ++ k) = zlen l + zlen k.
Proof. unfold zlen. rewrite length_app. lia. Qed.

Lemma zlen_cons {A} (x : A) l : zlen (x :: l) = 1 + zlen l.
Proof. unfold zlen. cbn [length]. lia. Qed.

Lemma zlen_replicate {A} n (x : A) : zlen (replicate n x) = Z.of_nat n.
Proof. unfold zlen. by rewrite length_replicate. Qed.

Lemma zlen_slice {A} (l : list A) a b :
  0 <= a -> a <= b -> b <= zlen l -> zlen (slice l a b) = b - a.
Proof. unfold zlen, slice. intros. rewrite length_take, length_drop. lia. Qed.

(** A slice that lies inside the middle part of a concatenation. *)
Lemma slice_app {A} (pre mid post : list A) :
  slice (pre ++ mid ++ post) (zlen pre) (zlen pre + zlen mid) = mid.
Proof.
  unfold slice, zlen. rewrite Nat2Z.id, drop_app_length.
  replace (Z.to_nat _) with (length mid) by lia. apply take_app_length.
Qed.

Lemma slice_split {A} (l : list A) a b c :
  0 <= a -> a <= b -> b <= c -> slice l a c = slice l a b ++ slice l b c.
Proof.
  intros. unfold slice.
  replace (drop (Z.to_nat b) l) with (drop (Z.to_nat (b - a)) (drop (Z.to_nat a) l))
    by (rewrite drop_drop; f_equal; lia).
  set (k := drop (Z.to_nat a) l).
  rewrite <- (take_drop (Z.to_nat (b - a)) (take (Z.to_nat (c - a)) k)).
  rewrite take_take, Nat.min_l by lia. f_equal.
  rewrite take_drop_commute. f_equal. f_equal. lia.
Qed.

Lemma slice_full {A} (l : list A) : slice l 0 (zlen l) = l.
Proof. unfold slice, zlen. rewrite drop_0. apply firstn_all2. lia. Qed.

Lemma slice_nil {A} (l : list A) a : slice l a a = [].
Proof. unfold slice. by rewrite Z.sub_diag. Qed.

Lemma filter_elem {A} (q : A -> bool) l x : x ∈ List.filter q l <-> (x ∈ l) /\ q x = true.
Proof. by rewrite list_elem_of_In, filter_In, <- list_elem_of_In. Qed.

Lemma concat_map_elem {A B} (f : A -> list B) l y : y ∈ concat (map f l) <-> exists x, (x ∈ l) /\ (y ∈ f x).
Proof.
  induction l as [|x l IH]; cbn; [split; [by intros ?%not_elem_of_nil|by intros (?&?%not_elem_of_nil&_)]|].
  rewrite elem_of_app, IH. setoid_rewrite elem_of_cons. naive_solver.
Qed.

Lemma concat_map_nil {A B} (f : A -> list B) l : concat (map f l) = [] <-> forall x, x ∈ l -> f x = [].
Proof.
  induction l as [|x l IH]; cbn; [by split; [intros _ ? ?%not_elem_of_nil|]|]. rewrite app_nil, IH. split.
  - intros [Hx Hl] y [->|Hy]%elem_of_cons; auto.
  - intros Hall. split; [apply Hall; by left|intros y Hy; apply Hall; by right].
Qed.

(** [b"\0" * n]. *)
Definition zeros (n : Z) : bytes := replicate (Z.to_nat n) x00.

(** [any(b)] is false exactly when every byte is zero. *)
Definition any_nonzero (b : bytes) : bool :=
  existsb (fun x => negb (byte_val x =? 0)) b.

Lemma any_nonzero_zeros n : any_nonzero (zeros n) = false.
Proof. unfold any_nonzero, zeros. by induction (Z.to_nat n). Qed.

Lemma any_nonzero_false b : any_nonzero b = false -> b = zeros (zlen b).
Proof.
  unfold zeros, zlen. rewrite Nat2Z.id. induction b as [|x b IH]; cbn; [done|].
  intros [Hx Hb]%orb_false_elim. f_equal; [|by apply IH].
  apply byte_val_inj. change (byte_val x00) with 0. lia.
Qed.

(** [len(xs) == len(set(xs))]: no element occurs twice. *)
Definition all_distinct {A} `{EqDecision A} (l : list A) : bool := bool_decide (NoDup l).

(** [mapM] succeeds exactly when every element does. *)
Lemma res_mapM_Ok {A B} (f : A -> res B) l k :
  mapM f l = Ok k <-> Forall2 (fun x y => f x = Ok y) l k.
Proof.
  revert k; induction l as [|x l IH]; intros k; cbn.
  - split; [intros [= <-]; constructor | by inversion 1].
  - split.
    + intros H. res_inv. constructor; [done|]. by apply IH.
    + inversion 1; subst. apply bind_Ok. eexists; split; [done|].
      apply bind_Ok. eexists; split; [by apply IH|done].
Qed.

Lemma res_mapM_Raise {A B} (f : A -> res B) l e :
  mapM f l = Raise e -> exists x, x ∈ l /\ f x = Raise e.
Proof.
  induction l as [|x l IH]; cbn; intros H; res_inv.
  - exists x. split; [constructor|done].
  - destruct IH as (y&?&?); [done|]. exists y. split; [by constructor|done].
Qed.
