(* ===== verification/Utf8.v ===== *)
(** UTF-8, as [str.encode("utf-8")] and [bytes.decode("utf-8")] implement it
    with the default [strict] error handler.  The KMIP codec, the key store and
    the JSON documents of the service all go through these two functions. *)

From S2P Require Import Prelude.
Open Scope Z_scope.

(** A Unicode scalar value: what UTF-8 can represent.  Python's [str] also
    holds the surrogates, which the strict encoder refuses. *)
Definition is_scalar (c : Z) : bool :=
  (0 <=? c) && (c <? 0x110000) && negb ((0xD800 <=? c) && (c <? 0xE000)).

(** The UTF-8 bytes of one code point. *)
Definition utf8_encode_char (c : Z) : res bytes :=
  if negb (is_scalar c) then Raise UnicodeEncodeError
  else if c <? 0x80 then Ok [to_byte c]
  else if c <? 0x800 then
    Ok [to_byte (0xC0 + c / 64); to_byte (0x80 + c mod 64)]
  else if c <? 0x10000 then
    Ok [to_byte (0xE0 + c / 4096); to_byte (0x80 + c / 64 mod 64); to_byte (0x80 + c mod 64)]
  else
    Ok [to_byte (0xF0 + c / 262144); to_byte (0x80 + c / 4096 mod 64);
        to_byte (0x80 + c / 64 mod 64); to_byte (0x80 + c mod 64)].

(** [s.encode("utf-8")]. *)
Fixpoint utf8_encode (s : pystr) : res bytes :=
  match s with
  | [] => Ok []
  | c :: s' => b ← utf8_encode_char c; r ← utf8_encode s'; Ok (b ++ r)
  end.

(** A continuation byte [10xxxxxx] and its payload. *)
Definition cont (b : byte) : option Z :=
  let v := byte_val b in
  if (0x80 <=? v) && (v <? 0xC0) then Some (v - 0x80) else None.

(** [b.decode("utf-8", errors)]: overlong forms, values above U+10FFFF and stray
    or missing continuation bytes are errors; surrogates are, too, unless
    [errors] is [surrogatepass] ([sp]). *)
Fixpoint utf8_decode_with (sp : bool) (b : bytes) : res pystr :=
  match b with
  | [] => Ok []
  | b0 :: r0 =>
    let v := byte_val b0 in
    if v <? 0x80 then cons v <$> utf8_decode_with sp r0
    else match r0 with
    | [] => Raise UnicodeDecodeError
    | b1 :: r1 =>
      match cont b1 with
      | None => Raise UnicodeDecodeError
      | Some c1 =>
        if (0xC2 <=? v) && (v <? 0xE0) then
          cons ((v - 0xC0) * 64 + c1) <$> utf8_decode_with sp r1
        else match r1 with
        | [] => Raise UnicodeDecodeError
        | b2 :: r2 =>
          match cont b2 with
          | None => Raise UnicodeDecodeError
          | Some c2 =>
            if (0xE0 <=? v) && (v <? 0xF0) then
              let c := (v - 0xE0) * 4096 + c1 * 64 + c2 in
              if (0x800 <=? c) && (sp || is_scalar c) then cons c <$> utf8_decode_with sp r2
              else Raise UnicodeDecodeError
            else match r2 with
            | [] => Raise UnicodeDecodeError
            | b3 :: r3 =>
              match cont b3 with
              | None => Raise UnicodeDecodeError
              | Some c3 =>
                let c := (v - 0xF0) * 262144 + c1 * 4096 + c2 * 64 + c3 in
                if (0xF0 <=? v) && (0x10000 <=? c) && is_scalar c
                then cons c <$> utf8_decode_with sp r3
                else Raise UnicodeDecodeError
              end
            end
          end
        end
      end
    end
  end.

(** [b.decode("utf-8")], the strict decoder. *)
Definition utf8_decode (b : bytes) : res pystr := utf8_decode_with false b.

(* ------------------------------------------------------------------ *)

Lemma is_scalar_spec c :
  is_scalar c = true <-> 0 <= c < 0x110000 /\ ~ (0xD800 <= c < 0xE000).
Proof. unfold is_scalar. lia. Qed.

Lemma cont_to_byte x : 0 <= x < 64 -> cont (to_byte (0x80 + x)) = Some x.
Proof.
  intros H. unfold cont. rewrite byte_val_to_byte, Z.mod_small by lia.
  replace (_ && _) with true by (symmetry; apply andb_true_intro; lia). f_equal; lia.
Qed.

Lemma cont_Some b x : cont b = Some x -> byte_val b = 0x80 + x /\ 0 <= x < 64.
Proof. unfold cont. destruct (_ && _) eqn:E; intros [= <-]. lia. Qed.

Ltac div_mod_facts c :=
  pose proof (Z.div_mod c 64 ltac:(lia)); pose proof (Z.mod_pos_bound c 64 ltac:(lia));
  pose proof (Z.div_mod (c / 64) 64 ltac:(lia)); pose proof (Z.mod_pos_bound (c / 64) 64 ltac:(lia));
  pose proof (Z.div_mod (c / 64 / 64) 64 ltac:(lia));
  pose proof (Z.mod_pos_bound (c / 64 / 64) 64 ltac:(lia)).

Lemma div_4096 c : c / 4096 = c / 64 / 64.
Proof. by rewrite Z.div_div by lia. Qed.
Lemma div_262144 c : c / 262144 = c / 64 / 64 / 64.
Proof. by rewrite !Z.div_div by lia. Qed.

(** Decoding the encoding of one character, whatever follows it. *)
Lemma utf8_decode_char sp c b r :
  utf8_encode_char c = Ok b -> utf8_decode_with sp (b ++ r) = (cons c <$> utf8_decode_with sp r).
Proof.
  unfold utf8_encode_char. destruct (is_scalar c) eqn:Hs; cbn [negb]; [|done].
  pose proof (proj1 (is_scalar_spec c) Hs) as [Hc Hsur].
  rewrite ?div_4096, ?div_262144. div_mod_facts c.
  destruct (Z.ltb_spec c 0x80); [|destruct (Z.ltb_spec c 0x800); [|destruct (Z.ltb_spec c 0x10000)]];
    intros [= <-]; cbn [app utf8_decode_with]; rewrite !byte_val_to_byte, ?Z.mod_small by lia.
  - by destruct (Z.ltb_spec c 0x80); [|lia].
  - destruct (Z.ltb_spec (0xC0 + c / 64) 0x80); [lia|].
    rewrite cont_to_byte by lia.
    replace (_ && _) with true by (symmetry; apply andb_true_intro; lia).
    by replace (_ * 64 + _) with c by lia.
  - destruct (Z.ltb_spec (0xE0 + c / 64 / 64) 0x80); [lia|].
    rewrite !cont_to_byte by lia.
    replace (_ && (_ <? 0xE0)) with false by lia.
    replace (_ && (_ <? 0xF0)) with true by lia.
    replace (_ * 4096 + _ * 64 + _) with c by lia. rewrite Hs, orb_true_r.
    by replace (_ && true) with true by lia.
  - destruct (Z.ltb_spec (0xF0 + c / 64 / 64 / 64) 0x80); [lia|].
    rewrite !cont_to_byte by lia.
    replace (_ && (_ <? 0xE0)) with false by lia.
    replace (_ && (_ <? 0xF0)) with false by lia.
    replace (_ * 262144 + _ * 4096 + _ * 64 + _) with c by lia. rewrite Hs.
    by replace (_ && _ && true) with true by lia.
Qed.

(** What [encode] writes, [decode] reads back. *)
Lemma utf8_decode_encode sp s b : utf8_encode s = Ok b -> utf8_decode_with sp b = Ok s.
Proof.
  revert b; induction s as [|c s IH]; intros b; cbn; intros H; res_inv; [done|].
  erewrite utf8_decode_char by done. by erewrite IH.
Qed.

Lemma utf8_encode_char_2 v c1 :
  0xC2 <= v < 0xE0 -> 0 <= c1 < 64 ->
  utf8_encode_char ((v - 0xC0) * 64 + c1) = Ok [to_byte v; to_byte (0x80 + c1)].
Proof.
  intros Hv Hc. unfold utf8_encode_char. set (c := _ * 64 + _).
  replace (is_scalar c) with true by (unfold is_scalar; lia). cbn [negb].
  destruct (Z.ltb_spec c 0x80); [lia|]. destruct (Z.ltb_spec c 0x800); [|lia].
  pose proof (Z.div_mod c 64 ltac:(lia)); pose proof (Z.mod_pos_bound c 64 ltac:(lia)).
  assert (c / 64 = v - 0xC0) by (unfold c in *; lia). repeat f_equal; lia.
Qed.

Lemma utf8_encode_char_3 v c1 c2 :
  0xE0 <= v < 0xF0 -> 0 <= c1 < 64 -> 0 <= c2 < 64 ->
  let c := (v - 0xE0) * 4096 + c1 * 64 + c2 in
  (0x800 <=? c) && (false || is_scalar c) = true ->
  utf8_encode_char c = Ok [to_byte v; to_byte (0x80 + c1); to_byte (0x80 + c2)].
Proof.
  intros Hv H1 H2 c [Hc Hs]%andb_prop. rewrite orb_false_l in Hs.
  unfold utf8_encode_char. rewrite Hs; cbn [negb].
  destruct (Z.ltb_spec c 0x80); [lia|]. destruct (Z.ltb_spec c 0x800); [lia|].
  destruct (Z.ltb_spec c 0x10000); [|lia].
  rewrite div_4096. div_mod_facts c.
  assert (c / 64 = (v - 0xE0) * 64 + c1) by (unfold c in *; lia).
  assert (c / 64 / 64 = v - 0xE0) by lia.
  repeat f_equal; lia.
Qed.

Lemma utf8_encode_char_4 v c1 c2 c3 :
  0xF0 <= v < 0x100 -> 0 <= c1 < 64 -> 0 <= c2 < 64 -> 0 <= c3 < 64 ->
  let c := (v - 0xF0) * 262144 + c1 * 4096 + c2 * 64 + c3 in
  (0xF0 <=? v) && (0x10000 <=? c) && is_scalar c = true ->
  utf8_encode_char c =
    Ok [to_byte v; to_byte (0x80 + c1); to_byte (0x80 + c2); to_byte (0x80 + c3)].
Proof.
  intros Hv H1 H2 H3 c [[? Hc]%andb_prop Hs]%andb_prop. unfold utf8_encode_char.
  rewrite Hs; cbn [negb].
  destruct (Z.ltb_spec c 0x80); [lia|]. destruct (Z.ltb_spec c 0x800); [lia|].
  destruct (Z.ltb_spec c 0x10000); [lia|].
  rewrite div_4096, div_262144. div_mod_facts c.
  assert (c / 64 = (v - 0xF0) * 4096 + c1 * 64 + c2) by (unfold c in *; lia).
  assert (c / 64 / 64 = (v - 0xF0) * 64 + c1) by lia.
  assert (c / 64 / 64 / 64 = v - 0xF0) by lia.
  repeat f_equal; lia.
Qed.

Lemma utf8_encode_cons c b s r :
  utf8_encode_char c = Ok b -> utf8_encode s = Ok r -> utf8_encode (c :: s) = Ok (b ++ r).
Proof. intros H1 H2. cbn. by rewrite H1, H2. Qed.

(** What [decode] accepts is the unique encoding of its result. *)
Lemma utf8_encode_decode b s : utf8_decode b = Ok s -> utf8_encode s = Ok b.
Proof.
  unfold utf8_decode. revert s. remember (length b) as n eqn:Hn. revert b Hn.
  induction (lt_wf n) as [n _ IH]; intros b Hn s H.
  destruct b as [|b0 r0]; [by injection H as <-|]. cbn [utf8_decode_with] in H.
  pose proof (byte_val_range b0).
  destruct (Z.ltb_spec (byte_val b0) 0x80).
  { res_inv. change (b0 :: r0) with ([b0] ++ r0). apply utf8_encode_cons.
    - unfold utf8_encode_char. replace (is_scalar _) with true by (unfold is_scalar; lia). cbn [negb].
      destruct (Z.ltb_spec (byte_val b0) 0x80); [|lia]. by rewrite to_byte_val.
    - eapply IH; [|done|done]. cbn; lia. }
  repeat match type of H with
  | match ?l with [] => _ | _ :: _ => _ end = _ => destruct l; [done|]
  | match cont ?b with _ => _ end = _ => destruct (cont b) eqn:?; [|done]
  | (if ?c then _ else _) = _ => destruct c eqn:?; [| try done]
  end; res_inv;
  repeat match goal with
  | E : cont _ = Some _ |- _ => apply cont_Some in E as [? ?]
  end.
  - change (b0 :: ?b1 :: ?r) with ([b0; b1] ++ r). apply utf8_encode_cons.
    + rewrite utf8_encode_char_2 by lia. rewrite to_byte_val. repeat f_equal.
      apply byte_val_inj. rewrite byte_val_to_byte, Z.mod_small; lia.
    + eapply IH; [|done|done]. cbn; lia.
  - change (b0 :: ?b1 :: ?b2 :: ?r) with ([b0; b1; b2] ++ r). apply utf8_encode_cons.
    + rewrite utf8_encode_char_3 by (done || lia). rewrite to_byte_val.
      repeat f_equal; apply byte_val_inj; rewrite byte_val_to_byte, Z.mod_small; lia.
    + eapply IH; [|done|done]. cbn; lia.
  - change (b0 :: ?b1 :: ?b2 :: ?b3 :: ?r) with ([b0; b1; b2; b3] ++ r). apply utf8_encode_cons.
    + rewrite utf8_encode_char_4 by (done || lia). rewrite to_byte_val.
      repeat f_equal; apply byte_val_inj; rewrite byte_val_to_byte, Z.mod_small; lia.
    + eapply IH; [|done|done]. cbn; lia.
Qed.

Lemma utf8_encode_char_ok c : is_scalar c = true -> exists b, utf8_encode_char c = Ok b.
Proof.
  intros H. unfold utf8_encode_char. rewrite H; cbn [negb].
  repeat match goal with |- context [if ?c then _ else _] => destruct c end; eauto.
Qed.

(** [encode] succeeds exactly on the strings of scalar values. *)
Lemma utf8_encode_ok s :
  (exists b, utf8_encode s = Ok b) <-> Forall (fun c => is_scalar c = true) s.
Proof.
  split.
  - intros [b H]. revert b H; induction s as [|c s IH]; intros b H; cbn in H; res_inv; constructor; eauto.
    unfold utf8_encode_char in *. by destruct (is_scalar c).
  - induction 1 as [|c s Hc _ [b IH]]; [by eexists|].
    destruct (utf8_encode_char_ok c Hc) as [b' Hb']. eexists. by apply utf8_encode_cons.
Qed.

Lemma utf8_encode_raise s e : utf8_encode s = Raise e -> e = UnicodeEncodeError.
Proof.
  induction s as [|c s IH]; cbn; intros H; res_inv; eauto.
  unfold utf8_encode_char in *.
  repeat match goal with E : context [if ?c then _ else _] |- _ => destruct c end; naive_solver.
Qed.

Lemma utf8_decode_with_raise sp b e : utf8_decode_with sp b = Raise e -> e = UnicodeDecodeError.
Proof.
  remember (length b) as n eqn:Hn. revert b Hn.
  induction (lt_wf n) as [n _ IH]; intros b Hn H.
  destruct b as [|b0 r0]; [done|]. cbn [utf8_decode_with] in H.
  repeat match type of H with
  | (if ?c then _ else _) = _ => destruct c
  | match ?l with [] => _ | _ :: _ => _ end = _ => destruct l
  | match cont ?b with _ => _ end = _ => destruct (cont b)
  end; res_inv; try done; eapply IH; try done; cbn; lia.
Qed.

Lemma utf8_decode_raise b e : utf8_decode b = Raise e -> e = UnicodeDecodeError.
Proof. apply utf8_decode_with_raise. Qed.

(** Every decoded character is a scalar value. *)
Lemma utf8_decode_scalar b s : utf8_decode b = Ok s -> Forall (fun c => is_scalar c = true) s.
Proof. intros H%utf8_encode_decode. apply utf8_encode_ok. eauto. Qed.

(** ASCII text is its own UTF-8 encoding, one byte per character. *)
Lemma utf8_encode_ascii s :
  Forall (fun c => 0 <= c < 128) s -> utf8_encode s = Ok (map to_byte s).
Proof.
  induction 1 as [|c s Hc _ IH]; [done|]. cbn. rewrite IH.
  unfold utf8_encode_char. replace (is_scalar c) with true by (unfold is_scalar; lia).
  cbn [negb]. by destruct (Z.ltb_spec c 0x80); [|lia].
Qed.

(** Number of bytes of a character's encoding. *)
Definition utf8_char_size (c : Z) : Z :=
  if c <? 0x80 then 1 else if c <? 0x800 then 2 else if c <? 0x10000 then 3 else 4.

Fixpoint utf8_size (s : pystr) : Z :=
  match s with [] => 0 | c :: s' => utf8_char_size c + utf8_size s' end.

Lemma utf8_encode_size s b : utf8_encode s = Ok b -> zlen b = utf8_size s.
Proof.
  revert b; induction s as [|c s IH]; intros b H; cbn in *; res_inv; [done|].
  rewrite zlen_app, (IH _ ltac:(done)). f_equal.
  unfold utf8_encode_char, utf8_char_size in *.
  repeat match goal with E : context [if ?c then _ else _] |- _ => destruct c end; by simplify_eq.
Qed.

Lemma utf8_size_length s : zlen s <= utf8_size s.
Proof.
  induction s as [|c s IH]; cbn [utf8_size]; [done|]. rewrite zlen_cons.
  unfold utf8_char_size. repeat case_match; lia.
Qed.
