(* ===== verification/PyText.v ===== *)
(** Python text primitives the service relies on: positional digits, [int(s, 16)],
    [str.replace], [str.strip] and the lexicographic order of [sorted]. *)

From stdpp Require Export sorting.
From S2P Require Import Prelude.
Open Scope Z_scope.

(* ------------------------------------------------------------------ *)
(** ** Positional notation *)

(** The [n] low digits of [z] in base [b], most significant first. *)
Fixpoint digits_fixed (b : Z) (n : nat) (z : Z) : list Z :=
  match n with
  | O => []
  | S n' => digits_fixed b n' (z / b) ++ [z mod b]
  end.

Definition of_digits (b : Z) (l : list Z) : Z := fold_left (fun acc d => acc * b + d) l 0.

(** Number of base-[b] digits of [z >= 0], at least one. *)
Fixpoint num_digits (b : Z) (fuel : nat) (z : Z) : nat :=
  match fuel with
  | O => 1
  | S f => if z <? b then 1 else S (num_digits b f (z / b))
  end.

Definition digits (b z : Z) : list Z :=
  digits_fixed b (num_digits b (Z.to_nat (Z.log2 z)) z) z.

Lemma of_digits_snoc b l d : of_digits b (l ++ [d]) = of_digits b l * b + d.
Proof. unfold of_digits. by rewrite fold_left_app. Qed.

Lemma length_digits_fixed b n z : length (digits_fixed b n z) = n.
Proof. revert z; induction n; intros z; cbn; [done|]. rewrite length_app, IHn. cbn. lia. Qed.

Lemma of_digits_fixed b n z : 1 < b -> of_digits b (digits_fixed b n z) = z mod b ^ Z.of_nat n.
Proof.
  intros Hb. revert z; induction n as [|n IH]; intros z; [cbn; by rewrite Z.mod_1_r|].
  cbn [digits_fixed]. rewrite of_digits_snoc, IH, Nat2Z.inj_succ, Z.pow_succ_r by lia.
  pose proof (Z.pow_pos_nonneg b (Z.of_nat n)). rewrite Z.rem_mul_r by lia. lia.
Qed.

Lemma digits_fixed_of_digits b l :
  1 < b -> Forall (fun d => 0 <= d < b) l -> digits_fixed b (length l) (of_digits b l) = l.
Proof.
  intros Hb. induction l as [|d l IH] using rev_ind; [done|].
  rewrite Forall_app, Forall_singleton. intros [Hl Hd].
  rewrite length_app, Nat.add_comm. cbn. rewrite of_digits_snoc.
  rewrite Z.div_add_l, (Z.div_small d), Z.add_0_r, IH by (done || lia). f_equal. f_equal.
  rewrite Z.add_comm, Z.mod_add, Z.mod_small by lia. done.
Qed.

Lemma digits_fixed_range b n z :
  1 < b -> Forall (fun d => 0 <= d < b) (digits_fixed b n z).
Proof.
  intros Hb. revert z; induction n; intros z; cbn; [done|].
  rewrite Forall_app, Forall_singleton. split; [done|]. apply Z.mod_pos_bound. lia.
Qed.

Lemma num_digits_bound b fuel z :
  1 < b -> 0 <= z < 2 ^ (Z.of_nat fuel + 1) -> z < b ^ Z.of_nat (num_digits b fuel z).
Proof.
  intros Hb. revert z; induction fuel as [|f IH]; intros z Hz; cbn [num_digits].
  - change (Z.of_nat 1) with 1. rewrite Z.pow_1_r. change (2 ^ (Z.of_nat 0 + 1)) with 2 in Hz. lia.
  - destruct (Z.ltb_spec z b); [by rewrite Z.pow_1_r|].
    rewrite Nat2Z.inj_succ, Z.pow_succ_r by lia.
    assert (z / b < b ^ Z.of_nat (num_digits b f (z / b))).
    { apply IH. split; [apply Z.div_pos; lia|].
      apply Z.div_lt_upper_bound; [lia|].
      replace (Z.of_nat (S f) + 1) with (Z.succ (Z.of_nat f + 1)) in Hz by lia.
      rewrite Z.pow_succ_r in Hz by lia. pose proof (Z.pow_pos_nonneg 2 (Z.of_nat f + 1)). nia. }
    pose proof (Z.div_mod z b). pose proof (Z.mod_pos_bound z b). nia.
Qed.

Lemma of_digits_digits b z : 1 < b -> 0 <= z -> of_digits b (digits b z) = z.
Proof.
  intros Hb Hz. unfold digits. rewrite of_digits_fixed by done. apply Z.mod_small.
  split; [done|]. apply num_digits_bound; [done|]. split; [done|].
  destruct (decide (z = 0)) as [->|]; [cbn; lia|].
  pose proof (Z.log2_spec z). pose proof (Z.log2_nonneg z). rewrite Z2Nat.id by lia.
  rewrite Z.add_1_r. lia.
Qed.

Lemma digits_range b z : 1 < b -> Forall (fun d => 0 <= d < b) (digits b z).
Proof. apply digits_fixed_range. Qed.

Lemma digits_fixed_cons b n z :
  1 < b -> digits_fixed b (S n) z = (z / b ^ Z.of_nat n) mod b :: digits_fixed b n z.
Proof.
  intros Hb. revert z; induction n as [|n IH]; intros z.
  { cbn. by rewrite Z.div_1_r. }
  transitivity (digits_fixed b (S n) (z / b) ++ [z mod b]); [done|].
  rewrite IH. cbn [app]. f_equal.
  rewrite Z.div_div, <- Z.pow_succ_r, Nat2Z.inj_succ by (try apply Z.pow_pos_nonneg; lia). done.
Qed.

Lemma num_digits_min b f z n :
  1 < b -> 0 <= z -> num_digits b f z = S n -> b ^ Z.of_nat n <= z \/ n = O.
Proof.
  intros Hb. revert z n; induction f as [|f IH]; intros z n Hz; cbn [num_digits]; [intros [= <-]; by right|].
  destruct (Z.ltb_spec z b); [intros [= <-]; by right|]. intros [= H1].
  left. destruct n as [|n]; [destruct f; cbn in H1; [lia|case_match; lia]|].
  rewrite Nat2Z.inj_succ, Z.pow_succ_r by lia.
  assert (0 <= z / b) by (apply Z.div_pos; lia).
  destruct (IH (z / b) n ltac:(done) H1) as [Hle| ->]; [|cbn; lia].
  pose proof (Z.mul_div_le z b). nia.
Qed.

(** The leading digit of a number with several digits is not zero. *)
Lemma digits_head b z d l :
  1 < b -> 0 <= z -> digits b z = d :: l -> l <> [] -> d <> 0.
Proof.
  intros Hb Hz Hd Hl. pose proof (of_digits_digits b z Hb Hz) as Hof.
  unfold digits in *.
  destruct (num_digits b _ z) as [|n] eqn:E; [done|].
  rewrite digits_fixed_cons in Hd by done. injection Hd as <- <-.
  destruct (num_digits_min _ _ _ _ Hb Hz E) as [Hle| ->]; [|done].
  pose proof (Z.pow_pos_nonneg b (Z.of_nat n)).
  rewrite of_digits_fixed in Hof by done.
  assert (z < b ^ Z.of_nat (S n)).
  { rewrite <- Hof. apply Z.mod_pos_bound, Z.pow_pos_nonneg; lia. }
  rewrite Nat2Z.inj_succ, Z.pow_succ_r in * by lia.
  rewrite Z.mod_small; [|].
  - pose proof (Z.div_str_pos z (b ^ Z.of_nat n)). lia.
  - split; [apply Z.div_pos; lia|]. apply Z.div_lt_upper_bound; lia.
Qed.

(** A number below [b ^ n] has at most [n] digits. *)
Lemma digits_length b z n :
  1 < b -> (0 < n)%nat -> 0 <= z < b ^ Z.of_nat n -> (length (digits b z) <= n)%nat.
Proof.
  intros Hb Hn Hz. unfold digits. rewrite length_digits_fixed.
  destruct (num_digits b _ z) as [|k] eqn:E; [lia|].
  destruct (num_digits_min _ _ _ _ Hb (proj1 Hz) E) as [Hle| ->]; [|lia].
  destruct (decide (S k <= n)%nat); [done|].
  pose proof (Z.pow_le_mono_r b (Z.of_nat n) (Z.of_nat k)). lia.
Qed.

Lemma digits_nonempty b z : digits b z <> [].
Proof.
  unfold digits. intros H. apply (f_equal length) in H. rewrite length_digits_fixed in H.
  destruct (Z.to_nat (Z.log2 z)); cbn in H; [done|]. case_match; done.
Qed.

(* ------------------------------------------------------------------ *)
(** ** Hexadecimal text *)

(** The lower-case hexadecimal character of a digit. *)
Definition hex_char (d : Z) : Z := if d <? 10 then 48 + d else 87 + d.

(** The digit value of a hexadecimal character, either case. *)
Definition hex_value (c : Z) : option Z :=
  if (48 <=? c) && (c <=? 57) then Some (c - 48)
  else if (97 <=? c) && (c <=? 102) then Some (c - 87)
  else if (65 <=? c) && (c <=? 70) then Some (c - 55)
  else None.

(** [c in "0123456789abcdef"]. *)
Definition is_lower_hex (c : Z) : bool :=
  ((48 <=? c) && (c <=? 57)) || ((97 <=? c) && (c <=? 102)).

Lemma hex_value_char d : 0 <= d < 16 -> hex_value (hex_char d) = Some d.
Proof.
  intros H. unfold hex_value, hex_char. destruct (Z.ltb_spec d 10).
  - replace (_ && _) with true by lia. f_equal. lia.
  - replace ((48 <=? _) && _) with false by lia. replace (_ && _) with true by lia. f_equal. lia.
Qed.

Lemma hex_char_lower d : 0 <= d < 16 -> is_lower_hex (hex_char d) = true.
Proof. intros H. unfold is_lower_hex, hex_char. destruct (Z.ltb_spec d 10); lia. Qed.

Lemma hex_value_range c d : hex_value c = Some d -> 0 <= d < 16.
Proof. unfold hex_value. repeat case_match; intros [= <-]; lia. Qed.

Lemma hex_char_value c d : is_lower_hex c = true -> hex_value c = Some d -> hex_char d = c.
Proof.
  unfold is_lower_hex, hex_value, hex_char. intros H.
  repeat case_match; intros [= <-]; repeat case_match; lia.
Qed.

(** The [n] low hexadecimal digits of [z] as text: [f"{z:0{n}x}"] when they suffice. *)
Definition hex_fixed (n : nat) (z : Z) : pystr := map hex_char (digits_fixed 16 n z).

(** The digits of a text of hexadecimal characters. *)
Fixpoint hex_digits_of (s : pystr) : option (list Z) :=
  match s with
  | [] => Some []
  | c :: s' => d ← hex_value c; l ← hex_digits_of s'; Some (d :: l)
  end.

Lemma hex_digits_of_map l : Forall (fun d => 0 <= d < 16) l -> hex_digits_of (map hex_char l) = Some l.
Proof. induction 1 as [|d l Hd _ IH]; [done|]. cbn. by rewrite hex_value_char, IH. Qed.

(* ------------------------------------------------------------------ *)
(** ** [int(s, 16)] *)

(** [Py_ISSPACE] on ASCII. *)
Definition is_ascii_space (c : Z) : bool := ((9 <=? c) && (c <=? 13)) || (c =? 32).

(** Whitespace outside ASCII ([str.isspace]). *)
Definition is_unicode_space (c : Z) : bool :=
  (c =? 0x85) || (c =? 0xA0) || (c =? 0x1680) || ((0x2000 <=? c) && (c <=? 0x200A)) ||
  (c =? 0x2028) || (c =? 0x2029) || (c =? 0x202F) || (c =? 0x205F) || (c =? 0x3000).

(** The zero of every Unicode 16 run of ten decimal digits above ASCII. *)
Definition decimal_zeros : list Z :=
  [0x660; 0x6f0; 0x7c0; 0x966; 0x9e6; 0xa66; 0xae6; 0xb66; 0xbe6; 0xc66; 0xce6; 0xd66; 0xde6;
   0xe50; 0xed0; 0xf20; 0x1040; 0x1090; 0x17e0; 0x1810; 0x1946; 0x19d0; 0x1a80; 0x1a90; 0x1b50;
   0x1bb0; 0x1c40; 0x1c50; 0xa620; 0xa8d0; 0xa900; 0xa9d0; 0xa9f0; 0xaa50; 0xabf0; 0xff10;
   0x104a0; 0x10d30; 0x10d40; 0x11066; 0x110f0; 0x11136; 0x111d0; 0x112f0; 0x11450; 0x114d0;
   0x11650; 0x116c0; 0x116d0; 0x116da; 0x11730; 0x118e0; 0x11950; 0x11bf0; 0x11c50; 0x11d50;
   0x11da0; 0x11f50; 0x16130; 0x16a60; 0x16ac0; 0x16b50; 0x16d70; 0x1ccf0; 0x1d7ce; 0x1d7d8;
   0x1d7e2; 0x1d7ec; 0x1d7f6; 0x1e140; 0x1e2f0; 0x1e4f0; 0x1e5f1; 0x1e950; 0x1fbf0].

Definition decimal_value (c : Z) : option Z :=
  match List.find (fun z => (z <=? c) && (c <? z + 10)) decimal_zeros with
  | Some z => Some (c - z)
  | None => None
  end.

(** One character after CPython's conversion of spaces and decimal digits to
    ASCII; [None] is a character that makes the conversion fail. *)
Definition to_ascii_digit (c : Z) : option Z :=
  if c <? 127 then Some c
  else if is_unicode_space c then Some 32
  else match decimal_value c with Some d => Some (48 + d) | None => None end.

Fixpoint to_ascii_digits (s : pystr) : option pystr :=
  match s with
  | [] => Some []
  | c :: s' => a ← to_ascii_digit c; r ← to_ascii_digits s'; Some (a :: r)
  end.

Fixpoint skip_spaces (s : pystr) : pystr :=
  match s with
  | c :: s' => if is_ascii_space c then skip_spaces s' else s
  | [] => []
  end.

(** The digits of a base-16 literal with single underscores between them, and
    what follows; [prev_underscore] is true just after an underscore.  [None]
    where the scan stops on a doubled or trailing underscore. *)
Fixpoint scan_hex (prev_underscore : bool) (s : pystr) : option (list Z * pystr) :=
  match s with
  | [] => if prev_underscore then None else Some ([], [])
  | c :: s' =>
    if c =? 95 then (if prev_underscore then None else scan_hex true s')
    else match hex_value c with
    | Some d => '(l, r) ← scan_hex false s'; Some (d :: l, r)
    | None => if prev_underscore then None else Some ([], s)
    end
  end.

(** An optional sign: whether it was a minus, and the rest. *)
Definition strip_sign (t : pystr) : bool * pystr :=
  match t with
  | c :: t' => if c =? 43 then (false, t') else if c =? 45 then (true, t') else (false, t)
  | [] => (false, [])
  end.

(** An optional [0x] or [0X] prefix, which one underscore may follow. *)
Definition strip_0x (t : pystr) : pystr :=
  match t with
  | c :: x :: t' =>
    if (c =? 48) && ((x =? 120) || (x =? 88)) then
      match t' with u :: t'' => if u =? 95 then t'' else t' | [] => [] end
    else t
  | _ => t
  end.

(** [int(s, 16)]; [None] where it raises [ValueError]. *)
Definition py_int16 (s : pystr) : option Z :=
  t ← to_ascii_digits s;
  let '(neg, t) := strip_sign (skip_spaces t) in
  let t := strip_0x t in
  if match t with c :: _ => c =? 95 | [] => false end then None
  else
    '(l, r) ← scan_hex false t;
    match l, skip_spaces r with
    | _ :: _, [] => Some (if neg then - of_digits 16 l else of_digits 16 l)
    | _, _ => None
    end.

Lemma to_ascii_digits_ascii s : Forall (fun c => c < 127) s -> to_ascii_digits s = Some s.
Proof.
  induction 1 as [|c s Hc _ IH]; [done|]. cbn. unfold to_ascii_digit at 1.
  destruct (Z.ltb_spec c 127); [|lia]. cbn. by rewrite IH.
Qed.

Lemma is_lower_hex_lt c : is_lower_hex c = true -> 48 <= c < 127 /\ c <> 95 /\ c <> 120.
Proof. unfold is_lower_hex. lia. Qed.

Lemma scan_hex_digits l : Forall (fun d => 0 <= d < 16) l ->
  scan_hex false (map hex_char l) = Some (l, []).
Proof.
  induction 1 as [|d l Hd _ IH]; [done|]. cbn [map scan_hex].
  pose proof (is_lower_hex_lt _ (hex_char_lower d Hd)).
  replace (hex_char d =? 95) with false by lia. by rewrite hex_value_char, IH.
Qed.

(** On plain lower-case hexadecimal digits [int(s, 16)] is the positional value. *)
Lemma py_int16_digits l :
  l <> [] -> Forall (fun d => 0 <= d < 16) l ->
  py_int16 (map hex_char l) = Some (of_digits 16 l).
Proof.
  intros Hne H. unfold py_int16.
  assert (Forall (fun c => is_lower_hex c = true) (map hex_char l)) as Hx.
  { apply Forall_map. eapply Forall_impl; [exact H|]. intros x Hx. by apply hex_char_lower. }
  rewrite to_ascii_digits_ascii
    by (eapply Forall_impl; [exact Hx|]; intros c Hc%is_lower_hex_lt; lia).
  cbn [mbind option_bind]. pose proof (scan_hex_digits _ H) as Hs.
  destruct l as [|d l]; [done|]. cbn [map] in *.
  pose proof (is_lower_hex_lt _ (Forall_inv Hx)) as Hc. set (c := hex_char d) in *.
  cbn [skip_spaces]. replace (is_ascii_space c) with false by (unfold is_ascii_space; lia).
  cbn [strip_sign]. replace (c =? 43) with false by lia. replace (c =? 45) with false by lia.
  replace (strip_0x (c :: map hex_char l)) with (c :: map hex_char l).
  2:{ destruct l as [|d' l]; [done|]. cbn [map strip_0x].
      pose proof (is_lower_hex_lt _ (Forall_inv (Forall_inv_tail Hx))).
      replace ((_ =? 120) || (_ =? 88)) with false; [by rewrite andb_false_r|].
      assert (is_lower_hex (hex_char d') = true) as Hd' by apply (Forall_inv (Forall_inv_tail Hx)).
      unfold is_lower_hex in Hd'. lia. }
  replace (c =? 95) with false by lia. rewrite Hs. done.
Qed.

(* ------------------------------------------------------------------ *)
(** ** [str.replace] with the empty string and [str.strip] *)

Definition has_prefix (pat s : pystr) : bool := bool_decide (take (length pat) s = pat).

(** [s.replace(pat, "")], left to right without overlap; [skip] characters of
    the current occurrence are still to be dropped. *)
Fixpoint remove_all (pat : pystr) (skip : nat) (s : pystr) : pystr :=
  match s with
  | [] => []
  | c :: s' =>
    match skip with
    | S k => remove_all pat k s'
    | O => if has_prefix pat s then remove_all pat (length pat - 1) s'
           else c :: remove_all pat O s'
    end
  end.

Definition replace_empty (pat s : pystr) : pystr := remove_all pat O s.

Fixpoint lstrip (p : Z -> bool) (s : pystr) : pystr :=
  match s with
  | c :: s' => if p c then lstrip p s' else s
  | [] => []
  end.

(** [s.strip(chars)], [p] deciding membership in [chars]. *)
Definition strip (p : Z -> bool) (s : pystr) : pystr := rev (lstrip p (rev (lstrip p s))).

(** The characters [s.strip()] removes: [str.isspace]. *)
Definition is_space (c : Z) : bool :=
  is_ascii_space c || ((0x1C <=? c) && (c <=? 0x1F)) || is_unicode_space c.

(** Nothing is removed when the pattern's first character does not occur. *)
Lemma replace_empty_absent x pat s : x ∉ s -> replace_empty (x :: pat) s = s.
Proof.
  unfold replace_empty. induction s as [|c s IH]; [done|].
  rewrite not_elem_of_cons. intros [Hc Hs]. cbn [remove_all].
  unfold has_prefix. rewrite bool_decide_eq_false_2 by (intros [= ? _]; done). by rewrite IH.
Qed.

(** Removing a single character is filtering. *)
Lemma replace_empty_char x s : replace_empty [x] s = filter (fun c => c <> x) s.
Proof.
  unfold replace_empty. induction s as [|c s IH]; [done|]. cbn [remove_all].
  unfold has_prefix. destruct (decide (c = x)) as [->|Hne].
  - rewrite bool_decide_eq_true_2 by done. cbn. rewrite IH.
    by rewrite decide_False by (intros []; done).
  - rewrite bool_decide_eq_false_2 by (intros [= ?]; done). rewrite IH.
    by rewrite filter_cons_True.
Qed.

Lemma lstrip_id p s : match s with c :: _ => p c = false | [] => True end -> lstrip p s = s.
Proof. destruct s; cbn; [done|]. by intros ->. Qed.

Lemma strip_id p s : Forall (fun c => p c = false) s -> strip p s = s.
Proof.
  intros H. unfold strip. rewrite (lstrip_id p s) by (destruct H; done).
  rewrite lstrip_id; [apply rev_involutive|].
  apply Forall_rev in H. by destruct (rev s); [|inversion H].
Qed.

Lemma lstrip_snoc p s c : p c = false -> lstrip p (s ++ [c]) = lstrip p s ++ [c].
Proof. intros Hc. induction s as [|x s IH]; cbn; [by rewrite Hc|]. by destruct (p x). Qed.

Lemma lstrip_Forall (P : Z -> Prop) p s : Forall P s -> Forall P (lstrip p s).
Proof. induction 1 as [|c s Hc Hs IH]; cbn; [done|]. destruct (p c); [done|by constructor]. Qed.

Lemma strip_Forall (P : Z -> Prop) p s : Forall P s -> Forall P (strip p s).
Proof. intros Hs. unfold strip. by apply Forall_rev, lstrip_Forall, Forall_rev, lstrip_Forall. Qed.

(* ------------------------------------------------------------------ *)
(** ** The order of [sorted] on strings *)

Fixpoint str_compare (a b : pystr) : comparison :=
  match a, b with
  | [], [] => Eq
  | [], _ => Lt
  | _, [] => Gt
  | x :: a', y :: b' => match Z.compare x y with Eq => str_compare a' b' | c => c end
  end.

(** [a <= b] on Python strings. *)
Definition str_le (a b : pystr) : Prop := str_compare a b <> Gt.

#[global] Instance str_le_dec : RelDecision str_le.
Proof. intros a b. unfold str_le. destruct (str_compare a b); solve_decision. Defined.

Lemma str_compare_eq a b : str_compare a b = Eq <-> a = b.
Proof.
  revert b; induction a as [|x a IH]; intros [|y b]; cbn; try done.
  destruct (Z.compare_spec x y); subst; [rewrite IH| |]; split; try done; try congruence;
    intros [=]; lia.
Qed.

Lemma str_compare_opp a b : str_compare b a = CompOpp (str_compare a b).
Proof.
  revert b; induction a as [|x a IH]; intros [|y b]; cbn; try done.
  rewrite (Z.compare_antisym x y). by destruct (Z.compare x y); cbn.
Qed.

Lemma str_compare_lt_trans a b c :
  str_compare a b = Lt -> str_compare b c = Lt -> str_compare a c = Lt.
Proof.
  revert b c; induction a as [|x a IH]; intros [|y b] [|z c]; cbn; try done.
  destruct (Z.compare_spec x y), (Z.compare_spec y z), (Z.compare_spec x z);
    subst; try done; try lia. apply IH.
Qed.

#[global] Instance str_le_antisymm : AntiSymm (=) str_le.
Proof.
  intros a b. unfold str_le. rewrite (str_compare_opp a b). intros H1 H2.
  apply str_compare_eq. by destruct (str_compare a b).
Qed.

#[global] Instance str_le_trans : Transitive str_le.
Proof.
  intros a b c. unfold str_le. intros H1 H2.
  destruct (str_compare a b) eqn:E1; [apply str_compare_eq in E1 as ->; done| |done].
  destruct (str_compare b c) eqn:E2; [apply str_compare_eq in E2 as <-; by rewrite E1| |done].
  by rewrite (str_compare_lt_trans _ _ _ E1 E2).
Qed.

#[global] Instance str_le_total : Total str_le.
Proof.
  intros a b. unfold str_le. rewrite (str_compare_opp a b).
  destruct (str_compare a b); cbn; [left|left|right]; done.
Qed.

(** [sorted(l)] on strings. *)
Definition sorted_str (l : list pystr) : list pystr := merge_sort str_le l.

(** Order of [sorted] on pairs that a dictionary yields: the keys are distinct,
    so the keys alone decide. *)
Definition key_le {A} (a b : pystr * A) : Prop := str_le a.1 b.1.

#[global] Instance key_le_dec {A} : RelDecision (@key_le A).
Proof. intros a b. unfold key_le. apply _. Defined.
#[global] Instance key_le_trans {A} : Transitive (@key_le A).
Proof. intros a b c. unfold key_le. apply str_le_trans. Qed.
#[global] Instance key_le_total {A} : Total (@key_le A).
Proof. intros a b. unfold key_le. apply str_le_total. Qed.

(** [sorted(d.items())]. *)
Definition sorted_items {A} (l : list (pystr * A)) : list (pystr * A) := merge_sort key_le l.

Lemma sorted_items_perm {A} (l : list (pystr * A)) : sorted_items l ≡ₚ l.
Proof. apply merge_sort_Permutation. Qed.

(** Sorting the items of a dictionary does not depend on its insertion order. *)
Lemma sorted_items_unique {A} (l k : list (pystr * A)) :
  NoDup l.*1 -> l ≡ₚ k -> sorted_items l = sorted_items k.
Proof.
  intros Hnd Hp.
  assert (forall a b, a ∈ l -> b ∈ l -> key_le a b -> key_le b a -> a = b) as Hanti.
  { intros [x a] [y b] Ha Hb H1 H2. unfold key_le in *; cbn in *.
    assert (x = y) as -> by by apply (anti_symm str_le). f_equal.
    apply list_elem_of_lookup in Ha as [i Hi]. apply list_elem_of_lookup in Hb as [j Hj].
    assert (i = j) as ->; [|congruence].
    eapply NoDup_lookup; [exact Hnd| |]; rewrite list_lookup_fmap, ?Hi, ?Hj; done. }
  apply (StronglySorted_unique_strong key_le);
    [|apply (StronglySorted_merge_sort key_le)..|].
  - intros a b Ha Hb. rewrite sorted_items_perm in Ha.
    rewrite sorted_items_perm, <- Hp in Hb. by apply Hanti.
  - unfold sorted_items. by rewrite !merge_sort_Permutation.
Qed.

(** Sorting items commutes with a change of the values. *)
Lemma sorted_items_map {A B} (f : A -> B) (l : list (pystr * A)) :
  NoDup l.*1 ->
  sorted_items (map (fun kv => (kv.1, f kv.2)) l) = map (fun kv => (kv.1, f kv.2)) (sorted_items l).
Proof.
  intros Hnd. set (g := fun kv : pystr * A => (kv.1, f kv.2)).
  assert (sorted_items (map g (sorted_items l)) = map g (sorted_items l)) as <-.
  { apply (StronglySorted_unique_strong key_le).
    - intros [x a] [y b] Ha Hb. rewrite (sorted_items_perm (map g _)) in Ha.
      intros H1 H2. unfold key_le in *; cbn in *.
      assert (x = y) as -> by by apply (anti_symm str_le).
      apply list_elem_of_fmap in Ha as ([x' a']&[= -> ->]&Ha).
      apply list_elem_of_fmap in Hb as ([y' b']&[= <- ->]&Hb). f_equal. f_equal.
      apply list_elem_of_lookup in Ha as [i Hi]. apply list_elem_of_lookup in Hb as [j Hj].
      assert (NoDup (sorted_items l).*1) as Hnd' by (unfold sorted_items; by rewrite merge_sort_Permutation).
      assert (i = j) as ->; [|congruence].
      eapply NoDup_lookup; [exact Hnd'| |]; rewrite list_lookup_fmap, ?Hi, ?Hj; done.
    - apply (StronglySorted_merge_sort key_le).
    - assert (StronglySorted key_le (sorted_items l)) as H by apply (StronglySorted_merge_sort key_le).
      induction H as [|x k _ IH Hall]; cbn; constructor; [done|].
      apply Forall_map. eapply Forall_impl; [exact Hall|]. by intros.
    - apply (merge_sort_Permutation key_le). }
  apply sorted_items_unique.
  - rewrite <- list_fmap_compose. unfold compose; cbn. done.
  - unfold g. apply fmap_Permutation. unfold sorted_items. by rewrite merge_sort_Permutation.
Qed.

(* ------------------------------------------------------------------ *)
(** ** Lines and lists in texts *)

(** Where [str.splitlines] cuts. *)
Definition is_line_break (c : Z) : bool :=
  ((10 <=? c) && (c <=? 13)) || ((28 <=? c) && (c <=? 30)) || (c =? 0x85) || (c =? 0x2028) || (c =? 0x2029).

(** The parts between the characters that [p] selects. *)
Fixpoint split_where (p : Z -> bool) (s : pystr) : list pystr :=
  match s with
  | [] => [[]]
  | c :: s =>
    if p c then [] :: split_where p s
    else match split_where p s with x :: xs => (c :: x) :: xs | [] => [[c]] end
  end.

(** The separators of raw.replace(comma, newline).splitlines(); where a caller drops empty
    parts, it does not matter that CR LF is one break. *)
Definition is_separator (c : Z) : bool := (c =? 44) || is_line_break c.

(** [[item.strip() for item in parts if item.strip()]]. *)
Definition stripped_parts (p : Z -> bool) (s : pystr) : list pystr :=
  filter (fun x => x <> []) (map (strip is_space) (split_where p s)).

Lemma split_where_Forall (P : Z -> Prop) p s : Forall P s -> Forall (Forall P) (split_where p s).
Proof.
  induction 1 as [|c s Hc _ IH]; cbn; [by repeat constructor|]. destruct (p c); [by constructor|].
  destruct IH as [|x xs Hx Hxs]; [by repeat constructor|]. by repeat constructor.
Qed.
