(* ===== verification/Uuid.v ===== *)
(** [uuid.UUID] as the service uses it: parsing an identifier in any spelling the
    standard library accepts, and the canonical text of the result.  The key
    store addresses rows by this canonical text ([_validated_uuid]). *)

From S2P Require Import Prelude PyText.
Open Scope Z_scope.

(** [uuid.UUID(value).int]. *)
Definition uuid_int (value : pystr) : res Z :=
  let hex := replace_empty (str "uuid:") (replace_empty (str "urn:") value) in
  let hex := replace_empty (str "-") (strip (fun c => (c =? 123) || (c =? 125)) hex) in
  _ ← raise_if (negb (zlen hex =? 32)) (ValueError "badly formed hexadecimal UUID string");
  match py_int16 hex with
  | None => Raise (ValueError "invalid literal for int() with base 16")
  | Some n =>
    _ ← raise_if (negb ((0 <=? n) && (n <? 2 ^ 128)))
          (ValueError "int is out of range (need a 128-bit value)");
    Ok n
  end.

(** [str(uuid)]. *)
Definition uuid_str (n : Z) : pystr :=
  let x := hex_fixed 32 n in
  slice x 0 8 ++ str "-" ++ slice x 8 12 ++ str "-" ++ slice x 12 16 ++ str "-"
    ++ slice x 16 20 ++ str "-" ++ slice x 20 32.

(** A string in the canonical form [str(uuid.UUID(...))] prints. *)
Definition canonical_uuid (s : pystr) : Prop := exists n, 0 <= n < 2 ^ 128 /\ s = uuid_str n.

(* ------------------------------------------------------------------ *)

Definition uuid_char (c : Z) : bool := is_lower_hex c || (c =? 45).

Lemma hex_fixed_lower n z : Forall (fun c => is_lower_hex c = true) (hex_fixed n z).
Proof.
  unfold hex_fixed. apply Forall_map.
  eapply Forall_impl; [apply (digits_fixed_range 16 n z); lia|]. intros d. apply hex_char_lower.
Qed.

Lemma length_hex_fixed n z : length (hex_fixed n z) = n.
Proof. unfold hex_fixed. by rewrite length_map, length_digits_fixed. Qed.

Lemma Forall_slice {A} (P : A -> Prop) l a b : Forall P l -> Forall P (slice l a b).
Proof. intros. unfold slice. by apply Forall_take, Forall_drop. Qed.

Lemma uuid_str_chars n : Forall (fun c => uuid_char c = true) (uuid_str n).
Proof.
  assert (forall a b, Forall (fun c => uuid_char c = true) (slice (hex_fixed 32 n) a b)) as H.
  { intros a b. apply Forall_slice. eapply Forall_impl; [apply hex_fixed_lower|].
    intros c Hc. unfold uuid_char. by rewrite Hc. }
  unfold uuid_str. repeat (apply Forall_app; split); try apply H; by repeat constructor.
Qed.

Lemma uuid_str_length n : zlen (uuid_str n) = 36.
Proof.
  unfold uuid_str, slice, zlen. cbn zeta. rewrite !length_app, !length_take, !length_drop, length_hex_fixed. done.
Qed.

Lemma filter_hex_id s : Forall (fun c => is_lower_hex c = true) s -> filter (fun c => c <> 45) s = s.
Proof.
  induction 1 as [|c s Hc _ IH]; [done|]. apply is_lower_hex_lt in Hc.
  rewrite filter_cons_True by lia. by rewrite IH.
Qed.

Lemma uuid_str_hex n : filter (fun c => c <> 45) (uuid_str n) = hex_fixed 32 n.
Proof.
  assert (forall a b, filter (fun c => c <> 45) (slice (hex_fixed 32 n) a b)
                      = slice (hex_fixed 32 n) a b) as H.
  { intros. apply filter_hex_id, Forall_slice, hex_fixed_lower. }
  unfold uuid_str. rewrite !filter_app, !H.
  change (filter _ (str "-")) with (@nil Z). cbn [app].
  rewrite <- !slice_split by lia.
  pose proof (slice_full (hex_fixed 32 n)) as Hf. unfold zlen in Hf. by rewrite length_hex_fixed in Hf.
Qed.

Lemma of_digits_hex_fixed n : 0 <= n < 2 ^ 128 -> py_int16 (hex_fixed 32 n) = Some n.
Proof.
  intros Hn. unfold hex_fixed. rewrite py_int16_digits.
  - rewrite of_digits_fixed by lia. f_equal. apply Z.mod_small. exact Hn.
  - intros H. apply (f_equal length) in H. by rewrite length_digits_fixed in H.
  - apply digits_fixed_range. lia.
Qed.

(** Parsing the canonical text returns the number it prints. *)
Lemma uuid_int_str n : 0 <= n < 2 ^ 128 -> uuid_int (uuid_str n) = Ok n.
Proof.
  intros Hn. unfold uuid_int. pose proof (uuid_str_chars n) as Hc.
  assert (117 ∉ uuid_str n) as Hu.
  { intros Hin. rewrite Forall_forall in Hc. by specialize (Hc _ Hin). }
  change (str "urn:") with (117 :: str "rn:"). change (str "uuid:") with (117 :: str "uid:").
  rewrite (replace_empty_absent _ _ (uuid_str n)) by done.
  rewrite replace_empty_absent by done.
  rewrite strip_id.
  2:{ eapply Forall_impl; [exact Hc|]. unfold uuid_char, is_lower_hex. intros c. lia. }
  change (str "-") with [45]. rewrite replace_empty_char, uuid_str_hex.
  unfold zlen. rewrite length_hex_fixed. cbn [negb raise_if mbind res_bind].
  rewrite of_digits_hex_fixed by done. replace (_ && _) with true by lia. done.
Qed.

Lemma uuid_int_Ok s n : uuid_int s = Ok n -> 0 <= n < 2 ^ 128.
Proof. unfold uuid_int. intros H. res_inv. case_match; [|done]. res_inv. lia. Qed.

Lemma uuid_int_Raise s e : uuid_int s = Raise e -> exists m, e = ValueError m.
Proof. unfold uuid_int. intros H. res_inv; eauto. case_match; res_inv; eauto. Qed.

Lemma uuid_str_inj n m :
  0 <= n < 2 ^ 128 -> 0 <= m < 2 ^ 128 -> uuid_str n = uuid_str m -> n = m.
Proof.
  intros Hn Hm H. pose proof (uuid_int_str n Hn) as E.
  rewrite H, (uuid_int_str m Hm) in E. congruence.
Qed.
