(* ===== verification/Json.v ===== *)
(** Python's [json] module as the service uses it: [json.dumps] with
    [sort_keys=True] (and the default [ensure_ascii=True]) and [json.loads] of
    text or bytes, with an optional [object_pairs_hook].

    A dictionary is its list of items in insertion order, with distinct keys.
    A float is kept as the text of its literal: no modelled document has one,
    [json.loads] merely accepts them. *)

From S2P Require Import Prelude Utf8 PyText.
Open Scope Z_scope.

Inductive json : Type :=
| JNull
| JBool (b : bool)
| JInt (z : Z)
| JFloat (literal : pystr)
| JStr (s : pystr)
| JList (l : list json)
| JDict (items : list (pystr * json)).

(** [bool(v)]; a floating-point literal is zero when its digits are. *)
Definition truthy (v : json) : bool :=
  match v with
  | JNull => false
  | JBool b => b
  | JInt z => negb (z =? 0)
  | JFloat literal => existsb (fun c => (49 <=? c) && (c <=? 57)) literal
  | JStr s => negb (bool_decide (s = []))
  | JList l => match l with [] => false | _ => true end
  | JDict l => match l with [] => false | _ => true end
  end.

(* ------------------------------------------------------------------ *)
(** ** Dictionaries *)

Section Dict.
Context {A : Type}.

(** [d.get(key)]. *)
Fixpoint dict_get (key : pystr) (d : list (pystr * A)) : option A :=
  match d with
  | [] => None
  | (k, v) :: d' => if decide (k = key) then Some v else dict_get key d'
  end.

(** [d[key] = value]: in place for a present key, else appended. *)
Fixpoint dict_set (key : pystr) (v : A) (d : list (pystr * A)) : list (pystr * A) :=
  match d with
  | [] => [(key, v)]
  | (k, w) :: d' => if decide (k = key) then (k, v) :: d' else (k, w) :: dict_set key v d'
  end.

(** [dict(pairs)]: a repeated key keeps its first position and its last value. *)
Definition dict_of (pairs : list (pystr * A)) : list (pystr * A) :=
  fold_left (fun d '(k, v) => dict_set k v d) pairs [].
End Dict.

(** [value[key]]. *)
Definition item (value : list (pystr * json)) (key : pystr) : res json :=
  match dict_get key value with Some v => Ok v | None => Raise KeyError end.

(** The keys of a dictionary and an expected set. *)
Definition missing (expected keys : list pystr) : list pystr := filter (fun k => k ∉ keys) expected.
Definition same_keys (expected keys : list pystr) : bool :=
  bool_decide (missing expected keys = []) && bool_decide (missing keys expected = []).

(** [value in names] for a list of names. *)
Definition in_names (value : json) (names : list pystr) : bool :=
  match value with JStr s => mem s names | _ => false end.

(** [value in {...}]: only a hashable value can be looked up. *)
Definition in_set (value : json) (names : list pystr) : res bool :=
  match value with JList _ | JDict _ => Raise TypeError | _ => Ok (in_names value names) end.

(** [fragment in text]. *)
Fixpoint contains (fragment text : pystr) : bool :=
  has_prefix fragment text || match text with [] => false | _ :: text => contains fragment text end.

(* ------------------------------------------------------------------ *)
(** ** [json.dumps] *)

(** One backslash-u escape: four lower-case hexadecimal digits. *)
Definition u_escape (c : Z) : pystr := [92; 117] ++ hex_fixed 4 c.

(** The escape of one character under [ensure_ascii]. *)
Definition escape_char (c : Z) : pystr :=
  if c =? 34 then [92; 34]
  else if c =? 92 then [92; 92]
  else if c =? 10 then [92; 110]
  else if c =? 13 then [92; 114]
  else if c =? 9 then [92; 116]
  else if c =? 12 then [92; 102]
  else if c =? 8 then [92; 98]
  else if (32 <=? c) && (c <=? 126) then [c]
  else if c <? 0x10000 then u_escape c
  else let n := c - 0x10000 in u_escape (0xD800 + n / 1024) ++ u_escape (0xDC00 + n mod 1024).

Definition dump_str (s : pystr) : pystr := [34] ++ concat (map escape_char s) ++ [34].

(** [str(z)]. *)
Definition dump_int (z : Z) : pystr :=
  if z <? 0 then 45 :: map (fun d => 48 + d) (digits 10 (- z))
  else map (fun d => 48 + d) (digits 10 z).

Fixpoint join_with (sep : pystr) (l : list pystr) : pystr :=
  match l with
  | [] => []
  | [x] => x
  | x :: l' => x ++ sep ++ join_with sep l'
  end.

(** [json.dumps(v, separators=(item_sep, key_sep), sort_keys=True)]. *)
Fixpoint dumps (item_sep key_sep : pystr) (v : json) : pystr :=
  match v with
  | JNull => str "null"
  | JBool true => str "true"
  | JBool false => str "false"
  | JInt z => dump_int z
  | JFloat lit => lit
  | JStr s => dump_str s
  | JList l => [91] ++ join_with item_sep (map (dumps item_sep key_sep) l) ++ [93]
  | JDict items =>
    let rendered := map (fun kv => (kv.1, dumps item_sep key_sep kv.2)) items in
    [123] ++ join_with item_sep
               (map (fun kv => dump_str kv.1 ++ key_sep ++ kv.2) (sorted_items rendered)) ++ [125]
  end.

(** [json.dumps(v, separators=(",", ":"), sort_keys=True)]. *)
Definition dumps_compact : json -> pystr := dumps (str ",") (str ":").

(** [json.dumps(v, sort_keys=True)]. *)
Definition dumps_default : json -> pystr := dumps (str ", ") (str ": ").

(* ------------------------------------------------------------------ *)
(** ** [json.loads] *)

Definition is_json_ws (c : Z) : bool := (c =? 32) || (c =? 9) || (c =? 10) || (c =? 13).

Fixpoint skip_ws (s : pystr) : pystr :=
  match s with
  | c :: s' => if is_json_ws c then skip_ws s' else s
  | [] => []
  end.

(** Four hexadecimal digits. *)
Definition parse_uXXXX (s : pystr) : option (Z * pystr) :=
  match s with
  | a :: b :: c :: d :: s' => l ← hex_digits_of [a; b; c; d]; Some (of_digits 16 l, s')
  | _ => None
  end.

(** The character after a backslash other than [u]. *)
Definition simple_escape (c : Z) : option Z :=
  if c =? 34 then Some 34 else if c =? 92 then Some 92 else if c =? 47 then Some 47
  else if c =? 98 then Some 8 else if c =? 102 then Some 12 else if c =? 110 then Some 10
  else if c =? 114 then Some 13 else if c =? 116 then Some 9 else None.

Definition is_high (c : Z) : bool := (0xD800 <=? c) && (c <? 0xDC00).
Definition is_low (c : Z) : bool := (0xDC00 <=? c) && (c <? 0xE000).

(** A low surrogate escape that completes the pair begun by [c]. *)
Definition join_surrogate (c : Z) (s : pystr) : Z * pystr :=
  match s with
  | b :: u :: s' =>
    if is_high c && (b =? 92) && (u =? 117) then
      match parse_uXXXX s' with
      | Some (c2, r) =>
        if is_low c2 then (0x10000 + (c - 0xD800) * 1024 + (c2 - 0xDC00), r) else (c, s)
      | None => (c, s)
      end
    else (c, s)
  | _ => (c, s)
  end.

(** [scanstring]: the text after an opening quote, up to the closing one. *)
Fixpoint scanstring (fuel : nat) (s : pystr) : res (pystr * pystr) :=
  match fuel with
  | O => Raise OutOfFuel
  | S f =>
    match s with
    | [] => Raise JSONDecodeError
    | c :: s' =>
      if c =? 34 then Ok ([], s')
      else if c =? 92 then
        match s' with
        | [] => Raise JSONDecodeError
        | e :: s'' =>
          if e =? 117 then
            match parse_uXXXX s'' with
            | None => Raise JSONDecodeError
            | Some (u, r) =>
              let '(u', r') := join_surrogate u r in
              '(t, rest) ← scanstring f r'; Ok (u' :: t, rest)
            end
          else
            match simple_escape e with
            | None => Raise JSONDecodeError
            | Some x => '(t, rest) ← scanstring f s''; Ok (x :: t, rest)
            end
        end
      else if c <=? 0x1F then Raise JSONDecodeError
      else '(t, rest) ← scanstring f s'; Ok (c :: t, rest)
    end
  end.

Definition is_digit (c : Z) : bool := (48 <=? c) && (c <=? 57).

(** The longest run of decimal digits and the rest. *)
Fixpoint span_digits (s : pystr) : pystr * pystr :=
  match s with
  | c :: s' => if is_digit c then let '(l, r) := span_digits s' in (c :: l, r) else ([], s)
  | [] => ([], [])
  end.

(** An optional fraction: a point followed by digits. *)
Definition scan_frac (s : pystr) : pystr * pystr :=
  match s with
  | c :: s' => if c =? 46 then match span_digits s' with
                               | ([], _) => ([], s)
                               | (l, r) => (46 :: l, r)
                               end
               else ([], s)
  | [] => ([], [])
  end.

(** An optional exponent: [e] or [E], an optional sign, digits. *)
Definition scan_exp (s : pystr) : pystr * pystr :=
  match s with
  | c :: s' =>
    if (c =? 101) || (c =? 69) then
      let '(sign, s'') := match s' with
                          | x :: y => if (x =? 43) || (x =? 45) then ([x], y) else ([], s')
                          | [] => ([], [])
                          end in
      match span_digits s'' with
      | ([], _) => ([], s)
      | (l, r) => (c :: sign ++ l, r)
      end
    else ([], s)
  | [] => ([], [])
  end.

(** Default limit of [sys.set_int_max_str_digits]. *)
Definition int_max_str_digits : Z := 4300.

(** A number literal, [neg] telling whether a minus sign was read. *)
Definition scan_number (neg : bool) (s : pystr) : res (json * pystr) :=
  let '(intpart, s1) := match s with
                        | c :: s' => if c =? 48 then ([48], s') else span_digits s
                        | [] => ([], [])
                        end in
  match intpart with
  | [] => Raise JSONDecodeError
  | _ =>
    let '(frac, s2) := scan_frac s1 in
    let '(exp, s3) := scan_exp s2 in
    match frac, exp with
    | [], [] =>
      if int_max_str_digits <? zlen intpart then Raise (ValueError "Exceeds the limit for integer string conversion")
      else let n := of_digits 10 (map (fun c => c - 48) intpart) in
           Ok (JInt (if neg then - n else n), s3)
    | _, _ => Ok (JFloat ((if neg then [45] else []) ++ intpart ++ frac ++ exp), s3)
    end
  end.

(** A keyword at the start of the input. *)
Definition literal (kw : pystr) (v : json) (s : pystr) : res (json * pystr) :=
  if has_prefix kw s then Ok (v, drop (length kw) s) else Raise JSONDecodeError.

(** The elements of an array, after its bracket or a comma. *)
Fixpoint parse_elements (pv : pystr -> res (json * pystr)) (fuel : nat) (s : pystr)
    : res (list json * pystr) :=
  match fuel with
  | O => Raise OutOfFuel
  | S f =>
    '(v, r) ← pv s;
    match skip_ws r with
    | c :: r' =>
      if c =? 44 then '(vs, rest) ← parse_elements pv f (skip_ws r'); Ok (v :: vs, rest)
      else if c =? 93 then Ok ([v], r')
      else Raise JSONDecodeError
    | [] => Raise JSONDecodeError
    end
  end.

(** The members of an object, after its brace or a comma. *)
Fixpoint parse_members (pv : pystr -> res (json * pystr)) (fuel : nat) (s : pystr)
    : res (list (pystr * json) * pystr) :=
  match fuel with
  | O => Raise OutOfFuel
  | S f =>
    match s with
    | q :: s' =>
      if q =? 34 then
        '(key, r) ← scanstring (S (length s')) s';
        match skip_ws r with
        | c :: r' =>
          if c =? 58 then
            '(v, r2) ← pv (skip_ws r');
            match skip_ws r2 with
            | d :: r3 =>
              if d =? 44 then
                '(kvs, rest) ← parse_members pv f (skip_ws r3); Ok ((key, v) :: kvs, rest)
              else if d =? 125 then Ok ([(key, v)], r3)
              else Raise JSONDecodeError
            | [] => Raise JSONDecodeError
            end
          else Raise JSONDecodeError
        | [] => Raise JSONDecodeError
        end
      else Raise JSONDecodeError
    | [] => Raise JSONDecodeError
    end
  end.

Section Loads.
(** [object_pairs_hook]: what an object becomes. *)
Context (hook : list (pystr * json) -> res json).

(** [scan_once] at the start of [s]. *)
Fixpoint parse_value (fuel : nat) (s : pystr) : res (json * pystr) :=
  match fuel with
  | O => Raise OutOfFuel
  | S f =>
    match s with
    | [] => Raise JSONDecodeError
    | c :: s' =>
      if c =? 34 then
        '(t, r) ← scanstring (S (length s')) s'; Ok (JStr t, r)
      else if c =? 123 then
        match skip_ws s' with
        | d :: r => if d =? 125 then v ← hook []; Ok (v, r)
                    else '(kvs, rest) ← parse_members (parse_value f) (S (length s')) (d :: r);
                         v ← hook kvs; Ok (v, rest)
        | [] => Raise JSONDecodeError
        end
      else if c =? 91 then
        match skip_ws s' with
        | d :: r => if d =? 93 then Ok (JList [], r)
                    else '(vs, rest) ← parse_elements (parse_value f) (S (length s')) (d :: r);
                         Ok (JList vs, rest)
        | [] => Raise JSONDecodeError
        end
      else if c =? 110 then literal (str "null") JNull s
      else if c =? 116 then literal (str "true") (JBool true) s
      else if c =? 102 then literal (str "false") (JBool false) s
      else if c =? 78 then literal (str "NaN") (JFloat (str "NaN")) s
      else if c =? 73 then literal (str "Infinity") (JFloat (str "Infinity")) s
      else if c =? 45 then
        (if has_prefix (str "Infinity") s'
         then Ok (JFloat (str "-Infinity"), drop 8 s') else scan_number true s')
      else scan_number false s
    end
  end.

(** [json.loads(s, object_pairs_hook=hook)] on text. *)
Definition loads_hook (s : pystr) : res json :=
  _ ← raise_if (match s with c :: _ => c =? 0xFEFF | [] => false end) JSONDecodeError;
  let s := skip_ws s in
  '(v, r) ← parse_value (S (length s)) s;
  match skip_ws r with
  | [] => Ok v
  | _ => Raise JSONDecodeError
  end.
End Loads.

(** The default object constructor. *)
Definition dict_hook (pairs : list (pystr * json)) : res json := Ok (JDict (dict_of pairs)).

(** [json.loads(s)] on text. *)
Definition loads (s : pystr) : res json := loads_hook dict_hook s.

(* ------------------------------------------------------------------ *)
(** ** [json.loads] of bytes *)

(** Code units of [k] bytes, big- or little-endian. *)
Fixpoint code_units (be : bool) (k fuel : nat) (b : bytes) : res pystr :=
  match fuel with
  | O => Raise OutOfFuel
  | S f =>
    match b with
    | [] => Ok []
    | _ =>
      if (length b <? k)%nat then Raise UnicodeDecodeError
      else
        let u := take k b in
        r ← code_units be k f (drop k b);
        Ok (from_bytes_big (if be then u else rev u) :: r)
    end
  end.

(** UTF-16 code units to code points; [surrogatepass] keeps lone surrogates. *)
Fixpoint join_utf16 (l : pystr) : pystr :=
  match l with
  | c :: ((d :: l') as t) =>
    if is_high c && is_low d then (0x10000 + (c - 0xD800) * 1024 + (d - 0xDC00)) :: join_utf16 l'
    else c :: join_utf16 t
  | _ => l
  end.

Definition decode_utf16 (be : bool) (b : bytes) : res pystr :=
  join_utf16 <$> code_units be 2 (S (length b)) b.

Definition decode_utf32 (be : bool) (b : bytes) : res pystr :=
  l ← code_units be 4 (S (length b)) b;
  if forallb (fun c => c <? 0x110000) l then Ok l else Raise UnicodeDecodeError.

Definition starts_with (p b : bytes) : bool := bool_decide (take (length p) b = p).

(** [b.decode(json.detect_encoding(b), "surrogatepass")]. *)
Definition decode_detected (b : bytes) : res pystr :=
  let nz i := match b !! i with Some x => negb (byte_val x =? 0) | None => false end in
  if starts_with [x00; x00; xfe; xff] b then decode_utf32 true (drop 4 b)
  else if starts_with [xff; xfe; x00; x00] b then decode_utf32 false (drop 4 b)
  else if starts_with [xfe; xff] b then decode_utf16 true (drop 2 b)
  else if starts_with [xff; xfe] b then decode_utf16 false (drop 2 b)
  else if starts_with [xef; xbb; xbf] b then utf8_decode_with true (drop 3 b)
  else if (4 <=? zlen b) && negb (nz 0%nat) then
    (if nz 1%nat then decode_utf16 true b else decode_utf32 true b)
  else if (4 <=? zlen b) && negb (nz 1%nat) then
    (if nz 2%nat || nz 3%nat then decode_utf16 false b else decode_utf32 false b)
  else if (zlen b =? 2) && negb (nz 0%nat) then decode_utf16 true b
  else if (zlen b =? 2) && negb (nz 1%nat) then decode_utf16 false b
  else utf8_decode_with true b.

Definition loads_bytes_hook (hook : list (pystr * json) -> res json) (b : bytes) : res json :=
  s ← decode_detected b; loads_hook hook s.

(** [json.loads(b)] on bytes. *)
Definition loads_bytes (b : bytes) : res json := loads_bytes_hook dict_hook b.

(** [json.dumps(v, separators=(",", ":"), sort_keys=True).encode("utf-8")]. *)
Definition dumps_bytes (v : json) : res bytes := utf8_encode (dumps_compact v).

(* ------------------------------------------------------------------ *)
(** ** Dictionaries: lookup laws *)

Section DictLemmas.
Context {A : Type}.
Implicit Types d : list (pystr * A).

Lemma dict_get_set k k' (v : A) d :
  dict_get k' (dict_set k v d) = if decide (k = k') then Some v else dict_get k' d.
Proof.
  induction d as [|[x w] d IH]; cbn; [done|].
  destruct (decide (x = k)) as [->|]; cbn; [by repeat case_decide|].
  rewrite IH. repeat case_decide; congruence.
Qed.

Lemma dict_set_keys k (v : A) d :
  (dict_set k v d).*1 = if decide (k ∈ d.*1) then d.*1 else d.*1 ++ [k].
Proof.
  induction d as [|[x w] d IH]; cbn; [done|].
  destruct (decide (x = k)) as [->|]; cbn.
  - rewrite decide_True by set_solver. done.
  - rewrite IH. repeat case_decide; set_solver.
Qed.

Lemma dict_set_NoDup k (v : A) d : NoDup d.*1 -> NoDup (dict_set k v d).*1.
Proof.
  intros H. rewrite dict_set_keys. case_decide; [done|].
  apply NoDup_app. split_and!; [done|set_solver|]. apply NoDup_singleton.
Qed.

Lemma dict_get_None k d : dict_get k d = None <-> k ∉ d.*1.
Proof.
  induction d as [|[x w] d IH]; cbn; [set_solver|].
  case_decide; subst; set_solver.
Qed.

Lemma dict_get_In k v d : dict_get k d = Some v -> (k, v) ∈ d.
Proof.
  induction d as [|[x w] d IH]; cbn; [done|].
  case_decide; [intros [= ->]; subst; set_solver|]. set_solver.
Qed.

Lemma dict_get_elem k v d : NoDup d.*1 -> (k, v) ∈ d -> dict_get k d = Some v.
Proof.
  induction d as [|[x w] d IH]; cbn; [set_solver|].
  rewrite NoDup_cons, elem_of_cons. intros [Hx Hd] [[= -> ->]|Hin].
  - by rewrite decide_True.
  - case_decide as E; [|by apply IH]. subst. destruct Hx. apply list_elem_of_fmap. by exists (k, v).
Qed.

Lemma dict_get_perm k d d' : NoDup d.*1 -> d ≡ₚ d' -> dict_get k d = dict_get k d'.
Proof.
  intros Hnd Hp. assert (NoDup d'.*1) by by rewrite <- Hp.
  destruct (dict_get k d) as [v|] eqn:E.
  - symmetry. apply dict_get_elem; [done|]. rewrite <- Hp. by apply dict_get_In.
  - symmetry. apply dict_get_None. rewrite <- Hp. by apply dict_get_None.
Qed.

Lemma dict_set_absent k (v : A) d : k ∉ d.*1 -> dict_set k v d = d ++ [(k, v)].
Proof.
  induction d as [|[x w] d IH]; cbn; [done|]. intros H.
  rewrite decide_False by set_solver. by rewrite IH by set_solver.
Qed.

(** Items with distinct keys are the dictionary they build. *)
Lemma dict_of_NoDup (pairs : list (pystr * A)) : NoDup pairs.*1 -> dict_of pairs = pairs.
Proof.
  unfold dict_of. enough (forall d, NoDup (d ++ pairs).*1 ->
    fold_left (fun d '(k, v) => dict_set k v d) pairs d = d ++ pairs) as H by apply (H []).
  induction pairs as [|[k v] pairs IH]; intros d Hd; cbn; [by rewrite app_nil_r|].
  rewrite dict_set_absent.
  - rewrite IH, <- app_assoc; [done|]. by rewrite <- app_assoc.
  - rewrite fmap_app in Hd. apply NoDup_app in Hd as (_&Hd&_). set_solver.
Qed.
End DictLemmas.

(* ------------------------------------------------------------------ *)
(** ** Round trip *)

Lemma json_nested_ind (P : json -> Prop) :
  P JNull -> (forall b, P (JBool b)) -> (forall z, P (JInt z)) -> (forall l, P (JFloat l)) ->
  (forall s, P (JStr s)) -> (forall l, Forall P l -> P (JList l)) ->
  (forall items, Forall (fun kv => P kv.2) items -> P (JDict items)) ->
  forall v, P v.
Proof.
  intros Hn Hb Hi Hf Hs Hl Hd. fix IH 1. intros [|b|z|f|s|l|items].
  - apply Hn.
  - apply Hb.
  - apply Hi.
  - apply Hf.
  - apply Hs.
  - apply Hl. induction l as [|x l IHl]; constructor; [apply IH|apply IHl].
  - apply Hd. induction items as [|[k v] items IHi]; constructor; [apply IH|apply IHi].
Qed.

(** The values [json.dumps] can write and [json.loads] reads back: Unicode scalar
    text, distinct keys, integers within the conversion limit, no floats. *)
Fixpoint dumpable (v : json) : Prop :=
  match v with
  | JNull | JBool _ => True
  | JInt z => zlen (digits 10 (Z.abs z)) <= int_max_str_digits
  | JFloat _ => False
  | JStr s => Forall (fun c => is_scalar c = true) s
  | JList l => (fix go l := match l with [] => True | x :: l' => dumpable x /\ go l' end) l
  | JDict items =>
    NoDup items.*1 /\
    (fix go l := match l with
                 | [] => True
                 | kv :: l' => (Forall (fun c => is_scalar c = true) kv.1 /\ dumpable kv.2) /\ go l'
                 end) items
  end.

(** The value with the items of every dictionary in key order. *)
Fixpoint sort_dicts (v : json) : json :=
  match v with
  | JList l => JList (map sort_dicts l)
  | JDict items => JDict (sorted_items (map (fun kv => (kv.1, sort_dicts kv.2)) items))
  | _ => v
  end.

Lemma dumpable_list l : dumpable (JList l) <-> Forall dumpable l.
Proof.
  cbn. induction l as [|x l IH]; [split; constructor|]. rewrite Forall_cons, IH. done.
Qed.

Lemma dumpable_dict items :
  dumpable (JDict items) <->
  NoDup items.*1 /\ Forall (fun kv => Forall (fun c => is_scalar c = true) kv.1 /\ dumpable kv.2) items.
Proof.
  cbn. f_equiv. induction items as [|x l IH]; [split; constructor|]. rewrite Forall_cons, IH. done.
Qed.

Lemma parse_uXXXX_hex c t : 0 <= c < 0x10000 -> parse_uXXXX (hex_fixed 4 c ++ t) = Some (c, t).
Proof.
  intros Hc. unfold hex_fixed. pose proof (length_digits_fixed 16 4 c) as Hl.
  pose proof (digits_fixed_range 16 4 c ltac:(lia)) as Hr.
  pose proof (of_digits_fixed 16 4 c ltac:(lia)) as Ho.
  destruct (digits_fixed 16 4 c) as [|a [|b [|d [|e [|]]]]]; try done.
  cbn [map app parse_uXXXX].
  change [hex_char a; hex_char b; hex_char d; hex_char e] with (map hex_char [a; b; d; e]).
  rewrite hex_digits_of_map by done. cbn [mbind option_bind]. rewrite Ho.
  f_equal. f_equal. apply Z.mod_small. exact Hc.
Qed.

Lemma scanstring_u f c t :
  0 <= c < 0x10000 ->
  scanstring (S f) (u_escape c ++ t) =
    (let '(u', r') := join_surrogate c t in '(s, rest) ← scanstring f r'; Ok (u' :: s, rest)).
Proof. intros Hc. unfold u_escape. cbn [app scanstring Z.eqb Pos.eqb]. by rewrite parse_uXXXX_hex. Qed.

Lemma join_surrogate_not_high c t : is_high c = false -> join_surrogate c t = (c, t).
Proof. intros H. unfold join_surrogate. destruct t as [|? [|? ?]]; [done..|]. by rewrite H. Qed.

Lemma join_surrogate_pair hi lo t :
  0xD800 <= hi < 0xDC00 -> 0xDC00 <= lo < 0xE000 ->
  join_surrogate hi (u_escape lo ++ t) = (0x10000 + (hi - 0xD800) * 1024 + (lo - 0xDC00), t).
Proof.
  intros Hh Hl. unfold u_escape, join_surrogate. cbn [app].
  replace (is_high hi) with true by (unfold is_high; lia). cbn [andb Z.eqb Pos.eqb].
  rewrite parse_uXXXX_hex by lia. by replace (is_low lo) with true by (unfold is_low; lia).
Qed.

(** One escaped character is read back. *)
Lemma scanstring_char f c t :
  is_scalar c = true ->
  scanstring (S f) (escape_char c ++ t) = ('(s, rest) ← scanstring f t; Ok (c :: s, rest)).
Proof.
  intros Hs. pose proof (proj1 (is_scalar_spec c) Hs) as [Hc Hn]. unfold escape_char.
  repeat match goal with
  | |- context [if ?x =? ?y then _ else _] => destruct (Z.eqb_spec x y); [subst; reflexivity|]
  end.
  destruct (Z.leb_spec 32 c), (Z.leb_spec c 126); cbn [andb].
  { cbn [app scanstring]. replace (c =? 34) with false by lia. replace (c =? 92) with false by lia.
    replace (c <=? 0x1F) with false by lia. done. }
  all: destruct (Z.ltb_spec c 0x10000).
  1,3: rewrite scanstring_u, join_surrogate_not_high by (unfold is_high; lia); done.
  all: try lia.
  pose proof (Z.div_mod (c - 0x10000) 1024 ltac:(lia)).
  pose proof (Z.mod_pos_bound (c - 0x10000) 1024 ltac:(lia)).
  rewrite <- app_assoc, scanstring_u, join_surrogate_pair by lia.
  by replace (0x10000 + _ + _) with c by lia.
Qed.

Lemma scanstring_dump s rest fuel :
  Forall (fun c => is_scalar c = true) s -> (length s < fuel)%nat ->
  scanstring fuel (concat (map escape_char s) ++ 34 :: rest) = Ok (s, rest).
Proof.
  intros Hs. revert fuel; induction Hs as [|c s Hc _ IH]; intros [|f] Hf; cbn in Hf; try lia; [done|].
  cbn [map concat]. rewrite <- app_assoc, scanstring_char, IH by (done || lia). done.
Qed.

Lemma escape_char_nonempty c : (1 <= length (escape_char c))%nat.
Proof. unfold escape_char. repeat case_match; cbn; lia. Qed.

Lemma dump_str_scan s rest :
  Forall (fun c => is_scalar c = true) s ->
  exists t, dump_str s ++ rest = 34 :: t /\ scanstring (S (length t)) t = Ok (s, rest).
Proof.
  intros Hs. exists (concat (map escape_char s) ++ 34 :: rest). split.
  - unfold dump_str. rewrite <- !app_assoc. done.
  - apply scanstring_dump; [done|]. rewrite length_app.
    assert (length s <= length (concat (map escape_char s)))%nat; [|lia].
    clear. induction s as [|c s IH]; cbn; [lia|]. rewrite length_app.
    pose proof (escape_char_nonempty c). lia.
Qed.

(** What follows a number literal must not extend it. *)
Definition num_stop (rest : pystr) : Prop :=
  match rest with
  | [] => True
  | c :: _ => is_digit c = false /\ c <> 46 /\ c <> 101 /\ c <> 69
  end.

Lemma span_digits_app ds rest :
  Forall (fun d => 0 <= d < 10) ds -> num_stop rest ->
  span_digits (map (fun d => 48 + d) ds ++ rest) = (map (fun d => 48 + d) ds, rest).
Proof.
  intros Hds Hr. induction Hds as [|d ds Hd _ IH]; cbn [map app span_digits].
  - destruct rest as [|c rest]; [done|]. cbn. by destruct Hr as [-> _].
  - replace (is_digit (48 + d)) with true by (unfold is_digit; lia). by rewrite IH.
Qed.

Lemma scan_frac_stop rest : num_stop rest -> scan_frac rest = ([], rest).
Proof. destruct rest as [|c r]; [done|]. intros (_&?&_). cbn. by destruct (Z.eqb_spec c 46). Qed.

Lemma scan_exp_stop rest : num_stop rest -> scan_exp rest = ([], rest).
Proof.
  destruct rest as [|c r]; [done|]. intros (_&_&?&?). cbn.
  destruct (Z.eqb_spec c 101); [done|]. by destruct (Z.eqb_spec c 69).
Qed.

Lemma map_sub_add ds : map (fun c => c - 48) (map (fun d => 48 + d) ds) = ds.
Proof. rewrite map_map. rewrite <- (map_id ds) at 2. apply map_ext. intros; lia. Qed.

Lemma scan_number_digits neg n rest :
  0 <= n -> num_stop rest -> zlen (digits 10 n) <= int_max_str_digits ->
  scan_number neg (map (fun d => 48 + d) (digits 10 n) ++ rest)
    = Ok (JInt (if neg then - n else n), rest).
Proof.
  intros Hn Hr Hlim. unfold scan_number.
  pose proof (digits_range 10 n ltac:(lia)) as Hds.
  assert (match map (fun d => 48 + d) (digits 10 n) ++ rest with
          | c :: s' => if c =? 48 then ([48], s')
                       else span_digits (map (fun d => 48 + d) (digits 10 n) ++ rest)
          | [] => ([], []) end = (map (fun d => 48 + d) (digits 10 n), rest)) as ->.
  { rewrite span_digits_app by done.
    destruct (digits 10 n) as [|d ds] eqn:E; [by destruct (digits_nonempty 10 n)|].
    cbn [map app]. destruct (Z.eqb_spec (48 + d) 48); [|done].
    destruct ds as [|d' ds]; [by replace d with 0 by lia|].
    pose proof (digits_head 10 n d (d' :: ds) ltac:(lia) Hn E ltac:(done)). lia. }
  rewrite scan_frac_stop, scan_exp_stop by done. cbn beta iota zeta.
  assert (zlen (map (fun d => 48 + d) (digits 10 n)) = zlen (digits 10 n)) as Hz
    by (unfold zlen; by rewrite length_map).
  rewrite Hz, map_sub_add, of_digits_digits by lia.
  destruct (map _ (digits 10 n)) eqn:E.
  { exfalso. by apply map_eq_nil, digits_nonempty in E. }
  by replace (_ <? _) with false by lia.
Qed.

Lemma skip_ws_app ws x :
  Forall (fun c => is_json_ws c = true) ws ->
  match x with c :: _ => is_json_ws c = false | [] => True end -> skip_ws (ws ++ x) = x.
Proof.
  induction 1 as [|c ws Hc _ IH]; cbn; intros Hx; [|by rewrite Hc, IH].
  destruct x as [|c x]; [done|]. cbn. by rewrite Hx.
Qed.

Section RoundTrip.
Context (iws kws : pystr).
Context (Hiws : Forall (fun c => is_json_ws c = true) iws).
Context (Hkws : Forall (fun c => is_json_ws c = true) kws).
(** A constructor of objects that keeps distinct keys as they are. *)
Context (hook : list (pystr * json) -> res json).
Context (Hhook : forall pairs, NoDup pairs.*1 -> hook pairs = Ok (JDict pairs)).

#[local] Abbreviation D := (dumps (44 :: iws) (58 :: kws)).

(** The text of a value starts with a character that begins no other token. *)
Definition starts_value (s : pystr) : Prop :=
  exists c t, s = c :: t /\ is_json_ws c = false /\ c <> 93 /\ c <> 125.

Lemma digits_text n : exists d l, digits 10 n = d :: l /\ 0 <= d < 10.
Proof.
  pose proof (digits_nonempty 10 n). pose proof (digits_range 10 n ltac:(lia)) as H1.
  destruct (digits 10 n) as [|d l]; [done|]. exists d, l. split; [done|]. by inversion H1.
Qed.

Lemma dumps_starts v : dumpable v -> starts_value (D v).
Proof.
  intros Hv. unfold starts_value. destruct v as [|[]|z|f|s|l|items]; try done; try by do 2 eexists.
  cbn. unfold dump_int. destruct (Z.ltb_spec z 0); [by do 2 eexists|].
  destruct (digits_text z) as (d&l&->&Hd). cbn. do 2 eexists; split; [done|].
  unfold is_json_ws. lia.
Qed.

Lemma starts_value_app s t : starts_value s -> starts_value (s ++ t).
Proof. intros (c&r&->&?&?&?). by do 2 eexists. Qed.

(** [pv] reads back [v] in front of anything that cannot extend it. *)
Definition reads (pv : pystr -> res (json * pystr)) (v : json) : Prop :=
  forall rest, num_stop rest -> pv (D v ++ rest) = Ok (sort_dicts v, rest).

Lemma starts_skip s : starts_value s -> skip_ws s = s.
Proof. intros (c&t&->&Hc&_). cbn. by rewrite Hc. Qed.

Lemma join_starts sep l rest : Forall starts_value l -> l <> [] -> starts_value (join_with sep l ++ rest).
Proof.
  destruct 1 as [|x l Hx _]; [done|]. intros _. cbn.
  destruct l; [by apply starts_value_app|]. rewrite <- app_assoc. by apply starts_value_app.
Qed.

Lemma join_with_cons sep x l : l <> [] -> join_with sep (x :: l) = x ++ sep ++ join_with sep l.
Proof. by destruct l. Qed.

Lemma parse_elements_dump pv l :
  l <> [] -> Forall (fun v => dumpable v /\ reads pv v) l ->
  forall fuel rest, (length l <= fuel)%nat ->
  parse_elements pv fuel (join_with (44 :: iws) (map D l) ++ 93 :: rest)
    = Ok (map sort_dicts l, rest).
Proof.
  intros Hne H. induction H as [|v l [Hd Hv] Hl IH]; [done|]. intros [|fuel] rest Hf; cbn in Hf; [lia|].
  cbn [parse_elements map]. destruct (decide (l = [])) as [->|Hl0].
  - cbn [map join_with]. by rewrite Hv.
  - rewrite join_with_cons by (by destruct l). rewrite <- !app_assoc.
    assert (starts_value (join_with (44 :: iws) (map D l) ++ 93 :: rest)) as Hs.
    { apply join_starts; [|by destruct l]. apply Forall_map. eapply Forall_impl; [exact Hl|].
      intros x [Hx _]. by apply dumps_starts. }
    rewrite Hv by done. cbn [mbind res_bind app skip_ws is_json_ws Z.eqb Pos.eqb orb].
    rewrite skip_ws_app by (done || by destruct Hs as (?&?&->&?&_)).
    by rewrite IH by (done || lia).
Qed.

Lemma dump_str_starts s t : starts_value (dump_str s ++ t).
Proof. by do 2 eexists. Qed.

(** One rendered member in front of [tail]. *)
Lemma member_dump pv k v tail :
  Forall (fun c => is_scalar c = true) k -> dumpable v -> reads pv v -> num_stop tail ->
  exists t,
    (dump_str k ++ (58 :: kws) ++ D v) ++ tail = 34 :: t /\
    scanstring (S (length t)) t = Ok (k, 58 :: kws ++ D v ++ tail) /\
    pv (skip_ws (kws ++ D v ++ tail)) = Ok (sort_dicts v, tail).
Proof.
  intros Hk Hd Hv Htail. destruct (dump_str_scan k (58 :: kws ++ D v ++ tail) Hk) as (t&E1&E2).
  exists t. split_and!; [|done|].
  - rewrite <- E1, <- !app_assoc. done.
  - pose proof (starts_value_app _ tail (dumps_starts v Hd)) as (c&r&E&Hc&_).
    rewrite skip_ws_app by (rewrite ?E; done). by apply Hv.
Qed.

Lemma parse_members_dump pv items :
  items <> [] ->
  Forall (fun kv => (Forall (fun c => is_scalar c = true) kv.1 /\ dumpable kv.2) /\ reads pv kv.2) items ->
  forall fuel rest, (length items <= fuel)%nat ->
  parse_members pv fuel
    (join_with (44 :: iws) (map (fun kv => dump_str kv.1 ++ (58 :: kws) ++ D kv.2) items) ++ 125 :: rest)
    = Ok (map (fun kv => (kv.1, sort_dicts kv.2)) items, rest).
Proof.
  intros Hne H. induction H as [|[k v] items [[Hk Hd] Hv] Hl IH]; [done|].
  intros [|fuel] rest Hf; cbn in Hf; [lia|]. cbn [fst snd] in *.
  cbn [parse_members]. rewrite !map_cons. destruct (decide (items = [])) as [->|Hl0].
  - cbn [map join_with fst snd].
    destruct (member_dump pv k v (125 :: rest) Hk Hd Hv ltac:(done)) as (t&->&E2&E3).
    cbn [Z.eqb Pos.eqb]. rewrite E2. cbn [mbind res_bind skip_ws is_json_ws Z.eqb Pos.eqb orb].
    by rewrite E3.
  - rewrite join_with_cons by (by destruct items). cbn [fst snd].
    set (J := join_with _ (map _ items)) in *. rewrite <- (app_assoc (dump_str k ++ _)).
    destruct (member_dump pv k v (((44 :: iws) ++ J) ++ 125 :: rest) Hk Hd Hv ltac:(done)) as (t&->&E2&E3).
    cbn [Z.eqb Pos.eqb]. rewrite E2. cbn [mbind res_bind skip_ws is_json_ws Z.eqb Pos.eqb orb].
    rewrite E3. cbn [mbind res_bind app skip_ws is_json_ws Z.eqb Pos.eqb orb].
    rewrite <- app_assoc, skip_ws_app; [|done|].
    2:{ unfold J. pose proof (join_starts (44 :: iws)
          (map (fun kv => dump_str kv.1 ++ (58 :: kws) ++ D kv.2) items) (125 :: rest)) as Hs.
        destruct Hs as (?&?&->&?&_); [|by destruct items|done].
        apply Forall_map, Forall_true. intros. apply dump_str_starts. }
    unfold J. by rewrite IH by (done || lia).
Qed.

Lemma join_length_le sep x l : x ∈ l -> (length x <= length (join_with sep l))%nat.
Proof.
  induction 1 as [x l|x y l Hx IH]; cbn.
  - destruct l; [done|]. rewrite length_app. lia.
  - destruct l; [by apply not_elem_of_nil in Hx|]. rewrite !length_app. lia.
Qed.

Lemma join_length_count sep l :
  Forall (fun x => (1 <= length x)%nat) l -> (length l <= length (join_with sep l))%nat.
Proof.
  induction 1 as [|x l Hx _ IH]; cbn; [lia|]. destruct l; cbn in *; [lia|].
  rewrite !length_app. lia.
Qed.

Lemma starts_length s : starts_value s -> (1 <= length s)%nat.
Proof. intros (c&t&->&_). cbn. lia. Qed.

(** The members of a dumped dictionary, in key order. *)
Lemma dumps_dict items :
  NoDup items.*1 ->
  D (JDict items) =
    [123] ++ join_with (44 :: iws)
               (map (fun kv => dump_str kv.1 ++ (58 :: kws) ++ D kv.2) (sorted_items items)) ++ [125].
Proof. intros Hnd. cbn [dumps]. rewrite (sorted_items_map D) by done. by rewrite map_map. Qed.

Lemma sort_dicts_dict items :
  NoDup items.*1 ->
  sort_dicts (JDict items) = JDict (map (fun kv => (kv.1, sort_dicts kv.2)) (sorted_items items)).
Proof. intros Hnd. cbn [sort_dicts]. by rewrite sorted_items_map. Qed.

Lemma sorted_items_nil {A} (l : list (pystr * A)) : sorted_items l = [] -> l = [].
Proof. intros H. apply Permutation_nil_r. by rewrite <- H, sorted_items_perm. Qed.

(** The array and object cases of the main lemma. *)
Lemma parse_list_dump l f rest :
  Forall dumpable l -> Forall (fun v => reads (parse_value hook f) v) l ->
  parse_value hook (S f) (D (JList l) ++ rest) = Ok (sort_dicts (JList l), rest).
Proof.
  intros Hv Hreads. cbn [dumps sort_dicts]. rewrite <- !app_assoc.
  cbn [app parse_value Z.eqb Pos.eqb].
  destruct (decide (l = [])) as [->|Hl]; [done|].
  assert (Forall starts_value (map D l)) as Hst.
  { apply Forall_map. eapply Forall_impl; [exact Hv|]. apply dumps_starts. }
  pose proof (join_starts (44 :: iws) (map D l) (93 :: rest) Hst ltac:(by destruct l)) as Hs.
  pose proof (starts_skip _ Hs) as ->.
  pose proof (join_length_count (44 :: iws) (map D l)
               ltac:(eapply Forall_impl; [exact Hst|apply starts_length])) as Hcount.
  rewrite length_map in Hcount.
  assert (parse_elements (parse_value hook f)
            (S (length (join_with (44 :: iws) (map D l) ++ 93 :: rest)))
            (join_with (44 :: iws) (map D l) ++ 93 :: rest) = Ok (map sort_dicts l, rest)) as Hp.
  { apply parse_elements_dump; [done| |rewrite length_app; lia].
    rewrite Forall_forall in Hreads, Hv |- *. split; [by apply Hv|by apply Hreads]. }
  destruct Hs as (c&t&E&_&?&?). rewrite E in *. destruct (Z.eqb_spec c 93); [done|]. by rewrite Hp.
Qed.

Lemma parse_dict_dump items f rest :
  dumpable (JDict items) -> Forall (fun kv => reads (parse_value hook f) kv.2) items ->
  parse_value hook (S f) (D (JDict items) ++ rest) = Ok (sort_dicts (JDict items), rest).
Proof.
  intros [Hnd Hv]%dumpable_dict Hreads. rewrite dumps_dict, sort_dicts_dict by done.
  rewrite <- (sorted_items_perm items) in Hv, Hreads.
  assert (NoDup (sorted_items items).*1) as Hnd' by (by rewrite sorted_items_perm).
  destruct (decide (items = [])) as [->|Hl]; [cbn; by rewrite Hhook by constructor|].
  assert (sorted_items items <> []) as Hl' by (intros E; by apply sorted_items_nil in E).
  set (L := sorted_items items) in *. set (M := map _ L).
  rewrite <- !app_assoc. cbn [app parse_value Z.eqb Pos.eqb].
  assert (Forall starts_value M) as Hst.
  { apply Forall_map, Forall_true. intros. apply dump_str_starts. }
  pose proof (join_starts (44 :: iws) M (125 :: rest) Hst ltac:(by destruct L)) as Hs.
  pose proof (starts_skip _ Hs) as ->.
  pose proof (join_length_count (44 :: iws) M
               ltac:(eapply Forall_impl; [exact Hst|apply starts_length])) as Hcount.
  unfold M at 1 in Hcount. rewrite length_map in Hcount.
  assert (parse_members (parse_value hook f) (S (length (join_with (44 :: iws) M ++ 125 :: rest)))
            (join_with (44 :: iws) M ++ 125 :: rest)
          = Ok (map (fun kv => (kv.1, sort_dicts kv.2)) L, rest)) as Hp.
  { apply parse_members_dump; [done| |rewrite length_app; lia].
    rewrite Forall_forall in Hreads, Hv |- *. split; [by apply Hv|by apply Hreads]. }
  destruct Hs as (c&t&E&_&?&?). rewrite E in *. destruct (Z.eqb_spec c 125); [done|]. rewrite Hp.
  cbn [mbind res_bind]. rewrite Hhook; [done|].
  by rewrite <- list_fmap_compose.
Qed.

Lemma list_elem_length l x : x ∈ l -> (2 + length (D x) <= length (D (JList l)))%nat.
Proof.
  intros Hx. cbn [dumps]. rewrite !length_app. cbn [length].
  pose proof (join_length_le (44 :: iws) (D x) (map D l) ltac:(by apply list_elem_of_fmap_2)). lia.
Qed.

Lemma dict_elem_length items kv :
  NoDup items.*1 -> kv ∈ items -> (2 + length (D kv.2) <= length (D (JDict items)))%nat.
Proof.
  intros Hnd Hx. rewrite dumps_dict, !length_app by done. cbn [length].
  rewrite <- (sorted_items_perm items) in Hx.
  pose proof (join_length_le (44 :: iws) (dump_str kv.1 ++ (58 :: kws) ++ D kv.2)
    (map (fun kv => dump_str kv.1 ++ (58 :: kws) ++ D kv.2) (sorted_items items))) as Hj.
  rewrite !length_app in Hj. specialize (Hj ltac:(by apply list_elem_of_fmap; eauto)). lia.
Qed.

Lemma parse_int_dump z f rest :
  dumpable (JInt z) -> num_stop rest ->
  parse_value hook (S f) (dump_int z ++ rest) = Ok (JInt z, rest).
Proof.
  intros Hv Hr. cbn in Hv. unfold dump_int. destruct (Z.ltb_spec z 0).
  - replace (Z.abs z) with (- z) in Hv by lia.
    destruct (digits_text (- z)) as (d&l&E&Hd). cbn [app parse_value Z.eqb Pos.eqb].
    pose proof (scan_number_digits true (- z) rest ltac:(lia) Hr Hv) as Hn.
    rewrite Z.opp_involutive in Hn. rewrite E in *. cbn [map app] in *.
    unfold has_prefix. rewrite bool_decide_eq_false_2; [done|]. intros [=]; lia.
  - replace (Z.abs z) with z in Hv by lia.
    destruct (digits_text z) as (d&l&E&Hd).
    pose proof (scan_number_digits false z rest ltac:(lia) Hr Hv) as Hn.
    rewrite E in *. cbn [map app parse_value] in *.
    repeat match goal with |- context [if 48 + d =? ?y then _ else _] =>
      destruct (Z.eqb_spec (48 + d) y); [lia|] end. done.
Qed.

(** Main lemma: the parser reads a dumped value back, keys sorted. *)
Lemma parse_value_dump v :
  dumpable v -> forall f, (length (D v) < f)%nat -> reads (parse_value hook f) v.
Proof.
  induction v as [|b|z|fl|s|l IH|items IH] using json_nested_ind; intros Hv f Hf rest Hr;
    (destruct f as [|f]; [lia|]).
  - done.
  - by destruct b.
  - by apply parse_int_dump.
  - done.
  - destruct (dump_str_scan s rest Hv) as (t&E1&E2). cbn [dumps]. rewrite E1.
    cbn [parse_value Z.eqb Pos.eqb]. by rewrite E2.
  - apply dumpable_list in Hv. apply parse_list_dump; [done|].
    rewrite Forall_forall in IH, Hv |- *. intros x Hx. apply IH; [done|by apply Hv|].
    pose proof (list_elem_length l x Hx). lia.
  - apply parse_dict_dump; [done|]. apply dumpable_dict in Hv as [Hnd Hv].
    rewrite Forall_forall in IH, Hv |- *. intros kv Hx. apply IH; [done|by apply Hv|].
    pose proof (dict_elem_length items kv Hnd Hx). lia.
Qed.

(** The text is ASCII, so its UTF-8 encoding has one byte per character. *)
Lemma escape_char_ascii c : Forall (fun x => 0 <= x < 128) (escape_char c).
Proof.
  assert (forall z, Forall (fun x => 0 <= x < 128) (u_escape z)) as Hu.
  { intros z. unfold u_escape, hex_fixed. apply Forall_app. split; [repeat constructor; lia|].
    apply Forall_map. eapply Forall_impl; [apply (digits_fixed_range 16 4 z); lia|].
    intros d Hd. apply hex_char_lower in Hd. unfold is_lower_hex in Hd. lia. }
  unfold escape_char. repeat case_match; try (repeat constructor; lia); [apply Hu|].
  apply Forall_app. split; apply Hu.
Qed.

Lemma join_with_Forall (P : Z -> Prop) sep l :
  Forall P sep -> Forall (Forall P) l -> Forall P (join_with sep l).
Proof.
  intros Hs. induction 1 as [|x l Hx _ IH]; cbn; [done|].
  destruct l; [done|]. repeat (apply Forall_app; split); done.
Qed.

Lemma dump_str_ascii s : Forall (fun x => 0 <= x < 128) (dump_str s).
Proof.
  unfold dump_str. repeat (apply Forall_app; split); try (repeat constructor; lia).
  induction s; cbn; [done|]. apply Forall_app. split; [apply escape_char_ascii|done].
Qed.

Lemma dump_int_ascii z : Forall (fun x => 0 <= x < 128) (dump_int z).
Proof.
  assert (forall n, Forall (fun x => 0 <= x < 128) (map (fun d => 48 + d) (digits 10 n))) as H.
  { intros n. apply Forall_map. eapply Forall_impl; [apply (digits_range 10 n); lia|].
    intros d. cbn. lia. }
  unfold dump_int. case_match; [constructor; [lia|]|]; apply H.
Qed.

Lemma ws_ascii ws : Forall (fun c => is_json_ws c = true) ws -> Forall (fun x => 0 <= x < 128) ws.
Proof. intros H. eapply Forall_impl; [exact H|]. unfold is_json_ws. intros. lia. Qed.

Lemma dumps_ascii v : dumpable v -> Forall (fun x => 0 <= x < 128) (D v).
Proof.
  assert (Forall (fun x => 0 <= x < 128) (44 :: iws)) by (constructor; [lia|by apply ws_ascii]).
  assert (Forall (fun x => 0 <= x < 128) (58 :: kws)) by (constructor; [lia|by apply ws_ascii]).
  induction v as [|b|z|fl|s|l IH|items IH] using json_nested_ind; intros Hv.
  - repeat constructor; lia.
  - destruct b; repeat constructor; lia.
  - apply dump_int_ascii.
  - done.
  - apply dump_str_ascii.
  - apply dumpable_list in Hv. cbn [dumps].
    repeat (apply Forall_app; split); try (repeat constructor; lia).
    apply join_with_Forall; [done|]. apply Forall_map. rewrite Forall_forall in *.
    intros x Hx. by apply IH, Hv.
  - apply dumpable_dict in Hv as [Hnd Hv]. rewrite dumps_dict by done.
    rewrite <- (sorted_items_perm items) in Hv, IH.
    repeat (apply Forall_app; split); try (repeat constructor; lia).
    apply join_with_Forall; [done|]. apply Forall_map. rewrite Forall_forall in IH, Hv |- *.
    intros kv Hx. apply Forall_app; split; [apply dump_str_ascii|].
    apply Forall_app; split; [done|]. by apply IH, Hv.
Qed.

(** White space may follow the text. *)
Lemma loads_dumps_sep v ws :
  dumpable v -> Forall (fun c => is_json_ws c = true) ws -> loads_hook hook (D v ++ ws) = Ok (sort_dicts v).
Proof.
  intros Hv Hws. unfold loads_hook. pose proof (dumps_starts v Hv) as Hs.
  pose proof (dumps_ascii v Hv) as Ha.
  rewrite (starts_skip (D v ++ ws)) by by apply starts_value_app.
  assert (num_stop ws) as Hst.
  { destruct Hws as [|c ws Hc _]; cbn; [done|]. unfold is_json_ws in Hc. unfold is_digit. lia. }
  pose proof (parse_value_dump v Hv (S (length (D v ++ ws))) ltac:(rewrite length_app; lia) ws Hst) as Hp.
  rewrite Hp. destruct Hs as (c&t&E&_). rewrite E in *. apply Forall_inv in Ha. cbn [app].
  replace (c =? 0xFEFF) with false by lia. cbn.
  by rewrite <- (app_nil_r ws), skip_ws_app.
Qed.
End RoundTrip.

(** Evaluate the comparisons of literal keys that a lookup makes. *)
Ltac str_decide :=
  repeat match goal with
  | |- context [decide (str ?a = str ?b)] =>
    first [ rewrite (decide_True (P := str a = str b)) by reflexivity
          | rewrite (decide_False (P := str a = str b)) by (vm_compute; discriminate) ]
  end.
Ltac dict_simpl := cbn [dict_get]; str_decide; cbn [fmap option_fmap option_map default from_option id].

(** Lookup in the dictionary that a dump reads back as. *)
Lemma dict_get_map {A B} (f : A -> B) k (d : list (pystr * A)) :
  dict_get k (map (fun kv => (kv.1, f kv.2)) d) = f <$> dict_get k d.
Proof. induction d as [|[x v] d IH]; cbn; [done|]. by case_decide. Qed.

Lemma map_keys {A B} (f : A -> B) (d : list (pystr * A)) : (map (fun kv => (kv.1, f kv.2)) d).*1 = d.*1.
Proof. induction d as [|[x v] d IH]; cbn; [done|]. by f_equal. Qed.

Lemma dict_get_sort_dicts items items' k :
  NoDup items.*1 -> sort_dicts (JDict items) = JDict items' ->
  dict_get k items' = sort_dicts <$> dict_get k items.
Proof.
  intros Hnd E. rewrite sort_dicts_dict in E by done. injection E as <-.
  rewrite dict_get_map. f_equal. apply dict_get_perm; [|apply sorted_items_perm].
  by rewrite sorted_items_perm.
Qed.

Lemma missing_nil l k : missing l k = [] <-> forall x, x ∈ l -> x ∈ k.
Proof.
  unfold missing. split.
  - intros E x Hx. destruct (decide (x ∈ k)); [done|]. assert (x ∈ filter (fun k0 => k0 ∉ k) l) as Hf by (by apply list_elem_of_filter).
    rewrite E in Hf. by apply not_elem_of_nil in Hf.
  - intros Hl. destruct (filter _ l) as [|x f] eqn:E; [done|]. assert (x ∈ x :: f) as Hx by set_solver.
    rewrite <- E in Hx. apply list_elem_of_filter in Hx as [Hn Hx]. by destruct Hn; apply Hl.
Qed.

Lemma same_keys_spec l k : same_keys l k = true <-> forall x, x ∈ l <-> x ∈ k.
Proof.
  unfold same_keys. rewrite andb_true_iff, !bool_decide_eq_true, !missing_nil. naive_solver.
Qed.

Lemma same_keys_perm l k k' : k ≡ₚ k' -> same_keys l k = same_keys l k'.
Proof. intros Hp. apply eq_true_iff_eq. rewrite !same_keys_spec. by setoid_rewrite Hp. Qed.

(** A dictionary and its sorted copy have the same keys and items. *)
Lemma sort_dicts_items items :
  dumpable (JDict items) ->
  exists items', sort_dicts (JDict items) = JDict items' /\
    (forall k, item items' k = (sort_dicts <$> item items k)) /\
    (forall l, same_keys l items'.*1 = same_keys l items.*1).
Proof.
  intros [Hnd _]%dumpable_dict. eexists. split; [done|]. split.
  - intros k. unfold item. erewrite dict_get_sort_dicts by done. by destruct (dict_get k items).
  - intros l. apply same_keys_perm. rewrite sorted_items_perm. by rewrite map_keys.
Qed.

Lemma item_dumpable items k v : dumpable (JDict items) -> item items k = Ok v -> dumpable v.
Proof.
  intros [_ Hd]%dumpable_dict. unfold item. destruct (dict_get k items) as [x|] eqn:E; [|done].
  intros [= <-]. apply dict_get_In in E. rewrite Forall_forall in Hd. by apply (Hd _ E).
Qed.

(* ------------------------------------------------------------------ *)
(** ** Theorems *)

(** [json.loads] inverts [json.dumps(..., sort_keys=True)] with compact or default
    separators, up to the key order the dump imposes. *)
Lemma dict_hook_NoDup pairs : NoDup pairs.*1 -> dict_hook pairs = Ok (JDict pairs).
Proof. intros Hnd. unfold dict_hook. by rewrite dict_of_NoDup. Qed.

Lemma loads_hook_dumps_compact hook v :
  (forall pairs, NoDup pairs.*1 -> hook pairs = Ok (JDict pairs)) ->
  dumpable v -> loads_hook hook (dumps_compact v) = Ok (sort_dicts v).
Proof. intros Hh H. rewrite <- (app_nil_r (dumps_compact v)). by apply (loads_dumps_sep [] []). Qed.

Lemma loads_dumps_compact v : dumpable v -> loads (dumps_compact v) = Ok (sort_dicts v).
Proof. apply loads_hook_dumps_compact, dict_hook_NoDup. Qed.

(** A compact dump followed by a line feed. *)
Lemma loads_dumps_line v : dumpable v -> loads (dumps_compact v ++ [10]) = Ok (sort_dicts v).
Proof. intros H. apply (loads_dumps_sep [] []); try done; [apply dict_hook_NoDup|by repeat constructor]. Qed.

Lemma loads_dumps_default v : dumpable v -> loads (dumps_default v) = Ok (sort_dicts v).
Proof.
  intros H. rewrite <- (app_nil_r (dumps_default v)). apply (loads_dumps_sep [32] [32]); try done; [by repeat constructor..|apply dict_hook_NoDup].
Qed.

Lemma dumps_compact_ascii v : dumpable v -> Forall (fun x => 0 <= x < 128) (dumps_compact v).
Proof. apply (dumps_ascii [] []); constructor. Qed.

Lemma dumps_bytes_ok v : dumpable v -> dumps_bytes v = Ok (map to_byte (dumps_compact v)).
Proof. intros H. by apply utf8_encode_ascii, dumps_compact_ascii. Qed.

(** A dumped object is detected as UTF-8 and parsed back from its bytes. *)
Lemma decode_detected_utf8 b0 b1 r :
  (1 <= byte_val b0 < 0x80) -> (1 <= byte_val b1 < 0x80) ->
  decode_detected (b0 :: b1 :: r) = utf8_decode_with true (b0 :: b1 :: r).
Proof.
  intros H0 H1. unfold decode_detected.
  assert (forall p q, byte_val p = 0 \/ 0x80 <= byte_val p -> starts_with (p :: q) (b0 :: b1 :: r) = false) as Hs.
  { intros p q Hp. unfold starts_with. apply bool_decide_eq_false_2. cbn. intros [= E _]. subst. lia. }
  rewrite !Hs by (cbv; intuition congruence). cbn [lookup list_lookup].
  replace (byte_val b0 =? 0) with false by lia. replace (byte_val b1 =? 0) with false by lia.
  cbn [negb]. by rewrite !andb_false_r.
Qed.

(** The text of an object is ASCII and begins with a brace and another character. *)
Lemma object_detected iws kws items b :
  Forall (fun c => is_json_ws c = true) iws -> Forall (fun c => is_json_ws c = true) kws ->
  let text := dumps (44 :: iws) (58 :: kws) (JDict items) in
  dumpable (JDict items) -> utf8_encode text = Ok b -> decode_detected b = Ok text.
Proof.
  intros Hi Hk text Hv Hb. pose proof (dumps_ascii iws kws Hi Hk _ Hv) as Ha. fold text in Ha.
  rewrite (utf8_encode_ascii _ Ha) in Hb. assert (b = map to_byte text) as -> by congruence. clear Hb.
  pose proof (utf8_encode_ascii _ Ha) as He. apply (utf8_decode_encode true) in He.
  assert (exists c t, text = 123 :: c :: t /\ 1 <= c < 128) as (c&t&E&Hc).
  { pose proof Hv as [Hnd _]%dumpable_dict. unfold text. cbn [dumps app].
    destruct (sorted_items _) as [|kv l] eqn:Es; [by do 2 eexists|]. cbn [map join_with].
    unfold dump_str. cbn [app]. destruct l; by do 2 eexists. }
  clearbody text. subst text. cbn [map] in *.
  by rewrite decode_detected_utf8 by (rewrite byte_val_to_byte, Z.mod_small; lia).
Qed.

Lemma loads_bytes_hook_dumps hook items b :
  (forall pairs, NoDup pairs.*1 -> hook pairs = Ok (JDict pairs)) ->
  dumpable (JDict items) -> dumps_bytes (JDict items) = Ok b ->
  loads_bytes_hook hook b = Ok (sort_dicts (JDict items)).
Proof.
  intros Hh Hv Hb. unfold loads_bytes_hook. rewrite (object_detected [] [] items b) by done.
  cbn [mbind res_bind]. by apply loads_hook_dumps_compact.
Qed.

Lemma loads_bytes_default items b :
  dumpable (JDict items) -> utf8_encode (dumps_default (JDict items)) = Ok b ->
  loads_bytes b = Ok (sort_dicts (JDict items)).
Proof.
  intros Hv Hb. unfold loads_bytes, loads_bytes_hook.
  rewrite (object_detected [32] [32] items b) by (done || by repeat constructor).
  cbn [mbind res_bind]. by apply loads_dumps_default.
Qed.

Lemma loads_bytes_dumps items b :
  dumpable (JDict items) -> dumps_bytes (JDict items) = Ok b ->
  loads_bytes b = Ok (sort_dicts (JDict items)).
Proof. apply loads_bytes_hook_dumps, dict_hook_NoDup. Qed.

(* ------------------------------------------------------------------ *)
(** ** Termination of the parser *)

(** A scanner is well behaved on [s] when success leaves a shorter rest and
    failure is a [ValueError] ([JSONDecodeError] is one), never lack of fuel. *)
Definition consumes {A} (s : pystr) (r : res (A * pystr)) : Prop :=
  match r with
  | Ok (_, rest) => (length rest < length s)%nat
  | Raise e => is_ValueError e = true
  end.

Lemma consumes_bind {A B} (s s' : pystr) (r : res (A * pystr)) (g : A -> B) :
  (length s' <= length s)%nat -> consumes s' r ->
  consumes s ('(t, rest) ← r; Ok (g t, rest)).
Proof. intros Hs. destruct r as [[t rest]|e]; cbn; [lia|done]. Qed.

Lemma parse_uXXXX_length s c r : parse_uXXXX s = Some (c, r) -> (length s = 4 + length r)%nat.
Proof.
  unfold parse_uXXXX. destruct s as [|a [|b [|d [|e s]]]]; try done. cbn [length].
  destruct (hex_digits_of _); [|done]. by intros [= _ <-].
Qed.

Lemma join_surrogate_length c s : (length (join_surrogate c s).2 <= length s)%nat.
Proof.
  unfold join_surrogate. destruct s as [|b [|u s]]; [done..|].
  destruct (_ && _ && _); [|done]. destruct (parse_uXXXX s) as [[c2 r]|] eqn:E; [|done].
  destruct (is_low c2); [|done]. apply parse_uXXXX_length in E. cbn. lia.
Qed.

Lemma scanstring_consumes fuel s : (length s < fuel)%nat -> consumes s (scanstring fuel s).
Proof.
  revert s; induction fuel as [|f IH]; intros s Hf; [lia|]. cbn [scanstring].
  destruct s as [|c s]; [done|]. cbn in Hf.
  destruct (c =? 34); [cbn; lia|]. destruct (c =? 92).
  - destruct s as [|e s]; [done|]. cbn in Hf. destruct (e =? 117).
    + destruct (parse_uXXXX s) as [[u r]|] eqn:E; [|done].
      apply parse_uXXXX_length in E. pose proof (join_surrogate_length u r) as Hj.
      destruct (join_surrogate u r) as [u' r']. cbn in Hj.
      apply (consumes_bind _ r'); [cbn; lia|]. apply IH. lia.
    + destruct (simple_escape e); [|done].
      apply (consumes_bind _ s); [cbn; lia|]. apply IH. lia.
  - destruct (c <=? 31); [done|]. apply (consumes_bind _ s); [cbn; lia|]. apply IH. lia.
Qed.

Lemma skip_ws_length s : (length (skip_ws s) <= length s)%nat.
Proof. induction s as [|c s IH]; cbn; [done|]. destruct (is_json_ws c); cbn; lia. Qed.

Lemma span_digits_length s l r : span_digits s = (l, r) -> (length s = length l + length r)%nat.
Proof.
  revert l r; induction s as [|c s IH]; cbn; intros l r; [by intros [= <- <-]|].
  destruct (is_digit c); [|by intros [= <- <-]].
  destruct (span_digits s) as [l' r'] eqn:E. intros [= <- <-]. cbn. by rewrite (IH l' r').
Qed.

Lemma scan_frac_length s l r : scan_frac s = (l, r) -> (length r <= length s)%nat.
Proof.
  unfold scan_frac. destruct s as [|c s]; [by intros [= _ <-]|].
  destruct (c =? 46); [|by intros [= _ <-]].
  destruct (span_digits s) as [[|x l'] r'] eqn:E; intros [= _ <-]; [done|].
  apply span_digits_length in E. cbn in *. lia.
Qed.

Lemma scan_exp_length s l r : scan_exp s = (l, r) -> (length r <= length s)%nat.
Proof.
  unfold scan_exp. destruct s as [|c s]; [by intros [= _ <-]|].
  destruct (_ || _); [|by intros [= _ <-]].
  set (p := match s with [] => _ | _ => _ end).
  assert (length p.2 <= length s)%nat as Hp.
  { unfold p. destruct s as [|x y]; [done|]. destruct (_ || _); cbn; lia. }
  destruct p as [sg s'']. cbn in Hp.
  destruct (span_digits s'') as [[|x l'] r'] eqn:E; intros [= _ <-]; [done|].
  apply span_digits_length in E. cbn in *. lia.
Qed.

Lemma scan_number_consumes neg s : consumes s (scan_number neg s).
Proof.
  unfold scan_number. set (p := match s with [] => _ | _ => _ end).
  assert (length p.1 + length p.2 <= length s)%nat as Hp.
  { unfold p. destruct s as [|c s]; [done|]. destruct (c =? 48); [cbn; lia|].
    destruct (span_digits (c :: s)) as [l r] eqn:E. apply span_digits_length in E. cbn in *. lia. }
  destruct p as [[|x ip] s1]; [done|]. cbn in Hp.
  destruct (scan_frac s1) as [fr s2] eqn:E2. apply scan_frac_length in E2.
  destruct (scan_exp s2) as [ex s3] eqn:E3. apply scan_exp_length in E3.
  destruct fr, ex; cbn [consumes]; try lia. destruct (_ <? _); cbn; [done|lia].
Qed.

Lemma literal_consumes kw v s : kw <> [] -> consumes s (literal kw v s).
Proof.
  intros Hk. unfold literal, has_prefix. case_bool_decide as E; [|done]. cbn.
  rewrite length_drop. destruct s as [|c s]; [|destruct kw; [done|]; cbn; lia].
  rewrite take_nil in E. by subst.
Qed.

Lemma parse_elements_consumes pv n fuel s :
  (forall s', (length s' <= n)%nat -> consumes s' (pv s')) ->
  (length s <= n)%nat -> (length s < fuel)%nat -> consumes s (parse_elements pv fuel s).
Proof.
  intros Hpv. revert s; induction fuel as [|f IH]; intros s Hn Hf; [lia|]. cbn [parse_elements].
  pose proof (Hpv s Hn) as Hs. destruct (pv s) as [[v r]|e]; [cbn in Hs|done]. cbn [mbind res_bind].
  pose proof (skip_ws_length r). destruct (skip_ws r) as [|c r']; [done|]. cbn in *.
  pose proof (skip_ws_length r'). destruct (c =? 44).
  - apply (consumes_bind _ (skip_ws r')); [lia|]. apply IH; lia.
  - destruct (c =? 93); cbn; [lia|done].
Qed.

Lemma parse_members_consumes pv n fuel s :
  (forall s', (length s' <= n)%nat -> consumes s' (pv s')) ->
  (length s <= n)%nat -> (length s < fuel)%nat -> consumes s (parse_members pv fuel s).
Proof.
  intros Hpv. revert s; induction fuel as [|f IH]; intros s Hn Hf; [lia|]. cbn [parse_members].
  destruct s as [|q s]; [done|]. destruct (q =? 34); [|done]. cbn in Hn, Hf.
  pose proof (scanstring_consumes (S (length s)) s ltac:(lia)) as Hk.
  destruct (scanstring _ s) as [[key r]|e]; [cbn in Hk|done]. cbn [mbind res_bind].
  pose proof (skip_ws_length r). destruct (skip_ws r) as [|c r']; [done|]. cbn in *.
  destruct (c =? 58); [|done]. pose proof (skip_ws_length r').
  pose proof (Hpv (skip_ws r') ltac:(lia)) as Hs.
  destruct (pv _) as [[v r2]|e]; [cbn in Hs|done]. cbn [mbind res_bind].
  pose proof (skip_ws_length r2). destruct (skip_ws r2) as [|d r3]; [done|]. cbn in *.
  pose proof (skip_ws_length r3). destruct (d =? 44).
  - apply (consumes_bind _ (skip_ws r3)); [cbn; lia|]. apply IH; lia.
  - destruct (d =? 125); cbn; [lia|done].
Qed.

Section Termination.
Context (hook : list (pystr * json) -> res json).
Context (Hhook : forall kvs e, hook kvs = Raise e -> is_ValueError e = true).

Lemma hook_consumes s kvs (rest : pystr) :
  (length rest < length s)%nat -> consumes s (v ← hook kvs; Ok (v, rest)).
Proof.
  intros Hl. pose proof (Hhook kvs) as H. destruct (hook kvs); cbn; [done|]. by apply H.
Qed.

Lemma parse_value_consumes fuel s : (length s < fuel)%nat -> consumes s (parse_value hook fuel s).
Proof.
  revert s; induction fuel as [|f IH]; intros s Hf; [lia|]. cbn [parse_value].
  destruct s as [|c s]; [done|]. cbn in Hf. pose proof (skip_ws_length s) as Hsk.
  destruct (c =? 34).
  { apply (consumes_bind _ s); [cbn; lia|]. apply scanstring_consumes. lia. }
  destruct (c =? 123).
  { destruct (skip_ws s) as [|d r]; [done|]. cbn in Hsk. destruct (d =? 125).
    - apply hook_consumes. cbn. lia.
    - pose proof (parse_members_consumes (parse_value hook f) (length s) (S (length s)) (d :: r)
        ltac:(intros; apply IH; lia) ltac:(cbn; lia) ltac:(cbn; lia)) as Hm.
      destruct (parse_members _ _ _) as [[kvs rest]|e]; [|done].
      apply hook_consumes. cbn in *. lia. }
  destruct (c =? 91).
  { destruct (skip_ws s) as [|d r]; [done|]. cbn in Hsk. destruct (d =? 93); [cbn; lia|].
    apply (consumes_bind _ (d :: r)); [cbn; lia|].
    apply (parse_elements_consumes _ (length s)); [intros; apply IH; lia|cbn; lia..]. }
  do 5 (destruct (_ =? _); [by apply literal_consumes|]).
  destruct (c =? 45); [|apply scan_number_consumes].
  destruct (has_prefix _ _); cbn [consumes]; [rewrite length_drop; cbn; lia|].
  pose proof (scan_number_consumes true s) as H.
  destruct (scan_number true s) as [[v r]|e]; cbn in *; [lia|done].
Qed.

Lemma loads_hook_raise s e : loads_hook hook s = Raise e -> is_ValueError e = true.
Proof.
  unfold loads_hook. destruct (raise_if _ _) eqn:E; [|apply raise_if_Raise in E as [_ ->]; by intros [= <-]].
  cbn [mbind res_bind]. pose proof (parse_value_consumes (S (length (skip_ws s))) (skip_ws s) ltac:(lia)) as H.
  destruct (parse_value _ _ _) as [[v r]|e']; cbn in *; [|by intros [= <-]].
  destruct (skip_ws r); [done|]. by intros [= <-].
Qed.
End Termination.

(** [json.loads] of any text ends with a value or a [ValueError]. *)
Lemma loads_raise s e : loads s = Raise e -> is_ValueError e = true.
Proof. by apply loads_hook_raise. Qed.

Lemma code_units_raise be k fuel b e :
  (0 < k)%nat -> (length b < fuel)%nat -> code_units be k fuel b = Raise e -> is_ValueError e = true.
Proof.
  intros Hk. revert b; induction fuel as [|f IH]; intros b Hf H; [lia|]. cbn [code_units] in H.
  destruct b as [|x b]; [done|]. destruct (_ <? _)%nat; [by injection H as <-|]. res_inv.
  eapply IH; [|eassumption]. rewrite length_drop. cbn in *. lia.
Qed.

Lemma decode_detected_raise b e : decode_detected b = Raise e -> is_ValueError e = true.
Proof.
  assert (forall be c, decode_utf16 be c = Raise e -> is_ValueError e = true) as H16.
  { unfold decode_utf16. intros be c H. res_inv. eapply code_units_raise; [| |eassumption]; lia. }
  assert (forall be c, decode_utf32 be c = Raise e -> is_ValueError e = true) as H32.
  { unfold decode_utf32. intros be c H. res_inv; [|case_match; by res_inv].
    eapply code_units_raise; [| |eassumption]; lia. }
  assert (forall c, utf8_decode_with true c = Raise e -> is_ValueError e = true) as H8.
  { intros c H. by apply utf8_decode_with_raise in H as ->. }
  unfold decode_detected. repeat case_match; eauto.
Qed.

(** [json.loads] of any bytes ends with a value or a [ValueError]. *)
Lemma loads_bytes_raise b e : loads_bytes b = Raise e -> is_ValueError e = true.
Proof.
  unfold loads_bytes, loads_bytes_hook. intros H. res_inv; [by eapply decode_detected_raise|].
  by eapply loads_raise.
Qed.

(* ------------------------------------------------------------------ *)
(** ** The size of a dump *)

(** An upper bound of the number of characters of [dumps_compact v]: a character
    takes at most twelve in a string. *)
Fixpoint json_bound (v : json) : Z :=
  match v with
  | JNull | JBool _ => 5
  | JInt z => 1 + zlen (digits 10 (Z.abs z))
  | JFloat f => zlen f
  | JStr s => 2 + 12 * zlen s
  | JList l => 2 + foldr (fun x acc => 1 + json_bound x + acc) 0 l
  | JDict items => 2 + foldr (fun kv acc => 4 + 12 * zlen kv.1 + json_bound kv.2 + acc) 0 items
  end.

Lemma dump_str_bound s : zlen (dump_str s) <= 2 + 12 * zlen s.
Proof.
  assert (zlen (concat (map escape_char s)) <= 12 * zlen s) as Hc.
  { induction s as [|c s IH]; [done|]. cbn [map concat]. rewrite zlen_app, zlen_cons.
    assert (zlen (escape_char c) <= 12); [|lia].
    unfold escape_char, u_escape, zlen. repeat case_match; rewrite ?length_app, ?length_hex_fixed; cbn; lia. }
  unfold dump_str. rewrite !zlen_app. change (zlen [34]) with 1. lia.
Qed.

Lemma join_with_bound sep l :
  zlen (join_with sep l) <= foldr (fun x acc => zlen sep + zlen x + acc) 0 l.
Proof.
  induction l as [|x l IH]; [done|]. cbn [foldr]. pose proof (zlen_nonneg sep).
  destruct l as [|y l]; [cbn; lia|]. rewrite join_with_cons by done. rewrite !zlen_app. lia.
Qed.

Lemma foldr_sum_perm {A} (f : A -> Z) l k :
  l ≡ₚ k -> foldr (fun x acc => f x + acc) 0 l = foldr (fun x acc => f x + acc) 0 k.
Proof. induction 1; cbn; lia. Qed.

Lemma foldr_sum_le {A} (f g : A -> Z) l :
  Forall (fun x => f x <= g x) l ->
  foldr (fun x acc => f x + acc) 0 l <= foldr (fun x acc => g x + acc) 0 l.
Proof. induction 1; cbn; lia. Qed.

Lemma foldr_sum_map {A B} (h : A -> B) (f : B -> Z) l :
  foldr (fun x acc => f x + acc) 0 (map h l) = foldr (fun x acc => f (h x) + acc) 0 l.
Proof. induction l; cbn; lia. Qed.

Lemma dumps_compact_bound v : dumpable v -> zlen (dumps_compact v) <= json_bound v.
Proof.
  unfold dumps_compact. change (str ",") with (44 :: @nil Z). change (str ":") with (58 :: @nil Z).
  induction v as [|b|z|fl|s|l IH|items IH] using json_nested_ind; intros Hv.
  - done.
  - by destruct b.
  - cbn [dumps json_bound]. unfold dump_int. destruct (Z.ltb_spec z 0).
    + rewrite zlen_cons. unfold zlen. rewrite length_map, Z.abs_neq by lia. lia.
    + unfold zlen. rewrite length_map, Z.abs_eq by lia. lia.
  - done.
  - apply dump_str_bound.
  - apply dumpable_list in Hv. cbn [dumps json_bound]. rewrite !zlen_app. change (zlen [91]) with 1. change (zlen [93]) with 1.
    pose proof (join_with_bound [44] (map (dumps [44] [58]) l)) as Hb.
    rewrite (foldr_sum_map _ (fun x => zlen [44] + zlen x)) in Hb.
    pose proof (foldr_sum_le (fun x => zlen [44] + zlen (dumps [44] [58] x)) (fun x => 1 + json_bound x) l) as Hle.
    rewrite Forall_forall in IH, Hv, Hle. change (zlen [44]) with 1 in *. cbn in Hb, Hle.
    assert (forall x, x ∈ l -> 1 + zlen (dumps [44] [58] x) <= 1 + json_bound x) as H1.
    { intros x Hx. specialize (IH x Hx (Hv x Hx)). lia. }
    specialize (Hle H1). lia.
  - apply dumpable_dict in Hv as [Hnd Hv]. rewrite dumps_dict by done. cbn [json_bound].
    rewrite !zlen_app. change (zlen [123]) with 1. change (zlen [125]) with 1.
    set (item := fun kv : pystr * json => dump_str kv.1 ++ [58] ++ dumps [44] [58] kv.2).
    pose proof (join_with_bound [44] (map item (sorted_items items))) as Hb.
    rewrite (foldr_sum_map _ (fun x => zlen [44] + zlen x)) in Hb.
    rewrite (foldr_sum_perm (fun x => zlen [44] + zlen (item x)) _ _ (sorted_items_perm items)) in Hb.
    pose proof (foldr_sum_le (fun x => zlen [44] + zlen (item x))
      (fun kv => 4 + 12 * zlen kv.1 + json_bound kv.2) items) as Hle.
    rewrite Forall_forall in IH, Hv, Hle.
    assert (forall kv, kv ∈ items -> zlen [44] + zlen (item kv) <= 4 + 12 * zlen kv.1 + json_bound kv.2) as H1.
    { intros kv Hx. specialize (IH kv Hx (proj2 (Hv kv Hx))). unfold item. rewrite !zlen_app.
      pose proof (dump_str_bound kv.1). change (zlen [44]) with 1. change (zlen [58]) with 1. lia. }
    specialize (Hle H1). lia.
Qed.

(* ------------------------------------------------------------------ *)
(** ** Dictionaries that dump alike *)

(** They have the same entries. *)
Lemma dump_entries items items' k :
  NoDup items.*1 -> NoDup items'.*1 -> sort_dicts (JDict items) = sort_dicts (JDict items') ->
  sort_dicts <$> dict_get k items = sort_dicts <$> dict_get k items'.
Proof.
  intros Hn Hn' E. destruct (sort_dicts (JDict items)) as [| | | | | |l] eqn:El; try done.
  rewrite <- (dict_get_sort_dicts items l k Hn El). by rewrite <- (dict_get_sort_dicts items' l k Hn').
Qed.

(** Read one entry of two dictionaries off an equation of their dumps. *)
Ltac entry E k :=
  let H := fresh "E" in pose proof (E (str k)) as H; cbn [app] in H;
  repeat match type of H with context [dict_get ?a ((?b, ?v) :: ?l)] =>
    first [ replace (dict_get a ((b, v) :: l)) with (Some v) in H by (cbn [dict_get]; str_decide; reflexivity)
          | replace (dict_get a ((b, v) :: l)) with (dict_get a l) in H by (cbn [dict_get]; str_decide; reflexivity) ]
  end; cbn [fmap option_fmap option_map sort_dicts] in H.

(* ------------------------------------------------------------------ *)
(** ** Printable texts *)

(** Printable ASCII. *)
Definition printable (c : Z) : Prop := 32 <= c <= 126.

Lemma printable_all s : forallb (fun c => (32 <=? c) && (c <=? 126)) s = true -> Forall printable s.
Proof.
  rewrite forallb_forall. intros Hs. apply Forall_forall. intros c Hc. apply list_elem_of_In, Hs in Hc.
  unfold printable. lia.
Qed.

Lemma escape_char_printable c : Forall printable (escape_char c).
Proof.
  assert (forall z, Forall printable (u_escape z)) as Hu.
  { intros z. unfold u_escape, hex_fixed. apply Forall_app. split; [by apply printable_all|].
    apply Forall_map. eapply Forall_impl; [apply (digits_fixed_range 16 4 z); lia|].
    intros d Hd. apply hex_char_lower in Hd. unfold is_lower_hex in Hd. unfold printable. lia. }
  unfold escape_char. repeat case_match; try (by apply printable_all); [|apply Hu|].
  - constructor; [unfold printable; lia|constructor].
  - apply Forall_app. split; apply Hu.
Qed.

Lemma dump_str_printable s : Forall printable (dump_str s).
Proof.
  unfold dump_str. constructor; [unfold printable; lia|]. apply Forall_app. split; [|by apply printable_all].
  induction s; cbn; [done|]. apply Forall_app. split; [apply escape_char_printable|done].
Qed.

Lemma dump_int_printable z : Forall printable (dump_int z).
Proof.
  assert (forall n, Forall printable (map (fun d => 48 + d) (digits 10 n))) as Hd.
  { intros n. apply Forall_map. eapply Forall_impl; [apply (digits_range 10 n); lia|]. unfold printable. intros d. cbn. lia. }
  unfold dump_int. case_match; [constructor; [unfold printable; lia|]|]; apply Hd.
Qed.

(** A value without floating-point numbers. *)
Fixpoint no_float (v : json) : bool :=
  match v with
  | JFloat _ => false
  | JList l => forallb no_float l
  | JDict items => forallb (fun kv => no_float kv.2) items
  | _ => true
  end.

Lemma dumps_printable v : no_float v = true -> Forall printable (dumps_compact v).
Proof.
  unfold dumps_compact. induction v as [|b|z|fl|s|l IH|items IH] using json_nested_ind; intros Hv.
  - by apply printable_all.
  - destruct b; by apply printable_all.
  - apply dump_int_printable.
  - done.
  - apply dump_str_printable.
  - cbn [dumps no_float] in *. rewrite forallb_forall in Hv. rewrite Forall_forall in IH.
    repeat (apply Forall_app; split); try by apply printable_all. apply join_with_Forall; [by apply printable_all|].
    apply Forall_map, Forall_forall. intros x Hx. apply IH; [done|by apply Hv, list_elem_of_In].
  - cbn [dumps no_float] in *. rewrite forallb_forall in Hv. rewrite Forall_forall in IH.
    repeat (apply Forall_app; split); try by apply printable_all. apply join_with_Forall; [by apply printable_all|].
    apply Forall_map, Forall_forall. intros kv Hkv. rewrite sorted_items_perm in Hkv.
    apply list_elem_of_fmap in Hkv as (kv'&->&Hkv'). cbn [fst snd].
    apply Forall_app; split; [apply dump_str_printable|]. apply Forall_app; split; [by apply printable_all|].
    apply IH; [done|by apply Hv, list_elem_of_In].
Qed.

Lemma dumpable_no_float v : dumpable v -> no_float v = true.
Proof.
  induction v as [|b|z|fl|s|l IH|items IH] using json_nested_ind; intros Hv; try done; cbn [no_float]; rewrite Forall_forall in IH; apply forallb_forall.
  - apply dumpable_list in Hv. rewrite Forall_forall in Hv. intros x Hx%list_elem_of_In. by apply IH, Hv.
  - apply dumpable_dict in Hv as [_ Hv]. rewrite Forall_forall in Hv. intros kv Hkv%list_elem_of_In. by apply IH, Hv.
Qed.
