(* ===== verification/JsonIndent.v ===== *)
(** [json.dumps(v, indent=2, sort_keys=True)], and that [json.loads] reads it back. *)

From S2P Require Import Prelude Utf8 PyText Json.
Open Scope Z_scope.

(** A line break and the indentation of a level. *)
Definition newline (level : nat) : pystr := 10 :: repeat 32 (2 * level).

(** [json.dumps(v, indent=2, sort_keys=True)], inside of [level] containers. *)
Fixpoint dumps_indent (level : nat) (v : json) : pystr :=
  let nl := newline (S level) in
  match v with
  | JList ((_ :: _) as l) => [91] ++ nl ++ join_with (44 :: nl) (map (dumps_indent (S level)) l) ++ newline level ++ [93]
  | JDict ((_ :: _) as items) =>
    let rendered := map (fun kv => (kv.1, dumps_indent (S level) kv.2)) items in
    [123] ++ nl ++ join_with (44 :: nl) (map (fun kv => dump_str kv.1 ++ str ": " ++ kv.2) (sorted_items rendered)) ++
      newline level ++ [125]
  | _ => dumps_compact v
  end.

Lemma newline_ws level : Forall (fun c => is_json_ws c = true) (newline level).
Proof. constructor; [done|]. apply Forall_forall. intros x Hx. apply list_elem_of_In, repeat_spec in Hx as ->. done. Qed.

Lemma ws_num_stop ws c rest :
  Forall (fun c => is_json_ws c = true) ws -> is_json_ws c = false -> num_stop (c :: rest) -> num_stop (ws ++ c :: rest).
Proof.
  destruct 1 as [|x ws Hx _]; [done|]. intros _ _. cbn. unfold is_json_ws in Hx. unfold is_digit. lia.
Qed.

(** A text that a parser of values reads. *)
Definition read_by (pv : pystr -> res (json * pystr)) (v : json) (t : pystr) : Prop :=
  starts_value t /\ forall rest, num_stop rest -> pv (t ++ rest) = Ok (v, rest).

Lemma skip_ws_starts ws t rest : Forall (fun c => is_json_ws c = true) ws -> starts_value t -> skip_ws (ws ++ t ++ rest) = t ++ rest.
Proof. intros Hws (c&r&->&Hc&_). by apply skip_ws_app. Qed.

Lemma join_starts_value sep x l : starts_value x -> starts_value (join_with sep (x :: l)).
Proof. intros Hx. destruct l; [done|]. cbn. by apply starts_value_app. Qed.

(** Elements with white space between and after them. *)
Lemma parse_elements_texts pv ws ws' vs ts :
  Forall (fun c => is_json_ws c = true) ws -> Forall (fun c => is_json_ws c = true) ws' ->
  Forall2 (read_by pv) vs ts -> vs <> [] ->
  forall fuel rest, (length ts <= fuel)%nat ->
  parse_elements pv fuel (join_with (44 :: ws) ts ++ ws' ++ 93 :: rest) = Ok (vs, rest).
Proof.
  intros Hws Hws' H. induction H as [|v t vs ts [Hst Hv] Hl IH]; [done|]. intros _ [|fuel] rest Hf; cbn in Hf; [lia|].
  cbn [parse_elements]. destruct Hl as [|v2 t2 vs ts [Hst2 Hv2] Hl].
  - cbn [join_with]. rewrite Hv by (by apply ws_num_stop). cbn [mbind res_bind].
    by rewrite skip_ws_app.
  - rewrite join_with_cons by done. rewrite <- !app_assoc. rewrite Hv by done.
    cbn [mbind res_bind app skip_ws is_json_ws Z.eqb Pos.eqb orb].
    rewrite skip_ws_starts by (done || by apply join_starts_value).
    by rewrite IH by (done || (cbn in *; lia)).
Qed.

Definition member_text (k t : pystr) : pystr := dump_str k ++ str ": " ++ t.

(** Members likewise. *)
Lemma parse_members_texts pv ws ws' ks vs ts :
  Forall (fun c => is_json_ws c = true) ws -> Forall (fun c => is_json_ws c = true) ws' ->
  Forall (Forall (fun c => is_scalar c = true)) ks -> length ks = length vs ->
  Forall2 (read_by pv) vs ts -> vs <> [] ->
  forall fuel rest, (length ts <= fuel)%nat ->
  parse_members pv fuel (join_with (44 :: ws) (zip_with member_text ks ts) ++ ws' ++ 125 :: rest) = Ok (zip ks vs, rest).
Proof.
  intros Hws Hws' Hks Hlen H. revert ks Hks Hlen. induction H as [|v t vs ts [Hst Hv] Hl IH]; [done|].
  intros [|k ks] Hks Hlen _ [|fuel] rest Hf; cbn in Hf, Hlen; try lia. apply Forall_cons in Hks as [Hk Hks].
  assert (forall tail, num_stop tail -> exists r, member_text k t ++ tail = 34 :: r /\
    scanstring (S (length r)) r = Ok (k, 58 :: 32 :: t ++ tail) /\ pv (skip_ws (t ++ tail)) = Ok (v, tail)) as Hm.
  { intros tail Htail. destruct (dump_str_scan k (58 :: 32 :: t ++ tail) Hk) as (r&E1&E2). exists r. split_and!; [|done|].
    - rewrite <- E1. unfold member_text. by rewrite <- !app_assoc.
    - rewrite starts_skip by (by apply starts_value_app). by apply Hv. }
  cbn [parse_members zip_with zip]. destruct Hl as [|v2 t2 vs ts Hv2 Hl].
  - destruct ks; [|done]. cbn [zip_with join_with].
    destruct (Hm (ws' ++ 125 :: rest)) as (r&->&E2&E3); [by apply ws_num_stop|].
    cbn [Z.eqb Pos.eqb]. rewrite E2. cbn [mbind res_bind]. cbn [skip_ws is_json_ws Z.eqb Pos.eqb orb].
    rewrite E3. cbn [mbind res_bind]. by rewrite skip_ws_app.
  - destruct ks as [|k2 ks]; [done|]. cbn [zip_with]. rewrite join_with_cons by done. rewrite <- (app_assoc (member_text k t)).
    set (J := join_with _ _). destruct (Hm (((44 :: ws) ++ J) ++ ws' ++ 125 :: rest)) as (r&->&E2&E3); [done|].
    cbn [Z.eqb Pos.eqb]. rewrite E2. cbn [mbind res_bind]. cbn [skip_ws is_json_ws Z.eqb Pos.eqb orb].
    rewrite E3. cbn [mbind res_bind app skip_ws is_json_ws Z.eqb Pos.eqb orb]. rewrite <- app_assoc.
    rewrite skip_ws_starts; [|done|apply join_starts_value, dump_str_starts].
    unfold J. rewrite (IH (k2 :: ks)) by (done || (cbn in *; lia)). done.
Qed.

Section RoundTrip.
Context (hook : list (pystr * json) -> res json).
Context (Hhook : forall pairs, NoDup pairs.*1 -> hook pairs = Ok (JDict pairs)).

Lemma texts_count sep ts : Forall starts_value ts -> (length ts <= length (join_with sep ts))%nat.
Proof. intros Hst. apply join_length_count. eapply Forall_impl; [exact Hst|apply starts_length]. Qed.

Lemma read_by_starts pv vs ts : Forall2 (read_by pv) vs ts -> Forall starts_value ts.
Proof. intros H. eapply Forall2_Forall_r; [exact H|]. apply Forall_true. by intros ? ? []. Qed.

(** A container after its opening bracket. *)
Lemma open_container ws ws' ts close rest sep :
  Forall (fun c => is_json_ws c = true) ws -> Forall starts_value ts -> ts <> [] ->
  exists c r, skip_ws (ws ++ join_with sep ts ++ ws' ++ close :: rest) = c :: r /\ c <> 93 /\ c <> 125 /\
    c :: r = join_with sep ts ++ ws' ++ close :: rest.
Proof.
  intros Hws Hst Hne. destruct Hst as [|t ts Ht Hst]; [done|].
  rewrite skip_ws_starts by (done || by apply join_starts_value).
  destruct (join_starts_value sep t ts Ht) as (c&r&E&_&H1&H2). rewrite E. exists c, (r ++ ws' ++ close :: rest).
  split_and!; done.
Qed.

Lemma parse_list_texts f ws ws' vs ts :
  Forall (fun c => is_json_ws c = true) ws -> Forall (fun c => is_json_ws c = true) ws' ->
  Forall2 (read_by (parse_value hook f)) vs ts -> vs <> [] ->
  read_by (parse_value hook (S f)) (JList vs) ([91] ++ ws ++ join_with (44 :: ws) ts ++ ws' ++ [93]).
Proof.
  intros Hws Hws' H Hne. split; [by do 2 eexists|]. intros rest Hr. rewrite <- !app_assoc. cbn [app parse_value Z.eqb Pos.eqb].
  pose proof (read_by_starts _ _ _ H) as Hst. assert (ts <> []) as Hts by (intros ->; by inversion H; subst).
  destruct (open_container ws ws' ts 93 rest (44 :: ws) Hws Hst Hts) as (c&r&->&Hc&_&E).
  destruct (Z.eqb_spec c 93); [done|]. rewrite E, parse_elements_texts with (vs := vs) by
    (done || (pose proof (texts_count (44 :: ws) ts Hst); rewrite !length_app; lia)).
  done.
Qed.

Lemma parse_dict_texts f ws ws' ks vs ts :
  Forall (fun c => is_json_ws c = true) ws -> Forall (fun c => is_json_ws c = true) ws' ->
  Forall (Forall (fun c => is_scalar c = true)) ks -> length ks = length vs -> NoDup ks ->
  Forall2 (read_by (parse_value hook f)) vs ts -> vs <> [] ->
  read_by (parse_value hook (S f)) (JDict (zip ks vs))
    ([123] ++ ws ++ join_with (44 :: ws) (zip_with member_text ks ts) ++ ws' ++ [125]).
Proof.
  intros Hws Hws' Hks Hlen Hnd H Hne. split; [by do 2 eexists|]. intros rest Hr. rewrite <- !app_assoc.
  cbn [app parse_value Z.eqb Pos.eqb]. pose proof (Forall2_length _ _ _ H) as Hl.
  assert (Forall starts_value (zip_with member_text ks ts)) as Hst
    by (apply Forall_forall; intros x Hx; apply elem_of_zip_with in Hx as (k&t&->&_); apply dump_str_starts).
  assert (zip_with member_text ks ts <> []) as Hts by (destruct ks, vs, ts; done).
  destruct (open_container ws ws' _ 125 rest (44 :: ws) Hws Hst Hts) as (c&r&->&_&Hc&E).
  destruct (Z.eqb_spec c 125); [done|]. rewrite E, parse_members_texts with (vs := vs) by
    (done || (pose proof (texts_count (44 :: ws) _ Hst) as Hcount; rewrite length_zip_with in Hcount; rewrite !length_app; lia)).
  cbn [mbind res_bind]. rewrite Hhook; [done|]. by rewrite fst_zip by lia.
Qed.

Lemma indent_list_length level l v :
  v ∈ l -> (length (dumps_indent (S level) v) < length (dumps_indent level (JList l)))%nat.
Proof.
  intros Hv. destruct l as [|x l]; [by apply not_elem_of_nil in Hv|]. cbn [dumps_indent]. rewrite !length_app. cbn [length].
  pose proof (join_length_le (44 :: newline (S level)) (dumps_indent (S level) v) (map (dumps_indent (S level)) (x :: l))
    ltac:(by apply list_elem_of_fmap_2)). lia.
Qed.

Lemma members_zip level (L : list (pystr * json)) :
  map (fun kv => dump_str kv.1 ++ str ": " ++ kv.2) (map (fun kv => (kv.1, dumps_indent level kv.2)) L)
    = zip_with member_text L.*1 (map (fun kv => dumps_indent level kv.2) L).
Proof. induction L as [|x L IH]; [done|]. cbn [map fmap list_fmap zip_with]. by rewrite IH. Qed.

Lemma indent_dict level items :
  NoDup items.*1 -> items <> [] ->
  dumps_indent level (JDict items) =
    [123] ++ newline (S level) ++
    join_with (44 :: newline (S level))
      (zip_with member_text (sorted_items items).*1 (map (fun kv => dumps_indent (S level) kv.2) (sorted_items items))) ++
    newline level ++ [125].
Proof.
  intros Hnd Hne. destruct items as [|kv items]; [done|]. cbn [dumps_indent]. rewrite (sorted_items_map (dumps_indent (S level))) by done.
  by rewrite members_zip.
Qed.

Lemma indent_dict_length level items kv :
  NoDup items.*1 -> kv ∈ items -> (length (dumps_indent (S level) kv.2) < length (dumps_indent level (JDict items)))%nat.
Proof.
  intros Hnd Hv. rewrite indent_dict by (done || by intros ->; apply not_elem_of_nil in Hv). rewrite !length_app. cbn [length].
  rewrite <- (sorted_items_perm items) in Hv.
  assert (member_text kv.1 (dumps_indent (S level) kv.2) ∈
    zip_with member_text (sorted_items items).*1 (map (fun kv => dumps_indent (S level) kv.2) (sorted_items items))) as Hin.
  { clear -Hv. induction Hv as [x l|x y l _ IH]; cbn; [by left|by right]. }
  pose proof (join_length_le (44 :: newline (S level)) _ _ Hin) as Hj.
  assert (length (dumps_indent (S level) kv.2) <= length (member_text kv.1 (dumps_indent (S level) kv.2)))%nat
    by (unfold member_text; rewrite !length_app; lia). lia.
Qed.

(** The parser reads an indented value back, keys sorted. *)
Lemma parse_value_indent v :
  dumpable v -> forall level f, (length (dumps_indent level v) < f)%nat ->
  read_by (parse_value hook f) (sort_dicts v) (dumps_indent level v).
Proof.
  assert (forall v level f, dumpable v -> dumps_indent level v = dumps_compact v -> (length (dumps_compact v) < f)%nat ->
    read_by (parse_value hook f) (sort_dicts v) (dumps_indent level v)) as Hflat.
  { intros x level f Hx -> Hf. split; [by apply (dumps_starts [] [])|]. by apply (parse_value_dump [] []). }
  induction v as [|b|z|fl|s|l IH|items IH] using json_nested_ind; intros Hv level f Hf; try by apply Hflat.
  - destruct (decide (l = [])) as [->|Hne]; [by apply Hflat|]. apply dumpable_list in Hv. destruct f as [|f]; [lia|].
    assert (Forall2 (read_by (parse_value hook f)) (map sort_dicts l) (map (dumps_indent (S level)) l)) as H2.
    { apply Forall2_fmap_2, Forall_Forall2_diag. rewrite Forall_forall in IH, Hv |- *. intros x Hx. apply IH; [done|by apply Hv|].
      pose proof (indent_list_length level l x Hx). lia. }
    pose proof (parse_list_texts f _ _ _ _ (newline_ws (S level)) (newline_ws level) H2) as Hp.
    destruct l; [done|]. apply Hp. done.
  - destruct (decide (items = [])) as [->|Hne]; [by apply Hflat|]. apply dumpable_dict in Hv as [Hnd Hv]. destruct f as [|f]; [lia|].
    assert (Forall2 (read_by (parse_value hook f)) (map (fun kv => sort_dicts kv.2) (sorted_items items))
      (map (fun kv => dumps_indent (S level) kv.2) (sorted_items items))) as H2.
    { apply Forall2_fmap_2, Forall_Forall2_diag. rewrite Forall_forall in IH, Hv |- *. intros kv Hx. rewrite sorted_items_perm in Hx.
      apply IH; [done|by apply Hv|]. pose proof (indent_dict_length level items kv Hnd Hx). lia. }
    rewrite indent_dict, sort_dicts_dict by done.
    replace (map (fun kv => (kv.1, sort_dicts kv.2)) (sorted_items items))
      with (zip (sorted_items items).*1 (map (fun kv => sort_dicts kv.2) (sorted_items items))).
    2: { generalize (sorted_items items). intros L. induction L as [|x L IHL]; [done|]. cbn. by rewrite IHL. }
    apply parse_dict_texts; [apply newline_ws|apply newline_ws| |by rewrite length_fmap, length_map|by rewrite sorted_items_perm|done|].
    + rewrite <- (sorted_items_perm items) in Hv. apply Forall_fmap. eapply Forall_impl; [exact Hv|]. by intros ? [].
    + intros E. apply map_eq_nil, sorted_items_nil in E. done.
Qed.
End RoundTrip.

(** The text is ASCII. *)
Lemma dumps_indent_ascii v : dumpable v -> forall level, Forall (fun x => 0 <= x < 128) (dumps_indent level v).
Proof.
  assert (forall level, Forall (fun x => 0 <= x < 128) (newline level)) as Hnl by (intros; apply ws_ascii, newline_ws).
  assert (forall level, Forall (fun x => 0 <= x < 128) (44 :: newline level)) as Hsep by (intros; constructor; [lia|apply Hnl]).
  induction v as [|b|z|fl|s|l IH|items IH] using json_nested_ind; intros Hv level; try by apply dumps_compact_ascii.
  - destruct (decide (l = [])) as [->|Hne]; [by apply dumps_compact_ascii|]. apply dumpable_list in Hv.
    assert (Forall (Forall (fun x => 0 <= x < 128)) (map (dumps_indent (S level)) l)) as Hl.
    { apply Forall_map. rewrite Forall_forall in IH, Hv |- *. intros x Hx. by apply IH, Hv. }
    destruct l as [|x l]; [done|]. cbn [dumps_indent]. apply Forall_app; split; [by repeat constructor|].
    apply Forall_app; split; [apply Hnl|]. apply Forall_app; split; [by apply join_with_Forall|].
    apply Forall_app; split; [apply Hnl|by repeat constructor].
  - destruct (decide (items = [])) as [->|Hne]; [by apply dumps_compact_ascii|]. apply dumpable_dict in Hv as [Hnd Hv].
    rewrite indent_dict by done. apply Forall_app; split; [by repeat constructor|]. apply Forall_app; split; [apply Hnl|].
    apply Forall_app; split; [|apply Forall_app; split; [apply Hnl|by repeat constructor]].
    apply join_with_Forall; [done|]. apply Forall_forall. intros x Hx. apply elem_of_zip_with in Hx as (k&t&->&_&Ht).
    apply list_elem_of_fmap in Ht as (kv&->&Hkv). rewrite sorted_items_perm in Hkv. rewrite Forall_forall in IH, Hv.
    unfold member_text. apply Forall_app; split; [apply dump_str_ascii|]. apply Forall_app; split; [by repeat constructor|].
    by apply IH, Hv.
Qed.

(** White space may follow the text. *)
Lemma loads_dumps_indent v ws :
  dumpable v -> Forall (fun c => is_json_ws c = true) ws -> loads (dumps_indent 0 v ++ ws) = Ok (sort_dicts v).
Proof.
  intros Hv Hws. unfold loads, loads_hook.
  destruct (parse_value_indent dict_hook dict_hook_NoDup v Hv 0 (S (length (dumps_indent 0 v ++ ws)))) as [Hs Hp];
    [rewrite length_app; lia|].
  rewrite (starts_skip (dumps_indent 0 v ++ ws)) by by apply starts_value_app.
  rewrite Hp. 2: { destruct Hws as [|c ws Hc _]; cbn; [done|]. unfold is_json_ws in Hc. unfold is_digit. lia. }
  pose proof (dumps_indent_ascii v Hv 0) as Ha. destruct Hs as (c&t&E&_). rewrite E in *. apply Forall_inv in Ha. cbn [app].
  replace (c =? 0xFEFF) with false by lia. cbn. by rewrite <- (app_nil_r ws), skip_ws_app.
Qed.
