(* ===== verification/Base64.v ===== *)
(** [base64.b64encode(b).decode("ascii")] and [base64.b64decode(s, validate=True)]
    (strict mode: whole quads of alphabet characters, padding only at the end). *)

From S2P Require Import Prelude.
Open Scope Z_scope.

(** The alphabet character of a six-bit value. *)
Definition b64_char (v : Z) : Z :=
  if v <? 26 then 65 + v
  else if v <? 52 then 71 + v
  else if v <? 62 then v - 4
  else if v =? 62 then 43 else 47.

(** The six-bit value of an alphabet character. *)
Definition b64_value (c : Z) : option Z :=
  if (65 <=? c) && (c <=? 90) then Some (c - 65)
  else if (97 <=? c) && (c <=? 122) then Some (c - 71)
  else if (48 <=? c) && (c <=? 57) then Some (c + 4)
  else if c =? 43 then Some 62
  else if c =? 47 then Some 63
  else None.

Definition pad : Z := 61.

(** [base64.b64encode(b).decode("ascii")]. *)
Fixpoint b64encode (b : bytes) : pystr :=
  match b with
  | [] => []
  | [x] =>
    let n := byte_val x * 16 in
    [b64_char (n / 64); b64_char (n mod 64); pad; pad]
  | [x; y] =>
    let n := (byte_val x * 256 + byte_val y) * 4 in
    [b64_char (n / 4096); b64_char (n / 64 mod 64); b64_char (n mod 64); pad]
  | x :: y :: z :: b' =>
    let n := byte_val x * 65536 + byte_val y * 256 + byte_val z in
    b64_char (n / 262144) :: b64_char (n / 4096 mod 64) :: b64_char (n / 64 mod 64)
      :: b64_char (n mod 64) :: b64encode b'
  end.

(** [base64.b64decode(s, validate=True)]; [binascii.Error] is a [ValueError]. *)
Fixpoint b64decode (s : pystr) : res bytes :=
  match s with
  | [] => Ok []
  | a :: b :: c :: d :: s' =>
    match b64_value a, b64_value b with
    | Some va, Some vb =>
      if d =? pad then
        match s' with
        | [] =>
          if c =? pad then Ok [to_byte ((va * 64 + vb) / 16)]
          else match b64_value c with
          | Some vc => let n := (va * 4096 + vb * 64 + vc) / 4 in Ok [to_byte (n / 256); to_byte n]
          | None => Raise (ValueError "Only base64 data is allowed")
          end
        | _ => Raise (ValueError "Excess data after padding")
        end
      else match b64_value c, b64_value d with
      | Some vc, Some vd =>
        let n := va * 262144 + vb * 4096 + vc * 64 + vd in
        r ← b64decode s'; Ok (to_byte (n / 65536) :: to_byte (n / 256) :: to_byte n :: r)
      | _, _ => Raise (ValueError "Only base64 data is allowed")
      end
    | _, _ => Raise (ValueError "Only base64 data is allowed")
    end
  | _ => Raise (ValueError "Incorrect padding")
  end.

(* ------------------------------------------------------------------ *)

Lemma b64_value_char v : 0 <= v < 64 -> b64_value (b64_char v) = Some v /\ b64_char v <> pad.
Proof.
  intros Hv. unfold b64_char, b64_value, pad.
  destruct (Z.ltb_spec v 26); [|destruct (Z.ltb_spec v 52); [|destruct (Z.ltb_spec v 62);
    [|destruct (Z.eqb_spec v 62)]]]; split; try lia;
    repeat match goal with |- context [if ?c then _ else _] =>
      let E := fresh in destruct c eqn:E; [try (f_equal; lia); exfalso; lia|] end;
    try (exfalso; lia).
Qed.

Lemma b64decode_raise s e : b64decode s = Raise e -> exists m, e = ValueError m.
Proof.
  remember (length s) as n eqn:Hn. revert s Hn; induction (lt_wf n) as [n _ IH]; intros s Hn H.
  destruct s as [|a [|b [|c [|d s]]]]; cbn [b64decode] in H; try (injection H as <-; by eexists); [done|].
  repeat case_match; res_inv; try (by eexists); try done.
  eapply (IH (length s)); [cbn; lia|done..].
Qed.

Lemma to_byte_eq z b : 0 <= z -> z mod 256 = byte_val b -> to_byte z = b.
Proof. intros Hz H. apply byte_val_inj. by rewrite byte_val_to_byte. Qed.

(** Strict decoding inverts encoding. *)
Lemma b64decode_encode b : b64decode (b64encode b) = Ok b.
Proof.
  remember (length b) as n eqn:Hn. revert b Hn; induction (lt_wf n) as [n _ IH]; intros b Hn.
  destruct b as [|x [|y [|z b]]]; [done|..]; cbn [b64encode b64decode].
  - pose proof (byte_val_range x). set (m := byte_val x * 16).
    pose proof (Z.div_mod m 64 ltac:(lia)). pose proof (Z.mod_pos_bound m 64 ltac:(lia)).
    destruct (b64_value_char (m / 64) ltac:(lia)) as [-> _].
    destruct (b64_value_char (m mod 64) ltac:(lia)) as [-> _].
    rewrite Z.eqb_refl. do 2 f_equal. replace (_ * 64 + _) with m by lia.
    unfold m. rewrite Z.div_mul by lia. apply to_byte_val.
  - pose proof (byte_val_range x). pose proof (byte_val_range y).
    set (k := byte_val x * 256 + byte_val y). set (m := k * 4).
    pose proof (Z.div_mod m 64 ltac:(lia)). pose proof (Z.mod_pos_bound m 64 ltac:(lia)).
    assert (m / 4096 = m / 64 / 64) as -> by (by rewrite Z.div_div by lia).
    pose proof (Z.div_mod (m / 64) 64 ltac:(lia)). pose proof (Z.mod_pos_bound (m / 64) 64 ltac:(lia)).
    destruct (b64_value_char (m / 64 / 64) ltac:(lia)) as [-> _].
    destruct (b64_value_char (m / 64 mod 64) ltac:(lia)) as [-> _].
    destruct (b64_value_char (m mod 64) ltac:(lia)) as [-> Hp].
    rewrite Z.eqb_refl. destruct (Z.eqb_spec (b64_char (m mod 64)) pad); [done|].
    replace (_ * 4096 + _ * 64 + _) with m by lia. unfold m. rewrite Z.div_mul by lia.
    pose proof (Z.div_mod k 256 ltac:(lia)). pose proof (Z.mod_pos_bound k 256 ltac:(lia)).
    repeat f_equal; apply to_byte_eq; try lia. rewrite Z.mod_small; lia.
  - pose proof (byte_val_range x). pose proof (byte_val_range y). pose proof (byte_val_range z).
    set (m := byte_val x * 65536 + byte_val y * 256 + byte_val z).
    assert (m / 4096 = m / 64 / 64) as -> by (by rewrite Z.div_div by lia).
    assert (m / 262144 = m / 64 / 64 / 64) as -> by (by rewrite !Z.div_div by lia).
    pose proof (Z.div_mod m 64 ltac:(lia)). pose proof (Z.mod_pos_bound m 64 ltac:(lia)).
    pose proof (Z.div_mod (m / 64) 64 ltac:(lia)). pose proof (Z.mod_pos_bound (m / 64) 64 ltac:(lia)).
    pose proof (Z.div_mod (m / 64 / 64) 64 ltac:(lia)).
    pose proof (Z.mod_pos_bound (m / 64 / 64) 64 ltac:(lia)).
    destruct (b64_value_char (m / 64 / 64 / 64) ltac:(lia)) as [-> _].
    destruct (b64_value_char (m / 64 / 64 mod 64) ltac:(lia)) as [-> _].
    destruct (b64_value_char (m / 64 mod 64) ltac:(lia)) as [-> _].
    destruct (b64_value_char (m mod 64) ltac:(lia)) as [-> Hp].
    destruct (Z.eqb_spec (b64_char (m mod 64)) pad); [done|].
    replace (_ * 262144 + _ * 4096 + _ * 64 + _) with m by lia.
    rewrite (IH (length b) ltac:(cbn in Hn; lia) b ltac:(done)). cbn [mbind res_bind].
    assert (m / 65536 = m / 256 / 256) as -> by (by rewrite Z.div_div by lia).
    pose proof (Z.div_mod m 256 ltac:(lia)). pose proof (Z.mod_pos_bound m 256 ltac:(lia)).
    pose proof (Z.div_mod (m / 256) 256 ltac:(lia)). pose proof (Z.mod_pos_bound (m / 256) 256 ltac:(lia)).
    repeat f_equal; apply to_byte_eq; try lia. rewrite Z.mod_small; lia.
Qed.

(** The encoding is ASCII text. *)
Lemma b64_char_ascii v : 0 <= v < 64 -> 0 <= b64_char v < 128.
Proof. unfold b64_char. repeat case_match; lia. Qed.

Lemma b64encode_ascii b : Forall (fun c => 0 <= c < 128) (b64encode b).
Proof.
  remember (length b) as n eqn:Hn. revert b Hn; induction (lt_wf n) as [n _ IH]; intros b Hn.
  destruct b as [|x [|y [|z b]]]; [done|..]; cbn [b64encode];
    pose proof (byte_val_range x); try pose proof (byte_val_range y); try pose proof (byte_val_range z);
    repeat (apply Forall_cons; split; [first [apply b64_char_ascii | unfold pad; lia];
      Z.div_mod_to_equations; lia|]); [constructor..|].
  apply (IH (length b)); cbn in Hn; [lia|done].
Qed.

Lemma b64encode_length b : zlen (b64encode b) <= 2 * zlen b + 4.
Proof.
  remember (length b) as n eqn:Hn. revert b Hn; induction (lt_wf n) as [n _ IH]; intros b Hn.
  destruct b as [|x [|y [|z b]]]; cbn [b64encode]; rewrite ?zlen_cons; change (zlen []) with 0; try lia.
  pose proof (IH (length b) ltac:(cbn in Hn; lia) b eq_refl). rewrite ?zlen_app, ?zlen_cons. unfold zlen in *. cbn [length] in *. lia.
Qed.
