(* ===== verification/Sha256.v ===== *)
(** [hashlib.sha256]: FIPS 180-4 on 32-bit words kept as [Z] with explicit
    wrap-around.  The key store's commitments, the master key and certificate
    fingerprints are its digests. *)

From S2P Require Import Prelude PyText Uuid.
Open Scope Z_scope.

Definition w32 (z : Z) : Z := Z.land z 0xffffffff.
Definition rotr (n x : Z) : Z := Z.lor (Z.shiftr x n) (w32 (Z.shiftl x (32 - n))).

Definition Ch (x y z : Z) : Z := Z.lxor (Z.land x y) (Z.land (Z.lxor x 0xffffffff) z).
Definition Maj (x y z : Z) : Z := Z.lxor (Z.lxor (Z.land x y) (Z.land x z)) (Z.land y z).
Definition Sigma0 (x : Z) : Z := Z.lxor (Z.lxor (rotr 2 x) (rotr 13 x)) (rotr 22 x).
Definition Sigma1 (x : Z) : Z := Z.lxor (Z.lxor (rotr 6 x) (rotr 11 x)) (rotr 25 x).
Definition sigma0 (x : Z) : Z := Z.lxor (Z.lxor (rotr 7 x) (rotr 18 x)) (Z.shiftr x 3).
Definition sigma1 (x : Z) : Z := Z.lxor (Z.lxor (rotr 17 x) (rotr 19 x)) (Z.shiftr x 10).

(** The constants are the first 32 bits of the fractional parts of the cube roots of the
    first 64 primes and of the square roots of the first eight. *)
Definition is_prime (n : nat) : bool :=
  forallb (fun d => negb (Nat.eqb (Nat.modulo n d) 0)) (seq 2 (n - 2)).
Definition primes : list Z := map Z.of_nat (List.filter is_prime (seq 2 310)).

(** The largest [r < 2 ^ bits] with [r ^ 3 <= z], bit by bit. *)
Fixpoint cube_root (bits : nat) (z r : Z) : Z :=
  match bits with
  | O => r
  | S b =>
    let r' := r + 2 ^ Z.of_nat b in
    cube_root b z (if r' * r' * r' <=? z then r' else r)
  end.

Definition K256 : list Z :=
  Eval vm_compute in map (fun p => w32 (cube_root 36 (p * 2 ^ 96) 0)) primes.

Definition H256 : list Z :=
  Eval vm_compute in map (fun p => w32 (Z.sqrt (p * 2 ^ 64))) (take 8 primes).

(** Message padding to a multiple of 64 bytes. *)
Definition sha_pad (b : bytes) : bytes :=
  b ++ [x80] ++ zeros ((55 - zlen b) mod 64) ++ to_bytes_big 8 (8 * zlen b).

Fixpoint chunks {A} (n fuel : nat) (l : list A) : list (list A) :=
  match fuel with
  | O => []
  | S f => match l with [] => [] | _ => take n l :: chunks n f (drop n l) end
  end.

(** The message schedule, latest word first. *)
Fixpoint extend (n : nat) (ws : list Z) : list Z :=
  match n with
  | O => ws
  | S n' =>
    let at_ i := nth i ws 0 in
    extend n' (w32 (sigma1 (at_ 1%nat) + at_ 6%nat + sigma0 (at_ 14%nat) + at_ 15%nat) :: ws)
  end.

Definition sha_round (s : list Z) (kw : Z * Z) : list Z :=
  match s with
  | [a; b; c; d; e; f; g; h] =>
    let t1 := h + Sigma1 e + Ch e f g + kw.1 + kw.2 in
    let t2 := Sigma0 a + Maj a b c in
    [w32 (t1 + t2); a; b; c; w32 (d + t1); e; f; g]
  | _ => s
  end.

Definition sha_block (h : list Z) (block : bytes) : list Z :=
  let ws := map from_bytes_big (chunks 4 16 block) in
  let schedule := rev (extend 48 (rev ws)) in
  zip_with (fun x y => w32 (x + y)) h (fold_left sha_round (zip K256 schedule) h).

(** [hashlib.sha256(b).digest()]. *)
Definition sha256 (b : bytes) : bytes :=
  let padded := sha_pad b in
  concat (map (to_bytes_big 4) (fold_left sha_block (chunks 64 (length padded) padded) H256)).
Arguments sha256 : simpl never.

(** [b.hex()]. *)
Definition bytes_hex (b : bytes) : pystr := concat (map (fun x => hex_fixed 2 (byte_val x)) b).

(** [hashlib.sha256(b).hexdigest()]. *)
Definition sha256_hex (b : bytes) : pystr := bytes_hex (sha256 b).

(* ------------------------------------------------------------------ *)
(** Published test vectors. *)

Example sha256_empty :
  sha256_hex [] = str "e3b0c44298fc1c149afbf4c8996fb92427ae41e4649b934ca495991b7852b855".
Proof. vm_compute. reflexivity. Qed.

Example sha256_abc :
  sha256_hex (map to_byte (str "abc"))
  = str "ba7816bf8f01cfea414140de5dae2223b00361a396177a9cb410ff61f20015ad".
Proof. vm_compute. reflexivity. Qed.

Example sha256_two_blocks :
  sha256_hex (map to_byte (str "abcdbcdecdefdefgefghfghighijhijkijkljklmklmnlmnomnopnopq"))
  = str "248d6a61d20638b8e5c026930c3e6039a33ce45964ff2167f6ecedd419db06c1".
Proof. vm_compute. reflexivity. Qed.

Lemma length_zip_with_h (f : Z -> Z -> Z) (h k : list Z) :
  length h = length k -> length (zip_with f h k) = length h.
Proof. revert k; induction h; intros [|]; cbn; try done. intros [=]. f_equal. by apply IHh. Qed.

Lemma sha_round_length l h : length h = 8%nat -> length (fold_left sha_round l h) = 8%nat.
Proof.
  revert h; induction l as [|kw l IH]; intros h Hh; [done|]. cbn. apply IH.
  by destruct h as [|? [|? [|? [|? [|? [|? [|? [|? [|]]]]]]]]].
Qed.

Lemma sha_blocks_length bs h : length h = 8%nat -> length (fold_left sha_block bs h) = 8%nat.
Proof.
  revert h; induction bs as [|b bs IH]; intros h Hh; [done|]. cbn. apply IH.
  unfold sha_block. rewrite length_zip_with_h; [done|]. by rewrite sha_round_length.
Qed.

(** A digest is 32 bytes, its hexadecimal form 64 characters. *)
Lemma sha256_length b : length (sha256 b) = 32%nat.
Proof.
  unfold sha256. pose proof (sha_blocks_length (chunks 64 (length (sha_pad b)) (sha_pad b)) H256 eq_refl) as H.
  destruct (fold_left _ _ _) as [|? [|? [|? [|? [|? [|? [|? [|? [|]]]]]]]]]; try done.
Qed.

Lemma bytes_hex_length b : length (bytes_hex b) = (2 * length b)%nat.
Proof.
  unfold bytes_hex. induction b as [|x b IH]; [done|]. cbn [map concat length].
  rewrite length_app, length_hex_fixed, IH. lia.
Qed.

Lemma sha256_hex_length b : length (sha256_hex b) = 64%nat.
Proof. unfold sha256_hex. by rewrite bytes_hex_length, sha256_length. Qed.

Lemma bytes_hex_lower b : Forall (fun c => is_lower_hex c = true) (bytes_hex b).
Proof.
  unfold bytes_hex. induction b; cbn [map concat]; [done|].
  apply Forall_app. split; [apply hex_fixed_lower|done].
Qed.

(** SHA-256 tells two given messages apart.  No function with outputs of a fixed length does
    so for all messages; theorems assume it of the messages that the program hashes. *)
Definition collision_free (x y : bytes) : Prop := sha256_hex x = sha256_hex y -> x = y.
