(* ===== verification/Ttlv.v ===== *)
(** The bounded KMIP TTLV codec: [atlaso/app/kmip/ttlv.py].

    [Ttlv] and its value union are the source's dataclass; [encode]/[decode]
    and their helpers follow the functions of the same name.  The recursion of
    [_decode_one] carries the source's [depth] and node counter explicitly; its
    fuel is proved sufficient ([decode_fuel_enough]). *)

From S2P Require Import Prelude Utf8.
Open Scope Z_scope.

Definition MAX_MESSAGE_BYTES : Z := 1048576.
Definition MAX_NESTING_DEPTH : Z := 16.
Definition MAX_NODE_COUNT : Z := 4096.

(** [class TtlvType(IntEnum)]. *)
Inductive TtlvType : Type :=
| STRUCTURE | INTEGER | LONG_INTEGER | BIG_INTEGER | ENUMERATION
| BOOLEAN | TEXT_STRING | BYTE_STRING | DATE_TIME | INTERVAL.

#[global] Instance TtlvType_eq_dec : EqDecision TtlvType.
Proof. solve_decision. Defined.

(** [int(t)]. *)
Definition type_code (t : TtlvType) : Z :=
  match t with
  | STRUCTURE => 1 | INTEGER => 2 | LONG_INTEGER => 3 | BIG_INTEGER => 4
  | ENUMERATION => 5 | BOOLEAN => 6 | TEXT_STRING => 7 | BYTE_STRING => 8
  | DATE_TIME => 9 | INTERVAL => 10
  end.

(** [TtlvType(code)], [None] where the constructor raises [ValueError]. *)
Definition type_of_code (c : Z) : option TtlvType :=
  match c with
  | 1 => Some STRUCTURE | 2 => Some INTEGER | 3 => Some LONG_INTEGER
  | 4 => Some BIG_INTEGER | 5 => Some ENUMERATION | 6 => Some BOOLEAN
  | 7 => Some TEXT_STRING | 8 => Some BYTE_STRING | 9 => Some DATE_TIME
  | 10 => Some INTERVAL | _ => None
  end.

(** [class Ttlv]: a tag, a type and a value that is a tuple of nodes, an [int],
    a [bool], a [str] or [bytes]. *)
Inductive Ttlv : Type := MkTtlv (tag : Z) (type : TtlvType) (value : TtlvValue)
with TtlvValue : Type :=
| VTuple (children : list Ttlv)
| VInt (z : Z)
| VBool (b : bool)
| VStr (s : pystr)
| VBytes (b : bytes).

Definition tag (n : Ttlv) : Z := let '(MkTtlv t _ _) := n in t.
Definition type (n : Ttlv) : TtlvType := let '(MkTtlv _ t _) := n in t.
Definition value (n : Ttlv) : TtlvValue := let '(MkTtlv _ _ v) := n in v.

(** Lower-case hexadecimal digits of a nonnegative number, least first. *)
Fixpoint hex_digits_rev (fuel : nat) (z : Z) : list ascii :=
  match fuel with
  | O => []
  | S f =>
    let d := z mod 16 in
    let c := ascii_of_N (Z.to_N (if d <? 10 then 48 + d else 87 + d)) in
    c :: (if z / 16 =? 0 then [] else hex_digits_rev f (z / 16))
  end.

(** [f"{z:#08x}"]: zero-padded to eight characters, the prefix included. *)
Definition format_08x (z : Z) : string :=
  let digits := rev (hex_digits_rev (S (Z.to_nat (Z.log2 (Z.abs z)))) (Z.abs z)) in
  let sign := if z <? 0 then ["-"%char] else [] in
  let pad := replicate (8 - (2 + length sign + length digits)) "0"%char in
  string_of_list_ascii (sign ++ ["0"; "x"]%char ++ pad ++ digits).

(** [Ttlv.children]. *)
Definition children (n : Ttlv) (t : option Z) : res (list Ttlv) :=
  if decide (type n = STRUCTURE) then
    match value n with
    | VTuple l =>
      Ok (match t with None => l | Some t => filter (fun c => tag c = t) l end)
    | _ => Raise TypeError
    end
  else Raise (TtlvError "TTLV node is not a structure.").

(** [Ttlv.child]. *)
Definition child (n : Ttlv) (t : Z) (required : bool) : res (option Ttlv) :=
  matches ← children n (Some t);
  match matches with
  | _ :: _ :: _ =>
    Raise (TtlvError ("TTLV tag " ++ format_08x t ++ " must not be duplicated."))
  | [] =>
    if required then Raise (TtlvError ("TTLV tag " ++ format_08x t ++ " is required."))
    else Ok None
  | [m] => Ok (Some m)
  end.

(** The node constructors of the module. *)
Definition structure (t : Z) (cs : list Ttlv) : Ttlv := MkTtlv t STRUCTURE (VTuple cs).
Definition integer (t v : Z) : Ttlv := MkTtlv t INTEGER (VInt v).
Definition enumeration (t v : Z) : Ttlv := MkTtlv t ENUMERATION (VInt v).
Definition boolean (t : Z) (v : bool) : Ttlv := MkTtlv t BOOLEAN (VBool v).
Definition text_string (t : Z) (v : pystr) : Ttlv := MkTtlv t TEXT_STRING (VStr v).
Definition byte_string (t : Z) (v : bytes) : Ttlv := MkTtlv t BYTE_STRING (VBytes v).
Definition date_time (t v : Z) : Ttlv := MkTtlv t DATE_TIME (VInt v).

(** Zero bytes that pad a value of [len] bytes to a multiple of eight. *)
Definition padding_length (len : Z) : Z := (8 - len mod 8) mod 8.

(** The branches of [_encoded_value], given the encoding of the child nodes. *)
Definition encoded_value_with (enc_children : list Ttlv -> res bytes)
    (t : TtlvType) (v : TtlvValue) : res bytes :=
  match t with
  | STRUCTURE =>
    match v with
    | VTuple cs => enc_children cs
    | _ => Raise (TtlvError "TTLV structure value is invalid.")
    end
  | INTEGER | ENUMERATION | INTERVAL =>
    match v with
    | VInt z => pack_signed 4 z
    | _ => Raise (TtlvError "TTLV 32-bit value is invalid.")
    end
  | LONG_INTEGER | DATE_TIME =>
    match v with
    | VInt z => pack_signed 8 z
    | _ => Raise (TtlvError "TTLV 64-bit value is invalid.")
    end
  | BOOLEAN =>
    match v with
    | VBool b => pack_signed 8 (if b then 1 else 0)
    | _ => Raise (TtlvError "TTLV boolean value is invalid.")
    end
  | TEXT_STRING =>
    match v with
    | VStr s => utf8_encode s
    | _ => Raise (TtlvError "TTLV text value is invalid.")
    end
  | BYTE_STRING | BIG_INTEGER =>
    match v with
    | VBytes b => Ok b
    | _ => Raise (TtlvError "TTLV byte value is invalid.")
    end
  end.

Definition tag_out_of_range (t : Z) : bool := (t <? 0x420000) || (0x42FFFF <? t).

(** Header, value and padding of an encoded node. *)
Definition frame (t : Z) (ty : TtlvType) (v : bytes) : bytes :=
  to_bytes_big 3 t ++ [to_byte (type_code ty)] ++ to_bytes_big 4 (zlen v)
    ++ v ++ zeros (padding_length (zlen v)).

(** [encode]. *)
Fixpoint encode (n : Ttlv) : res bytes :=
  let '(MkTtlv t ty v) := n in
  _ ← raise_if (tag_out_of_range t) (TtlvError "Only standard KMIP tags are supported.");
  v' ← encoded_value_with
         (fix go cs := match cs with
                       | [] => Ok []
                       | c :: cs' => b ← encode c; r ← go cs'; Ok (b ++ r)
                       end) ty v;
  _ ← raise_if (MAX_MESSAGE_BYTES <? zlen v') (TtlvError "TTLV value exceeds the maximum size.");
  Ok (frame t ty v').

(** [b"".join(encode(item) for item in children)]. *)
Fixpoint encode_list (cs : list Ttlv) : res bytes :=
  match cs with
  | [] => Ok []
  | c :: cs' => b ← encode c; r ← encode_list cs'; Ok (b ++ r)
  end.

(** [_encoded_value]. *)
Definition _encoded_value (n : Ttlv) : res bytes :=
  encoded_value_with encode_list (type n) (value n).

(** The leaf branches of [_decode_one]: the value of a non-structure node. *)
Definition decode_leaf (ty : TtlvType) (length : Z) (raw : bytes) : res TtlvValue :=
  match ty with
  | STRUCTURE => Raise AssertionError
  | INTEGER | ENUMERATION | INTERVAL =>
    _ ← raise_if (negb (length =? 4)) (TtlvError "TTLV 32-bit type must have length 4.");
    Ok (VInt (unpack_signed 4 raw))
  | LONG_INTEGER | DATE_TIME =>
    _ ← raise_if (negb (length =? 8)) (TtlvError "TTLV 64-bit type must have length 8.");
    Ok (VInt (unpack_signed 8 raw))
  | BOOLEAN =>
    _ ← raise_if (negb (length =? 8)) (TtlvError "TTLV boolean must have length 8.");
    let numeric := unpack_signed 8 raw in
    _ ← raise_if (negb ((numeric =? 0) || (numeric =? 1)))
          (TtlvError "TTLV boolean must be zero or one.");
    Ok (VBool (numeric =? 1))
  | TEXT_STRING =>
    VStr <$> rethrow (fun _ => true) (TtlvError "TTLV text string is not valid UTF-8.")
               (utf8_decode raw)
  | BYTE_STRING | BIG_INTEGER => Ok (VBytes raw)
  end.

(** The [while child_offset < len(raw)] loop of [_decode_one]; [dec] decodes
    the child at an offset with the current node count. *)
Fixpoint decode_children (dec : Z -> Z -> res (Ttlv * Z * Z)) (fuel : nat)
    (raw_length child_offset nodes : Z) : res (list Ttlv * Z) :=
  if child_offset <? raw_length then
    match fuel with
    | O => Raise OutOfFuel
    | S f =>
      '(c, child_offset', nodes') ← dec child_offset nodes;
      '(cs, nodes'') ← decode_children dec f raw_length child_offset' nodes';
      Ok (c :: cs, nodes'')
    end
  else Ok ([], nodes).

(** [_decode_one]: the node at [offset], the offset after it and the updated
    [_DecodeState.nodes].  [fuel] bounds the nesting of recursive calls. *)
Fixpoint _decode_one (fuel : nat) (data : bytes) (offset depth nodes : Z)
    : res (Ttlv * Z * Z) :=
  match fuel with
  | O => Raise OutOfFuel
  | S f =>
    _ ← raise_if (MAX_NESTING_DEPTH <? depth)
          (TtlvError "TTLV nesting exceeds the maximum depth.");
    _ ← raise_if (zlen data <? offset + 8) (TtlvError "TTLV header is truncated.");
    let t := from_bytes_big (slice data offset (offset + 3)) in
    _ ← raise_if (tag_out_of_range t) (TtlvError "TTLV contains a non-standard KMIP tag.");
    match type_of_code (from_bytes_big (slice data (offset + 3) (offset + 4))) with
    | None => Raise (TtlvError "TTLV contains an unsupported type.")
    | Some ty =>
      let length := from_bytes_big (slice data (offset + 4) (offset + 8)) in
      _ ← raise_if (MAX_MESSAGE_BYTES <? length)
            (TtlvError "TTLV value exceeds the maximum size.");
      let value_start := offset + 8 in
      let value_end := value_start + length in
      let next_offset := value_start + (length + padding_length length) in
      _ ← raise_if (zlen data <? next_offset) (TtlvError "TTLV value is truncated.");
      _ ← raise_if (any_nonzero (slice data value_end next_offset))
            (TtlvError "TTLV padding must be zero.");
      let nodes := nodes + 1 in
      _ ← raise_if (MAX_NODE_COUNT <? nodes)
            (TtlvError "TTLV node count exceeds the maximum.");
      let raw := slice data value_start value_end in
      if decide (ty = STRUCTURE) then
        '(cs, nodes') ← decode_children (fun o k => _decode_one f raw o (depth + 1) k)
                          (List.length raw) (zlen raw) 0 nodes;
        Ok (MkTtlv t ty (VTuple cs), next_offset, nodes')
      else
        v ← decode_leaf ty length raw;
        Ok (MkTtlv t ty v, next_offset, nodes)
    end
  end.

(** One more call level than [MAX_NESTING_DEPTH] allows. *)
Definition decode_fuel : nat := 18.

(** The body of [decode] at a given fuel. *)
Definition decode_with (fuel : nat) (data : bytes) : res Ttlv :=
  _ ← raise_if (zlen data =? 0) (TtlvError "TTLV message is empty.");
  _ ← raise_if (MAX_MESSAGE_BYTES + 8 <? zlen data)
        (TtlvError "TTLV message exceeds the maximum size.");
  '(node, offset, _) ← _decode_one fuel data 0 0 0;
  _ ← raise_if (negb (offset =? zlen data))
        (TtlvError "TTLV message contains trailing data.");
  Ok node.

(** [decode]. *)
Definition decode (data : bytes) : res Ttlv := decode_with decode_fuel data.

(** Sorted, duplicate-free tags: [sorted({...} - allowed)]. *)
Fixpoint insert_tag (t : Z) (l : list Z) : list Z :=
  match l with
  | [] => [t]
  | u :: l' => if t <? u then t :: l else if t =? u then l else u :: insert_tag t l'
  end.

Fixpoint join (sep : string) (l : list string) : string :=
  match l with
  | [] => ""
  | [x] => x
  | x :: l' => x ++ sep ++ join sep l'
  end.

(** [assert_only_tags]. *)
Definition assert_only_tags (n : Ttlv) (allowed : list Z) : res unit :=
  cs ← children n None;
  let unexpected :=
    fold_right insert_tag [] (filter (fun t => t ∉ allowed) (tag <$> cs)) in
  match unexpected with
  | [] => Ok tt
  | _ => Raise (TtlvError ("TTLV structure contains unsupported tags: "
                             ++ join ", " (format_08x <$> unexpected) ++ "."))
  end.

(* ------------------------------------------------------------------ *)
(** ** Induction and measures on nodes *)

(** Induction on nodes with the hypothesis for every child of a structure. *)
Lemma Ttlv_nested_ind (P : Ttlv -> Prop) :
  (forall t ty cs, Forall P cs -> P (MkTtlv t ty (VTuple cs))) ->
  (forall t ty v, (forall cs, v <> VTuple cs) -> P (MkTtlv t ty v)) ->
  forall n, P n.
Proof.
  intros Htuple Hleaf. fix IH 1. intros [t ty [cs|z|b|s|b]].
  2-5: apply Hleaf; intros ? [=].
  apply Htuple. induction cs as [|c cs IHcs]; constructor; [apply IH|apply IHcs].
Qed.

(** Nesting depth below a node: 0 for a leaf and for an empty structure. *)
Fixpoint node_depth (n : Ttlv) : Z :=
  match n with
  | MkTtlv _ _ (VTuple cs) =>
    (fix go cs := match cs with [] => 0 | c :: cs' => Z.max (1 + node_depth c) (go cs') end) cs
  | _ => 0
  end.

(** Number of nodes of the tree. *)
Fixpoint node_count (n : Ttlv) : Z :=
  match n with
  | MkTtlv _ _ (VTuple cs) =>
    1 + (fix go cs := match cs with [] => 0 | c :: cs' => node_count c + go cs' end) cs
  | _ => 1
  end.

Fixpoint children_depth (cs : list Ttlv) : Z :=
  match cs with [] => 0 | c :: cs' => Z.max (1 + node_depth c) (children_depth cs') end.
Fixpoint children_count (cs : list Ttlv) : Z :=
  match cs with [] => 0 | c :: cs' => node_count c + children_count cs' end.

Lemma node_depth_tuple t ty cs : node_depth (MkTtlv t ty (VTuple cs)) = children_depth cs.
Proof. reflexivity. Qed.
Lemma node_count_tuple t ty cs : node_count (MkTtlv t ty (VTuple cs)) = 1 + children_count cs.
Proof. reflexivity. Qed.

Lemma node_depth_nonneg n : 0 <= node_depth n.
Proof.
  destruct n as [t ty [cs| | | |]]; [|cbn; lia..]. rewrite node_depth_tuple.
  induction cs; cbn; lia.
Qed.

Lemma children_count_nonneg cs : Forall (fun c => 1 <= node_count c) cs -> 0 <= children_count cs.
Proof. induction 1; cbn; lia. Qed.

Lemma node_count_pos n : 1 <= node_count n.
Proof.
  induction n as [t ty cs IH|t ty v Hv] using Ttlv_nested_ind.
  - rewrite node_count_tuple. apply children_count_nonneg in IH. lia.
  - destruct v as [cs| | | |]; [by destruct (Hv cs)|cbn; lia..].
Qed.

Lemma encode_eq t ty v :
  encode (MkTtlv t ty v) =
    (_ ← raise_if (tag_out_of_range t) (TtlvError "Only standard KMIP tags are supported.");
     v' ← encoded_value_with encode_list ty v;
     _ ← raise_if (MAX_MESSAGE_BYTES <? zlen v') (TtlvError "TTLV value exceeds the maximum size.");
     Ok (frame t ty v')).
Proof. reflexivity. Qed.

(* ------------------------------------------------------------------ *)
(** ** Frames *)

Lemma padding_length_range len : 0 <= len -> 0 <= padding_length len < 8.
Proof. intros. unfold padding_length. apply Z.mod_pos_bound. lia. Qed.

Lemma padded_mod8 len : 0 <= len -> (len + padding_length len) mod 8 = 0.
Proof.
  intros. unfold padding_length.
  rewrite Zplus_mod_idemp_r. replace (len + (8 - len mod 8)) with (len / 8 * 8 + 1 * 8).
  - by rewrite Z.mod_add, Z.mod_mul by lia.
  - pose proof (Z.div_mod len 8). lia.
Qed.

Lemma zlen_zeros n : 0 <= n -> zlen (zeros n) = n.
Proof. intros. unfold zeros. rewrite zlen_replicate. lia. Qed.

Lemma zlen_frame t ty v : zlen (frame t ty v) = 8 + (zlen v + padding_length (zlen v)).
Proof.
  unfold frame. pose proof (zlen_nonneg v). pose proof (padding_length_range (zlen v)).
  rewrite !zlen_app, zlen_zeros by lia.
  unfold zlen at 1 2 3. rewrite !length_to_bytes_big. cbn [length]. lia.
Qed.

(** A whole frame fits the message bound when its value does. *)
Lemma frame_bound (v : bytes) :
  zlen v <= MAX_MESSAGE_BYTES -> zlen v + padding_length (zlen v) <= MAX_MESSAGE_BYTES.
Proof.
  intros Hv. pose proof (zlen_nonneg v) as Hp.
  pose proof (padding_length_range (zlen v) Hp). pose proof (padded_mod8 (zlen v) Hp).
  change MAX_MESSAGE_BYTES with (131072 * 8) in *.
  pose proof (Z.div_mod (zlen v + padding_length (zlen v)) 8). lia.
Qed.

Lemma slice_mid {A} (l pre mid post : list A) a b :
  l = pre ++ mid ++ post -> a = zlen pre -> b = a + zlen mid -> slice l a b = mid.
Proof. intros -> -> ->. apply slice_app. Qed.

Lemma type_of_code_inv c ty : type_of_code c = Some ty -> type_code ty = c.
Proof.
  destruct c as [|p|p]; try done.
  do 4 (destruct p as [p|p|]; try done; cbn; try (by intros [= <-])).
Qed.

Lemma type_of_type_code ty : type_of_code (type_code ty) = Some ty.
Proof. by destruct ty. Qed.

Lemma type_code_range ty : 1 <= type_code ty <= 10.
Proof. destruct ty; cbn; lia. Qed.

(** The five parts of a frame, cut out of the data around it. *)
Lemma frame_slices pre post t ty v :
  let data := pre ++ frame t ty v ++ post in
  let o := zlen pre in
  slice data o (o + 3) = to_bytes_big 3 t /\
  slice data (o + 3) (o + 4) = [to_byte (type_code ty)] /\
  slice data (o + 4) (o + 8) = to_bytes_big 4 (zlen v) /\
  slice data (o + 8) (o + 8 + zlen v) = v /\
  slice data (o + 8 + zlen v) (o + 8 + (zlen v + padding_length (zlen v)))
    = zeros (padding_length (zlen v)).
Proof.
  intros data o. pose proof (zlen_nonneg v).
  pose proof (padding_length_range (zlen v) ltac:(lia)).
  assert (L3 : zlen (to_bytes_big 3 t) = 3) by (unfold zlen; by rewrite length_to_bytes_big).
  assert (L4 : zlen (to_bytes_big 4 (zlen v)) = 4) by (unfold zlen; by rewrite length_to_bytes_big).
  assert (L1 : zlen [to_byte (type_code ty)] = 1) by done.
  unfold o. split_and!.
  - eapply (slice_mid _ pre); [unfold data, frame; by rewrite <- !app_assoc|lia|lia].
  - eapply (slice_mid _ (pre ++ to_bytes_big 3 t));
      [unfold data, frame; by rewrite <- !app_assoc|rewrite zlen_app; lia|lia].
  - eapply (slice_mid _ (pre ++ to_bytes_big 3 t ++ [to_byte (type_code ty)]));
      [unfold data, frame; by rewrite <- !app_assoc|rewrite !zlen_app; lia|lia].
  - eapply (slice_mid _ (pre ++ to_bytes_big 3 t ++ [to_byte (type_code ty)]
                             ++ to_bytes_big 4 (zlen v)));
      [unfold data, frame; by rewrite <- !app_assoc|rewrite !zlen_app; lia|lia].
  - eapply (slice_mid _ (pre ++ to_bytes_big 3 t ++ [to_byte (type_code ty)]
                             ++ to_bytes_big 4 (zlen v) ++ v));
      [unfold data, frame; by rewrite <- !app_assoc|rewrite !zlen_app; lia
      |rewrite zlen_zeros; lia].
Qed.

(** The header fields survive their big-endian representation. *)
Lemma header_fields t ty (v : bytes) :
  tag_out_of_range t = false -> zlen v <= MAX_MESSAGE_BYTES ->
  from_bytes_big (to_bytes_big 3 t) = t /\
  from_bytes_big [to_byte (type_code ty)] = type_code ty /\
  from_bytes_big (to_bytes_big 4 (zlen v)) = zlen v.
Proof.
  intros Ht Hv. pose proof (type_code_range ty). pose proof (zlen_nonneg v).
  unfold tag_out_of_range, MAX_MESSAGE_BYTES in *.
  split_and!; [rewrite from_to_bytes_big, Z.mod_small; [done|]
              |cbn; rewrite byte_val_to_byte, Z.mod_small; [done|]
              |rewrite from_to_bytes_big, Z.mod_small; [done|]]; cbn; lia.
Qed.

(** The work [_decode_one] does once the frame has been cut out of the data. *)
Definition decode_body (f : nat) (ty : TtlvType) (v : bytes) (depth nodes : Z)
    : res (TtlvValue * Z) :=
  if decide (ty = STRUCTURE) then
    '(cs, nodes') ← decode_children (fun o k => _decode_one f v o (depth + 1) k)
                      (length v) (zlen v) 0 nodes;
    Ok (VTuple cs, nodes')
  else
    v' ← decode_leaf ty (zlen v) v; Ok (v', nodes).

(** Decoding at a position that holds a frame. *)
Lemma decode_one_frame f pre post t ty v depth nodes :
  depth <= MAX_NESTING_DEPTH -> tag_out_of_range t = false ->
  zlen v <= MAX_MESSAGE_BYTES -> nodes + 1 <= MAX_NODE_COUNT ->
  _decode_one (S f) (pre ++ frame t ty v ++ post) (zlen pre) depth nodes =
    ('(val, nodes') ← decode_body f ty v depth (nodes + 1);
     Ok (MkTtlv t ty val, zlen pre + zlen (frame t ty v), nodes')).
Proof.
  intros Hd Ht Hv Hn. cbn [_decode_one].
  pose proof (frame_slices pre post t ty v) as (S1&S2&S3&S4&S5).
  pose proof (header_fields t ty v Ht Hv) as (F1&F2&F3).
  set (data := pre ++ frame t ty v ++ post) in *.
  pose proof (zlen_nonneg pre). pose proof (zlen_nonneg v). pose proof (zlen_nonneg post).
  pose proof (padding_length_range (zlen v) ltac:(lia)).
  assert (Hlen : zlen data = zlen pre + (8 + (zlen v + padding_length (zlen v))) + zlen post).
  { unfold data. rewrite !zlen_app, zlen_frame. lia. }
  rewrite S1, S2, S3, F1, F2, F3, type_of_type_code, S4, S5, any_nonzero_zeros, Ht.
  replace (MAX_NESTING_DEPTH <? depth) with false by lia.
  replace (zlen data <? zlen pre + 8) with false by lia.
  replace (MAX_MESSAGE_BYTES <? zlen v) with false by lia.
  replace (zlen data <? _) with false by lia.
  replace (MAX_NODE_COUNT <? nodes + 1) with false by lia.
  rewrite zlen_frame, !Z.add_assoc. cbn [raise_if mbind res_bind]. unfold decode_body.
  destruct (decide (ty = STRUCTURE)).
  - by destruct (decode_children _ _ _ _ _) as [[cs k]|].
  - by destruct (decode_leaf _ _ _).
Qed.

(** Conversely, a successful [_decode_one] consumed exactly one frame. *)
Lemma decode_one_inv f data offset depth nodes n next nodes' :
  0 <= offset -> _decode_one f data offset depth nodes = Ok (n, next, nodes') ->
  exists f' t ty v val,
    f = S f' /\ n = MkTtlv t ty val /\
    depth <= MAX_NESTING_DEPTH /\ tag_out_of_range t = false /\
    zlen v <= MAX_MESSAGE_BYTES /\ nodes + 1 <= MAX_NODE_COUNT /\
    next = offset + zlen (frame t ty v) /\ next <= zlen data /\
    slice data offset next = frame t ty v /\
    decode_body f' ty v depth (nodes + 1) = Ok (val, nodes').
Proof.
  intros Ho H. destruct f as [|f]; [done|]. cbn [_decode_one] in H.
  set (t := from_bytes_big (slice data offset (offset + 3))) in *.
  destruct (type_of_code _) as [ty|] eqn:Hty; [|res_inv; done].
  set (len := from_bytes_big (slice data (offset + 4) (offset + 8))) in *.
  res_inv.
  assert (Hlen : 0 <= len < 256 ^ Z.of_nat (length (slice data (offset + 4) (offset + 8))))
    by apply from_bytes_big_range.
  pose proof (padding_length_range len ltac:(lia)) as Hpad.
  set (v := slice data (offset + 8) (offset + 8 + len)) in *.
  assert (Hv : zlen v = len) by (unfold v; rewrite zlen_slice; lia).
  exists f, t, ty, v.
  enough (exists val, n = MkTtlv t ty val /\
            next = offset + 8 + (len + padding_length len) /\
            decode_body f ty v depth (nodes + 1) = Ok (val, nodes')) as (val&?&Hnext&?).
  { exists val. rewrite zlen_frame, Hv. split_and!; try done; try lia.
    rewrite Hnext. unfold frame. rewrite Hv.
    rewrite (slice_split _ offset (offset + 3)) by lia.
    rewrite (slice_split _ (offset + 3) (offset + 4)) by lia.
    rewrite (slice_split _ (offset + 4) (offset + 8)) by lia.
    rewrite (slice_split _ (offset + 8) (offset + 8 + len)) by lia. fold v.
    assert (L : forall a b k, 0 <= a -> a <= b -> b <= zlen data -> b - a = Z.of_nat k ->
              slice data a b = to_bytes_big k (from_bytes_big (slice data a b))).
    { intros a b k ????. rewrite <- (to_from_bytes_big (slice data a b)) at 1. f_equal.
      pose proof (zlen_slice data a b). unfold zlen in *. lia. }
    f_equal; [by apply L; lia|]. f_equal.
    { rewrite (L _ _ 1%nat) by lia. cbn. by rewrite (type_of_code_inv _ _ Hty). }
    f_equal; [by apply L; lia|]. f_equal.
    etrans; [by apply any_nonzero_false|]. f_equal. rewrite zlen_slice; lia. }
  unfold decode_body. rewrite Hv.
  destruct (decide (ty = STRUCTURE)); res_inv.
  - repeat case_match; simplify_eq. eexists; split_and!; [done..|].
    match goal with E : decode_children _ _ _ _ _ = _ |- _ => rewrite Hv in E; by rewrite E end.
  - eexists; split_and!; [done..|].
    match goal with E : decode_leaf _ _ _ = _ |- _ => by rewrite E end.
Qed.

(* ------------------------------------------------------------------ *)
(** ** Leaves *)

Lemma decode_leaf_encoded enc ty v b :
  ty <> STRUCTURE -> encoded_value_with enc ty v = Ok b -> decode_leaf ty (zlen b) b = Ok v.
Proof.
  intros Hty H. unfold zlen.
  destruct ty, v; try done; cbn [encoded_value_with decode_leaf] in *;
    try (apply unpack_pack in H as [-> ->]; [reflexivity|lia]); try by injection H as ->.
  - apply unpack_pack in H as [-> ->]; [|lia]. by destruct b0.
  - unfold utf8_decode. by rewrite (utf8_decode_encode _ _ _ H).
Qed.

Lemma encoded_decode_leaf enc ty v b :
  decode_leaf ty (zlen b) b = Ok v -> encoded_value_with enc ty v = Ok b.
Proof.
  unfold zlen. intros H. destruct ty; cbn [decode_leaf] in H; try done; res_inv; cbn [encoded_value_with].
  1-2, 4, 8-9: apply pack_unpack; lia.
  - done.
  - destruct (Z.eqb_spec (unpack_signed 8 b) 1) as [E|E].
    + rewrite <- E. apply pack_unpack; lia.
    + replace 0 with (unpack_signed 8 b) by lia. apply pack_unpack; lia.
  - by apply utf8_encode_decode.
  - done.
Qed.

Lemma decode_leaf_tuple ty len b cs : decode_leaf ty len b = Ok (VTuple cs) -> False.
Proof. destruct ty; cbn [decode_leaf]; intros H; res_inv; done. Qed.

(* ------------------------------------------------------------------ *)
(** ** Encoding then decoding *)

Lemma encode_length n b : encode n = Ok b -> 8 <= zlen b <= MAX_MESSAGE_BYTES + 8.
Proof.
  destruct n as [t ty v]. rewrite encode_eq. intros H. res_inv.
  rewrite zlen_frame. match goal with E : (_ <? zlen ?w) = false |- _ =>
    pose proof (frame_bound w ltac:(lia)); pose proof (zlen_nonneg w);
    pose proof (padding_length_range (zlen w) ltac:(lia)) end. lia.
Qed.

(** [_decode_one] reads back the node whose encoding lies at its offset. *)
Definition reads_back (n : Ttlv) : Prop :=
  forall b, encode n = Ok b ->
  forall f pre post depth nodes,
    node_depth n < Z.of_nat f -> depth + node_depth n <= MAX_NESTING_DEPTH ->
    nodes + node_count n <= MAX_NODE_COUNT ->
    _decode_one f (pre ++ b ++ post) (zlen pre) depth nodes
      = Ok (n, zlen pre + zlen b, nodes + node_count n).

Lemma decode_children_encoded cs :
  Forall reads_back cs ->
  forall b, encode_list cs = Ok b ->
  forall f fuel pre depth nodes,
    (length b <= fuel)%nat -> children_depth cs <= Z.of_nat f ->
    depth + children_depth cs <= MAX_NESTING_DEPTH + 1 ->
    nodes + children_count cs <= MAX_NODE_COUNT ->
    decode_children (fun o k => _decode_one f (pre ++ b) o depth k) fuel
      (zlen (pre ++ b)) (zlen pre) nodes = Ok (cs, nodes + children_count cs).
Proof.
  induction 1 as [|c cs Hc Hcs IH]; intros b Hb f fuel pre depth nodes Hfuel Hf Hd Hn.
  - injection Hb as <-. rewrite app_nil_r. destruct fuel; cbn [decode_children];
      rewrite Z.ltb_irrefl, Z.add_0_r; done.
  - cbn in Hb. res_inv. match goal with E : encode c = Ok ?x, E' : encode_list cs = Ok ?y |- _ =>
      rename x into b1; rename y into b2; rename E into E1; rename E' into E2 end.
    pose proof (encode_length _ _ E1) as Hb1. pose proof (zlen_nonneg b2).
    cbn [children_depth children_count] in *.
    assert (0 <= children_count cs).
    { apply children_count_nonneg, Forall_forall. intros. apply node_count_pos. }
    rewrite length_app in Hfuel. unfold zlen in Hb1.
    destruct fuel as [|fuel]; [lia|]. cbn [decode_children].
    rewrite !zlen_app. unfold zlen at 2 3. replace (_ <? _) with true by (unfold zlen; lia).
    rewrite (Hc b1 E1) by lia. cbn [mbind res_bind].
    pose proof (IH b2 E2 f fuel (pre ++ b1) depth (nodes + node_count c)
                  ltac:(lia) ltac:(lia) ltac:(lia) ltac:(lia)) as IH'.
    rewrite <- app_assoc, !zlen_app in IH'. unfold zlen in *.
    rewrite <- Z.add_assoc in IH'. rewrite IH'. cbn. f_equal.
Qed.

Lemma reads_back_all n : reads_back n.
Proof.
  induction n as [t ty cs IH|t ty v Hv] using Ttlv_nested_ind;
    intros b Hb f pre post depth nodes Hf Hd Hn; rewrite encode_eq in Hb; res_inv.
  - rewrite node_depth_tuple, node_count_tuple in *.
    destruct f as [|f].
    { exfalso. pose proof (node_depth_nonneg (MkTtlv t ty (VTuple cs))).
      rewrite node_depth_tuple in *. lia. }
    assert (0 <= children_count cs).
    { apply children_count_nonneg, Forall_forall. intros. apply node_count_pos. }
    pose proof (node_depth_nonneg (MkTtlv t ty (VTuple cs))) as Hnn. rewrite node_depth_tuple in Hnn.
    rewrite decode_one_frame by (done || lia). unfold decode_body.
    destruct ty; cbn [encoded_value_with] in *; try done. rewrite decide_True by done.
    rewrite (decode_children_encoded cs IH _ ltac:(eassumption) f _ [] (depth + 1)) by (cbn; lia).
    cbn. f_equal. f_equal. lia.
  - assert (node_depth (MkTtlv t ty v) = 0 /\ node_count (MkTtlv t ty v) = 1) as [Ed Ec].
    { by destruct v as [cs| | | |]; [destruct (Hv cs)|..]. }
    rewrite Ed, Ec in *. destruct f as [|f]; [lia|].
    rewrite decode_one_frame by (done || lia). unfold decode_body.
    destruct (decide (ty = STRUCTURE)) as [->|Hty].
    { cbn [encoded_value_with] in *. by destruct v as [cs| | | |]; [destruct (Hv cs)|..]. }
    by erewrite decode_leaf_encoded by eassumption.
Qed.

(* ------------------------------------------------------------------ *)
(** ** Decoding then encoding *)

(** What a successful [_decode_one] at [offset] says about the node it returns. *)
Definition decoded_node (data : bytes) (offset depth nodes : Z) (n : Ttlv) (next nodes' : Z) : Prop :=
  offset < next <= zlen data /\ encode n = Ok (slice data offset next) /\
  depth + node_depth n <= MAX_NESTING_DEPTH /\
  nodes' = nodes + node_count n /\ nodes' <= MAX_NODE_COUNT.

Lemma decode_children_decoded raw dec depth :
  (forall o k c o' k', 0 <= o -> dec o k = Ok (c, o', k') -> decoded_node raw o depth k c o' k') ->
  forall fuel o k cs k',
    0 <= o <= zlen raw -> k <= MAX_NODE_COUNT ->
    decode_children dec fuel (zlen raw) o k = Ok (cs, k') ->
    encode_list cs = Ok (slice raw o (zlen raw)) /\
    (cs <> [] -> depth + children_depth cs <= MAX_NESTING_DEPTH + 1) /\
    k' = k + children_count cs /\ k' <= MAX_NODE_COUNT.
Proof.
  intros Hdec fuel. induction fuel as [|fuel IH]; intros o k cs k' Ho Hk H;
    cbn [decode_children] in H; destruct (Z.ltb_spec o (zlen raw)); res_inv.
  1,3: replace o with (zlen raw) by lia; rewrite slice_nil; cbn; split_and!; (done || lia).
  repeat case_match; simplify_eq; res_inv. repeat case_match; simplify_eq; res_inv.
  match goal with E : dec _ _ = Ok _ |- _ => apply Hdec in E as (?&?&?&->&?); [|lia] end.
  match goal with E : decode_children _ _ _ _ _ = Ok _ |- _ =>
    apply IH in E as (?&?&?&?); [|lia|lia] end.
  cbn [children_depth children_count encode_list]. split_and!; [|intros _|lia|done].
  - rewrite (slice_split raw o z0) by lia.
    match goal with E : encode _ = Ok _, E' : encode_list _ = Ok _ |- _ => by rewrite E, E' end.
  - match goal with E : encode ?c = Ok _ |- _ => pose proof (node_depth_nonneg c) end.
    destruct l; [cbn [children_depth]; lia|]. match goal with E : _ <> [] -> _ |- _ => specialize (E ltac:(done)) end. lia.
Qed.

Lemma decode_one_decoded f data offset depth nodes n next nodes' :
  0 <= offset -> _decode_one f data offset depth nodes = Ok (n, next, nodes') ->
  decoded_node data offset depth nodes n next nodes'.
Proof.
  revert data offset depth nodes n next nodes'.
  induction f as [|f IH]; intros data offset depth nodes n next nodes' Ho H; [done|].
  apply decode_one_inv in H as (f'&t&ty&v&val&[= <-]&->&Hd&Ht&Hv&Hn&->&Hnext&Hs&Hbody); [|done].
  pose proof (zlen_nonneg v) as Hv0. pose proof (padding_length_range (zlen v) Hv0).
  assert (0 < zlen (frame t ty v)) by (rewrite zlen_frame; lia).
  unfold decoded_node. rewrite Hs, encode_eq, Ht. cbn [raise_if mbind res_bind].
  unfold decode_body in Hbody. destruct (decide (ty = STRUCTURE)) as [->|Hty]; res_inv.
  - repeat case_match; simplify_eq; res_inv.
    match goal with E : decode_children _ _ _ _ _ = Ok _ |- _ =>
      apply (decode_children_decoded v _ (depth + 1)) in E as (E1&E2&E3&E4); [| |lia|lia] end.
    2:{ intros o k c o' k' ?. by apply IH. }
    rewrite slice_full in E1. cbn [encoded_value_with]. rewrite E1. cbn [mbind res_bind].
    replace (MAX_MESSAGE_BYTES <? zlen v) with false by lia.
    rewrite node_depth_tuple, node_count_tuple. split_and!; (done || lia || idtac).
    match goal with |- _ + children_depth ?l <= _ => destruct l as [|]; [cbn; lia|] end.
    specialize (E2 ltac:(done)). lia.
  - erewrite encoded_decode_leaf by eassumption. cbn [mbind res_bind].
    replace (MAX_MESSAGE_BYTES <? zlen v) with false by lia.
    match goal with E : decode_leaf _ _ _ = Ok ?w |- _ =>
      destruct w as [cs| | | |]; [by apply decode_leaf_tuple in E|..] end;
      cbn [node_depth node_count]; split_and!; (done || lia).
Qed.

(* ------------------------------------------------------------------ *)
(** ** Errors and termination of the decoder *)

Definition is_TtlvError (e : exn) : Prop := exists msg, e = TtlvError msg.

Lemma decode_leaf_raise ty len b e :
  ty <> STRUCTURE -> decode_leaf ty len b = Raise e -> is_TtlvError e.
Proof.
  unfold is_TtlvError. intros Hty H.
  destruct ty; cbn [decode_leaf] in H; try done; res_inv; eauto.
  match goal with E : rethrow _ _ _ = _ |- _ => apply rethrow_Raise in E as (?&?&->) end. eauto.
Qed.

Lemma decode_children_raise raw dec depth :
  (forall o k c o' k', 0 <= o -> dec o k = Ok (c, o', k') -> decoded_node raw o depth k c o' k') ->
  (forall o k e, 0 <= o -> dec o k = Raise e -> is_TtlvError e) ->
  forall fuel o k e, 0 <= o -> zlen raw - o <= Z.of_nat fuel ->
    decode_children dec fuel (zlen raw) o k = Raise e -> is_TtlvError e.
Proof.
  intros Hok Hraise fuel. induction fuel as [|fuel IH]; intros o k e Ho Hfuel H;
    cbn [decode_children] in H; destruct (Z.ltb_spec o (zlen raw)); try done; [lia|].
  res_inv; [by eapply Hraise|]. repeat case_match; simplify_eq; res_inv.
  - match goal with E : dec _ _ = Ok _ |- _ => apply Hok in E as ([??]&_); [|done] end.
    eapply IH; [| |eassumption]; lia.
  - repeat case_match; done.
Qed.

(** With one unit of fuel per nesting level left, [_decode_one] stops with a
    node or a [TtlvError]. *)
Lemma decode_one_raise f data offset depth nodes e :
  0 <= offset -> depth <= MAX_NESTING_DEPTH + 1 -> MAX_NESTING_DEPTH + 1 - depth < Z.of_nat f ->
  _decode_one f data offset depth nodes = Raise e -> is_TtlvError e.
Proof.
  revert data offset depth nodes e.
  induction f as [|f IH]; intros data offset depth nodes e Ho Hd Hf H; cbn [_decode_one] in H; [lia|].
  unfold is_TtlvError in *.
  destruct (type_of_code _) as [ty|] eqn:?; [|res_inv; eauto].
  res_inv; eauto. destruct (decide (ty = STRUCTURE)) as [->|?]; res_inv.
  - match goal with E : decode_children ?dec _ (zlen ?raw) _ _ = Raise _ |- _ =>
      eapply (decode_children_raise raw dec (depth + 1)); [| | | |exact E] end.
    + intros. by eapply decode_one_decoded.
    + intros. eapply IH; [| | |eassumption]; lia.
    + lia.
    + unfold zlen. lia.
  - by repeat case_match.
  - by eapply decode_leaf_raise.
Qed.

Lemma decode_with_Ok f b n :
  decode_with f b = Ok n ->
  encode n = Ok b /\ node_depth n <= MAX_NESTING_DEPTH /\ node_count n <= MAX_NODE_COUNT.
Proof.
  unfold decode_with. intros H. res_inv. repeat case_match; simplify_eq; res_inv.
  match goal with E : _decode_one _ _ _ _ _ = Ok _ |- _ =>
    apply decode_one_decoded in E as (?&Henc&?&->&?); [|lia] end.
  split_and!; [|lia|lia]. rewrite Henc. f_equal.
  rewrite <- (slice_full b) at 2. f_equal. lia.
Qed.

Lemma decode_with_encoded f b n :
  encode n = Ok b -> node_depth n <= MAX_NESTING_DEPTH -> node_count n <= MAX_NODE_COUNT ->
  node_depth n < Z.of_nat f -> decode_with f b = Ok n.
Proof.
  unfold decode_with. intros He Hd Hc Hf. pose proof (encode_length _ _ He).
  replace (zlen b =? 0) with false by lia.
  replace (_ + 8 <? zlen b) with false by lia. cbn [raise_if mbind res_bind].
  pose proof (reads_back_all n b He f [] [] 0 0 ltac:(lia) ltac:(lia) ltac:(lia)) as R.
  rewrite app_nil_r in R.
  change (_decode_one f b 0 0 0 = Ok (n, 0 + zlen b, 0 + node_count n)) in R.
  rewrite R. cbn [mbind res_bind]. by rewrite Z.add_0_l, Z.eqb_refl.
Qed.

Lemma decode_with_Raise f b e :
  MAX_NESTING_DEPTH + 1 < Z.of_nat f -> decode_with f b = Raise e -> is_TtlvError e.
Proof.
  unfold decode_with. intros Hf H. res_inv; [by eexists..| |].
  - eapply decode_one_raise; [| | |eassumption]; unfold MAX_NESTING_DEPTH in *; lia.
  - repeat case_match; simplify_eq; res_inv; by eexists.
Qed.

(* ------------------------------------------------------------------ *)
(** ** When encoding succeeds *)

Definition fits_signed (n : nat) (z : Z) : bool :=
  (- 2 ^ (8 * Z.of_nat n - 1) <=? z) && (z <? 2 ^ (8 * Z.of_nat n - 1)).

(** The value has the Python type its TTLV type demands, within its width. *)
Definition leaf_typed (ty : TtlvType) (v : TtlvValue) : bool :=
  match ty, v with
  | (INTEGER | ENUMERATION | INTERVAL), VInt z => fits_signed 4 z
  | (LONG_INTEGER | DATE_TIME), VInt z => fits_signed 8 z
  | BOOLEAN, VBool _ => true
  | TEXT_STRING, VStr s => forallb is_scalar s
  | (BYTE_STRING | BIG_INTEGER), VBytes _ => true
  | _, _ => false
  end.

(** Standard tags and typed values throughout the tree. *)
Fixpoint well_formed (n : Ttlv) : bool :=
  let '(MkTtlv t ty v) := n in
  negb (tag_out_of_range t) &&
  match v with
  | VTuple cs => bool_decide (ty = STRUCTURE) &&
      (fix go cs := match cs with [] => true | c :: cs' => well_formed c && go cs' end) cs
  | _ => leaf_typed ty v
  end.

(** Bytes of the value field of a leaf. *)
Definition leaf_size (ty : TtlvType) (v : TtlvValue) : Z :=
  match v with
  | VInt _ => match ty with LONG_INTEGER | DATE_TIME => 8 | _ => 4 end
  | VStr s => utf8_size s
  | VBytes b => zlen b
  | _ => 8
  end.

(** Bytes of the whole encoded node. *)
Fixpoint encoded_size (n : Ttlv) : Z :=
  let '(MkTtlv _ ty v) := n in
  let size := match v with
              | VTuple cs =>
                (fix go cs := match cs with [] => 0 | c :: cs' => encoded_size c + go cs' end) cs
              | _ => leaf_size ty v
              end in
  8 + (size + padding_length size).

Fixpoint children_size (cs : list Ttlv) : Z :=
  match cs with [] => 0 | c :: cs' => encoded_size c + children_size cs' end.

Lemma encoded_size_tuple t ty cs :
  encoded_size (MkTtlv t ty (VTuple cs)) =
    8 + (children_size cs + padding_length (children_size cs)).
Proof. reflexivity. Qed.

Lemma well_formed_tuple t ty cs :
  well_formed (MkTtlv t ty (VTuple cs)) =
    negb (tag_out_of_range t) && (bool_decide (ty = STRUCTURE) && forallb well_formed cs).
Proof. reflexivity. Qed.

Lemma pack_signed_fits n z : (exists b, pack_signed n z = Ok b) <-> fits_signed n z = true.
Proof. unfold pack_signed, fits_signed. destruct (_ && _); naive_solver. Qed.

Lemma forallb_scalar s : forallb is_scalar s = true <-> Forall (fun c => is_scalar c = true) s.
Proof. rewrite forallb_forall, Forall_forall. by setoid_rewrite list_elem_of_In. Qed.

Lemma pack_signed_size n z b : pack_signed n z = Ok b -> zlen b = Z.of_nat n.
Proof.
  unfold pack_signed, zlen. destruct (_ && _); [|done]. intros [= <-].
  by rewrite length_to_bytes_big.
Qed.

(** A leaf's value is encodable exactly when it is typed, in its size. *)
Lemma encoded_leaf enc ty v :
  (forall cs, v <> VTuple cs) ->
  ((exists b, encoded_value_with enc ty v = Ok b) <-> leaf_typed ty v = true) /\
  (forall b, encoded_value_with enc ty v = Ok b -> zlen b = leaf_size ty v).
Proof.
  intros Hv. split.
  - destruct ty, v; cbn [encoded_value_with leaf_typed];
      try apply pack_signed_fits; try (split; [by intros [? ?]|done]); try (by split; eauto).
    + by destruct (Hv children0).
    + split; [done|intros _]. apply pack_signed_fits. by destruct b.
    + by rewrite utf8_encode_ok, forallb_scalar.
  - intros b. destruct ty, v; cbn [encoded_value_with leaf_size]; try done;
      try (by destruct (Hv children0)); try apply pack_signed_size; try (by intros [= ->]).
    apply utf8_encode_size.
Qed.

(** The node's encoding exists when it is well formed and within the bound. *)
Definition encodes (n : Ttlv) : Prop :=
  ((exists b, encode n = Ok b) <-> well_formed n = true /\ encoded_size n <= MAX_MESSAGE_BYTES + 8) /\
  (forall b, encode n = Ok b -> zlen b = encoded_size n).

Lemma encoded_size_nonneg n : 8 <= encoded_size n.
Proof.
  induction n as [t ty cs IH|t ty v Hv] using Ttlv_nested_ind.
  - rewrite encoded_size_tuple. assert (0 <= children_size cs).
    { clear t ty. induction IH; cbn; lia. }
    pose proof (padding_length_range (children_size cs)). lia.
  - cbn [encoded_size]. destruct v as [cs| | |s|b]; [by destruct (Hv cs)|..]; cbn [leaf_size].
    1,2: by destruct ty; vm_compute.
    + assert (0 <= utf8_size s).
      { clear. induction s; cbn; [lia|]. unfold utf8_char_size. repeat case_match; lia. }
      pose proof (padding_length_range (utf8_size s)). lia.
    + pose proof (zlen_nonneg b). pose proof (padding_length_range (zlen b)). lia.
Qed.

Lemma size_bound s :
  0 <= s -> 8 + (s + padding_length s) <= MAX_MESSAGE_BYTES + 8 <-> s <= MAX_MESSAGE_BYTES.
Proof.
  intros Hs. pose proof (padding_length_range s Hs). split; [lia|intros].
  pose proof (padded_mod8 s Hs). change MAX_MESSAGE_BYTES with (131072 * 8) in *.
  pose proof (Z.div_mod (s + padding_length s) 8). lia.
Qed.

Lemma children_encode cs :
  Forall encodes cs ->
  (children_size cs <= MAX_MESSAGE_BYTES ->
     (exists b, encode_list cs = Ok b) <-> forallb well_formed cs = true) /\
  (forall b, encode_list cs = Ok b -> zlen b = children_size cs /\ forallb well_formed cs = true).
Proof.
  induction 1 as [|c cs [Hc Hcs] _ [IH1 IH2]]; cbn.
  { split; [split; eauto|]. by intros b [= <-]. }
  pose proof (encoded_size_nonneg c). split.
  - intros Hsz. assert (0 <= children_size cs).
    { clear. induction cs as [|c' cs]; cbn; [lia|]. pose proof (encoded_size_nonneg c'). lia. }
    rewrite andb_true_iff. split.
    + intros [b Hb]. res_inv. split; [apply Hc; eauto|apply IH1; [lia|eauto]].
    + intros [H1 H2]. apply IH1 in H2 as [b2 Hb2]; [|lia].
      destruct (proj2 Hc) as [b1 Hb1]; [split; [done|lia]|]. rewrite Hb1, Hb2. by eexists.
  - intros b Hb. res_inv. rewrite zlen_app, (Hcs _ ltac:(eassumption)).
    destruct (IH2 _ ltac:(eassumption)) as [-> ->]. rewrite (proj1 (proj1 Hc ltac:(eauto))). done.
Qed.

Lemma encodes_all n : encodes n.
Proof.
  unfold encodes.
  induction n as [t ty cs IH|t ty v Hv] using Ttlv_nested_ind; setoid_rewrite encode_eq.
  - apply children_encode in IH as [IH1 IH2]. rewrite well_formed_tuple, encoded_size_tuple.
    assert (0 <= children_size cs).
    { clear. induction cs as [|c' cs]; cbn; [lia|]. pose proof (encoded_size_nonneg c'). lia. }
    rewrite size_bound by done. split; [split|].
    + intros [b Hb]. res_inv. destruct ty; try done. cbn [encoded_value_with] in *.
      destruct (IH2 _ ltac:(eassumption)) as [E ->].
      replace (tag_out_of_range t) with false by done. split; [done|lia].
    + rewrite !andb_true_iff. intros [(Ht&Hty&Hcs) Hsz].
      apply negb_true_iff in Ht. apply bool_decide_eq_true in Hty as ->. rewrite Ht.
      apply IH1 in Hcs as [b Hb]; [|done]. cbn. rewrite Hb. cbn.
      destruct (IH2 _ Hb) as [-> _]. replace (_ <? _) with false by lia. cbn. by eexists.
    + intros b Hb. res_inv. destruct ty; try done. cbn [encoded_value_with] in *.
      destruct (IH2 _ ltac:(eassumption)) as [E _]. by rewrite zlen_frame, E.
  - destruct (encoded_leaf encode_list ty v Hv) as [L1 L2].
    assert (well_formed (MkTtlv t ty v) = negb (tag_out_of_range t) && leaf_typed ty v) as ->
      by (destruct v as [cs| | | |]; [by destruct (Hv cs)|done..]).
    assert (encoded_size (MkTtlv t ty v) = 8 + (leaf_size ty v + padding_length (leaf_size ty v))) as ->
      by (destruct v as [cs| | | |]; [by destruct (Hv cs)|done..]).
    split; [split|].
    + intros [b Hb]. res_inv. replace (tag_out_of_range t) with false by done.
      rewrite (proj1 L1) by eauto. rewrite <- (L2 _ ltac:(eassumption)). split; [done|].
      apply size_bound; [apply zlen_nonneg|lia].
    + rewrite andb_true_iff. intros [[Ht%negb_true_iff Hty] Hsz]. rewrite Ht.
      apply L1 in Hty as [b Hb]. rewrite Hb. cbn. rewrite <- (L2 _ Hb) in Hsz.
      apply size_bound in Hsz; [|apply zlen_nonneg]. replace (_ <? _) with false by lia.
      cbn. by eexists.
    + intros b Hb. res_inv. by rewrite zlen_frame, (L2 _ ltac:(eassumption)).
Qed.

(* ------------------------------------------------------------------ *)
(** ** Theorems of the codec *)

(** C27. The decoder accepts exactly the canonical encodings of the bounded
    trees: [decode b] returns [n] if and only if [b] is what [encode] writes for
    [n] and [n] respects the nesting and node-count bounds.  Decoding is thus a
    left and a right inverse of encoding, and no two byte strings decode to the
    same tree. *)
Theorem decode_iff_encode b n :
  decode b = Ok n <->
  encode n = Ok b /\ node_depth n <= MAX_NESTING_DEPTH /\ node_count n <= MAX_NODE_COUNT.
Proof.
  unfold decode. split; [apply decode_with_Ok|]. intros (?&?&?).
  apply decode_with_encoded; [done..|]. unfold MAX_NESTING_DEPTH, decode_fuel in *. lia.
Qed.

(** Decoding always terminates with a node or a [TtlvError]: no input runs
    the model out of fuel and no other exception class ([struct.error],
    [UnicodeDecodeError], [IndexError]) escapes. *)
Theorem decode_fuel_enough b :
  (exists n, decode b = Ok n) \/ (exists msg, decode b = Raise (TtlvError msg)).
Proof.
  destruct (decode b) as [n|e] eqn:H; [by left; exists n|right].
  apply decode_with_Raise in H as [m ->]; [by exists m|by cbn].
Qed.

(** Encoding succeeds exactly on the trees with standard tags, typed values
    within their width and Unicode scalar text whose encoding fits the message
    bound, and the encoding has the computed size. *)
Theorem encode_ok_iff n :
  ((exists b, encode n = Ok b) <->
     well_formed n = true /\ encoded_size n <= MAX_MESSAGE_BYTES + 8) /\
  (forall b, encode n = Ok b -> zlen b = encoded_size n).
Proof. apply encodes_all. Qed.

(* ------------------------------------------------------------------ *)
(** ** Field access *)

Lemma insert_tag_elem t u l : u ∈ insert_tag t l <-> u = t \/ u ∈ l.
Proof.
  induction l as [|x l IH]; cbn; [set_solver|].
  destruct (Z.ltb_spec t x); [set_solver|]. destruct (Z.eqb_spec t x); set_solver.
Qed.

Lemma sort_tags_nil l : fold_right insert_tag [] l = [] <-> l = [].
Proof.
  split; [|by intros ->]. destruct l as [|x l]; [done|]. cbn. intros H.
  assert (x ∈ @nil Z) as []%not_elem_of_nil. rewrite <- H. apply insert_tag_elem. by left.
Qed.

(** [assert_only_tags] passes exactly when every child carries an allowed tag. *)
Lemma assert_only_tags_Ok n allowed :
  assert_only_tags n allowed = Ok tt <->
  exists cs, children n None = Ok cs /\ Forall (fun c => tag c ∈ allowed) cs.
Proof.
  unfold assert_only_tags. split.
  - intros H. res_inv. eexists; split; [done|]. case_match; [|done].
    apply (proj1 (sort_tags_nil _)) in H1. apply Forall_forall. intros c Hc.
    destruct (decide (tag c ∈ allowed)) as [|Hn]; [done|].
    assert (tag c ∈ @nil Z) as []%not_elem_of_nil. rewrite <- H1.
    apply list_elem_of_filter. split; [done|]. apply list_elem_of_fmap. eauto.
  - intros (cs&->&Hall). cbn. replace (filter _ _) with (@nil Z); [done|]. symmetry.
    induction Hall as [|c cs Hc _ IH]; [done|]. by rewrite fmap_cons, filter_cons_False by tauto.
Qed.

Lemma assert_only_tags_Raise n allowed e :
  type n = STRUCTURE -> assert_only_tags n allowed = Raise e ->
  is_TtlvError e \/ e = TypeError.
Proof.
  unfold assert_only_tags, children, is_TtlvError. intros Hty H. rewrite decide_True in H by done.
  destruct (value n); cbn in H; try (right; congruence). case_match; [done|].
  left. res_inv. eauto.
Qed.
