(* ===== verification/World.v ===== *)
(** The world the key store runs in: the files it owns, the SQLite database,
    the operating system's random source and clock, and the faults of the I/O
    steps, threaded through a state-and-exception monad with its
    weakest-precondition rules.

    - [kek_file] and [recovery_master] are the contents of [kek.json] and of
      [recovery-master.bin] beside it; [journal_file] tells whether a [-wal] or
      [-journal] file stands beside the database.
    - [database] is the committed content of the SQLite file, [conn] the view of
      the open connection, which differs from it while [in_transaction].
    - [random] and [clock] are the bytes and the UTC instants (microseconds since
      1970) that the process is going to be given; a list that is too short goes
      on with zeros, so that every list is a behaviour of the source of the same
      name and every behaviour is a list.
    - [faults] decides each I/O step in turn: it happens, it raises, or the
      machine stops there.  An exhausted list means that nothing fails. *)

From S2P Require Import Prelude Utf8 PyText Uuid.
From stdpp Require Export gmap.
Open Scope Z_scope.

(** [class StoredKey]. *)
Record StoredKey : Type := mkStoredKey {
  sk_provider_id : pystr;
  sk_key_id : pystr;
  sk_algorithm : pystr;
  sk_length : Z;
  sk_name : option pystr;
  sk_state : pystr;
  sk_created_at : pystr;
  sk_activated_at : option pystr;
  sk_custom_attributes : list (pystr * pystr)
}.

(** [class _KekEnvelope]. *)
Record _KekEnvelope : Type := mkKekEnvelope {
  kek : bytes;
  generation : Z;
  commitment : pystr;
  pending_generation : option Z;
  pending_commitment : option pystr
}.

(** A row of the table [wrapped_keys]. *)
Record Row : Type := mkRow {
  row_provider_id : pystr;
  row_key_id : pystr;
  row_algorithm : pystr;
  row_key_length : Z;
  row_name : option pystr;
  row_state : pystr;
  row_created_at : pystr;
  row_activated_at : option pystr;
  row_nonce : bytes;
  row_ciphertext : bytes;
  row_aad_json : pystr
}.

(** The two tables, each indexed by its primary key. *)
Record Db : Type := mkDb {
  store_metadata : gmap pystr pystr;
  wrapped_keys : gmap (pystr * pystr) Row
}.

Definition empty_db : Db := mkDb ∅ ∅.

(** The attributes of a [WrappedKeyStore] object that its methods read or write
    (the paths are fixed and the lock serialises the methods). *)
Record WrappedKeyStore : Type := mkStore {
  self_read_only : bool;
  self_master_key : bytes;
  self_kek : bytes;
  self_envelope : _KekEnvelope
}.

Inductive fault : Type :=
| Proceed
| Fault
| Crash.

Record World : Type := mkWorld {
  kek_file : option bytes;
  recovery_master : option bytes;
  database : option Db;
  journal_file : bool;
  conn : Db;
  in_transaction : bool;
  self : WrappedKeyStore;
  random : bytes;
  clock : list Z;
  faults : list fault
}.

(* ------------------------------------------------------------------ *)
(** ** Field updates *)

Definition set_kek_file (f : option bytes) (w : World) : World :=
  mkWorld f (recovery_master w) (database w) (journal_file w) (conn w) (in_transaction w)
          (self w) (random w) (clock w) (faults w).

(** The tables of the connection, and whether they are in a transaction. *)
Definition set_conn (d : Db) (t : bool) (w : World) : World :=
  mkWorld (kek_file w) (recovery_master w) (database w) (journal_file w) d t
          (self w) (random w) (clock w) (faults w).

Definition set_database (d : option Db) (w : World) : World :=
  mkWorld (kek_file w) (recovery_master w) d (journal_file w) (conn w) (in_transaction w)
          (self w) (random w) (clock w) (faults w).

Definition set_self (s : WrappedKeyStore) (w : World) : World :=
  mkWorld (kek_file w) (recovery_master w) (database w) (journal_file w) (conn w)
          (in_transaction w) s (random w) (clock w) (faults w).

Definition set_random (r : bytes) (w : World) : World :=
  mkWorld (kek_file w) (recovery_master w) (database w) (journal_file w) (conn w)
          (in_transaction w) (self w) r (clock w) (faults w).

Definition set_clock (c : list Z) (w : World) : World :=
  mkWorld (kek_file w) (recovery_master w) (database w) (journal_file w) (conn w)
          (in_transaction w) (self w) (random w) c (faults w).

Definition set_faults (f : list fault) (w : World) : World :=
  mkWorld (kek_file w) (recovery_master w) (database w) (journal_file w) (conn w)
          (in_transaction w) (self w) (random w) (clock w) f.

Definition set_envelope (e : _KekEnvelope) (w : World) : World :=
  set_self (mkStore (self_read_only (self w)) (self_master_key (self w)) (self_kek (self w)) e) w.

(* ------------------------------------------------------------------ *)
(** ** Effects *)

Abbreviation M := (ST World).

(** One I/O step, which raises [e] when it fails. *)
Definition io (e : exn) : M unit := fun w =>
  match faults w with
  | [] => (Ok tt, w)
  | Proceed :: f => (Ok tt, set_faults f w)
  | Fault :: f => (Raise e, set_faults f w)
  | Crash :: f => (Raise PowerFailure, set_faults f w)
  end.

(** The first [n] elements of a tape that goes on with [d]. *)
Definition take_pad {A} (d : A) (n : nat) (l : list A) : list A :=
  take n l ++ replicate (n - length l) d.

(** [os.urandom(n)]. *)
Definition urandom (n : nat) : M bytes := fun w =>
  (Ok (take_pad x00 n (random w)), set_random (drop n (random w)) w).

(** The 128 bits of [uuid.uuid4()]: the version and variant fields are set over
    sixteen random bytes. *)
Definition uuid4_bits (b : bytes) : Z :=
  let n := from_bytes_big b in
  let n := Z.lor (Z.land n (Z.lnot (0xc000 * 2 ^ 48))) (0x8000 * 2 ^ 48) in
  Z.lor (Z.land n (Z.lnot (0xf000 * 2 ^ 64))) (0x4000 * 2 ^ 64).

(** [uuid.uuid4()]. *)
Definition uuid4 : M Z := b ← urandom 16; mret (uuid4_bits b).

(** The proleptic Gregorian date of a day counted from 1970-01-01. *)
Definition civil_from_days (day : Z) : Z * Z * Z :=
  let z := day + 719468 in
  let era := z / 146097 in
  let doe := z mod 146097 in
  let yoe := (doe - doe / 1460 + doe / 36524 - doe / 146096) / 365 in
  let doy := doe - (365 * yoe + yoe / 4 - yoe / 100) in
  let mp := (5 * doy + 2) / 153 in
  let m := if mp <? 10 then mp + 3 else mp - 9 in
  (yoe + era * 400 + (if m <=? 2 then 1 else 0), m, doy - (153 * mp + 2) / 5 + 1).

Definition decimal (n : nat) (z : Z) : pystr := map (fun d => 48 + d) (digits_fixed 10 n z).

(** [datetime.fromtimestamp(us / 10**6, UTC).isoformat()]: the fraction is left
    out when it is zero. *)
Definition isoformat (us : Z) : pystr :=
  let '(y, m, d) := civil_from_days (us / 86400000000) in
  let s := (us mod 86400000000) / 1000000 in
  let f := us mod 1000000 in
  decimal 4 y ++ str "-" ++ decimal 2 m ++ str "-" ++ decimal 2 d ++ str "T" ++
  decimal 2 (s / 3600) ++ str ":" ++ decimal 2 (s / 60 mod 60) ++ str ":" ++ decimal 2 (s mod 60) ++
  (if f =? 0 then [] else str "." ++ decimal 6 f) ++ str "+00:00".

(** [datetime.now(UTC).isoformat()]. *)
Definition now_isoformat : M pystr := fun w =>
  (Ok (isoformat (default 0 (head (clock w)))), set_clock (tail (clock w)) w).

Example isoformat_epoch : isoformat 0 = str "1970-01-01T00:00:00+00:00".
Proof. reflexivity. Qed.
Example isoformat_leap : isoformat 1709210096000120 = str "2024-02-29T12:34:56.000120+00:00".
Proof. reflexivity. Qed.

(* ------------------------------------------------------------------ *)
(** ** Rules for the effects *)

Lemma wp_io e (Q : res unit -> World -> Prop) w :
  (forall f, Q (Ok tt) (set_faults f w)) ->
  (forall f, Q (Raise e) (set_faults f w)) ->
  (forall f, Q (Raise PowerFailure) (set_faults f w)) ->
  wp (io e) Q w.
Proof.
  intros H1 H2 H3. unfold wp, io. destruct (faults w) as [|[] f] eqn:E; cbn; auto.
  replace w with (set_faults [] w) by (rewrite <- E; by destruct w). apply H1.
Qed.

Lemma take_pad_length {A} (d : A) n l : length (take_pad d n l) = n.
Proof. unfold take_pad. rewrite length_app, length_take, length_replicate. lia. Qed.

Lemma wp_urandom n (Q : res bytes -> World -> Prop) w :
  (forall b r, length b = n -> Q (Ok b) (set_random r w)) -> wp (urandom n) Q w.
Proof. intros H. unfold wp, urandom. cbn. apply H. apply take_pad_length. Qed.

(** A version-4 UUID is a 128-bit number. *)
Lemma land_bounded x y n : 0 <= n -> 0 <= x < 2 ^ n -> 0 <= Z.land x y < 2 ^ n.
Proof.
  intros Hn Hx. split; [apply Z.land_nonneg; lia|].
  rewrite <- (Z.mod_small x (2 ^ n)), <- Z.land_ones by lia.
  rewrite <- Z.land_assoc, (Z.land_comm (Z.ones n)), Z.land_assoc, Z.land_ones by lia.
  apply Z.mod_pos_bound. lia.
Qed.

Lemma lor_bounded x y n : 0 <= n -> 0 <= x < 2 ^ n -> 0 <= y < 2 ^ n -> 0 <= Z.lor x y < 2 ^ n.
Proof.
  intros Hn Hx Hy. split; [apply Z.lor_nonneg; lia|].
  rewrite <- (Z.mod_small x (2 ^ n)), <- (Z.mod_small y (2 ^ n)), <- !Z.land_ones by lia.
  rewrite <- Z.land_lor_distr_l, Z.land_ones by lia. apply Z.mod_pos_bound. lia.
Qed.

Lemma uuid4_bits_range b : length b = 16%nat -> 0 <= uuid4_bits b < 2 ^ 128.
Proof.
  intros Hb. pose proof (from_bytes_big_range b) as Hr. rewrite Hb in Hr.
  change (256 ^ Z.of_nat 16) with (2 ^ 128) in Hr. unfold uuid4_bits.
  repeat first [apply lor_bounded | apply land_bounded]; lia.
Qed.

Lemma wp_uuid4 (Q : res Z -> World -> Prop) w :
  (forall n r, 0 <= n < 2 ^ 128 -> Q (Ok n) (set_random r w)) -> wp uuid4 Q w.
Proof.
  intros H. unfold uuid4. apply wp_bind, wp_urandom. intros b r Hb. apply wp_ret, H.
  by apply uuid4_bits_range.
Qed.

Lemma wp_now (Q : res pystr -> World -> Prop) w :
  (forall us c, Q (Ok (isoformat us)) (set_clock c w)) -> wp now_isoformat Q w.
Proof. intros H. apply H. Qed.

(** Only ASCII characters occur in a timestamp. *)
Lemma decimal_ascii n z : Forall (fun c => 0 <= c < 128) (decimal n z).
Proof.
  unfold decimal. apply Forall_map. eapply Forall_impl; [apply digits_fixed_range; lia|].
  intros d Hd. cbn in *. lia.
Qed.

Lemma isoformat_ascii us : Forall (fun c => 0 <= c < 128) (isoformat us).
Proof.
  unfold isoformat. destruct (civil_from_days _) as [[y m] d].
  repeat (apply Forall_app; split); try apply decimal_ascii; try (repeat constructor; lia).
  destruct (_ =? 0); [constructor|]. apply Forall_app. split; [repeat constructor; lia|apply decimal_ascii].
Qed.

Lemma isoformat_length us : zlen (isoformat us) <= 32.
Proof.
  unfold isoformat. destruct (civil_from_days _) as [[y m] d].
  assert (forall n z, zlen (decimal n z) = Z.of_nat n) as Hd.
  { intros n z. unfold decimal, zlen. by rewrite length_map, length_digits_fixed. }
  rewrite !zlen_app, !Hd. destruct (_ =? 0); rewrite ?zlen_app, ?Hd; by vm_compute.
Qed.
