(* ===== verification/Store.v ===== *)
(** The envelope-encrypted operational key store
    ([src/atlaso/app/kmip/store.py]): canonical associated data, the KEK
    envelope and its generations, the store commitment, and every method of
    [WrappedKeyStore].

    AES-GCM is third-party code ([cryptography]): its constructor, encryption and
    decryption are the operations of the class [Aead], and the documented
    behaviour that the proofs rely on is the class [AeadLaws].  SHA-256, JSON,
    base64 and UUIDs are the concrete models of the other files.

    SQLite is modelled by the statements the store executes: the tables with
    their primary keys and CHECK constraints, implicit transactions, [commit] and
    [rollback]. *)

From S2P Require Import Prelude Utf8 PyText Uuid Json Base64 Sha256 World.
Open Scope Z_scope.

(* ------------------------------------------------------------------ *)
(** ** AES-GCM *)

(** [AESGCM(key)], [AESGCM(key).encrypt(nonce, data, aad)] and
    [AESGCM(key).decrypt(nonce, data, aad)]. *)
Class Aead : Type := {
  AESGCM : bytes -> res unit;
  aes_encrypt : bytes -> bytes -> bytes -> bytes -> res bytes;
  aes_decrypt : bytes -> bytes -> bytes -> bytes -> res bytes
}.

(** The exception classes that the program itself defines. *)
Definition program_exception (e : exn) : bool :=
  match e with
  | TtlvError _ | ProtocolFailure _ _ | KeyStoreError _ | KeyNotFoundError _ | KeyStateError _
  | ConfigurationError _ | TraceValidationError _ | RecoveryError _ => true
  | _ => false
  end.

(** What the store relies on: 256-bit keys are accepted, decryption inverts
    encryption under the same key, nonce and associated data, a failed decryption
    raises [InvalidTag] (or [ValueError] for a nonce of the wrong length),
    encryption with a 256-bit key and a 96-bit nonce succeeds below the size
    limit, what encryption raises is no exception class of this program, and a
    ciphertext is sixteen bytes, the tag, longer than its plaintext. *)
Class AeadLaws `{Aead} : Prop := {
  aead_key : forall k, length k = 32%nat -> AESGCM k = Ok tt;
  aead_key_raise : forall k e, AESGCM k = Raise e -> exists m, e = ValueError m;
  aead_roundtrip : forall k n p a c, aes_encrypt k n p a = Ok c -> aes_decrypt k n c a = Ok p;
  aead_decrypt_raise : forall k n c a e,
    aes_decrypt k n c a = Raise e -> e = InvalidTag \/ exists m, e = ValueError m;
  aead_encrypt_total : forall k n p a,
    length k = 32%nat -> length n = 12%nat -> zlen p < 2 ^ 31 - 1 -> zlen a < 2 ^ 31 - 1 ->
    exists c, aes_encrypt k n p a = Ok c;
  aead_encrypt_raise : forall k n p a e, aes_encrypt k n p a = Raise e -> program_exception e = false;
  aead_encrypt_length : forall k n p a c, aes_encrypt k n p a = Ok c -> length c = (length p + 16)%nat
}.

(* ------------------------------------------------------------------ *)
(** ** Constants *)

Definition STORE_SCHEMA_VERSION : Z := 2.
Definition KEK_ENVELOPE_FORMAT : pystr := str "atlaso-kmip-kek-v2".
Definition KEK_AAD : bytes := map to_byte KEK_ENVELOPE_FORMAT.
Definition LEGACY_KEK_ENVELOPE_FORMAT : pystr := str "atlaso-kmip-kek-v1".
Definition LEGACY_KEK_AAD : bytes := map to_byte LEGACY_KEK_ENVELOPE_FORMAT.
Definition STORE_COMMITMENT_FORMAT : pystr := str "atlaso-kmip-store-commitment-v1".
Definition RECOVERY_AAD : bytes := map to_byte (str "atlaso-kmip-recovery-master-v1").
Definition KEY_AAD_FIELDS : list pystr :=
  [str "schema_version"; str "provider_id"; str "key_id"; str "algorithm"; str "length";
   str "name"; str "state"; str "created_at"; str "activated_at"].
Definition VSPHERE_CUSTOM_ATTRIBUTES : list pystr :=
  [str "x-Component"; str "x-Identifier"; str "x-Vendor"; str "x-Product"; str "x-Product_Version"].
Definition MAX_CUSTOM_ATTRIBUTE_VALUE_BYTES : Z := 512.

Definition Pre_Active : pystr := str "Pre-Active".
Definition Active : pystr := str "Active".

(* ------------------------------------------------------------------ *)
(** ** Module functions *)

(** [_validated_uuid]. *)
Definition _validated_uuid (value : pystr) (label : string) : res pystr :=
  rethrow is_ValueError (ValueError label) (n ← uuid_int value; Ok (uuid_str n)).

Definition json_opt_str (s : option pystr) : json :=
  match s with Some s => JStr s | None => JNull end.

Definition json_opt_int (z : option Z) : json :=
  match z with Some z => JInt z | None => JNull end.

(** The document of [_canonical_aad], in insertion order. *)
Definition aad_document (metadata : StoredKey) : list (pystr * json) :=
  [(str "schema_version", JInt STORE_SCHEMA_VERSION);
   (str "provider_id", JStr (sk_provider_id metadata));
   (str "key_id", JStr (sk_key_id metadata));
   (str "algorithm", JStr (sk_algorithm metadata));
   (str "length", JInt (sk_length metadata));
   (str "name", json_opt_str (sk_name metadata));
   (str "state", JStr (sk_state metadata));
   (str "created_at", JStr (sk_created_at metadata));
   (str "activated_at", json_opt_str (sk_activated_at metadata))] ++
  match sk_custom_attributes metadata with
  | [] => []
  | attributes =>
    [(str "custom_attributes", JDict (dict_of (map (fun kv => (kv.1, JStr kv.2)) attributes)))]
  end.

(** [_canonical_aad]. *)
Definition _canonical_aad (metadata : StoredKey) : res bytes :=
  let document := aad_document metadata in
  _ ← raise_if (negb (bool_decide (document.*1 = KEY_AAD_FIELDS ++
        match sk_custom_attributes metadata with [] => [] | _ => [str "custom_attributes"] end)))
      AssertionError;
  dumps_bytes (JDict document).

(** The loop of [_validated_custom_attributes] over its pairs. *)
Fixpoint normalize_attributes (pairs : list (pystr * json)) (normalized : list (pystr * pystr))
    : res (list (pystr * pystr)) :=
  match pairs with
  | [] => Ok normalized
  | (attribute, value) :: rest =>
    let invalid := ValueError "custom_attributes contains an unsupported or invalid entry." in
    _ ← raise_if (negb (mem attribute VSPHERE_CUSTOM_ATTRIBUTES)) invalid;
    _ ← raise_if (mem attribute normalized.*1) invalid;
    match value with
    | JStr value =>
      encoded ← utf8_encode value;
      _ ← raise_if (MAX_CUSTOM_ATTRIBUTE_VALUE_BYTES <? zlen encoded) invalid;
      normalize_attributes rest (dict_set attribute value normalized)
    | _ => Raise invalid
    end
  end.

(** [_validated_custom_attributes], on pairs whose values may be any JSON value. *)
Definition _validated_custom_attributes (pairs : list (pystr * json)) : res (list (pystr * pystr)) :=
  _ ← raise_if (zlen VSPHERE_CUSTOM_ATTRIBUTES <? zlen pairs)
      (ValueError "custom_attributes contains too many entries.");
  normalized ← normalize_attributes pairs [];
  Ok (sorted_items normalized).

(** [_master_key]. *)
Definition _master_key (secrets_key : pystr) : res bytes :=
  _ ← raise_if (match secrets_key with [] => true | _ => false end)
      (KeyStoreError "ATLASO_SECRETS_KEY is required for the KMIP operational store.");
  encoded ← utf8_encode secrets_key;
  Ok (sha256 (map to_byte (str "atlaso-kmip-master-v1") ++ [x00] ++ encoded)).

(** [_decode_envelope_value]. *)
Definition _decode_envelope_value (envelope : list (pystr * json)) (field : pystr) : res bytes :=
  match dict_get field envelope with
  | Some (JStr value) =>
    rethrow is_ValueError (KeyStoreError "KMIP KEK envelope is invalid.") (b64decode value)
  | _ => Raise (KeyStoreError "KMIP KEK envelope is invalid.")
  end.

(** [str(z)] of an integer refuses more than 4300 digits. *)
Definition int_text_limit (z : Z) : res unit :=
  raise_if (int_max_str_digits <? zlen (digits 10 (Z.abs z)))
    (ValueError "Exceeds the limit for integer string conversion").

(** The payload sealed in a KEK envelope. *)
Definition envelope_payload (envelope : _KekEnvelope) : list (pystr * json) :=
  [(str "kek", JStr (b64encode (kek envelope)));
   (str "generation", JInt (generation envelope));
   (str "commitment", JStr (commitment envelope));
   (str "pending_generation", json_opt_int (pending_generation envelope));
   (str "pending_commitment", json_opt_str (pending_commitment envelope))].

(** The document stored in the KEK file. *)
Definition envelope_document (nonce ciphertext : bytes) : list (pystr * json) :=
  [(str "format", JStr KEK_ENVELOPE_FORMAT);
   (str "nonce", JStr (b64encode nonce));
   (str "ciphertext", JStr (b64encode ciphertext))].

Section Store.
Context `{Aead}.

(** The contents [_write_kek_envelope] gives the KEK file. *)
Definition seal_envelope (master_key : bytes) (envelope : _KekEnvelope) (nonce : bytes) : res bytes :=
  _ ← int_text_limit (generation envelope);
  _ ← match pending_generation envelope with Some g => int_text_limit g | None => Ok tt end;
  plaintext ← dumps_bytes (JDict (envelope_payload envelope));
  _ ← AESGCM master_key;
  ciphertext ← aes_encrypt master_key nonce plaintext KEK_AAD;
  document ← dumps_bytes (JDict (envelope_document nonce ciphertext));
  Ok (document ++ [x0a]).

(** [_write_kek_envelope]: the new contents are staged in a temporary file (whose
    name takes a random UUID), replace the KEK file in one step, and the directory
    is then synchronised. *)
Definition _write_kek_envelope (master_key : bytes) (envelope : _KekEnvelope) : M unit :=
  nonce ← urandom 12;
  contents ← lift (seal_envelope master_key envelope nonce);
  _ ← uuid4;
  _ ← io OSError;
  _ ← modify (set_kek_file (Some contents));
  io OSError.

(** The fields of a version-2 payload, with the type and range checks. *)
Definition payload_envelope (payload : list (pystr * json)) : res _KekEnvelope :=
  let invalid := KeyStoreError "KMIP KEK envelope is invalid." in
  match dict_get (str "kek") payload with
  | Some (JStr encoded_kek) =>
    kek ← b64decode encoded_kek;
    match dict_get (str "generation") payload, dict_get (str "commitment") payload with
    | Some (JInt generation), Some (JStr commitment) =>
      _ ← raise_if (generation <? 0) invalid;
      match default JNull (dict_get (str "pending_generation") payload),
            default JNull (dict_get (str "pending_commitment") payload) with
      | JNull, JNull => Ok (mkKekEnvelope kek generation commitment None None)
      | JInt pending_generation, JStr pending_commitment =>
        _ ← raise_if (negb (pending_generation =? generation + 1)) invalid;
        Ok (mkKekEnvelope kek generation commitment
              (Some pending_generation) (Some pending_commitment))
      | _, _ => Raise invalid
      end
    | _, _ => Raise invalid
    end
  | _ => Raise invalid
  end.

(** The body of the [try] of [_load_or_create_kek] after the file was read. *)
Definition open_envelope (master_bytes contents : bytes) : res _KekEnvelope :=
  let unsupported := KeyStoreError "KMIP KEK envelope format is unsupported." in
  let invalid := KeyStoreError "KMIP KEK envelope is invalid." in
  text ← utf8_decode contents;
  document ← loads text;
  match document with
  | JDict envelope =>
    match default JNull (dict_get (str "format") envelope) with
    | JList _ | JDict _ => Raise TypeError
    | JStr format =>
      _ ← raise_if (negb (mem format [KEK_ENVELOPE_FORMAT; LEGACY_KEK_ENVELOPE_FORMAT])) unsupported;
      nonce ← _decode_envelope_value envelope (str "nonce");
      ciphertext ← _decode_envelope_value envelope (str "ciphertext");
      state ←
        (if decide (format = LEGACY_KEK_ENVELOPE_FORMAT) then
           kek ← aes_decrypt master_bytes nonce ciphertext LEGACY_KEK_AAD;
           Ok (mkKekEnvelope kek 0 [] None None)
         else
           plaintext ← aes_decrypt master_bytes nonce ciphertext KEK_AAD;
           payload ← loads_bytes plaintext;
           match payload with
           | JDict payload => payload_envelope payload
           | _ => Raise invalid
           end);
      _ ← raise_if (negb (zlen (kek state) =? 32)) invalid;
      Ok state
    | _ => Raise unsupported
    end
  | _ => Raise unsupported
  end.

(** The exceptions that [_load_or_create_kek] turns into a [KeyStoreError]. *)
Definition envelope_errors (e : exn) : bool :=
  match e with InvalidTag | OSError => true | _ => is_ValueError e end.

(** The master key that custody in [recovery-master.bin] overrides. *)
Definition recovery_master_key (master_bytes : bytes) : M bytes :=
  sealed ← gets recovery_master;
  match sealed with
  | None => mret master_bytes
  | Some sealed =>
    catch (fun e => match e with OSError | InvalidTag => true | _ => false end)
      (_ ← io OSError;
       _ ← lift (raise_if (negb (zlen sealed =? 60)) (KeyStoreError "KMIP recovery custody is invalid."));
       _ ← lift (AESGCM master_bytes);
       lift (aes_decrypt master_bytes (take 12 sealed) (drop 12 sealed) RECOVERY_AAD))
      (fun _ => lift (Raise (KeyStoreError "KMIP recovery custody could not be authenticated.")))
  end.

(** [_load_or_create_kek].  Reading in text mode also normalises line ends, which
    only the white space of a JSON text can contain. *)
Definition _load_or_create_kek (secrets_key : pystr) (read_only : bool) : M (bytes * _KekEnvelope) :=
  master_bytes ← lift (_master_key secrets_key);
  master_bytes ← recovery_master_key master_bytes;
  _ ← lift (AESGCM master_bytes);
  file ← gets kek_file;
  match file with
  | Some contents =>
    catch envelope_errors
      (_ ← io OSError;
       state ← lift (open_envelope master_bytes contents);
       _ ← (if read_only then mret tt else io OSError);
       mret (master_bytes, state))
      (fun _ => lift (Raise (KeyStoreError
         "KMIP KEK could not be opened with the configured appliance secrets key.")))
  | None =>
    if read_only then lift (Raise (KeyStoreError "KMIP read-only store is incomplete.")) else
    _ ← io OSError;
    kek ← urandom 32;
    master_key ← lift (_master_key secrets_key);
    let state := mkKekEnvelope kek 0 [] None None in
    _ ← _write_kek_envelope master_key state;
    mret (master_key, state)
  end.

(* ------------------------------------------------------------------ *)
(** ** The database *)

(** [ORDER BY provider_id, key_id]: SQLite compares text bytewise in UTF-8, which
    is the order of the code points. *)
Definition pair_le (a b : pystr * pystr) : Prop :=
  match str_compare a.1 b.1 with Lt => True | Eq => str_le a.2 b.2 | Gt => False end.

#[global] Instance pair_le_dec : RelDecision pair_le.
Proof. intros a b. unfold pair_le. destruct (str_compare a.1 b.1); apply _. Defined.

Definition row_le (a b : (pystr * pystr) * Row) : Prop := pair_le a.1 b.1.

#[global] Instance row_le_dec : RelDecision row_le.
Proof. intros a b. unfold row_le. apply _. Defined.

(** [SELECT ... FROM wrapped_keys ORDER BY provider_id, key_id]. *)
Definition all_rows (d : Db) : list Row :=
  (merge_sort row_le (map_to_list (wrapped_keys d))).*2.

Definition row_document (r : Row) : json :=
  JDict [(str "provider_id", JStr (row_provider_id r));
         (str "key_id", JStr (row_key_id r));
         (str "algorithm", JStr (row_algorithm r));
         (str "key_length", JInt (row_key_length r));
         (str "name", json_opt_str (row_name r));
         (str "state", JStr (row_state r));
         (str "created_at", JStr (row_created_at r));
         (str "activated_at", json_opt_str (row_activated_at r));
         (str "nonce", JStr (b64encode (row_nonce r)));
         (str "ciphertext", JStr (b64encode (row_ciphertext r)));
         (str "aad_json", JStr (row_aad_json r))].

Definition commitment_document (d : Db) : json :=
  JDict [(str "format", JStr STORE_COMMITMENT_FORMAT);
         (str "metadata", JList (map (fun kv => JList [JStr kv.1; JStr kv.2])
                                     (sorted_items (map_to_list (store_metadata d)))));
         (str "keys", JList (map row_document (all_rows d)))].

(** [_store_commitment]. *)
Definition _store_commitment (d : Db) : res pystr :=
  document ← dumps_bytes (commitment_document d);
  Ok (sha256_hex document).

(** [connection.rollback()]. *)
Definition rollback : M unit :=
  d ← gets database; modify (set_conn (default empty_db d) false).

(** [connection.commit()]: nothing to do outside a transaction. *)
Definition commit : M unit :=
  t ← gets in_transaction;
  if (t : bool) then
    _ ← io SqliteError;
    d ← gets conn;
    _ ← modify (set_database (Some d));
    modify (set_conn d false)
  else mret tt.

(** [with self._connect() as connection: body]: the transaction is committed when
    the body returns and rolled back when it raises. *)
Definition _connect {A} (body : M A) : M A :=
  _ ← io SqliteError;
  _ ← rollback;
  a ← catch is_Exception body (fun e => _ ← rollback; lift (Raise e));
  _ ← catch is_Exception commit (fun e => _ ← rollback; lift (Raise e));
  mret a.

(** [connection.executescript(STORE_SCHEMA_SQL)]. *)
Definition execute_schema : M unit :=
  _ ← io SqliteError;
  d ← gets database;
  _ ← modify (set_database (Some (default empty_db d)));
  modify (set_conn (default empty_db d) false).

(** SQLite's [length] of a text value stops at the first NUL character. *)
Fixpoint sql_length (s : pystr) : Z :=
  match s with
  | [] => 0
  | c :: s' => if c =? 0 then 0 else 1 + sql_length s'
  end.

(** The CHECK constraints of [wrapped_keys]. *)
Definition row_check (r : Row) : bool :=
  bool_decide (row_algorithm r = str "AES") && (row_key_length r =? 256) &&
  match row_name r with None => true | Some n => (1 <=? sql_length n) && (sql_length n <=? 256) end &&
  mem (row_state r) [Pre_Active; Active] && (zlen (row_nonce r) =? 12).

(** A text parameter is bound as UTF-8. *)
Definition bind_text (s : option pystr) : res unit :=
  match s with None => Ok tt | Some s => _ ← utf8_encode s; Ok tt end.

(** [INSERT INTO wrapped_keys ... VALUES ...]. *)
Definition insert_row (r : Row) : M unit :=
  _ ← lift (bind_text (row_name r));
  read_only ← gets (fun w => self_read_only (self w));
  _ ← lift (raise_if read_only SqliteError);
  d ← gets conn;
  let k := (row_provider_id r, row_key_id r) in
  _ ← lift (raise_if (negb (row_check r)) SqliteError);
  _ ← lift (raise_if (bool_decide (is_Some (wrapped_keys d !! k))) SqliteError);
  modify (set_conn (mkDb (store_metadata d) (<[k := r]> (wrapped_keys d))) true).

(** [UPDATE wrapped_keys SET ... WHERE provider_id = ? AND key_id = ? AND state =
    'Pre-Active'], and its [rowcount]. *)
Definition update_row (provider key state : pystr) (activated_at : pystr)
    (nonce ciphertext : bytes) (aad_json : pystr) : M Z :=
  read_only ← gets (fun w => self_read_only (self w));
  _ ← lift (raise_if read_only SqliteError);
  d ← gets conn;
  match wrapped_keys d !! (provider, key) with
  | Some r =>
    if decide (row_state r = Pre_Active) then
      let r' := mkRow (row_provider_id r) (row_key_id r) (row_algorithm r) (row_key_length r)
                  (row_name r) state (row_created_at r) (Some activated_at) nonce ciphertext aad_json in
      _ ← lift (raise_if (negb (row_check r')) SqliteError);
      _ ← modify (set_conn (mkDb (store_metadata d) (<[(provider, key) := r']> (wrapped_keys d))) true);
      mret 1
    else _ ← modify (set_conn d true); mret 0
  | None => _ ← modify (set_conn d true); mret 0
  end.

(* ------------------------------------------------------------------ *)
(** ** Methods of [WrappedKeyStore] *)

(** [_write_envelope]. *)
Definition _write_envelope (envelope : _KekEnvelope) : M unit :=
  master_key ← gets (fun w => self_master_key (self w));
  _ ← _write_kek_envelope master_key envelope;
  modify (set_envelope envelope).

(** [_verify_store_commitment]. *)
Definition _verify_store_commitment : M unit :=
  d ← gets conn;
  observed ← lift (_store_commitment d);
  read_only ← gets (fun w => self_read_only (self w));
  env ← gets (fun w => self_envelope (self w));
  k ← gets (fun w => self_kek (self w));
  if (read_only : bool) then
    lift (raise_if
      (bool_decide (commitment env = []) || bool_decide (is_Some (pending_commitment env)) ||
       negb (bool_decide (observed = commitment env)))
      (KeyStoreError "KMIP read-only store integrity or transaction state is unavailable."))
  else if bool_decide (commitment env = []) then
    _write_envelope (mkKekEnvelope k (generation env) observed None None)
  else if bool_decide (observed = commitment env) then
    if bool_decide (is_Some (pending_commitment env)) then
      _write_envelope (mkKekEnvelope k (generation env) (commitment env) None None)
    else mret tt
  else if bool_decide (Some observed = pending_commitment env) then
    match pending_generation env with
    | None => lift (Raise AssertionError)
    | Some g => _write_envelope (mkKekEnvelope k g observed None None)
    end
  else lift (Raise (KeyStoreError "KMIP operational store rollback or integrity validation failed.")).

(** [_commit_mutation]. *)
Definition _commit_mutation : M unit :=
  env ← gets (fun w => self_envelope (self w));
  k ← gets (fun w => self_kek (self w));
  d ← gets conn;
  observed ← lift (_store_commitment d);
  _ ← _write_envelope (mkKekEnvelope k (generation env) (commitment env)
                         (Some (generation env + 1)) (Some observed));
  _ ← catch is_Exception commit
        (fun e =>
           _ ← rollback;
           _ ← _write_envelope (mkKekEnvelope k (generation env) (commitment env) None None);
           lift (Raise e));
  _write_envelope (mkKekEnvelope k (generation env + 1) observed None None).

(** [_initialize]. *)
Definition _initialize : M unit :=
  read_only ← gets (fun w => self_read_only (self w));
  _ ← _connect (
    _ ← (if (read_only : bool) then mret tt else execute_schema);
    d ← gets conn;
    _ ← match store_metadata d !! str "schema_version" with
        | None =>
          _ ← lift (raise_if read_only (KeyStoreError "KMIP read-only store schema is incomplete."));
          modify (set_conn (mkDb (<[str "schema_version" := dump_int STORE_SCHEMA_VERSION]>
                                    (store_metadata d)) (wrapped_keys d)) true)
        | Some value =>
          lift (raise_if (negb (bool_decide (value = dump_int STORE_SCHEMA_VERSION)))
                  (KeyStoreError "KMIP operational store schema version is unsupported."))
        end;
    _verify_store_commitment);
  if (read_only : bool) then mret tt else io OSError.

(** [__init__]. *)
Definition __init__ (secrets_key : pystr) (read_only : bool) : M unit :=
  journal ← gets journal_file;
  _ ← lift (raise_if (read_only && journal)
        (KeyStoreError "KMIP offline snapshot requires settled SQLite journal state."));
  db ← gets database;
  file ← gets kek_file;
  _ ← lift (raise_if (xorb (bool_decide (is_Some db)) (bool_decide (is_Some file)))
        (KeyStoreError "KMIP operational store and KEK envelope must exist together."));
  _ ← (if read_only then mret tt else io OSError);
  '(master_key, envelope) ← _load_or_create_kek secrets_key read_only;
  _ ← modify (set_self (mkStore read_only master_key (kek envelope) envelope));
  _initialize.

(** The row [create_key] inserts. *)
Definition key_row (metadata : StoredKey) (nonce ciphertext : bytes) (aad_json : pystr) : Row :=
  mkRow (sk_provider_id metadata) (sk_key_id metadata) (sk_algorithm metadata) (sk_length metadata)
    (sk_name metadata) (sk_state metadata) (sk_created_at metadata) (sk_activated_at metadata)
    nonce ciphertext aad_json.

(** [not 1 <= len(name) <= 256] for a name that is given. *)
Definition bad_name (name : option pystr) : bool :=
  match name with Some n => negb ((1 <=? zlen n) && (zlen n <=? 256)) | None => false end.

(** [create_key]. *)
Definition create_key (provider_id : pystr) (name : option pystr)
    (custom_attributes : list (pystr * pystr)) : M StoredKey :=
  normalized_provider ← lift (_validated_uuid provider_id "provider_id must be a UUID.");
  normalized_custom_attributes ←
    lift (_validated_custom_attributes (map (fun kv => (kv.1, JStr kv.2)) custom_attributes));
  _ ← lift (raise_if (bad_name name) (ValueError "name must contain 1 to 256 characters."));
  key ← uuid4;
  created_at ← now_isoformat;
  let metadata := mkStoredKey normalized_provider (uuid_str key) (str "AES") 256 name Pre_Active
                    created_at None normalized_custom_attributes in
  aad ← lift (_canonical_aad metadata);
  plaintext ← urandom 32;
  nonce ← urandom 12;
  k ← gets (fun w => self_kek (self w));
  _ ← lift (AESGCM k);
  ciphertext ← lift (aes_encrypt k nonce plaintext aad);
  _connect (
    _ ← _verify_store_commitment;
    aad_json ← lift (utf8_decode aad);
    _ ← insert_row (key_row metadata nonce ciphertext aad_json);
    _ ← _commit_mutation;
    mret metadata).

(** [_row]. *)
Definition _row (d : Db) (provider_id key_id : pystr) : res Row :=
  normalized_provider ← _validated_uuid provider_id "provider_id must be a UUID.";
  normalized_key ← _validated_uuid key_id "key_id must be a UUID.";
  match wrapped_keys d !! (normalized_provider, normalized_key) with
  | None => Raise (KeyNotFoundError "KMIP key was not found in the authenticated provider.")
  | Some r => Ok r
  end.

(** [_metadata]. *)
Definition _metadata (r : Row) : res StoredKey :=
  custom_attributes ←
    rethrow (fun e => match e with TypeError => true | _ => is_ValueError e end)
      (KeyStoreError "KMIP key metadata integrity validation failed.")
      (aad_document ← loads (row_aad_json r);
       match aad_document with
       | JDict aad_document =>
         match default (JDict []) (dict_get (str "custom_attributes") aad_document) with
         | JDict raw_custom_attributes => _validated_custom_attributes raw_custom_attributes
         | _ => Raise (ValueError "invalid associated data")
         end
       | _ => Raise (ValueError "invalid associated data")
       end);
  Ok (mkStoredKey (row_provider_id r) (row_key_id r) (row_algorithm r) (row_key_length r)
        (row_name r) (row_state r) (row_created_at r) (row_activated_at r) custom_attributes).

(** [_decrypt_row] with the key-encryption key [k]. *)
Definition _decrypt_row (k : bytes) (r : Row) : res (StoredKey * bytes) :=
  metadata ← _metadata r;
  expected_aad ← _canonical_aad metadata;
  aad ← utf8_encode (row_aad_json r);
  _ ← raise_if (negb (bool_decide (aad = expected_aad)))
      (KeyStoreError "KMIP key metadata integrity validation failed.");
  plaintext ←
    rethrow (fun e => match e with InvalidTag => true | _ => false end)
      (KeyStoreError "KMIP wrapped key integrity validation failed.")
      (_ ← AESGCM k; aes_decrypt k (row_nonce r) (row_ciphertext r) expected_aad);
  _ ← raise_if (negb (zlen plaintext =? 32)) (KeyStoreError "KMIP wrapped key length is invalid.");
  Ok (metadata, plaintext).

(** The common part of [get_key], [get_metadata] and [activate_key]. *)
Definition verified_row (provider_id key_id : pystr) : M (StoredKey * bytes) :=
  _ ← _verify_store_commitment;
  d ← gets conn;
  r ← lift (_row d provider_id key_id);
  k ← gets (fun w => self_kek (self w));
  lift (_decrypt_row k r).

(** [get_key]. *)
Definition get_key (provider_id key_id : pystr) : M (StoredKey * bytes) :=
  _connect (verified_row provider_id key_id).

(** [get_metadata]. *)
Definition get_metadata (provider_id key_id : pystr) : M StoredKey :=
  _connect ('(metadata, _) ← verified_row provider_id key_id; mret metadata).

(** The metadata of an activated key. *)
Definition activated (metadata : StoredKey) (at_ : pystr) : StoredKey :=
  mkStoredKey (sk_provider_id metadata) (sk_key_id metadata) (sk_algorithm metadata)
    (sk_length metadata) (sk_name metadata) Active (sk_created_at metadata) (Some at_)
    (sk_custom_attributes metadata).

(** [activate_key]. *)
Definition activate_key (provider_id key_id : pystr) : M StoredKey :=
  _connect (
    '(metadata, plaintext) ← verified_row provider_id key_id;
    if decide (sk_state metadata = Active) then mret metadata else
    _ ← lift (raise_if (negb (bool_decide (sk_state metadata = Pre_Active)))
          (KeyStateError "KMIP key cannot be activated from its current state."));
    activated_at ← now_isoformat;
    let updated := activated metadata activated_at in
    nonce ← urandom 12;
    new_aad ← lift (_canonical_aad updated);
    k ← gets (fun w => self_kek (self w));
    _ ← lift (AESGCM k);
    ciphertext ← lift (aes_encrypt k nonce plaintext new_aad);
    aad_json ← lift (utf8_decode new_aad);
    rowcount ← update_row (sk_provider_id updated) (sk_key_id updated) (sk_state updated)
                 activated_at nonce ciphertext aad_json;
    _ ← lift (raise_if (negb (rowcount =? 1)) (KeyStateError "KMIP key activation was not applied."));
    _ ← _commit_mutation;
    mret updated).

(** [ORDER BY created_at, key_id]. *)
Definition located_le (a b : Row) : Prop :=
  pair_le (row_created_at a, row_key_id a) (row_created_at b, row_key_id b).

#[global] Instance located_le_dec : RelDecision located_le.
Proof. intros a b. unfold located_le. apply _. Defined.

(** The WHERE clause of [locate_keys]. *)
Definition located (provider : pystr) (state name : option pystr) (r : Row) : bool :=
  bool_decide (row_provider_id r = provider) &&
  match state with Some s => bool_decide (row_state r = s) | None => true end &&
  match name with Some n => bool_decide (row_name r = Some n) | None => true end.

(** [locate_keys]. *)
Definition locate_keys (provider_id : pystr) (state name : option pystr) (limit : Z) : M (list pystr) :=
  normalized_provider ← lift (_validated_uuid provider_id "provider_id must be a UUID.");
  _ ← lift (raise_if (negb (mem state [None; Some Pre_Active; Some Active]))
        (ValueError "state is outside the supported KMIP lifecycle."));
  _ ← lift (raise_if (negb ((1 <=? limit) && (limit <=? 1024)))
        (ValueError "limit must be between 1 and 1024."));
  _ ← lift (raise_if (bad_name name) (ValueError "name must contain 1 to 256 characters."));
  _connect (
    _ ← _verify_store_commitment;
    d ← gets conn;
    _ ← lift (bind_text name);
    mret (map row_key_id (take (Z.to_nat limit)
      (merge_sort located_le
         (filter (fun r => located normalized_provider state name r = true) (all_rows d)))))).

(** The counts of one provider. *)
Record Counts : Type := mkCounts { pre_active : Z; active : Z; total : Z }.

Definition zero_counts : Counts := mkCounts 0 0 0.

Definition count_state (state : pystr) (c : Counts) : Counts :=
  if decide (state = Pre_Active) then mkCounts (pre_active c + 1) (active c) (total c + 1)
  else mkCounts (pre_active c) (active c + 1) (total c + 1).

(** The loop of [lifecycle_counts] over the rows. *)
Fixpoint count_rows (k : bytes) (rows : list Row) (counts : list (pystr * Counts))
    : res (list (pystr * Counts)) :=
  match rows with
  | [] => Ok counts
  | r :: rows =>
    '(metadata, _) ← _decrypt_row k r;
    let p := sk_provider_id metadata in
    let c := default zero_counts (dict_get p counts) in
    count_rows k rows (dict_set p (count_state (sk_state metadata) c) counts)
  end.

(** [lifecycle_counts]. *)
Definition lifecycle_counts (provider_ids : list pystr) : M (list (pystr * Counts)) :=
  providers ← lift (mapM (fun p => _validated_uuid p "provider_id must be a UUID.") provider_ids);
  let counts := dict_of (map (fun p => (p, zero_counts)) providers) in
  _connect (
    _ ← _verify_store_commitment;
    d ← gets conn;
    k ← gets (fun w => self_kek (self w));
    lift (count_rows k (all_rows d) counts)).

(** [close]. *)
Definition close : M unit :=
  modify (fun w => set_self (mkStore (self_read_only (self w)) [] [] (self_envelope (self w))) w).

End Store.
