(* ===== verification/StoreSpec.v ===== *)
(** Correctness of the key store: the KEK envelope round trip, the invariant that
    ties the envelope to the database, its preservation by every method under
    every fault, and the refinement of the abstract map of keys. *)

From S2P Require Import Prelude Utf8 PyText Uuid Json Base64 Sha256 World Store.
Open Scope Z_scope.

(* ------------------------------------------------------------------ *)
(** ** Text that JSON and UTF-8 carry *)

Definition scalar_text (s : pystr) : Prop := Forall (fun c => is_scalar c = true) s.

Lemma ascii_scalar s : Forall (fun c => 0 <= c < 128) s -> scalar_text s.
Proof. intros H. eapply Forall_impl; [exact H|]. intros c Hc. apply is_scalar_spec. cbn in *. lia. Qed.

Lemma hex_ascii s : Forall (fun c => is_lower_hex c = true) s -> Forall (fun c => 0 <= c < 128) s.
Proof. intros H. eapply Forall_impl; [exact H|]. intros c Hc. apply is_lower_hex_lt in Hc. lia. Qed.

(** A commitment in an envelope is a SHA-256 digest in hexadecimal. *)
Definition is_digest (c : pystr) : Prop :=
  length c = 64%nat /\ Forall (fun x => is_lower_hex x = true) c.

Lemma digest_scalar c : is_digest c -> scalar_text c.
Proof. intros [_ H]. by apply ascii_scalar, hex_ascii. Qed.

Lemma digest_nonempty c : is_digest c -> c <> [].
Proof. intros [H _] ->. done. Qed.

Section Spec.
Context `{Aead} {laws : AeadLaws}.

Lemma store_commitment_digest d c : _store_commitment d = Ok c -> is_digest c.
Proof.
  unfold _store_commitment. intros E. res_inv. split; [apply sha256_hex_length|apply bytes_hex_lower].
Qed.

(* ------------------------------------------------------------------ *)
(** ** Sealing and opening an envelope *)

(** The envelopes the store writes. *)
Record writable (e : _KekEnvelope) : Prop := {
  wr_kek : length (kek e) = 32%nat;
  wr_generation : 0 <= generation e;
  wr_commitment : commitment e = [] \/ is_digest (commitment e);
  wr_pending : (pending_generation e = None /\ pending_commitment e = None) \/
               (pending_generation e = Some (generation e + 1) /\
                exists c, pending_commitment e = Some c /\ is_digest c)
}.

Lemma int_text_limit_Ok z u : int_text_limit z = Ok u -> dumpable (JInt z).
Proof. unfold int_text_limit. intros E. res_inv. cbn. lia. Qed.

Lemma payload_dumpable e :
  writable e -> dumpable (JInt (generation e)) ->
  (forall g, pending_generation e = Some g -> dumpable (JInt g)) ->
  dumpable (JDict (envelope_payload e)).
Proof.
  intros [_ _ Hc Hp] Hg Hpg. apply dumpable_dict. split; [by apply (bool_decide_unpack _)|].
  assert (scalar_text (commitment e)) as Hs by (destruct Hc as [->|]; [constructor|by apply digest_scalar]).
  repeat (apply Forall_cons; split); [..|constructor]; (split; [by repeat constructor|]).
  - by apply ascii_scalar, b64encode_ascii.
  - done.
  - done.
  - cbn. destruct (pending_generation e); [by apply Hpg|done].
  - cbn. destruct Hp as [[_ ->]|(_&c&->&Hd)]; [done|by apply digest_scalar].
Qed.

Lemma document_dumpable n c : dumpable (JDict (envelope_document n c)).
Proof.
  apply dumpable_dict. split; [by apply (bool_decide_unpack _)|].
  repeat (apply Forall_cons; split); [..|constructor]; (split; [by repeat constructor|]).
  - by repeat constructor.
  - by apply ascii_scalar, b64encode_ascii.
  - by apply ascii_scalar, b64encode_ascii.
Qed.

(** The payload of a writable envelope reads back as that envelope. *)
Lemma payload_envelope_payload e items :
  writable e -> sort_dicts (JDict (envelope_payload e)) = JDict items ->
  payload_envelope items = Ok e.
Proof.
  intros [Hk Hg _ Hp] E.
  assert (NoDup (envelope_payload e).*1) as Hnd by by apply (bool_decide_unpack _).
  unfold payload_envelope. rewrite !(dict_get_sort_dicts _ _ _ Hnd E).
  clear E. destruct e as [k g c pg pc]. cbn in Hk, Hg, Hp. unfold envelope_payload. dict_simpl. cbn.
  rewrite b64decode_encode. cbn.
  replace (g <? 0) with false by lia. cbn.
  destruct Hp as [[-> ->]|(->&c'&->&_)]; [done|]. cbn. by rewrite Z.eqb_refl.
Qed.

(** What a sealed envelope holds. *)
Lemma seal_envelope_Ok mk e nonce contents :
  writable e -> seal_envelope mk e nonce = Ok contents ->
  exists plaintext ciphertext items,
    aes_decrypt mk nonce ciphertext KEK_AAD = Ok plaintext /\
    loads_bytes plaintext = Ok (JDict items) /\ payload_envelope items = Ok e /\
    contents = map to_byte (dumps_compact (JDict (envelope_document nonce ciphertext)) ++ [10]).
Proof.
  intros Hw E. unfold seal_envelope in E.
  apply bind_Ok in E as (u&Hg&E). apply bind_Ok in E as (u'&Hpg&E).
  apply bind_Ok in E as (p&Hp&E). apply bind_Ok in E as (u2&_&E).
  apply bind_Ok in E as (c&Hc&E). apply bind_Ok in E as (doc&Hdoc&E).
  assert (dumpable (JDict (envelope_payload e))) as Hd.
  { apply payload_dumpable; [done|by eapply int_text_limit_Ok|].
    intros g Eg. rewrite Eg in Hpg. by eapply int_text_limit_Ok. }
  rewrite (dumps_bytes_ok _ (document_dumpable nonce c)) in Hdoc.
  exists p, c. eexists. split_and!; [by apply aead_roundtrip|by apply loads_bytes_dumps| |].
  - by apply payload_envelope_payload.
  - rewrite map_app. change (map to_byte [10]) with [x0a]. congruence.
Qed.

(** [_load_or_create_kek] reads back what [_write_kek_envelope] wrote. *)
Lemma open_seal mk e nonce contents :
  writable e -> seal_envelope mk e nonce = Ok contents -> open_envelope mk contents = Ok e.
Proof.
  intros Hw E. apply seal_envelope_Ok in E as (p&c&items&Hdec&Hl&Hp&->); [|done].
  pose proof (document_dumpable nonce c) as Hdoc.
  unfold open_envelope. erewrite (utf8_decode_encode false); last first.
  { apply utf8_encode_ascii, Forall_app. split; [by apply dumps_compact_ascii|by repeat constructor]. }
  cbn [mbind res_bind]. rewrite loads_dumps_line by done. cbn [mbind res_bind].
  destruct (sort_dicts (JDict (envelope_document nonce c))) as [| | | | | |doc] eqn:Es; try done.
  unfold _decode_envelope_value.
  rewrite !(dict_get_sort_dicts _ _ _ (proj1 (proj1 (dumpable_dict _) Hdoc)) Es). clear Es Hdoc.
  unfold envelope_document. dict_simpl. cbn [sort_dicts].
  rewrite !b64decode_encode. unfold mem. rewrite bool_decide_eq_true_2 by (by left).
  cbn [mbind res_bind rethrow raise_if negb].
  unfold KEK_ENVELOPE_FORMAT, LEGACY_KEK_ENVELOPE_FORMAT. str_decide.
  rewrite Hdec. cbn [mbind res_bind]. rewrite Hl. cbn [mbind res_bind]. rewrite Hp. cbn [mbind res_bind].
  unfold zlen. by rewrite (wr_kek e Hw).
Qed.
(* ------------------------------------------------------------------ *)
(** ** Custom attributes and associated data *)

(** The attributes [_validated_custom_attributes] returns. *)
Record valid_attributes (l : list (pystr * pystr)) : Prop := {
  va_keys : NoDup l.*1;
  va_supported : Forall (fun kv => kv.1 ∈ VSPHERE_CUSTOM_ATTRIBUTES) l;
  va_values : Forall (fun kv => exists b, utf8_encode kv.2 = Ok b /\ zlen b <= MAX_CUSTOM_ATTRIBUTE_VALUE_BYTES) l;
  va_sorted : sorted_items l = l
}.

Definition json_attributes (l : list (pystr * pystr)) : list (pystr * json) :=
  map (fun kv => (kv.1, JStr kv.2)) l.

Lemma mem_spec {A} `{EqDecision A} (x : A) l : mem x l = true <-> x ∈ l.
Proof. unfold mem. apply bool_decide_eq_true. Qed.

Lemma mem_spec_false {A} `{EqDecision A} (x : A) l : mem x l = false <-> x ∉ l.
Proof. unfold mem. apply bool_decide_eq_false. Qed.

(** What the loop accumulates. *)
Lemma normalize_attributes_Ok pairs acc l :
  normalize_attributes pairs acc = Ok l ->
  NoDup acc.*1 ->
  exists new, pairs = json_attributes new /\ l = acc ++ new /\ NoDup (acc ++ new).*1 /\
    Forall (fun kv => kv.1 ∈ VSPHERE_CUSTOM_ATTRIBUTES) new /\
    Forall (fun kv => exists b, utf8_encode kv.2 = Ok b /\ zlen b <= MAX_CUSTOM_ATTRIBUTE_VALUE_BYTES) new.
Proof.
  revert acc; induction pairs as [|[a v] pairs IH]; intros acc E Hnd; cbn in E.
  - injection E as <-. exists []. rewrite app_nil_r. done.
  - apply bind_Ok in E as (?&Hs&E). apply raise_if_Ok, negb_false_iff, mem_spec in Hs.
    apply bind_Ok in E as (?&Hd&E). apply raise_if_Ok, mem_spec_false in Hd.
    destruct v as [| | | |v| |]; try done.
    apply bind_Ok in E as (b&Hb&E). apply bind_Ok in E as (?&Hl&E). apply raise_if_Ok, Z.ltb_ge in Hl.
    rewrite dict_set_absent in E by done.
    apply IH in E as (new&->&->&Hn&Hsup&Hval).
    2: { rewrite fmap_app. apply NoDup_app. split_and!; [done|set_solver|apply NoDup_singleton]. }
    exists ((a, v) :: new). rewrite <- app_assoc in *. cbn in *. split_and!; try done.
    + constructor; done.
    + constructor; [eauto|done].
Qed.

Lemma normalize_attributes_total new acc :
  NoDup (acc ++ new).*1 ->
  Forall (fun kv => kv.1 ∈ VSPHERE_CUSTOM_ATTRIBUTES) new ->
  Forall (fun kv => exists b, utf8_encode kv.2 = Ok b /\ zlen b <= MAX_CUSTOM_ATTRIBUTE_VALUE_BYTES) new ->
  normalize_attributes (json_attributes new) acc = Ok (acc ++ new).
Proof.
  revert acc; induction new as [|[a v] new IH]; intros acc Hnd Hs Hv; cbn; [by rewrite app_nil_r|].
  apply Forall_cons in Hs as [Ha Hs]. apply Forall_cons in Hv as [(b&Hb&Hl) Hv]. cbn in Ha, Hb.
  rewrite (proj2 (mem_spec _ _) Ha). cbn.
  assert (a ∉ acc.*1) as Hn.
  { rewrite fmap_app in Hnd. apply NoDup_app in Hnd as (_&Hx&_). intros Hin. apply (Hx a Hin). left. }
  rewrite (proj2 (mem_spec_false _ _) Hn). cbn. rewrite Hb. cbn.
  rewrite (proj2 (Z.ltb_ge _ _) Hl). cbn. rewrite dict_set_absent by done.
  rewrite IH, <- app_assoc; [done| |done|done]. by rewrite <- app_assoc.
Qed.

Lemma json_attributes_length l : zlen (json_attributes l) = zlen l.
Proof. unfold zlen, json_attributes. by rewrite length_map. Qed.

Lemma json_attributes_keys l : (json_attributes l).*1 = l.*1.
Proof. apply (map_keys JStr). Qed.

(** Validation returns a sorted, duplicate-free list of supported attributes. *)
Lemma validated_attributes_Ok pairs l :
  _validated_custom_attributes pairs = Ok l -> valid_attributes l.
Proof.
  unfold _validated_custom_attributes. intros E.
  apply bind_Ok in E as (?&_&E). apply bind_Ok in E as (n&E&El). injection El as <-.
  apply normalize_attributes_Ok in E as (new&->&->&Hnd&Hs&Hv); [|constructor]. cbn in *.
  pose proof (sorted_items_perm new) as Hp. split; rewrite ?Hp; try done.
  apply sorted_items_unique; [by rewrite Hp|done].
Qed.

Lemma supported_length l : valid_attributes l -> zlen l <= zlen VSPHERE_CUSTOM_ATTRIBUTES.
Proof.
  intros [Hnd Hs _ _]. unfold zlen. rewrite <- (length_fmap fst l). apply inj_le, submseteq_length.
  apply NoDup_submseteq; [done|]. intros x (kv&->&Hkv)%list_elem_of_fmap.
  rewrite Forall_forall in Hs. by apply Hs.
Qed.

(** Validating again what was already validated changes nothing. *)
Lemma validated_attributes_idem l :
  valid_attributes l -> _validated_custom_attributes (json_attributes l) = Ok l.
Proof.
  intros Hl. pose proof (supported_length l Hl). destruct Hl as [Hnd Hs Hv Hsort].
  unfold _validated_custom_attributes. rewrite json_attributes_length.
  rewrite (proj2 (Z.ltb_ge _ _)) by done. cbn.
  rewrite normalize_attributes_total by done. cbn [mbind res_bind app]. by rewrite Hsort.
Qed.

(** The metadata of a stored key: text that UTF-8 can carry, an AES-256 key,
    validated attributes. *)
Record meta_ok (m : StoredKey) : Prop := {
  mo_provider : scalar_text (sk_provider_id m);
  mo_key : scalar_text (sk_key_id m);
  mo_algorithm : sk_algorithm m = str "AES";
  mo_length : sk_length m = 256;
  mo_name : match sk_name m with Some n => scalar_text n | None => True end;
  mo_state : sk_state m = Pre_Active \/ sk_state m = Active;
  mo_created : scalar_text (sk_created_at m);
  mo_activated : match sk_activated_at m with Some a => scalar_text a | None => True end;
  mo_attributes : valid_attributes (sk_custom_attributes m)
}.

Lemma attribute_scalar b kv :
  utf8_encode kv = Ok b -> scalar_text kv.
Proof. intros E. apply utf8_encode_ok. eauto. Qed.

Lemma supported_scalar k : k ∈ VSPHERE_CUSTOM_ATTRIBUTES -> scalar_text k.
Proof. revert k. apply Forall_forall. by repeat constructor. Qed.

Lemma json_attributes_dumpable l : valid_attributes l -> dumpable (JDict (json_attributes l)).
Proof.
  intros [Hnd Hs Hv _]. apply dumpable_dict. split; [by rewrite json_attributes_keys|].
  unfold json_attributes. apply Forall_map. rewrite Forall_forall in Hs, Hv |- *.
  intros kv Hin. cbn. split; [by apply supported_scalar, Hs|].
  destruct (Hv kv Hin) as (b&Hb&_). by eapply attribute_scalar.
Qed.

Lemma dict_of_json_attributes l : valid_attributes l -> dict_of (json_attributes l) = json_attributes l.
Proof. intros Hl. apply dict_of_NoDup. rewrite json_attributes_keys. apply va_keys, Hl. Qed.

Lemma aad_document_keys m : (aad_document m).*1 = KEY_AAD_FIELDS ++
  match sk_custom_attributes m with [] => [] | _ => [str "custom_attributes"] end.
Proof. unfold aad_document. by destruct (sk_custom_attributes m). Qed.

Lemma aad_document_dumpable m : meta_ok m -> dumpable (JDict (aad_document m)).
Proof.
  intros Hm. apply dumpable_dict. rewrite aad_document_keys.
  split; [destruct (sk_custom_attributes m); by apply (bool_decide_unpack _)|].
  destruct Hm as [Hp Hk Ha Hl Hn Hs Hc Hact Hat]. unfold aad_document.
  apply Forall_app. split.
  - repeat (apply Forall_cons; split); [..|constructor]; (split; [by repeat constructor|]); cbn; try done.
    + rewrite Ha. by repeat constructor.
    + by rewrite Hl.
    + by destruct (sk_name m).
    + destruct Hs as [-> | ->]; by repeat constructor.
    + by destruct (sk_activated_at m).
  - destruct (sk_custom_attributes m) as [|a l] eqn:E; [constructor|].
    fold (json_attributes (a :: l)). rewrite dict_of_json_attributes by done.
    constructor; [|constructor]. split; [by repeat constructor|]. by apply json_attributes_dumpable.
Qed.

(** The associated data of well-formed metadata is its canonical JSON dump. *)
Lemma canonical_aad_ok m :
  meta_ok m ->
  _canonical_aad m = Ok (map to_byte (dumps_compact (JDict (aad_document m)))) /\
  utf8_decode (map to_byte (dumps_compact (JDict (aad_document m))))
    = Ok (dumps_compact (JDict (aad_document m))).
Proof.
  intros Hm. pose proof (aad_document_dumpable m Hm) as Hd. split.
  - unfold _canonical_aad. rewrite aad_document_keys, bool_decide_eq_true_2 by done. cbn [negb raise_if mbind res_bind].
    by apply dumps_bytes_ok.
  - apply (utf8_decode_encode false). by apply utf8_encode_ascii, dumps_compact_ascii.
Qed.

(** The custom attributes are read back from the associated data. *)
Lemma sort_dicts_attributes l :
  valid_attributes l -> sort_dicts (JDict (json_attributes l)) = JDict (json_attributes l).
Proof.
  intros Hl. rewrite sort_dicts_dict by (rewrite json_attributes_keys; apply va_keys, Hl). f_equal.
  unfold json_attributes. rewrite sorted_items_map by apply va_keys, Hl. rewrite va_sorted by done.
  rewrite map_map. by apply map_ext.
Qed.

Lemma aad_attributes m items :
  meta_ok m -> sort_dicts (JDict (aad_document m)) = JDict items ->
  default (JDict []) (dict_get (str "custom_attributes") items) = JDict (json_attributes (sk_custom_attributes m)).
Proof.
  intros Hm E. pose proof (aad_document_dumpable m Hm) as [Hnd _]%dumpable_dict.
  rewrite (dict_get_sort_dicts _ _ _ Hnd E). clear E. pose proof (mo_attributes m Hm) as Hat.
  unfold aad_document. destruct (sk_custom_attributes m) as [|a l]; [by dict_simpl|].
  fold (json_attributes (a :: l)). rewrite dict_of_json_attributes by done. cbn [app]. dict_simpl.
  by apply sort_dicts_attributes.
Qed.

(** The row of a key decrypts to the metadata and the key it was made of. *)
Lemma decrypt_key_row K m nonce plaintext aad aad_json ciphertext :
  meta_ok m -> length K = 32%nat -> length plaintext = 32%nat ->
  _canonical_aad m = Ok aad -> utf8_decode aad = Ok aad_json ->
  aes_encrypt K nonce plaintext aad = Ok ciphertext ->
  _decrypt_row K (key_row m nonce ciphertext aad_json) = Ok (m, plaintext).
Proof.
  intros Hm HK Hpt Haad Hj Henc. pose proof (canonical_aad_ok m Hm) as [E1 E2].
  assert (aad = map to_byte (dumps_compact (JDict (aad_document m)))) as -> by congruence.
  assert (aad_json = dumps_compact (JDict (aad_document m))) as -> by congruence.
  unfold _decrypt_row, _metadata. cbn [row_aad_json key_row].
  rewrite loads_dumps_compact by by apply aad_document_dumpable. cbn [mbind res_bind].
  destruct (sort_dicts (JDict (aad_document m))) as [| | | | | |items] eqn:Es; try done.
  rewrite (aad_attributes m items Hm Es), validated_attributes_idem by apply mo_attributes, Hm.
  cbn [rethrow mbind res_bind]. 
  match goal with |- context [_canonical_aad ?x] => replace x with m by by destruct m end.
  rewrite Haad. cbn [mbind res_bind]. rewrite (utf8_encode_decode _ _ Hj). cbn [mbind res_bind].
  rewrite bool_decide_eq_true_2 by done. cbn [negb raise_if mbind res_bind].
  rewrite aead_key by done. cbn [mbind res_bind row_nonce row_ciphertext key_row].
  rewrite (aead_roundtrip _ _ _ _ _ Henc). cbn [rethrow mbind res_bind]. unfold zlen. by rewrite Hpt.
Qed.
End Spec.
