(* ===== verification/StoreInv.v ===== *)
(** The invariant of a running key store and its preservation by every method,
    whatever random bytes, clock values and faults the world supplies.

    The invariant is stated for a database content [d]: the database holds [d],
    the KEK file opens, under the store's master key, to an envelope that agrees
    with [d], and so does the envelope in memory.  It also holds where the machine
    stops inside a method, so that it is what a restart finds. *)

From S2P Require Import Prelude Utf8 PyText Uuid Json Base64 Sha256 World Store StoreSpec.
Open Scope Z_scope.

Section Inv.
Context `{Aead} {laws : AeadLaws}.
Context (mk K : bytes) (recovery : option bytes).

(** The envelope accepts the database content [d]: its commitment or its pending
    commitment is that of [d]; an envelope without a commitment is a new store's. *)
Definition agrees (e : _KekEnvelope) (d : Db) : Prop :=
  commitment e = [] \/
  exists c, _store_commitment d = Ok c /\ (commitment e = c \/ pending_commitment e = Some c).

(** The KEK file opens to [e]. *)
Definition file_holds (e : _KekEnvelope) (w : World) : Prop :=
  exists contents, kek_file w = Some contents /\ open_envelope mk contents = Ok e.

(** The part of the invariant that concerns the envelope. *)
Record env_inv (d : Db) (w : World) : Prop := {
  ei_file : exists e, file_holds e w /\ kek e = K /\ agrees e d;
  ei_recovery : recovery_master w = recovery;
  ei_read_only : self_read_only (self w) = false;
  ei_master : self_master_key (self w) = mk;
  ei_kek : self_kek (self w) = K;
  ei_generation : 0 <= generation (self_envelope (self w));
  ei_pending : forall c, pending_commitment (self_envelope (self w)) = Some c ->
    pending_generation (self_envelope (self w)) = Some (generation (self_envelope (self w)) + 1);
  ei_agrees : agrees (self_envelope (self w)) d
}.

(** A row decrypts to well-formed metadata. *)
Definition row_ok (k : pystr * pystr) (r : Row) : Prop :=
  (row_provider_id r, row_key_id r) = k /\ row_check r = true /\
  exists m plaintext, _decrypt_row K r = Ok (m, plaintext) /\ meta_ok m.

Record db_ok (d : Db) : Prop := {
  do_schema : store_metadata d !! str "schema_version" = Some (dump_int STORE_SCHEMA_VERSION);
  do_metadata : map_Forall (fun name value => scalar_text name /\ scalar_text value) (store_metadata d);
  do_rows : map_Forall row_ok (wrapped_keys d)
}.

(** The invariant. *)
Record store_inv (d : Db) (w : World) : Prop := {
  si_kek : length K = 32%nat;
  si_env : env_inv d w;
  si_database : database w = Some d;
  si_db : db_ok d
}.

(** The envelope in memory is settled on [d]. *)
Definition settled (d : Db) (w : World) : Prop :=
  _store_commitment d = Ok (commitment (self_envelope (self w))) /\
  pending_commitment (self_envelope (self w)) = None.

(** [env_inv] depends on the KEK file, the recovery file and the store object only. *)
Lemma env_inv_ext d w w' :
  env_inv d w -> kek_file w' = kek_file w -> recovery_master w' = recovery_master w ->
  self w' = self w -> env_inv d w'.
Proof.
  intros [? ? ? ? ? ? ? ?] Hf Hr Hs. split; rewrite ?Hs, ?Hr; try done.
  unfold file_holds in *. by rewrite Hf.
Qed.

Lemma store_inv_ext d w w' :
  store_inv d w -> kek_file w' = kek_file w -> recovery_master w' = recovery_master w ->
  self w' = self w -> database w' = database w -> store_inv d w'.
Proof.
  intros [? He ? ?] Hf Hr Hs Hd. split; rewrite ?Hd; try done. by eapply env_inv_ext.
Qed.

(** The database and its connection, which envelope writes leave alone. *)
Definition same_db (w w' : World) : Prop :=
  database w' = database w /\ conn w' = conn w /\ in_transaction w' = in_transaction w.

Lemma wp_write_envelope d e (w : World) :
  length K = 32%nat -> env_inv d w -> writable e -> kek e = K -> agrees e d ->
  wp (_write_envelope e) (fun r w' =>
    env_inv d w' /\ same_db w w' /\
    match r with
    | Ok _ => self_envelope (self w') = e /\ file_holds e w'
    | Raise _ => self w' = self w
    end) w.
Proof.
  intros HK Hi Hw Hk Ha. unfold _write_envelope, _write_kek_envelope.
  apply wp_bind, wp_gets. rewrite (ei_master _ _ Hi).
  apply wp_bind, wp_bind, wp_urandom. intros nonce rnd Hn.
  apply wp_bind, wp_lift. destruct (seal_envelope mk e nonce) as [contents|x] eqn:Hs; last first.
  { split; [by eapply env_inv_ext|done]. }
  apply open_seal in Hs; [|done].
  apply wp_bind, wp_uuid4. intros n rnd' _.
  apply wp_bind, wp_io; intros f; [|by (split; [by eapply env_inv_ext|])..].
  apply wp_bind, wp_modify.
  assert (file_holds e (set_kek_file (Some contents) w)) as Hf by by exists contents.
  apply wp_io; intros f'.
  - apply wp_modify. split; [|done].
    split; cbn; try apply Hi; try done; [by exists e| |].
    + apply Hw.
    + intros c Hc. destruct (wr_pending _ Hw) as [[_ ?]|[? _]]; congruence.
  - split; [|done]. split; try apply Hi. by exists e.
  - split; [|done]. split; try apply Hi. by exists e.
Qed.

Lemma writable_settled k g c :
  length k = 32%nat -> 0 <= g -> is_digest c -> writable (mkKekEnvelope k g c None None).
Proof. intros. split; cbn; auto. Qed.

Lemma writable_pending k g c c' :
  length k = 32%nat -> 0 <= g -> is_digest c -> is_digest c' ->
  writable (mkKekEnvelope k g c (Some (g + 1)) (Some c')).
Proof. intros. split; cbn; eauto 6. Qed.

(** The write of a settled envelope. *)
Lemma wp_write_settled d g c w :
  length K = 32%nat -> env_inv d w -> 0 <= g -> _store_commitment d = Ok c ->
  wp (_write_envelope (mkKekEnvelope K g c None None)) (fun r w' =>
    env_inv d w' /\ same_db w w' /\
    match r with
    | Ok _ => settled d w' /\ generation (self_envelope (self w')) = g
    | Raise _ => self w' = self w
    end) w.
Proof.
  intros HK Hi Hg Hc. eapply wp_mono.
  - apply (wp_write_envelope d); [done|done| |done|].
    + apply writable_settled; [done|done|]. by eapply store_commitment_digest.
    + right. exists c. auto.
  - intros [u|x] w' (?&?&Hr); [|done]. destruct Hr as [Hr _]. split_and!; try done.
    + unfold settled. by rewrite Hr.
    + by rewrite Hr.
Qed.

(** Verification succeeds only with an envelope settled on the content verified. *)
Lemma wp_verify d w :
  length K = 32%nat -> env_inv d w -> conn w = d ->
  wp _verify_store_commitment (fun r w' =>
    env_inv d w' /\ same_db w w' /\
    match r with
    | Ok _ => settled d w' /\
              generation (self_envelope (self w)) <= generation (self_envelope (self w'))
    | Raise _ => True
    end) w.
Proof.
  intros HK Hi Hd. unfold _verify_store_commitment.
  apply wp_bind, wp_gets, wp_bind, wp_lift. rewrite Hd.
  destruct (_store_commitment d) as [c|x] eqn:Hc; [|done].
  do 3 (apply wp_bind, wp_gets). rewrite (ei_read_only _ _ Hi), (ei_kek _ _ Hi).
  pose proof (ei_generation _ _ Hi) as Hg0.
  assert (forall g, generation (self_envelope (self w)) <= g ->
    wp (_write_envelope (mkKekEnvelope K g c None None))
    (fun r w' => env_inv d w' /\ same_db w w' /\
       match r with
       | Ok _ => settled d w' /\
                 generation (self_envelope (self w)) <= generation (self_envelope (self w'))
       | Raise _ => True
       end) w) as Hset.
  { intros g Hg. eapply wp_mono; [apply wp_write_settled; [done|done|lia|done]|].
    intros [|] w' (?&?&?); [|done]. destruct_and?. split_and!; [done..|lia]. }
  case_bool_decide as E1; [by apply Hset|].
  case_bool_decide as E2.
  - rewrite <- E2. case_bool_decide as E3; [by apply Hset|]. apply wp_ret. split_and!; try done.
    split; [by rewrite <- E2|]. destruct (pending_commitment _) eqn:E; [|done]. destruct E3; eauto.
  - case_bool_decide as E3; [|by apply wp_lift].
    rewrite (ei_pending _ _ Hi c) by done. apply Hset. lia.
Qed.

(** [connection.commit()]: either nothing happens or the connection's content becomes
    the database's. *)
Lemma wp_commit (Q : res unit -> World -> Prop) w :
  in_transaction w = true ->
  (forall f e, Q (Raise e) (set_faults f w)) ->
  (forall f, Q (Ok tt) (set_conn (conn w) false (set_database (Some (conn w)) (set_faults f w)))) ->
  wp commit Q w.
Proof.
  intros Ht He Ho. unfold commit. apply wp_bind, wp_gets. rewrite Ht.
  apply wp_bind, wp_io; intros f; [|apply He..].
  apply wp_bind, wp_gets, wp_bind, wp_modify, wp_modify. apply Ho.
Qed.

Lemma wp_rollback (Q : res unit -> World -> Prop) w d :
  database w = Some d -> Q (Ok tt) (set_conn d false w) -> wp rollback Q w.
Proof. intros Hd HQ. unfold rollback. apply wp_bind, wp_gets, wp_modify. by rewrite Hd. Qed.

(** A mutation [d'] of [d] in the open transaction is committed or not at all, and the
    envelope on disk and the one in memory agree with what the database then holds. *)
Lemma wp_commit_mutation d d' w :
  length K = 32%nat -> env_inv d w -> settled d w -> database w = Some d ->
  conn w = d' -> in_transaction w = true ->
  wp _commit_mutation (fun r w' =>
    (env_inv d w' /\ database w' = Some d /\ is_ok r = false) \/
    (env_inv d' w' /\ database w' = Some d' /\ in_transaction w' = false /\
     match r with
     | Ok _ => settled d' w' /\
               generation (self_envelope (self w')) = generation (self_envelope (self w)) + 1
     | Raise _ => True
     end)) w.
Proof.
  intros HK Hi [Hc Hp] Hdb Hd' Ht. unfold _commit_mutation.
  set (g := generation (self_envelope (self w))) in *.
  set (c := commitment (self_envelope (self w))) in *.
  assert (0 <= g) as Hg by apply Hi.
  apply wp_bind, wp_gets, wp_bind, wp_gets, wp_bind, wp_gets, wp_bind, wp_lift.
  rewrite Hd', (ei_kek _ _ Hi). fold g c.
  destruct (_store_commitment d') as [c'|x] eqn:Hc'; [|by left].
  assert (writable (mkKekEnvelope K g c (Some (g + 1)) (Some c'))) as Hw.
  { apply writable_pending; [done|done|by eapply store_commitment_digest..]. }
  apply wp_bind. eapply wp_mono; [apply (wp_write_envelope d); try done; right; exists c; auto|].
  intros [u|x] w1 (Hi1&(Hd1&Hc1&Ht1)&H1); [|left; by rewrite Hd1].
  destruct H1 as [Henv Hfile].
  apply wp_bind, wp_catch, wp_commit; [congruence| |].
  - intros f e.
    assert (env_inv d (set_faults f w1)) as Hi2 by by eapply env_inv_ext.
    destruct (is_Exception e); [|left; cbn; by rewrite Hd1].
    apply wp_bind, (wp_rollback _ _ d); [cbn; congruence|].
    apply wp_bind. eapply wp_mono; [apply (wp_write_settled d g c); try done; by eapply env_inv_ext|].
    intros r w2 (Hi3&(Hd3&_)&_). destruct r; [apply wp_lift|]; left; cbn in Hd3; by rewrite Hd3, Hd1.
  - intros f. set (w2 := set_conn _ _ _).
    assert (agrees (mkKekEnvelope K g c (Some (g + 1)) (Some c')) d') as Ha by (right; exists c'; auto).
    assert (env_inv d' w2) as Hi2.
    { split; try apply Hi1; [|cbn; by rewrite Henv]. destruct Hfile as (ct&?&?). 
      eexists. split_and!; [by exists ct|done|done]. }
    eapply wp_mono; [apply (wp_write_settled d' (g + 1) c'); [done|done|lia|done]|].
    intros r w3 (Hi3&(Hd3&_&Ht3)&Hr). right. cbn in Hd3, Ht3.
    split_and!; [done|by rewrite Hd3, Hc1, Hd'|done|by destruct r].
Qed.

(* ------------------------------------------------------------------ *)
(** ** The abstract store *)

(** The keys of a database content: metadata and key material by provider and key. *)
Definition contents (d : Db) : gmap (pystr * pystr) (StoredKey * bytes) :=
  omap (fun r => match _decrypt_row K r with Ok x => Some x | Raise _ => None end) (wrapped_keys d).

Lemma decrypt_row_identity k r m plaintext :
  row_ok k r -> _decrypt_row K r = Ok (m, plaintext) ->
  sk_provider_id m = k.1 /\ sk_key_id m = k.2 /\ sk_state m = row_state r /\
  length plaintext = 32%nat /\ meta_ok m.
Proof.
  intros (Hk&_&m'&p'&E'&Hm) E. rewrite E in E'. injection E' as <- <-.
  unfold _decrypt_row, _metadata in E. res_inv. split_and!; try done.
  unfold zlen in *. lia.
Qed.

Lemma contents_lookup d k :
  contents d !! k = match wrapped_keys d !! k with
                    | Some r => match _decrypt_row K r with Ok x => Some x | Raise _ => None end
                    | None => None
                    end.
Proof. unfold contents. rewrite lookup_omap. by destruct (wrapped_keys d !! k). Qed.

Lemma row_contents d k r :
  db_ok d -> wrapped_keys d !! k = Some r ->
  exists m plaintext, _decrypt_row K r = Ok (m, plaintext) /\ contents d !! k = Some (m, plaintext) /\
    sk_provider_id m = k.1 /\ sk_key_id m = k.2 /\ sk_state m = row_state r /\
    length plaintext = 32%nat /\ meta_ok m.
Proof.
  intros Hd Hr. pose proof (do_rows _ Hd _ _ Hr) as Hrow.
  pose proof Hrow as (_&_&m&p&E&_). exists m, p. rewrite contents_lookup, Hr, E.
  split_and!; try done; by eapply decrypt_row_identity.
Qed.

Lemma contents_None d k : db_ok d -> contents d !! k = None <-> wrapped_keys d !! k = None.
Proof.
  intros Hd. rewrite contents_lookup. destruct (wrapped_keys d !! k) as [r|] eqn:E; [|done].
  destruct (row_contents d k r Hd E) as (m&p&->&_). done.
Qed.

(** A new row whose decryption is known. *)
Lemma insert_row_ok d k r m plaintext :
  db_ok d -> (row_provider_id r, row_key_id r) = k -> row_check r = true ->
  _decrypt_row K r = Ok (m, plaintext) -> meta_ok m ->
  let d' := mkDb (store_metadata d) (<[k := r]> (wrapped_keys d)) in
  db_ok d' /\ contents d' = <[k := (m, plaintext)]> (contents d).
Proof.
  intros [Hs Hsm Hr] Hk Hc Hdec Hm d'. split.
  - split; [done|done|]. apply map_Forall_insert_2; [|done]. split_and!; eauto.
  - unfold contents, d'. cbn. apply omap_insert_Some. by rewrite Hdec.
Qed.

(** A method body runs on a connection to [d]; what it leaves uncommitted is undone. *)
Lemma wp_connect {A} (body : M A) (Q : res A -> World -> Prop) d w :
  database w = Some d ->
  (forall f e, Q (Raise e) (set_faults f w)) ->
  (forall f, wp body (fun r w' =>
     match r with
     | Ok a => in_transaction w' = false /\ Q (Ok a) w'
     | Raise e => Q (Raise e) w' /\ forall d0, Q (Raise e) (set_conn d0 false w')
     end) (set_conn d false (set_faults f w))) ->
  wp (_connect body) Q w.
Proof.
  intros Hd He Hb. unfold _connect. apply wp_bind, wp_io; intros f; [|apply He..].
  apply wp_bind, (wp_rollback _ _ d); [done|].
  apply wp_bind, wp_catch. eapply wp_mono; [apply Hb|].
  intros [a|e] w' Hr.
  - destruct Hr as [Ht HQ]. apply wp_bind, wp_catch. unfold commit. apply wp_bind, wp_gets.
    rewrite Ht. apply wp_ret, wp_ret, HQ.
  - destruct Hr as [H1 H2]. destruct (is_Exception e); [|done].
    apply wp_bind. unfold rollback. apply wp_bind, wp_gets, wp_modify, wp_lift. apply H2.
Qed.

Lemma uuid_str_scalar n : scalar_text (uuid_str n).
Proof.
  apply ascii_scalar. eapply Forall_impl; [apply uuid_str_chars|]. intros c. cbn.
  unfold uuid_char. rewrite orb_true_iff. intros [Hc|Hc]; [apply is_lower_hex_lt in Hc|]; lia.
Qed.

Lemma validated_uuid_Ok s l u : _validated_uuid s l = Ok u -> canonical_uuid u.
Proof.
  unfold _validated_uuid. intros E%rethrow_Ok. apply bind_Ok in E as (n&Hn&E). injection E as <-.
  exists n. split; [by eapply uuid_int_Ok|done].
Qed.

Lemma canonical_scalar u : canonical_uuid u -> scalar_text u.
Proof. intros (n&_&->). apply uuid_str_scalar. Qed.

(** A canonical UUID is its own normal form. *)
Lemma validated_uuid_canonical u l : canonical_uuid u -> _validated_uuid u l = Ok u.
Proof. intros (n&Hn&->). unfold _validated_uuid. by rewrite uuid_int_str. Qed.

(** The metadata of a key created for [provider_id]. *)
Record created (provider_id : pystr) (name : option pystr) (attributes : list (pystr * pystr))
    (m : StoredKey) : Prop := {
  cr_provider : _validated_uuid provider_id "provider_id must be a UUID." = Ok (sk_provider_id m);
  cr_key : canonical_uuid (sk_key_id m);
  cr_algorithm : sk_algorithm m = str "AES";
  cr_length : sk_length m = 256;
  cr_name : sk_name m = name;
  cr_state : sk_state m = Pre_Active;
  cr_activated : sk_activated_at m = None;
  cr_attributes : _validated_custom_attributes (json_attributes attributes) = Ok (sk_custom_attributes m)
}.

Lemma created_meta_ok p name attributes m us :
  created p name attributes m -> sk_created_at m = isoformat us -> bind_text name = Ok tt -> meta_ok m.
Proof.
  intros [Hp Hk Ha Hl Hn Hs Hact Hat] Hc Hb. split; try done.
  - by eapply canonical_scalar, validated_uuid_Ok.
  - by apply canonical_scalar.
  - rewrite Hn. destruct name as [n|]; [|done]. cbn in Hb. res_inv. by eapply attribute_scalar.
  - by left.
  - rewrite Hc. apply ascii_scalar, isoformat_ascii.
  - by rewrite Hact.
  - by eapply validated_attributes_Ok.
Qed.

(** The identity of a key. *)
Definition key_of (m : StoredKey) : pystr * pystr := (sk_provider_id m, sk_key_id m).

(** What inserting the row of a new key does to the connection. *)
Lemma wp_insert_row d r (Q : res unit -> World -> Prop) w :
  conn w = d ->
  (forall e, Q (Raise e) w) ->
  (bind_text (row_name r) = Ok tt -> row_check r = true ->
   wrapped_keys d !! (row_provider_id r, row_key_id r) = None ->
   Q (Ok tt) (set_conn (mkDb (store_metadata d)
     (<[(row_provider_id r, row_key_id r) := r]> (wrapped_keys d))) true w)) ->
  wp (insert_row r) Q w.
Proof.
  intros Hd He Ho. unfold insert_row. apply wp_bind, wp_lift.
  destruct (bind_text (row_name r)) as [[]|e]; [|apply He].
  apply wp_bind, wp_gets, wp_bind, wp_lift. destruct (self_read_only _); [apply He|].
  apply wp_bind, wp_gets. rewrite Hd.
  apply wp_bind, wp_lift. destruct (row_check r); [|apply He].
  apply wp_bind, wp_lift. case_bool_decide as E; [apply He|].
  apply wp_modify, Ho; [done..|]. by apply eq_None_not_Some.
Qed.

(** The outcome of a method that may replace [d] by a content [d'] with [P d' a]. *)
Definition mutated {A} (d : Db) (g : Z) (P : Db -> A -> Prop) (r : res A) (w' : World) : Prop :=
  (store_inv d w' /\ is_ok r = false) \/
  exists d' a, P d' a /\ store_inv d' w' /\
    (is_ok r = true -> r = Ok a /\ settled d' w' /\
       g <= generation (self_envelope (self w')) /\
       (d' <> d -> g < generation (self_envelope (self w')))).

Lemma mutated_ext {A} d g (P : Db -> A -> Prop) e w w' :
  mutated d g P (Raise e) w -> kek_file w' = kek_file w -> recovery_master w' = recovery_master w ->
  self w' = self w -> database w' = database w -> mutated d g P (Raise e) w'.
Proof.
  intros [[Hi _]|(d'&a&HP&Hi&_)] Hf Hr Hs Hd; [left|right].
  - split; [by eapply store_inv_ext|done].
  - exists d', a. split_and!; [done|by eapply store_inv_ext|done].
Qed.

(** What [wp_connect] asks of the body of a mutating method. *)
Definition body_mutated {A} (d : Db) (g : Z) (P : Db -> A -> Prop) (r : res A) (w' : World) : Prop :=
  mutated d g P r w' /\ (is_ok r = true -> in_transaction w' = false).

Lemma wp_connect_mutated {A} (body : M A) d g (P : Db -> A -> Prop) w :
  store_inv d w ->
  (forall f, wp body (body_mutated d g P) (set_conn d false (set_faults f w))) ->
  wp (_connect body) (mutated d g P) w.
Proof.
  intros Hi Hb. apply (wp_connect _ _ d); [apply Hi| |].
  - intros f e. left. split; [by eapply store_inv_ext|done].
  - intros f. eapply wp_mono; [apply Hb|]. intros [a|e] w' [Hm Ht]; [auto|].
    split; [done|]. intros d0. by eapply mutated_ext.
Qed.

Lemma body_failed {A} d g (P : Db -> A -> Prop) e w' :
  store_inv d w' -> body_mutated d g P (Raise e) w'.
Proof. intros Hi. split; [left; done|done]. Qed.

(** Committing the open transaction and returning [a]. *)
Lemma wp_commit_return {A} d d' (a : A) (P : Db -> A -> Prop) g w :
  store_inv d w -> settled d w -> conn w = d' -> in_transaction w = true -> db_ok d' -> P d' a ->
  g <= generation (self_envelope (self w)) ->
  wp (_ ← _commit_mutation; mret a) (body_mutated d g P) w.
Proof.
  intros Hi Hs Hc Ht Hd' HP Hg. apply wp_bind.
  eapply wp_mono; [apply (wp_commit_mutation d d'); try apply Hi; done|].
  intros r w' [(He&Hdb&Hr)|(He&Hdb&Htx&Hr)].
  - destruct r; [done|]. apply body_failed. split; try done; apply Hi.
  - assert (store_inv d' w') as Hi' by (split; try done; apply Hi).
    destruct r as [u|e]; [apply wp_ret|]; (split; [right; exists d', a; split_and!; try done|done]).
    destruct Hr as [Hs' Hg']. intros _. split_and!; [done|done|lia|lia].
Qed.

(** Verifying the content [d], then going on. *)
Lemma wp_verify_Q d g (Q : res unit -> World -> Prop) w :
  store_inv d w -> conn w = d -> in_transaction w = false ->
  g <= generation (self_envelope (self w)) ->
  (forall e w', store_inv d w' -> Q (Raise e) w') ->
  (forall u w', store_inv d w' -> settled d w' -> conn w' = d -> in_transaction w' = false ->
     g <= generation (self_envelope (self w')) -> Q (Ok u) w') ->
  wp _verify_store_commitment Q w.
Proof.
  intros Hi Hc Ht Hg He Ho. eapply wp_mono; [apply (wp_verify d); [apply Hi..|done]|].
  intros r w' (Hi'&(Hd'&Hc'&Ht')&Hr).
  assert (store_inv d w') as Hinv by (split; try apply Hi; [done|rewrite Hd'; apply Hi]).
  destruct r as [u|e]; [|by apply He]. destruct Hr as [Hs Hg'].
  apply Ho; try done; congruence || lia.
Qed.

Lemma wp_verify_then {A} (k : M A) d g (P : Db -> A -> Prop) w :
  store_inv d w -> conn w = d -> in_transaction w = false ->
  g <= generation (self_envelope (self w)) ->
  (forall w', store_inv d w' -> settled d w' -> conn w' = d -> in_transaction w' = false ->
     g <= generation (self_envelope (self w')) -> wp k (body_mutated d g P) w') ->
  wp (_ ← _verify_store_commitment; k) (body_mutated d g P) w.
Proof.
  intros Hi Hc Ht Hg Hk. apply wp_bind, (wp_verify_Q d g); [done..| |].
  - intros e w' Hi'. by apply body_failed.
  - intros u w'. apply Hk.
Qed.

(** Returning [a] without having changed [d]. *)
Lemma body_unchanged {A} d g (P : Db -> A -> Prop) a w' :
  store_inv d w' -> settled d w' -> in_transaction w' = false ->
  g <= generation (self_envelope (self w')) -> P d a -> body_mutated d g P (Ok a) w'.
Proof. intros. split; [|done]. right. exists d, a. split_and!; try done. Qed.

(** The change [create_key] makes. *)
Definition key_created (d : Db) (provider_id : pystr) (name : option pystr)
    (attributes : list (pystr * pystr)) (d' : Db) (m : StoredKey) : Prop :=
  created provider_id name attributes m /\ contents d !! key_of m = None /\
  exists plaintext, length plaintext = 32%nat /\
    contents d' = <[key_of m := (m, plaintext)]> (contents d).

(** The critical section of [create_key]. *)
Lemma wp_create_body p name attributes m us aad plaintext nonce ct d w :
  store_inv d w -> conn w = d -> in_transaction w = false ->
  created p name attributes m -> sk_created_at m = isoformat us ->
  _canonical_aad m = Ok aad -> length plaintext = 32%nat ->
  aes_encrypt K nonce plaintext aad = Ok ct ->
  wp (_ ← _verify_store_commitment;
      aad_json ← lift (utf8_decode aad);
      _ ← insert_row (key_row m nonce ct aad_json);
      _ ← _commit_mutation;
      mret m)
    (body_mutated d (generation (self_envelope (self w))) (key_created d p name attributes)) w.
Proof.
  intros Hi Hc Ht Hcr Hus Haad Hpt Henc. apply wp_verify_then; try done.
  intros w' Hi' Hs' Hc' _ Hg'. apply wp_bind, wp_lift.
  destruct (utf8_decode aad) as [j|e] eqn:Hj; [|by apply body_failed].
  apply wp_bind, (wp_insert_row d); [done|intros e; by apply body_failed|].
  intros Hb Hck Hnone. cbn [row_name row_provider_id row_key_id key_row] in *.
  rewrite (cr_name _ _ _ _ Hcr) in Hb. pose proof (created_meta_ok _ _ _ _ _ Hcr Hus Hb) as Hm.
  pose proof (decrypt_key_row K m nonce plaintext aad j ct Hm (si_kek _ _ Hi) Hpt Haad Hj Henc) as Hdec.
  destruct (insert_row_ok d (key_of m) (key_row m nonce ct j) m plaintext (si_db _ _ Hi) eq_refl Hck Hdec Hm) as [Hd' Hct].
  eapply wp_commit_return; [by eapply store_inv_ext|done|done|done|done| |done].
  split_and!; [done|by apply contents_None; [apply Hi|]|eauto].
Qed.

(** [create_key] adds exactly one new key, or nothing: whatever fails, and wherever the
    machine stops, the store keeps its invariant. *)
Lemma wp_create_key provider_id name attributes d w :
  store_inv d w ->
  wp (create_key provider_id name attributes)
    (mutated d (generation (self_envelope (self w))) (key_created d provider_id name attributes)) w.
Proof.
  intros Hi. unfold create_key.
  apply wp_bind, wp_lift. destruct (_validated_uuid provider_id _) as [p|e] eqn:Hp; [|by left].
  apply wp_bind, wp_lift. destruct (_validated_custom_attributes _) as [at_|e] eqn:Hat; [|by left].
  apply wp_bind, wp_lift. destruct (raise_if (bad_name name) _); [|by left].
  apply wp_bind, wp_uuid4. intros n rnd Hn. apply wp_bind, wp_now. intros us clk.
  set (m := mkStoredKey _ _ _ _ _ _ _ _ _).
  assert (created provider_id name attributes m) as Hcr by (split; try done; by exists n).
  apply wp_bind, wp_lift.
  destruct (_canonical_aad m) as [aad|e] eqn:Haad; [|by left; split; [by eapply store_inv_ext|]].
  apply wp_bind, wp_urandom. intros plaintext rnd1 Hpt. apply wp_bind, wp_urandom. intros nonce rnd2 Hnon.
  apply wp_bind, wp_gets, wp_bind, wp_lift. set (w1 := set_random rnd2 _).
  assert (store_inv d w1) as Hi1 by by eapply store_inv_ext.
  destruct (AESGCM _) as [[]|e]; [|by left].
  apply wp_bind, wp_lift. rewrite (ei_kek _ _ (si_env _ _ Hi1)).
  destruct (aes_encrypt K nonce plaintext aad) as [ct|e] eqn:Henc; [|by left].
  apply wp_connect_mutated; [done|]. intros f.
  eapply wp_mono; [eapply (wp_create_body provider_id name attributes m us); try done|done].
  by eapply store_inv_ext.
Qed.

(* ------------------------------------------------------------------ *)
(** ** Reading *)

(** What the store holds under a provider and key identifier as given. *)
Definition lookup_key (d : Db) (provider_id key_id : pystr) : res (StoredKey * bytes) :=
  p ← _validated_uuid provider_id "provider_id must be a UUID.";
  k ← _validated_uuid key_id "key_id must be a UUID.";
  match contents d !! (p, k) with
  | Some x => Ok x
  | None => Raise (KeyNotFoundError "KMIP key was not found in the authenticated provider.")
  end.

(** On a sound database, selecting and decrypting a row is looking the key up. *)
Lemma row_decrypt_lookup d p k :
  db_ok d -> (r ← _row d p k; _decrypt_row K r) = lookup_key d p k.
Proof.
  intros Hd. unfold _row, lookup_key. destruct (_validated_uuid p _) as [p'|]; [|done]. cbn.
  destruct (_validated_uuid k _) as [k'|]; [|done]. cbn. rewrite contents_lookup.
  destruct (wrapped_keys d !! (p', k')) as [r|] eqn:E; [|done]. cbn.
  by destruct (row_contents d _ r Hd E) as (m&pt&->&_).
Qed.

Lemma wp_verified_row p k d g (Q : res (StoredKey * bytes) -> World -> Prop) w :
  store_inv d w -> conn w = d -> in_transaction w = false ->
  g <= generation (self_envelope (self w)) ->
  (forall e w', store_inv d w' -> Q (Raise e) w') ->
  (forall x w', store_inv d w' -> settled d w' -> conn w' = d -> in_transaction w' = false ->
     g <= generation (self_envelope (self w')) -> lookup_key d p k = Ok x -> Q (Ok x) w') ->
  wp (verified_row p k) Q w.
Proof.
  intros Hi Hc Ht Hg He Ho. unfold verified_row.
  apply wp_bind, (wp_verify_Q d g); try done. intros _ w' Hi' Hs' Hc' Ht' Hg'.
  apply wp_bind, wp_gets. rewrite Hc'. pose proof (row_decrypt_lookup d p k (si_db _ _ Hi)) as Hl.
  apply wp_bind, wp_lift. destruct (_row d p k) as [r|e]; [|by apply He]. cbn in Hl.
  apply wp_bind, wp_gets, wp_lift. rewrite (ei_kek _ _ (si_env _ _ Hi')), Hl.
  destruct (lookup_key d p k) as [x|e] eqn:E; [by apply Ho|by apply He].
Qed.

(** [get_key] returns the metadata and the material of the key looked up, and changes
    nothing. *)
Lemma wp_get_key p k d w :
  store_inv d w ->
  wp (get_key p k) (mutated d (generation (self_envelope (self w)))
    (fun d' x => d' = d /\ lookup_key d p k = Ok x)) w.
Proof.
  intros Hi. apply wp_connect_mutated; [done|]. intros f.
  apply (wp_verified_row _ _ d (generation (self_envelope (self w)))); try done; [by eapply store_inv_ext| |].
  - intros e w' Hi'. by apply body_failed.
  - intros x w' Hi' Hs' Hc' Ht' Hg' Hl. by apply body_unchanged.
Qed.

Lemma wp_get_metadata p k d w :
  store_inv d w ->
  wp (get_metadata p k) (mutated d (generation (self_envelope (self w)))
    (fun d' m => d' = d /\ exists plaintext, lookup_key d p k = Ok (m, plaintext))) w.
Proof.
  intros Hi. apply wp_connect_mutated; [done|]. intros f. apply wp_bind.
  apply (wp_verified_row _ _ d (generation (self_envelope (self w)))); try done; [by eapply store_inv_ext| |].
  - intros e w' Hi'. by apply body_failed.
  - intros [m pt] w' Hi' Hs' Hc' Ht' Hg' Hl. apply wp_ret, body_unchanged; eauto.
Qed.

(** The change [activate_key] makes: a Pre-Active key becomes Active with its material
    unchanged; an Active key stays as it is. *)
Definition key_activated (d : Db) (p k : pystr) (d' : Db) (m : StoredKey) : Prop :=
  exists m0 plaintext, lookup_key d p k = Ok (m0, plaintext) /\
  ((sk_state m0 = Active /\ m = m0 /\ d' = d) \/
   (sk_state m0 = Pre_Active /\ exists at_, m = activated m0 at_ /\
    contents d' = <[key_of m := (m, plaintext)]> (contents d))).

Lemma lookup_key_Ok d p k m plaintext :
  db_ok d -> lookup_key d p k = Ok (m, plaintext) ->
  exists r, wrapped_keys d !! key_of m = Some r /\ _decrypt_row K r = Ok (m, plaintext) /\
    contents d !! key_of m = Some (m, plaintext) /\
    row_check r = true /\ (row_provider_id r, row_key_id r) = key_of m /\
    sk_state m = row_state r /\ length plaintext = 32%nat /\ meta_ok m.
Proof.
  intros Hd E. unfold lookup_key in E. apply bind_Ok in E as (p'&_&E). apply bind_Ok in E as (k'&_&E).
  destruct (contents d !! (p', k')) as [x|] eqn:Ex; [|done]. injection E as ->.
  destruct (wrapped_keys d !! (p', k')) as [r|] eqn:Er; [|apply contents_None in Er; [congruence|done]].
  destruct (row_contents d _ r Hd Er) as (m'&pt'&Hdec&Hc&Hp&Hk&Hs&Hl&Hm).
  rewrite Hc in Ex. injection Ex as -> ->. cbn in Hp, Hk. unfold key_of. rewrite Hp, Hk.
  destruct (do_rows _ Hd _ _ Er) as (Hid&Hck&_). exists r. split_and!; done.
Qed.

(** The metadata of a row is that of its columns. *)
Lemma decrypt_row_columns r m plaintext nonce ct j :
  _decrypt_row K r = Ok (m, plaintext) ->
  forall at_, mkRow (row_provider_id r) (row_key_id r) (row_algorithm r) (row_key_length r)
    (row_name r) Active (row_created_at r) (Some at_) nonce ct j = key_row (activated m at_) nonce ct j.
Proof. unfold _decrypt_row, _metadata. intros E at_. res_inv. done. Qed.

Lemma activated_meta_ok m us : meta_ok m -> meta_ok (activated m (isoformat us)).
Proof.
  intros []. split; try done; [by right|]. cbn. apply ascii_scalar, isoformat_ascii.
Qed.

Lemma activated_check r nonce :
  row_check r = true -> length nonce = 12%nat -> forall at_ ct j,
  row_check (mkRow (row_provider_id r) (row_key_id r) (row_algorithm r) (row_key_length r)
    (row_name r) Active (row_created_at r) at_ nonce ct j) = true.
Proof.
  unfold row_check. cbn. rewrite !andb_true_iff. intros ((((?&?)&?)&?)&?) Hn at_ ct j.
  rewrite !andb_true_iff. split_and!; try done. unfold zlen. by rewrite Hn.
Qed.

(** Re-wrapping a Pre-Active key as Active, after the key was read. *)
Lemma wp_activate_tail d g p k m plaintext w :
  store_inv d w -> settled d w -> conn w = d ->
  g <= generation (self_envelope (self w)) ->
  lookup_key d p k = Ok (m, plaintext) -> sk_state m = Pre_Active ->
  wp (activated_at ← now_isoformat;
      let updated := activated m activated_at in
      nonce ← urandom 12;
      new_aad ← lift (_canonical_aad updated);
      k ← gets (fun w => self_kek (self w));
      _ ← lift (AESGCM k);
      ciphertext ← lift (aes_encrypt k nonce plaintext new_aad);
      aad_json ← lift (utf8_decode new_aad);
      rowcount ← update_row (sk_provider_id updated) (sk_key_id updated) (sk_state updated)
                   activated_at nonce ciphertext aad_json;
      _ ← lift (raise_if (negb (rowcount =? 1)) (KeyStateError "KMIP key activation was not applied."));
      _ ← _commit_mutation;
      mret updated) (body_mutated d g (key_activated d p k)) w.
Proof.
  intros Hi Hs Hc Hg Hl Hst.
  destruct (lookup_key_Ok _ _ _ _ _ (si_db _ _ Hi) Hl) as (r&Hr&Hdec&_&Hck&Hid&Hrs&Hpt&Hm).
  apply wp_bind, wp_now. intros us clk. pose proof (activated_meta_ok m us Hm) as Hm'.
  destruct (canonical_aad_ok _ Hm') as [Haad Hj]. cbv zeta.
  apply wp_bind, wp_urandom. intros nonce rnd Hn. apply wp_bind, wp_lift. rewrite Haad.
  set (w1 := set_random _ _). assert (store_inv d w1) as Hi1 by by eapply store_inv_ext.
  apply wp_bind, wp_gets. rewrite (ei_kek _ _ (si_env _ _ Hi1)).
  apply wp_bind, wp_lift. rewrite aead_key by apply Hi. apply wp_bind, wp_lift.
  destruct (aes_encrypt _ _ _ _) as [ct|e] eqn:Henc; [|by apply body_failed].
  apply wp_bind, wp_lift. rewrite Hj. apply wp_bind. unfold update_row.
  apply wp_bind, wp_gets. rewrite (ei_read_only _ _ (si_env _ _ Hi1)). apply wp_bind, wp_lift. cbn [raise_if].
  apply wp_bind, wp_gets. change (conn w1) with (conn w). rewrite Hc.
  change (sk_provider_id (activated m (isoformat us)), sk_key_id (activated m (isoformat us))) with (key_of m).
  change (sk_state (activated m (isoformat us))) with Active.
  rewrite Hr, decide_True by congruence.
  apply wp_bind, wp_lift. rewrite activated_check by done. cbn [negb raise_if].
  rewrite (decrypt_row_columns r m plaintext) by done.
  apply wp_bind, wp_modify, wp_ret. cbn [Z.eqb Pos.eqb negb raise_if]. apply wp_bind, wp_lift. cbn [raise_if].
  pose proof (decrypt_key_row K _ nonce plaintext _ _ ct Hm' (si_kek _ _ Hi) Hpt Haad Hj Henc) as Hdec'.
  edestruct (insert_row_ok d (key_of m) (key_row (activated m (isoformat us)) nonce ct
    (dumps_compact (JDict (aad_document (activated m (isoformat us))))))) as [Hd' Hct'];
    [apply Hi|done| |exact Hdec'|exact Hm'|].
  { erewrite <- (decrypt_row_columns r m plaintext) by done. by apply activated_check. }
  eapply wp_commit_return; [by eapply store_inv_ext|done|done|done|done| |done].
  exists m, plaintext. split; [done|]. right. split; [done|]. eauto.
Qed.

Lemma wp_activate_key p k d w :
  store_inv d w ->
  wp (activate_key p k) (mutated d (generation (self_envelope (self w))) (key_activated d p k)) w.
Proof.
  intros Hi. apply wp_connect_mutated; [done|]. intros f. apply wp_bind.
  apply (wp_verified_row _ _ d (generation (self_envelope (self w)))); try done; [by eapply store_inv_ext| |].
  - intros e w' Hi'. by apply body_failed.
  - intros [m pt] w' Hi' Hs' Hc' Ht' Hg' Hl. case_decide as E.
    + apply wp_ret, body_unchanged; try done. exists m, pt. auto.
    + apply wp_bind, wp_lift. case_bool_decide; cbn [negb raise_if]; [|by apply body_failed].
      by apply wp_activate_tail.
Qed.

(* ------------------------------------------------------------------ *)
(** ** Selections *)

#[local] Instance pair_le_trans : Transitive pair_le.
Proof.
  intros [a a'] [b b'] [c c']. unfold pair_le. cbn.
  destruct (str_compare a b) eqn:E1, (str_compare b c) eqn:E2; try done; intros H1 H2.
  - apply str_compare_eq in E1 as ->. rewrite E2. by etrans.
  - apply str_compare_eq in E1 as ->. by rewrite E2.
  - apply str_compare_eq in E2 as ->. by rewrite E1.
  - by rewrite (str_compare_lt_trans _ _ _ E1 E2).
Qed.

#[local] Instance pair_le_total : Total pair_le.
Proof.
  intros [a a'] [b b']. unfold pair_le. cbn. rewrite (str_compare_opp a b).
  destruct (str_compare a b); cbn; [apply str_le_total|by left|by right].
Qed.

#[local] Instance located_le_trans : Transitive located_le.
Proof. intros a b c. unfold located_le. apply pair_le_trans. Qed.

#[local] Instance located_le_total : Total located_le.
Proof. intros a b. unfold located_le. apply pair_le_total. Qed.

Lemma all_rows_perm d : all_rows d ≡ₚ (map_to_list (wrapped_keys d)).*2.
Proof. unfold all_rows. by rewrite merge_sort_Permutation. Qed.

Lemma all_rows_ok d : db_ok d -> Forall (fun r => row_ok (row_provider_id r, row_key_id r) r) (all_rows d).
Proof.
  intros Hd. rewrite all_rows_perm. apply Forall_forall. intros r ([k r']&->&Hin)%list_elem_of_fmap.
  apply elem_of_map_to_list in Hin. cbn. pose proof (do_rows _ Hd _ _ Hin) as Hr.
  destruct Hr as (<-&?&?). by split.
Qed.

(** The metadata a row decrypts to. *)
Definition row_metadata (r : Row) : StoredKey :=
  match _decrypt_row K r with
  | Ok (m, _) => m
  | Raise _ => mkStoredKey [] [] [] 0 None [] [] None []
  end.

Lemma row_metadata_columns k r :
  row_ok k r ->
  sk_provider_id (row_metadata r) = row_provider_id r /\ sk_key_id (row_metadata r) = row_key_id r /\
  sk_name (row_metadata r) = row_name r /\ sk_state (row_metadata r) = row_state r /\
  sk_created_at (row_metadata r) = row_created_at r.
Proof.
  intros (_&_&m&pt&E&_). unfold row_metadata. rewrite E. unfold _decrypt_row, _metadata in E. res_inv. done.
Qed.

(** The metadata of all keys of the abstract store. *)
Definition all_metadata (d : Db) : list StoredKey := (map_to_list (contents d)).*2.*1.

Lemma all_metadata_perm d : db_ok d -> all_metadata d ≡ₚ map row_metadata (all_rows d).
Proof.
  intros Hd. unfold all_metadata. rewrite all_rows_perm.
  assert (contents d = (fun r => (row_metadata r, match _decrypt_row K r with Ok x => x.2 | Raise _ => [] end))
                       <$> wrapped_keys d) as ->.
  { apply map_eq. intros k. rewrite contents_lookup, lookup_fmap.
    destruct (wrapped_keys d !! k) as [r|] eqn:E; [|done]. cbn.
    destruct (row_contents d k r Hd E) as (m&pt&Hdec&_). unfold row_metadata. by rewrite Hdec. }
  rewrite map_to_list_fmap, <- !list_fmap_compose. apply Permutation_refl'. by apply list_fmap_ext.
Qed.

(** A key of the provider in the state and with the name asked for, if any. *)
Definition matches (provider : pystr) (state name : option pystr) (m : StoredKey) : Prop :=
  sk_provider_id m = provider /\
  match state with Some s => sk_state m = s | None => True end /\
  match name with Some n => sk_name m = Some n | None => True end.

#[global] Instance matches_dec provider state name m : Decision (matches provider state name m).
Proof. unfold matches. destruct state, name; apply _. Defined.

(** Earlier creation first, then the key identifier. *)
Definition created_le (a b : StoredKey) : Prop :=
  pair_le (sk_created_at a, sk_key_id a) (sk_created_at b, sk_key_id b).

(** The answer of [locate_keys]: the identifiers of the first [limit] matching keys. *)
Definition located_ids (d : Db) (provider : pystr) (state name : option pystr) (limit : Z)
    (ids : list pystr) : Prop :=
  exists found, found ≡ₚ filter (matches provider state name) (all_metadata d) /\
    StronglySorted created_le found /\ ids = map sk_key_id (take (Z.to_nat limit) found).

Lemma located_matches k provider state name r :
  row_ok k r -> located provider state name r = true <-> matches provider state name (row_metadata r).
Proof.
  intros Hr. destruct (row_metadata_columns _ _ Hr) as (Hp&_&Hn&Hs&_).
  unfold located, matches. rewrite Hp, Hn, Hs, !andb_true_iff, bool_decide_eq_true.
  destruct state, name; rewrite ?bool_decide_eq_true; intuition.
Qed.

Lemma filter_map_perm (f : Row -> StoredKey) (P : Row -> Prop) (Q : StoredKey -> Prop)
    `{forall x, Decision (P x)} `{forall x, Decision (Q x)} l :
  Forall (fun r => P r <-> Q (f r)) l -> filter Q (map f l) = map f (filter P l).
Proof.
  induction 1 as [|r l Hr _ IH]; [done|]. cbn [map]. destruct (decide (P r)).
  - rewrite !filter_cons_True by naive_solver. cbn. by rewrite IH.
  - rewrite !filter_cons_False by naive_solver. done.
Qed.

Lemma located_query d provider state name limit :
  db_ok d ->
  located_ids d provider state name limit
    (map row_key_id (take (Z.to_nat limit)
      (merge_sort located_le (filter (fun r => located provider state name r = true) (all_rows d))))).
Proof.
  intros Hd. set (rows := merge_sort _ _).
  assert (Forall (fun r => row_ok (row_provider_id r, row_key_id r) r) rows) as Hok.
  { unfold rows. rewrite merge_sort_Permutation. apply Forall_forall. intros r [_ Hr]%list_elem_of_filter.
    pose proof (all_rows_ok d Hd) as Ha. rewrite Forall_forall in Ha. by apply Ha. }
  exists (map row_metadata rows). split_and!.
  - rewrite all_metadata_perm by done. unfold rows. rewrite merge_sort_Permutation.
    erewrite filter_map_perm; [done|]. eapply Forall_impl; [by apply all_rows_ok|].
    intros r Hr. exact (located_matches _ provider state name r Hr).
  - assert (StronglySorted located_le rows) as Hs by apply (StronglySorted_merge_sort located_le).
    revert Hok. clear -Hs. induction Hs as [|r rows Hs IH Hf]; intros Hok; cbn; [constructor|].
    apply Forall_cons in Hok as [Hr Hok]. constructor; [by apply IH|].
    apply Forall_map. rewrite Forall_forall in Hf, Hok |- *. intros r' Hr'. unfold created_le.
    destruct (row_metadata_columns _ _ Hr) as (_&->&_&_&->).
    destruct (row_metadata_columns _ _ (Hok r' Hr')) as (_&->&_&_&->). by apply Hf.
  - rewrite firstn_map, map_map. apply map_ext_in. intros r Hr.
    apply list_elem_of_In in Hr. rewrite Forall_forall in Hok.
    assert (r ∈ rows) as Hin by (rewrite <- (take_drop (Z.to_nat limit) rows); set_solver).
    by destruct (row_metadata_columns _ _ (Hok r Hin)) as (_&->&_).
Qed.

Lemma wp_locate_keys p state name limit d w :
  store_inv d w ->
  wp (locate_keys p state name limit) (mutated d (generation (self_envelope (self w)))
    (fun d' ids => d' = d /\ exists provider,
       _validated_uuid p "provider_id must be a UUID." = Ok provider /\
       located_ids d provider state name limit ids)) w.
Proof.
  intros Hi. unfold locate_keys.
  apply wp_bind, wp_lift. destruct (_validated_uuid p _) as [provider|e] eqn:Hp; [|by left].
  do 3 (apply wp_bind, wp_lift; destruct (raise_if _ _); [|by left]).
  apply wp_connect_mutated; [done|]. intros f. apply wp_verify_then; try done; [by eapply store_inv_ext|].
  intros w' Hi' Hs' Hc' Ht' Hg'. apply wp_bind, wp_gets. rewrite Hc'.
  apply wp_bind, wp_lift. destruct (bind_text name); [|by apply body_failed].
  apply wp_ret, body_unchanged; try done. split; [done|]. exists provider. split; [done|].
  apply located_query, Hi.
Qed.

(** Counting the keys of a provider. *)
Definition provider_keys (p : pystr) (l : list StoredKey) : list StoredKey :=
  filter (fun m => sk_provider_id m = p) l.

Definition count_of (p : pystr) (l : list StoredKey) : Counts :=
  mkCounts (zlen (filter (fun m => sk_state m = Pre_Active) (provider_keys p l)))
           (zlen (filter (fun m => sk_state m = Active) (provider_keys p l)))
           (zlen (provider_keys p l)).

Definition add_counts (a b : Counts) : Counts :=
  mkCounts (pre_active a + pre_active b) (active a + active b) (total a + total b).

(** The counts of [lifecycle_counts]: of every provider asked for, and of every
    provider that has a key. *)
Definition counted (d : Db) (providers : list pystr) (counts : list (pystr * Counts)) : Prop :=
  forall p, dict_get p counts =
    if decide (p ∈ providers \/ p ∈ map sk_provider_id (all_metadata d))
    then Some (count_of p (all_metadata d)) else None.

Lemma count_of_perm p l k : l ≡ₚ k -> count_of p l = count_of p k.
Proof. intros Hl. unfold count_of, provider_keys, zlen. by rewrite !Hl. Qed.

Lemma count_of_cons p m l :
  meta_ok m ->
  count_of p (m :: l) =
    if decide (sk_provider_id m = p) then count_state (sk_state m) (count_of p l) else count_of p l.
Proof.
  intros Hm. unfold count_of, provider_keys. rewrite filter_cons.
  destruct (decide (sk_provider_id m = p)); [|done]. rewrite !filter_cons. unfold count_state.
  destruct (mo_state m Hm) as [E|E]; rewrite E.
  - rewrite !(decide_True (P := Pre_Active = Pre_Active)) by done.
    rewrite (decide_False (P := Pre_Active = Active)) by done. cbn. rewrite !zlen_cons. f_equal; lia.
  - rewrite (decide_False (P := Active = Pre_Active)), (decide_False (P := Active = Pre_Active)) by done.
    rewrite decide_True by done. cbn. rewrite !zlen_cons. f_equal; lia.
Qed.

Lemma add_counts_zero c : add_counts zero_counts c = c.
Proof. by destruct c. Qed.

Lemma add_count_state st a b : add_counts (count_state st a) b = add_counts a (count_state st b).
Proof. unfold add_counts, count_state. case_decide; cbn; f_equal; lia. Qed.

Lemma count_of_none p l : p ∉ map sk_provider_id l -> count_of p l = zero_counts.
Proof.
  intros Hp. unfold count_of. replace (provider_keys p l) with (@nil StoredKey); [done|].
  symmetry. unfold provider_keys. induction l as [|m l IH]; [done|]. cbn in Hp.
  rewrite filter_cons_False by set_solver. apply IH. set_solver.
Qed.

(** The loop adds the counts of the rows to those it starts from. *)
Lemma count_rows_spec rows counts :
  Forall (fun r => row_ok (row_provider_id r, row_key_id r) r) rows ->
  exists counts', count_rows K rows counts = Ok counts' /\
    forall p, dict_get p counts' =
      if decide (p ∈ map sk_provider_id (map row_metadata rows))
      then Some (add_counts (default zero_counts (dict_get p counts)) (count_of p (map row_metadata rows)))
      else dict_get p counts.
Proof.
  intros Hr. revert counts; induction Hr as [|r rows Hr _ IH]; intros counts.
  { exists counts. split; [done|]. intros p. by rewrite decide_False by set_solver. }
  pose proof Hr as (_&_&m&pt&Hdec&Hm). cbn [count_rows]. rewrite Hdec. cbn [mbind res_bind].
  edestruct IH as (counts'&->&Hc). exists counts'. split; [done|]. intros p. rewrite Hc, dict_get_set.
  assert (row_metadata r = m) as Em by (unfold row_metadata; by rewrite Hdec).
  cbn [map]. rewrite Em, count_of_cons by done. clear IH Hc. 
  destruct (decide (sk_provider_id m = p)) as [<-|Hne].
  - rewrite (decide_True (P := sk_provider_id m ∈ sk_provider_id m :: _)) by set_solver.
    case_decide as Hin; cbn; [by rewrite add_count_state|].
    rewrite (count_of_none _ _ Hin), <- add_count_state. f_equal. by destruct (count_state _ _) as [[] [] []].
  - case_decide as Hin; [by rewrite decide_True by set_solver|by rewrite decide_False by set_solver].
Qed.

Lemma dict_of_zero providers p :
  dict_get p (dict_of (map (fun p => (p, zero_counts)) providers)) =
    if decide (p ∈ providers) then Some zero_counts else None.
Proof.
  unfold dict_of. enough (forall d, dict_get p (fold_left (fun d '(k, v) => dict_set k v d)
      (map (fun p => (p, zero_counts)) providers) d)
    = if decide (p ∈ providers) then Some zero_counts else dict_get p d) as H0 by apply H0.
  induction providers as [|q providers IH]; intros d; cbn [map fold_left].
  - by rewrite decide_False by set_solver.
  - rewrite IH, dict_get_set. repeat case_decide; set_solver.
Qed.

Lemma wp_lifecycle_counts provider_ids d w :
  store_inv d w ->
  wp (lifecycle_counts provider_ids) (mutated d (generation (self_envelope (self w)))
    (fun d' counts => d' = d /\ exists providers,
       Forall2 (fun p q => _validated_uuid p "provider_id must be a UUID." = Ok q) provider_ids providers /\
       counted d providers counts)) w.
Proof.
  intros Hi. unfold lifecycle_counts. apply wp_bind, wp_lift.
  destruct (mapM _ provider_ids) as [providers|e] eqn:Hp; [|by left]. apply res_mapM_Ok in Hp.
  apply wp_connect_mutated; [done|]. intros f. apply wp_verify_then; try done; [by eapply store_inv_ext|].
  intros w' Hi' Hs' Hc' Ht' Hg'. apply wp_bind, wp_gets, wp_bind, wp_gets, wp_lift.
  rewrite Hc', (ei_kek _ _ (si_env _ _ Hi')). pose proof (si_db _ _ Hi) as Hd.
  destruct (count_rows_spec (all_rows d) (dict_of (map (fun p => (p, zero_counts)) providers)))
    as (counts&->&Hc); [by apply all_rows_ok|].
  apply body_unchanged; try done. split; [done|]. exists providers. split; [done|].
  intros p. rewrite Hc, dict_of_zero. pose proof (all_metadata_perm d Hd) as Hperm.
  rewrite (count_of_perm p _ _ Hperm). 
  assert (p ∈ map sk_provider_id (map row_metadata (all_rows d)) <-> p ∈ map sk_provider_id (all_metadata d)) as Hin.
  { by rewrite Hperm. }
  destruct (decide (p ∈ map sk_provider_id (all_metadata d))) as [Hm|Hm].
  - rewrite decide_True, (decide_True (P := _ \/ _)) by naive_solver.
    case_decide; cbn; by rewrite add_counts_zero.
  - rewrite decide_False by naive_solver. rewrite count_of_none by naive_solver.
    repeat case_decide; naive_solver.
Qed.

(** Every key of the abstract store is stored under its own identifiers. *)
Lemma contents_keys d :
  db_ok d -> map_Forall (fun k x => key_of x.1 = k /\ meta_ok x.1) (contents d).
Proof.
  intros Hd k [m pt] Hk. rewrite contents_lookup in Hk.
  destruct (wrapped_keys d !! k) as [r|] eqn:E; [|done].
  destruct (row_contents d k r Hd E) as (m'&pt'&Hdec&_&Hp&Hkey&_&_&Hm). rewrite Hdec in Hk.
  injection Hk as <- <-. split; [|done]. unfold key_of. cbn. rewrite Hp, Hkey. by destruct k.
Qed.

(** [close] forgets the keys. *)
Lemma close_zeroes w : self_kek (self (close w).2) = [] /\ self_master_key (self (close w).2) = [].
Proof. done. Qed.
End Inv.
