(* ===== verification/StoreOpen.v ===== *)
(** Opening the store: what [__init__] makes of the files it finds, the run of a
    service process as a step relation with faults, power failures and restarts,
    and the persistence of keys along every run. *)

From S2P Require Import Prelude Utf8 PyText Uuid Json Base64 Sha256 World Store StoreSpec StoreInv.
From stdpp Require Import relations.
Open Scope Z_scope.

Section Open.
Context `{Aead} {laws : AeadLaws}.
Context (secrets_key : pystr) (mk K : bytes) (recovery : option bytes).

(** The master key that the configured secret and the recovery custody give. *)
Definition custody : Prop :=
  length mk = 32%nat /\
  exists m0, _master_key secrets_key = Ok m0 /\
  match recovery with
  | None => m0 = mk
  | Some sealed => length sealed = 60%nat /\ aes_decrypt m0 (take 12 sealed) (drop 12 sealed) RECOVERY_AAD = Ok mk
  end.

(** The content that [_initialize] makes of [d]. *)
Definition with_schema (d : Db) : Db :=
  match store_metadata d !! str "schema_version" with
  | None => mkDb (<[str "schema_version" := dump_int STORE_SCHEMA_VERSION]> (store_metadata d)) (wrapped_keys d)
  | Some _ => d
  end.

(** What a process that stopped leaves behind. *)
Record disk_ok (d : Db) (w : World) : Prop := {
  dk_kek : length K = 32%nat;
  dk_database : database w = Some d;
  dk_file : exists e, file_holds mk e w /\ kek e = K /\ agrees e (with_schema d);
  dk_recovery : recovery_master w = recovery;
  dk_db : db_ok K (with_schema d)
}.

Abbreviation store_inv := (store_inv mk K recovery).
Abbreviation env_inv := (env_inv mk K recovery).

Lemma with_schema_ok d : db_ok K d -> with_schema d = d.
Proof. intros [Hs _ _]. unfold with_schema. by rewrite Hs. Qed.

Lemma with_schema_idem d : with_schema (with_schema d) = with_schema d.
Proof.
  unfold with_schema at 2 3. destruct (store_metadata d !! _) eqn:E; unfold with_schema; cbn.
  - by rewrite E.
  - by rewrite lookup_insert_eq.
Qed.

Lemma contents_with_schema d : contents K (with_schema d) = contents K d.
Proof. unfold with_schema, contents. by destruct (store_metadata d !! _). Qed.

Lemma store_inv_disk d w : store_inv d w -> disk_ok d w.
Proof.
  intros [Hk He Hd Hdb]. split; try done; rewrite ?(with_schema_ok d Hdb); try done; apply He.
Qed.

Lemma disk_ok_ext d w w' :
  disk_ok d w -> kek_file w' = kek_file w -> recovery_master w' = recovery_master w ->
  database w' = database w -> disk_ok d w'.
Proof.
  intros [? ? ? ? ?] Hf Hr Hd. split; rewrite ?Hd, ?Hr; try done. unfold file_holds in *. by rewrite Hf.
Qed.

Lemma env_inv_disk d w :
  length K = 32%nat -> env_inv (with_schema d) w -> database w = Some d -> db_ok K (with_schema d) ->
  disk_ok d w.
Proof. intros Hk He Hd Hdb. split; try done; apply He. Qed.

(** What an envelope that opens satisfies. *)
Lemma payload_envelope_Ok items e :
  payload_envelope items = Ok e ->
  0 <= generation e /\
  forall c, pending_commitment e = Some c -> pending_generation e = Some (generation e + 1).
Proof.
  unfold payload_envelope. intros E. repeat case_match; res_inv; cbn; (split; [lia|]); try done.
  intros c' _. f_equal. lia.
Qed.

Lemma open_envelope_Ok contents e :
  open_envelope mk contents = Ok e ->
  0 <= generation e /\
  forall c, pending_commitment e = Some c -> pending_generation e = Some (generation e + 1).
Proof.
  unfold open_envelope. intros E. apply bind_Ok in E as (t&_&E). apply bind_Ok in E as (doc&_&E).
  destruct doc as [| | | | | |env]; try done. destruct (default _ _) as [| | | |fmt| |]; try done.
  do 3 (apply bind_Ok in E as (?&_&E)). apply bind_Ok in E as (st&E1&E). apply bind_Ok in E as (?&_&E).
  injection E as <-. case_decide.
  - apply bind_Ok in E1 as (k&_&E1). injection E1 as <-. done.
  - apply bind_Ok in E1 as (p&_&E1). apply bind_Ok in E1 as (j&_&E1). destruct j; try done.
    by eapply payload_envelope_Ok.
Qed.

Lemma file_holds_inj e e' w : file_holds mk e w -> file_holds mk e' w -> e = e'.
Proof. intros (ct&Hc&Ho) (ct'&Hc'&Ho'). congruence. Qed.

Lemma wp_recovery_master_key m0 (Q : res bytes -> World -> Prop) w :
  custody -> _master_key secrets_key = Ok m0 -> recovery_master w = recovery ->
  (forall f e, Q (Raise e) (set_faults f w)) -> (forall f, Q (Ok mk) (set_faults f w)) ->
  wp (recovery_master_key m0) Q w.
Proof.
  intros (Hmk&m1&Hm1&Hr) Hm0 Hrec He Ho. rewrite Hm0 in Hm1. injection Hm1 as <-.
  unfold recovery_master_key. apply wp_bind, wp_gets. rewrite Hrec.
  destruct recovery as [sealed|]; last first.
  { subst. apply wp_ret. specialize (Ho (faults w)). by destruct w. }
  destruct Hr as [Hl Hdec]. apply wp_catch, wp_bind, wp_io; intros f; [|apply wp_lift, He|apply He].
  apply wp_bind, wp_lift. unfold zlen. rewrite Hl. cbn [Z.of_nat Z.eqb negb raise_if].
  apply wp_bind, wp_lift. rewrite aead_key.
  - apply wp_lift. by rewrite Hdec.
  - unfold _master_key in Hm0. res_inv. apply sha256_length.
Qed.

(** Loading an existing envelope. *)
Lemma wp_load_kek e (Q : res (bytes * _KekEnvelope) -> World -> Prop) w :
  custody -> recovery_master w = recovery -> file_holds mk e w ->
  (forall f e, Q (Raise e) (set_faults f w)) -> (forall f, Q (Ok (mk, e)) (set_faults f w)) ->
  wp (_load_or_create_kek secrets_key false) Q w.
Proof.
  intros Hcu Hd (contents&Hf&Ho) He HQ. pose proof Hcu as (Hmk&m0&Hm0&_).
  unfold _load_or_create_kek. apply wp_bind, wp_lift. rewrite Hm0.
  apply wp_bind, wp_recovery_master_key; [done|done|done|apply He|]. intros f.
  apply wp_bind, wp_lift. rewrite aead_key by done. apply wp_bind, wp_gets. cbn [kek_file set_faults]. rewrite Hf.
  assert (forall f f', set_faults f' (set_faults f w) = set_faults f' w) as Hff by done.
  apply wp_catch, wp_bind, wp_io; intros f1; rewrite ?Hff; [|apply wp_lift, He|apply He].
  apply wp_bind, wp_lift. rewrite Ho.
  apply wp_bind, wp_io; intros f2; rewrite ?Hff; [|apply wp_lift, He|apply He].
  apply wp_ret, HQ.
Qed.

(** The outcome of opening [d]: the store is ready, or the files are still sound. *)
Definition opened {A} (d : Db) (r : res A) (w' : World) : Prop :=
  (is_ok r = true -> store_inv (with_schema d) w' /\ settled (with_schema d) w') /\
  exists d', (d' = d \/ d' = with_schema d) /\ disk_ok d' w'.

Lemma opened_raise {A} d d' e w' :
  (d' = d \/ d' = with_schema d) -> disk_ok d' w' -> opened d (@Raise A e) w'.
Proof. intros. split; [done|]. eauto. Qed.

Lemma opened_ok {A} d (a : A) w' :
  store_inv (with_schema d) w' -> settled (with_schema d) w' -> opened d (Ok a) w'.
Proof. intros Hi Hs. split; [done|]. exists (with_schema d). split; [by right|by apply store_inv_disk]. Qed.

(** The statements of [_initialize] up to the verification. *)
Lemma wp_schema_check d (Q : res unit -> World -> Prop) w :
  db_ok K (with_schema d) -> conn w = d -> in_transaction w = false ->
  (forall t, (t = false -> with_schema d = d) -> Q (Ok tt) (set_conn (with_schema d) t w)) ->
  wp (match store_metadata d !! str "schema_version" with
      | None =>
        _ ← lift (raise_if false (KeyStoreError "KMIP read-only store schema is incomplete."));
        modify (set_conn (mkDb (<[str "schema_version" := dump_int STORE_SCHEMA_VERSION]>
                                  (store_metadata d)) (wrapped_keys d)) true)
      | Some value =>
        lift (raise_if (negb (bool_decide (value = dump_int STORE_SCHEMA_VERSION)))
                (KeyStoreError "KMIP operational store schema version is unsupported."))
      end) Q w.
Proof.
  intros Hdb Hc Ht HQ. unfold with_schema in *. destruct (store_metadata d !! _) as [v|] eqn:E.
  - apply wp_lift. pose proof (do_schema _ _ Hdb) as Hv. rewrite E in Hv. injection Hv as ->.
    rewrite bool_decide_eq_true_2 by done. specialize (HQ false (fun _ => eq_refl)).
    destruct w; cbn in *; by subst.
  - by apply wp_bind, wp_lift, wp_modify, HQ.
Qed.

(** The end of the [with self._connect()] block. *)
Lemma wp_connect_end {A} (a : A) (Q : res A -> World -> Prop) D d w :
  conn w = D -> database w = Some d -> (in_transaction w = false -> d = D) ->
  (forall w', kek_file w' = kek_file w -> recovery_master w' = recovery_master w -> self w' = self w ->
     (forall e, database w' = Some d -> Q (Raise e) w') /\ (database w' = Some D -> Q (Ok a) w')) ->
  wp (_ ← catch is_Exception commit (fun e => _ ← rollback; lift (Raise e)); mret a) Q w.
Proof.
  intros Hc Hd Ht HQ. apply wp_bind, wp_catch. destruct (in_transaction w) eqn:E.
  - apply wp_commit; [done| |].
    + intros f e. destruct (is_Exception e); [|by apply HQ].
      apply wp_bind, (wp_rollback _ _ d); [done|]. by apply wp_lift, HQ.
    + intros f. apply wp_ret, HQ; try done. cbn. by rewrite Hc.
  - unfold commit. apply wp_bind, wp_gets. rewrite E. apply wp_ret, wp_ret, HQ; try done.
    by rewrite Hd, Ht.
Qed.

Lemma wp_initialize d w :
  length K = 32%nat -> env_inv (with_schema d) w -> database w = Some d -> db_ok K (with_schema d) ->
  wp _initialize (opened d) w.
Proof.
  intros Hk Hi Hd Hdb. unfold _initialize. apply wp_bind, wp_gets. rewrite (ei_read_only _ _ _ _ _ Hi).
  assert (forall w', env_inv (with_schema d) w' -> database w' = Some d -> disk_ok d w') as Hdisk.
  { intros. by apply env_inv_disk. }
  assert (forall (A : Type) e w', kek_file w' = kek_file w -> recovery_master w' = recovery_master w ->
    self w' = self w -> database w' = Some d -> opened d (@Raise A e) w') as Hraise.
  { intros. apply (opened_raise _ d); [by left|]. apply Hdisk; [by eapply env_inv_ext|done]. }
  apply wp_bind. unfold _connect. apply wp_bind, wp_io; intros f; [|by apply Hraise..].
  apply wp_bind, (wp_rollback _ _ d); [done|]. apply wp_bind, wp_catch.
  apply wp_bind. unfold execute_schema. apply wp_bind, wp_io; intros f1; cbn [is_Exception].
  2: { apply wp_bind, (wp_rollback _ _ d); [done|]. apply wp_lift. by apply Hraise. }
  2: { by apply Hraise. }
  apply wp_bind, wp_gets, wp_bind, wp_modify, wp_modify. cbn [set_faults set_conn database]. rewrite Hd. cbn [default from_option id].
  apply wp_bind, wp_gets. cbn [conn set_conn]. apply wp_bind, wp_schema_check; [done|done|done|].
  intros t Ht. set (w1 := set_conn _ t _).
  assert (env_inv (with_schema d) w1) as Hi1 by by eapply env_inv_ext.
  eapply wp_mono; [by apply (wp_verify mk K recovery (with_schema d))|].
  intros [u|e] w2 (Hi2&(Hd2&Hc2&Ht2)&Hr); cbn in Hd2, Hc2, Ht2.
  - destruct Hr as [Hs _]. eapply wp_connect_end; [done|done|intros Hf; symmetry; apply Ht; congruence|].
    intros w3 Hf3 Hr3 Hs3.
    assert (env_inv (with_schema d) w3) as Hi3 by by eapply env_inv_ext.
    split; [intros e Hd3; by apply (opened_raise _ d); [left|apply Hdisk]|].
    intros Hd3. apply wp_io; intros f3.
    + apply opened_ok; [split; [done|by eapply env_inv_ext|done|done]|].
      unfold settled in *. cbn. by rewrite Hs3.
    + apply (opened_raise _ (with_schema d)); [by right|]. apply store_inv_disk. split; [done|by eapply env_inv_ext|done|done].
    + apply (opened_raise _ (with_schema d)); [by right|]. apply store_inv_disk. split; [done|by eapply env_inv_ext|done|done].
  - destruct (is_Exception e).
    + apply wp_bind, (wp_rollback _ _ d); [done|]. apply wp_lift.
      apply (opened_raise _ d); [by left|]. apply Hdisk; [by eapply env_inv_ext|done].
    + apply (opened_raise _ d); [by left|]. by apply Hdisk.
Qed.

(** [__init__] of a writable store over sound files: it opens them, finishing an
    interrupted transaction, or leaves sound files. *)
Lemma wp_init d w :
  custody -> disk_ok d w -> wp (__init__ secrets_key false) (opened d) w.
Proof.
  intros Hcu Hd. pose proof Hd as [Hk Hdb (e&Hf&He&Ha) Hrec Hok].
  assert (forall f x, opened d (@Raise unit x) (set_faults f w)) as Hraise.
  { intros f x. apply (opened_raise _ d); [by left|]. by eapply disk_ok_ext. }
  unfold __init__. apply wp_bind, wp_gets, wp_bind, wp_lift. cbn [andb raise_if].
  apply wp_bind, wp_gets, wp_bind, wp_gets, wp_bind, wp_lift.
  pose proof Hf as (ct&Hct&Ho). rewrite Hdb, Hct. cbn.
  apply wp_bind, wp_io; intros f; [|apply Hraise..].
  apply wp_bind, (wp_load_kek e); [done|done|done|intros; apply Hraise|].
  intros f1. apply wp_bind, wp_modify.
  destruct (open_envelope_Ok _ _ Ho) as [Hg Hp].
  apply wp_initialize; [done| |done|done]. rewrite He. split; try done. by exists e.
Qed.

(* ------------------------------------------------------------------ *)
(** ** The run of a service *)

(** The methods a server calls. *)
Inductive call : Type :=
| CallCreate (provider_id : pystr) (name : option pystr) (attributes : list (pystr * pystr))
| CallActivate (provider_id key_id : pystr)
| CallGet (provider_id key_id : pystr)
| CallMetadata (provider_id key_id : pystr)
| CallLocate (provider_id : pystr) (state name : option pystr) (limit : Z)
| CallCounts (provider_ids : list pystr).

(** The world after a call, and whether the machine stopped in it. *)
Definition outcome {A} (r : res A * World) : bool * World :=
  (match r.1 with Raise PowerFailure => false | _ => true end, r.2).

Definition run (c : call) (w : World) : bool * World :=
  match c with
  | CallCreate p n a => outcome (create_key p n a w)
  | CallActivate p k => outcome (activate_key p k w)
  | CallGet p k => outcome (get_key p k w)
  | CallMetadata p k => outcome (get_metadata p k w)
  | CallLocate p s n l => outcome (locate_keys p s n l w)
  | CallCounts ps => outcome (lifecycle_counts ps w)
  end.

(** New random bytes, clock values and faults. *)
Definition supply (rnd : bytes) (clk : list Z) (f : list fault) (w : World) : World :=
  set_faults f (set_clock clk (set_random rnd w)).

(** A service is running ([true]) or not ([false]). *)
Inductive step : bool * World -> bool * World -> Prop :=
| step_call c rnd clk f w up w' :
    run c (supply rnd clk f w) = (up, w') -> step (true, w) (up, w')
| step_stop w : step (true, w) (false, w)
| step_open rnd clk f w r w' :
    __init__ secrets_key false (supply rnd clk f w) = (r, w') -> step (false, w) (is_ok r, w').

(** The invariant of a service: the store's while it runs, the files' while it does not. *)
Definition service_inv (d : Db) (s : bool * World) : Prop :=
  if s.1 then store_inv d s.2 else disk_ok d s.2.

(** What may become of a key: it is there for good, with the same material, and its
    only transition is from Pre-Active to Active. *)
Definition key_evolves (m m' : StoredKey) : Prop :=
  m' = m \/ sk_state m = Pre_Active /\ exists at_, m' = activated m at_.

Definition evolves (d d' : Db) : Prop :=
  forall k m plaintext, contents K d !! k = Some (m, plaintext) ->
  exists m', contents K d' !! k = Some (m', plaintext) /\ key_evolves m m'.

Lemma key_evolves_trans m1 m2 m3 : key_evolves m1 m2 -> key_evolves m2 m3 -> key_evolves m1 m3.
Proof.
  intros [->|(H1&a&->)] [->|(H2&b&->)]; [by left|right; eauto|right; eauto|]. cbn in H2. done.
Qed.

#[local] Instance evolves_refl : Reflexive evolves.
Proof. intros d k m pt Hk. exists m. split; [done|by left]. Qed.

#[local] Instance evolves_trans : Transitive evolves.
Proof.
  intros d1 d2 d3 H1 H2 k m pt Hk. destruct (H1 k m pt Hk) as (m2&Hk2&E2).
  destruct (H2 k m2 pt Hk2) as (m3&Hk3&E3). exists m3. split; [done|by eapply key_evolves_trans].
Qed.

Lemma created_evolves d p n a d' m : key_created K d p n a d' m -> evolves d d'.
Proof.
  intros (_&Hnone&pt&_&Hct) k m0 pt0 Hk. exists m0. split; [|by left].
  rewrite Hct, lookup_insert_ne; [done|]. intros <-. congruence.
Qed.

Lemma activated_evolves d p k d' m : db_ok K d -> key_activated K d p k d' m -> evolves d d'.
Proof.
  intros Hd (m0&pt&Hl&[(Hs&->&->)|(Hs&at_&->&Hct)]); [done|].
  destruct (lookup_key_Ok _ _ _ _ _ _ Hd Hl) as (r&_&_&Hc&_).
  intros q m1 pt1 Hq. rewrite Hct. change (key_of (activated m0 at_)) with (key_of m0).
  destruct (decide (q = key_of m0)) as [->|Hne].
  - rewrite Hc in Hq. injection Hq as <- <-. exists (activated m0 at_).
    rewrite lookup_insert_eq. split; [done|]. right. eauto.
  - exists m1. rewrite lookup_insert_ne by done. split; [done|by left].
Qed.

Lemma store_inv_service d up w : store_inv d w -> service_inv d (up, w).
Proof. intros Hi. destruct up; [done|]. by apply store_inv_disk. Qed.

Lemma mutated_service {A} d g (P : Db -> A -> Prop) (c : M A) w :
  wp c (mutated mk K recovery d g P) w -> (forall d' a, P d' a -> evolves d d') ->
  exists d', service_inv d' (outcome (c w)) /\ evolves d d'.
Proof.
  unfold wp, outcome. intros [[Hi _]|(d'&a&HP&Hi&_)] Hev.
  - exists d. split; [by apply store_inv_service|done].
  - exists d'. split; [by apply store_inv_service|by eapply Hev].
Qed.

(** Every call keeps the invariant and every key. *)
Lemma run_service c d w :
  store_inv d w -> exists d', service_inv d' (run c w) /\ evolves d d'.
Proof.
  intros Hi. destruct c; cbn [run].
  - eapply mutated_service; [by apply wp_create_key|]. intros. by eapply created_evolves.
  - eapply mutated_service; [by apply wp_activate_key|]. intros. eapply activated_evolves; [apply Hi|done].
  - eapply mutated_service; [by apply wp_get_key|]. by intros d' a [-> _].
  - eapply mutated_service; [by apply wp_get_metadata|]. by intros d' a [-> _].
  - eapply mutated_service; [by apply wp_locate_keys|]. by intros d' a [-> _].
  - eapply mutated_service; [by apply wp_lifecycle_counts|]. by intros d' a [-> _].
Qed.

Lemma step_service s s' d :
  custody -> step s s' -> service_inv d s -> exists d', service_inv d' s' /\ evolves d d'.
Proof.
  intros Hcu Hst. destruct Hst as [c rnd clk f w up w' Hrun|w|rnd clk f w r w' Hrun]; cbn; intros Hi.
  - destruct (run_service c d (supply rnd clk f w)) as (d'&Hd'&Hev); [by eapply store_inv_ext|].
    rewrite Hrun in Hd'. eauto.
  - exists d. split; [by apply store_inv_disk|done].
  - pose proof (wp_init d (supply rnd clk f w) Hcu) as Hw.
    eapply wp_run in Hw as [Ho (d'&Hd'&Hdk)]; [|by eapply disk_ok_ext|done].
    destruct (is_ok r).
    + exists (with_schema d). split; [by apply Ho|]. intros k m pt Hk. exists m.
      rewrite contents_with_schema. split; [done|by left].
    + exists d'. split; [done|]. intros k m pt Hk. exists m. split; [|by left].
      destruct Hd' as [-> | ->]; [done|by rewrite contents_with_schema].
Qed.

Lemma run_steps_service s s' d :
  custody -> rtc step s s' -> service_inv d s -> exists d', service_inv d' s' /\ evolves d d'.
Proof.
  intros Hcu Hst. revert d. induction Hst as [s|s1 s2 s3 H1 _ IH]; intros d Hi; [by exists d|].
  destruct (step_service s1 s2 d Hcu H1 Hi) as (d2&Hi2&E2).
  destruct (IH d2 Hi2) as (d3&Hi3&E3). exists d3. split; [done|by etrans].
Qed.
End Open.
