(* ===== verification/StoreLive.v ===== *)
(** Progress of the store: with no I/O fault ahead its operations succeed, so that the
    outcomes that [StoreInv.v] describes are reached: writing an envelope, committing a
    mutation, creating a key, looking one up, and opening a new store. *)

From S2P Require Import Prelude Utf8 PyText Uuid Json Base64 Sha256 World Store StoreSpec StoreInv StoreOpen.
Open Scope Z_scope.

(** [c] returns, with no fault ahead, a result and a world in [Q]. *)
Definition live {A} (c : M A) (Q : A -> World -> Prop) (w : World) : Prop :=
  wp c (fun r w' => match r with Ok a => faults w' = [] /\ Q a w' | Raise _ => False end) w.

Lemma live_run {A} (c : M A) Q w : live c Q w -> exists a w', c w = (Ok a, w') /\ faults w' = [] /\ Q a w'.
Proof. unfold live, wp. destruct (c w) as [[a|e] w']; cbn; [|done]. intros [? ?]. eauto. Qed.

Lemma live_eq {A} (c : M A) (Q : A -> World -> Prop) w a w' :
  c w = (Ok a, w') -> faults w' = [] -> Q a w' -> live c Q w.
Proof. unfold live, wp. by intros ->. Qed.

Lemma live_ret {A} (a : A) (Q : A -> World -> Prop) w : faults w = [] -> Q a w -> live (mret a) Q w.
Proof. done. Qed.

Lemma live_bind {A B} (c : M A) (k : A -> M B) Q w :
  live c (fun a w' => faults w' = [] -> live (k a) Q w') w -> live (c ≫= k) Q w.
Proof.
  intros Hc. apply wp_bind. unfold live in *. eapply wp_mono; [exact Hc|]. intros [a|e] w'; [|done].
  intros [Hf Hk]. by apply Hk.
Qed.

Lemma live_mono {A} (c : M A) (P Q : A -> World -> Prop) w :
  live c P w -> (forall a w', faults w' = [] -> P a w' -> Q a w') -> live c Q w.
Proof. intros Hc HPQ. unfold live in *. eapply wp_mono; [exact Hc|]. intros [a|e] w'; [|done]. intros [? ?]. auto. Qed.

Lemma live_lift {A} (a : A) r (Q : A -> World -> Prop) w :
  faults w = [] -> r = Ok a -> Q a w -> live (lift r) Q w.
Proof. by intros ? ->. Qed.

Lemma live_gets {A} (f : World -> A) (Q : A -> World -> Prop) w : faults w = [] -> Q (f w) w -> live (gets f) Q w.
Proof. done. Qed.

Lemma live_modify f (Q : unit -> World -> Prop) w :
  faults (f w) = [] -> Q tt (f w) -> live (modify f) Q w.
Proof. done. Qed.

Lemma live_catch {A} classes (c : M A) h Q w : live c Q w -> live (catch classes c h) Q w.
Proof. intros Hc. apply wp_catch. unfold live in *. eapply wp_mono; [exact Hc|]. by intros [a|e] w'. Qed.

Lemma live_io e (Q : unit -> World -> Prop) w : faults w = [] -> Q tt w -> live (io e) Q w.
Proof. intros Hf HQ. unfold live, wp, io. rewrite Hf. done. Qed.

Lemma live_urandom n (Q : bytes -> World -> Prop) w :
  faults w = [] ->
  (length (take_pad x00 n (random w)) = n -> Q (take_pad x00 n (random w)) (set_random (drop n (random w)) w)) ->
  live (urandom n) Q w.
Proof. intros Hf HQ. split; [done|]. apply HQ, take_pad_length. Qed.

Lemma live_uuid4 (Q : Z -> World -> Prop) w :
  faults w = [] ->
  Q (uuid4_bits (take_pad x00 16 (random w))) (set_random (drop 16 (random w)) w) -> live uuid4 Q w.
Proof. intros Hf HQ. apply live_bind, live_urandom; [done|]. intros _ _. by apply live_ret. Qed.

Lemma live_now (Q : pystr -> World -> Prop) w :
  faults w = [] -> (forall us c, Q (isoformat us) (set_clock c w)) -> live now_isoformat Q w.
Proof. intros Hf HQ. split; [done|]. apply HQ. Qed.

(** Adding what is known of every outcome. *)
Lemma live_wp {A} (c : M A) P (Q : res A -> World -> Prop) w :
  live c P w -> wp c Q w -> live c (fun a w' => P a w' /\ Q (Ok a) w') w.
Proof. unfold live, wp. destruct (c w) as [[a|e] w']; cbn; tauto. Qed.

Ltac live_gets := apply live_bind, live_gets; [done|intros _].

(** Generations below [2^64] stay far from the limit of integer texts. *)
Definition small (g : Z) : Prop := 0 <= g < 2 ^ 64.

Lemma small_text g : small g -> int_text_limit g = Ok tt /\ int_text_limit (g + 1) = Ok tt.
Proof.
  unfold small, int_text_limit. intros Hg.
  pose proof (digits_length 10 (Z.abs g) 20). pose proof (digits_length 10 (Z.abs (g + 1)) 20).
  change (10 ^ Z.of_nat 20) with 100000000000000000000 in *.
  unfold zlen, int_max_str_digits. rewrite !(proj2 (Z.ltb_ge _ _)) by lia. done.
Qed.

Section Live.
Context `{Aead} {laws : AeadLaws}.

(* ------------------------------------------------------------------ *)
(** ** Sizes *)

Lemma int_bound g : 0 <= g <= 2 ^ 64 -> json_bound (JInt g) <= 21.
Proof.
  intros Hg. cbn [json_bound]. pose proof (digits_length 10 (Z.abs g) 20) as Hd.
  change (10 ^ Z.of_nat 20) with 100000000000000000000 in Hd. unfold zlen. lia.
Qed.

Lemma digest_bound c : c = [] \/ is_digest c -> zlen c <= 64.
Proof. unfold zlen. intros [->|[-> _]]; cbn; lia. Qed.

Lemma payload_bound e :
  writable e -> small (generation e) -> json_bound (JDict (envelope_payload e)) < 2 ^ 20.
Proof.
  intros [Hk _ Hc Hp] Hg. unfold small in Hg. apply digest_bound in Hc.
  pose proof (b64encode_length (kek e)) as Hb. unfold zlen in Hb at 2. rewrite Hk in Hb.
  pose proof (int_bound (generation e) ltac:(lia)) as Hi.
  assert (json_bound (json_opt_int (pending_generation e)) <= 21 /\
          json_bound (json_opt_str (pending_commitment e)) <= 2 + 12 * 64) as [Hpg Hpc].
  { destruct Hp as [[-> ->]|[-> (c&->&Hd)]]; [by cbn|].
    split; [apply int_bound; lia|]. cbn [json_opt_str json_bound]. pose proof (digest_bound c (or_intror Hd)). lia. }
  unfold envelope_payload. cbn [json_bound foldr fst snd] in *.
  repeat match goal with |- context [zlen (str ?s)] => let n := eval vm_compute in (zlen (str s)) in
    change (zlen (str s)) with n end. lia.
Qed.

Lemma dumps_bytes_size v b : dumpable v -> dumps_bytes v = Ok b -> zlen b <= json_bound v.
Proof.
  intros Hv. rewrite dumps_bytes_ok by done. intros E. injection E as <-. unfold zlen at 1.
  rewrite length_map. apply (dumps_compact_bound v Hv).
Qed.

(** A writable envelope can be sealed. *)
Lemma seal_envelope_total mk e nonce :
  length mk = 32%nat -> length nonce = 12%nat -> writable e -> small (generation e) ->
  exists contents, seal_envelope mk e nonce = Ok contents.
Proof.
  intros Hmk Hn Hw Hg. destruct (small_text _ Hg) as [H1 H2].
  assert (match pending_generation e with Some g => int_text_limit g | None => Ok tt end = Ok tt) as Hp.
  { destruct (wr_pending _ Hw) as [[-> _]|[-> _]]; done. }
  assert (dumpable (JDict (envelope_payload e))) as Hd.
  { apply payload_dumpable; [done|by eapply int_text_limit_Ok|]. intros g E. rewrite E in Hp.
    by eapply int_text_limit_Ok. }
  unfold seal_envelope. rewrite H1, Hp, (dumps_bytes_ok _ Hd), aead_key by done. cbn [mbind res_bind].
  destruct (aead_encrypt_total mk nonce (map to_byte (dumps_compact (JDict (envelope_payload e)))) KEK_AAD)
    as (c&->); try done.
  { pose proof (dumps_bytes_size _ _ Hd (dumps_bytes_ok _ Hd)). pose proof (payload_bound e Hw Hg). lia. }
  cbn [mbind res_bind]. rewrite (dumps_bytes_ok _ (document_dumpable nonce c)). cbn [mbind res_bind]. eauto.
Qed.

(** A sound database has a commitment. *)
Lemma row_document_dumpable K k r : row_ok K k r -> dumpable (row_document r).
Proof.
  intros (_&_&m&pt&Hd&Hm). unfold _decrypt_row in Hd. apply bind_Ok in Hd as (m'&Hmt&Hd).
  apply bind_Ok in Hd as (?&_&Hd). apply bind_Ok in Hd as (b&Hb&Hd). apply attribute_scalar in Hb.
  assert (m' = m) as -> by (res_inv; done). clear Hd.
  unfold _metadata in Hmt. apply bind_Ok in Hmt as (at_&_&E). injection E as <-.
  destruct Hm as [Hp Hk Ha Hl Hn Hs Hc Hac _]. cbn in Hp, Hk, Ha, Hl, Hn, Hs, Hc, Hac.
  apply dumpable_dict. split; [by apply (bool_decide_unpack _)|].
  repeat (apply Forall_cons; split); [..|constructor]; (split; [by repeat constructor|]); cbn; try done.
  - rewrite Ha. by repeat constructor.
  - by rewrite Hl.
  - by destruct (row_name r).
  - destruct Hs as [-> | ->]; by repeat constructor.
  - by destruct (row_activated_at r).
  - by apply ascii_scalar, b64encode_ascii.
  - by apply ascii_scalar, b64encode_ascii.
Qed.

Lemma commitment_dumpable K d : db_ok K d -> dumpable (commitment_document d).
Proof.
  intros [_ Hm Hr].
  apply dumpable_dict. split; [by apply (bool_decide_unpack _)|].
  repeat (apply Forall_cons; split); [..|constructor]; (split; [by repeat constructor|]).
  - by repeat constructor.
  - apply dumpable_list, Forall_map, Forall_forall. intros [k v] Hin. cbn -[dumpable].
    rewrite sorted_items_perm in Hin. apply elem_of_map_to_list in Hin.
    destruct (Hm _ _ Hin). apply dumpable_list. by repeat constructor.
  - apply dumpable_list, Forall_map, Forall_forall. intros r Hin. unfold all_rows in Hin.
    apply list_elem_of_fmap in Hin as ([k r']&->&Hin). rewrite merge_sort_Permutation in Hin.
    apply elem_of_map_to_list in Hin. cbn. by eapply row_document_dumpable, Hr.
Qed.

Lemma commitment_total K d : db_ok K d -> exists c, _store_commitment d = Ok c.
Proof.
  intros Hd. unfold _store_commitment. rewrite (dumps_bytes_ok _ (commitment_dumpable K d Hd)).
  cbn [mbind res_bind]. eauto.
Qed.

(** Metadata with texts of moderate size. *)
Record short (m : StoredKey) : Prop := {
  sh_provider : zlen (sk_provider_id m) <= 64;
  sh_key : zlen (sk_key_id m) <= 64;
  sh_name : match sk_name m with Some n => zlen n <= 256 | None => True end;
  sh_created : zlen (sk_created_at m) <= 64;
  sh_activated : match sk_activated_at m with Some a => zlen a <= 64 | None => True end
}.

Lemma attributes_bound l : valid_attributes l -> json_bound (JDict (json_attributes l)) <= 2 ^ 16.
Proof.
  intros Hl. pose proof (supported_length l Hl) as Hn. change (zlen VSPHERE_CUSTOM_ATTRIBUTES) with 5 in Hn.
  cbn [json_bound]. unfold json_attributes.
  rewrite (foldr_sum_map _ (fun kv => 4 + 12 * zlen kv.1 + json_bound kv.2)).
  assert (foldr (fun x acc => (4 + 12 * zlen x.1 + json_bound (JStr x.2)) + acc) 0 l <= 6800 * zlen l); [|cbn [fst snd]; lia].
  clear Hn. destruct Hl as [_ Hs Hv _]. induction l as [|[k v] l IH]; [done|].
  apply Forall_cons in Hs as [Hk Hs]. apply Forall_cons in Hv as [(b&Hb&Hlen) Hv]. cbn in Hk, Hb.
  cbn [foldr fst snd json_bound]. rewrite zlen_cons. specialize (IH Hs Hv). cbn [fst snd json_bound] in IH.
  apply utf8_encode_size in Hb. pose proof (utf8_size_length v). unfold MAX_CUSTOM_ATTRIBUTE_VALUE_BYTES in Hlen.
  assert (zlen k <= 17); [|lia]. revert Hk. revert k. apply Forall_forall. by repeat constructor.
Qed.

Lemma aad_bound m : meta_ok m -> short m -> json_bound (JDict (aad_document m)) < 2 ^ 20.
Proof.
  intros Hm [Hp Hk Hn Hc Ha]. pose proof (attributes_bound _ (mo_attributes m Hm)) as Hat.
  assert (json_bound (json_opt_str (sk_name m)) <= 3100 /\ json_bound (json_opt_str (sk_activated_at m)) <= 800)
    as [Hn' Ha'] by (destruct (sk_name m), (sk_activated_at m); cbn [json_opt_str json_bound]; lia).
  assert (zlen (sk_state m) <= 10) as Hs by (destruct (mo_state m Hm) as [-> | ->]; by vm_compute).
  unfold aad_document. rewrite (mo_algorithm m Hm), (mo_length m Hm).
  assert (json_bound (JDict (match sk_custom_attributes m with
      | [] => []
      | attributes => [(str "custom_attributes", JDict (dict_of (map (fun kv => (kv.1, JStr kv.2)) attributes)))]
      end)) <= 2 ^ 16 + 300) as Hx.
  { destruct (sk_custom_attributes m) as [|a l] eqn:E; [cbn; lia|].
    fold (json_attributes (a :: l)). rewrite dict_of_json_attributes by (rewrite <- E; apply Hm).
    cbn [json_bound foldr fst snd] in Hat |- *. change (zlen (str "custom_attributes")) with 17. lia. }
  cbn [json_bound] in Hx |- *. rewrite foldr_app.
  set (rest := foldr _ 0 _) in *. cbn [foldr fst snd json_bound].
  repeat match goal with |- context [zlen (str ?s)] => let n := eval vm_compute in (zlen (str s)) in
    change (zlen (str s)) with n end.
  repeat match goal with |- context [zlen (digits 10 ?z)] => let n := eval vm_compute in (zlen (digits 10 z)) in
    change (zlen (digits 10 z)) with n end.
  lia.
Qed.

(** The metadata of a short key can be authenticated. *)
Lemma encrypt_total K m nonce plaintext :
  meta_ok m -> short m -> length K = 32%nat -> length nonce = 12%nat -> length plaintext = 32%nat ->
  exists aad c, _canonical_aad m = Ok aad /\ aes_encrypt K nonce plaintext aad = Ok c.
Proof.
  intros Hm Hs HK Hn Hp. destruct (canonical_aad_ok m Hm) as [E _].
  pose proof (aad_document_dumpable m Hm) as Hd.
  destruct (aead_encrypt_total K nonce plaintext (map to_byte (dumps_compact (JDict (aad_document m))))) as (c&Hc);
    try done.
  - unfold zlen. rewrite Hp. done.
  - pose proof (aad_bound m Hm Hs). pose proof (dumps_bytes_size _ _ Hd (dumps_bytes_ok _ Hd)). lia.
  - eauto.
Qed.

Lemma sql_length_nul n : 0 ∉ n -> sql_length n = zlen n.
Proof.
  induction n as [|c n IH]; [done|]. intros Hn. apply not_elem_of_cons in Hn as [Hc Hn].
  cbn [sql_length]. rewrite zlen_cons, (proj2 (Z.eqb_neq c 0)), IH by (done || lia). done.
Qed.

(* ------------------------------------------------------------------ *)
(** ** Operations *)

Context (mk K : bytes) (recovery : option bytes).
Abbreviation store_inv := (store_inv mk K recovery).
Abbreviation env_inv := (env_inv mk K recovery).

Lemma live_write_kek_envelope e w :
  faults w = [] -> length mk = 32%nat -> writable e -> small (generation e) ->
  live (_write_kek_envelope mk e) (fun _ w' => exists contents rnd,
    open_envelope mk contents = Ok e /\ w' = set_kek_file (Some contents) (set_random rnd w)) w.
Proof.
  intros Hf Hmk Hw Hg. unfold _write_kek_envelope. apply live_bind, live_urandom; [done|]. intros Hn _.
  destruct (seal_envelope_total mk e _ Hmk Hn Hw Hg) as (contents&Hc).
  apply live_bind. eapply live_lift; [done|exact Hc|]. intros _.
  apply live_bind, live_uuid4; [done|]. intros _.
  apply live_bind, live_io; [done|]. intros _. apply live_bind, live_modify; [done|]. intros _.
  apply live_io; [done|]. eexists contents, _. split; [by eapply open_seal|done].
Qed.

Lemma live_write_envelope e w :
  faults w = [] -> length mk = 32%nat -> self_master_key (self w) = mk -> writable e -> small (generation e) ->
  live (_write_envelope e) (fun _ w' => exists contents rnd,
    open_envelope mk contents = Ok e /\
    w' = set_envelope e (set_kek_file (Some contents) (set_random rnd w))) w.
Proof.
  intros Hf Hmk Hm Hw Hg. unfold _write_envelope. apply live_bind, live_gets; [done|]. intros _. rewrite Hm.
  apply live_bind. eapply live_mono; [by apply live_write_kek_envelope|].
  intros u w' Hf' (ct&rnd&Ho&->) _. apply live_modify; [done|]. by exists ct, rnd.
Qed.

(** Verifying a settled store changes nothing. *)
Lemma live_verify d (Q : unit -> World -> Prop) w :
  faults w = [] -> self_read_only (self w) = false -> conn w = d -> settled d w -> Q tt w ->
  live _verify_store_commitment Q w.
Proof.
  intros Hf Hro Hd [Hc Hp] HQ. unfold _verify_store_commitment.
  apply live_bind, live_gets; [done|]. intros _. apply live_bind.
  eapply live_lift; [done|rewrite Hd; exact Hc|]. intros _.
  do 3 (apply live_bind, live_gets; [done|intros _]). rewrite Hro.
  apply store_commitment_digest in Hc. apply digest_nonempty in Hc.
  rewrite bool_decide_eq_false_2, bool_decide_eq_true_2, bool_decide_eq_false_2 by (done || by rewrite Hp; intros [? ?]).
  by apply live_ret.
Qed.

Lemma live_commit (Q : unit -> World -> Prop) w :
  faults w = [] -> in_transaction w = true ->
  Q tt (set_conn (conn w) false (set_database (Some (conn w)) w)) -> live commit Q w.
Proof.
  intros Hf Ht HQ. unfold commit. apply live_bind, live_gets; [done|]. intros _. rewrite Ht.
  apply live_bind, live_io; [done|]. intros _. apply live_bind, live_gets; [done|]. intros _.
  apply live_bind, live_modify; [done|]. intros _. by apply live_modify.
Qed.

(** A mutation of a settled store is committed. *)
Lemma live_commit_mutation d d' w :
  faults w = [] -> length mk = 32%nat -> length K = 32%nat -> env_inv d w -> settled d w ->
  conn w = d' -> in_transaction w = true -> db_ok K d' -> small (generation (self_envelope (self w)) + 1) ->
  live _commit_mutation (fun _ _ => True) w.
Proof.
  intros Hf Hmk HK Hi [Hc Hp] Hd' Ht Hok Hg. unfold _commit_mutation.
  pose proof (ei_generation _ _ _ _ _ Hi) as Hg0.
  destruct (commitment_total K d' Hok) as (c'&Hc').
  do 3 (apply live_bind, live_gets; [done|intros _]). rewrite (ei_kek _ _ _ _ _ Hi), Hd'.
  apply live_bind. eapply live_lift; [done|exact Hc'|]. intros _.
  pose proof (store_commitment_digest _ _ Hc) as Hdig. pose proof (store_commitment_digest _ _ Hc') as Hdig'.
  apply live_bind. eapply live_mono; [apply live_write_envelope; [done|done|apply Hi|by apply writable_pending|]|].
  { unfold small in *. cbn. lia. }
  intros u w1 Hf1 (ct&rnd&_&->) _.
  apply live_bind, live_catch, live_commit; [done|done|]. intros _.
  eapply live_mono; [apply live_write_envelope; [done|done|apply Hi|apply writable_settled; try done; lia|done]|].
  done.
Qed.

(** Running a body in a connection. *)
Lemma live_connect {A} (body : M A) d (Q : A -> World -> Prop) w :
  faults w = [] -> database w = Some d ->
  live body (fun a w' => in_transaction w' = false /\ Q a w') (set_conn d false w) ->
  live (_connect body) Q w.
Proof.
  intros Hf Hd Hb. unfold _connect. apply live_bind, live_io; [done|]. intros _.
  apply live_bind. unfold rollback. apply live_bind, live_gets; [done|]. intros _.
  apply live_modify; [done|]. intros _. rewrite Hd. cbn [default from_option id].
  apply live_bind, live_catch. eapply live_mono; [exact Hb|]. intros a w' Hf' [Ht HQ] _.
  apply live_bind, live_catch. unfold commit. apply live_bind, live_gets; [done|]. intros _. rewrite Ht.
  apply live_ret; [done|]. intros _. by apply live_ret.
Qed.

(** Names the table accepts. *)
Definition name_ok (name : option pystr) : Prop :=
  match name with Some n => scalar_text n /\ (0 ∉ n) /\ 1 <= zlen n <= 256 | None => True end.

(** The identifier [create_key] is going to draw. *)
Definition next_key (w : World) : pystr := uuid_str (uuid4_bits (take_pad x00 16 (random w))).

Lemma created_short p name attributes m us :
  created p name attributes m -> name_ok name -> sk_created_at m = isoformat us -> short m.
Proof.
  intros [Hp Hk _ _ Hn _ Ha _] Hok Hc. apply validated_uuid_Ok in Hp as (n&_&Ep). destruct Hk as (k&_&Ek).
  split; rewrite ?Ep, ?Ek, ?uuid_str_length, ?Hc, ?Ha, ?Hn; try done.
  - destruct name; [|done]. apply Hok.
  - pose proof (isoformat_length us). lia.
Qed.

Lemma live_create_body p name attributes m us aad plaintext nonce ct d w :
  faults w = [] -> length mk = 32%nat -> store_inv d w -> settled d w -> conn w = d -> in_transaction w = false ->
  small (generation (self_envelope (self w)) + 1) ->
  created p name attributes m -> sk_created_at m = isoformat us -> name_ok name -> contents K d !! key_of m = None ->
  _canonical_aad m = Ok aad -> length plaintext = 32%nat -> length nonce = 12%nat ->
  aes_encrypt K nonce plaintext aad = Ok ct ->
  live (_ ← _verify_store_commitment;
        aad_json ← lift (utf8_decode aad);
        _ ← insert_row (key_row m nonce ct aad_json);
        _ ← _commit_mutation;
        mret m) (fun m' w' => m' = m /\ in_transaction w' = false) w.
Proof.
  intros Hf Hmk Hi Hs Hc Ht Hg Hcr Hus Hnm Hnone Haad Hpt Hnon Henc.
  assert (bind_text name = Ok tt) as Hb.
  { destruct name as [n|]; [|done]. cbn. destruct Hnm as [Hn _]. apply utf8_encode_ok in Hn as [b ->]. done. }
  pose proof (created_meta_ok _ _ _ _ _ Hcr Hus Hb) as Hm.
  destruct (canonical_aad_ok m Hm) as [E Hj]. rewrite E in Haad. injection Haad as <-.
  pose proof (decrypt_key_row K m nonce plaintext _ _ ct Hm (si_kek _ _ _ _ _ Hi) Hpt E Hj Henc) as Hdec.
  set (r := key_row m nonce ct _) in *.
  assert (row_check r = true) as Hck.
  { unfold row_check, r. cbn [row_algorithm row_key_length row_name row_state row_nonce key_row].
    destruct Hcr as [_ _ Ha Hl Hn Hst _ _]. rewrite Ha, Hl, Hn, Hst. unfold zlen at 1. rewrite Hnon. cbn.
    destruct name as [n|]; [|done]. destruct Hnm as (_&Hz&Hlen). rewrite sql_length_nul by done.
    rewrite (proj2 (Z.leb_le _ _)), (proj2 (Z.leb_le _ _)) by lia. done. }
  destruct (insert_row_ok K d (key_of m) r m plaintext (si_db _ _ _ _ _ Hi) eq_refl Hck Hdec Hm) as [Hd' _].
  apply live_bind, (live_verify d); [done|apply Hi|done|done|]. intros _.
  apply live_bind. eapply live_lift; [done|exact Hj|]. intros _.
  apply live_bind. unfold insert_row. apply live_bind.
  eapply live_lift; [done|cbn; rewrite (cr_name _ _ _ _ Hcr); exact Hb|]. intros _.
  apply live_bind, live_gets; [done|]. intros _. rewrite (ei_read_only _ _ _ _ _ (si_env _ _ _ _ _ Hi)).
  apply live_bind. eapply live_lift; [done|done|]. intros _.
  apply live_bind, live_gets; [done|]. intros _. fold r. rewrite Hck, Hc.
  apply live_bind. eapply live_lift; [done|done|]. intros _.
  apply live_bind. eapply live_lift; [done| |].
  { rewrite bool_decide_eq_false_2; [done|]. apply contents_None in Hnone; [|apply Hi].
    unfold r, key_of in *. cbn. rewrite Hnone. by intros [? ?]. }
  intros _. apply live_modify; [done|]. intros _.
  set (w1 := set_conn _ true w).
  assert (env_inv d w1) as Hi1 by (eapply env_inv_ext; [apply Hi|done..]).
  apply live_bind. eapply live_mono.
  - eapply live_wp.
    + eapply (live_commit_mutation d); [done|done|apply Hi|done|done|done|done|done|done].
    + eapply (wp_commit_mutation mk K recovery d); [apply Hi|done|done|apply Hi|done|done].
  - intros u w' Hf' [_ [(_&_&?)|(_&_&Ht'&_)]] _; [done|]. by apply live_ret.
Qed.

(** [create_key] succeeds on a settled store for valid arguments, when the identifier it
    draws is new. *)
Lemma live_create_key p name attributes d w :
  faults w = [] -> length mk = 32%nat -> store_inv d w -> settled d w ->
  small (generation (self_envelope (self w)) + 1) ->
  is_ok (_validated_uuid p "provider_id must be a UUID.") = true ->
  is_ok (_validated_custom_attributes (json_attributes attributes)) = true -> name_ok name ->
  (forall provider, contents K d !! (provider, next_key w) = None) ->
  live (create_key p name attributes) (fun _ _ => True) w.
Proof.
  intros Hf Hmk Hi Hs Hg Hp Hat Hnm Hnew. unfold create_key.
  destruct (_validated_uuid p _) as [provider|] eqn:Ep; [|done].
  apply live_bind. eapply live_lift; [done|done|]. intros _. fold (json_attributes attributes).
  destruct (_validated_custom_attributes _) as [at_|] eqn:Ea; [|done].
  apply live_bind. eapply live_lift; [done|done|]. intros _.
  apply live_bind. eapply live_lift; [done| |].
  { unfold bad_name. destruct name as [n|]; [|done]. destruct Hnm as (_&_&Hl).
    rewrite (proj2 (Z.leb_le _ _)), (proj2 (Z.leb_le _ _)) by lia. done. }
  intros _. apply live_bind, live_uuid4; [done|]. intros _. fold (next_key w).
  apply live_bind, live_now; [done|]. intros us clk _.
  set (m := mkStoredKey _ _ _ _ _ _ _ _ _).
  assert (created p name attributes m) as Hcr.
  { split; try done. exists (uuid4_bits (take_pad x00 16 (random w))).
    split; [apply uuid4_bits_range, take_pad_length|done]. }
  assert (bind_text name = Ok tt) as Hb.
  { destruct name as [n|]; [|done]. cbn. destruct Hnm as [Hn _]. apply utf8_encode_ok in Hn as [b ->]. done. }
  pose proof (created_meta_ok _ _ _ _ us Hcr eq_refl Hb) as Hm.
  destruct (canonical_aad_ok m Hm) as [E _].
  apply live_bind. eapply live_lift; [done|exact E|]. intros _.
  apply live_bind, live_urandom; [done|]. intros Hpt _. set (plaintext := take_pad _ 32 _) in *.
  apply live_bind, live_urandom; [done|]. intros Hnon _. set (nonce := take_pad _ 12 _) in *.
  apply live_bind, live_gets; [done|]. intros _. set (w1 := set_random _ _).
  assert (store_inv d w1) as Hi1 by by eapply store_inv_ext.
  rewrite (ei_kek _ _ _ _ _ (si_env _ _ _ _ _ Hi1)).
  apply live_bind. eapply live_lift; [done|apply aead_key, Hi|]. intros _.
  destruct (encrypt_total K m nonce plaintext Hm) as (aad&ct&E'&Henc); try done;
    [by eapply created_short|apply Hi|].
  rewrite E in E'. injection E' as <-.
  apply live_bind. eapply live_lift; [done|exact Henc|]. intros _.
  apply (live_connect _ d); [done|apply Hi|].
  eapply live_mono; [eapply (live_create_body p name attributes m us _ plaintext nonce ct d); try done|].
  - by eapply store_inv_ext.
  - apply Hnew.
  - by intros m' w' _ [_ ?].
Qed.

Lemma connect_Ok {A} (body : M A) w a w' :
  _connect body w = (Ok a, w') -> exists w1 w2, body w1 = (Ok a, w2).
Proof.
  intros E. unfold _connect in E. do 2 (apply run_bind_Ok in E as (?&?&_&E)).
  apply run_bind_Ok in E as (b&w2&Eb&E). apply run_bind_Ok in E as (?&?&_&E). injection E as -> _.
  apply catch_Ok in Eb as [Eb|(e&w3&_&_&Eb)]; [eauto|].
  apply run_bind_Ok in Eb as (?&?&_&Eb). done.
Qed.

(** The identifier of the key that [create_key] returns. *)
Lemma create_key_id p name attributes w m w' :
  create_key p name attributes w = (Ok m, w') -> sk_key_id m = next_key w.
Proof.
  intros E. unfold create_key in E.
  do 3 (apply run_bind_Ok in E as (?&?&Ex&E); apply lift_run in Ex as [_ <-]).
  apply run_bind_Ok in E as (n&w1&En&E). injection En as <- _.
  apply run_bind_Ok in E as (at_&w2&_&E). do 6 (apply run_bind_Ok in E as (?&?&_&E)).
  apply connect_Ok in E as (w3&w4&E). do 4 (apply run_bind_Ok in E as (?&?&_&E)). injection E as <- _. done.
Qed.

(* ------------------------------------------------------------------ *)
(** ** Reading *)

Lemma verify_settled d w :
  self_read_only (self w) = false -> conn w = d -> settled d w -> _verify_store_commitment w = (Ok tt, w).
Proof.
  intros Hro Hc [Hs Hp]. unfold _verify_store_commitment, mbind, ST_bind, gets, lift. rewrite Hc, Hs, Hro.
  apply store_commitment_digest in Hs. apply digest_nonempty in Hs.
  rewrite bool_decide_eq_false_2, bool_decide_eq_true_2, bool_decide_eq_false_2
    by (done || by rewrite Hp; intros [? ?]). done.
Qed.

(** A connection whose body changes nothing. *)
Lemma connect_read {A} (body : M A) r d w :
  faults w = [] -> database w = Some d ->
  body (set_conn d false w) = (r, set_conn d false w) -> _connect body w = (r, set_conn d false w).
Proof.
  intros Hf Hd Hb. unfold _connect, mbind, ST_bind at 1, io. rewrite Hf.
  unfold ST_bind at 1, rollback, mbind, ST_bind at 1, gets. cbn [database]. rewrite Hd.
  cbn [default from_option id]. unfold modify. unfold ST_bind at 1, catch at 1. rewrite Hb.
  destruct r as [a|e]; [done|]. destruct (is_Exception e); [|done].
  unfold ST_bind, gets, lift. cbn [database set_conn]. by rewrite Hd.
Qed.

(** A settled store, ready for the next call. *)
Record ready (d : Db) (w : World) : Prop := {
  rd_faults : faults w = [];
  rd_inv : store_inv d w;
  rd_settled : settled d w
}.

Lemma ready_conn d w : ready d w -> ready d (set_conn d false w).
Proof. intros [? Hi Hs]. split; [done|by eapply store_inv_ext|done]. Qed.

Lemma verified_row_exact p k d w :
  ready d w -> conn w = d -> verified_row p k w = (lookup_key K d p k, w).
Proof.
  intros [Hf Hi Hs] Hc. unfold verified_row, mbind, ST_bind at 1.
  rewrite (verify_settled d) by (done || apply Hi). unfold ST_bind, gets, lift. cbn.
  rewrite Hc, (ei_kek _ _ _ _ _ (si_env _ _ _ _ _ Hi)).
  rewrite <- (row_decrypt_lookup K d p k) by apply Hi. unfold mbind, res_bind. by destruct (_row d p k).
Qed.

Lemma get_key_exact p k d w :
  ready d w -> get_key p k w = (lookup_key K d p k, set_conn d false w).
Proof.
  intros Hr. apply connect_read; [apply Hr|apply Hr|]. apply verified_row_exact; [by apply ready_conn|done].
Qed.

Lemma get_metadata_exact p k d w :
  ready d w -> get_metadata p k w = (fst <$> lookup_key K d p k, set_conn d false w).
Proof.
  intros Hr. apply connect_read; [apply Hr|apply Hr|]. unfold mbind, ST_bind at 1.
  rewrite (verified_row_exact _ _ d) by (done || by apply ready_conn).
  by destruct (lookup_key K d p k) as [[m pt]|e].
Qed.

(** [locate_keys] answers every valid query. *)
Lemma locate_keys_exact p state name limit provider d w :
  ready d w -> _validated_uuid p "provider_id must be a UUID." = Ok provider ->
  state ∈ [None; Some Pre_Active; Some Active] -> 1 <= limit <= 1024 ->
  bad_name name = false -> bind_text name = Ok tt ->
  exists ids, locate_keys p state name limit w = (Ok ids, set_conn d false w) /\
    located_ids K d provider state name limit ids.
Proof.
  intros Hr Hp Hst Hl Hn Hb. eexists. split; [|apply (located_query K d), Hr].
  unfold locate_keys, mbind, ST_bind at 1, lift at 1. rewrite Hp.
  unfold ST_bind at 1, lift at 1. rewrite (proj2 (mem_spec _ _) Hst).
  unfold ST_bind at 1, lift at 1. rewrite (proj2 (Z.leb_le 1 limit)), (proj2 (Z.leb_le limit 1024)) by lia.
  unfold ST_bind at 1, lift at 1. rewrite Hn. apply connect_read; [apply Hr|apply Hr|].
  apply ready_conn in Hr as [Hf Hi Hs]. unfold ST_bind at 1.
  rewrite (verify_settled d) by (done || apply Hi). unfold ST_bind, gets, lift. cbn [conn set_conn].
  by rewrite Hb.
Qed.

(** [lifecycle_counts] answers for all providers. *)
Lemma lifecycle_counts_exact ids providers d w :
  ready d w -> Forall2 (fun p q => _validated_uuid p "provider_id must be a UUID." = Ok q) ids providers ->
  exists counts, lifecycle_counts ids w = (Ok counts, set_conn d false w) /\ counted K d providers counts.
Proof.
  intros Hr Hp.
  assert (exists counts, lifecycle_counts ids w = (Ok counts, set_conn d false w)) as (counts&E).
  { destruct (count_rows_spec K (all_rows d) (dict_of (map (fun p => (p, zero_counts)) providers)))
      as (counts&Hc&_); [apply all_rows_ok, Hr|]. exists counts.
    unfold lifecycle_counts, mbind, ST_bind at 1, lift at 1. rewrite (proj2 (res_mapM_Ok _ _ _) Hp).
    apply connect_read; [apply Hr|apply Hr|].
    apply ready_conn in Hr as [Hf Hi Hs]. unfold ST_bind at 1.
    rewrite (verify_settled d) by (done || apply Hi). unfold ST_bind, gets, lift. cbn [conn set_conn].
    rewrite (ei_kek _ _ _ _ _ (si_env _ _ _ _ _ Hi)). by rewrite Hc. }
  pose proof (wp_lifecycle_counts mk K recovery ids d w (rd_inv _ _ Hr)) as Hwp. unfold wp in Hwp.
  rewrite E in Hwp. exists counts. split; [done|]. cbn [fst snd] in Hwp.
  destruct Hwp as [[_ ?]|(d'&a&(->&ps&Hps&Hcount)&_&Hres)]; [done|].
  destruct (Hres eq_refl) as [Ea _]. injection Ea as <-.
  replace providers with ps; [done|]. clear -Hp Hps. revert ps Hps.
  induction Hp as [|p q ids providers Hq _ IH]; intros ps Hps; inversion Hps; subst; [done|].
  f_equal; [congruence|by apply IH].
Qed.

(* ------------------------------------------------------------------ *)
(** ** Activation *)

(** Activating an Active key changes nothing. *)
Lemma activate_active p k m plaintext d w :
  ready d w -> lookup_key K d p k = Ok (m, plaintext) -> sk_state m = Active -> (activate_key p k w).1 = Ok m.
Proof.
  intros Hr Hl Hs. unfold activate_key. rewrite (connect_read _ (Ok m) d); [done|apply Hr|apply Hr|].
  unfold mbind, ST_bind at 1. rewrite (verified_row_exact _ _ d) by (done || by apply ready_conn).
  rewrite Hl. by rewrite decide_True.
Qed.

Lemma activated_short m us : short m -> short (activated m (isoformat us)).
Proof. intros []. split; try done. change (zlen (isoformat us) <= 64). pose proof (isoformat_length us). lia. Qed.

Lemma live_activate_key p k m plaintext d w :
  ready d w -> length mk = 32%nat -> small (generation (self_envelope (self w)) + 1) ->
  lookup_key K d p k = Ok (m, plaintext) -> short m ->
  live (activate_key p k) (fun _ _ => True) w.
Proof.
  intros Hr Hmk Hg Hl Hsh. apply (live_connect _ d); [apply Hr|apply Hr|].
  apply ready_conn in Hr. set (w1 := set_conn d false w) in *. pose proof Hr as [Hf Hi Hs].
  destruct (lookup_key_Ok _ _ _ _ _ _ (si_db _ _ _ _ _ Hi) Hl) as (r&Hrow&Hdec&_&Hck&Hid&Hrs&Hpt&Hm).
  apply live_bind. eapply live_eq; [rewrite (verified_row_exact _ _ d) by done; by rewrite Hl|done|]. intros _. cbv beta iota. case_decide as Hact; [by apply live_ret|].
  destruct (mo_state m Hm) as [Hst|]; [|done]. rewrite bool_decide_eq_true_2 by done.
  apply live_bind. eapply live_lift; [done|done|]. intros _.
  apply live_bind, live_now; [done|]. intros us clk _.
  pose proof (activated_meta_ok m us Hm) as Hm'. pose proof (activated_short m us Hsh) as Hsh'.
  destruct (canonical_aad_ok _ Hm') as [Haad Hj].
  apply live_bind, live_urandom; [done|]. intros Hnon _. set (nonce := take_pad _ _ _) in *.
  apply live_bind. eapply live_lift; [done|exact Haad|]. intros _. set (w2 := set_random _ _).
  assert (ready d w2) as Hr2 by (split; [done|by eapply store_inv_ext|done]).
  apply live_bind, live_gets; [done|]. intros _. rewrite (ei_kek _ _ _ _ _ (si_env _ _ _ _ _ (rd_inv _ _ Hr2))).
  apply live_bind. eapply live_lift; [done|apply aead_key, Hi|]. intros _.
  destruct (encrypt_total K (activated m (isoformat us)) nonce plaintext Hm') as (aad&ct&E'&Henc); try done; [apply Hi|].
  rewrite Haad in E'. injection E' as <-.
  apply live_bind. eapply live_lift; [done|exact Henc|]. intros _.
  apply live_bind. eapply live_lift; [done|exact Hj|]. intros _.
  pose proof (decrypt_key_row K _ nonce plaintext _ _ ct Hm' (si_kek _ _ _ _ _ Hi) Hpt Haad Hj Henc) as Hdec'.
  set (r' := key_row (activated m (isoformat us)) nonce ct _) in *.
  assert (row_check r' = true) as Hck'.
  { unfold r'. erewrite <- (decrypt_row_columns K r m plaintext) by done. by apply activated_check. }
  destruct (insert_row_ok K d (key_of m) r' _ plaintext (si_db _ _ _ _ _ Hi) eq_refl Hck' Hdec' Hm') as [Hd' _].
  apply live_bind. unfold update_row. apply live_bind, live_gets; [done|]. intros _.
  rewrite (ei_read_only _ _ _ _ _ (si_env _ _ _ _ _ (rd_inv _ _ Hr2))).
  apply live_bind. eapply live_lift; [done|done|]. intros _.
  apply live_bind, live_gets; [done|]. intros _. change (conn w2) with d.
  change (sk_provider_id (activated m (isoformat us)), sk_key_id (activated m (isoformat us))) with (key_of m).
  change (sk_state (activated m (isoformat us))) with Active.
  rewrite Hrow, decide_True by congruence. rewrite (decrypt_row_columns K r m plaintext) by done. fold r'.
  rewrite Hck'. apply live_bind. eapply live_lift; [done|done|]. intros _.
  apply live_bind, live_modify; [done|]. intros _. apply live_ret; [done|]. intros _.
  apply live_bind. eapply live_lift; [done|done|]. intros _. set (w3 := set_conn _ true w2).
  assert (env_inv d w3) as Hi3 by (eapply env_inv_ext; [apply Hr2|done..]).
  apply live_bind. eapply live_mono.
  - eapply live_wp.
    + eapply (live_commit_mutation d); [done|done|apply Hi|done|apply Hr2|done|done|done|done].
    + eapply (wp_commit_mutation mk K recovery d); [apply Hi|done|apply Hr2|apply Hi|done|done].
  - intros u w' Hf' [_ [(_&_&?)|(_&_&Ht'&_)]] _; [done|]. by apply live_ret.
Qed.

(* ------------------------------------------------------------------ *)
(** ** Opening *)

(** Verification of a store that agrees with its envelope succeeds. *)
Lemma live_verify_agrees d (Q : unit -> World -> Prop) w :
  faults w = [] -> length mk = 32%nat -> length K = 32%nat -> env_inv d w -> conn w = d -> db_ok K d ->
  small (generation (self_envelope (self w)) + 1) ->
  (forall w', in_transaction w' = in_transaction w -> Q tt w') ->
  live _verify_store_commitment Q w.
Proof.
  intros Hf Hmk HK Hi Hc Hd Hg HQ. unfold _verify_store_commitment.
  destruct (commitment_total K d Hd) as (c&Ec). pose proof (store_commitment_digest _ _ Ec) as Hdig.
  pose proof (ei_generation _ _ _ _ _ Hi) as Hg0.
  assert (forall g, small g -> live (_write_envelope (mkKekEnvelope K g c None None)) Q w) as Hset.
  { intros g Hsg. eapply live_mono; [apply live_write_envelope; [done|done|apply Hi| |done]|].
    - apply writable_settled; try done. apply Hsg.
    - intros [] w' _ (ct&rnd&_&->). by apply HQ. }
  apply live_bind, live_gets; [done|]. intros _. apply live_bind.
  eapply live_lift; [done|rewrite Hc; exact Ec|]. intros _.
  do 3 (apply live_bind, live_gets; [done|intros _]).
  rewrite (ei_read_only _ _ _ _ _ Hi), (ei_kek _ _ _ _ _ Hi).
  assert (small (generation (self_envelope (self w)))) as Hsg by (unfold small in *; lia).
  case_bool_decide as E1; [by apply Hset|].
  case_bool_decide as E2.
  { rewrite <- E2. case_bool_decide; [by apply Hset|]. apply live_ret; [done|]. by apply HQ. }
  destruct (ei_agrees _ _ _ _ _ Hi) as [?|(c'&Ec'&[Hm|Hp])]; [done|congruence|].
  rewrite Ec in Ec'. injection Ec' as <-. rewrite bool_decide_eq_true_2 by done.
  rewrite (ei_pending _ _ _ _ _ Hi c Hp). by apply Hset.
Qed.

Lemma live_commit_any (Q : unit -> World -> Prop) w :
  faults w = [] -> (forall w', faults w' = [] -> Q tt w') -> live commit Q w.
Proof.
  intros Hf HQ. unfold commit. apply live_bind, live_gets; [done|]. intros _.
  destruct (in_transaction w); [|apply live_ret; auto].
  apply live_bind, live_io; [done|]. intros _. apply live_bind, live_gets; [done|]. intros _.
  apply live_bind, live_modify; [done|]. intros _. apply live_modify; [done|]. by apply HQ.
Qed.

Lemma live_initialize d w :
  faults w = [] -> length mk = 32%nat -> length K = 32%nat -> env_inv (with_schema d) w ->
  default empty_db (database w) = d -> db_ok K (with_schema d) -> small (generation (self_envelope (self w)) + 1) ->
  live _initialize (fun _ _ => True) w.
Proof.
  intros Hf Hmk HK Hi Hd Hdb Hg. unfold _initialize. apply live_bind, live_gets; [done|]. intros _.
  rewrite (ei_read_only _ _ _ _ _ Hi). apply live_bind. unfold _connect.
  apply live_bind, live_io; [done|]. intros _. apply live_bind. unfold rollback.
  apply live_bind, live_gets; [done|]. intros _. apply live_modify; [done|]. intros _.
  apply live_bind, live_catch, live_bind. unfold execute_schema.
  apply live_bind, live_io; [done|]. intros _. apply live_bind, live_gets; [done|]. intros _.
  apply live_bind, live_modify; [done|]. intros _. apply live_modify; [done|]. intros _.
  cbn [database set_conn set_database]. rewrite Hd.
  apply live_bind, live_gets; [done|]. intros _. cbn [conn set_conn]. apply live_bind.
  assert (forall t w', self w' = self w -> kek_file w' = kek_file w -> recovery_master w' = recovery_master w ->
    faults w' = [] -> live _verify_store_commitment (fun _ _ => True) (set_conn (with_schema d) t w')) as Hv.
  { intros t w' Hs Hk Hr Hf'. apply (live_verify_agrees (with_schema d)); try done; [by eapply env_inv_ext|].
    cbn. by rewrite Hs. }
  pose proof (do_schema _ _ Hdb) as Hschema. unfold with_schema in Hschema at 1.
  destruct (store_metadata d !! _) as [v|] eqn:Ev.
  - rewrite Ev in Hschema. injection Hschema as ->. rewrite bool_decide_eq_true_2 by done.
    eapply live_lift; [done|done|]. intros _. eapply live_mono.
    + specialize (Hv false (set_database (Some d) (set_conn d false w))). unfold with_schema in Hv. rewrite Ev in Hv.
      by apply Hv.
    + intros u w' Hf' _ _. apply live_bind, live_catch, live_commit_any; [done|]. intros w2 Hf2 _.
      apply live_ret; [done|]. intros _. by apply live_io.
  - apply live_bind. eapply live_lift; [done|done|]. intros _. apply live_modify; [done|]. intros _. eapply live_mono.
    + specialize (Hv true (set_conn d false (set_database (Some d) (set_conn d false w)))). unfold with_schema in Hv. rewrite Ev in Hv.
      by apply Hv.
    + intros u w' Hf' _ _. apply live_bind, live_catch, live_commit_any; [done|]. intros w2 Hf2 _.
      apply live_ret; [done|]. intros _. by apply live_io.
Qed.

Context (secrets_key : pystr).

Lemma live_recovery_master_key m0 (Q : bytes -> World -> Prop) w :
  custody secrets_key mk recovery -> _master_key secrets_key = Ok m0 -> recovery_master w = recovery ->
  faults w = [] -> Q mk w -> live (recovery_master_key m0) Q w.
Proof.
  intros (Hmk&m1&Hm1&Hr) Hm0 Hrec Hf HQ. rewrite Hm0 in Hm1. injection Hm1 as <-.
  unfold recovery_master_key. apply live_bind, live_gets; [done|]. intros _. rewrite Hrec.
  destruct recovery as [sealed|]; [|subst; by apply live_ret].
  destruct Hr as [Hl Hdec]. apply live_catch, live_bind, live_io; [done|]. intros _.
  apply live_bind. eapply live_lift; [done|unfold zlen; rewrite Hl; done|]. intros _.
  apply live_bind. eapply live_lift; [done| |].
  { apply aead_key. unfold _master_key in Hm0. res_inv. apply sha256_length. }
  intros _. eapply live_lift; [done|exact Hdec|done].
Qed.

(** The files of a service that stopped can be opened again. *)
Lemma live_init d w :
  custody secrets_key mk recovery -> disk_ok mk K recovery d w -> faults w = [] ->
  (forall e, file_holds mk e w -> small (generation e + 1)) ->
  live (__init__ secrets_key false) (fun _ w' => ready (with_schema d) w') w.
Proof.
  intros Hcu Hd Hf Hg.
  enough (live (__init__ secrets_key false) (fun _ _ => True) w) as Hl.
  { eapply live_mono; [eapply live_wp; [exact Hl|by apply (wp_init secrets_key mk K recovery d)]|].
    intros u w' Hf' [_ [Ho _]]. destruct (Ho eq_refl). by split. }
  pose proof Hcu as (Hmk&m0&Hm0&_). pose proof Hd as [HK Hdb (e&Hfile&He&Ha) Hrec Hok].
  pose proof Hfile as (ct&Hct&Ho). unfold __init__.
  apply live_bind, live_gets; [done|]. intros _. apply live_bind. eapply live_lift; [done|done|]. intros _.
  apply live_bind, live_gets; [done|]. intros _. apply live_bind, live_gets; [done|]. intros _.
  apply live_bind. eapply live_lift; [done|rewrite Hdb, Hct; done|]. intros _.
  apply live_bind, live_io; [done|]. intros _. apply live_bind. unfold _load_or_create_kek.
  apply live_bind. eapply live_lift; [done|exact Hm0|]. intros _.
  apply live_bind, live_recovery_master_key; try done. intros _.
  apply live_bind. eapply live_lift; [done|by apply aead_key|]. intros _.
  apply live_bind, live_gets; [done|]. intros _. rewrite Hct.
  apply live_catch, live_bind, live_io; [done|]. intros _.
  apply live_bind. eapply live_lift; [done|exact Ho|]. intros _.
  apply live_bind, live_io; [done|]. intros _. apply live_ret; [done|]. intros _.
  apply live_bind, live_modify; [done|]. intros _.
  destruct (open_envelope_Ok _ _ _ Ho) as [Hg0 Hp].
  apply (live_initialize d); [done|done|done| |by cbn; rewrite Hdb|done|cbn; by apply Hg].
  rewrite He. split; try done. by exists e.
Qed.

Lemma run_gets {A B} (f : World -> A) (k : A -> M B) w : (gets f ≫= k) w = k (f w) w.
Proof. done. Qed.

Lemma run_bind_eq {A B} (c : M A) (k : A -> M B) w w' : c w = c w' -> (c ≫= k) w = (c ≫= k) w'.
Proof. unfold mbind, ST_bind. by intros ->. Qed.

(** A missing database is created empty. *)
Lemma connect_fresh {A} (k : unit -> M A) w :
  faults w = [] -> database w = None ->
  _connect (execute_schema ≫= k) w = _connect (execute_schema ≫= k) (set_database (Some empty_db) w).
Proof.
  intros Hf Hd. unfold _connect, execute_schema, rollback, mbind, ST_bind, io, gets, modify, catch.
  destruct w as [kf rm db jf cn tx sf rn ck fl]. cbn in Hf, Hd. subst. reflexivity.
Qed.

Lemma initialize_fresh w :
  faults w = [] -> database w = None -> self_read_only (self w) = false ->
  _initialize w = _initialize (set_database (Some empty_db) w).
Proof.
  intros Hf Hd Hro. unfold _initialize. rewrite !run_gets. cbn [self set_database]. rewrite Hro.
  apply run_bind_eq. by apply connect_fresh.
Qed.

Lemma with_schema_empty_ok : db_ok K (with_schema empty_db).
Proof.
  change (with_schema empty_db) with (mkDb (<[str "schema_version" := dump_int STORE_SCHEMA_VERSION]> ∅) ∅).
  split; cbn [store_metadata wrapped_keys].
  - by rewrite lookup_insert_eq.
  - apply map_Forall_insert_2; [|apply map_Forall_empty]. split; by repeat constructor.
  - apply map_Forall_empty.
Qed.
End Live.

(** Opening a store where there is none creates an empty one. *)
Lemma live_init_fresh `{Aead} {laws : AeadLaws} secrets_key mk w :
  _master_key secrets_key = Ok mk -> faults w = [] ->
  kek_file w = None -> database w = None -> recovery_master w = None ->
  live (__init__ secrets_key false) (fun _ w' =>
    ready mk (take_pad x00 32 (random w)) None (with_schema empty_db) w') w.
Proof.
  intros Hm Hf Hk Hd Hr. set (K := take_pad x00 32 (random w)).
  assert (length mk = 32%nat) as Hmk by (unfold _master_key in Hm; res_inv; apply sha256_length).
  assert (length K = 32%nat) as HK by apply take_pad_length.
  unfold __init__. apply live_bind, live_gets; [done|]. intros _.
  apply live_bind. eapply live_lift; [done|done|]. intros _.
  apply live_bind, live_gets; [done|]. intros _. apply live_bind, live_gets; [done|]. intros _.
  apply live_bind. eapply live_lift; [done|rewrite Hk, Hd; done|]. intros _.
  apply live_bind, live_io; [done|]. intros _. apply live_bind. unfold _load_or_create_kek.
  apply live_bind. eapply live_lift; [done|exact Hm|]. intros _.
  apply live_bind. unfold recovery_master_key. apply live_bind, live_gets; [done|]. intros _. rewrite Hr.
  apply live_ret; [done|]. intros _. apply live_bind. eapply live_lift; [done|by apply aead_key|]. intros _.
  apply live_bind, live_gets; [done|]. intros _. rewrite Hk. cbn iota.
  apply live_bind, live_io; [done|]. intros _. apply live_bind, live_urandom; [done|]. intros _ _. fold K.
  apply live_bind. eapply live_lift; [done|exact Hm|]. intros _.
  set (e := mkKekEnvelope K 0 [] None None).
  assert (writable e) as Hw by (split; [done|done|by left|by left]).
  apply live_bind. eapply live_mono; [apply live_write_kek_envelope; [done|done|done|done]|].
  intros u w1 Hf1 (ct&rnd&Ho&->) _. apply live_ret; [done|]. intros _.
  apply live_bind, live_modify; [done|]. intros _. set (w2 := set_self _ _).
  assert (forall db, env_inv mk K None (with_schema empty_db) (set_database db w2)) as Hi.
  { intros db. assert (file_holds mk e (set_database db w2)) as Hfile by by exists ct.
    split; try done; [|by left]. exists e. split_and!; [done|done|by left]. }
  assert (live _initialize (fun _ w' => ready mk K None (with_schema empty_db) w')
    (set_database (Some empty_db) w2)) as Hl.
  { eapply live_mono; [eapply live_wp|].
    - apply (live_initialize mk K None empty_db); try done. apply with_schema_empty_ok.
    - apply (wp_initialize mk K None empty_db); try done. apply with_schema_empty_ok.
    - intros [] w' Hf' [_ [Hopen _]]. destruct (Hopen eq_refl). by split. }
  unfold live, wp in *. by rewrite (initialize_fresh w2).
Qed.
