(* ===== verification/StoreBind.v ===== *)
(** What the store's digests and associated data bind: the canonical associated data
    determines the metadata of a key, and the store commitment determines the whole
    content of the database, if SHA-256 does not collide on the two documents. *)

From S2P Require Import Prelude Utf8 PyText Uuid Json Base64 Sha256 World Store StoreSpec StoreInv StoreOpen StoreLive.
Open Scope Z_scope.

Lemma dumps_bytes_inj v v' b :
  dumpable v -> dumpable v' -> dumps_bytes v = Ok b -> dumps_bytes v' = Ok b -> sort_dicts v = sort_dicts v'.
Proof.
  intros Hv Hv' E E'. unfold dumps_bytes in *.
  apply (utf8_decode_encode false) in E. apply (utf8_decode_encode false) in E'. rewrite E in E'.
  injection E' as E'. pose proof (loads_dumps_compact v Hv) as L. pose proof (loads_dumps_compact v' Hv') as L'.
  rewrite E' in L. congruence.
Qed.

Lemma json_opt_str_inj a b : sort_dicts (json_opt_str a) = sort_dicts (json_opt_str b) -> a = b.
Proof. destruct a, b; cbn; congruence. Qed.

Lemma json_attributes_inj l l' : json_attributes l' = json_attributes l -> l = l'.
Proof.
  revert l'; induction l as [|[k v] l IH]; intros [|[k' v'] l'] E; try done. cbn in E.
  injection E as -> -> E. f_equal. by apply IH.
Qed.

Section Binding.
Context `{Aead} {laws : AeadLaws}.

Lemma aad_document_inj m m' :
  meta_ok m -> meta_ok m' -> sort_dicts (JDict (aad_document m)) = sort_dicts (JDict (aad_document m')) -> m = m'.
Proof.
  intros Hm Hm' E. pose proof (aad_document_dumpable m Hm) as [Hn _]%dumpable_dict.
  pose proof (aad_document_dumpable m' Hm') as [Hn' _]%dumpable_dict.
  assert (sk_custom_attributes m = sk_custom_attributes m') as Hat.
  { destruct (sort_dicts (JDict (aad_document m'))) as [| | | | | |items] eqn:E'; try done.
    pose proof (aad_attributes m items Hm E) as A. rewrite (aad_attributes m' items Hm' E') in A.
    injection A as A. by apply json_attributes_inj. }
  pose proof (fun k => dump_entries _ _ k Hn Hn' E) as Hk. unfold aad_document in Hk.
  entry Hk "provider_id"%string. entry Hk "key_id"%string. entry Hk "algorithm"%string. entry Hk "length"%string.
  entry Hk "name"%string. entry Hk "state"%string. entry Hk "created_at"%string. entry Hk "activated_at"%string.
  destruct m, m'. cbn in *. f_equal; try congruence.
  - apply json_opt_str_inj. congruence.
  - apply json_opt_str_inj. congruence.
Qed.

Lemma canonical_aad_inj m m' aad :
  meta_ok m -> meta_ok m' -> _canonical_aad m = Ok aad -> _canonical_aad m' = Ok aad -> m = m'.
Proof.
  intros Hm Hm' E E'. unfold _canonical_aad in *. apply bind_Ok in E as (?&_&E). apply bind_Ok in E' as (?&_&E').
  apply aad_document_inj; [done|done|]. by eapply dumps_bytes_inj; [apply aad_document_dumpable..| |].
Qed.

Lemma b64encode_inj a b : b64encode a = b64encode b -> a = b.
Proof. intros E. pose proof (b64decode_encode a) as Ha. rewrite E, b64decode_encode in Ha. congruence. Qed.

Lemma row_document_keys r : NoDup (match row_document r with JDict l => l.*1 | _ => [] end).
Proof. by apply (bool_decide_unpack _). Qed.

Lemma row_document_inj r r' : sort_dicts (row_document r) = sort_dicts (row_document r') -> r = r'.
Proof.
  intros E. pose proof (fun k => dump_entries _ _ k (row_document_keys r) (row_document_keys r') E) as Hk.
  cbn [row_document] in Hk.
  entry Hk "provider_id"%string. entry Hk "key_id"%string. entry Hk "algorithm"%string. entry Hk "key_length"%string.
  entry Hk "name"%string. entry Hk "state"%string. entry Hk "created_at"%string. entry Hk "activated_at"%string.
  entry Hk "nonce"%string. entry Hk "ciphertext"%string. entry Hk "aad_json"%string.
  clear Hk E. destruct r as [a1 a2 a3 a4 a5 a6 a7 a8 a9 a10 a11], r' as [b1 b2 b3 b4 b5 b6 b7 b8 b9 b10 b11].
  cbn [row_provider_id row_key_id row_algorithm row_key_length row_name row_state row_created_at
       row_activated_at row_nonce row_ciphertext row_aad_json] in *.
  f_equal; try congruence; try (apply json_opt_str_inj; congruence); apply b64encode_inj; congruence.
Qed.

Lemma rows_inj l l' : map sort_dicts (map row_document l) = map sort_dicts (map row_document l') -> l = l'.
Proof.
  revert l'; induction l as [|r l IH]; intros [|r' l'] E; try done. cbn [map] in E.
  apply (f_equal (fun x => (head x, tail x))) in E. cbn [head tail] in E.
  assert (sort_dicts (row_document r) = sort_dicts (row_document r')) as Er by congruence.
  assert (map sort_dicts (map row_document l) = map sort_dicts (map row_document l')) as El by congruence.
  by rewrite (row_document_inj _ _ Er), (IH _ El).
Qed.

Lemma metadata_inj (l l' : list (pystr * pystr)) :
  map sort_dicts (map (fun kv => JList [JStr kv.1; JStr kv.2]) l) =
  map sort_dicts (map (fun kv => JList [JStr kv.1; JStr kv.2]) l') -> l = l'.
Proof.
  revert l'; induction l as [|[k v] l IH]; intros [|[k' v'] l'] E; try done. cbn in E.
  injection E as -> -> E. f_equal. by apply IH.
Qed.

Lemma map_of_values (m m' : gmap (pystr * pystr) Row) :
  map_Forall (fun k r => (row_provider_id r, row_key_id r) = k) m ->
  map_Forall (fun k r => (row_provider_id r, row_key_id r) = k) m' ->
  (map_to_list m).*2 ≡ₚ (map_to_list m').*2 -> m = m'.
Proof.
  assert (forall m1 m2 : gmap (pystr * pystr) Row,
    map_Forall (fun k r => (row_provider_id r, row_key_id r) = k) m1 ->
    map_Forall (fun k r => (row_provider_id r, row_key_id r) = k) m2 ->
    (map_to_list m1).*2 ≡ₚ (map_to_list m2).*2 -> m1 ⊆ m2) as Hsub.
  { intros m1 m2 H1 H2 Hp. apply map_subseteq_spec. intros k r Hk.
    assert (r ∈ (map_to_list m2).*2) as Hin.
    { rewrite <- Hp. apply list_elem_of_fmap. exists (k, r). split; [done|by apply elem_of_map_to_list]. }
    apply list_elem_of_fmap in Hin as ([k' r']&Er&Hin). cbn in Er. subst r'. apply elem_of_map_to_list in Hin.
    pose proof (H1 _ _ Hk) as E1. pose proof (H2 _ _ Hin) as E2. cbn in E1, E2. congruence. }
  intros H1 H2 Hp. apply (anti_symm (⊆)); apply Hsub; try done.
Qed.

(** SHA-256 tells the documents of two databases apart. *)
Definition databases_told_apart (d d' : Db) : Prop :=
  forall x x', dumps_bytes (commitment_document d) = Ok x -> dumps_bytes (commitment_document d') = Ok x' -> collision_free x x'.

(** Two sound databases with the same commitment are equal. *)
Lemma commitment_binding K d d' c :
  db_ok K d -> db_ok K d' -> databases_told_apart d d' -> _store_commitment d = Ok c -> _store_commitment d' = Ok c -> d = d'.
Proof.
  intros Hd Hd' Hfree E E'. unfold _store_commitment in *.
  apply bind_Ok in E as (x&Ex&E). apply bind_Ok in E' as (y&Ey&E').
  assert (x = y) as <- by (apply (Hfree x y Ex Ey); congruence).
  pose proof (dumps_bytes_inj _ _ x (commitment_dumpable K d Hd) (commitment_dumpable K d' Hd') Ex Ey) as Hs.
  assert (forall d, NoDup (match commitment_document d with JDict l => l.*1 | _ => [] end)) as Hn.
  { intros d0. by apply (bool_decide_unpack _). }
  pose proof (fun k => dump_entries _ _ k (Hn d) (Hn d') Hs) as Hk. cbn [commitment_document] in Hk.
  entry Hk "metadata"%string. entry Hk "keys"%string. clear Hk Hs Hn.
  assert (sorted_items (map_to_list (store_metadata d)) = sorted_items (map_to_list (store_metadata d'))) as Hm.
  { apply metadata_inj. congruence. }
  assert (all_rows d = all_rows d') as Hr by (apply rows_inj; congruence).
  assert (forall d, db_ok K d -> map_Forall (fun k r => (row_provider_id r, row_key_id r) = k) (wrapped_keys d)) as Hkeys.
  { intros d0 H0 k r Hkr. apply (do_rows _ _ H0 _ _ Hkr). }
  assert (store_metadata d = store_metadata d') as Es.
  { apply map_to_list_inj. by rewrite <- (sorted_items_perm (map_to_list (store_metadata d))), Hm, sorted_items_perm. }
  assert (wrapped_keys d = wrapped_keys d') as Ew.
  { apply map_of_values; [by apply Hkeys..|]. by rewrite <- !all_rows_perm, Hr. }
  destruct d, d'. cbn in *. congruence.
Qed.
End Binding.
