(* ===== verification/Recovery.v ===== *)
(** Recovery archives of the key store ([src/atlaso/app/kmip/recovery.py]): a snapshot of
    the wrapped keys, the sealed key-encryption key, its master key and the public trust,
    encrypted under a passphrase, and the candidate store that is built from it.

    Scrypt is a parameter, as AES-GCM is.  A snapshot that [decrypt] returns has exactly six
    fields, of which two are lists: the record [Snapshot]. *)

From S2P Require Import Prelude Utf8 PyText Uuid Json Base64 Sha256 World Store Certificates.
Open Scope Z_scope.

Definition MAGIC : bytes := map to_byte (str "ATLASO-KMIP-RECOVERY") ++ [x00; x01].
Definition MAX_ARCHIVE_BYTES : Z := 32 * 1024 * 1024.
Definition AAD : bytes := MAGIC ++ map to_byte (str "scrypt:N=32768,r=8,p=1;AES-256-GCM").
Definition FIELDS : list pystr :=
  map str ["provider_id"; "key_id"; "algorithm"; "key_length"; "name"; "state"; "created_at"; "activated_at"; "nonce";
           "ciphertext"; "aad_json"]%string.

(** [Scrypt(salt=salt, length=32, n=32768, r=8, p=1).derive(password)]. *)
Class Scrypt : Type := { scrypt : bytes -> bytes -> bytes }.

(** What the key derivation promises. *)
Class ScryptLaws `{Scrypt} : Prop := { scrypt_length salt password : length (scrypt salt password) = 32%nat }.

(** How SQLite's column affinity reads a floating-point number as text and as an integer,
    and a text as an integer ([None]: it stays another type). *)
Class SqlAffinity : Type := {
  real_text : pystr -> option pystr;
  real_integer : pystr -> option Z;
  text_integer : pystr -> option Z
}.

(** A snapshot. *)
Record Snapshot : Type := mkSnapshot {
  snap_keys : list json;
  snap_metadata : list json;
  snap_kek : json;
  snap_master : json;
  snap_trust : json
}.

(** The dictionary of a snapshot. *)
Definition snapshot_json (s : Snapshot) : json :=
  JDict [(str "schema", JInt 1); (str "keys", JList (snap_keys s)); (str "metadata", JList (snap_metadata s));
         (str "kek", snap_kek s); (str "master", snap_master s); (str "trust", snap_trust s)].

(** [_json_pairs]. *)
Fixpoint json_pairs_from (pairs result : list (pystr * json)) : res (list (pystr * json)) :=
  match pairs with
  | [] => Ok result
  | (key, value) :: pairs =>
    _ ← raise_if (mem key result.*1) (RecoveryError "Recovery data contains duplicate fields.");
    json_pairs_from pairs (dict_set key value result)
  end.

Definition _json_pairs (pairs : list (pystr * json)) : res json := JDict <$> json_pairs_from pairs [].

(* ------------------------------------------------------------------ *)
(** ** Public trust *)

(** What was seen so far: identifiers by kind, fingerprints and names. *)
Record TrustSeen : Type := mkSeen {
  provider_ids : list pystr;
  vcenter_ids : list pystr;
  certificate_ids : list pystr;
  seen_fingerprints : list pystr;
  seen_names : list pystr;
  vcenter_names : list (pystr * pystr)
}.

Inductive TrustKind : Type := Providers | Vcenters | Certificates.

Definition trust_fields (kind : TrustKind) : list pystr :=
  map str match kind with
          | Providers => ["id"; "name"; "description"; "enabled"]
          | Vcenters => ["id"; "provider_id"; "name"; "hostname"; "description"; "enabled"]
          | Certificates => ["id"; "trusted_vcenter_id"; "certificate_pem"; "fingerprint_sha256"]
          end%string.

Definition trust_key (kind : TrustKind) : pystr :=
  str match kind with Providers => "providers" | Vcenters => "vcenters" | Certificates => "certificates" end%string.

Definition ids_of (kind : TrustKind) (s : TrustSeen) : list pystr :=
  match kind with Providers => provider_ids s | Vcenters => vcenter_ids s | Certificates => certificate_ids s end.

Definition add_id (kind : TrustKind) (id : pystr) (s : TrustSeen) : TrustSeen :=
  match kind with
  | Providers => mkSeen (id :: provider_ids s) (vcenter_ids s) (certificate_ids s) (seen_fingerprints s) (seen_names s) (vcenter_names s)
  | Vcenters => mkSeen (provider_ids s) (id :: vcenter_ids s) (certificate_ids s) (seen_fingerprints s) (seen_names s) (vcenter_names s)
  | Certificates => mkSeen (provider_ids s) (vcenter_ids s) (id :: certificate_ids s) (seen_fingerprints s) (seen_names s) (vcenter_names s)
  end.

Definition as_str (v : json) (e : exn) : res pystr := match v with JStr s => Ok s | _ => Raise e end.

Section Trust.
Context `{X509}.

(** The identity of a row: [str(UUID(identifier)) == identifier], not seen before. *)
Definition trust_identity (kind : TrustKind) (row : list (pystr * json)) (s : TrustSeen) : res TrustSeen :=
  let invalid := RecoveryError "Recovery identities are invalid or duplicated." in
  identifier ← item row (str "id");
  identifier ← as_str identifier invalid;
  n ← uuid_int identifier;
  _ ← raise_if (negb (bool_decide (uuid_str n = identifier)) || mem identifier (ids_of kind s)) invalid;
  Ok (add_id kind identifier s).

(** The name and description of a provider or vCenter. *)
Definition trust_metadata (row : list (pystr * json)) : res unit :=
  enabled ← item row (str "enabled");
  name ← item row (str "name");
  _ ← raise_if (negb match enabled, name with
                     | JBool _, JStr name => (1 <=? zlen name) && (zlen name <=? 120)
                     | _, _ => false
                     end) (RecoveryError "Recovery trust metadata is invalid.");
  description ← item row (str "description");
  raise_if (negb match description with JStr s => zlen s <=? 4096 | _ => false end)
    (RecoveryError "Recovery trust description is invalid.").

Definition trust_provider (row : list (pystr * json)) (s : TrustSeen) : res TrustSeen :=
  name ← item row (str "name");
  name ← as_str name TypeError;
  _ ← raise_if (mem name (seen_names s)) (RecoveryError "Recovery provider names are duplicated.");
  Ok (mkSeen (provider_ids s) (vcenter_ids s) (certificate_ids s) (seen_fingerprints s) (name :: seen_names s) (vcenter_names s)).

Definition trust_vcenter (row : list (pystr * json)) (s : TrustSeen) : res TrustSeen :=
  let invalid := RecoveryError "Recovery vCenter relationship is invalid." in
  provider_id ← item row (str "provider_id");
  known ← in_set provider_id (provider_ids s);
  _ ← raise_if (negb known) invalid;
  hostname ← item row (str "hostname");
  _ ← raise_if (negb match hostname with JStr h => zlen h <=? 253 | _ => false end) invalid;
  provider_id ← as_str provider_id TypeError;
  name ← item row (str "name");
  name ← as_str name TypeError;
  _ ← raise_if (mem (provider_id, name) (vcenter_names s))
      (RecoveryError "Recovery vCenter names are duplicated within a provider.");
  Ok (mkSeen (provider_ids s) (vcenter_ids s) (certificate_ids s) (seen_fingerprints s) (seen_names s)
        ((provider_id, name) :: vcenter_names s)).

Definition trust_certificate (row : list (pystr * json)) (s : TrustSeen) : res TrustSeen :=
  vcenter ← item row (str "trusted_vcenter_id");
  known ← in_set vcenter (vcenter_ids s);
  _ ← raise_if (negb known) (RecoveryError "Recovery certificate relationship is invalid.");
  pem ← item row (str "certificate_pem");
  pem ← as_str pem AttributeError;
  cert ← parse_public_certificate 0 pem false;
  fingerprint ← item row (str "fingerprint_sha256");
  _ ← raise_if (negb (in_names fingerprint [fingerprint_sha256 cert]) || in_names fingerprint (seen_fingerprints s))
      (RecoveryError "Recovery certificate fingerprint is invalid or duplicated.");
  Ok (mkSeen (provider_ids s) (vcenter_ids s) (certificate_ids s) (fingerprint_sha256 cert :: seen_fingerprints s)
        (seen_names s) (vcenter_names s)).

(** The body of the loop over the rows of a kind. *)
Definition trust_row (kind : TrustKind) (s : TrustSeen) (row : json) : res TrustSeen :=
  match row with
  | JDict row =>
    _ ← raise_if (negb (same_keys (trust_fields kind) row.*1)) (RecoveryError "Recovery public trust is incomplete.");
    s ← trust_identity kind row s;
    match kind with
    | Providers => _ ← trust_metadata row; trust_provider row s
    | Vcenters => _ ← trust_metadata row; trust_vcenter row s
    | Certificates => trust_certificate row s
    end
  | _ => Raise (RecoveryError "Recovery public trust is incomplete.")
  end.

Fixpoint trust_rows (kind : TrustKind) (rows : list json) (s : TrustSeen) : res TrustSeen :=
  match rows with
  | [] => Ok s
  | row :: rows => s ← trust_row kind s row; trust_rows kind rows s
  end.

Definition trust_kind (trust : list (pystr * json)) (s : TrustSeen) (kind : TrustKind) : res TrustSeen :=
  rows ← item trust (trust_key kind);
  match rows with
  | JList rows =>
    _ ← raise_if (10000 <? zlen rows) (RecoveryError "Recovery public trust exceeds supported bounds.");
    trust_rows kind rows s
  | _ => Raise (RecoveryError "Recovery public trust exceeds supported bounds.")
  end.

Definition trust_errors (e : exn) : bool :=
  match e with TypeError | KeyError | AttributeError => true | _ => is_ValueError e end.

(** The three kinds in turn. *)
Definition trust_body (trust : list (pystr * json)) : res TrustSeen :=
  s ← trust_kind trust (mkSeen [] [] [] [] [] []) Providers;
  s ← trust_kind trust s Vcenters;
  trust_kind trust s Certificates.

(** [validate_trust]. *)
Definition validate_trust (trust : json) : res unit :=
  match trust with
  | JDict trust =>
    _ ← raise_if (negb (same_keys (map str ["providers"; "vcenters"; "certificates"]%string) trust.*1))
        (RecoveryError "Recovery public trust is incomplete.");
    _ ← rethrow trust_errors (RecoveryError "Recovery public trust validation failed.") (trust_body trust);
    Ok tt
  | _ => Raise (RecoveryError "Recovery public trust is incomplete.")
  end.
End Trust.

(* ------------------------------------------------------------------ *)
(** ** Archives *)

Section Archive.
Context `{Aead} `{X509} `{Scrypt}.

(** [_derive]. *)
Definition _derive (passphrase : pystr) (salt : bytes) : res bytes :=
  encoded ← utf8_encode passphrase;
  _ ← raise_if (negb ((12 <=? zlen encoded) && (zlen encoded <=? 1024)))
      (RecoveryError "Use a recovery passphrase containing 12 to 1,024 UTF-8 bytes.");
  Ok (scrypt salt encoded).

(** [encrypt]. *)
Definition encrypt (snapshot : Snapshot) (passphrase : pystr) : M bytes :=
  plaintext ← lift (dumps_bytes (snapshot_json snapshot));
  _ ← lift (raise_if (MAX_ARCHIVE_BYTES - 128 <? zlen plaintext)
        (RecoveryError "Recovery store exceeds the supported archive limit."));
  salt ← urandom 16;
  nonce ← urandom 12;
  key ← lift (_derive passphrase salt);
  _ ← lift (AESGCM key);
  ciphertext ← lift (aes_encrypt key nonce plaintext AAD);
  mret (MAGIC ++ salt ++ nonce ++ ciphertext).

(** The checks of [decrypt] on the parsed snapshot. *)
Definition parse_snapshot (snapshot : json) : res Snapshot :=
  let incomplete := RecoveryError "Recovery snapshot is incomplete or unsupported." in
  match snapshot with
  | JDict snapshot =>
    _ ← raise_if (negb (same_keys (map str ["schema"; "keys"; "metadata"; "kek"; "master"; "trust"]%string) snapshot.*1))
        incomplete;
    schema ← item snapshot (str "schema");
    _ ← raise_if (negb match schema with JInt z => z =? 1 | _ => false end)
        (RecoveryError "Recovery snapshot schema is unsupported.");
    trust ← item snapshot (str "trust");
    _ ← validate_trust trust;
    keys ← item snapshot (str "keys");
    metadata ← item snapshot (str "metadata");
    match keys, metadata with
    | JList keys, JList metadata =>
      kek ← item snapshot (str "kek");
      master ← item snapshot (str "master");
      Ok (mkSnapshot keys metadata kek master trust)
    | _, _ => Raise (RecoveryError "Recovery store data is incomplete.")
    end
  | _ => Raise incomplete
  end.

Definition archive_errors (e : exn) : bool :=
  match e with InvalidTag | UnicodeEncodeError | UnicodeDecodeError | JSONDecodeError => true | _ => false end.

(** [decrypt]. *)
Definition decrypt (archive : bytes) (passphrase : pystr) : res Snapshot :=
  _ ← raise_if (negb ((zlen MAGIC + 44 <=? zlen archive) && (zlen archive <=? MAX_ARCHIVE_BYTES)))
      (RecoveryError "Recovery archive is incomplete or exceeds the supported limit.");
  _ ← raise_if (negb (starts_with MAGIC archive))
      (RecoveryError "Recovery archive format or version is unsupported.");
  let offset := length MAGIC in
  let salt := take 16 (drop offset archive) in
  let nonce := take 12 (drop (offset + 16) archive) in
  rethrow archive_errors (RecoveryError "Recovery authentication failed; check the passphrase and archive.")
    (key ← _derive passphrase salt;
     _ ← AESGCM key;
     plaintext ← aes_decrypt key nonce (drop (offset + 28) archive) AAD;
     snapshot ← loads_bytes_hook _json_pairs plaintext;
     parse_snapshot snapshot).

(* ------------------------------------------------------------------ *)
(** ** Capturing a store *)

(** [row["id"] for row in trust["providers"]]. *)
Definition trust_provider_ids (trust : json) : res (list pystr) :=
  match trust with
  | JDict trust =>
    rows ← item trust (str "providers");
    match rows with
    | JList rows =>
      mapM (fun row => match row with
                       | JDict row => v ← item row (str "id"); as_str v TypeError
                       | _ => Raise TypeError
                       end) rows
    | _ => Raise TypeError
    end
  | _ => Raise TypeError
  end.

(** The loop over the rows. *)
Definition capture_rows (provider_ids : list pystr) (rows : list Row) : res (list json) :=
  mapM (fun row =>
          _ ← raise_if (negb (mem (row_provider_id row) provider_ids))
              (RecoveryError "Recovery trust omits a stored provider.");
          Ok (row_document row)) rows.

(** [capture]. *)
Definition capture (trust : json) : M Snapshot :=
  _ ← lift (validate_trust trust);
  _connect (
    _ ← modify (fun w => set_conn (conn w) true w);
    _ ← _verify_store_commitment;
    provider_ids ← lift (trust_provider_ids trust);
    d ← gets conn;
    rows ← lift (capture_rows provider_ids (all_rows d));
    file ← gets kek_file;
    _ ← io OSError;
    kek ← lift (match file with Some b => Ok b | None => Raise OSError end);
    master ← gets (fun w => self_master_key (self w));
    mret (mkSnapshot rows
            (map (fun kv => JList [JStr kv.1; JStr kv.2]) (sorted_items (map_to_list (store_metadata d))))
            (JStr (b64encode kek)) (JStr (b64encode master)) trust)).

(** The action ["export"] of the privileged helper
    ([src/atlaso/app/kmip/recovery_runtime.py]): the offline store is opened read-only,
    captured, encrypted, and closed again. *)
Definition export_store (secrets_key : pystr) (trust : json) (passphrase : pystr) : M bytes :=
  _ ← __init__ secrets_key true;
  catch is_Exception
    (snapshot ← capture trust; archive ← encrypt snapshot passphrase; _ ← close; mret archive)
    (fun e => _ ← close; lift (Raise e)).
End Archive.

(* ------------------------------------------------------------------ *)
(** ** The candidate store *)

(** A candidate directory: the files of a store, and [public-trust.json]. *)
Record Candidate : Type := mkCandidate {
  files : World;
  trust_file : option bytes
}.

Definition on_files {A} (m : M A) : ST Candidate A := fun c =>
  let '(r, w) := m (files c) in (r, mkCandidate w (trust_file c)).

(** [list(directory.iterdir())] is not empty. *)
Definition occupied (c : Candidate) : bool :=
  bool_decide (is_Some (kek_file (files c))) || bool_decide (is_Some (recovery_master (files c))) ||
  bool_decide (is_Some (database (files c))) || journal_file (files c) || bool_decide (is_Some (trust_file c)).

(** [_exclusive_file]: created empty, written, and flushed; [put] is the file. *)
Definition _exclusive_file (exists_ : Candidate -> bool) (put : bytes -> Candidate -> Candidate) (data : bytes)
    : ST Candidate unit :=
  _ ← on_files (io OSError);
  there ← gets exists_;
  _ ← lift (raise_if there OSError);
  _ ← modify (put []);
  _ ← on_files (io OSError);
  _ ← modify (put data);
  on_files (io OSError).

Definition put_kek (b : bytes) (c : Candidate) : Candidate := mkCandidate (set_kek_file (Some b) (files c)) (trust_file c).
Definition put_master (b : bytes) (c : Candidate) : Candidate :=
  let w := files c in
  mkCandidate (mkWorld (kek_file w) (Some b) (database w) (journal_file w) (conn w) (in_transaction w) (self w) (random w)
                 (clock w) (faults w)) (trust_file c).
Definition put_trust (b : bytes) (c : Candidate) : Candidate := mkCandidate (files c) (Some b).
(** An empty file is an empty database. *)
Definition put_database (b : bytes) (c : Candidate) : Candidate := mkCandidate (set_database (Some empty_db) (files c)) (trust_file c).

Section BuildCandidate.
Context `{Aead} `{X509} `{SqlAffinity}.

(** A JSON value bound to a TEXT column: [None] is NULL. *)
Definition column_text (v : json) : res (option pystr) :=
  match v with
  | JNull => Ok None
  | JStr s => _ ← utf8_encode s; Ok (Some s)
  | JInt z => if (- 2 ^ 63 <=? z) && (z <? 2 ^ 63) then Ok (Some (dump_int z)) else Raise OverflowError
  | JBool b => Ok (Some (dump_int (if b then 1 else 0)))
  | JFloat literal => Ok (real_text literal)
  | JList _ | JDict _ => Raise SqliteError
  end.

(** A JSON value bound to an INTEGER column that is to hold an integer. *)
Definition column_integer (v : json) : res Z :=
  match v with
  | JInt z => if (- 2 ^ 63 <=? z) && (z <? 2 ^ 63) then Ok z else Raise OverflowError
  | JBool b => Ok (if b then 1 else 0)
  | JStr s => _ ← utf8_encode s; match text_integer s with Some z => Ok z | None => Raise SqliteError end
  | JFloat literal => match real_integer literal with Some z => Ok z | None => Raise SqliteError end
  | _ => Raise SqliteError
  end.

Definition not_null (v : res (option pystr)) : res pystr :=
  v ← v; match v with Some s => Ok s | None => Raise SqliteError end.

(** [base64.b64decode(value, validate=True)] of a JSON value. *)
Definition json_b64decode (v : json) : res bytes := match v with JStr s => b64decode s | _ => Raise TypeError end.

(** A row of [store_metadata]: a sequence of two values (a text is one too); the table of
    the model has no NULL name. *)
Definition metadata_pair (v : json) : res (pystr * pystr) :=
  match v with
  | JList [name; value] => name ← not_null (column_text name); value ← not_null (column_text value); Ok (name, value)
  | JStr [a; b] => name ← not_null (column_text (JStr [a])); value ← not_null (column_text (JStr [b])); Ok (name, value)
  | _ => Raise SqliteError
  end.

(** [INSERT INTO store_metadata(name,value) VALUES (?,?)]. *)
Definition insert_metadata (v : json) : M unit :=
  '(name, value) ← lift (metadata_pair v);
  d ← gets conn;
  _ ← lift (raise_if (bool_decide (is_Some (store_metadata d !! name))) SqliteError);
  modify (set_conn (mkDb (<[name := value]> (store_metadata d)) (wrapped_keys d)) true).

(** The values of a row: the blobs are decoded first, then all are bound in column order. *)
Definition snapshot_row (provider_ids : list pystr) (v : json) : res Row :=
  let incomplete := RecoveryError "Recovery wrapped-key metadata is incomplete." in
  match v with
  | JDict row =>
    _ ← raise_if (negb (same_keys FIELDS row.*1)) incomplete;
    provider ← item row (str "provider_id");
    known ← in_set provider provider_ids;
    _ ← raise_if (negb known) incomplete;
    nonce ← item row (str "nonce") ≫= json_b64decode;
    ciphertext ← item row (str "ciphertext") ≫= json_b64decode;
    provider ← not_null (column_text provider);
    key ← not_null (item row (str "key_id") ≫= column_text);
    algorithm ← not_null (item row (str "algorithm") ≫= column_text);
    length ← item row (str "key_length") ≫= column_integer;
    name ← item row (str "name") ≫= column_text;
    state ← not_null (item row (str "state") ≫= column_text);
    created_at ← not_null (item row (str "created_at") ≫= column_text);
    activated_at ← item row (str "activated_at") ≫= column_text;
    aad_json ← not_null (item row (str "aad_json") ≫= column_text);
    Ok (mkRow provider key algorithm length name state created_at activated_at nonce ciphertext aad_json)
  | _ => Raise incomplete
  end.

(** [INSERT INTO wrapped_keys(...) VALUES (...)]. *)
Definition restore_row (provider_ids : list pystr) (v : json) : M unit :=
  r ← lift (snapshot_row provider_ids v);
  d ← gets conn;
  let k := (row_provider_id r, row_key_id r) in
  _ ← lift (raise_if (negb (row_check r)) SqliteError);
  _ ← lift (raise_if (bool_decide (is_Some (wrapped_keys d !! k))) SqliteError);
  modify (set_conn (mkDb (store_metadata d) (<[k := r]> (wrapped_keys d))) true).

Fixpoint each {A} (f : A -> M unit) (l : list A) : M unit :=
  match l with [] => mret tt | x :: l => _ ← f x; each f l end.

(** Filling the database of the candidate. *)
Definition fill_database (snapshot : Snapshot) : M unit :=
  _ ← io SqliteError;
  _ ← rollback;
  _ ← execute_schema;
  _ ← catch is_Exception
        (_ ← each insert_metadata (snap_metadata snapshot);
         provider_ids ← lift (trust_provider_ids (snap_trust snapshot));
         each (restore_row provider_ids) (snap_keys snapshot))
        (fun e => _ ← rollback; lift (Raise e));
  _ ← catch is_Exception commit (fun e => _ ← rollback; lift (Raise e));
  io SqliteError.

Definition candidate_errors (e : exn) : bool :=
  match e with TypeError | KeyError | SqliteError => true | _ => is_ValueError e || is_KeyStoreError e end.

(** The body of the [try] of [build_candidate]. *)
Definition candidate_body (snapshot : Snapshot) (secrets_key : pystr) : ST Candidate unit :=
  master ← lift (json_b64decode (snap_master snapshot));
  kek ← lift (json_b64decode (snap_kek snapshot));
  _ ← lift (raise_if (negb (zlen master =? 32) || (8192 <? zlen kek)) (RecoveryError "Recovery KEK custody is invalid."));
  _ ← _exclusive_file (fun c => bool_decide (is_Some (kek_file (files c)))) put_kek kek;
  nonce ← on_files (urandom 12);
  sealing_key ← lift (_master_key secrets_key);
  _ ← lift (AESGCM sealing_key);
  sealed ← lift (aes_encrypt sealing_key nonce master RECOVERY_AAD);
  _ ← _exclusive_file (fun c => bool_decide (is_Some (recovery_master (files c)))) put_master (nonce ++ sealed);
  trust ← lift (utf8_encode (dumps_default (snap_trust snapshot)));
  _ ← _exclusive_file (fun c => bool_decide (is_Some (trust_file c))) put_trust trust;
  _ ← _exclusive_file (fun c => bool_decide (is_Some (database (files c)))) put_database [];
  _ ← on_files (fill_database snapshot);
  provider_ids ← lift (trust_provider_ids (snap_trust snapshot));
  _ ← on_files (__init__ secrets_key true);
  _ ← on_files (catch is_Exception (_ ← lifecycle_counts provider_ids; close) (fun e => _ ← close; lift (Raise e)));
  file ← gets (fun c => kek_file (files c));
  _ ← on_files (io OSError);
  _ ← lift (raise_if (negb (bool_decide (file = Some kek)))
        (RecoveryError "Recovery KEK snapshot was not transactionally settled."));
  on_files (io OSError).

(** [build_candidate]. *)
Definition build_candidate (snapshot : Snapshot) (secrets_key : pystr) : ST Candidate unit :=
  _ ← lift (validate_trust (snap_trust snapshot));
  occupied_ ← gets occupied;
  _ ← lift (raise_if occupied_ (RecoveryError "Recovery candidate must be a new private empty directory."));
  catch candidate_errors (candidate_body snapshot secrets_key)
    (fun _ => lift (Raise (RecoveryError "Recovery store validation failed; active state was preserved."))).
End BuildCandidate.
