(* ===== verification/KeyProviders.v ===== *)
(** The control plane of the key providers
    ([src/atlaso/app/services/vsphere_key_providers.py], with the helpers it calls in
    [services/ca.py], [services/dnsmasq.py] and [services/kms.py]): the desired trust graph,
    its validation, and the configuration it renders for the KMIP service.

    - A row of a table is a record; [Desired] holds the three tables.  Instants are
      microseconds of UTC, as [_aware] makes them.
    - The objects that [provider_rows] loads are the rows with their related rows.
    - Every reading of the clock takes the next instant of a list. *)

From S2P Require Import Prelude Utf8 PyText Uuid Json JsonIndent Sha256.
From stdpp Require Import gmap.
Open Scope Z_scope.

(* ------------------------------------------------------------------ *)
(** ** Rows *)

(** [class VsphereKeyProvider]. *)
Record ProviderRow : Type := mkProviderRow {
  kp_id : pystr;
  kp_name : pystr;
  kp_description : pystr;
  kp_enabled : bool;
  kp_applied_at : option Z;
  kp_updated_at : Z
}.

(** [class VsphereTrustedVcenter]. *)
Record VcenterRow : Type := mkVcenterRow {
  vc_id : pystr;
  vc_provider_id : pystr;
  vc_name : pystr;
  vc_hostname : pystr;
  vc_description : pystr;
  vc_enabled : bool
}.

(** [class VsphereTrustedVcenterCertificate]. *)
Record CertificateRow : Type := mkCertificateRow {
  tc_id : pystr;
  tc_vcenter_id : pystr;
  tc_fingerprint : pystr;
  tc_pem : pystr;
  tc_subject : pystr;
  tc_issuer : pystr;
  tc_serial : pystr;
  tc_not_valid_before : option Z;
  tc_not_valid_after : option Z;
  tc_source : pystr
}.

Record Desired : Type := mkDesired {
  provider_table : list ProviderRow;
  vcenter_table : list VcenterRow;
  certificate_table : list CertificateRow
}.

(** The objects of a session. *)
Record TrustedVcenter : Type := mkTrustedVcenter {
  vcenter_row : VcenterRow;
  vcenter_certificates : list CertificateRow
}.

Record KeyProvider : Type := mkKeyProvider {
  provider_row : ProviderRow;
  trusted_vcenters : list TrustedVcenter
}.

(** [class KmsSettings], as far as it is rendered. *)
Record KmsSettings : Type := mkKmsSettings {
  kms_enabled : bool;
  kms_listen_address : pystr;
  kms_port : Z;
  kms_hostname : pystr;
  kms_server_certificate : pystr
}.

(** A computation that reads the clock. *)
Abbreviation C := (ST (list Z)).

(** [utcnow()]. *)
Definition read_clock : C Z := fun clock => (Ok (default 0 (head clock)), tail clock).

(* ------------------------------------------------------------------ *)
(** ** The trust graph *)

Definition name_le (a b : ProviderRow) : Prop := str_le (kp_name a) (kp_name b).
#[global] Instance name_le_dec : RelDecision name_le.
Proof. intros a b. unfold name_le. apply _. Defined.

Definition load_vcenter (d : Desired) (v : VcenterRow) : TrustedVcenter :=
  mkTrustedVcenter v (filter (fun c => tc_vcenter_id c = vc_id v) (certificate_table d)).

Definition load_provider (d : Desired) (p : ProviderRow) : KeyProvider :=
  mkKeyProvider p (map (load_vcenter d) (filter (fun v => vc_provider_id v = kp_id p) (vcenter_table d))).

(** [provider_rows]: by name; related rows come in the order of their table. *)
Definition provider_rows (d : Desired) : list KeyProvider :=
  map (load_provider d) (merge_sort name_le (provider_table d)).

Inductive CertificateStatus : Type := NotYetValid | Expired | Valid.

(** [certificate_status]. *)
Definition certificate_status (c : CertificateRow) : C CertificateStatus :=
  now ← read_clock;
  mret (if match tc_not_valid_before c with Some t => now <? t | None => false end then NotYetValid
        else if match tc_not_valid_after c with Some t => t <=? now | None => false end then Expired
        else Valid).

(** [usable_certificates]. *)
Fixpoint usable_rows (certificates : list CertificateRow) : C (list CertificateRow) :=
  match certificates with
  | [] => mret []
  | c :: certificates =>
    status ← certificate_status c;
    rest ← usable_rows certificates;
    mret (match status with Valid => c :: rest | _ => rest end)
  end.

Definition usable_certificates (v : TrustedVcenter) : C (list CertificateRow) := usable_rows (vcenter_certificates v).

(** [mark_provider_desired_changed]. *)
Definition mark_provider_desired_changed (p : ProviderRow) : C ProviderRow :=
  now ← read_clock;
  mret (mkProviderRow (kp_id p) (kp_name p) (kp_description p) (kp_enabled p) (kp_applied_at p) now).

(** [provider_requires_appliance_apply]. *)
Definition provider_requires_appliance_apply (p : ProviderRow) : bool :=
  match kp_applied_at p with None => true | Some t => t <? kp_updated_at p end.

(** The two kinds of messages of [validate_provider_state]. *)
Definition no_current_certificate (name : pystr) : pystr :=
  str "Trusted vCenter " ++ name ++ str " requires a current public client certificate.".
Definition assigned_across : pystr := str "A vCenter certificate fingerprint cannot be assigned across providers.".

(** The loop over the usable certificates of a vCenter. *)
Fixpoint assign_fingerprints (provider_id : pystr) (usable : list CertificateRow) (fingerprints : gmap pystr pystr)
    : list pystr * gmap pystr pystr :=
  match usable with
  | [] => ([], fingerprints)
  | c :: usable =>
    let error := match fingerprints !! tc_fingerprint c with
                 | Some previous => negb (bool_decide (previous = [])) && negb (bool_decide (previous = provider_id))
                 | None => false
                 end in
    let '(errors, fingerprints) := assign_fingerprints provider_id usable (<[tc_fingerprint c := provider_id]> fingerprints) in
    ((if error then [assigned_across] else []) ++ errors, fingerprints)
  end.

(** The loop over the vCenters of a provider; disabled ones are left out. *)
Fixpoint validate_vcenters (provider_id : pystr) (vcenters : list TrustedVcenter) (fingerprints : gmap pystr pystr)
    : C (list pystr * gmap pystr pystr) :=
  match vcenters with
  | [] => mret ([], fingerprints)
  | v :: vcenters =>
    if vc_enabled (vcenter_row v) then
      usable ← usable_certificates v;
      let missing := match usable with [] => [no_current_certificate (vc_name (vcenter_row v))] | _ => [] end in
      let '(errors, fingerprints) := assign_fingerprints provider_id usable fingerprints in
      '(rest, fingerprints) ← validate_vcenters provider_id vcenters fingerprints;
      mret (missing ++ errors ++ rest, fingerprints)
    else validate_vcenters provider_id vcenters fingerprints
  end.

Fixpoint validate_providers (providers : list KeyProvider) (fingerprints : gmap pystr pystr) : C (list pystr) :=
  match providers with
  | [] => mret []
  | p :: providers =>
    '(errors, fingerprints) ← validate_vcenters (kp_id (provider_row p)) (trusted_vcenters p) fingerprints;
    rest ← validate_providers providers fingerprints;
    mret (errors ++ rest)
  end.

(** [list(dict.fromkeys(l))]. *)
Fixpoint ordered_unique (seen l : list pystr) : list pystr :=
  match l with
  | [] => []
  | x :: l => if mem x seen then ordered_unique seen l else x :: ordered_unique (x :: seen) l
  end.

(** [validate_provider_state]. *)
Definition validate_provider_state (providers : list KeyProvider) : C (list pystr) :=
  errors ← validate_providers providers ∅;
  mret (ordered_unique [] errors).

(* ------------------------------------------------------------------ *)
(** ** The configuration *)

Definition KMS_DEFAULT_DATABASE_PATH : pystr := str "/var/lib/atlaso/kmip/store.db".
Definition KMS_DEFAULT_KEK_PATH : pystr := str "/var/lib/atlaso/kmip/kek.json".
Definition KMS_SERVER_CERT_BASE : pystr := str "/etc/atlaso/kmip/certs".

(** [[A-Za-z0-9_.-]]. *)
Definition safe_char (c : Z) : bool :=
  ((65 <=? c) && (c <=? 90)) || ((97 <=? c) && (c <=? 122)) || ((48 <=? c) && (c <=? 57)) ||
  (c =? 95) || (c =? 46) || (c =? 45).

(** [SAFE_NAME_PATTERN.sub("-", s)]: every run of other characters becomes one dash. *)
Fixpoint sub_unsafe (in_run : bool) (s : pystr) : pystr :=
  match s with
  | [] => []
  | c :: s => if safe_char c then c :: sub_unsafe false s
              else if in_run then sub_unsafe true s else 45 :: sub_unsafe true s
  end.

(** [safe_certificate_name]. *)
Definition safe_certificate_name (value : pystr) : res pystr :=
  let safe := strip (fun c => c =? 45) (sub_unsafe false (strip is_space value)) in
  if bool_decide (safe = []) then Ok (str "certificate")
  else if 245 <? zlen safe then
    encoded ← utf8_encode value;
    Ok (take 180 safe ++ str "-" ++ sha256_hex encoded)
  else Ok safe.

(** [kms_server_certificate_paths]. *)
Definition kms_server_certificate_paths (certificate_name fingerprint : pystr) : res (pystr * pystr * pystr) :=
  _ ← raise_if (bool_decide (certificate_name = []) || negb (forallb safe_char certificate_name) ||
                negb ((zlen fingerprint =? 64) && forallb is_lower_hex fingerprint))
      (ValueError "KMS server certificate identity is invalid.");
  name ← (if 179 <? zlen certificate_name then
            encoded ← utf8_encode certificate_name;
            Ok (take 162 certificate_name ++ str "-" ++ take 16 (sha256_hex encoded))
          else Ok certificate_name);
  let base := KMS_SERVER_CERT_BASE ++ str "/" ++ name ++ str "-" ++ fingerprint in
  Ok (base ++ str ".crt", base ++ str ".key", base ++ str "-chain.pem").

(** [split_addresses]. *)
Definition split_addresses (raw : pystr) : list pystr :=
  ordered_unique [] (stripped_parts is_separator raw).

(** [normalize_provider_id] of a text. *)
Definition normalize_provider_id (value : pystr) : res pystr :=
  n ← uuid_int value;
  _ ← raise_if (negb (bool_decide (value = uuid_str n))) (ValueError "Provider ID must be a canonical UUID.");
  Ok (uuid_str n).

(** The fingerprints of the enabled vCenters of a provider, in the order of the loop. *)
Fixpoint enabled_fingerprints (vcenters : list TrustedVcenter) : C (list pystr) :=
  match vcenters with
  | [] => mret []
  | v :: vcenters =>
    if vc_enabled (vcenter_row v) then
      usable ← usable_certificates v;
      rest ← enabled_fingerprints vcenters;
      mret (map tc_fingerprint usable ++ rest)
    else enabled_fingerprints vcenters
  end.

(** [sorted({...})]. *)
Definition sorted_set (l : list pystr) : list pystr := sorted_str (remove_dups l).

Definition provider_document (id name : pystr) (fingerprints : list pystr) : json :=
  JDict [(str "id", JStr id); (str "name", JStr name); (str "client_fingerprints", JList (map JStr fingerprints));
         (str "client_certificate_paths", JList [])].

(** The loop over the providers. *)
Fixpoint rendered_providers (providers : list KeyProvider) : C (list json) :=
  match providers with
  | [] => mret []
  | p :: providers =>
    if kp_enabled (provider_row p) then
      found ← enabled_fingerprints (trusted_vcenters p);
      let fingerprints := sorted_set found in
      row ← (if bool_decide (fingerprints = []) then mret []
             else id ← lift (normalize_provider_id (kp_id (provider_row p)));
                  mret [provider_document id (kp_name (provider_row p)) fingerprints]);
      rest ← rendered_providers providers;
      mret (row ++ rest)
    else rendered_providers providers
  end.

Definition config_document (enabled : bool) (addresses : list pystr) (port : Z) (certificate_path private_key_path : pystr)
    (providers : list json) : json :=
  JDict [(str "schema_version", JInt 1);
         (str "enabled", JBool enabled);
         (str "listen", JDict [(str "addresses", JList (map JStr addresses)); (str "port", JInt port)]);
         (str "tls", JDict [(str "certificate_path", JStr certificate_path); (str "private_key_path", JStr private_key_path);
                            (str "ca_path", JStr (str "/etc/atlaso/kmip/client-trust.pem"))]);
         (str "store", JDict [(str "database_path", JStr KMS_DEFAULT_DATABASE_PATH); (str "kek_path", JStr KMS_DEFAULT_KEK_PATH)]);
         (str "limits", JDict [(str "max_request_bytes", JInt 1048576); (str "max_connections", JInt 32);
                               (str "idle_timeout_seconds", JInt 30); (str "max_requests_per_connection", JInt 128)]);
         (str "providers", JList providers);
         (str "interop_trace_path", JStr [])].

(** The paths of the server certificate and its key. *)
Definition server_paths (settings : KmsSettings) (server_fingerprint : pystr) : res (pystr * pystr) :=
  certificate_name ← safe_certificate_name
    (if bool_decide (kms_server_certificate settings = []) then kms_hostname settings else kms_server_certificate settings);
  if bool_decide (server_fingerprint = []) then
    Ok (KMS_SERVER_CERT_BASE ++ str "/" ++ certificate_name ++ str ".crt",
        KMS_SERVER_CERT_BASE ++ str "/" ++ certificate_name ++ str ".key")
  else
    '(certificate_path, private_key_path, _) ← kms_server_certificate_paths certificate_name server_fingerprint;
    Ok (certificate_path, private_key_path).

(** The addresses to listen on. *)
Definition rendered_addresses (settings : KmsSettings) : list pystr :=
  let addresses := split_addresses (kms_listen_address settings) in
  if kms_enabled settings && negb (bool_decide (addresses = [])) then addresses else [str "127.0.0.1"].

(** [render_provider_config]. *)
Definition render_provider_config (settings : KmsSettings) (providers : list KeyProvider) (server_fingerprint : pystr)
    : C pystr :=
  '(certificate_path, private_key_path) ← lift (server_paths settings server_fingerprint);
  rendered ← rendered_providers providers;
  mret (dumps_indent 0 (config_document (kms_enabled settings) (rendered_addresses settings) (kms_port settings)
          certificate_path private_key_path rendered) ++ [10]).
