(* ===== verification/KmipRecovery.v ===== *)
(** The recovery transport of the control plane
    ([src/atlaso/app/services/kmip_recovery.py]): the public trust of the desired state, and
    the persistence of imported trust.

    - [Session] is the database session: the tables when its transaction began, the tables
      with what was flushed since, the clock, and the failures of statements ahead.
    - The privileged helper runs in another process: [helper] is the text it answers to an
      action with a payload, [None] when it fails or the appliance is not live.
    - [admission] tells whether the writer lock is granted. *)

From S2P Require Import Prelude Utf8 PyText Uuid Json Base64 Sha256 World Store Certificates Recovery KeyProviders.
Open Scope Z_scope.

Record Session : Type := mkSession {
  begun : Desired;
  tables : Desired;
  session_clock : list Z;
  statement_faults : list bool
}.

Definition set_tables (d : Desired) (s : Session) : Session := mkSession (begun s) d (session_clock s) (statement_faults s).

(* ------------------------------------------------------------------ *)
(** ** Public trust *)

Definition provider_trust (p : ProviderRow) : json :=
  JDict [(str "id", JStr (kp_id p)); (str "name", JStr (kp_name p)); (str "description", JStr (kp_description p));
         (str "enabled", JBool (kp_enabled p))].
Definition vcenter_trust (v : VcenterRow) : json :=
  JDict [(str "id", JStr (vc_id v)); (str "provider_id", JStr (vc_provider_id v)); (str "name", JStr (vc_name v));
         (str "hostname", JStr (vc_hostname v)); (str "description", JStr (vc_description v)); (str "enabled", JBool (vc_enabled v))].
Definition certificate_trust (c : CertificateRow) : json :=
  JDict [(str "id", JStr (tc_id c)); (str "trusted_vcenter_id", JStr (tc_vcenter_id c)); (str "certificate_pem", JStr (tc_pem c));
         (str "fingerprint_sha256", JStr (tc_fingerprint c))].

(** [ORDER BY id]. *)
Definition by_id {A} (id : A -> pystr) (l : list A) : list A :=
  map snd (sorted_items (map (fun x => (id x, x)) l)).

(** [public_trust]. *)
Definition public_trust (d : Desired) : json :=
  JDict [(str "providers", JList (map provider_trust (by_id kp_id (provider_table d))));
         (str "vcenters", JList (map vcenter_trust (by_id vc_id (vcenter_table d))));
         (str "certificates", JList (map certificate_trust (by_id tc_id (certificate_table d))))].

(* ------------------------------------------------------------------ *)
(** ** Statements *)

(** One statement that can fail. *)
Definition statement : ST Session unit := fun s =>
  match statement_faults s with
  | true :: f => (Raise SqliteError, mkSession (begun s) (tables s) (session_clock s) f)
  | false :: f => (Ok tt, mkSession (begun s) (tables s) (session_clock s) f)
  | [] => (Ok tt, s)
  end.

Definition session_now : ST Session Z := fun s =>
  (Ok (default 0 (head (session_clock s))), mkSession (begun s) (tables s) (tail (session_clock s)) (statement_faults s)).

(** [INSERT] with the primary key and the unique constraints of the tables. *)
Definition insert_provider (p : ProviderRow) : ST Session unit :=
  _ ← statement;
  d ← gets tables;
  _ ← lift (raise_if (existsb (fun q => bool_decide (kp_id q = kp_id p) || bool_decide (kp_name q = kp_name p)) (provider_table d)) SqliteError);
  modify (set_tables (mkDesired (provider_table d ++ [p]) (vcenter_table d) (certificate_table d))).

Definition insert_vcenter (v : VcenterRow) : ST Session unit :=
  _ ← statement;
  d ← gets tables;
  _ ← lift (raise_if (existsb (fun q => bool_decide (vc_id q = vc_id v) ||
              (bool_decide (vc_provider_id q = vc_provider_id v) && bool_decide (vc_name q = vc_name v))) (vcenter_table d) ||
            negb (existsb (fun p => bool_decide (kp_id p = vc_provider_id v)) (provider_table d))) SqliteError);
  modify (set_tables (mkDesired (provider_table d) (vcenter_table d ++ [v]) (certificate_table d))).

Definition insert_certificate (c : CertificateRow) : ST Session unit :=
  _ ← statement;
  d ← gets tables;
  _ ← lift (raise_if (existsb (fun q => bool_decide (tc_id q = tc_id c) || bool_decide (tc_fingerprint q = tc_fingerprint c))
              (certificate_table d) ||
            negb (existsb (fun v => bool_decide (vc_id v = tc_vcenter_id c)) (vcenter_table d))) SqliteError);
  modify (set_tables (mkDesired (provider_table d) (vcenter_table d) (certificate_table d ++ [c]))).

(* ------------------------------------------------------------------ *)
(** ** Import *)

(** A text of a row of trust. *)
Definition row_text (row : list (pystr * json)) (key : string) : res pystr :=
  v ← item row (str key); as_str v TypeError.

Definition as_row (v : json) : res (list (pystr * json)) := match v with JDict row => Ok row | _ => Raise TypeError end.

(** A [VsphereKeyProvider] of the row, disabled and never applied. *)
Definition imported_provider (v : json) (now : Z) : res ProviderRow :=
  row ← as_row v;
  id ← row_text row "id";
  name ← row_text row "name";
  description ← row_text row "description";
  Ok (mkProviderRow id name description false None now).

(** A [VsphereTrustedVcenter] of the row, disabled. *)
Definition imported_vcenter (v : json) : res VcenterRow :=
  row ← as_row v;
  id ← row_text row "id";
  provider_id ← row_text row "provider_id";
  name ← row_text row "name";
  hostname ← row_text row "hostname";
  description ← row_text row "description";
  Ok (mkVcenterRow id provider_id name hostname description false).

Section Transport.
Context `{X509}.

(** A [VsphereTrustedVcenterCertificate] of the row and of what its PEM text parses to. *)
Definition imported_certificate (v : json) (now : Z) : res CertificateRow :=
  row ← as_row v;
  pem ← row_text row "certificate_pem";
  parsed ← parse_public_certificate now pem false;
  id ← row_text row "id";
  vcenter ← row_text row "trusted_vcenter_id";
  fingerprint ← row_text row "fingerprint_sha256";
  Ok (mkCertificateRow id vcenter fingerprint pem (subject parsed) (issuer parsed) (serial_number parsed)
        (Some (not_valid_before parsed)) (Some (not_valid_after parsed)) (str "uploaded_public")).

Fixpoint add_all (add : json -> ST Session unit) (rows : list json) : ST Session unit :=
  match rows with [] => mret tt | row :: rows => _ ← add row; add_all add rows end.

Definition trust_table (trust : json) (key : string) : res (list json) :=
  match trust with
  | JDict trust => v ← item trust (str key); match v with JList rows => Ok rows | _ => Raise TypeError end
  | _ => Raise AssertionError
  end.

(** The body of the [try]: rows are added and flushed kind by kind. *)
Definition persist_trust (trust : json) : ST Session unit :=
  providers ← lift (trust_table trust "providers");
  _ ← add_all (fun row => now ← session_now; p ← lift (imported_provider row now); insert_provider p) providers;
  vcenters ← lift (trust_table trust "vcenters");
  _ ← add_all (fun row => v ← lift (imported_vcenter row); insert_vcenter v) vcenters;
  certificates ← lift (trust_table trust "certificates");
  add_all (fun row => now ← session_now; c ← lift (imported_certificate row now); insert_certificate c) certificates.

(** [db.rollback()]. *)
Definition db_rollback : ST Session unit := modify (fun s => set_tables (begun s) s).

Context (helper : pystr -> json -> option pystr) (admission : bool).

(** [_request]. *)
Definition _request (action : pystr) (payload : json) : res (list (pystr * json)) :=
  match helper action payload with
  | None => Raise (RecoveryError "KMIP recovery requires a live appliance and complete offline validation; inspect pending recovery before retrying.")
  | Some stdout =>
    rethrow is_ValueError (RecoveryError "KMIP recovery returned invalid evidence; preserve state before retrying.")
      (response ← loads stdout;
       match response with JDict response => Ok response | _ => Raise (ValueError "") end)
  end.

(** [_admit]. *)
Definition _admit : res unit :=
  raise_if (negb admission) (RecoveryError "Recovery writer admission is busy; retry after the active appliance change completes.").

(** [export_archive]. *)
Definition export_archive (passphrase : pystr) : ST Session bytes :=
  _ ← lift _admit;
  d ← gets tables;
  result ← lift (_request (str "recovery-export") (JDict [(str "passphrase", JStr passphrase); (str "trust", public_trust d)]));
  lift (rethrow (fun e => match e with KeyError | TypeError => true | _ => is_ValueError e end)
    (RecoveryError "KMIP recovery archive response is invalid.")
    (v ← item result (str "archive");
     archive ← json_b64decode v;
     _ ← raise_if (MAX_ARCHIVE_BYTES <? zlen archive) (ValueError "");
     Ok archive)).

(** [import_archive] of the control plane. *)
Definition import_trust (archive : bytes) (passphrase : pystr) : ST Session unit :=
  _ ← lift (raise_if (MAX_ARCHIVE_BYTES <? zlen archive) (RecoveryError "KMIP recovery archive exceeds the supported limit."));
  _ ← lift _admit;
  d ← gets tables;
  _ ← lift (raise_if (negb (bool_decide (provider_table d = [] /\ vcenter_table d = [] /\ certificate_table d = [])))
        (RecoveryError "KMIP recovery requires an empty provider/trust target; preserve existing providers."));
  result ← lift (_request (str "recovery-import")
      (JDict [(str "passphrase", JStr passphrase); (str "archive", JStr (b64encode archive))]));
  let trust := default JNull (dict_get (str "trust") result) in
  _ ← lift (validate_trust trust);
  catch is_Exception (persist_trust trust) (fun e => _ ← db_rollback; lift (Raise e)).
End Transport.
