(* ===== verification/RecoveryArchive.v ===== *)
(** What an archive gives back: reading a snapshot that was written, encrypted and
    decrypted returns the snapshot with the items of its dictionaries in key order, and
    the checks of the recovery code do not see that order. *)

From S2P Require Import Prelude Utf8 PyText Uuid Json Base64 Sha256 World Store Certificates Recovery.
Open Scope Z_scope.

(** Distinct names are accepted as they are. *)
Lemma json_pairs_NoDup pairs : NoDup pairs.*1 -> _json_pairs pairs = Ok (JDict pairs).
Proof.
  enough (forall result, NoDup (result ++ pairs).*1 -> json_pairs_from pairs result = Ok (result ++ pairs)) as Hg.
  { intros Hnd. unfold _json_pairs. by rewrite (Hg []). }
  induction pairs as [|[k v] pairs IH]; intros result Hnd; cbn; [by rewrite app_nil_r|].
  assert (k ∉ result.*1) as Hk.
  { rewrite fmap_app in Hnd. apply NoDup_app in Hnd as (_&Hn&_). intros Hin. apply (Hn k Hin). by left. }
  unfold mem. rewrite bool_decide_eq_false_2, dict_set_absent by done. cbn [raise_if mbind res_bind].
  rewrite IH, <- app_assoc by (by rewrite <- app_assoc). done.
Qed.

(** A repeated name is refused. *)
Lemma json_pairs_duplicate pairs :
  ~ NoDup pairs.*1 -> _json_pairs pairs = Raise (RecoveryError "Recovery data contains duplicate fields.").
Proof.
  enough (forall result, NoDup result.*1 -> ~ NoDup (result ++ pairs).*1 ->
    json_pairs_from pairs result = Raise (RecoveryError "Recovery data contains duplicate fields.")) as Hg.
  { intros Hnd. unfold _json_pairs. rewrite (Hg []); [done|constructor|done]. }
  induction pairs as [|[k v] pairs IH]; intros result Hr Hnd; cbn; [by rewrite app_nil_r in Hnd|].
  unfold mem. case_bool_decide as Hk; [done|]. cbn [raise_if mbind res_bind].
  rewrite dict_set_absent by done. apply IH.
  - rewrite fmap_app. apply NoDup_app. split_and!; [done|set_solver|apply NoDup_singleton].
  - by rewrite <- app_assoc.
Qed.

(* ------------------------------------------------------------------ *)
(** ** The checks do not depend on the order of items *)

Lemma item_sorted {A} (row row' : list (pystr * json)) k (f g : json -> res A) :
  (forall k, item row' k = (sort_dicts <$> item row k)) -> (forall v, f (sort_dicts v) = g v) ->
  (item row' k ≫= f) = (item row k ≫= g).
Proof. intros HI Hf. rewrite HI. destruct (item row k); cbn; auto. Qed.

Lemma bind_same {A B} (r : res A) (f g : A -> res B) : (forall v, f v = g v) -> (r ≫= f) = (r ≫= g).
Proof. destruct r; cbn; auto. Qed.

Lemma as_str_sorted v e : as_str (sort_dicts v) e = as_str v e.
Proof. by destruct v. Qed.

Lemma in_set_sorted v l : in_set (sort_dicts v) l = in_set v l.
Proof. by destruct v. Qed.

Lemma in_names_sorted v l : in_names (sort_dicts v) l = in_names v l.
Proof. by destruct v. Qed.

Lemma dumpable_sorted v : dumpable v -> dumpable (sort_dicts v).
Proof.
  induction v as [|b|z|fl|s|l IH|items IH] using json_nested_ind; intros Hv; try done.
  - apply dumpable_list in Hv. cbn [sort_dicts]. apply dumpable_list, Forall_map. rewrite Forall_forall in IH, Hv |- *.
    intros x Hx. by apply IH, Hv.
  - apply dumpable_dict in Hv as [Hnd Hv]. rewrite sort_dicts_dict by done. apply dumpable_dict.
    rewrite map_keys. split; [by rewrite sorted_items_perm|]. apply Forall_map. rewrite sorted_items_perm.
    rewrite Forall_forall in IH, Hv |- *. intros kv Hx. destruct (Hv kv Hx). split; [done|]. by apply IH.
Qed.

(** Push [sort_dicts] through a sequence of checks. *)
Ltac sorted_step HI :=
  first [ reflexivity
        | apply (item_sorted _ _ _ _ _ HI); intros ?
        | apply bind_same; intros ?
        | progress rewrite ?as_str_sorted, ?in_set_sorted, ?in_names_sorted
        | match goal with |- context [sort_dicts ?v] => is_var v; destruct v; cbn [sort_dicts] end ].
Ltac sorted_steps HI := repeat sorted_step HI.

Section Sorted.
Context `{X509}.
Context (row row' : list (pystr * json)) (HI : forall k, item row' k = (sort_dicts <$> item row k)).

Lemma trust_identity_sorted kind s : trust_identity kind row' s = trust_identity kind row s.
Proof. unfold trust_identity. sorted_steps HI. Qed.

Lemma trust_metadata_sorted : trust_metadata row' = trust_metadata row.
Proof. unfold trust_metadata. sorted_steps HI. Qed.

Lemma trust_provider_sorted s : trust_provider row' s = trust_provider row s.
Proof. unfold trust_provider. sorted_steps HI. Qed.

Lemma trust_vcenter_sorted s : trust_vcenter row' s = trust_vcenter row s.
Proof. unfold trust_vcenter. sorted_steps HI. Qed.

Lemma trust_certificate_sorted s : trust_certificate row' s = trust_certificate row s.
Proof. unfold trust_certificate. sorted_steps HI. Qed.
End Sorted.

Section Trust.
Context `{X509}.

Lemma trust_row_sorted kind s row : dumpable row -> trust_row kind s (sort_dicts row) = trust_row kind s row.
Proof.
  destruct row as [| | | | | |row]; try done. intros Hd.
  destruct (sort_dicts_items row Hd) as (row'&->&HI&HK). unfold trust_row. rewrite HK.
  apply bind_same. intros _. rewrite (trust_identity_sorted row row' HI). apply bind_same. intros s'.
  rewrite (trust_metadata_sorted row row' HI), (trust_provider_sorted row row' HI), (trust_vcenter_sorted row row' HI),
    (trust_certificate_sorted row row' HI). done.
Qed.

Lemma trust_rows_sorted kind rows s :
  Forall dumpable rows -> trust_rows kind (map sort_dicts rows) s = trust_rows kind rows s.
Proof.
  intros Hd. revert s. induction Hd as [|row rows Hr _ IH]; intros s; cbn; [done|].
  rewrite trust_row_sorted by done. by apply bind_same.
Qed.

Lemma trust_kind_sorted trust trust' s kind :
  dumpable (JDict trust) -> (forall k, item trust' k = (sort_dicts <$> item trust k)) ->
  trust_kind trust' s kind = trust_kind trust s kind.
Proof.
  intros Hd HI. unfold trust_kind. rewrite HI.
  destruct (item trust _) as [rows|] eqn:E; [|done]. cbn [fmap res_fmap mbind res_bind].
  pose proof (item_dumpable _ _ _ Hd E) as Hrows. destruct rows as [| | | | |rows|]; try done. cbn [sort_dicts].
  unfold zlen. rewrite length_map. apply bind_same. intros _. apply trust_rows_sorted. by apply dumpable_list.
Qed.

(** Validation does not see the order of items. *)
Lemma validate_trust_sorted trust : dumpable trust -> validate_trust (sort_dicts trust) = validate_trust trust.
Proof.
  destruct trust as [| | | | | |trust]; try done. intros Hd.
  destruct (sort_dicts_items trust Hd) as (trust'&->&HI&HK). unfold validate_trust. rewrite HK.
  apply bind_same. intros _. replace (trust_body trust') with (trust_body trust); [done|].
  unfold trust_body. rewrite (trust_kind_sorted trust trust') by done. apply bind_same. intros s.
  rewrite (trust_kind_sorted trust trust') by done. apply bind_same. intros s'. by rewrite (trust_kind_sorted trust trust').
Qed.

Lemma trust_provider_ids_sorted trust :
  dumpable trust -> trust_provider_ids (sort_dicts trust) = trust_provider_ids trust.
Proof.
  destruct trust as [| | | | | |trust]; try done. intros Hd.
  destruct (sort_dicts_items trust Hd) as (trust'&->&HI&_). unfold trust_provider_ids. rewrite HI.
  destruct (item trust _) as [rows|] eqn:E; [|done]. cbn [fmap res_fmap mbind res_bind].
  pose proof (item_dumpable _ _ _ Hd E) as Hrows. destruct rows as [| | | | |rows|]; try done. cbn [sort_dicts].
  apply dumpable_list in Hrows. clear -Hrows. induction Hrows as [|row rows Hr _ IH]; [done|]. cbn [map mapM].
  rewrite IH. f_equal. destruct row as [| | | | | |row]; try done.
  destruct (sort_dicts_items row Hr) as (row'&->&HI&_). sorted_steps HI.
Qed.

(** The identifier of an accepted row. *)
Lemma trust_row_Ok kind s row s' :
  trust_row kind s row = Ok s' ->
  exists items id, row = JDict items /\ item items (str "id") = Ok (JStr id) /\
    exists n, uuid_int id = Ok n /\ uuid_str n = id.
Proof.
  destruct row as [| | | | | |items]; try done. unfold trust_row. intros E.
  apply bind_Ok in E as (?&_&E). apply bind_Ok in E as (s1&E&_). unfold trust_identity in E.
  apply bind_Ok in E as (v&Hv&E). apply bind_Ok in E as (id&Hid&E). apply bind_Ok in E as (n&Hn&E).
  apply bind_Ok in E as (?&Hr&_). apply raise_if_Ok, orb_false_elim in Hr as [Hr _].
  apply negb_false_iff, bool_decide_eq_true in Hr. destruct v; try done. injection Hid as ->.
  exists items, id. eauto.
Qed.

Lemma trust_rows_Ok kind rows s s' :
  trust_rows kind rows s = Ok s' ->
  exists ids, Forall2 (fun row id => exists items, row = JDict items /\ item items (str "id") = Ok (JStr id)) rows ids /\
    Forall (fun id => exists n, uuid_int id = Ok n /\ uuid_str n = id) ids.
Proof.
  revert s. induction rows as [|row rows IH]; intros s E; [by exists []|]. cbn in E.
  apply bind_Ok in E as (s1&E1&E). apply trust_row_Ok in E1 as (items&id&->&Hid&Hn).
  apply IH in E as (ids&H1&H2). exists (id :: ids). split; [|by constructor]. constructor; [by eexists|done].
Qed.

(** Valid trust names its providers by canonical UUIDs. *)
Lemma validate_trust_ids trust :
  validate_trust trust = Ok tt ->
  exists ids, trust_provider_ids trust = Ok ids /\ Forall (fun id => _validated_uuid id "provider_id must be a UUID." = Ok id) ids.
Proof.
  destruct trust as [| | | | | |trust]; try done. unfold validate_trust. intros E.
  apply bind_Ok in E as (?&_&E). apply bind_Ok in E as (?&E&_). apply rethrow_Ok in E.
  unfold trust_body in E. apply bind_Ok in E as (s1&E&_). unfold trust_kind in E.
  apply bind_Ok in E as (rows&Hrows&E). destruct rows as [| | | | |rows|]; try done.
  apply bind_Ok in E as (?&_&E). apply trust_rows_Ok in E as (ids&H1&H2). exists ids. split.
  - unfold trust_provider_ids. change (str "providers") with (trust_key Providers). rewrite Hrows. cbn [mbind res_bind].
    apply res_mapM_Ok. eapply Forall2_impl; [exact H1|]. intros row id (items&->&->). done.
  - eapply Forall_impl; [exact H2|]. intros id (n&Hn&Hs). unfold _validated_uuid. rewrite Hn. cbn. by rewrite Hs.
Qed.
End Trust.

(* ------------------------------------------------------------------ *)
(** ** Round trip *)

(** The snapshot that an archive gives back. *)
Definition sorted_snapshot (s : Snapshot) : Snapshot :=
  mkSnapshot (map sort_dicts (snap_keys s)) (map sort_dicts (snap_metadata s)) (sort_dicts (snap_kek s))
    (sort_dicts (snap_master s)) (sort_dicts (snap_trust s)).

(** A snapshot that JSON can express. *)
Definition snapshot_dumpable (s : Snapshot) : Prop := dumpable (snapshot_json s).

Section Archive.
Context `{Aead} {laws : AeadLaws} `{X509} `{Scrypt} {scrypt_laws : ScryptLaws}.

Lemma parse_snapshot_sorted s :
  snapshot_dumpable s -> validate_trust (snap_trust s) = Ok tt ->
  parse_snapshot (sort_dicts (snapshot_json s)) = Ok (sorted_snapshot s).
Proof.
  intros Hd Hv. unfold snapshot_json in *. set (items := [_; _; _; _; _; _]) in *.
  destruct (sort_dicts_items items Hd) as (items'&->&HI&HK). unfold parse_snapshot. rewrite HK, !HI.
  replace (same_keys _ items.*1) with true by (symmetry; vm_compute; reflexivity).
  assert (dumpable (snap_trust s)) as Ht by (eapply (item_dumpable items (str "trust")); [done|by vm_compute]).
  unfold items, item. dict_simpl. cbn [raise_if negb mbind res_bind fmap res_fmap sort_dicts Z.eqb Pos.eqb].
  rewrite validate_trust_sorted, Hv by done. done.
Qed.

Lemma derive_Ok passphrase salt key : _derive passphrase salt = Ok key -> length key = 32%nat.
Proof. unfold _derive. intros E. res_inv. apply scrypt_length. Qed.

(** What [encrypt] computes. *)
Lemma encrypt_Ok s passphrase w archive w' :
  encrypt s passphrase w = (Ok archive, w') ->
  exists plaintext salt nonce key ciphertext,
    dumps_bytes (snapshot_json s) = Ok plaintext /\ zlen plaintext <= MAX_ARCHIVE_BYTES - 128 /\
    length salt = 16%nat /\ length nonce = 12%nat /\ _derive passphrase salt = Ok key /\
    aes_encrypt key nonce plaintext AAD = Ok ciphertext /\ archive = MAGIC ++ salt ++ nonce ++ ciphertext.
Proof.
  intros E. unfold encrypt in E.
  apply run_bind_Ok in E as (plaintext&?&E1&E). apply lift_run in E1 as [E1 <-].
  apply run_bind_Ok in E as (?&?&E2&E). apply lift_run in E2 as [E2 <-]. apply raise_if_Ok in E2.
  apply run_bind_Ok in E as (salt&?&E3&E). injection E3 as <- <-.
  apply run_bind_Ok in E as (nonce&?&E4&E). injection E4 as <- <-.
  apply run_bind_Ok in E as (key&?&E5&E). apply lift_run in E5 as [E5 <-].
  apply run_bind_Ok in E as (?&?&E6&E). apply run_bind_Ok in E as (c&?&E7&E). apply lift_run in E6 as [_ <-].
  apply lift_run in E7 as [E7 <-]. injection E as <- _.
  do 5 eexists. split_and!; [done|lia|apply take_pad_length|apply take_pad_length|done|done|done].
Qed.

(** The parts of an archive. *)
Lemma archive_parts (salt nonce c : bytes) :
  length salt = 16%nat -> length nonce = 12%nat ->
  let archive := MAGIC ++ salt ++ nonce ++ c in let offset := length MAGIC in
  starts_with MAGIC archive = true /\ take 16 (drop offset archive) = salt /\
  take 12 (drop (offset + 16) archive) = nonce /\ drop (offset + 28) archive = c /\ zlen archive = 50 + zlen c.
Proof.
  intros Hs Hn archive offset. unfold archive, offset.
  rewrite <- !drop_drop, !drop_app_length.
  split_and!.
  - unfold starts_with. by rewrite take_app_length, bool_decide_eq_true_2.
  - by rewrite <- Hs, take_app_length.
  - by rewrite <- Hs, drop_app_length, <- Hn, take_app_length.
  - change 28%nat with (16 + 12)%nat. rewrite <- drop_drop, <- Hs, drop_app_length, <- Hn. by rewrite drop_app_length.
  - rewrite !zlen_app. unfold zlen. rewrite Hs, Hn. change (length MAGIC) with 22%nat. lia.
Qed.

(** Decryption inverts encryption, up to the order of items. *)
Lemma decrypt_encrypt s passphrase w archive w' :
  snapshot_dumpable s -> validate_trust (snap_trust s) = Ok tt ->
  encrypt s passphrase w = (Ok archive, w') -> decrypt archive passphrase = Ok (sorted_snapshot s).
Proof.
  intros Hd Hv E. apply encrypt_Ok in E as (p&salt&nonce&key&c&Hp&Hlen&Hs&Hn&Hk&Hc&->).
  destruct (archive_parts salt nonce c Hs Hn) as (A1&A2&A3&A4&A5).
  pose proof (aead_encrypt_length _ _ _ _ _ Hc) as Hcl. unfold decrypt. cbv zeta.
  rewrite A1, A2, A3, A4, A5, Hk. replace (_ && _) with true
    by (symmetry; apply andb_true_intro; rewrite !Z.leb_le; unfold MAX_ARCHIVE_BYTES, zlen in *;
        change (length MAGIC) with 22%nat; lia).
  cbn [negb raise_if mbind res_bind].
  rewrite (aead_key key), (aead_roundtrip _ _ _ _ _ Hc) by by eapply derive_Ok. cbn [mbind res_bind].
  rewrite (loads_bytes_hook_dumps _json_pairs _ p json_pairs_NoDup Hd Hp). cbn [mbind res_bind].
  fold (snapshot_json s). by rewrite parse_snapshot_sorted.
Qed.
End Archive.
