(* ===== verification/RecoveryRestore.v ===== *)
(** Capturing a store that is offline and rebuilding it: the read-only constructor, the
    snapshot that [capture] takes, and the candidate that [build_candidate] makes of it. *)

From S2P Require Import Prelude Utf8 PyText Uuid Json Base64 Sha256 World Store StoreSpec StoreInv StoreOpen StoreLive.
From S2P Require Import Certificates Recovery RecoveryArchive.
Open Scope Z_scope.

(* ------------------------------------------------------------------ *)
(** ** Runs without faults *)

Section Run.
Context {S A B : Type}.

Lemma run_ok (c : ST S A) (k : A -> ST S B) w a w' : c w = (Ok a, w') -> (c ≫= k) w = k a w'.
Proof. unfold mbind, ST_bind. by intros ->. Qed.

Lemma run_lift (r : res A) (k : A -> ST S B) w a : r = Ok a -> (lift r ≫= k) w = k a w.
Proof. by intros ->. Qed.

Lemma run_read (f : S -> A) (k : A -> ST S B) w : (gets f ≫= k) w = k (f w) w.
Proof. done. Qed.

Lemma run_modify f (k : unit -> ST S B) w : (modify f ≫= k) w = k tt (f w).
Proof. done. Qed.

Lemma catch_ok classes (c : ST S A) h w a w' : c w = (Ok a, w') -> catch classes c h w = (Ok a, w').
Proof. unfold catch. by intros ->. Qed.
End Run.

Lemma io_ok e w : faults w = [] -> io e w = (Ok tt, w).
Proof. unfold io. by intros ->. Qed.

Lemma run_io {B} e (k : unit -> M B) w : faults w = [] -> (io e ≫= k) w = k tt w.
Proof. intros. by rewrite (run_ok _ _ _ tt w) by by apply io_ok. Qed.

Lemma rollback_ok d w : database w = Some d -> rollback w = (Ok tt, set_conn d false w).
Proof. intros Hd. unfold rollback. by rewrite run_read, Hd. Qed.

Lemma execute_schema_ok d w :
  faults w = [] -> database w = Some d -> execute_schema w = (Ok tt, set_conn d false (set_database (Some d) w)).
Proof. intros Hf Hd. unfold execute_schema. by rewrite run_io, run_read, Hd by done. Qed.

Lemma commit_ok w :
  faults w = [] -> in_transaction w = true -> commit w = (Ok tt, set_conn (conn w) false (set_database (Some (conn w)) w)).
Proof. intros Hf Ht. unfold commit. by rewrite run_read, Ht, run_io by done. Qed.

Lemma set_conn_database d t w : database w = Some d -> set_conn d t (set_database (Some d) (set_conn d true w)) = set_conn d t w.
Proof. destruct w; cbn. by intros ->. Qed.

Section Offline.
Context `{Aead} {laws : AeadLaws}.
Context (secrets_key : pystr) (mk : bytes) (e : _KekEnvelope) (d : Db).

(** The files of a store that no process has open, with no transaction under way. *)
Record offline (w : World) : Prop := {
  of_faults : faults w = [];
  of_custody : custody secrets_key mk (recovery_master w);
  of_database : database w = Some d;
  of_journal : journal_file w = false;
  of_file : file_holds mk e w;
  of_kek : length (kek e) = 32%nat;
  of_settled : pending_commitment e = None /\ _store_commitment d = Ok (commitment e);
  of_db : db_ok (kek e) d
}.

(** The object the read-only constructor leaves. *)
Definition reader : WrappedKeyStore := mkStore true mk (kek e) e.

Lemma recovery_master_key_ok m0 w :
  custody secrets_key mk (recovery_master w) -> _master_key secrets_key = Ok m0 -> faults w = [] ->
  recovery_master_key m0 w = (Ok mk, w).
Proof.
  intros (Hmk&m1&Hm1&Hr) Hm0 Hf. rewrite Hm0 in Hm1. injection Hm1 as <-.
  unfold recovery_master_key. rewrite run_read. destruct (recovery_master w) as [sealed|]; [|by subst].
  destruct Hr as [Hl Hdec]. apply catch_ok. rewrite run_io by done.
  rewrite (run_lift _ _ _ tt) by (unfold zlen; by rewrite Hl).
  rewrite (run_lift _ _ _ tt) by (apply aead_key; unfold _master_key in Hm0; res_inv; apply sha256_length).
  by rewrite Hdec.
Qed.

(** A settled store verifies read-only. *)
Lemma verify_reader w :
  offline w -> self w = reader -> conn w = d -> _verify_store_commitment w = (Ok tt, w).
Proof.
  intros Ho Hs Hc. destruct (of_settled w Ho) as [Hp Hcm]. unfold _verify_store_commitment.
  rewrite run_read, (run_lift _ _ _ (commitment e)) by by rewrite Hc.
  rewrite !run_read, Hs. cbn [self_read_only self_envelope reader]. rewrite Hp.
  apply store_commitment_digest, digest_nonempty in Hcm.
  rewrite bool_decide_eq_false_2, bool_decide_eq_false_2, bool_decide_eq_true_2 by (done || by intros [? ?]). done.
Qed.

Lemma offline_conn t w : offline w -> offline (set_conn d t w).
Proof. intros [? ? ? ? ? ? ? ?]. by split. Qed.

Lemma offline_self s w : offline w -> offline (set_self s w).
Proof. intros [? ? ? ? ? ? ? ?]. by split. Qed.

(** Opening the files read-only. *)
Lemma init_offline w :
  offline w -> __init__ secrets_key true w = (Ok tt, set_conn d false (set_self reader w)).
Proof.
  intros Ho. pose proof Ho as [Hf Hcu Hd Hj (ct&Hct&Hop) HK _ Hdb].
  pose proof Hcu as (Hmk&m0&Hm0&_). unfold __init__. rewrite run_read, Hj, (run_lift _ _ _ tt) by done.
  rewrite !run_read, Hd, Hct, (run_lift _ _ _ tt) by done. cbn [negb].
  rewrite (run_ok (mret tt) _ _ tt w) by done.
  rewrite (run_ok _ _ _ (mk, e) w).
  2: { unfold _load_or_create_kek. rewrite (run_lift _ _ _ m0) by done.
       rewrite (run_ok _ _ _ mk w) by (by apply recovery_master_key_ok).
       rewrite (run_lift _ _ _ tt) by by apply aead_key. rewrite run_read, Hct. apply catch_ok.
       rewrite run_io by done. by rewrite (run_lift _ _ _ e) by done. }
  rewrite run_modify. fold reader. unfold _initialize. rewrite run_read. cbn [self set_self self_read_only reader].
  erewrite run_ok; [done|]. apply connect_read; [done|done|].
  rewrite (run_ok (mret tt) _ _ tt (set_conn d false (set_self reader w))) by done.
  rewrite run_read. cbn [conn set_conn]. rewrite (do_schema _ _ Hdb), bool_decide_eq_true_2 by done.
  rewrite (run_lift _ _ _ tt) by done.
  apply verify_reader; [by apply offline_conn, offline_self|done|done].
Qed.

(** Reading through the reader. *)
Lemma reader_counts ids w :
  offline w -> self w = reader -> Forall (fun id => _validated_uuid id "provider_id must be a UUID." = Ok id) ids ->
  exists counts, lifecycle_counts ids w = (Ok counts, set_conn d false w).
Proof.
  intros Ho Hs Hids.
  destruct (count_rows_spec (kek e) (all_rows d) (dict_of (map (fun p => (p, zero_counts)) ids)))
    as (counts&Hc&_); [apply all_rows_ok, Ho|]. exists counts.
  unfold lifecycle_counts. rewrite (run_lift _ _ _ ids) by (apply res_mapM_Ok, Forall_Forall2_diag, Hids).
  apply connect_read; [apply Ho|apply Ho|].
  rewrite (run_ok _ _ _ tt (set_conn d false w)) by (apply verify_reader; [by apply offline_conn|done|done]).
  rewrite !run_read. cbn [conn set_conn self]. rewrite Hs. cbn [self_kek reader]. by rewrite Hc.
Qed.

(** The trust names the providers of all stored keys. *)
Definition covers (ids : list pystr) : Prop :=
  map_Forall (fun _ r => row_provider_id r ∈ ids) (wrapped_keys d).

Lemma all_rows_elem r : r ∈ all_rows d -> exists k, wrapped_keys d !! k = Some r.
Proof.
  rewrite all_rows_perm. intros Hin. apply list_elem_of_fmap in Hin as ([k r']&->&Hin).
  apply elem_of_map_to_list in Hin. eauto.
Qed.

Lemma capture_rows_ok ids :
  covers ids -> capture_rows ids (all_rows d) = Ok (map row_document (all_rows d)).
Proof.
  intros Hc. unfold capture_rows. apply res_mapM_Ok. apply Forall2_fmap_r, Forall_Forall2_diag, Forall_forall.
  intros r Hin. apply all_rows_elem in Hin as (k&Hk). cbn. unfold mem.
  by rewrite bool_decide_eq_true_2 by exact (Hc _ _ Hk).
Qed.

Context `{X509}.

(** The snapshot of the store, whose KEK file holds [file]. *)
Definition snapshot_of (file : bytes) (trust : json) : Snapshot :=
  mkSnapshot (map row_document (all_rows d))
    (map (fun kv => JList [JStr kv.1; JStr kv.2]) (sorted_items (map_to_list (store_metadata d))))
    (JStr (b64encode file)) (JStr (b64encode mk)) trust.

Lemma capture_ok trust ids file w :
  offline w -> self w = reader -> kek_file w = Some file -> validate_trust trust = Ok tt ->
  trust_provider_ids trust = Ok ids -> covers ids ->
  capture trust w = (Ok (snapshot_of file trust), set_conn d false w).
Proof.
  intros Ho Hs Hfile Hv Hids Hc. unfold capture. rewrite (run_lift _ _ _ tt) by done.
  unfold _connect. rewrite run_io by apply Ho. rewrite (run_ok _ _ _ tt _ (rollback_ok d w (of_database w Ho))).
  rewrite (run_ok _ _ _ (snapshot_of file trust) (set_conn d true w)).
  - erewrite run_ok; [done|]. apply catch_ok. rewrite commit_ok; [|apply Ho|done].
    f_equal. apply set_conn_database, Ho.
  - apply catch_ok. rewrite run_modify. cbn [conn set_conn].
    change (set_conn d true (set_conn d false w)) with (set_conn d true w).
    rewrite (run_ok _ _ _ tt (set_conn d true w)) by (apply verify_reader; [by apply offline_conn|done|done]).
    rewrite (run_lift _ _ _ ids), run_read by done. cbn [conn set_conn].
    rewrite (run_lift _ _ _ (map row_document (all_rows d))) by by apply capture_rows_ok.
    rewrite run_read, run_io by apply Ho. cbn [kek_file set_conn]. rewrite Hfile, (run_lift _ _ _ file) by done.
    rewrite run_read. cbn [self set_conn]. rewrite Hs. done.
Qed.

(** JSON can express it. *)
Lemma snapshot_of_dumpable file trust :
  db_ok (kek e) d -> dumpable trust -> snapshot_dumpable (snapshot_of file trust).
Proof.
  intros Hdb Ht. pose proof (commitment_dumpable (kek e) d Hdb) as Hc. unfold commitment_document in Hc.
  apply dumpable_dict in Hc as [_ Hc]. apply Forall_cons in Hc as [_ Hc]. apply Forall_cons in Hc as [[_ Hm] Hc].
  apply Forall_cons in Hc as [[_ Hk] _]. unfold snapshot_dumpable, snapshot_json. apply dumpable_dict.
  split; [by apply (bool_decide_unpack _)|].
  repeat (apply Forall_cons; split); [..|constructor]; (split; [by repeat constructor|]); try done;
    apply ascii_scalar, b64encode_ascii.
Qed.
End Offline.

(* ------------------------------------------------------------------ *)
(** ** Filling the candidate's database *)

Lemma column_text_scalar `{SqlAffinity} s : scalar_text s -> column_text (JStr s) = Ok (Some s).
Proof. intros Hs. apply utf8_encode_ok in Hs as (b&Hb). cbn. by rewrite Hb. Qed.

Lemma column_text_opt `{SqlAffinity} s :
  match s with Some s => scalar_text s | None => True end -> column_text (json_opt_str s) = Ok s.
Proof. destruct s; [apply column_text_scalar|done]. Qed.

Lemma sort_opt_str s : sort_dicts (json_opt_str s) = json_opt_str s.
Proof. by destruct s. Qed.

Section Fill.
Context `{Aead} {laws : AeadLaws} `{SqlAffinity}.
Context (K : bytes).

(** A stored row is read back as it was. *)
Lemma snapshot_row_ok ids k r :
  row_ok K k r -> row_provider_id r ∈ ids -> snapshot_row ids (sort_dicts (row_document r)) = Ok r.
Proof.
  intros Hr Hin. pose proof (row_document_dumpable K k r Hr) as Hd. pose proof Hr as (_&Hck&_).
  unfold row_document in *. set (items := _ :: _) in *.
  destruct (sort_dicts_items items Hd) as (items'&->&HI&HK). unfold snapshot_row. rewrite HK.
  replace (same_keys FIELDS items.*1) with true by (symmetry; vm_compute; reflexivity).
  assert (forall name v, item items name = Ok (JStr v) -> scalar_text v) as Htext.
  { intros name v Hv. exact (item_dumpable items name (JStr v) Hd Hv). }
  assert (forall name v, item items name = Ok (JStr v) ->
    ((sort_dicts <$> item items name) ≫= column_text) = Ok (Some v)) as Hcol.
  { intros name v Hv. rewrite Hv. apply column_text_scalar. by eapply Htext. }
  assert (forall name v, item items name = Ok (json_opt_str v) ->
    ((sort_dicts <$> item items name) ≫= column_text) = Ok v) as Hopt.
  { intros name v Hv. rewrite Hv. cbn [fmap res_fmap mbind res_bind]. rewrite sort_opt_str. apply column_text_opt.
    destruct v; [by eapply Htext|done]. }
  assert (row_key_length r = 256) as Hlen.
  { unfold row_check in Hck. repeat (apply andb_prop in Hck as [Hck ?]). lia. }
  rewrite !HI. cbn [negb raise_if mbind res_bind].
  rewrite (Hcol (str "key_id") (row_key_id r)), (Hcol (str "algorithm") (row_algorithm r)),
    (Hopt (str "name") (row_name r)), (Hcol (str "state") (row_state r)), (Hcol (str "created_at") (row_created_at r)),
    (Hopt (str "activated_at") (row_activated_at r)), (Hcol (str "aad_json") (row_aad_json r))
    by (unfold items, item; by dict_simpl).
  pose proof (Hcol (str "provider_id") (row_provider_id r) ltac:(unfold items, item; by dict_simpl)) as Hp.
  unfold items, item in Hp |- *. revert Hp. dict_simpl. cbn [fmap res_fmap mbind res_bind sort_dicts]. intros Hp.
  rewrite Hp. cbn [in_set in_names mbind res_bind]. unfold mem. rewrite bool_decide_eq_true_2 by done.
  unfold json_b64decode. cbn [negb raise_if mbind res_bind]. rewrite !b64decode_encode, Hlen. cbn. by destruct r; cbn in *; subst.
Qed.

(** The connection after a loop of inserts: the tables are [d'], and when no transaction
    was begun nothing was inserted. *)
Definition inserted (d' : Db) (w w' : World) : Prop :=
  exists t, w' = set_conn d' t w /\ (t = true \/ (d' = conn w /\ t = in_transaction w)).

Lemma inserted_trans d1 d2 w w1 w2 : inserted d1 w w1 -> inserted d2 w1 w2 -> inserted d2 w w2.
Proof.
  intros (t1&->&Ht1) (t2&->&Ht2). exists t2. split; [done|]. cbn in Ht2.
  destruct Ht2 as [->|[-> ->]]; [by left|]. destruct Ht1 as [->|[-> ->]]; [by left|by right].
Qed.

Lemma insert_metadata_loop items w :
  NoDup items.*1 -> Forall (fun kv => scalar_text kv.1 /\ scalar_text kv.2 /\ store_metadata (conn w) !! kv.1 = None) items ->
  exists w', each insert_metadata (map (fun kv => JList [JStr kv.1; JStr kv.2]) items) w = (Ok tt, w') /\
    inserted (mkDb (list_to_map items ∪ store_metadata (conn w)) (wrapped_keys (conn w))) w w'.
Proof.
  revert w. induction items as [|[name value] items IH]; intros w Hnd Hall.
  - exists w. split; [done|]. exists (in_transaction w). rewrite list_to_map_nil, map_empty_union.
    destruct w as [? ? ? ? [m k]]. split; [done|]. by right.
  - apply NoDup_cons in Hnd as [Hnew Hnd]. apply Forall_cons in Hall as [(Hn&Hv&Hnone) Hall]. cbn in Hn, Hv, Hnone.
    cbn [map each]. set (d1 := mkDb (<[name := value]> (store_metadata (conn w))) (wrapped_keys (conn w))).
    rewrite (run_ok _ _ _ tt (set_conn d1 true w)).
    2: { unfold insert_metadata. rewrite (run_lift _ _ _ (name, value)).
         - rewrite run_read, Hnone, (run_lift _ _ _ tt) by (by rewrite bool_decide_eq_false_2 by (by intros [? ?])). done.
         - unfold metadata_pair. cbn [fst snd]. rewrite !column_text_scalar by done. done. }
    destruct (IH (set_conn d1 true w)) as (w'&E&Hw'); [done| |].
    { rewrite Forall_forall in Hall |- *. intros kv Hin. destruct (Hall kv Hin) as (?&?&?). split_and!; [done|done|].
      cbn. rewrite lookup_insert_ne; [done|]. intros ->. apply Hnew, list_elem_of_fmap. by exists kv. }
    exists w'. split; [done|]. cbn [conn set_conn store_metadata wrapped_keys d1] in Hw'.
    rewrite list_to_map_cons, <- insert_union_l, insert_union_r by (by apply not_elem_of_list_to_map_1).
    eapply (inserted_trans d1); [|exact Hw']. exists true. split; [done|by left].
Qed.

(** The rows that a list of rows makes. *)
Definition keyed (rows : list Row) : list ((pystr * pystr) * Row) :=
  map (fun r => ((row_provider_id r, row_key_id r), r)) rows.

Lemma restore_row_loop ids rows w :
  NoDup (keyed rows).*1 ->
  Forall (fun r => row_ok K (row_provider_id r, row_key_id r) r /\ row_provider_id r ∈ ids /\
                   wrapped_keys (conn w) !! (row_provider_id r, row_key_id r) = None) rows ->
  exists w', each (restore_row ids) (map sort_dicts (map row_document rows)) w = (Ok tt, w') /\
    inserted (mkDb (store_metadata (conn w)) (list_to_map (keyed rows) ∪ wrapped_keys (conn w))) w w'.
Proof.
  revert w. induction rows as [|r rows IH]; intros w Hnd Hall.
  - exists w. split; [done|]. exists (in_transaction w). cbn [keyed map]. rewrite list_to_map_nil, map_empty_union.
    destruct w as [? ? ? ? [m k]]. split; [done|]. by right.
  - apply NoDup_cons in Hnd as [Hnew Hnd]. apply Forall_cons in Hall as [(Hr&Hp&Hnone) Hall]. cbn in Hnew.
    cbn [map each]. set (k := (row_provider_id r, row_key_id r)) in *.
    set (d1 := mkDb (store_metadata (conn w)) (<[k := r]> (wrapped_keys (conn w)))).
    rewrite (run_ok _ _ _ tt (set_conn d1 true w)).
    2: { unfold restore_row. rewrite (run_lift _ _ _ r) by (by eapply snapshot_row_ok).
         rewrite run_read. fold k. rewrite Hnone. rewrite (run_lift _ _ _ tt) by (pose proof Hr as (_&->&_); done).
         by rewrite (run_lift _ _ _ tt) by (by rewrite bool_decide_eq_false_2 by (by intros [? ?])). }
    destruct (IH (set_conn d1 true w)) as (w'&E&Hw'); [done| |].
    { rewrite Forall_forall in Hall |- *. intros r' Hin. destruct (Hall r' Hin) as (?&?&?). split_and!; [done|done|].
      cbn. rewrite lookup_insert_ne; [done|]. intros Ek. apply Hnew. rewrite Ek. apply list_elem_of_fmap.
      exists (row_provider_id r', row_key_id r', r'). split; [done|]. apply list_elem_of_fmap. by exists r'. }
    exists w'. split; [done|]. cbn [conn set_conn store_metadata wrapped_keys d1] in Hw'.
    change (keyed (r :: rows)) with ((k, r) :: keyed rows).
    rewrite list_to_map_cons, <- insert_union_l, insert_union_r by (by apply not_elem_of_list_to_map_1).
    eapply (inserted_trans d1); [|exact Hw']. exists true. split; [done|by left].
Qed.

(** The rows of a sound database make it up. *)
Lemma keyed_all_rows d : db_ok K d -> keyed (all_rows d) ≡ₚ map_to_list (wrapped_keys d).
Proof.
  intros Hd. unfold keyed. rewrite all_rows_perm. rewrite map_map.
  rewrite (map_ext_in _ id); [by rewrite map_id|]. intros [k r] Hin. apply list_elem_of_In, elem_of_map_to_list in Hin.
  destruct (do_rows _ _ Hd _ _ Hin) as [Hk _]. cbn. by rewrite Hk.
Qed.

Lemma list_to_map_perm {A} `{Countable C} (m : gmap C A) l : l ≡ₚ map_to_list m -> NoDup l.*1 /\ list_to_map l = m.
Proof.
  intros Hp. assert (NoDup l.*1) as Hnd by (rewrite Hp; apply NoDup_fst_map_to_list). split; [done|].
  rewrite (list_to_map_proper l (map_to_list m)) by done. apply list_to_map_to_list.
Qed.

(** The database of the candidate becomes [d]. *)
Lemma fill_database_ok d s ids w :
  db_ok K d -> covers d ids -> trust_provider_ids (snap_trust s) = Ok ids ->
  snap_metadata s = map (fun kv => JList [JStr kv.1; JStr kv.2]) (sorted_items (map_to_list (store_metadata d))) ->
  snap_keys s = map sort_dicts (map row_document (all_rows d)) ->
  faults w = [] -> database w = Some empty_db ->
  fill_database s w = (Ok tt, set_conn d false (set_database (Some d) w)).
Proof.
  intros Hd Hc Hids Hm Hk Hf Hdb. unfold fill_database. rewrite run_io by done.
  rewrite (run_ok _ _ _ tt _ (rollback_ok _ _ Hdb)).
  rewrite (run_ok _ _ _ tt (set_conn empty_db false (set_database (Some empty_db) w))) 
    by exact (execute_schema_ok empty_db (set_conn empty_db false w) Hf Hdb).
  set (w1 := set_conn _ false _).
  destruct (list_to_map_perm (store_metadata d) (sorted_items (map_to_list (store_metadata d)))) as [Hnd1 Hm1];
    [apply sorted_items_perm|].
  destruct (list_to_map_perm (wrapped_keys d) (keyed (all_rows d))) as [Hnd2 Hm2]; [by apply keyed_all_rows|].
  destruct (insert_metadata_loop (sorted_items (map_to_list (store_metadata d))) w1) as (w2&E2&I2); [done| |].
  { apply Forall_forall. intros [name value] Hin. rewrite sorted_items_perm in Hin. apply elem_of_map_to_list in Hin.
    destruct (do_metadata _ _ Hd _ _ Hin). split_and!; [done|done|]. apply lookup_empty. }
  cbn [conn w1 set_conn store_metadata wrapped_keys empty_db] in I2. rewrite Hm1, map_union_empty in I2.
  destruct (restore_row_loop ids (all_rows d) w2) as (w3&E3&I3); [done| |].
  { apply Forall_forall. intros r Hin. pose proof (all_rows_elem d r Hin) as (k&Hr).
    pose proof (do_rows _ _ Hd _ _ Hr) as Hok. pose proof Hok as [-> _]. split_and!; [done|exact (Hc _ _ Hr)|].
    destruct I2 as (t&->&_). apply lookup_empty. }
  destruct I2 as (t2&->&Ht2). cbn [conn set_conn store_metadata wrapped_keys] in I3. rewrite Hm2, map_union_empty in I3.
  assert (mkDb (store_metadata d) (wrapped_keys d) = d) as Eta by (by destruct d). rewrite Eta in I3.
  rewrite (run_ok _ _ _ tt w3).
  2: { apply catch_ok. rewrite Hm, (run_ok _ _ _ tt _ E2), (run_lift _ _ _ ids) by done. by rewrite Hk. }
  destruct I3 as (t3&->&Ht3). cbn in Ht3.
  assert (t3 = true) as ->.
  { destruct Ht3 as [->|[E ->]]; [done|]. destruct Ht2 as [->|[E' ->]]; [done|]. exfalso.
    pose proof (do_schema _ _ Hd) as Hs. rewrite <- Eta, E, E' in Hs. cbn in Hs. by rewrite lookup_empty in Hs. }
  rewrite (run_ok _ _ _ tt (set_conn d false (set_database (Some d) w))); [by apply io_ok|].
  apply catch_ok. by rewrite commit_ok.
Qed.
End Fill.

(* ------------------------------------------------------------------ *)
(** ** The candidate *)

Lemma on_files_ok {A} (m : M A) c a w' : m (files c) = (Ok a, w') -> on_files m c = (Ok a, mkCandidate w' (trust_file c)).
Proof. unfold on_files. by intros ->. Qed.

Lemma on_files_io e c : faults (files c) = [] -> on_files (io e) c = (Ok tt, c).
Proof. intros Hf. destruct c as [w t]. by rewrite (on_files_ok _ _ tt w) by (by apply io_ok). Qed.

(** A file that is not there is created with its content. *)
Lemma exclusive_file_ok exists_ put data c :
  faults (files c) = [] -> faults (files (put [] c)) = [] -> faults (files (put data (put [] c))) = [] ->
  exists_ c = false -> _exclusive_file exists_ put data c = (Ok tt, put data (put [] c)).
Proof.
  intros H1 H2 H3 Hx. unfold _exclusive_file.
  rewrite (run_ok _ _ _ tt c) by (by apply on_files_io). rewrite run_read, Hx, (run_lift _ _ _ tt), run_modify by done.
  rewrite (run_ok _ _ _ tt (put [] c)) by (by apply on_files_io). rewrite run_modify. by apply on_files_io.
Qed.

(** An empty directory, on a machine where nothing fails. *)
Record empty_directory (c : Candidate) : Prop := {
  ed_kek : kek_file (files c) = None;
  ed_recovery : recovery_master (files c) = None;
  ed_database : database (files c) = None;
  ed_journal : journal_file (files c) = false;
  ed_trust : trust_file c = None;
  ed_faults : faults (files c) = []
}.

Lemma empty_not_occupied c : empty_directory c -> occupied c = false.
Proof.
  intros [H1 H2 H3 H4 H5 _]. unfold occupied. rewrite H1, H2, H3, H4, H5.
  by rewrite !bool_decide_eq_false_2 by (by intros [? ?]).
Qed.

Lemma trust_text_ok trust :
  dumpable trust -> utf8_encode (dumps_default trust) = Ok (map to_byte (dumps_default trust)).
Proof.
  intros Hd. apply utf8_encode_ascii. change dumps_default with (dumps (44 :: [32]) (58 :: [32])).
  apply dumps_ascii; [by repeat constructor|by repeat constructor|done].
Qed.

Section Candidate.
Context `{Aead} {laws : AeadLaws} `{X509} `{SqlAffinity}.
Context (secrets_key : pystr) (mk : bytes) (e : _KekEnvelope) (d : Db) (file : bytes) (trust : json) (ids : list pystr).
Context (Hmk : length mk = 32%nat) (HK : length (kek e) = 32%nat) (Hdb : db_ok (kek e) d).
Context (Hopen : open_envelope mk file = Ok e) (Hsize : zlen file <= 8192).
Context (Hsettled : pending_commitment e = None /\ _store_commitment d = Ok (commitment e)).
Context (Htrust : validate_trust trust = Ok tt) (Hdump : dumpable trust).
Context (Hids : trust_provider_ids trust = Ok ids) (Hcovers : covers d ids).

(** What [decrypt] returns of the snapshot. *)
Definition restored_snapshot : Snapshot := sorted_snapshot (snapshot_of mk d file trust).

Lemma restored_metadata :
  snap_metadata restored_snapshot =
    map (fun kv => JList [JStr kv.1; JStr kv.2]) (sorted_items (map_to_list (store_metadata d))).
Proof. cbn. rewrite map_map. done. Qed.

(** The sealed master key is sixty bytes long and opens. *)
Lemma seal_master m0 nonce sealed :
  _master_key secrets_key = Ok m0 -> length nonce = 12%nat -> aes_encrypt m0 nonce mk RECOVERY_AAD = Ok sealed ->
  custody secrets_key mk (Some (nonce ++ sealed)).
Proof.
  intros Hm0 Hn He. split; [done|]. exists m0. split; [done|]. split.
  - rewrite length_app, (aead_encrypt_length _ _ _ _ _ He). lia.
  - rewrite <- Hn, take_app_length, drop_app_length. by eapply aead_roundtrip.
Qed.

Lemma build_candidate_ok m0 c :
  _master_key secrets_key = Ok m0 -> empty_directory c ->
  exists c', build_candidate restored_snapshot secrets_key c = (Ok tt, c') /\
    offline secrets_key mk e d (files c') /\ kek_file (files c') = Some file /\
    trust_file c' = Some (map to_byte (dumps_default (sort_dicts trust))) /\
    random (files c') = drop 12 (random (files c)).
Proof.
  intros Hm0 Hc. pose proof Hc as [Hk Hr Hd Hj Ht Hf]. unfold build_candidate.
  rewrite (run_lift _ _ _ tt) by (cbn [snap_trust restored_snapshot sorted_snapshot]; by rewrite validate_trust_sorted).
  rewrite run_read, empty_not_occupied, (run_lift _ _ _ tt) by done.
  assert (length m0 = 32%nat) as Hl0 by (unfold _master_key in Hm0; res_inv; apply sha256_length).
  set (nonce := take_pad x00 12 (random (files c))).
  destruct (aead_encrypt_total m0 nonce mk RECOVERY_AAD) as (sealed&Hseal);
    [done|apply take_pad_length|unfold zlen; rewrite Hmk; done|done|].
  pose proof (seal_master m0 nonce sealed Hm0 (take_pad_length _ _ _) Hseal) as Hcu.
  destruct c as [[kf rm db jf cn tx sf rnd ck fl] tf]. cbn in Hk, Hr, Hd, Hj, Ht, Hf. subst. cbn in nonce.
  set (text := map to_byte (dumps_default (sort_dicts trust))).
  set (W := fun db cn tx sf => mkWorld (Some file) (Some (nonce ++ sealed)) db false cn tx sf (drop 12 rnd) ck []).
  assert (forall cn tx sf, offline secrets_key mk e d (W (Some d) cn tx sf)) as Hoff.
  { intros. split; try done. by exists file. }
  pose proof (validate_trust_ids trust Htrust) as (ids'&Hids'&Huuid). rewrite Hids in Hids'. injection Hids' as <-.
  assert (trust_provider_ids (sort_dicts trust) = Ok ids) as Hids2 by (by rewrite trust_provider_ids_sorted).
  set (closed := mkStore true [] [] e).
  exists (mkCandidate (W (Some d) d false closed) (Some text)). split; [|split_and!; [apply Hoff|done..]].
  apply catch_ok. unfold candidate_body.
  rewrite (run_lift _ _ _ mk), (run_lift _ _ _ file), (run_lift _ _ _ tt).
  2: { replace (_ || _) with false; [done|]. symmetry. apply orb_false_intro; [|lia]. unfold zlen. by rewrite Hmk. }
  2, 3: apply b64decode_encode.
  erewrite run_ok; [|by apply exclusive_file_ok].
  rewrite (run_ok _ _ _ nonce (mkCandidate (mkWorld (Some file) None None false cn tx sf (drop 12 rnd) ck []) None)) by done.
  rewrite (run_lift _ _ _ m0), (run_lift _ _ _ tt), (run_lift _ _ _ sealed) by (done || by apply aead_key).
  erewrite run_ok; [|by apply exclusive_file_ok].
  rewrite (run_lift _ _ _ text) by (by apply trust_text_ok, dumpable_sorted).
  erewrite run_ok; [|by apply exclusive_file_ok].
  erewrite run_ok; [|by apply exclusive_file_ok].
  rewrite (run_ok _ _ _ tt (mkCandidate (W (Some d) d false sf) (Some text))).
  2: { erewrite on_files_ok; [|apply (fill_database_ok (kek e) d restored_snapshot ids); done || apply restored_metadata]. done. }
  rewrite (run_lift _ _ _ ids) by done.
  rewrite (run_ok _ _ _ tt (mkCandidate (W (Some d) d false (reader mk e)) (Some text))).
  2: { erewrite on_files_ok; [|apply (init_offline secrets_key mk e d), Hoff]. done. }
  destruct (reader_counts secrets_key mk e d ids (W (Some d) d false (reader mk e)) (Hoff _ _ _) eq_refl Huuid)
    as (counts&Hcounts).
  rewrite (run_ok _ _ _ tt (mkCandidate (W (Some d) d false closed) (Some text))).
  2: { erewrite on_files_ok; [|apply catch_ok; rewrite (run_ok _ _ _ _ _ Hcounts); reflexivity]. done. }
  rewrite run_read, (run_ok _ _ _ tt (mkCandidate (W (Some d) d false closed) (Some text))) by done.
  by rewrite (run_lift _ _ _ tt) by (by rewrite bool_decide_eq_true_2).
Qed.
End Candidate.
