(* ===== verification/RecoverySound.v ===== *)
(** A candidate that [build_candidate] accepts is a sound store, whatever the snapshot says
    and whatever input/output does: the files agree with each other, every row decrypts, and
    every stored provider is one of the trust. *)

From S2P Require Import Prelude Utf8 PyText Uuid Json Base64 Sha256 World Store StoreSpec StoreInv StoreOpen StoreLive.
From S2P Require Import Certificates Recovery RecoveryArchive RecoveryRestore.
Open Scope Z_scope.

(* ------------------------------------------------------------------ *)
(** ** What a successful step did *)

Lemma io_Ok e w u w' : io e w = (Ok u, w') -> exists f, w' = set_faults f w.
Proof.
  unfold io. destruct (faults w) as [|[] f] eqn:E; intros Eq; simplify_eq; [|by eexists].
  exists []. rewrite <- E. by destruct w'.
Qed.

Lemma gets_Ok {S A} (f : S -> A) w a w' : gets f w = (Ok a, w') -> a = f w /\ w' = w.
Proof. intros E. by injection E as <- <-. Qed.

Lemma modify_Ok {S} (f : S -> S) w u w' : modify f w = (Ok u, w') -> w' = f w.
Proof. intros E. by injection E as <- <-. Qed.

Lemma lift_Ok {S A} (r : res A) (w : S) a w' : lift r w = (Ok a, w') -> r = Ok a /\ w' = w.
Proof. intros E. by injection E as -> <-. Qed.

(** A handler that only raises. *)
Lemma catch_raise {S A} classes (c : ST S A) h w a w' :
  (forall e w1 w2, h e w1 <> (Ok a, w2)) -> catch classes c h w = (Ok a, w') -> c w = (Ok a, w').
Proof. intros Hh E. apply catch_Ok in E as [E|(e&w1&_&_&E)]; [done|]. by destruct (Hh e w1 w'). Qed.

Lemma rollback_raise {A} e w (a : A) w' : (rollback ≫= fun _ => lift (Raise e)) w <> (Ok a, w').
Proof. done. Qed.

Lemma on_files_Ok {A} (m : M A) c a c' :
  on_files m c = (Ok a, c') -> m (files c) = (Ok a, files c') /\ trust_file c' = trust_file c.
Proof. unfold on_files. destruct (m (files c)) as [r w] eqn:E. intros Eq. by simplify_eq. Qed.

(** Take a successful sequence apart: [run_inv E] names the result and the state. *)
Tactic Notation "run_inv" hyp(E) "as" simple_intropattern(a) simple_intropattern(w) simple_intropattern(H) :=
  apply run_bind_Ok in E as (a & w & H & E).

Lemma commit_Ok w u w' :
  commit w = (Ok u, w') ->
  if in_transaction w then exists f, w' = set_conn (conn w) false (set_database (Some (conn w)) (set_faults f w)) else w' = w.
Proof.
  unfold commit. intros E. run_inv E as t w1 H1. apply gets_Ok in H1 as [-> ->].
  destruct (in_transaction w); [|by injection E as _ <-].
  run_inv E as t w1 H1. apply io_Ok in H1 as (f&->). run_inv E as d w1 H1. apply gets_Ok in H1 as [-> ->].
  run_inv E as t2 w1 H1. apply modify_Ok in H1 as ->. apply modify_Ok in E as ->. by exists f.
Qed.

(** A connection that returned. *)
Lemma connect_inv {A} (body : M A) w a w' :
  _connect body w = (Ok a, w') ->
  exists f w2, body (set_conn (default empty_db (database w)) false (set_faults f w)) = (Ok a, w2) /\
    (in_transaction w2 = false -> w' = w2).
Proof.
  unfold _connect. intros E. run_inv E as u w1 H1. apply io_Ok in H1 as (f&->).
  run_inv E as u2 w1 H1. unfold rollback in H1. run_inv H1 as d w2 H2. apply gets_Ok in H2 as [-> ->].
  apply modify_Ok in H1 as ->. run_inv E as b w1 H1. run_inv E as u3 w2 H2. injection E as -> ->. exists f, w1. split.
  - eapply catch_raise; [|exact H1]. intros. apply rollback_raise.
  - intros Ht. apply (catch_raise _ _ _ _ u3) in H2; [|intros; apply rollback_raise].
    apply commit_Ok in H2. by rewrite Ht in H2.
Qed.

Section Reader.
Context `{Aead}.

Lemma verify_Ok w u w' :
  self_read_only (self w) = true -> _verify_store_commitment w = (Ok u, w') ->
  w' = w /\ pending_commitment (self_envelope (self w)) = None /\
  _store_commitment (conn w) = Ok (commitment (self_envelope (self w))).
Proof.
  intros Hro E. unfold _verify_store_commitment in E. run_inv E as d w1 H1. apply gets_Ok in H1 as [-> ->].
  run_inv E as c w1 H1. apply lift_Ok in H1 as [Hc ->]. run_inv E as ro w1 H1. apply gets_Ok in H1 as [-> ->].
  run_inv E as env w1 H1. apply gets_Ok in H1 as [-> ->]. run_inv E as k w1 H1. apply gets_Ok in H1 as [-> ->].
  rewrite Hro in E. apply lift_Ok in E as [E ->]. apply raise_if_Ok in E.
  apply orb_false_elim in E as [E E3]. apply orb_false_elim in E as [E1 E2].
  apply bool_decide_eq_false in E2. apply negb_false_iff, bool_decide_eq_true in E3. subst c.
  split_and!; [done| |done]. destruct (pending_commitment _); [|done]. destruct E2. by eexists.
Qed.

Lemma count_rows_Ok k rows counts counts' :
  count_rows k rows counts = Ok counts' -> Forall (fun r => exists m plaintext, _decrypt_row k r = Ok (m, plaintext)) rows.
Proof.
  revert counts. induction rows as [|r rows IH]; intros counts E; constructor.
  - cbn in E. apply bind_Ok in E as ([m pt]&E1&_). eauto.
  - cbn in E. apply bind_Ok in E as ([m pt]&_&E). by eapply IH.
Qed.

Lemma lifecycle_counts_Ok ids w counts w' :
  self_read_only (self w) = true -> lifecycle_counts ids w = (Ok counts, w') ->
  let d := default empty_db (database w) in
  kek_file w' = kek_file w /\ database w' = database w /\
  pending_commitment (self_envelope (self w)) = None /\ _store_commitment d = Ok (commitment (self_envelope (self w))) /\
  Forall (fun r => exists m plaintext, _decrypt_row (self_kek (self w)) r = Ok (m, plaintext)) (all_rows d).
Proof.
  intros Hro E d. unfold lifecycle_counts in E. run_inv E as ps w1 H1. apply lift_Ok in H1 as [_ ->].
  apply connect_inv in E as (f&w2&E&Hw). fold d in E. run_inv E as u w1 H1. apply verify_Ok in H1 as (->&Hp&Hc); [|done].
  run_inv E as d1 w1 H1. apply gets_Ok in H1 as [-> ->]. run_inv E as k w1 H1. apply gets_Ok in H1 as [-> ->].
  apply lift_Ok in E as [E ->]. rewrite Hw by done. apply count_rows_Ok in E. done.
Qed.

(** The read-only constructor opened the KEK file and touched nothing. *)
Lemma init_reader_Ok secrets_key w u w' :
  __init__ secrets_key true w = (Ok u, w') ->
  kek_file w' = kek_file w /\ database w' = database w /\
  exists mk e file, kek_file w = Some file /\ open_envelope mk file = Ok e /\ self w' = mkStore true mk (kek e) e.
Proof.
  intros E. unfold __init__ in E. run_inv E as j w1 H1. apply gets_Ok in H1 as [-> ->].
  run_inv E as u1 w1 H1. apply lift_Ok in H1 as [_ ->]. run_inv E as db w1 H1. apply gets_Ok in H1 as [-> ->].
  run_inv E as kf w1 H1. apply gets_Ok in H1 as [-> ->]. run_inv E as u2 w1 H1. apply lift_Ok in H1 as [_ ->].
  run_inv E as u3 w1 H1. injection H1 as <- <-.
  run_inv E as me w1 H1. destruct me as [mk e].
  assert (exists f file, w1 = set_faults f w /\ kek_file w = Some file /\ open_envelope mk file = Ok e) as (f&file&->&Hfile&Ho).
  { unfold _load_or_create_kek in H1. run_inv H1 as m0 w2 H2. apply lift_Ok in H2 as [_ ->].
    run_inv H1 as m1 w2 H2.
    assert (exists f, w2 = set_faults f w) as (f2&->).
    { unfold recovery_master_key in H2. run_inv H2 as sealed w3 H3. apply gets_Ok in H3 as [-> ->].
      destruct (recovery_master w) as [sealed|].
      - apply (catch_raise _ _ _ _ m1) in H2; [|done]. run_inv H2 as u4 w3 H3. apply io_Ok in H3 as (f3&->).
        run_inv H2 as u5 w3 H3. apply lift_Ok in H3 as [_ ->]. run_inv H2 as u6 w3 H3. apply lift_Ok in H3 as [_ ->].
        apply lift_Ok in H2 as [_ ->]. by eexists.
      - injection H2 as <- <-. exists (faults w). by destruct w. }
    run_inv H1 as u4 w3 H3. apply lift_Ok in H3 as [_ ->]. run_inv H1 as kf w3 H3. apply gets_Ok in H3 as [-> ->].
    cbn [kek_file set_faults] in H1. destruct (kek_file w) as [file|] eqn:Hfile; [|done].
    apply (catch_raise _ _ _ _ (mk, e)) in H1; [|done]. run_inv H1 as u5 w3 H3. apply io_Ok in H3 as (f3&->).
    run_inv H1 as e' w3 H3. apply lift_Ok in H3 as [Ho ->]. run_inv H1 as u6 w3 H3. injection H3 as <- <-.
    injection H1 as <- <- <-. exists f3, file. split_and!; [by destruct w|done|done]. }
  clear H1. run_inv E as u4 w1 H1. apply modify_Ok in H1 as ->. unfold _initialize in E.
  run_inv E as ro w1 H1. apply gets_Ok in H1 as [-> ->]. cbn [self set_self self_read_only] in E.
  run_inv E as u5 w1 H1. injection E as _ <-. apply connect_inv in H1 as (f2&w2&Hb&Hw).
  run_inv Hb as u6 w3 H3. injection H3 as <- <-. run_inv Hb as d w3 H3. apply gets_Ok in H3 as [-> ->].
  run_inv Hb as u7 w3 H3. cbn [conn set_conn] in H3.
  destruct (store_metadata _ !! _) as [v|].
  2: { run_inv H3 as u8 w4 H4. by apply lift_Ok in H4 as [? _]. }
  apply lift_Ok in H3 as [_ ->]. apply verify_Ok in Hb as (->&_&_); [|done]. rewrite Hw by done.
  split_and!; [done|done|]. by exists mk, e, file.
Qed.
End Reader.

Section Sound.
Context `{HA : Aead} `{HX : X509} `{HS : SqlAffinity}.

Lemma snapshot_row_provider ids v r : snapshot_row ids v = Ok r -> row_provider_id r ∈ ids.
Proof.
  destruct v as [| | | | | |row]; try done. unfold snapshot_row. intros E.
  apply bind_Ok in E as (?&_&E). apply bind_Ok in E as (provider&_&E). apply bind_Ok in E as (known&Hk&E).
  apply bind_Ok in E as (?&Hr&E). apply raise_if_Ok, negb_false_iff in Hr. subst known.
  apply bind_Ok in E as (nonce&_&E). apply bind_Ok in E as (ct&_&E). apply bind_Ok in E as (p&Hp&E).
  do 8 (apply bind_Ok in E as (?&_&E)). injection E as <-. cbn.
  destruct provider; cbn in Hk; try done. injection Hk as Hk. apply bool_decide_eq_true in Hk.
  unfold not_null, column_text in Hp. res_inv. done.
Qed.

(** The tables of the connection hold providers of [ids] only. *)
Definition of_providers (ids : list pystr) (d : Db) : Prop :=
  map_Forall (fun _ r => row_provider_id r ∈ ids) (wrapped_keys d).

(** What the inserts leave: the connection is ahead of the database only in a transaction. *)
Record filling (ids : list pystr) (w : World) : Prop := {
  fi_rows : of_providers ids (conn w);
  fi_database : in_transaction w = false -> database w = Some (conn w)
}.

Lemma each_Ok {A} (P : World -> Prop) (f : A -> M unit) l :
  (forall x w u w', P w -> f x w = (Ok u, w') -> P w') ->
  forall w u w', P w -> each f l w = (Ok u, w') -> P w'.
Proof.
  intros Hf. induction l as [|x l IH]; intros w u w' Hw E; cbn in E; [by injection E as _ <-|].
  run_inv E as u1 w1 H1. eapply IH; [|exact E]. by eapply Hf.
Qed.

Lemma insert_metadata_filling ids v w u w' : filling ids w -> insert_metadata v w = (Ok u, w') -> filling ids w'.
Proof.
  intros [Hr _] E. unfold insert_metadata in E. run_inv E as nv w1 H1. destruct nv as [name value].
  apply lift_Ok in H1 as [_ ->]. run_inv E as d w1 H1. apply gets_Ok in H1 as [-> ->].
  run_inv E as u1 w1 H1. apply lift_Ok in H1 as [_ ->]. apply modify_Ok in E as ->. by split.
Qed.

Lemma restore_row_filling ids v w u w' : filling ids w -> restore_row ids v w = (Ok u, w') -> filling ids w'.
Proof.
  intros [Hr _] E. unfold restore_row in E. run_inv E as r w1 H1.
  apply lift_Ok in H1 as [Hp ->]. apply snapshot_row_provider in Hp. run_inv E as d w1 H1. apply gets_Ok in H1 as [-> ->].
  run_inv E as u1 w1 H1. apply lift_Ok in H1 as [_ ->]. run_inv E as u2 w1 H1. apply lift_Ok in H1 as [_ ->].
  apply modify_Ok in E as ->. split; [|done]. by apply map_Forall_insert_2.
Qed.

Lemma fill_database_Ok s ids w u w' :
  trust_provider_ids (snap_trust s) = Ok ids -> database w = Some empty_db -> fill_database s w = (Ok u, w') ->
  exists d, database w' = Some d /\ of_providers ids d.
Proof.
  intros Hids Hdb E. unfold fill_database in E. run_inv E as u1 w1 H1. apply io_Ok in H1 as (f&->).
  run_inv E as u2 w1 H1. rewrite (rollback_ok empty_db) in H1 by done. injection H1 as _ <-.
  run_inv E as u3 w1 H1.
  assert (filling ids w1) as Hw1.
  { unfold execute_schema in H1. run_inv H1 as u4 w2 H2. apply io_Ok in H2 as (f2&->).
    run_inv H1 as d w2 H2. apply gets_Ok in H2 as [-> ->]. run_inv H1 as u5 w2 H2. apply modify_Ok in H2 as ->.
    apply modify_Ok in H1 as ->. cbn [database set_faults set_conn]. rewrite Hdb. split; [apply map_Forall_empty|done]. }
  run_inv E as u4 w2 H2. apply (catch_raise _ _ _ _ u4) in H2; [|intros; apply rollback_raise].
  assert (filling ids w2) as Hw2.
  { run_inv H2 as u5 w3 H3. apply (each_Ok (filling ids)) in H3; [|apply insert_metadata_filling|done].
    run_inv H2 as ids' w4 H4. apply lift_Ok in H4 as [Hids' ->]. rewrite Hids in Hids'. injection Hids' as <-.
    by apply (each_Ok (filling ids)) in H2; [|apply restore_row_filling|]. }
  run_inv E as u5 w3 H3. apply (catch_raise _ _ _ _ u5) in H3; [|intros; apply rollback_raise].
  apply io_Ok in E as (f2&->). cbn [database set_faults]. exists (conn w2). split; [|apply Hw2].
  apply commit_Ok in H3. destruct (in_transaction w2) eqn:Et; [by destruct H3 as (f3&->)|]. subst w3. by apply Hw2.
Qed.

(** The file has its content at the end. *)
Lemma exclusive_file_Ok (P : World -> Prop) exists_ put data c u c' :
  (forall f c0, P (set_faults f (files (put data c0)))) ->
  _exclusive_file exists_ put data c = (Ok u, c') -> P (files c').
Proof.
  intros HP E. unfold _exclusive_file in E. run_inv E as u1 c1 _. run_inv E as b c2 _. run_inv E as u2 c3 _.
  run_inv E as u3 c4 _. run_inv E as u4 c5 _. run_inv E as u5 c6 H5. apply modify_Ok in H5 as ->.
  apply on_files_Ok in E as [E _]. apply io_Ok in E as (f&->). apply HP.
Qed.

(** What an accepted candidate holds. *)
Record sound_candidate (s : Snapshot) (w : World) : Prop := {
  sc_trust : validate_trust (snap_trust s) = Ok tt;
  sc_file : exists file, json_b64decode (snap_kek s) = Ok file /\ kek_file w = Some file;
  sc_store : exists mk e d ids file,
    kek_file w = Some file /\ open_envelope mk file = Ok e /\ database w = Some d /\
    pending_commitment e = None /\ _store_commitment d = Ok (commitment e) /\
    trust_provider_ids (snap_trust s) = Ok ids /\
    forall r, r ∈ all_rows d -> row_provider_id r ∈ ids /\ exists m plaintext, _decrypt_row (kek e) r = Ok (m, plaintext)
}.

Lemma candidate_body_Ok s secrets_key c u c' :
  validate_trust (snap_trust s) = Ok tt -> candidate_body s secrets_key c = (Ok u, c') -> sound_candidate s (files c').
Proof.
  intros Hv E. unfold candidate_body in E.
  run_inv E as master c1 E1. apply lift_Ok in E1 as [_ ->]. run_inv E as file c1 E1. apply lift_Ok in E1 as [Hfile ->].
  run_inv E as u1 c1 _. run_inv E as u2 c2 _. run_inv E as nonce c3 _. run_inv E as m0 c4 _. run_inv E as u3 c5 _.
  run_inv E as sealed c6 _. run_inv E as u4 c7 _. run_inv E as text c8 _. run_inv E as u5 c9 _.
  run_inv E as u6 c10 E1. apply (exclusive_file_Ok (fun w => database w = Some empty_db)) in E1; [|done].
  run_inv E as u7 c11 E2. apply on_files_Ok in E2 as [E2 _].
  run_inv E as ids c12 E3. apply lift_Ok in E3 as [Hids ->].
  pose proof (fill_database_Ok s ids _ _ _ Hids E1 E2) as (d&Hd&Hof).
  run_inv E as u8 c12 E4. apply on_files_Ok in E4 as [E4 _]. apply init_reader_Ok in E4 as (Hk4&Hd4&mk&e&file'&Hf'&Ho&Hself).
  run_inv E as u9 c13 E5. apply on_files_Ok in E5 as [E5 _]. apply (catch_raise _ _ _ _ u9) in E5; [|done].
  run_inv E5 as counts w1 E6. apply lifecycle_counts_Ok in E6 as (Hk6&Hd6&Hp&Hc&Hrows); [|by rewrite Hself].
  rewrite Hself in Hp, Hc, Hrows. rewrite Hd4, Hd in Hc, Hrows. cbn in Hp, Hc, Hrows.
  apply modify_Ok in E5. run_inv E as file2 c14 E7. apply gets_Ok in E7 as [-> ->].
  run_inv E as u10 c14 E8. apply on_files_Ok in E8 as [E8 _]. apply io_Ok in E8 as (f8&F8).
  run_inv E as u11 c15 E9. apply lift_Ok in E9 as [Hsame ->]. apply raise_if_Ok, negb_false_iff, bool_decide_eq_true in Hsame.
  apply on_files_Ok in E as [E _]. apply io_Ok in E as (f9&F9).
  assert (kek_file (files c') = kek_file (files c13) /\ database (files c') = Some d) as [HK HD].
  { rewrite F9, F8, E5. cbn. split; [done|]. congruence. }
  split; [done| |].
  - exists file. split; [done|]. congruence.
  - exists mk, e, d, ids, file'. split_and!; try done.
    + rewrite HK, E5. cbn. congruence.
    + intros r Hin. rewrite Forall_forall in Hrows. split; [|by apply Hrows].
      apply all_rows_elem in Hin as (k&Hr). exact (Hof _ _ Hr).
Qed.

Lemma build_candidate_Ok s secrets_key c u c' :
  build_candidate s secrets_key c = (Ok u, c') -> occupied c = false /\ sound_candidate s (files c').
Proof.
  intros E. unfold build_candidate in E. run_inv E as u1 c1 H1. apply lift_Ok in H1 as [Hv ->]. destruct u1.
  run_inv E as o c1 H1. apply gets_Ok in H1 as [-> ->]. run_inv E as u2 c1 H1. apply lift_Ok in H1 as [Ho ->].
  apply raise_if_Ok in Ho. apply (catch_raise _ _ _ _ u) in E; [|done]. split; [done|]. by eapply candidate_body_Ok.
Qed.
End Sound.
