(* ===== verification/RecoverySteadfast.v ===== *)
(** Success does not depend on the pattern of faults: a computation that returned although
    input and output could fail returns the same without faults.  What is proved of the
    faultless construction of a candidate therefore holds of every candidate that was built. *)

From S2P Require Import Prelude Utf8 PyText Uuid Json Base64 Sha256 World Store StoreSpec StoreInv StoreOpen StoreLive.
From S2P Require Import Certificates Recovery RecoveryArchive RecoveryRestore RecoverySound.
Open Scope Z_scope.

(** The state without faults to come. *)
Class Clear (S : Type) : Type := clear : S -> S.

#[export] Instance clear_world : Clear World := set_faults [].
#[export] Instance clear_candidate : Clear Candidate := fun c => mkCandidate (clear (files c)) (trust_file c).

Create HintDb steadfast.

Section Generic.
Context {S : Type} `{Clear S}.

Definition steadfast {A} (c : ST S A) : Prop := forall w a w', c w = (Ok a, w') -> c (clear w) = (Ok a, clear w').

Lemma steadfast_bind {A B} (c : ST S A) (k : A -> ST S B) :
  steadfast c -> (forall a, steadfast (k a)) -> steadfast (c ≫= k).
Proof. intros Hc Hk w b w' E. run_inv E as a w1 E1. rewrite (run_ok _ _ _ _ _ (Hc _ _ _ E1)). by apply Hk. Qed.

Lemma steadfast_lift {A} (r : res A) : steadfast (lift r).
Proof. intros w a w' E. apply lift_Ok in E as [-> ->]. done. Qed.

Lemma steadfast_ret {A} (a : A) : steadfast (mret a).
Proof. intros w b w' E. by injection E as <- <-. Qed.

Lemma steadfast_gets {A} (f : S -> A) : (forall w, f (clear w) = f w) -> steadfast (gets f).
Proof. intros Hf w a w' E. apply gets_Ok in E as [-> ->]. unfold gets. by rewrite Hf. Qed.

Lemma steadfast_modify f : (forall w, f (clear w) = clear (f w)) -> steadfast (modify f).
Proof. intros Hf w a w' E. destruct a. apply modify_Ok in E as ->. unfold modify. by rewrite Hf. Qed.

Lemma steadfast_catch {A} classes (c : ST S A) h :
  steadfast c -> (forall e w a w', h e w <> (Ok a, w')) -> steadfast (catch classes c h).
Proof. intros Hc Hh w a w' E. apply (catch_raise _ _ _ _ a) in E; [|intros; apply Hh]. by apply catch_ok, Hc. Qed.
End Generic.

Lemma steadfast_io e : steadfast (io e).
Proof. intros w a w' E. destruct a. apply io_Ok in E as (f&->). done. Qed.

Lemma steadfast_urandom n : steadfast (urandom n).
Proof. intros w a w' E. by injection E as <- <-. Qed.

Lemma steadfast_files {A} (m : M A) : steadfast m -> steadfast (on_files m).
Proof.
  intros Hm c a c' E. apply on_files_Ok in E as [E Et]. apply Hm in E. unfold on_files. cbn [clear clear_candidate files trust_file].
  rewrite E. unfold clear at 2, clear_candidate. by rewrite Et.
Qed.

#[export] Hint Resolve steadfast_lift steadfast_ret steadfast_io steadfast_urandom steadfast_files : steadfast.

(** Walk over a computation; what remains are its calls. *)
Ltac steadfast_tac :=
  repeat first
    [ lazymatch goal with
      | |- steadfast (mbind _ _) => apply steadfast_bind; [|intros ?]
      | |- steadfast (gets _) => apply steadfast_gets; reflexivity
      | |- steadfast (modify _) => apply steadfast_modify; reflexivity
      | |- steadfast (on_files _) => apply steadfast_files
      end
    | solve [auto with steadfast]
    | match goal with
      | |- steadfast (match ?x with _ => _ end) => destruct x
      | |- steadfast (let '_ := ?x in _) => destruct x
      end ].

Section Steadfast.
Context `{HA : Aead} `{HX : X509} `{HS : SqlAffinity}.

Lemma steadfast_rollback : steadfast rollback.
Proof. unfold rollback. steadfast_tac. Qed.

Lemma steadfast_commit : steadfast commit.
Proof. unfold commit. steadfast_tac. Qed.

Lemma steadfast_schema : steadfast execute_schema.
Proof. unfold execute_schema. steadfast_tac. Qed.
#[local] Hint Resolve steadfast_rollback steadfast_commit steadfast_schema : steadfast.

Lemma steadfast_connect {A} (body : M A) : steadfast body -> steadfast (_connect body).
Proof.
  intros Hb. unfold _connect. steadfast_tac; apply steadfast_catch; auto with steadfast; intros; apply rollback_raise.
Qed.

Lemma steadfast_uuid4 : steadfast uuid4.
Proof. unfold uuid4. steadfast_tac. Qed.
#[local] Hint Resolve steadfast_uuid4 : steadfast.

Lemma steadfast_write mk e : steadfast (_write_kek_envelope mk e).
Proof. unfold _write_kek_envelope. steadfast_tac. Qed.
#[local] Hint Resolve steadfast_write : steadfast.

Lemma steadfast_write_envelope e : steadfast (_write_envelope e).
Proof. unfold _write_envelope. steadfast_tac. Qed.
#[local] Hint Resolve steadfast_write_envelope : steadfast.

Lemma steadfast_verify : steadfast _verify_store_commitment.
Proof. unfold _verify_store_commitment. steadfast_tac. Qed.
#[local] Hint Resolve steadfast_verify : steadfast.

Lemma steadfast_recovery m : steadfast (recovery_master_key m).
Proof. unfold recovery_master_key. steadfast_tac. apply steadfast_catch; [|done]. steadfast_tac. Qed.
#[local] Hint Resolve steadfast_recovery : steadfast.

Lemma steadfast_load k b : steadfast (_load_or_create_kek k b).
Proof. unfold _load_or_create_kek. steadfast_tac; apply steadfast_catch; try done; steadfast_tac. Qed.
#[local] Hint Resolve steadfast_load : steadfast.

Lemma steadfast_initialize : steadfast _initialize.
Proof. unfold _initialize. steadfast_tac; apply steadfast_connect; steadfast_tac. Qed.
#[local] Hint Resolve steadfast_initialize : steadfast.

Lemma steadfast_init k b : steadfast (__init__ k b).
Proof. unfold __init__. steadfast_tac. Qed.

Lemma steadfast_counts ids : steadfast (lifecycle_counts ids).
Proof. unfold lifecycle_counts. steadfast_tac. apply steadfast_connect. steadfast_tac. Qed.

Lemma steadfast_close : steadfast close.
Proof. unfold close. steadfast_tac. Qed.

Lemma steadfast_each {A} (f : A -> M unit) l : (forall x, steadfast (f x)) -> steadfast (each f l).
Proof. intros Hf. induction l as [|x l IH]; cbn [each]; steadfast_tac; done. Qed.

Lemma steadfast_insert_metadata v : steadfast (insert_metadata v).
Proof. unfold insert_metadata. steadfast_tac. Qed.

Lemma steadfast_restore_row ids v : steadfast (restore_row ids v).
Proof. unfold restore_row. steadfast_tac. Qed.
#[local] Hint Resolve steadfast_init steadfast_counts steadfast_close steadfast_insert_metadata steadfast_restore_row : steadfast.
#[local] Hint Resolve steadfast_each : steadfast.

Lemma steadfast_fill s : steadfast (fill_database s).
Proof.
  unfold fill_database. steadfast_tac; apply steadfast_catch; auto with steadfast; try (intros; apply rollback_raise).
  steadfast_tac.
Qed.
#[local] Hint Resolve steadfast_fill : steadfast.

Lemma steadfast_exclusive exists_ put data :
  (forall c, exists_ (clear c) = exists_ c) -> (forall b c, put b (clear c) = clear (put b c)) ->
  steadfast (_exclusive_file exists_ put data).
Proof.
  intros He Hp. unfold _exclusive_file. steadfast_tac; try (by apply steadfast_gets); by apply steadfast_modify.
Qed.

Lemma close_raise {A} e w (a : A) w' : (close ≫= fun _ => lift (Raise e)) w <> (Ok a, w').
Proof. done. Qed.

Lemma steadfast_candidate snapshot secrets_key : steadfast (candidate_body snapshot secrets_key).
Proof.
  unfold candidate_body. steadfast_tac; try (by apply steadfast_exclusive).
  apply steadfast_catch; [|intros; apply close_raise]. steadfast_tac.
Qed.

Lemma steadfast_build snapshot secrets_key : steadfast (build_candidate snapshot secrets_key).
Proof. unfold build_candidate. steadfast_tac. apply steadfast_catch; [apply steadfast_candidate|done]. Qed.
End Steadfast.

Lemma occupied_empty c : occupied c = false -> empty_directory (clear c).
Proof.
  unfold occupied. rewrite !orb_false_iff, !bool_decide_eq_false, <- !eq_None_not_Some. by intros ((((?&?)&?)&?)&?).
Qed.

(** Every candidate that was built of an exported store holds that store. *)
Lemma build_candidate_restores `{Aead} {laws : AeadLaws} `{X509} `{SqlAffinity}
    secrets_key mk e d file trust ids m0 c u c' :
  length mk = 32%nat -> length (kek e) = 32%nat -> db_ok (kek e) d -> open_envelope mk file = Ok e -> zlen file <= 8192 ->
  pending_commitment e = None /\ _store_commitment d = Ok (commitment e) ->
  validate_trust trust = Ok tt -> dumpable trust -> trust_provider_ids trust = Ok ids -> covers d ids ->
  _master_key secrets_key = Ok m0 ->
  build_candidate (restored_snapshot mk d file trust) secrets_key c = (Ok u, c') ->
  offline secrets_key mk e d (clear (files c')).
Proof.
  intros Hmk HK Hdb Hopen Hsize Hsettled Htrust Hdump Hids Hcovers Hm0 E. destruct u.
  pose proof (proj1 (build_candidate_Ok _ _ _ _ _ E)) as Hempty.
  destruct (build_candidate_ok secrets_key mk e d file trust ids Hmk HK Hdb Hopen Hsize Hsettled Htrust Hdump Hids Hcovers
    m0 (clear c) Hm0 (occupied_empty _ Hempty)) as (c''&E'&Ho&_).
  rewrite (steadfast_build _ _ _ _ _ E) in E'. by injection E' as <-.
Qed.
