(* ===== verification/RecoveryRuntime.v ===== *)
(** The privileged publication of a recovered store
    ([src/atlaso/app/kmip/recovery_runtime.py]): a journal and candidate directories under an
    anchor that only root can write, the active state directory, and the moves between them.

    - [anchor] holds the entries of the anchor directory by name: the journal
      [pending.json], [approved.json], [service.json], their archived and temporary copies,
      the candidate directories and the retained previous ones.
    - [active] is the entry [/var/lib/atlaso/kmip]; a symbolic link or another file is
      [Foreign], with its own identity and that of what it leads to.
    - A directory has the identity [(st_dev, st_ino)], an owner, the files of a store, and
      the names of what else is in it; it is [ordinary] when all entries are regular files
      with one link.
    - [process] carries the random source, the clock and the faults.  The descriptors the
      code pins are the entries themselves; the anchor and the state directory are on one
      device, whose inode numbers [next_inode] counts. *)

From S2P Require Import Prelude Utf8 PyText Uuid Json Base64 Sha256 World Store Certificates Recovery.
Open Scope Z_scope.

Record Directory : Type := mkDirectory {
  identity : Z * Z;
  contents : Candidate;
  extra : list pystr;
  ordinary : bool;
  owner : Z * Z
}.

Inductive Entry : Type := Dir (d : Directory) | File (data : bytes).

Inductive Target : Type := StateDir (d : Directory) | Foreign (own : Z * Z) (leads_to : option (Z * Z)).

(** [os.fstat] of a path component. *)
Record Stat : Type := mkStat { st_uid : Z; st_mode : Z }.

Record Runtime : Type := mkRuntime {
  ancestors : list Stat;
  anchor_stat : option Stat;
  umask : Z;
  anchor : gmap pystr Entry;
  active : option Target;
  config_file : option bytes;
  device : Z;
  next_inode : Z;
  process : World
}.

Abbreviation R := (ST Runtime).

Definition set_anchor (a : gmap pystr Entry) (rt : Runtime) : Runtime :=
  mkRuntime (ancestors rt) (anchor_stat rt) (umask rt) a (active rt) (config_file rt) (device rt) (next_inode rt) (process rt).
Definition set_active (t : option Target) (rt : Runtime) : Runtime :=
  mkRuntime (ancestors rt) (anchor_stat rt) (umask rt) (anchor rt) t (config_file rt) (device rt) (next_inode rt) (process rt).
Definition set_process (p : World) (rt : Runtime) : Runtime :=
  mkRuntime (ancestors rt) (anchor_stat rt) (umask rt) (anchor rt) (active rt) (config_file rt) (device rt) (next_inode rt) p.
Definition set_anchor_stat (s : option Stat) (rt : Runtime) : Runtime :=
  mkRuntime (ancestors rt) s (umask rt) (anchor rt) (active rt) (config_file rt) (device rt) (next_inode rt) (process rt).

Definition pending_json : pystr := str "pending.json".
Definition approved_json : pystr := str "approved.json".
Definition service_json : pystr := str "service.json".

Definition put_file (name : pystr) (data : bytes) (rt : Runtime) : Runtime :=
  set_anchor (<[name := File data]> (anchor rt)) rt.

(** An effect of the process. *)
Definition on_process {A} (m : M A) : R A := fun rt =>
  let '(r, p) := m (process rt) in (r, set_process p rt).

(** One system call that can fail. *)
Definition syscall : R unit := on_process (io OSError).

(** [uuid.uuid4().hex]. *)
Definition uuid4_hex : R pystr := n ← on_process uuid4; mret (hex_fixed 32 n).

(** [datetime.now(UTC)]. *)
Definition utcnow : M Z := fun w => (Ok (default 0 (head (clock w))), set_clock (tail (clock w)) w).

(** The random source, clock and faults of [p]. *)
Definition set_tapes (p w : World) : World :=
  mkWorld (kek_file w) (recovery_master w) (database w) (journal_file w) (conn w) (in_transaction w) (self w)
    (random p) (clock p) (faults p).

(** A computation on the files of a directory. *)
Definition in_directory {A} (m : ST Candidate A) (d : Directory) (p : World) : res A * Directory * World :=
  let '(r, c) := m (mkCandidate (set_tapes p (files (contents d))) (trust_file (contents d))) in
  (r, mkDirectory (identity d) c (extra d) (ordinary d) (owner d), set_tapes (files c) p).

(* ------------------------------------------------------------------ *)
(** ** Entries and moves *)

Inductive Place : Type := InAnchor (name : pystr) | Active_.

Definition occupied_place (p : Place) (rt : Runtime) : bool :=
  match p with
  | InAnchor name => bool_decide (is_Some (anchor rt !! name))
  | Active_ => bool_decide (is_Some (active rt))
  end.

(** The directory at a place. *)
Definition directory_at (p : Place) (rt : Runtime) : option Directory :=
  match p with
  | InAnchor name => match anchor rt !! name with Some (Dir d) => Some d | _ => None end
  | Active_ => match active rt with Some (StateDir d) => Some d | _ => None end
  end.

Definition set_directory (p : Place) (d : Directory) (rt : Runtime) : Runtime :=
  match p with
  | InAnchor name => set_anchor (<[name := Dir d]> (anchor rt)) rt
  | Active_ => set_active (Some (StateDir d)) rt
  end.

Definition remove_place (p : Place) (rt : Runtime) : Runtime :=
  match p with
  | InAnchor name => set_anchor (delete name (anchor rt)) rt
  | Active_ => set_active None rt
  end.

(** A computation on the files of the directory at a place. *)
Definition at_place {A} (p : Place) (m : ST Candidate A) : R A := fun rt =>
  match directory_at p rt with
  | Some d => let '(r, d', w) := in_directory m d (process rt) in (r, set_directory p d' (set_process w rt))
  | None => (Raise OSError, rt)
  end.

(** [_rename_absent] of a directory: [renameat2] with [RENAME_NOREPLACE], then both parents
    are flushed. *)
Definition _rename_absent (source destination : Place) : R unit :=
  _ ← syscall;
  moved ← gets (directory_at source);
  there ← gets (occupied_place destination);
  match moved, (there : bool) with
  | Some d, false =>
    _ ← modify (remove_place source);
    _ ← modify (set_directory destination d);
    _ ← syscall;
    syscall
  | _, _ => lift (Raise OSError)
  end.

(** [_rename_absent] of a file of the anchor. *)
Definition _rename_absent_file (source destination : pystr) : R unit :=
  _ ← syscall;
  a ← gets anchor;
  match a !! source, a !! destination with
  | Some (File data), None =>
    _ ← modify (set_anchor (<[destination := File data]> (delete source a)));
    _ ← syscall;
    syscall
  | _, _ => lift (Raise OSError)
  end.

(** [_exclusive_file] in the anchor. *)
Definition exclusive_anchor_file (name : pystr) (data : bytes) : R unit :=
  _ ← syscall;
  a ← gets anchor;
  _ ← lift (raise_if (bool_decide (is_Some (a !! name))) OSError);
  _ ← modify (put_file name []);
  _ ← syscall;
  _ ← modify (put_file name data);
  syscall.

(** [os.replace] of a file of the anchor by another. *)
Definition replace_file (source destination : pystr) : R unit :=
  _ ← syscall;
  a ← gets anchor;
  match a !! source with
  | Some (File data) => modify (set_anchor (<[destination := File data]> (delete source a)))
  | _ => lift (Raise OSError)
  end.

(** [(ANCHOR / name).read_bytes()]. *)
Definition read_anchor (name : pystr) : R bytes :=
  _ ← syscall;
  a ← gets anchor;
  match a !! name with
  | Some (File data) => mret data
  | _ => lift (Raise OSError)
  end.

(* ------------------------------------------------------------------ *)
(** ** The anchor *)

(** [info.st_uid != 0 or (info.st_mode & 0o022 and not info.st_mode & stat.S_ISVTX)], with
    [stat.S_ISVTX = 0o1000]; octal constants are written in hexadecimal. *)
Definition unsafe_stat (s : Stat) : bool :=
  negb (st_uid s =? 0) || (negb (Z.land (st_mode s) 0x12 =? 0) && (Z.land (st_mode s) 0x200 =? 0)).

(** The walk over the ancestors; they exist. *)
Fixpoint walk_ancestors (l : list Stat) : R unit :=
  match l with
  | [] => mret tt
  | s :: l =>
    _ ← syscall;
    _ ← lift (raise_if (unsafe_stat s) (RecoveryError "Recovery anchor ownership is unsafe."));
    walk_ancestors l
  end.

(** [_secure_anchor]: a missing anchor is created by root. *)
Definition _secure_anchor : R unit :=
  _ ← syscall;
  above ← gets ancestors;
  _ ← walk_ancestors above;
  _ ← syscall;
  found ← gets anchor_stat;
  s ← match found with
      | Some s => mret s
      | None =>
        _ ← syscall;
        u ← gets umask;
        let s := mkStat 0 (Z.ldiff 0x1c9 u) in
        _ ← modify (set_anchor_stat (Some s));
        _ ← syscall;
        _ ← syscall;
        mret s
      end;
  _ ← lift (raise_if (unsafe_stat s) (RecoveryError "Recovery anchor ownership is unsafe."));
  lift (raise_if (negb (Z.land (st_mode s) 0x36 =? 0))
    (RecoveryError "Recovery anchor must permit only root to read or write.")).

Definition json_identity (i : Z * Z) : json := JList [JInt i.1; JInt i.2].

(** [_journal]. *)
Definition _journal (document : json) : R unit :=
  hex ← uuid4_hex;
  let temporary := str "journal-" ++ hex in
  data ← lift (utf8_encode (dumps_default document));
  _ ← exclusive_anchor_file temporary data;
  _ ← replace_file temporary pending_json;
  _ ← syscall;
  syscall.

(** [pending]. *)
Definition pending (rt : Runtime) : bool := bool_decide (is_Some (anchor rt !! pending_json)).

(** [STATE.stat()]. *)
Definition stat_active : R (Z * Z) :=
  _ ← syscall;
  t ← gets active;
  match t with
  | Some (StateDir d) => mret (identity d)
  | Some (Foreign _ (Some i)) => mret i
  | _ => lift (Raise OSError)
  end.

Definition read_config : R bytes :=
  _ ← syscall;
  f ← gets config_file;
  match f with Some b => mret b | None => lift (Raise OSError) end.

(** [value[key]] of a JSON value. *)
Definition subscript (v : json) (key : pystr) : res json :=
  match v with JDict items => item items key | _ => Raise TypeError end.

(** [v == [st_dev, st_ino]], where [True] is 1 and [False] is 0; a float, which is never
    written there, is taken for another number. *)
Definition int_value (v : json) : option Z :=
  match v with JInt z => Some z | JBool b => Some (if b then 1 else 0) | _ => None end.
Definition is_identity (v : json) (i : Z * Z) : bool :=
  match v with JList [a; b] => bool_decide (int_value a = Some i.1) && bool_decide (int_value b = Some i.2) | _ => false end.

Definition startup_errors (e : exn) : bool :=
  match e with OSError | KeyError | TypeError => true | _ => is_ValueError e end.

(** [assert_startup_allowed]. *)
Definition assert_startup_allowed : R unit :=
  p ← gets pending;
  if negb p then mret tt else
  allowed ← catch startup_errors
    (data ← read_anchor approved_json;
     approval ← lift (loads_bytes data);
     i ← stat_active;
     expected ← lift (subscript approval (str "config_sha256"));
     config ← read_config;
     if in_names expected [sha256_hex config] then
       v ← lift (subscript approval (str "identity"));
       mret (is_identity v i)
     else mret false)
    (fun _ => mret false);
  lift (raise_if (negb allowed)
    (RecoveryError "KMIP recovery is pending public trust review and global Appliance Apply.")).

(* ------------------------------------------------------------------ *)
(** ** The target *)

Definition target_names : list pystr := map str ["store.db"; "kek.json"; "store.db-wal"; "store.db-shm"]%string.

(** The names of the entries of a directory. *)
Definition entry_names (d : Directory) : list pystr :=
  let c := contents d in
  (if bool_decide (is_Some (kek_file (files c))) then [str "kek.json"] else []) ++
  (if bool_decide (is_Some (recovery_master (files c))) then [str "recovery-master.bin"] else []) ++
  (if bool_decide (is_Some (trust_file c)) then [str "public-trust.json"] else []) ++
  (if bool_decide (is_Some (database (files c))) then [str "store.db"] else []) ++
  (if journal_file (files c) && negb (mem (str "store.db-journal") (extra d)) then [str "store.db-wal"] else []) ++
  extra d.

Section Runtime.
Context `{Aead} `{X509} `{Scrypt} `{SqlAffinity}.

(** [_empty_target]. *)
Definition _empty_target (p : Place) (secrets_key : pystr) : R unit :=
  _ ← syscall;
  found ← gets (directory_at p);
  match found with
  | None => lift (Raise OSError)
  | Some d =>
    let entries := entry_names d in
    if bool_decide (entries = []) then mret tt else
    _ ← lift (raise_if (negb (bool_decide (missing entries target_names = [])) ||
                        negb (mem (str "store.db") entries && mem (str "kek.json") entries))
          (RecoveryError "Recovery requires a complete authenticated empty target."));
    _ ← syscall;
    _ ← lift (raise_if (negb (ordinary d)) (RecoveryError "Recovery target contains unsafe entries."));
    at_place p (on_files (
      _ ← __init__ secrets_key true;
      catch is_Exception
        (counts ← lifecycle_counts [];
         _ ← lift (raise_if (existsb (fun kv => negb (total kv.2 =? 0)) counts)
               (RecoveryError "Recovery requires an empty native target; preserve existing keys."));
         close)
        (fun e => _ ← close; lift (Raise e))))
  end.

(* ------------------------------------------------------------------ *)
(** ** Candidates *)

Definition empty_contents : Candidate :=
  mkCandidate (mkWorld None None None false empty_db false (mkStore false [] [] (mkKekEnvelope [] 0 [] None None)) [] [] []) None.

(** [os.mkdir] in the anchor. *)
Definition make_directory (name : pystr) : R Directory :=
  _ ← syscall;
  a ← gets anchor;
  _ ← lift (raise_if (bool_decide (is_Some (a !! name))) OSError);
  rt ← gets id;
  let d := mkDirectory (device rt, next_inode rt) empty_contents [] true (0, 0) in
  _ ← modify (fun rt => mkRuntime (ancestors rt) (anchor_stat rt) (umask rt) (<[name := Dir d]> a) (active rt)
        (config_file rt) (device rt) (next_inode rt + 1) (process rt));
  mret d.

Definition unless {A} (b : bool) (f : option A) : option A := if b then None else f.

(** One file of the directory less, by name. *)
Definition unlink_in (name : pystr) (d : Directory) : Directory :=
  let c := contents d in let w := files c in
  let removed n := bool_decide (name = n) in
  mkDirectory (identity d)
    (mkCandidate (mkWorld (unless (removed (str "kek.json")) (kek_file w)) (unless (removed (str "recovery-master.bin")) (recovery_master w))
                    (unless (removed (str "store.db")) (database w))
                    (journal_file w && negb (removed (str "store.db-wal") || removed (str "store.db-journal")))
                    (conn w) (in_transaction w) (self w) (random w) (clock w) (faults w))
       (unless (removed (str "public-trust.json")) (trust_file c)))
    (filter (fun n => n <> name) (extra d)) (ordinary d) (owner d).

Fixpoint unlink_all (place : Place) (names : list pystr) : R unit :=
  match names with
  | [] => mret tt
  | name :: names =>
    _ ← syscall;
    found ← gets (directory_at place);
    match found with
    | Some d =>
      _ ← lift (raise_if (negb (ordinary d)) OSError);
      _ ← modify (set_directory place (unlink_in name d));
      unlink_all place names
    | None => lift (Raise OSError)
    end
  end.

(** The entry still is the directory [i]. *)
Definition same_directory (name : pystr) (i : Z * Z) : R Directory :=
  _ ← syscall;
  found ← gets (directory_at (InAnchor name));
  match found with
  | None => lift (Raise OSError)
  | Some d =>
    _ ← lift (raise_if (negb (bool_decide (identity d = i)))
          (RecoveryError "Recovery candidate identity changed; preserve it for reconciliation."));
    mret d
  end.

(** [_discard_unjournaled_candidate]. *)
Definition _discard_unjournaled_candidate (name : pystr) (i : Z * Z) : R unit :=
  d ← same_directory name i;
  _ ← unlink_all (InAnchor name) (entry_names d);
  _ ← syscall;
  d ← same_directory name i;
  _ ← syscall;
  _ ← lift (raise_if (negb (bool_decide (entry_names d = []))) OSError);
  _ ← modify (remove_place (InAnchor name));
  syscall.

(* ------------------------------------------------------------------ *)
(** ** Import *)

(** What the journal records. *)
Record Prepared : Type := mkPrepared { candidate : pystr; old : pystr; prepared_identity : json }.

Definition journal_name (prefix : string) (name : pystr) : bool :=
  has_prefix (str prefix) name && (zlen name =? zlen (str prefix) + 32) &&
  forallb is_lower_hex (drop (length (str prefix)) name).

(** The text of a name; what is no text fails the check of names. *)
Definition name_text (v : json) : pystr := match v with JStr s => s | _ => [] end.

(** The journal of an import under way; a value without [get] is refused. *)
Definition resume_journal (digest : pystr) (data : bytes) : res Prepared :=
  journal ← loads_bytes data;
  match journal with
  | JDict journal =>
    _ ← raise_if (negb (in_names (default JNull (dict_get (str "archive") journal)) [digest]))
        (RecoveryError "A different recovery is pending; preserve it before retrying.");
    candidate ← item journal (str "candidate");
    old ← item journal (str "old");
    _ ← raise_if (negb (journal_name "candidate-" (name_text candidate) && journal_name "previous-" (name_text old)))
        (RecoveryError "Recovery journal is invalid; reconciliation is required.");
    identity ← item journal (str "identity");
    match identity with
    | JList _ | JStr _ | JDict _ => Ok (mkPrepared (name_text candidate) (name_text old) identity)
    | _ => Raise TypeError
    end
  | _ => Raise AttributeError
  end.

Definition journal_document (digest candidate old : pystr) (i : Z * Z) (trust : json) : json :=
  JDict [(str "schema", JInt 1); (str "archive", JStr digest); (str "candidate", JStr candidate); (str "old", JStr old);
         (str "identity", json_identity i); (str "trust", trust)].

(** A candidate is built, flushed and journaled; without a journal it is removed again. *)
Definition journal_candidate (snapshot : Snapshot) (secrets_key digest candidate old : pystr) (i : Z * Z) : R Prepared :=
  _ ← catch is_Exception
    (_ ← at_place (InAnchor candidate) (build_candidate snapshot secrets_key);
     _ ← syscall;
     _ ← syscall;
     _journal (journal_document digest candidate old i (snap_trust snapshot)))
    (fun e =>
       p ← gets pending;
       _ ← (if (p : bool) then mret tt else _discard_unjournaled_candidate candidate i);
       lift (Raise e));
  mret (mkPrepared candidate old (json_identity i)).

Definition prepare_named (snapshot : Snapshot) (secrets_key digest candidate old : pystr) : R Prepared :=
  d ← make_directory candidate;
  _ ← syscall;
  journal_candidate snapshot secrets_key digest candidate old (identity d).

(** A new candidate under a new name. *)
Definition prepare_candidate (snapshot : Snapshot) (secrets_key digest : pystr) : R Prepared :=
  hex1 ← uuid4_hex;
  hex2 ← uuid4_hex;
  prepare_named snapshot secrets_key digest (str "candidate-" ++ hex1) (str "previous-" ++ hex2).

(** Each file of the candidate is checked, given its mode and owner, and flushed. *)
Fixpoint own_files (ordinary : bool) (names : list pystr) : R unit :=
  match names with
  | [] => mret tt
  | _ :: names =>
    _ ← syscall;
    _ ← lift (raise_if (negb ordinary) (RecoveryError "Recovery candidate ownership is unsafe."));
    _ ← syscall;
    _ ← syscall;
    _ ← syscall;
    own_files ordinary names
  end.

(** The candidate is handed to the service. *)
Definition own_candidate (candidate : pystr) (i : json) (uid gid : Z) : R unit :=
  _ ← syscall;
  found ← gets (directory_at (InAnchor candidate));
  match found with
  | None => lift (Raise OSError)
  | Some d =>
    _ ← lift (raise_if (negb (is_identity i (identity d))) (RecoveryError "Recovery candidate identity changed."));
    _ ← own_files (ordinary d) (entry_names d);
    _ ← syscall;
    _ ← syscall;
    _ ← modify (set_directory (InAnchor candidate)
          (mkDirectory (identity d) (contents d) (extra d) (ordinary d) (uid, gid)));
    syscall
  end.

(** The retained directory has to be an authenticated empty store; otherwise it is put
    back and the journal is set aside. *)
Definition validate_old (old : pystr) (secrets_key : pystr) : R unit :=
  catch is_Exception (_empty_target (InAnchor old) secrets_key)
    (fun e =>
       _ ← catch (fun e => match e with OSError => true | _ => false end)
             (_ ← _rename_absent (InAnchor old) Active_;
              hex ← uuid4_hex;
              _rename_absent_file pending_json (str "rejected-" ++ hex ++ str ".json"))
             (fun _ => mret tt);
       lift (Raise e)).

(** The active directory is moved into the anchor, unless that was done before. *)
Definition retain_active (old : pystr) (t : option Target) : R unit :=
  retained ← gets (occupied_place (InAnchor old));
  match (retained : bool), t with
  | false, Some (StateDir _) => _rename_absent Active_ (InAnchor old)
  | false, Some (Foreign _ _) => lift (Raise (RecoveryError "Recovery target is not an ordinary directory."))
  | _, _ => mret tt
  end.

Definition check_retained (old : pystr) (secrets_key : pystr) : R unit :=
  retained ← gets (occupied_place (InAnchor old));
  if (retained : bool) then validate_old old secrets_key else mret tt.

(** Publication of a prepared candidate; [true] when this run moved it. *)
Definition publish (prepared : Prepared) (secrets_key : pystr) (uid gid : Z) : R bool :=
  _ ← syscall;
  t ← gets active;
  let published := match t with
                   | Some (StateDir d) => is_identity (prepared_identity prepared) (identity d)
                   | Some (Foreign own _) => is_identity (prepared_identity prepared) own
                   | None => false
                   end in
  if published then mret false else
  _ ← retain_active (old prepared) t;
  _ ← check_retained (old prepared) secrets_key;
  _ ← own_candidate (candidate prepared) (prepared_identity prepared) uid gid;
  _ ← _rename_absent (InAnchor (candidate prepared)) Active_;
  mret true.

(** An ordinary populated target is refused before anything is written. *)
Definition check_target (secrets_key : pystr) : R unit :=
  p ← gets pending;
  t ← gets active;
  match (p : bool), t with
  | false, Some (Foreign _ (Some _)) => lift (Raise (RecoveryError "Recovery target is not an ordinary directory."))
  | false, Some (StateDir _) => _empty_target Active_ secrets_key
  | _, _ => mret tt
  end.

(** The candidate of the journal, or a new one. *)
Definition find_candidate (snapshot : Snapshot) (secrets_key digest : pystr) : R Prepared :=
  a ← gets anchor;
  match a !! pending_json with
  | Some _ => data ← read_anchor pending_json; lift (resume_journal digest data)
  | None => prepare_candidate snapshot secrets_key digest
  end.

(** [import_archive]. *)
Definition import_archive (archive : bytes) (passphrase secrets_key : pystr) (uid gid : Z) : R json :=
  snapshot ← lift (decrypt archive passphrase);
  _ ← check_target secrets_key;
  _ ← _secure_anchor;
  _ ← syscall;
  prepared ← find_candidate snapshot secrets_key (sha256_hex archive);
  _ ← publish prepared secrets_key uid gid;
  mret (snap_trust snapshot).

(* ------------------------------------------------------------------ *)
(** ** Authorization *)

(** [list(v)] of an iterable JSON value. *)
Definition elements (v : json) : res (list json) :=
  match v with
  | JList l => Ok l
  | JStr s => Ok (map (fun c => JStr [c]) s)
  | JDict items => Ok (map (fun kv => JStr kv.1) items)
  | _ => Raise TypeError
  end.

(** A text field of a row. *)
Definition text_field (v : json) (key : string) : res pystr := v ← subscript v (str key); as_str v TypeError.

(** The fingerprints of certificates that can be used now.  The trust of a journal passed
    [validate_trust]: identifiers and fingerprints are texts. *)
Fixpoint usable_fingerprints (certificates : list json) : R (list pystr) :=
  match certificates with
  | [] => mret []
  | certificate :: certificates =>
    pem ← lift (text_field certificate "certificate_pem");
    now ← on_process utcnow;
    usable ← (match parse_public_certificate now pem true with
              | Ok _ => f ← lift (text_field certificate "fingerprint_sha256"); mret [f]
              | Raise e => if is_ValueError e then mret [] else lift (Raise e)
              end);
    rest ← usable_fingerprints certificates;
    mret (usable ++ rest)
  end.

(** [certificates[id]] of the vCenters by identifier: the last one with the identifier. *)
Fixpoint vcenter_by_id (id : pystr) (vcenters : list json) (found : option json) : res json :=
  match vcenters with
  | [] => match found with Some v => Ok v | None => Raise KeyError end
  | v :: vcenters =>
    i ← text_field v "id";
    vcenter_by_id id vcenters (if bool_decide (i = id) then Some v else found)
  end.

(** The condition on a certificate for a provider. *)
Definition certificate_usable (vcenters : list json) (usable : list pystr) (provider_id : pystr) (certificate : json)
    : res (list pystr) :=
  f ← text_field certificate "fingerprint_sha256";
  if negb (mem f usable) then Ok [] else
  id ← text_field certificate "trusted_vcenter_id";
  vcenter ← vcenter_by_id id vcenters None;
  p ← text_field vcenter "provider_id";
  if negb (bool_decide (p = provider_id)) then Ok [] else
  enabled ← subscript vcenter (str "enabled");
  Ok (if truthy enabled then [f] else []).

(** The graph that the trust allows: providers with usable certificates. *)
Fixpoint expected_graph (vcenters certificates providers : list json) (usable : list pystr)
    : res (list (pystr * list pystr)) :=
  match providers with
  | [] => Ok []
  | provider :: providers =>
    enabled ← subscript provider (str "enabled");
    row ← (if truthy enabled then
             id ← text_field provider "id";
             fs ← mapM (certificate_usable vcenters usable id) certificates;
             Ok [(id, merge_sort str_le (concat fs))]
           else Ok []);
    rest ← expected_graph vcenters certificates providers usable;
    Ok (row ++ rest)
  end.

(** The graph of the configuration; fingerprints that are no texts match nothing. *)
Definition observed_row (row : json) : res (pystr * option (list pystr)) :=
  id ← text_field row "id";
  fs ← subscript row (str "client_fingerprints") ≫= elements;
  Ok (id, option_map (merge_sort str_le) (mapM (fun v => match v with JStr s => Some s | _ => None end) fs)).

(** The last entry of each name counts. *)
Definition as_map {A} (l : list (pystr * A)) : gmap pystr A := list_to_map (reverse l).

Definition nonempty (kv : pystr * list pystr) : bool := match kv.2 with [] => false | _ => true end.

(** The configuration shows exactly the allowed graph. *)
Definition graph_matches (expected : list (pystr * list pystr)) (observed : list (pystr * option (list pystr))) : bool :=
  bool_decide (as_map (map (fun kv => (kv.1, Some kv.2)) (filter (fun kv => nonempty kv = true) expected)) = as_map observed).

(** Retirement of the journal. *)
Definition complete_journal (journal : json) : R unit :=
  _ ← assert_startup_allowed;
  a ← gets anchor;
  _ ← (if bool_decide (is_Some (a !! service_json)) then
         hex ← uuid4_hex; _rename_absent_file service_json (str "service-completed-" ++ hex ++ str ".json")
       else mret tt);
  _ ← syscall;
  archive ← lift (text_field journal "archive");
  let completed := str "completed-" ++ archive ++ str ".json" in
  catch (fun e => match e with OSError => true | _ => false end)
    (_rename_absent_file pending_json completed)
    (fun e =>
       p ← gets pending;
       a ← gets anchor;
       _ ← (if negb p && bool_decide (is_Some (a !! completed)) then _rename_absent_file completed pending_json else mret tt);
       lift (Raise e)).

(** The record of an approval. *)
Definition approve (config : bytes) (i : Z * Z) : R unit :=
  hex ← uuid4_hex;
  let temporary := str "approval-" ++ hex in
  data ← lift (utf8_encode (dumps_default
    (JDict [(str "config_sha256", JStr (sha256_hex config)); (str "identity", json_identity i)])));
  _ ← exclusive_anchor_file temporary data;
  _ ← syscall;
  _ ← replace_file temporary approved_json;
  syscall.

(** The active directory is the journal's candidate, and the configuration shows the graph
    of its trust; the journal, the identity, and the configuration that was reviewed. *)
Definition review : R (json * (Z * Z) * bytes) :=
  data ← read_anchor pending_json;
  journal ← lift (loads_bytes data);
  i ← stat_active;
  recorded ← lift (subscript journal (str "identity"));
  _ ← lift (raise_if (negb (is_identity recorded i)) (RecoveryError "Recovery active identity requires reconciliation."));
  trust ← lift (subscript journal (str "trust"));
  text ← read_config;
  config ← lift (loads_bytes text);
  vcenters ← lift (subscript trust (str "vcenters") ≫= elements);
  _ ← lift (mapM (fun v => text_field v "id") vcenters);
  certificates ← lift (subscript trust (str "certificates") ≫= elements);
  usable ← usable_fingerprints certificates;
  providers ← lift (subscript trust (str "providers") ≫= elements);
  expected ← lift (expected_graph vcenters certificates providers usable);
  rows ← lift (subscript config (str "providers") ≫= elements);
  observed ← lift (mapM observed_row rows);
  let differs := negb (graph_matches expected observed) in
  enabled ← lift (if differs then Ok (JBool true) else subscript config (str "enabled"));
  _ ← lift (raise_if (differs || negb (truthy enabled))
        (RecoveryError "Review and restore the imported provider/fingerprint graph before Apply."));
  config ← read_config;
  mret (journal, i, config).

(** [authorize]. *)
Definition authorize (complete : bool) : R unit :=
  _ ← _secure_anchor;
  p ← gets pending;
  if negb p then mret tt else
  '(journal, i, config) ← review;
  if complete then complete_journal journal else approve config i.

(* ------------------------------------------------------------------ *)
(** ** Service posture *)

Definition posture_ok (states : json) : bool :=
  match states with
  | JDict states =>
    same_keys (map str ["atlaso-kmip.service"; "atlaso-kms.service"]%string) states.*1 &&
    forallb (fun kv => match kv.2 with JList [JBool _; JBool _] => true | _ => false end) states
  | _ => false
  end.

(** [service_checkpoint]; the fields of a request are texts. *)
Definition service_checkpoint (states : json) (operation binding : pystr) (finish : bool) : R json :=
  _ ← _secure_anchor;
  a ← gets anchor;
  if finish then
    _ ← (if bool_decide (is_Some (a !! service_json)) then
           hex ← uuid4_hex; _rename_absent_file service_json (str "service-completed-" ++ hex ++ str ".json")
         else mret tt);
    mret (JDict [(str "status", JStr (str "complete"))])
  else
  _ ← lift (raise_if (negb (posture_ok states)) (RecoveryError "Recovery service posture is invalid."));
  match a !! service_json with
  | Some _ =>
    data ← read_anchor service_json;
    saved ← lift (loads_bytes data);
    b ← lift (subscript saved (str "binding"));
    o ← lift (if in_names b [binding] then subscript saved (str "operation") else Ok JNull);
    _ ← lift (raise_if (negb (in_names b [binding] && in_names o [operation]))
          (RecoveryError "A different recovery operation requires service reconciliation."));
    states ← lift (subscript saved (str "states"));
    mret (JDict [(str "states", states)])
  | None =>
    hex ← uuid4_hex;
    let temporary := str "service-checkpoint-" ++ hex in
    data ← lift (utf8_encode (dumps_default
      (JDict [(str "schema", JInt 1); (str "states", states); (str "operation", JStr operation); (str "binding", JStr binding)])));
    _ ← exclusive_anchor_file temporary data;
    _ ← _rename_absent_file temporary service_json;
    mret (JDict [(str "states", states)])
  end.
End Runtime.
