(* ===== verification/RecoveryPhases.v ===== *)
(** The import of an archive as a crash-safe transaction: the phases it goes through, and
    that every run, wherever input and output fail or the machine stops, ends in one. *)

From S2P Require Import Prelude Utf8 PyText Uuid Json Base64 Sha256 World Store StoreSpec StoreInv StoreOpen StoreLive.
From S2P Require Import Certificates Recovery RecoveryArchive RecoveryRestore RecoverySound RecoveryRuntime.
Open Scope Z_scope.

(* ------------------------------------------------------------------ *)
(** ** Files of a directory *)

(** The files of a store; the rest of a world belongs to a process. *)
Record same_store (w w' : World) : Prop := {
  ss_kek : kek_file w' = kek_file w;
  ss_recovery : recovery_master w' = recovery_master w;
  ss_database : database w' = database w;
  ss_journal : journal_file w' = journal_file w
}.

#[global] Instance same_store_equiv : Equivalence same_store.
Proof.
  split.
  - by intros w.
  - by intros w w' [].
  - intros w1 w2 w3 [] []. split; congruence.
Qed.

Lemma set_tapes_store p w : same_store w (set_tapes p w).
Proof. by split. Qed.

(** The same directory with the same files; its owner may differ. *)
Record same_directory_files (d d' : Directory) : Prop := {
  sd_identity : identity d' = identity d;
  sd_store : same_store (files (contents d)) (files (contents d'));
  sd_trust : trust_file (contents d') = trust_file (contents d);
  sd_extra : extra d' = extra d;
  sd_ordinary : ordinary d' = ordinary d
}.

#[global] Instance same_directory_equiv : Equivalence same_directory_files.
Proof.
  split.
  - intros d. by split.
  - intros d d' []. split; [done|by symmetry|done..].
  - intros d1 d2 d3 [] []. split; try congruence. by etrans.
Qed.

(** The active entry, up to process state. *)
Definition same_target (t t' : option Target) : Prop :=
  match t, t' with
  | Some (StateDir d), Some (StateDir d') => same_directory_files d d'
  | _, _ => t = t'
  end.

#[global] Instance same_target_equiv : Equivalence same_target.
Proof.
  split.
  - intros [[]|]; cbn; reflexivity.
  - intros [[d|]|] [[d'|]|] Hs; cbn in *; try done. 
  - intros [[d1|]|] [[d2|]|] [[d3|]|] H1 H2; cbn in *; try done; try congruence; by etrans.
Qed.

(* ------------------------------------------------------------------ *)
(** ** Computations that change no file *)

(** The files and the random source are as they were. *)
Record still (w w' : World) : Prop := {
  st_store : same_store w w';
  st_random : random w' = random w
}.

#[global] Instance still_preorder : PreOrder still.
Proof.
  split.
  - intros w. by split.
  - intros w1 w2 w3 [] []. split; [by etrans|congruence].
Qed.

Definition keeps_store {A} (c : M A) (w : World) : Prop := still w (c w).2.

Ltac still := repeat (split; try done).

Section Frame.
Context `{HA : Aead}.

(** One step of a computation that keeps the files. *)
Lemma store_bind {A B} (c : M A) (k : A -> M B) w :
  keeps_store c w -> (forall a w', c w = (Ok a, w') -> still w w' -> keeps_store (k a) w') -> keeps_store (c ≫= k) w.
Proof.
  unfold keeps_store, mbind, ST_bind. intros Hc Hk. destruct (c w) as [[a|e] w'] eqn:E; [|done]. cbn in *.
  etrans; [exact Hc|]. by apply Hk.
Qed.

Lemma store_catch {A} classes (c : M A) h w :
  keeps_store c w -> (forall e w', still w w' -> keeps_store (h e) w') -> keeps_store (catch classes c h) w.
Proof.
  unfold keeps_store, catch. intros Hc Hh. destruct (c w) as [[a|e] w'] eqn:E; [done|]. cbn in *.
  destruct (classes e); [|done]. etrans; [exact Hc|]. by apply Hh.
Qed.

Lemma store_io e w : keeps_store (io e) w.
Proof. unfold keeps_store, io. destruct (faults w) as [|[] f]; by still. Qed.

Lemma store_lift {A} (r : res A) w : keeps_store (lift r) w.
Proof. by still. Qed.

Lemma store_gets {A} (f : World -> A) w : keeps_store (gets f) w.
Proof. by still. Qed.

Lemma store_ret {A} (a : A) w : keeps_store (mret a) w.
Proof. by still. Qed.

Lemma store_rollback w : keeps_store rollback w.
Proof. by still. Qed.

Lemma store_close w : keeps_store close w.
Proof. by still. Qed.

(** A body that only reads. *)
Definition pure {A} (c : M A) (w : World) : Prop := (c w).2 = w.

Lemma pure_bind {A B} (c : M A) (k : A -> M B) w : pure c w -> (forall a, pure (k a) w) -> pure (c ≫= k) w.
Proof.
  unfold pure, mbind, ST_bind. intros Hc Hk. destruct (c w) as [[a|e] w']; cbn in Hc; subst; [apply Hk|done].
Qed.

Lemma pure_verify w : self_read_only (self w) = true -> pure _verify_store_commitment w.
Proof.
  intros Hro. unfold _verify_store_commitment. apply pure_bind; [done|]. intros d. apply pure_bind; [done|]. intros c.
  unfold pure, mbind, ST_bind, gets. by rewrite Hro.
Qed.

Lemma store_connect {A} (body : M A) w :
  (forall f, pure body (set_conn (default empty_db (database w)) false (set_faults f w))) -> keeps_store (_connect body) w.
Proof.
  intros Hb. unfold _connect. unfold keeps_store, mbind, ST_bind at 1. pose proof (store_io SqliteError w) as Hio.
  unfold keeps_store in Hio. destruct (io SqliteError w) as [[u|e] w1] eqn:E; [|done].
  apply io_Ok in E as (f&->). unfold ST_bind at 1, rollback at 1, mbind, ST_bind at 1, gets. unfold modify.
  specialize (Hb f). unfold pure in Hb. cbn [database set_faults]. set (w1 := set_conn _ false _) in *.
  unfold ST_bind at 1, catch at 1. destruct (body w1) as [[a|e] w2]; cbn in Hb; subst w2.
  - done.
  - by destruct (is_Exception e).
Qed.

Lemma store_lifecycle_counts ids w : self_read_only (self w) = true -> keeps_store (lifecycle_counts ids) w.
Proof.
  intros Hro. unfold lifecycle_counts. apply store_bind; [by still|]. intros ps w' E _. apply lift_Ok in E as [_ ->].
  apply store_connect. intros f. apply pure_bind; [by apply pure_verify|]. by intros.
Qed.

Lemma store_recovery_master_key m w : keeps_store (recovery_master_key m) w.
Proof.
  unfold recovery_master_key. apply store_bind; [by still|]. intros sealed w' E _. destruct sealed; [|by still].
  apply store_catch; [|by still]. apply store_bind; [apply store_io|]. intros ? w1 _ _.
  apply store_bind; [by still|]. intros ? w2 _ _. apply store_bind; [by still|]. by still.
Qed.

(** The read-only constructor changes no file, whatever happens. *)
Lemma store_init secrets_key w : keeps_store (__init__ secrets_key true) w.
Proof.
  unfold __init__. do 5 (apply store_bind; [by still|]; intros ? ? _ _). apply store_bind; [by still|]. intros ? w1 _ _.
  apply store_bind.
  { unfold _load_or_create_kek. apply store_bind; [by still|]. intros m w2 _ _.
    apply store_bind; [apply store_recovery_master_key|]. intros m1 w3 _ _. apply store_bind; [by still|]. intros ? w4 _ _.
    apply store_bind; [by still|]. intros file w5 _ _. destruct file; [|by still].
    apply store_catch; [|by still]. apply store_bind; [apply store_io|]. intros ? w6 _ _.
    apply store_bind; [by still|]. intros ? w7 _ _. by still. }
  intros [mk e] w2 _ _. apply store_bind; [by still|]. intros ? w3 E _. apply modify_Ok in E as ->.
  unfold _initialize. apply store_bind; [by still|]. intros ro w4 E _. apply gets_Ok in E as [-> ->].
  cbn [self set_self self_read_only]. apply store_bind; [|by still].
  apply store_connect. intros f. apply pure_bind; [done|]. intros _. apply pure_bind; [done|]. intros d.
  apply pure_bind.
  - destruct (store_metadata d !! _); [done|]. done.
  - intros _. by apply pure_verify.
Qed.
End Frame.


(* ------------------------------------------------------------------ *)
(** ** Steps that move nothing *)

Definition same_entry (x x' : option Entry) : Prop :=
  match x, x' with
  | Some (Dir d), Some (Dir d') => same_directory_files d d'
  | _, _ => x = x'
  end.

#[global] Instance same_entry_equiv : Equivalence same_entry.
Proof.
  split.
  - intros [[]|]; cbn; reflexivity.
  - intros [[d|]|] [[d'|]|] Hs; cbn in *; try done.
  - intros [[d1|]|] [[d2|]|] [[d3|]|] H1 H2; cbn in *; try done; try congruence; by etrans.
Qed.

(** The entries are as they were, up to owners and process state. *)
Record quiet (rt rt' : Runtime) : Prop := {
  qu_anchor name : same_entry (anchor rt !! name) (anchor rt' !! name);
  qu_active : same_target (active rt) (active rt');
  qu_device : device rt' = device rt;
  qu_inode : next_inode rt' = next_inode rt
}.

#[global] Instance quiet_preorder : PreOrder quiet.
Proof.
  split.
  - intros rt. split; reflexivity.
  - intros r1 r2 r3 [] []. split; try congruence; intros; etrans; eauto.
Qed.

(** Nor is the random source used. *)
Definition hushed (rt rt' : Runtime) : Prop := quiet rt rt' /\ random (process rt') = random (process rt).

#[global] Instance hushed_preorder : PreOrder hushed.
Proof.
  split.
  - intros rt. split; reflexivity.
  - intros r1 r2 r3 [] []. split; [by etrans|congruence].
Qed.

Definition silent {A} (c : R A) (rt : Runtime) : Prop := hushed rt (c rt).2.

Lemma silent_bind {A B} (c : R A) (k : A -> R B) rt :
  silent c rt -> (forall a rt', c rt = (Ok a, rt') -> hushed rt rt' -> silent (k a) rt') -> silent (c ≫= k) rt.
Proof.
  unfold silent, mbind, ST_bind. intros Hc Hk. destruct (c rt) as [[a|e] rt'] eqn:E; [|done]. cbn in *.
  etrans; [exact Hc|]. by apply Hk.
Qed.

Lemma silent_refl {A} (c : R A) rt : (c rt).2 = rt -> silent c rt.
Proof. unfold silent. intros ->. reflexivity. Qed.

Lemma silent_syscall rt : silent syscall rt.
Proof.
  unfold silent, syscall, on_process, io. destruct (faults (process rt)) as [|[] f]; repeat (split; try reflexivity).
Qed.

Lemma silent_read name rt : silent (read_anchor name) rt.
Proof.
  unfold read_anchor. apply silent_bind; [apply silent_syscall|]. intros _ rt' _ _.
  apply silent_bind; [by apply silent_refl|]. intros a rt2 _ _. apply silent_refl. by destruct (a !! name) as [[]|].
Qed.

Lemma silent_ancestors l rt : silent (walk_ancestors l) rt.
Proof.
  revert rt. induction l as [|s l IH]; intros rt; [by apply silent_refl|]. cbn.
  apply silent_bind; [apply silent_syscall|]. intros _ rt1 _ _. apply silent_bind; [by apply silent_refl|]. intros; apply IH.
Qed.

Lemma silent_secure rt : silent _secure_anchor rt.
Proof.
  unfold _secure_anchor. apply silent_bind; [apply silent_syscall|]. intros _ rt1 _ _.
  apply silent_bind; [by apply silent_refl|]. intros above rt2 _ _. apply silent_bind; [apply silent_ancestors|]. intros _ rt3 _ _.
  apply silent_bind; [apply silent_syscall|]. intros _ rt4 _ _. apply silent_bind; [by apply silent_refl|]. intros found rt5 _ _.
  apply silent_bind.
  - destruct found; [by apply silent_refl|]. apply silent_bind; [apply silent_syscall|]. intros _ rt6 _ _.
    apply silent_bind; [by apply silent_refl|]. intros u rt7 _ _. apply silent_bind; [repeat (split; try reflexivity)|]. intros _ rt8 _ _.
    do 2 (apply silent_bind; [apply silent_syscall|]; intros _ ? _ _). by apply silent_refl.
  - intros s rt6 _ _. apply silent_bind; [by apply silent_refl|]. intros. by apply silent_refl.
Qed.

Lemma silent_own_files b names rt : silent (own_files b names) rt.
Proof.
  revert rt. induction names as [|n names IH]; intros rt; [by apply silent_refl|]. cbn.
  apply silent_bind; [apply silent_syscall|]. intros _ rt1 _ _. apply silent_bind; [by apply silent_refl|]. intros _ rt2 _ _.
  do 3 (apply silent_bind; [apply silent_syscall|]; intros _ ? _ _). apply IH.
Qed.

(** Replacing a directory by one with the same files. *)
Lemma hushed_set_directory p d d' rt :
  directory_at p rt = Some d -> same_directory_files d d' -> hushed rt (set_directory p d' rt).
Proof.
  intros Hp Hs. split; [|by destruct p]. destruct p as [name|]; cbn in *.
  - split; try reflexivity. intros n. cbn. destruct (decide (name = n)) as [<-|Hn].
    + rewrite lookup_insert_eq. destruct (anchor rt !! name) as [[]|]; simplify_eq. done.
    + rewrite lookup_insert_ne by done. reflexivity.
  - split; try reflexivity. cbn. destruct (active rt) as [[]|]; simplify_eq. done.
Qed.

Lemma quiet_process p rt : quiet rt (set_process p rt).
Proof. split; reflexivity. Qed.

Lemma hushed_process p rt : random p = random (process rt) -> hushed rt (set_process p rt).
Proof. intros Hr. split; [apply quiet_process|done]. Qed.

Lemma directory_at_process place p rt : directory_at place (set_process p rt) = directory_at place rt.
Proof. by destruct place. Qed.

(** A computation that keeps the files of a directory. *)
Lemma silent_at_place {A} p (m : M A) rt : (forall w, keeps_store m w) -> silent (at_place p (on_files m)) rt.
Proof.
  intros Hm. unfold silent, at_place. destruct (directory_at p rt) as [d|] eqn:Hd; [|reflexivity].
  unfold in_directory, on_files. cbn [files trust_file]. set (w0 := set_tapes _ _).
  pose proof (Hm w0) as [Hs Hr]. unfold keeps_store in *. destruct (m w0) as [r w'] eqn:E. cbn [fst snd] in *.
  etrans; [apply hushed_process|]; [|apply (hushed_set_directory p d)].
  - cbn. by rewrite Hr.
  - by rewrite directory_at_process.
  - split; try done. cbn. etrans; [apply set_tapes_store|exact Hs].
Qed.

Section Silent.
Context `{HA : Aead} `{HX : X509} `{HS : SqlAffinity}.

(** Authenticating a target only reads it. *)
Lemma silent_empty_target p secrets_key rt : silent (_empty_target p secrets_key) rt.
Proof.
  unfold _empty_target. apply silent_bind; [apply silent_syscall|]. intros _ rt1 _ _.
  apply silent_bind; [by apply silent_refl|]. intros [d|] rt2 _ _; [|by apply silent_refl]. cbv zeta.
  case_bool_decide; [by apply silent_refl|]. apply silent_bind; [by apply silent_refl|]. intros _ rt3 _ _.
  apply silent_bind; [apply silent_syscall|]. intros _ rt4 _ _. apply silent_bind; [by apply silent_refl|]. intros _ rt5 _ _.
  apply silent_at_place. intros w. apply store_bind; [apply store_init|]. intros u w1 E _.
  apply init_reader_Ok in E as (_&_&mk&e&file&_&_&Hself).
  apply store_catch.
  - apply store_bind; [apply store_lifecycle_counts; by rewrite Hself|]. intros counts w2 _ _.
    apply store_bind; [by still|]. by still.
  - intros e' w2 _. apply store_bind; by still.
Qed.

Lemma silent_own_candidate c i uid gid rt : silent (own_candidate c i uid gid) rt.
Proof.
  unfold own_candidate. apply silent_bind; [apply silent_syscall|]. intros _ rt1 _ _.
  apply silent_bind; [by apply silent_refl|]. intros [d|] rt2 E _; [|by apply silent_refl].
  apply gets_Ok in E as [E ->].
  apply silent_bind; [by apply silent_refl|]. intros u2 rt2 E2 _. apply lift_Ok in E2 as [_ ->].
  apply silent_bind; [apply silent_own_files|]. intros _ rt2 _ Hq2.
  apply silent_bind; [apply silent_syscall|]. intros _ rt3 _ Hq3. apply silent_bind; [apply silent_syscall|]. intros _ rt4 _ Hq4.
  apply silent_bind; [|intros _ rt5 _ _; apply silent_syscall].
  pose proof (qu_anchor _ _ (proj1 (transitivity Hq2 (transitivity Hq3 Hq4))) c) as Hc.
  unfold silent. cbn [modify snd]. unfold directory_at in E. destruct (anchor rt1 !! c) as [[d0|]|] eqn:E0; simplify_eq.
  destruct (anchor rt4 !! c) as [[d4|]|] eqn:E4; cbn in Hc; try done.
  apply (hushed_set_directory (InAnchor c) d4); [by cbn; rewrite E4|]. symmetry in Hc. destruct Hc. by split.
Qed.
End Silent.

(* ------------------------------------------------------------------ *)
(** ** Phases *)

Definition target_identity (t : option Target) : option (Z * Z) :=
  match t with Some (StateDir d) => Some (identity d) | Some (Foreign own _) => Some own | None => None end.

Section Phases.
Context (digest : pystr).
(** What is known of the files of the candidate. *)
Context (sound : World -> Prop) (sound_same : forall w w', same_store w w' -> sound w -> sound w').
(** The active entry when the import began. *)
Context (orig : option Target).

(** The journal names the candidate, the retained directory and the identity. *)
Definition journaled (c o : pystr) (i : Z * Z) (rt : Runtime) : Prop :=
  exists data hc ho, anchor rt !! pending_json = Some (File data) /\
    resume_journal digest data = Ok (mkPrepared c o (json_identity i)) /\
    c = str "candidate-" ++ hc /\ o = str "previous-" ++ ho.

(** A complete candidate. *)
Definition good_candidate (i : Z * Z) (d : Directory) : Prop :=
  identity d = i /\ ordinary d = true /\ sound (files (contents d)).

Definition candidate_at (c : pystr) (i : Z * Z) (rt : Runtime) : Prop :=
  exists d, anchor rt !! c = Some (Dir d) /\ good_candidate i d.

(** The previous directory is kept. *)
Definition retained (x : option Entry) : Prop :=
  match orig with
  | Some (StateDir d0) => exists d, x = Some (Dir d) /\ same_directory_files d0 d
  | _ => x = None
  end.

(** The candidate is complete and journaled; the active entry is as it was. *)
Record at_journaled (c o : pystr) (i : Z * Z) (rt : Runtime) : Prop := {
  aj_journal : journaled c o i rt;
  aj_candidate : candidate_at c i rt;
  aj_old : anchor rt !! o = None;
  aj_active : same_target orig (active rt);
  aj_identity : target_identity orig <> Some i
}.

(** The active directory was moved away. *)
Record at_retained (c o : pystr) (i : Z * Z) (rt : Runtime) : Prop := {
  ar_journal : journaled c o i rt;
  ar_candidate : candidate_at c i rt;
  ar_old : retained (anchor rt !! o);
  ar_orig : exists d0, orig = Some (StateDir d0);
  ar_active : active rt = None;
  ar_identity : target_identity orig <> Some i
}.

(** The candidate is the active directory. *)
Record at_published (c o : pystr) (i : Z * Z) (rt : Runtime) : Prop := {
  ap_journal : journaled c o i rt;
  ap_active : exists d, active rt = Some (StateDir d) /\ good_candidate i d;
  ap_old : retained (anchor rt !! o);
  ap_identity : target_identity orig <> Some i
}.

(** Nothing is journaled. *)
Record at_rest (rt : Runtime) : Prop := {
  re_journal : anchor rt !! pending_json = None;
  re_active : same_target orig (active rt)
}.

(** An import under way. *)
Definition under_way (c o : pystr) (i : Z * Z) (rt : Runtime) : Prop :=
  at_journaled c o i rt \/ at_retained c o i rt \/ at_published c o i rt.

Definition phase (rt : Runtime) : Prop := at_rest rt \/ exists c o i, under_way c o i rt.

(** No directory has an identity that is still to be given. *)
Definition fresh (rt : Runtime) : Prop :=
  forall i, target_identity orig = Some i -> i.1 = device rt -> i.2 < next_inode rt.

Definition Inv (rt : Runtime) : Prop := phase rt /\ fresh rt.

Lemma good_same i d d' : good_candidate i d -> same_directory_files d d' -> good_candidate i d'.
Proof. intros (Hi&Ho&Hs) [H1 H2 H3 H4 H5]. split_and!; [congruence|congruence|by eapply sound_same]. Qed.

Lemma same_entry_file x data : same_entry (Some (File data)) x -> x = Some (File data).
Proof. by destruct x as [[]|]. Qed.

Lemma same_entry_None x : same_entry None x -> x = None.
Proof. by destruct x as [[]|]. Qed.

Lemma same_entry_dir x d : same_entry (Some (Dir d)) x -> exists d', x = Some (Dir d') /\ same_directory_files d d'.
Proof. destruct x as [[d'|]|]; cbn; try done. eauto. Qed.

Lemma journaled_quiet c o i rt rt' : quiet rt rt' -> journaled c o i rt -> journaled c o i rt'.
Proof.
  intros Hq (data&hc&ho&Hd&H1&H2&H3). exists data, hc, ho. split_and!; try done. pose proof (qu_anchor _ _ Hq pending_json) as Hp.
  rewrite Hd in Hp. by apply same_entry_file.
Qed.

Lemma candidate_quiet c i rt rt' : quiet rt rt' -> candidate_at c i rt -> candidate_at c i rt'.
Proof.
  intros Hq (d&Hd&Hg). pose proof (qu_anchor _ _ Hq c) as Hc. rewrite Hd in Hc. apply same_entry_dir in Hc as (d'&Hd'&Hs).
  exists d'. split; [done|]. by eapply good_same.
Qed.

Lemma retained_quiet o rt rt' : quiet rt rt' -> retained (anchor rt !! o) -> retained (anchor rt' !! o).
Proof.
  intros Hq. unfold retained. pose proof (qu_anchor _ _ Hq o) as Ho.
  assert (anchor rt !! o = None -> anchor rt' !! o = None) as Hn by (intros E; rewrite E in Ho; by apply same_entry_None).
  destruct orig as [[d0|]|]; [|done..]. intros (d&Hd&Hs). rewrite Hd in Ho. apply same_entry_dir in Ho as (d'&Hd'&Hs').
  exists d'. split; [done|]. by etrans.
Qed.

Lemma none_quiet name rt rt' : quiet rt rt' -> anchor rt !! name = None -> anchor rt' !! name = None.
Proof. intros Hq E. pose proof (qu_anchor _ _ Hq name) as Hx. rewrite E in Hx. by apply same_entry_None. Qed.

Lemma fresh_quiet rt rt' : quiet rt rt' -> fresh rt -> fresh rt'.
Proof. intros Hq Hf. unfold fresh. by rewrite (qu_device _ _ Hq), (qu_inode _ _ Hq). Qed.

Lemma rest_quiet rt rt' : quiet rt rt' -> at_rest rt -> at_rest rt'.
Proof. intros Hq [H1 H2]. split; [by eapply none_quiet|]. etrans; [exact H2|apply Hq]. Qed.

Lemma at_journaled_quiet c o i rt rt' : quiet rt rt' -> at_journaled c o i rt -> at_journaled c o i rt'.
Proof.
  intros Hq [H1 H2 H3 H4 H5]. split; eauto using journaled_quiet, candidate_quiet, none_quiet.
  etrans; [exact H4|apply Hq].
Qed.

Lemma at_retained_quiet c o i rt rt' : quiet rt rt' -> at_retained c o i rt -> at_retained c o i rt'.
Proof.
  intros Hq [H1 H2 H3 H4 H5 H6]. split; eauto using journaled_quiet, candidate_quiet, retained_quiet.
  pose proof (qu_active _ _ Hq) as Ha. rewrite H5 in Ha. by destruct (active rt') as [[]|].
Qed.

Lemma at_published_quiet c o i rt rt' : quiet rt rt' -> at_published c o i rt -> at_published c o i rt'.
Proof.
  intros Hq [H1 (d&H2&H3) H4 H5]. split; eauto using journaled_quiet, retained_quiet.
  pose proof (qu_active _ _ Hq) as Ha. rewrite H2 in Ha. destruct (active rt') as [[d'|]|] eqn:E; cbn in Ha; try done.
  exists d'. split; [done|]. by eapply good_same.
Qed.

Lemma under_way_quiet c o i rt rt' : quiet rt rt' -> under_way c o i rt -> under_way c o i rt'.
Proof.
  intros Hq [H|[H|H]]; [left|right; left|right; right];
    eauto using at_journaled_quiet, at_retained_quiet, at_published_quiet.
Qed.

Lemma Inv_quiet rt rt' : quiet rt rt' -> Inv rt -> Inv rt'.
Proof.
  intros Hq [Hph Hf]. split; [|by eapply fresh_quiet].
  destruct Hph as [Hr|(c&o&i&Hu)]; [left; by eapply rest_quiet|right]. exists c, o, i. by eapply under_way_quiet.
Qed.

(* ------------------------------------------------------------------ *)
(** ** Triples: a failure leaves the invariant *)

Definition safe {A} (P : Runtime -> Prop) (c : R A) (Q : A -> Runtime -> Prop) : Prop :=
  forall rt, P rt -> match c rt with (Ok a, rt') => Q a rt' | (Raise _, rt') => Inv rt' end.

Lemma safe_bind {A B} P (c : R A) (k : A -> R B) Q Q' :
  safe P c Q -> (forall a, safe (Q a) (k a) Q') -> safe P (c ≫= k) Q'.
Proof.
  intros Hc Hk rt HP. specialize (Hc rt HP). unfold mbind, ST_bind. destruct (c rt) as [[a|e] rt']; [|done].
  by apply (Hk a rt').
Qed.

Lemma safe_mono {A} (P P' : Runtime -> Prop) (c : R A) (Q Q' : A -> Runtime -> Prop) :
  safe P c Q -> (forall rt, P' rt -> P rt) -> (forall a rt, Q a rt -> Q' a rt) -> safe P' c Q'.
Proof. intros Hc HP HQ rt H'. specialize (Hc rt (HP rt H')). destruct (c rt) as [[a|e] rt']; auto. Qed.

(** Preconditions that silent steps keep and that imply the invariant. *)
Record steady (P : Runtime -> Prop) : Prop := {
  steady_hushed rt rt' : hushed rt rt' -> P rt -> P rt';
  steady_Inv rt : P rt -> Inv rt
}.

Lemma safe_silent {A} P (c : R A) : steady P -> (forall rt, silent c rt) -> safe P c (fun _ => P).
Proof.
  intros Hs Hc rt HP. specialize (Hc rt). unfold silent in Hc. destruct (c rt) as [[a|e] rt']; cbn in Hc.
  - by eapply (steady_hushed P Hs).
  - eapply (steady_Inv P Hs). by eapply (steady_hushed P Hs).
Qed.

Lemma safe_syscall P : steady P -> safe P syscall (fun _ => P).
Proof. intros Hs. apply safe_silent; [done|apply silent_syscall]. Qed.

Lemma safe_lift {A} (r : res A) P : steady P -> safe P (lift r) (fun a rt => P rt /\ r = Ok a).
Proof. intros Hs rt HP. cbn. destruct r; [done|by apply (steady_Inv P Hs)]. Qed.

Lemma safe_gets {A} (f : Runtime -> A) P : safe P (gets f) (fun a rt => P rt /\ a = f rt).
Proof. by intros rt HP. Qed.

Lemma safe_ret {A} (a : A) P : safe P (mret a) (fun b rt => P rt /\ b = a).
Proof. by intros rt HP. Qed.

Lemma steady_and_fresh (P : Runtime -> Prop) :
  (forall rt rt', quiet rt rt' -> P rt -> P rt') -> (forall rt, P rt -> phase rt) -> steady (fun rt => P rt /\ fresh rt).
Proof. intros H1 H2. split; [intros rt rt' [Hq _] []; eauto using fresh_quiet|intros rt []; split; auto]. Qed.

Lemma steady_way c o i (P : Runtime -> Prop) :
  (forall rt rt', quiet rt rt' -> P rt -> P rt') -> (forall rt, P rt -> under_way c o i rt) -> steady (fun rt => P rt /\ fresh rt).
Proof. intros H1 H2. apply steady_and_fresh; [done|]. intros rt HP. right. eauto. Qed.

(** A move of a directory: before it [P] holds, after it [P']. *)
Lemma safe_rename source destination P P' :
  steady P -> steady P' ->
  (forall rt d, P rt -> directory_at source rt = Some d -> occupied_place destination rt = false ->
    P' (set_directory destination d (remove_place source rt))) ->
  safe P (_rename_absent source destination) (fun _ => P').
Proof.
  intros HP HP' Hmove. unfold _rename_absent. eapply safe_bind; [by apply safe_syscall|]. intros ?.
  eapply safe_bind; [apply safe_gets|]. intros moved. cbn beta. eapply safe_bind; [apply safe_gets|]. intros there. cbn beta.
  intros rt ((Hrt&->)&->).
  destruct (directory_at source rt) as [d|] eqn:Hd; [|by apply (steady_Inv P HP)].
  destruct (occupied_place destination rt) eqn:Ho; [by apply (steady_Inv P HP)|].
  rewrite !run_modify. specialize (Hmove rt d Hrt Hd Ho). revert Hmove. generalize (set_directory destination d (remove_place source rt)).
  intros rt' Hrt'. apply (safe_bind P' _ _ (fun _ => P') (fun _ => P')); [by apply safe_syscall| |done].
  intros ?. by apply safe_syscall.
Qed.

Lemma safe_rename_file source destination P P' :
  steady P -> steady P' ->
  (forall rt data, P rt -> anchor rt !! source = Some (File data) -> anchor rt !! destination = None ->
    P' (set_anchor (<[destination := File data]> (delete source (anchor rt))) rt)) ->
  safe P (_rename_absent_file source destination) (fun _ => P').
Proof.
  intros HP HP' Hmove. unfold _rename_absent_file. eapply safe_bind; [by apply safe_syscall|]. intros ?.
  eapply safe_bind; [apply safe_gets|]. intros entries. cbn beta. intros rt (Hrt&->).
  destruct (anchor rt !! source) as [[|data]|] eqn:Hs; [by apply (steady_Inv P HP)| |by apply (steady_Inv P HP)].
  destruct (anchor rt !! destination) as [x|] eqn:Hd; [by apply (steady_Inv P HP)|].
  rewrite !run_modify. specialize (Hmove rt data Hrt Hs Hd). revert Hmove. generalize (set_anchor (<[destination := File data]> (delete source (anchor rt))) rt).
  intros rt' Hrt'. apply (safe_bind P' _ _ (fun _ => P') (fun _ => P')); [by apply safe_syscall| |done].
  intros ?. by apply safe_syscall.
Qed.

(** Names of different kinds differ. *)
Lemma candidate_not_previous hc ho : str "candidate-" ++ hc <> str "previous-" ++ ho.
Proof. intros [=]. Qed.
Lemma candidate_not_pending hc : str "candidate-" ++ hc <> pending_json.
Proof. intros [=]. Qed.
Lemma previous_not_pending ho : str "previous-" ++ ho <> pending_json.
Proof. intros [=]. Qed.
Lemma rejected_not_pending h : str "rejected-" ++ h <> pending_json.
Proof. intros [=]. Qed.

(** Journal and candidate do not depend on other entries. *)
Lemma journaled_anchor c o i rt rt' :
  anchor rt' !! pending_json = anchor rt !! pending_json -> journaled c o i rt -> journaled c o i rt'.
Proof. intros Ha (data&hc&ho&Hd&H1&H2&H3). exists data, hc, ho. by rewrite Ha. Qed.

Lemma journaled_names c o i rt : journaled c o i rt -> c <> o /\ c <> pending_json /\ o <> pending_json.
Proof.
  intros (data&hc&ho&_&_&->&->). split_and!;
    [apply candidate_not_previous|apply candidate_not_pending|apply previous_not_pending].
Qed.

(** The active directory is moved away. *)
Lemma safe_move_old c o i :
  safe (fun rt => at_journaled c o i rt /\ fresh rt) (_rename_absent Active_ (InAnchor o))
    (fun _ rt => at_retained c o i rt /\ fresh rt).
Proof.
  apply safe_rename.
  - apply (steady_way c o i); [apply at_journaled_quiet|by left].
  - apply (steady_way c o i); [apply at_retained_quiet|by right; left].
  - intros rt d [[H1 (dc&Hdc&Hg) H3 H4 H5] Hf] Hd Ho. split; [|done]. cbn in Hd.
    destruct (active rt) as [[d1|]|] eqn:Ha; simplify_eq.
    destruct (journaled_names _ _ _ _ H1) as (Hco&_&Hop). split; try done.
    + eapply journaled_anchor; [|exact H1]. cbn. by rewrite lookup_insert_ne.
    + exists dc. split; [|done]. cbn. by rewrite lookup_insert_ne.
    + unfold retained. destruct orig as [[d0|]|]; try done. exists d. split; [|done]. cbn. by rewrite lookup_insert_eq.
    + destruct orig as [[d0|]|]; try done. by exists d0.
Qed.

(** It is put back. *)
Lemma safe_restore_old c o i :
  safe (fun rt => at_retained c o i rt /\ fresh rt) (_rename_absent (InAnchor o) Active_)
    (fun _ rt => at_journaled c o i rt /\ fresh rt).
Proof.
  apply safe_rename.
  - apply (steady_way c o i); [apply at_retained_quiet|by right; left].
  - apply (steady_way c o i); [apply at_journaled_quiet|by left].
  - intros rt d [[H1 (dc&Hdc&Hg) H3 (d0&H4) H5 H6] Hf] Hd Ho. split; [|done]. cbn in Hd.
    destruct (anchor rt !! o) as [[d1|]|] eqn:Ha; simplify_eq.
    destruct (journaled_names _ _ _ _ H1) as (Hco&_&Hop). split; try done.
    + eapply journaled_anchor; [|exact H1]. cbn. by rewrite lookup_delete_ne.
    + exists dc. split; [|done]. cbn. by rewrite lookup_delete_ne.
    + cbn. by rewrite lookup_delete_eq.
    + unfold retained in H3. rewrite H4 in H3 |- *. destruct H3 as (d1&E&Hs). simplify_eq. cbn. done.
Qed.

(** The candidate becomes the active directory. *)
Lemma safe_publish_candidate c o i :
  safe (fun rt => (at_retained c o i rt \/ (at_journaled c o i rt /\ active rt = None)) /\ fresh rt)
    (_rename_absent (InAnchor c) Active_) (fun _ rt => at_published c o i rt /\ fresh rt).
Proof.
  apply safe_rename.
  - apply (steady_way c o i).
    + intros rt rt' Hq [Hr|[Hj Ha]]; [left; by eapply at_retained_quiet|right]. split; [by eapply at_journaled_quiet|].
      pose proof (qu_active _ _ Hq) as Hx. rewrite Ha in Hx. by destruct (active rt') as [[]|].
    + intros rt [Hr|[Hj Ha]]; [by right; left|by left].
  - apply (steady_way c o i); [apply at_published_quiet|by right; right].
  - intros rt d [HP Hf] Hd Ho. split; [|done]. cbn in Hd.
    assert (journaled c o i rt /\ candidate_at c i rt /\ retained (anchor rt !! o) /\ target_identity orig <> Some i)
      as (H1&(dc&Hdc&Hg)&H3&H6).
    { destruct HP as [[H1 H2 H3 H4 H5 H6]|[[H1 H2 H3 H4 H5] Ha]]; [done|]. split_and!; try done.
      rewrite Ha in H4. unfold retained. by destruct orig as [[]|]. }
    rewrite Hdc in Hd. simplify_eq. destruct (journaled_names _ _ _ _ H1) as (Hco&Hcp&Hop). split; try done.
    + eapply journaled_anchor; [|exact H1]. cbn. by rewrite lookup_delete_ne.
    + by exists d.
    + cbn. by rewrite lookup_delete_ne.
Qed.

(** A handler that goes on from the invariant and raises again. *)
Lemma safe_catch {A} classes (c : R A) h P Q :
  safe P c Q -> (forall e, safe Inv (h e) Q) -> safe P (catch classes c h) Q.
Proof.
  intros Hc Hh rt HP. specialize (Hc rt HP). unfold catch. destruct (c rt) as [[a|e] rt']; [done|].
  destruct (classes e); [by apply Hh|done].
Qed.

Lemma steady_Inv_self : steady Inv.
Proof. split; [|done]. intros rt rt' [Hq _]. by apply Inv_quiet. Qed.

(** Drawing a name changes no entry. *)
Lemma safe_hex (P : Runtime -> Prop) :
  (forall rt rt', quiet rt rt' -> P rt -> P rt') -> safe P uuid4_hex (fun _ => P).
Proof. intros Hp rt HP. cbn. eapply Hp; [apply quiet_process|exact HP].
Qed.

Section Publish.
Context `{HA : Aead} `{HX : X509} `{HS : SqlAffinity}.

(** A rejected target is put back and the journal is set aside. *)
Lemma safe_validate_old c o i secrets_key :
  safe (fun rt => at_retained c o i rt /\ fresh rt) (validate_old o secrets_key)
    (fun _ rt => at_retained c o i rt /\ fresh rt).
Proof.
  assert (steady (fun rt => at_retained c o i rt /\ fresh rt)) as Hst
    by (apply (steady_way c o i); [apply at_retained_quiet|by right; left]).
  intros rt HP. unfold validate_old, catch.
  pose proof (safe_silent _ (_empty_target (InAnchor o) secrets_key) Hst (fun rt => silent_empty_target _ _ rt) rt HP) as Hok.
  pose proof (silent_empty_target (InAnchor o) secrets_key rt) as Hq. unfold silent in Hq.
  destruct (_empty_target (InAnchor o) secrets_key rt) as [[u|e] rt']; [done|]. cbn in Hq.
  destruct (is_Exception e); [|done].
  assert (at_retained c o i rt' /\ fresh rt') as HP' by (by eapply (steady_hushed _ Hst)).
  eapply (safe_bind (fun rt => at_retained c o i rt /\ fresh rt) _ _ (fun _ => Inv)); [|intros _ rt1 H1; exact H1|exact HP'].
  apply safe_catch; [|intros e' rt1 H1; exact H1].
  eapply safe_bind; [apply safe_restore_old|]. intros ?. cbn beta.
  eapply safe_bind.
  { apply safe_hex. intros rt1 rt2 Hq1 [? ?]. split; [by eapply at_journaled_quiet|by eapply fresh_quiet]. }
  intros hex. cbn beta. apply safe_rename_file.
  - apply (steady_way c o i); [apply at_journaled_quiet|by left].
  - apply steady_Inv_self.
  - intros rt1 data [[H1 H2 H3 H4 H5] Hf] Hs Hd. split; [|done]. left. split; [|done]. cbn.
    rewrite lookup_insert_ne by apply rejected_not_pending. by rewrite lookup_delete_eq.
Qed.

Lemma identity_spec i x : is_identity (json_identity i) x = true <-> x = i.
Proof.
  destruct i as [a b], x as [a' b']. cbn. rewrite andb_true_iff, !bool_decide_eq_true. split; [by intros [[= ->] [= ->]]|by intros [= -> ->]].
Qed.

(** The active entry is not the candidate before publication. *)
Lemma target_identity_same t t' : same_target t t' -> target_identity t' = target_identity t.
Proof. destruct t as [[d|]|], t' as [[d'|]|]; cbn; intros Hs; try done; [by destruct Hs as [-> _ _ _ _]|by simplify_eq]. Qed.

(** The candidate is ready and nothing is active. *)
Definition vacant (c o : pystr) (i : Z * Z) (rt : Runtime) : Prop :=
  at_retained c o i rt \/ (at_journaled c o i rt /\ active rt = None).

Lemma vacant_quiet c o i rt rt' : quiet rt rt' -> vacant c o i rt -> vacant c o i rt'.
Proof.
  intros Hq [Hr|[Hj Ha]]; [left; by eapply at_retained_quiet|right]. split; [by eapply at_journaled_quiet|].
  pose proof (qu_active _ _ Hq) as Hx. rewrite Ha in Hx. by destruct (active rt') as [[]|].
Qed.

Lemma vacant_way c o i rt : vacant c o i rt -> under_way c o i rt.
Proof. intros [Hr|[Hj _]]; [by right; left|by left]. Qed.

Lemma steady_vacant c o i : steady (fun rt => vacant c o i rt /\ fresh rt).
Proof. apply (steady_way c o i); [apply vacant_quiet|apply vacant_way]. Qed.

Lemma retained_occupied c o i rt : at_retained c o i rt -> occupied_place (InAnchor o) rt = true.
Proof.
  intros [_ _ Ho (d0&E) _ _]. unfold retained in Ho. rewrite E in Ho. destruct Ho as (d&Ho&_). cbn. rewrite Ho.
  by rewrite bool_decide_eq_true_2.
Qed.

Lemma journaled_vacant c o i rt : at_journaled c o i rt -> occupied_place (InAnchor o) rt = false.
Proof. intros [_ _ Ho _ _]. cbn. rewrite Ho. by rewrite bool_decide_eq_false_2 by (by intros [? ?]). Qed.

Lemma safe_retain_active c o i t :
  safe (fun rt => ((at_retained c o i rt \/ at_journaled c o i rt) /\ fresh rt) /\ t = active rt) (retain_active o t)
    (fun _ rt => vacant c o i rt /\ fresh rt).
Proof.
  intros rt [[HP Hf] ->]. unfold retain_active. rewrite run_read. destruct HP as [Hr|Hj].
  - rewrite (retained_occupied c o i rt Hr). split; [by left|done].
  - rewrite (journaled_vacant c o i rt Hj). destruct (active rt) as [[d|own leads]|] eqn:Ha.
    + pose proof (safe_move_old c o i rt (conj Hj Hf)) as Hm. destruct (_rename_absent _ _ rt) as [[u|e] rt']; [|done].
      destruct Hm as [Hm Hf']. split; [by left|done].
    + split; [right; exists c, o, i; by left|done].
    + split; [by right|done].
Qed.

Lemma safe_check_retained c o i secrets_key :
  safe (fun rt => vacant c o i rt /\ fresh rt) (check_retained o secrets_key) (fun _ rt => vacant c o i rt /\ fresh rt).
Proof.
  intros rt [HP Hf]. unfold check_retained. rewrite run_read. destruct HP as [Hr|[Hj Ha]].
  - rewrite (retained_occupied c o i rt Hr). pose proof (safe_validate_old c o i secrets_key rt (conj Hr Hf)) as Hv.
    destruct (validate_old o secrets_key rt) as [[u|e] rt']; [|done]. destruct Hv as [Hv Hf']. split; [by left|done].
  - rewrite (journaled_vacant c o i rt Hj). split; [by right|done].
Qed.

(** Publication ends with the candidate active, or in an earlier phase. *)
Lemma safe_publish c o i secrets_key uid gid :
  safe (fun rt => under_way c o i rt /\ fresh rt) (publish (mkPrepared c o (json_identity i)) secrets_key uid gid)
    (fun _ rt => at_published c o i rt /\ fresh rt).
Proof.
  assert (steady (fun rt => under_way c o i rt /\ fresh rt)) as Hst
    by (apply (steady_way c o i); [apply under_way_quiet|done]).
  unfold publish. cbn [prepared_identity old candidate]. eapply safe_bind; [by apply safe_syscall|]. intros ?. cbn beta.
  eapply safe_bind; [apply safe_gets|]. intros t. cbn beta zeta.
  assert (safe (fun rt => ((at_retained c o i rt \/ at_journaled c o i rt) /\ fresh rt) /\ t = active rt)
    (_ ← retain_active o t; _ ← check_retained o secrets_key; _ ← own_candidate c (json_identity i) uid gid;
     _ ← _rename_absent (InAnchor c) Active_; mret true) (fun _ rt => at_published c o i rt /\ fresh rt)) as Hrest.
  { eapply safe_bind; [apply safe_retain_active|]. intros ?. cbn beta.
    eapply safe_bind; [apply safe_check_retained|]. intros ?. cbn beta.
    eapply safe_bind; [apply safe_silent; [apply steady_vacant|intros; apply silent_own_candidate]|]. intros ?. cbn beta.
    eapply safe_bind; [apply safe_publish_candidate|]. intros ?. cbn beta. by intros rt HP. }
  intros rt [[[Hj|[Hr|Hp]] Hf] ->].
  - replace (match active rt with Some (StateDir d) => _ | _ => _ end) with false; [apply Hrest; auto|].
    pose proof (aj_identity _ _ _ _ Hj) as Hne. rewrite <- (target_identity_same _ _ (aj_active _ _ _ _ Hj)) in Hne.
    destruct (active rt) as [[d|own l]|]; [| |done]; symmetry; apply not_true_iff_false; rewrite identity_spec;
      intros E; apply Hne; cbn; by rewrite E.
  - pose proof (ar_active _ _ _ _ Hr) as Ha. specialize (Hrest rt). rewrite Ha in Hrest |- *. apply Hrest. auto.
  - destruct (ap_active _ _ _ _ Hp) as (d&Ha&Hg&_). rewrite Ha. rewrite (proj2 (identity_spec i (identity d))) by done. done.
Qed.
End Publish.

(* ------------------------------------------------------------------ *)
(** ** Preparation *)

Definition resting (rt : Runtime) : Prop := at_rest rt /\ fresh rt.

Lemma steady_resting : steady resting.
Proof. apply steady_and_fresh; [apply rest_quiet|by left]. Qed.

(** Entries other than the journal do not matter at rest. *)
Lemma resting_anchor a rt : a !! pending_json = anchor rt !! pending_json -> resting rt -> resting (set_anchor a rt).
Proof. intros Ha [[H1 H2] Hf]. split; [|done]. split; [cbn; by rewrite Ha|done]. Qed.

Lemma resting_insert name x rt : name <> pending_json -> resting rt -> resting (set_anchor (<[name := x]> (anchor rt)) rt).
Proof. intros Hn. apply resting_anchor. by rewrite lookup_insert_ne. Qed.

Lemma resting_delete name rt : name <> pending_json -> resting rt -> resting (set_anchor (delete name (anchor rt)) rt).
Proof. intros Hn. apply resting_anchor. by rewrite lookup_delete_ne. Qed.

Lemma safe_unlink_all c names :
  c <> pending_json -> safe resting (unlink_all (InAnchor c) names) (fun _ => resting).
Proof.
  intros Hc. induction names as [|n names IH]; cbn [unlink_all]; [by intros rt HP|].
  eapply safe_bind; [apply safe_syscall, steady_resting|]. intros ?. cbn beta.
  eapply safe_bind; [apply safe_gets|]. intros found. cbn beta. intros rt [HP ->].
  destruct (directory_at (InAnchor c) rt) as [d|]; [|by apply steady_resting].
  unfold lift at 1, mbind, ST_bind at 1. destruct (raise_if _ _) as [u|e]; [|by apply steady_resting].
  unfold modify at 1, ST_bind at 1. apply IH. by apply resting_insert.
Qed.

Lemma safe_same_directory name i : safe resting (same_directory name i) (fun _ => resting).
Proof.
  unfold same_directory. eapply safe_bind; [apply safe_syscall, steady_resting|]. intros ?. cbn beta.
  eapply safe_bind; [apply safe_gets|]. intros found. cbn beta. intros rt [HP _].
  destruct found as [d|]; [|by apply steady_resting]. cbn. destruct (raise_if _ _); [done|by apply steady_resting].
Qed.

(** An unpublished candidate can go. *)
Lemma safe_discard c i : c <> pending_json -> safe resting (_discard_unjournaled_candidate c i) (fun _ => resting).
Proof.
  intros Hc. unfold _discard_unjournaled_candidate. eapply safe_bind; [apply safe_same_directory|]. intros d. cbn beta.
  eapply safe_bind; [by apply safe_unlink_all|]. intros ?. cbn beta.
  eapply safe_bind; [apply safe_syscall, steady_resting|]. intros ?. cbn beta.
  eapply safe_bind; [apply safe_same_directory|]. intros d'. cbn beta.
  eapply safe_bind; [apply safe_syscall, steady_resting|]. intros ?. cbn beta.
  eapply safe_bind; [apply safe_lift, steady_resting|]. intros ?. cbn beta.
  intros rt [HP _]. rewrite run_modify. apply (safe_syscall resting steady_resting). by apply resting_delete.
Qed.

(** After a failure, a candidate without a journal is removed. *)
Lemma safe_abandon {A} c i e (Q : A -> Runtime -> Prop) :
  c <> pending_json ->
  safe Inv (p ← gets pending; _ ← (if (p : bool) then mret tt else _discard_unjournaled_candidate c i); lift (Raise e)) Q.
Proof.
  intros Hc rt [Hph Hf]. rewrite run_read. unfold pending. case_bool_decide as Hp; [by split|].
  assert (resting rt) as Hr.
  { split; [|done]. destruct Hph as [Hr|(c'&o'&i'&Hu)]; [done|]. exfalso. apply Hp.
    destruct Hu as [[(data&?&?&E&_) _ _ _ _]|[[(data&?&?&E&_) _ _ _ _ _]|[(data&?&?&E&_) _ _ _]]]; rewrite E; by eexists. }
  pose proof (safe_discard c i Hc rt Hr) as Hd. unfold mbind, ST_bind at 1.
  destruct (_discard_unjournaled_candidate c i rt) as [[u|e'] rt']; [|done]. by apply steady_resting.
Qed.

(** A candidate that is being built under a new identity. *)
Record drafting (c o : pystr) (i : Z * Z) (rt : Runtime) : Prop := {
  dr_resting : resting rt;
  dr_candidate : exists d, anchor rt !! c = Some (Dir d) /\ identity d = i /\ ordinary d = true;
  dr_old : anchor rt !! o = None;
  dr_identity : target_identity orig <> Some i
}.

(** It is complete. *)
Definition drafted (c o : pystr) (i : Z * Z) (rt : Runtime) : Prop := drafting c o i rt /\ candidate_at c i rt.

Lemma drafting_quiet c o i rt rt' : quiet rt rt' -> drafting c o i rt -> drafting c o i rt'.
Proof.
  intros Hq [[Hr Hf] (d&Hd&Hi&Ho) H3 H4]. split; [split; [by eapply rest_quiet|by eapply fresh_quiet]| |by eapply none_quiet|done].
  pose proof (qu_anchor _ _ Hq c) as Hc. rewrite Hd in Hc. apply same_entry_dir in Hc as (d'&Hd'&[H1 _ _ _ H5]).
  exists d'. split_and!; [done|congruence|congruence].
Qed.

Lemma steady_drafting c o i : steady (drafting c o i).
Proof.
  split; [intros rt rt' [Hq _]; by apply drafting_quiet|]. intros rt [Hr _ _ _]. by apply steady_resting.
Qed.

Lemma drafted_quiet c o i rt rt' : quiet rt rt' -> drafted c o i rt -> drafted c o i rt'.
Proof. intros Hq [H1 H2]. split; [by eapply drafting_quiet|by eapply candidate_quiet]. Qed.

Lemma steady_drafted c o i : steady (drafted c o i).
Proof.
  split; [intros rt rt' [Hq _]; by apply drafted_quiet|]. intros rt [Hd _]. by apply (steady_drafting c o i).
Qed.

(** Another entry of the anchor. *)
Lemma drafted_insert c o i name x rt :
  name <> pending_json -> name <> c -> name <> o -> drafted c o i rt -> drafted c o i (set_anchor (<[name := x]> (anchor rt)) rt).
Proof.
  intros Hp Hc Ho [[H1 (d&H2&Hd) H3 H4] (dc&H5&H6)]. split; [split|].
  - by apply resting_insert.
  - exists d. split; [|done]. cbn. by rewrite lookup_insert_ne.
  - cbn. by rewrite lookup_insert_ne.
  - done.
  - exists dc. split; [|done]. cbn. by rewrite lookup_insert_ne.
Qed.

(** Numbers that JSON can write. *)
Definition numbers (rt : Runtime) : Prop := dumpable (JInt (device rt)) /\ dumpable (JInt (next_inode rt)).

Lemma safe_make_directory c o :
  c <> pending_json -> c <> o ->
  safe (fun rt => (resting rt /\ numbers rt) /\ anchor rt !! o = None) (make_directory c)
    (fun d rt => drafting c o (identity d) rt /\ dumpable (json_identity (identity d))).
Proof.
  intros Hc Hco. unfold make_directory.
  assert (steady (fun rt => (resting rt /\ numbers rt) /\ anchor rt !! o = None)) as Hst.
  { split; [|intros rt [[? _] _]; by apply steady_resting]. intros rt rt' [Hq Hr] [[H1 H2] H3].
    split; [split|by eapply none_quiet]; [by eapply (steady_hushed _ steady_resting); [exact (conj Hq Hr)|]|].
    unfold numbers. by rewrite (qu_device _ _ Hq), (qu_inode _ _ Hq). }
  eapply safe_bind; [by apply safe_syscall|]. intros ?. cbn beta. eapply safe_bind; [apply safe_gets|]. intros entries. cbn beta.
  intros rt [HP ->]. unfold lift at 1, mbind, ST_bind at 1. case_bool_decide as Hx; cbn [raise_if].
  { apply (steady_Inv _ Hst). exact HP. }
  destruct HP as [[[[H1 H2] Hf] [Hn1 Hn2]] H3]. cbn. split.
  - split.
    + split; [|intros i Hi Hd; specialize (Hf i Hi Hd); cbn; lia]. split; [|done]. cbn. by rewrite lookup_insert_ne.
    + eexists. cbn. rewrite lookup_insert_eq. done.
    + cbn. by rewrite lookup_insert_ne.
    + intros E. specialize (Hf _ E eq_refl). cbn in Hf. lia.
  - done.
Qed.

Section Build.
Context `{HA : Aead} `{HX : X509} `{HY : Scrypt} `{HS : SqlAffinity}.
Context (snapshot : Snapshot) (secrets_key : pystr).
(** What a completed build is known to be. *)
Context (build_sound : forall c0 u c1, build_candidate snapshot secrets_key c0 = (Ok u, c1) -> sound (files c1)).

Lemma safe_build c o i :
  c <> pending_json -> c <> o ->
  safe (drafting c o i) (at_place (InAnchor c) (build_candidate snapshot secrets_key)) (fun _ => drafted c o i).
Proof.
  intros Hc Hco rt [Hr (d&Hd&Hi&Ho) H3 H4]. unfold at_place. cbn [directory_at]. rewrite Hd. unfold in_directory.
  set (c0 := mkCandidate _ _). destruct (build_candidate snapshot secrets_key c0) as [r c1] eqn:E. cbn [fst snd].
  set (rt' := set_directory _ _ _).
  assert (drafting c o i rt') as Hdr.
  { split.
    - apply (resting_insert c _ (set_process _ rt)); [done|]. destruct Hr as [[? ?] ?]. by split.
    - eexists. cbn. rewrite lookup_insert_eq. split_and!; [done|done|done].
    - cbn. by rewrite lookup_insert_ne.
    - done. }
  destruct r as [u|e]; [|by apply (steady_drafting c o i)]. split; [done|].
  eexists. cbn. rewrite lookup_insert_eq. split; [done|]. split_and!; [done|done|]. cbn. by eapply build_sound.
Qed.

(** A journal reads back as what was written. *)
Lemma journal_roundtrip hc ho i trust :
  dumpable trust -> dumpable (json_identity i) -> length hc = 32%nat -> Forall (fun c => is_lower_hex c = true) hc ->
  length ho = 32%nat -> Forall (fun c => is_lower_hex c = true) ho -> Forall (fun c => 0 <= c < 128) digest ->
  let c := str "candidate-" ++ hc in let o := str "previous-" ++ ho in
  exists data, utf8_encode (dumps_default (journal_document digest c o i trust)) = Ok data /\
    resume_journal digest data = Ok (mkPrepared c o (json_identity i)).
Proof.
  intros Ht Hi Hlc Hc Hlo Ho Hdig c o.
  assert (forall p h, Forall (fun c => 0 <= c < 128) (str p) -> Forall (fun c => is_lower_hex c = true) h ->
    scalar_text (str p ++ h)) as Hname.
  { intros p h Hp Hh. apply ascii_scalar, Forall_app. split; [done|].
    eapply Forall_impl; [exact Hh|]. intros x Hx. apply is_lower_hex_lt in Hx. lia. }
  assert (forall p h, length h = 32%nat -> Forall (fun c => is_lower_hex c = true) h -> journal_name p (str p ++ h) = true) as Hjn.
  { intros p h Hl Hh. unfold journal_name, has_prefix. rewrite take_app_length, drop_app_length, bool_decide_eq_true_2 by done.
    rewrite zlen_app. unfold zlen at 2. rewrite Hl. rewrite Z.eqb_refl. cbn [andb].
    apply forallb_forall. intros x Hx. rewrite Forall_forall in Hh. by apply Hh, list_elem_of_In. }
  unfold journal_document. set (items := [_; _; _; _; _; _]).
  assert (dumpable (JDict items)) as Hd.
  { apply dumpable_dict. split; [by apply (bool_decide_unpack _)|].
    repeat (apply Forall_cons; split); [..|constructor]; (split; [by repeat constructor|]); try done.
    - by apply ascii_scalar.
    - apply Hname; [by repeat constructor|done].
    - apply Hname; [by repeat constructor|done]. }
  exists (map to_byte (dumps_default (JDict items))). pose proof (trust_text_ok _ Hd) as Htext. split; [done|].
  unfold resume_journal. rewrite (loads_bytes_default items _ Hd Htext). cbn [mbind res_bind].
  destruct (sort_dicts_items items Hd) as (items'&Es&HI&_). rewrite Es.
  assert (dict_get (str "archive") items' = Some (JStr digest)) as ->.
  { erewrite (dict_get_sort_dicts items items'); [|by apply dumpable_dict in Hd as [? _]|done]. unfold items. by dict_simpl. }
  rewrite !HI. unfold items, item. dict_simpl. cbn [default from_option id in_names mem].
  unfold mem. rewrite bool_decide_eq_true_2 by (by apply list_elem_of_singleton).
  cbn [negb raise_if mbind res_bind fmap res_fmap sort_dicts name_text]. unfold c, o. rewrite !Hjn by done. done.
Qed.

(** Writing a new file of the anchor. *)
Lemma safe_exclusive name data P :
  steady P -> (forall x rt, P rt -> P (put_file name x rt)) ->
  safe P (exclusive_anchor_file name data) (fun _ rt => P rt /\ anchor rt !! name = Some (File data)).
Proof.
  intros Hst Hput. unfold exclusive_anchor_file. eapply safe_bind; [by apply safe_syscall|]. intros ?. cbn beta.
  eapply safe_bind; [apply safe_gets|]. intros entries. cbn beta.
  eapply safe_bind.
  { eapply safe_mono; [apply (safe_lift (raise_if (bool_decide (is_Some (entries !! name))) OSError) P Hst)| |].
    - by intros rt [HP _].
    - intros ? rt [HP _]. exact HP. }
  intros ?. cbn beta. intros rt HP. rewrite run_modify.
  pose proof (safe_syscall P Hst (put_file name [] rt) (Hput [] rt HP)) as H1. unfold mbind at 1, ST_bind at 1.
  destruct (syscall (put_file name [] rt)) as [[u|e] rt1]; [|done]. rewrite run_modify.
  pose proof (silent_syscall (put_file name data rt1)) as [Hq Hr].
  pose proof (safe_syscall P Hst (put_file name data rt1) (Hput data rt1 H1)) as H2.
  destruct (syscall (put_file name data rt1)) as [[u'|e] rt2]; [|done]. split; [done|]. cbn in Hq.
  pose proof (qu_anchor _ _ Hq name) as Hn. cbn in Hn. rewrite lookup_insert_eq in Hn. by apply same_entry_file.
Qed.

(** Publishing the journal. *)
Lemma safe_journal c o i hc ho data :
  resume_journal digest data = Ok (mkPrepared c o (json_identity i)) ->
  c = str "candidate-" ++ hc -> o = str "previous-" ++ ho ->
  utf8_encode (dumps_default (journal_document digest c o i (snap_trust snapshot))) = Ok data ->
  safe (drafted c o i) (_journal (journal_document digest c o i (snap_trust snapshot)))
    (fun _ rt => at_journaled c o i rt /\ fresh rt).
Proof.
  intros Hres Hc Ho Hdata. unfold _journal. eapply safe_bind; [apply safe_hex, drafted_quiet|]. intros hex. cbn beta zeta.
  set (tmp := str "journal-" ++ hex).
  assert (tmp <> pending_json /\ tmp <> c /\ tmp <> o) as (Hn1&Hn2&Hn3).
  { rewrite Hc, Ho. unfold tmp. split_and!; intros [=]. }
  eapply safe_bind; [apply safe_lift, steady_drafted|]. intros data'. cbn beta.
  assert (steady (fun rt => at_journaled c o i rt /\ fresh rt)) as Hst
    by (apply (steady_way c o i); [apply at_journaled_quiet|by left]).
  eapply (safe_bind _ _ _ (fun _ rt => drafted c o i rt /\ anchor rt !! tmp = Some (File data))).
  { intros rt [HP E]. rewrite Hdata in E. injection E as <-.
    apply (safe_exclusive tmp data (drafted c o i)); [apply steady_drafted| |done].
    intros x rt' H'. by apply drafted_insert. }
  intros ?. cbn beta. eapply (safe_bind _ _ _ (fun _ rt => at_journaled c o i rt /\ fresh rt)).
  { unfold replace_file. eapply safe_bind.
    - apply safe_silent; [|apply silent_syscall]. split.
      + intros rt rt' [Hq _] [Hd Ht]. split; [by eapply drafted_quiet|]. pose proof (qu_anchor _ _ Hq tmp) as Hx.
        rewrite Ht in Hx. by apply same_entry_file.
      + intros rt [Hd _]. by apply (steady_drafted c o i).
    - intros ?. cbn beta. eapply safe_bind; [apply safe_gets|]. intros entries. cbn beta. intros rt [[Hd Ht] ->]. rewrite Ht.
      cbn. destruct Hd as [[[[Hj Ha] Hf] _ Hold Hid] (dc&Hdc&Hg)]. split; [|done].
      assert (c <> pending_json /\ o <> pending_json) as [Hcp Hop]
        by (rewrite Hc, Ho; split; [apply candidate_not_pending|apply previous_not_pending]).
      split; try done.
      + exists data, hc, ho. cbn. by rewrite lookup_insert_eq.
      + exists dc. split; [|done]. cbn. by rewrite lookup_insert_ne, lookup_delete_ne.
      + cbn. by rewrite lookup_insert_ne, lookup_delete_ne. }
  intros ?. cbn beta. eapply safe_bind; [by apply safe_syscall|]. intros ?. cbn beta. by apply safe_syscall.
Qed.

Definition hex_of (r : bytes) : pystr := hex_fixed 32 (uuid4_bits (take_pad x00 16 r)).

(** The name the next preparation would retain the active directory under is free. *)
Definition new_name (rt : Runtime) : Prop :=
  anchor rt !! (str "previous-" ++ hex_of (drop 16 (random (process rt)))) = None.

Context (Htrust : dumpable (snap_trust snapshot)) (Hdigest : Forall (fun c => 0 <= c < 128) digest).

Lemma safe_journal_candidate hc ho i :
  let c := str "candidate-" ++ hc in let o := str "previous-" ++ ho in
  length hc = 32%nat -> Forall (fun c => is_lower_hex c = true) hc ->
  length ho = 32%nat -> Forall (fun c => is_lower_hex c = true) ho -> dumpable (json_identity i) ->
  safe (drafting c o i) (journal_candidate snapshot secrets_key digest c o i)
    (fun p rt => p = mkPrepared c o (json_identity i) /\ at_journaled c o i rt /\ fresh rt).
Proof.
  intros c o Hlc Hc Hlo Ho Hi. destruct (journal_roundtrip hc ho i (snap_trust snapshot)) as (data&Hdata&Hres); try done.
  unfold journal_candidate. eapply (safe_bind _ _ _ (fun _ rt => at_journaled c o i rt /\ fresh rt)).
  - apply safe_catch; [|intros e; apply safe_abandon, candidate_not_pending].
    eapply safe_bind; [apply safe_build; [apply candidate_not_pending|apply candidate_not_previous]|]. intros ?. cbn beta.
    do 2 (eapply safe_bind; [apply safe_syscall, steady_drafted|]; intros ?; cbn beta).
    by apply (safe_journal c o i hc ho data).
  - intros ? rt' HP. done.
Qed.

Lemma safe_prepare_named hc ho :
  let c := str "candidate-" ++ hc in let o := str "previous-" ++ ho in
  length hc = 32%nat -> Forall (fun c => is_lower_hex c = true) hc ->
  length ho = 32%nat -> Forall (fun c => is_lower_hex c = true) ho ->
  safe (fun rt => (resting rt /\ numbers rt) /\ anchor rt !! o = None) (prepare_named snapshot secrets_key digest c o)
    (fun p rt => exists c o i, p = mkPrepared c o (json_identity i) /\ at_journaled c o i rt /\ fresh rt).
Proof.
  intros c o Hlc Hc Hlo Ho. unfold prepare_named.
  eapply safe_bind; [apply safe_make_directory; [apply candidate_not_pending|apply candidate_not_previous]|].
  intros d rt [Hd Hi]. revert rt Hd. change (safe (drafting c o (identity d))
    (_ ← syscall; journal_candidate snapshot secrets_key digest c o (identity d))
    (fun p rt => exists c o i, p = mkPrepared c o (json_identity i) /\ at_journaled c o i rt /\ fresh rt)).
  eapply safe_bind; [apply safe_syscall, steady_drafting|]. intros ?.
  eapply safe_mono; [by apply safe_journal_candidate|done|]. intros p rt HP. by exists c, o, (identity d).
Qed.

(** Preparation ends with a journaled candidate, or leaves no journal. *)
Lemma safe_prepare :
  safe (fun rt => (resting rt /\ numbers rt) /\ new_name rt) (prepare_candidate snapshot secrets_key digest)
    (fun p rt => exists c o i, p = mkPrepared c o (json_identity i) /\ at_journaled c o i rt /\ fresh rt).
Proof.
  intros rt [[Hr Hn] Hnew]. unfold prepare_candidate.
  set (hc := hex_of (random (process rt))). set (ho := hex_of (drop 16 (random (process rt)))).
  rewrite (run_ok _ _ _ hc (set_process (set_random (drop 16 (random (process rt))) (process rt)) rt)) by done.
  rewrite (run_ok _ _ _ ho (set_process (set_random (drop 16 (drop 16 (random (process rt)))) (process rt)) rt)) by done.
  set (rt1 := set_process _ rt). set (c := str "candidate-" ++ hc). set (o := str "previous-" ++ ho).
  assert ((resting rt1 /\ numbers rt1) /\ anchor rt1 !! o = None) as Hrt1.
  { split; [split; [|done]|done]. destruct Hr as [Hr Hf].
    split; [eapply rest_quiet; [apply quiet_process|exact Hr]|eapply fresh_quiet; [apply quiet_process|exact Hf]]. }
  by apply (safe_prepare_named hc ho (length_hex_fixed _ _) (hex_fixed_lower _ _) (length_hex_fixed _ _) (hex_fixed_lower _ _) rt1).
Qed.

(** An import under way is resumed with what its journal says. *)
Lemma safe_resume c o i :
  safe (fun rt => under_way c o i rt /\ fresh rt) (data ← read_anchor pending_json; lift (resume_journal digest data))
    (fun p rt => p = mkPrepared c o (json_identity i) /\ under_way c o i rt /\ fresh rt).
Proof.
  assert (steady (fun rt => under_way c o i rt /\ fresh rt)) as Hst
    by (apply (steady_way c o i); [apply under_way_quiet|done]).
  unfold read_anchor. eapply (safe_bind _ _ _ (fun data rt => (under_way c o i rt /\ fresh rt) /\
    resume_journal digest data = Ok (mkPrepared c o (json_identity i)))).
  - eapply safe_bind; [by apply safe_syscall|]. intros ?. cbn beta. eapply safe_bind; [apply safe_gets|]. intros entries. cbn beta.
    intros rt [[Hu Hf] ->].
    assert (journaled c o i rt) as (data&hc&ho&E&Hres&_) by (destruct Hu as [[]|[[]|[]]]; done).
    rewrite E. cbn. done.
  - intros data rt [[Hu Hf] Hres]. cbn. rewrite Hres. done.
Qed.

Lemma silent_check_target rt : silent (check_target secrets_key) rt.
Proof.
  unfold check_target. apply silent_bind; [by apply silent_refl|]. intros p rt1 _ _.
  apply silent_bind; [by apply silent_refl|]. intros t rt2 _ _.
  destruct p; [by apply silent_refl|]. destruct t as [[d|own [leads|]]|]; try by apply silent_refl. apply silent_empty_target.
Qed.

(** What a run of the import starts from. *)
Definition startable (rt : Runtime) : Prop := (Inv rt /\ numbers rt) /\ new_name rt.

Lemma steady_startable : steady startable.
Proof.
  split; [|by intros rt [[? _] _]]. intros rt rt' [Hq Hr] [[HI Hn] Hnew]. split; [split; [by eapply Inv_quiet|]|].
  - unfold numbers. by rewrite (qu_device _ _ Hq), (qu_inode _ _ Hq).
  - unfold new_name. rewrite Hr. by eapply none_quiet.
Qed.

Lemma not_pending_resting rt : Inv rt -> anchor rt !! pending_json = None -> resting rt.
Proof.
  intros [Hph Hf] Hp. split; [|done]. destruct Hph as [Hr|(c&o&i&Hu)]; [done|]. exfalso.
  destruct Hu as [[(data&?&?&E&_) _ _ _ _]|[[(data&?&?&E&_) _ _ _ _ _]|[(data&?&?&E&_) _ _ _]]]; congruence.
Qed.

Lemma pending_under_way rt x : Inv rt -> anchor rt !! pending_json = Some x -> exists c o i, under_way c o i rt.
Proof. intros [[[E _]|Hu] _] Hp; [congruence|done]. Qed.

Lemma safe_find_candidate :
  safe startable (find_candidate snapshot secrets_key digest)
    (fun p rt => exists c o i, p = mkPrepared c o (json_identity i) /\ under_way c o i rt /\ fresh rt).
Proof.
  intros rt [[HI Hn] Hnew]. unfold find_candidate. rewrite run_read.
  destruct (anchor rt !! pending_json) as [x|] eqn:Hp.
  - destruct (pending_under_way rt x HI Hp) as (c&o&i&Hu). pose proof (safe_resume c o i rt (conj Hu (proj2 HI))) as Hs. revert Hs.
    destruct ((read_anchor pending_json ≫= (fun data => lift (resume_journal digest data))) rt) as [[pr|e] rt']; [|done].
    intros (->&Hu'&Hf'). by exists c, o, i.
  - pose proof (safe_prepare rt (conj (conj (not_pending_resting rt HI Hp) Hn) Hnew)) as Hs.
    destruct (prepare_candidate snapshot secrets_key digest rt) as [[pr|e] rt']; [|done].
    destruct Hs as (c&o&i&->&Hj&Hf'). exists c, o, i. split_and!; [done|by left|done].
Qed.

(** Every run of the import, from any phase, ends in a phase; when it returns, the
    candidate is the active directory. *)
Lemma safe_import archive passphrase uid gid :
  decrypt archive passphrase = Ok snapshot -> sha256_hex archive = digest ->
  safe startable (import_archive archive passphrase secrets_key uid gid)
    (fun trust rt => trust = snap_trust snapshot /\ exists c o i, at_published c o i rt /\ fresh rt).
Proof.
  intros Hdec Hdig. unfold import_archive. rewrite Hdec, Hdig.
  eapply safe_bind; [apply safe_lift, steady_startable|]. intros s. cbn beta.
  intros rt [HP E]. injection E as <-. revert rt HP.
  change (safe startable (_ ← check_target secrets_key; _ ← _secure_anchor; _ ← syscall;
    prepared ← find_candidate snapshot secrets_key digest; _ ← publish prepared secrets_key uid gid; mret (snap_trust snapshot))
    (fun trust rt => trust = snap_trust snapshot /\ exists c o i, at_published c o i rt /\ fresh rt)).
  eapply safe_bind; [apply safe_silent; [apply steady_startable|apply silent_check_target]|]. intros ?. cbn beta.
  eapply safe_bind; [apply safe_silent; [apply steady_startable|apply silent_secure]|]. intros ?. cbn beta.
  eapply safe_bind; [apply safe_syscall, steady_startable|]. intros ?. cbn beta.
  eapply safe_bind; [apply safe_find_candidate|]. intros pr. cbn beta.
  intros rt (c&o&i&->&Hu&Hf). pose proof (safe_publish c o i secrets_key uid gid rt (conj Hu Hf)) as Hp.
  unfold mbind, ST_bind. destruct (publish _ _ _ _ rt) as [[b|e] rt']; [|done]. split; [done|]. by exists c, o, i.
Qed.
End Build.
End Phases.
