(* ===== verification/RecoveryLive.v ===== *)
(** The import of an archive completes: from every phase a run in which nothing fails
    publishes the candidate, provided that the target is an authenticated empty store. *)

From S2P Require Import Prelude Utf8 PyText Uuid Json Base64 Sha256 World Store StoreSpec StoreInv StoreOpen StoreLive.
From S2P Require Import Certificates Recovery RecoveryArchive RecoveryRestore RecoverySound RecoveryRuntime RecoveryPhases.
Open Scope Z_scope.

Definition no_faults (rt : Runtime) : Prop := faults (process rt) = [].

Lemma set_process_eta rt : set_process (process rt) rt = rt.
Proof. by destruct rt. Qed.

Lemma syscall_ok rt : no_faults rt -> syscall rt = (Ok tt, rt).
Proof. intros Hf. unfold syscall, on_process. by rewrite io_ok, set_process_eta. Qed.

Lemma run_syscall {A} (k : unit -> R A) rt : no_faults rt -> (syscall ≫= k) rt = k tt rt.
Proof. intros Hf. by rewrite (run_ok _ _ _ tt rt) by (by apply syscall_ok). Qed.

(** A run that returns and meets no fault. *)
Definition ok {A} (c : R A) (rt : Runtime) : Prop := exists a rt', c rt = (Ok a, rt') /\ no_faults rt'.

Lemma ok_bind {A B} digest sound orig P (c : R A) (k : A -> R B) Q rt :
  safe digest sound orig P c Q -> P rt -> ok c rt -> (forall a rt', Q a rt' -> no_faults rt' -> ok (k a) rt') ->
  ok (c ≫= k) rt.
Proof.
  intros Hs HP (a&rt'&E&Hf) Hk. specialize (Hs rt HP). rewrite E in Hs. unfold ok. rewrite (run_ok _ _ _ _ _ E). by apply Hk.
Qed.

(* ------------------------------------------------------------------ *)
(** ** The anchor *)

(** Root owns the ancestors and the anchor, and nobody else can write them. *)
Definition secure (rt : Runtime) : Prop :=
  Forall (fun s => unsafe_stat s = false) (ancestors rt) /\
  match anchor_stat rt with Some s => unsafe_stat s = false /\ Z.land (st_mode s) 0x36 = 0 | None => True end.

Lemma walk_ok l rt : Forall (fun s => unsafe_stat s = false) l -> no_faults rt -> walk_ancestors l rt = (Ok tt, rt).
Proof.
  intros Hl Hf. induction Hl as [|s l Hs _ IH]; [done|]. cbn [walk_ancestors].
  rewrite run_syscall, (run_lift _ _ _ tt) by (done || by rewrite Hs). exact IH.
Qed.

(** A directory made by root with mode 711 passes, whatever the umask. *)
Lemma ldiff_land_0 m u k : Z.land m k = 0 -> Z.land (Z.ldiff m u) k = 0.
Proof.
  intros Hm. apply Z.bits_inj'. intros n Hn. apply (f_equal (fun z => Z.testbit z n)) in Hm.
  rewrite Z.bits_0 in *. rewrite Z.land_spec in *. rewrite Z.ldiff_spec. destruct (Z.testbit m n), (Z.testbit k n); try done.
  by rewrite andb_false_r.
Qed.

Lemma secure_ok rt : secure rt -> no_faults rt -> ok _secure_anchor rt.
Proof.
  intros [Ha Hs] Hf. unfold ok, _secure_anchor. rewrite run_syscall, run_read by done.
  rewrite (run_ok _ _ _ _ _ (walk_ok _ _ Ha Hf)), run_syscall, run_read by done.
  destruct (anchor_stat rt) as [s|].
  - destruct Hs as [Hs1 Hs2]. rewrite (run_ok (mret s) _ _ s rt) by done.
    rewrite (run_lift _ _ _ tt) by (by rewrite Hs1). rewrite Hs2. by exists tt, rt.
  - set (s := mkStat 0 (Z.ldiff 0x1c9 (umask rt))). set (rt1 := set_anchor_stat (Some s) rt).
    rewrite (run_ok _ _ _ s rt1) by (rewrite run_syscall, run_read, run_modify by done; by rewrite !run_syscall).
    assert (unsafe_stat s = false) as Hu by (unfold unsafe_stat; cbn [st_uid st_mode s]; by rewrite ldiff_land_0).
    rewrite (run_lift _ _ _ tt) by (by rewrite Hu). cbn [st_mode s]. rewrite ldiff_land_0 by done. by exists tt, rt1.
Qed.

(* ------------------------------------------------------------------ *)
(** ** Moves *)

Lemma rename_ok source destination d rt :
  no_faults rt -> directory_at source rt = Some d -> occupied_place destination rt = false ->
  ok (_rename_absent source destination) rt.
Proof.
  intros Hf Hs Hd. unfold ok, _rename_absent. rewrite run_syscall, !run_read, Hs, Hd, !run_modify by done.
  set (rt' := set_directory _ _ _). assert (no_faults rt') by (by destruct source, destination).
  rewrite run_syscall, syscall_ok by done. by exists tt, rt'.
Qed.

Lemma exclusive_ok name data rt :
  no_faults rt -> anchor rt !! name = None -> exists rt', exclusive_anchor_file name data rt = (Ok tt, rt') /\
    anchor rt' !! name = Some (File data) /\ no_faults rt'.
Proof.
  intros Hf Hn. unfold exclusive_anchor_file. rewrite run_syscall, run_read, Hn by done.
  rewrite (run_lift _ _ _ tt) by (by rewrite bool_decide_eq_false_2 by (by intros [? ?])).
  rewrite run_modify, run_syscall, run_modify, syscall_ok by done. eexists. split; [done|]. cbn.
  by rewrite lookup_insert_eq.
Qed.

(* ------------------------------------------------------------------ *)
(** ** The target *)

Section Target.
Context `{HA : Aead} {laws : AeadLaws} `{HX : X509} `{HS : SqlAffinity}.

(** An empty directory, or the files of a store that opens and holds no key. *)
Definition empty_store (secrets_key : pystr) (d : Directory) : Prop :=
  entry_names d = [] \/
  (missing (entry_names d) target_names = [] /\ ordinary d = true /\
   is_Some (kek_file (files (contents d))) /\
   exists mk e db, offline secrets_key mk e db (set_faults [] (files (contents d))) /\ wrapped_keys db = ∅).

Lemma entry_names_same d d' : same_directory_files d d' -> entry_names d' = entry_names d.
Proof. intros [_ [H1 H2 H3 H4] H5 H6 _]. unfold entry_names. by rewrite H1, H2, H3, H4, H5, H6. Qed.

Lemma offline_same secrets_key mk e db w w' :
  same_store w w' -> faults w' = [] -> offline secrets_key mk e db w -> offline secrets_key mk e db w'.
Proof.
  intros [H1 H2 H3 H4] Hf [Ho1 Ho2 Ho3 Ho4 (ct&Ho5&Ho6) Ho7 Ho8 Ho9].
  split; try done; [by rewrite H2|by rewrite H3|by rewrite H4|]. exists ct. by rewrite H1.
Qed.

Lemma empty_store_same secrets_key d d' : same_directory_files d d' -> empty_store secrets_key d -> empty_store secrets_key d'.
Proof.
  intros Hs. pose proof Hs as [_ Hst _ _ Hord]. pose proof Hst as [H1 _ _ _]. unfold empty_store.
  rewrite (entry_names_same _ _ Hs), Hord, H1. intros [He|(Hn&Ho&Hk&mk&e&db&Hoff&Hw)]; [by left|right].
  split_and!; try done. exists mk, e, db. split; [|done]. eapply offline_same; [|done|exact Hoff].
  destruct Hst. by split.
Qed.

Lemma no_rows db : wrapped_keys db = ∅ -> all_rows db = [].
Proof. intros E. unfold all_rows. by rewrite E, map_to_list_empty. Qed.

Lemma reader_no_counts secrets_key mk e db w :
  offline secrets_key mk e db w -> self w = reader mk e -> wrapped_keys db = ∅ ->
  lifecycle_counts [] w = (Ok [], set_conn db false w).
Proof.
  intros Ho Hs Hw. unfold lifecycle_counts. rewrite (run_lift _ _ _ []) by done.
  apply connect_read; [apply Ho|apply Ho|].
  rewrite (run_ok _ _ _ tt (set_conn db false w)) by (apply (verify_reader secrets_key mk e db); [by apply offline_conn|done|done]).
  rewrite !run_read. cbn [conn set_conn self]. by rewrite no_rows.
Qed.

(** An empty target is authenticated. *)
Lemma empty_target_ok p secrets_key d rt :
  directory_at p rt = Some d -> empty_store secrets_key d -> no_faults rt ->
  exists rt', _empty_target p secrets_key rt = (Ok tt, rt') /\ no_faults rt' /\
    ancestors rt' = ancestors rt /\ anchor_stat rt' = anchor_stat rt.
Proof.
  intros Hd He Hf. unfold _empty_target. rewrite run_syscall, run_read, Hd by done. cbv zeta.
  destruct He as [He|(Hn&Hord&(kf&Hk)&mk&e&db&Hoff&Hw)].
  { rewrite bool_decide_eq_true_2 by done. by exists rt. }
  assert (str "kek.json" ∈ entry_names d) as Hin1.
  { unfold entry_names. rewrite Hk, bool_decide_eq_true_2 by done. by left. }
  assert (str "store.db" ∈ entry_names d) as Hin2.
  { unfold entry_names. rewrite (of_database _ _ _ _ _ Hoff : database (files (contents d)) = _).
    rewrite (bool_decide_eq_true_2 (is_Some (Some db))) by done. rewrite !elem_of_app. right. right. right. left. by left. }
  rewrite bool_decide_eq_false_2 by (intros E; rewrite E in Hin1; by apply not_elem_of_nil in Hin1).
  rewrite (run_lift _ _ _ tt).
  2: { unfold mem. by rewrite Hn, !bool_decide_eq_true_2. }
  rewrite run_syscall, (run_lift _ _ _ tt) by (done || by rewrite Hord).
  unfold at_place. rewrite Hd. unfold in_directory. set (c0 := mkCandidate _ _). set (w0 := set_tapes _ _) in c0.
  assert (offline secrets_key mk e db w0) as Hoff0 by (eapply offline_same; [|exact Hf|exact Hoff]; by split).
  erewrite on_files_ok.
  2: { rewrite (run_ok _ _ _ _ _ (init_offline _ _ _ _ _ Hoff0)). apply catch_ok.
       rewrite (run_ok _ _ _ _ _ (reader_no_counts secrets_key mk e db _ (offline_conn _ _ _ _ false _
         (offline_self _ _ _ _ (reader mk e) _ Hoff0)) eq_refl Hw)).
       rewrite (run_lift _ _ _ tt) by done. reflexivity. }
  eexists. split; [reflexivity|]. by destruct p.
Qed.
End Target.

(* ------------------------------------------------------------------ *)
(** ** Publication *)

Lemma own_files_ok names rt : no_faults rt -> own_files true names rt = (Ok tt, rt).
Proof.
  intros Hf. induction names as [|n names IH]; [done|]. cbn [own_files].
  rewrite run_syscall, (run_lift _ _ _ tt), !run_syscall by done. exact IH.
Qed.

Lemma own_candidate_ok c i d uid gid rt :
  no_faults rt -> anchor rt !! c = Some (Dir d) -> identity d = i -> ordinary d = true ->
  ok (own_candidate c (json_identity i) uid gid) rt.
Proof.
  intros Hf Hd <- Ho. unfold ok, own_candidate. rewrite run_syscall, run_read by done. cbn [directory_at]. rewrite Hd.
  rewrite (run_lift _ _ _ tt) by (by rewrite (proj2 (identity_spec _ _))).
  rewrite Ho, (run_ok _ _ _ _ _ (own_files_ok _ _ Hf)), !run_syscall, run_modify by done.
  set (rt' := set_directory _ _ _). rewrite syscall_ok by done. by exists tt, rt'.
Qed.

Section Live.
Context `{HA : Aead} {laws : AeadLaws} `{HX : X509} `{HY : Scrypt} `{HS : SqlAffinity}.
Context (digest : pystr).
Context (sound : World -> Prop) (sound_same : forall w w', same_store w w' -> sound w -> sound w').
Context (orig : option Target) (secrets_key : pystr).
(** The target is an authenticated empty store. *)
Context (Hempty : match orig with Some (StateDir d) => empty_store secrets_key d | Some (Foreign _ _) => False | None => True end).

Abbreviation at_journaled := (at_journaled digest sound orig).
Abbreviation at_retained := (at_retained digest sound orig).
Abbreviation vacant := (vacant digest sound orig).
Abbreviation under_way := (under_way digest sound orig).
Abbreviation fresh := (fresh orig).

Lemma retain_ok c o i rt :
  at_retained c o i rt \/ at_journaled c o i rt -> no_faults rt -> ok (retain_active o (active rt)) rt.
Proof.
  intros HP Hf. unfold ok, retain_active. rewrite run_read. destruct HP as [Hr|Hj].
  - rewrite (retained_occupied _ _ _ _ _ _ _ Hr). by exists tt, rt.
  - rewrite (journaled_vacant _ _ _ _ _ _ _ Hj). pose proof (aj_active _ _ _ _ _ _ _ Hj) as Ha.
    destruct (active rt) as [[d|own l]|] eqn:E.
    + apply (rename_ok _ _ d); [done|cbn; by rewrite E|]. exact (journaled_vacant _ _ _ _ _ _ _ Hj).
    + destruct orig as [[]|]; cbn in Ha; done.
    + by exists tt, rt.
Qed.

Lemma check_retained_ok c o i rt : vacant c o i rt -> no_faults rt -> ok (check_retained o secrets_key) rt.
Proof.
  intros HP Hf. unfold ok, check_retained. rewrite run_read. destruct HP as [Hr|[Hj _]].
  - rewrite (retained_occupied _ _ _ _ _ _ _ Hr). destruct (ar_orig _ _ _ _ _ _ _ Hr) as (d0&E).
    pose proof (ar_old _ _ _ _ _ _ _ Hr) as Ho. unfold retained in Ho. rewrite E in Ho, Hempty. destruct Ho as (d&Ho&Hs).
    destruct (empty_target_ok (InAnchor o) secrets_key d rt) as (rt'&Et&Hf'&_); [cbn; by rewrite Ho|by eapply empty_store_same|done|].
    exists tt, rt'. split; [|done]. unfold validate_old. by apply catch_ok.
  - rewrite (journaled_vacant _ _ _ _ _ _ _ Hj). by exists tt, rt.
Qed.

Lemma vacant_parts c o i rt :
  vacant c o i rt -> active rt = None /\ exists d, anchor rt !! c = Some (Dir d) /\ identity d = i /\ ordinary d = true.
Proof.
  intros [[_ (d&Hd&Hi&Ho&_) _ _ Ha _]|[[_ (d&Hd&Hi&Ho&_) _ _ _] Ha]]; (split; [done|]; by exists d).
Qed.

Lemma publish_ok c o i uid gid rt :
  under_way c o i rt -> fresh rt -> no_faults rt ->
  ok (publish (mkPrepared c o (json_identity i)) secrets_key uid gid) rt.
Proof.
  intros Hu Hfr Hf. unfold publish. cbn [prepared_identity old candidate]. unfold ok. rewrite run_syscall, run_read by done. cbv zeta.
  fold (ok (if match active rt with Some (StateDir d) => is_identity (json_identity i) (identity d)
    | Some (Foreign own _) => is_identity (json_identity i) own | None => false end then mret false else
    _ ← retain_active o (active rt); _ ← check_retained o secrets_key; _ ← own_candidate c (json_identity i) uid gid;
    _ ← _rename_absent (InAnchor c) Active_; mret true) rt).
  destruct (match active rt with Some (StateDir d) => _ | _ => _ end) eqn:Epub; [by exists false, rt|].
  assert (at_retained c o i rt \/ at_journaled c o i rt) as HP.
  { destruct Hu as [Hj|[Hr|Hp]]; [by right|by left|]. exfalso.
    destruct (ap_active _ _ _ _ _ _ _ Hp) as (d&Ha&Hg&_). rewrite Ha in Epub. apply not_true_iff_false in Epub.
    by apply Epub, identity_spec. }
  eapply (ok_bind digest sound orig); [by apply safe_retain_active|split; [exact (conj HP Hfr)|reflexivity]|by eapply retain_ok|].
  intros ? rt1 [H1 Hfr1] Hf1. eapply (ok_bind digest sound orig); [by apply safe_check_retained|exact (conj H1 Hfr1)|by eapply check_retained_ok|].
  intros ? rt2 [H2 Hfr2] Hf2.
  eapply (ok_bind digest sound orig);
    [apply (safe_silent digest sound orig (fun rt => vacant c o i rt /\ fresh rt));
      [by apply steady_vacant|intros; apply silent_own_candidate]|exact (conj H2 Hfr2)| |].
  { destruct (vacant_parts _ _ _ _ H2) as (_&d&Hd&Hi&Ho). by eapply own_candidate_ok. }
  intros ? rt3 [H3 Hfr3] Hf3. destruct (vacant_parts _ _ _ _ H3) as (Ha&d&Hd&_).
  eapply (ok_bind digest sound orig); [by apply safe_publish_candidate|exact (conj H3 Hfr3)| |].
  { apply (rename_ok _ _ d); [done|cbn; by rewrite Hd|]. cbn. by rewrite Ha, bool_decide_eq_false_2 by (by intros [? ?]). }
  intros ? rt4 _ Hf4. by exists true, rt4.
Qed.

(* ------------------------------------------------------------------ *)
(** ** Preparation *)

Context (snapshot : Snapshot).
(** The candidate can be built in an empty directory; it draws one nonce. *)
Context (Hbuild : forall c, empty_directory c -> exists c', build_candidate snapshot secrets_key c = (Ok tt, c') /\
  faults (files c') = [] /\ random (files c') = drop 12 (random (files c))).
Context (Htrust : dumpable (snap_trust snapshot)) (Hdigest : Forall (fun c => 0 <= c < 128) digest).

(** The names that the preparation is going to draw are not taken. *)
Definition free_names (rt : Runtime) : Prop :=
  let r := random (process rt) in
  anchor rt !! (str "candidate-" ++ hex_of r) = None /\
  anchor rt !! (str "previous-" ++ hex_of (drop 16 r)) = None /\
  anchor rt !! (str "journal-" ++ hex_of (drop 44 r)) = None.

Lemma journal_ok document data rt :
  utf8_encode (dumps_default document) = Ok data -> no_faults rt ->
  anchor rt !! (str "journal-" ++ hex_of (random (process rt))) = None -> ok (_journal document) rt.
Proof.
  intros Hd Hf Hn. unfold ok, _journal. set (h := hex_of (random (process rt))) in *.
  set (rt1 := set_process (set_random (drop 16 (random (process rt))) (process rt)) rt).
  rewrite (run_ok _ _ _ h rt1) by done. cbv zeta. rewrite (run_lift _ _ _ data) by done.
  destruct (exclusive_ok (str "journal-" ++ h) data rt1) as (rt2&E2&Hn2&Hf2); [done|done|].
  rewrite (run_ok _ _ _ _ _ E2). unfold replace_file.
  set (rt3 := set_anchor (<[pending_json := File data]> (delete (str "journal-" ++ h) (anchor rt2))) rt2).
  rewrite (run_ok _ _ _ tt rt3) by (by rewrite run_syscall, run_read, Hn2 by done).
  rewrite run_syscall, syscall_ok by done. by exists tt, rt3.
Qed.

Lemma prepare_ok rt :
  free_names rt -> numbers rt -> no_faults rt -> ok (prepare_candidate snapshot secrets_key digest) rt.
Proof.
  intros (Hn1&Hn2&Hn3) [Hd1 Hd2] Hf. unfold ok, prepare_candidate. set (r := random (process rt)) in *.
  set (hc := hex_of r) in *. set (ho := hex_of (drop 16 r)) in *.
  rewrite (run_ok _ _ _ hc (set_process (set_random (drop 16 r) (process rt)) rt)) by done.
  set (rt1 := set_process (set_random (drop 32 r) (process rt)) rt).
  rewrite (run_ok _ _ _ ho rt1).
  2: { unfold uuid4_hex, on_process, uuid4, mbind, ST_bind, urandom, mret, ST_ret. cbn [process set_process random set_random].
       by rewrite drop_drop. }
  set (c := str "candidate-" ++ hc) in *. set (o := str "previous-" ++ ho).
  set (d := mkDirectory (device rt, next_inode rt) empty_contents [] true (0, 0)).
  set (rt2 := mkRuntime (ancestors rt1) (anchor_stat rt1) (umask rt1) (<[c := Dir d]> (anchor rt1)) (active rt1)
    (config_file rt1) (device rt1) (next_inode rt1 + 1) (process rt1)).
  unfold prepare_named. rewrite (run_ok _ _ _ d rt2).
  2: { unfold make_directory. rewrite run_syscall, run_read by done. change (anchor rt1) with (anchor rt). rewrite Hn1.
       rewrite (run_lift _ _ _ tt) by (by rewrite bool_decide_eq_false_2 by (by intros [? ?])). done. }
  rewrite run_syscall by done. unfold journal_candidate.
  destruct (Hbuild (mkCandidate (set_tapes (process rt2) (files empty_contents)) None)) as (c1&Eb&Hfc&Hrc);
    [by split|]. cbn in Hrc.
  destruct (journal_roundtrip digest hc ho (identity d) (snap_trust snapshot)) as (data&Hdata&_); try done;
    try apply length_hex_fixed; try apply hex_fixed_lower.
  set (rt3 := set_directory (InAnchor c) (mkDirectory (identity d) c1 [] true (0, 0)) (set_process (set_tapes (files c1) (process rt2)) rt2)).
  assert (at_place (InAnchor c) (build_candidate snapshot secrets_key) rt2 = (Ok tt, rt3)) as Eplace.
  { unfold at_place. cbn [directory_at]. change (anchor rt2) with (<[c := Dir d]> (anchor rt1)). rewrite lookup_insert_eq. unfold in_directory.
    cbn [contents d trust_file empty_contents]. rewrite Eb. done. }
  destruct (journal_ok (journal_document digest c o (identity d) (snap_trust snapshot)) data rt3) as ([]&rt4&Ej&Hf4); [done|done| |].
  { cbn [process set_directory set_anchor set_process set_tapes rt3 anchor random]. rewrite Hrc, drop_drop. change (32 + 12)%nat with 44%nat.
    rewrite lookup_insert_ne by (intros [=]). cbn [anchor rt2 rt1 set_process]. by rewrite lookup_insert_ne by (intros [=]). }
  eexists _, rt4. split; [|done]. erewrite run_ok; [reflexivity|]. apply catch_ok.
  rewrite (run_ok _ _ _ _ _ Eplace), !run_syscall by done. exact Ej.
Qed.

(* ------------------------------------------------------------------ *)
(** ** The import *)

Context (build_sound : forall c0 u c1, build_candidate snapshot secrets_key c0 = (Ok u, c1) -> sound (files c1)).

Lemma check_target_ok rt :
  Inv digest sound orig rt -> no_faults rt ->
  exists rt', check_target secrets_key rt = (Ok tt, rt') /\ no_faults rt' /\
    ancestors rt' = ancestors rt /\ anchor_stat rt' = anchor_stat rt.
Proof.
  intros HI Hf. unfold check_target. rewrite !run_read. unfold pending.
  destruct (anchor rt !! pending_json) as [x|] eqn:Hp; [rewrite bool_decide_eq_true_2 by done; by exists rt|].
  rewrite bool_decide_eq_false_2 by (by intros [? ?]).
  destruct (not_pending_resting _ _ _ _ HI Hp) as [[_ Ha] _].
  destruct orig as [[d0|]|], (active rt) as [[d|]|] eqn:E; cbn in Ha; try done; [|by exists rt].
  apply (empty_target_ok Active_ secrets_key d); [cbn; by rewrite E|by eapply empty_store_same|done].
Qed.

Lemma find_candidate_ok rt :
  Inv digest sound orig rt -> numbers rt -> free_names rt -> no_faults rt -> ok (find_candidate snapshot secrets_key digest) rt.
Proof.
  intros HI Hn Hfree Hf. unfold ok, find_candidate. rewrite run_read.
  destruct (anchor rt !! pending_json) as [x|] eqn:Hp; [|by apply prepare_ok].
  destruct (pending_under_way _ _ _ _ _ HI Hp) as (c&o&i&Hu).
  assert (journaled digest c o i rt) as (data&?&?&E&Hres&_) by (destruct Hu as [[]|[[]|[]]]; done).
  unfold read_anchor. rewrite (run_ok _ _ _ data rt) by (by rewrite run_syscall, run_read, E).
  exists (mkPrepared c o (json_identity i)), rt. by rewrite Hres.
Qed.

Lemma free_hushed rt rt' : hushed rt rt' -> free_names rt -> free_names rt'.
Proof. intros [Hq Hr] (H1&H2&H3). unfold free_names. rewrite Hr. cbv zeta. split_and!; by eapply none_quiet. Qed.

Lemma numbers_hushed rt rt' : hushed rt rt' -> numbers rt -> numbers rt'.
Proof. intros [Hq _]. unfold numbers. by rewrite (qu_device _ _ Hq), (qu_inode _ _ Hq). Qed.

(** An import that meets no fault publishes the candidate. *)
Lemma import_ok archive passphrase uid gid rt :
  decrypt archive passphrase = Ok snapshot -> sha256_hex archive = digest ->
  Inv digest sound orig rt -> numbers rt -> free_names rt -> secure rt -> no_faults rt ->
  ok (import_archive archive passphrase secrets_key uid gid) rt.
Proof.
  intros Hdec Hdig HI Hn Hfree [Hsec1 Hsec2] Hf. unfold ok, import_archive. rewrite (run_lift _ _ _ snapshot) by done. rewrite Hdig.
  destruct (check_target_ok rt HI Hf) as (rt1&E1&Hf1&Ha1&Hs1). rewrite (run_ok _ _ _ _ _ E1).
  pose proof (silent_check_target secrets_key rt) as Hq1. unfold silent in Hq1. rewrite E1 in Hq1. cbn in Hq1.
  destruct (secure_ok rt1) as ([]&rt2&E2&Hf2); [unfold secure; by rewrite Ha1, Hs1|done|]. rewrite (run_ok _ _ _ _ _ E2).
  pose proof (silent_secure rt1) as Hq2. unfold silent in Hq2. rewrite E2 in Hq2. cbn in Hq2.
  assert (hushed rt rt2) as Hq by (by etrans). rewrite run_syscall by done.
  assert (Inv digest sound orig rt2) as HI2 by (eapply Inv_quiet; [done|apply Hq|done]).
  assert (numbers rt2) as Hn2 by (by eapply numbers_hushed). assert (free_names rt2) as Hfree2 by (by eapply free_hushed).
  destruct (find_candidate_ok rt2 HI2 Hn2 Hfree2 Hf2) as (pr&rt3&E3&Hf3).
  rewrite (run_ok _ _ _ _ _ E3).
  pose proof (safe_find_candidate digest sound sound_same orig snapshot secrets_key build_sound Htrust Hdigest rt2) as Hs.
  rewrite E3 in Hs. destruct Hs as (c&o&i&->&Hu&Hfr); [split; [done|apply Hfree2]|].
  destruct (publish_ok c o i uid gid rt3 Hu Hfr Hf3) as (b&rt4&E4&Hf4). rewrite (run_ok _ _ _ _ _ E4).
  by exists (snap_trust snapshot), rt4.
Qed.
End Live.
