(* ===== verification/RecoveryGate.v ===== *)
(** The startup gate of a recovery: while a journal is pending the service starts only on
    the directory and with the configuration that were approved, and approval requires that
    the configuration admits no client beyond the imported public trust. *)

From S2P Require Import Prelude Utf8 PyText Uuid Json Base64 Sha256 World Store StoreSpec Certificates Recovery RecoveryArchive.
From S2P Require Import RecoveryRestore RecoverySound RecoveryRuntime RecoveryPhases RecoveryLive.
Open Scope Z_scope.

(* ------------------------------------------------------------------ *)
(** ** Computations that change no entry *)

(** Faults are used up in order, and the clock moves on. *)
Definition passes (p p' : World) : Prop := faults p' `suffix_of` faults p /\ clock p' `suffix_of` clock p.

#[global] Instance passes_preorder : PreOrder passes.
Proof. split; [by intros p|]. intros p1 p2 p3 [] []. by split; etrans. Qed.

(** At most the anchor itself was created where there was none. *)
Definition inert (rt rt' : Runtime) : Prop :=
  exists s p, rt' = set_anchor_stat s (set_process p rt) /\ (is_Some (anchor_stat rt) -> s = anchor_stat rt) /\ passes (process rt) p.

#[global] Instance inert_preorder : PreOrder inert.
Proof.
  split.
  - intros rt. exists (anchor_stat rt), (process rt). split; [by destruct rt|done].
  - intros r1 r2 r3 (s1&p1&->&S1&H1) (s2&p2&->&S2&H2). exists s2, p2. split_and!; [done| |by etrans].
    intros Hs. rewrite S2; [by apply S1|]. cbn. by rewrite S1.
Qed.

Lemma inert_anchor rt rt' : inert rt rt' -> anchor rt' = anchor rt.
Proof. by intros (s&p&->&_). Qed.

Lemma inert_active rt rt' : inert rt rt' -> active rt' = active rt.
Proof. by intros (s&p&->&_). Qed.

Lemma inert_config rt rt' : inert rt rt' -> config_file rt' = config_file rt.
Proof. by intros (s&p&->&_). Qed.

Lemma inert_faults rt rt' : inert rt rt' -> faults (process rt') `suffix_of` faults (process rt).
Proof. by intros (s&p&->&_&?&_). Qed.

Lemma inert_set_anchor a rt rt' : inert rt rt' -> inert (set_anchor a rt) (set_anchor a rt').
Proof. intros (s&p&->&Hs&Hp). by exists s, p. Qed.

Definition inertly {A} (c : R A) : Prop := forall rt, inert rt (c rt).2.

Lemma inertly_run {A} (c : R A) rt r rt' : inertly c -> c rt = (r, rt') -> inert rt rt'.
Proof. intros Hc E. specialize (Hc rt). by rewrite E in Hc. Qed.

Lemma inertly_bind {A B} (c : R A) (k : A -> R B) : inertly c -> (forall a, inertly (k a)) -> inertly (c ≫= k).
Proof.
  intros Hc Hk rt. unfold mbind, ST_bind. destruct (c rt) as [[a|e] rt'] eqn:E; pose proof (inertly_run _ _ _ _ Hc E); [|done].
  etrans; [done|]. apply Hk.
Qed.

Lemma inertly_lift {A} (r : res A) : inertly (lift r).
Proof. intros rt. reflexivity. Qed.

Lemma inertly_ret {A} (a : A) : inertly (mret a).
Proof. intros rt. reflexivity. Qed.

Lemma inertly_gets {A} (f : Runtime -> A) : inertly (gets f).
Proof. intros rt. reflexivity. Qed.

Lemma inertly_process {A} (m : M A) : (forall w, passes w (m w).2) -> inertly (on_process m).
Proof.
  intros Hm rt. specialize (Hm (process rt)). unfold on_process. destruct (m (process rt)) as [r p]. exists (anchor_stat rt), p.
  split; [by destruct rt|done].
Qed.

Lemma inertly_syscall : inertly syscall.
Proof.
  apply inertly_process. intros w. unfold io, passes. destruct (faults w) as [|[] f] eqn:E; cbn; rewrite ?E; split; try done; by eexists [_].
Qed.

Lemma inertly_hex : inertly uuid4_hex.
Proof. apply inertly_bind; [apply inertly_process; done|intros; apply inertly_ret]. Qed.

Lemma inertly_now : inertly (on_process utcnow).
Proof. apply inertly_process. intros w. split; [done|]. cbn. destruct (clock w); [done|by eexists [_]]. Qed.

Lemma inertly_catch {A} classes (c : R A) h : inertly c -> (forall e, inertly (h e)) -> inertly (catch classes c h).
Proof.
  intros Hc Hh rt. unfold catch. destruct (c rt) as [[a|e] rt'] eqn:E; pose proof (inertly_run _ _ _ _ Hc E); [done|].
  destruct (classes e); [|done]. etrans; [done|]. apply Hh.
Qed.

Create HintDb inert.
#[export] Hint Resolve inertly_lift inertly_ret inertly_gets inertly_syscall inertly_hex inertly_now : inert.

Ltac inert_tac :=
  repeat first
    [ lazymatch goal with
      | |- inertly (mbind _ _) => apply inertly_bind; [|intros ?]
      | |- inertly (catch _ _ _) => apply inertly_catch; [|intros ?]
      end
    | solve [auto with inert]
    | match goal with |- inertly (match ?x with _ => _ end) => destruct x end ].

Lemma inertly_ancestors l : inertly (walk_ancestors l).
Proof. induction l; cbn [walk_ancestors]; inert_tac; done. Qed.
#[export] Hint Resolve inertly_ancestors : inert.

(** The anchor is only created where there is none. *)
Definition creates (rt rt' : Runtime) : Prop := exists s p, rt' = set_anchor_stat s (set_process p rt) /\ passes (process rt) p.

Lemma inert_creates rt rt' : inert rt rt' -> creates rt rt'.
Proof. intros (s&p&->&_&Hp). by exists s, p. Qed.
Lemma creates_inert rt rt' : anchor_stat rt = None -> creates rt rt' -> inert rt rt'.
Proof. intros Hn (s&p&->&Hp). exists s, p. split_and!; [done| |done]. rewrite Hn. by intros [? [=]]. Qed.
Lemma creates_trans rt1 rt2 rt3 : creates rt1 rt2 -> creates rt2 rt3 -> creates rt1 rt3.
Proof. intros (s1&p1&->&H1) (s2&p2&->&H2). exists s2, p2. split; [done|by etrans]. Qed.

Lemma creates_bind {A B} (c : R A) (k : A -> R B) rt : creates rt (c rt).2 -> (forall a, inertly (k a)) -> creates rt ((c ≫= k) rt).2.
Proof.
  intros Hc Hk. unfold mbind, ST_bind. destruct (c rt) as [[a|e] rt'] eqn:E; [|done]. eapply creates_trans; [exact Hc|]. by apply inert_creates, Hk.
Qed.
Lemma inert_then {A B} (c : R A) (k : A -> R B) rt : inertly c -> (forall a rt', creates rt' (k a rt').2) -> creates rt ((c ≫= k) rt).2.
Proof.
  intros Hc Hk. unfold mbind, ST_bind. destruct (c rt) as [[a|e] rt'] eqn:E; apply (inertly_run _ _ _ _ Hc), inert_creates in E; [|done].
  by eapply creates_trans, Hk.
Qed.

Lemma inertly_secure : inertly _secure_anchor.
Proof.
  unfold _secure_anchor. do 4 (apply inertly_bind; [solve [auto with inert]|intros ?]). intros rt. rewrite run_read.
  destruct (anchor_stat rt) as [s|] eqn:Hn.
  - match goal with |- inert _ (?c _).2 => enough (inertly c) as Hc by apply Hc end. inert_tac.
  - apply creates_inert; [done|]. apply creates_bind; [|intros s; inert_tac]. apply inert_then; [apply inertly_syscall|]. intros _ rt1.
    apply inert_then; [apply inertly_gets|]. intros u rt2. apply creates_bind; [|intros ?; inert_tac]. exists (Some (mkStat 0 (Z.ldiff 0x1c9 u))), (process rt2).
    by destruct rt2.
Qed.

Lemma inertly_read name : inertly (read_anchor name).
Proof. unfold read_anchor. inert_tac. Qed.

Lemma inertly_stat_active : inertly stat_active.
Proof. unfold stat_active. inert_tac. Qed.

Lemma inertly_read_config : inertly read_config.
Proof. unfold read_config. inert_tac. Qed.
#[export] Hint Resolve inertly_secure inertly_read inertly_stat_active inertly_read_config : inert.

Lemma inertly_startup : inertly assert_startup_allowed.
Proof. unfold assert_startup_allowed. inert_tac. Qed.

Lemma inertly_usable `{HX : X509} certificates : inertly (usable_fingerprints certificates).
Proof. induction certificates; cbn [usable_fingerprints]; inert_tac; done. Qed.
#[export] Hint Resolve inertly_startup inertly_usable : inert.

(* ------------------------------------------------------------------ *)
(** ** The gate *)

(** What [os.stat] of the active entry gives. *)
Definition state_identity (t : option Target) : option (Z * Z) :=
  match t with Some (StateDir d) => Some (identity d) | Some (Foreign _ leads_to) => leads_to | None => None end.

(** An approval of a configuration for a directory. *)
Definition approves (approval : json) (config : bytes) (i : Z * Z) : bool :=
  match subscript approval (str "config_sha256"), subscript approval (str "identity") with
  | Ok c, Ok v => in_names c [sha256_hex config] && is_identity v i
  | _, _ => false
  end.

(** The recorded approval covers the active directory and the installed configuration. *)
Definition approved (rt : Runtime) : bool :=
  match anchor rt !! approved_json, state_identity (active rt), config_file rt with
  | Some (File data), Some i, Some config =>
    match loads_bytes data with Ok approval => approves approval config i | Raise _ => false end
  | _, _, _ => false
  end.

Lemma read_anchor_Ok name rt data rt' : read_anchor name rt = (Ok data, rt') -> anchor rt !! name = Some (File data).
Proof.
  unfold read_anchor. intros E. run_inv E as u rt1 E1. apply (inertly_run _ _ _ _ inertly_syscall), inert_anchor in E1.
  run_inv E as a rt2 E2. apply gets_Ok in E2 as [-> ->]. rewrite E1 in E.
  destruct (anchor rt !! name) as [[]|]; try done. by injection E as <- _.
Qed.

Lemma stat_active_Ok rt i rt' : stat_active rt = (Ok i, rt') -> state_identity (active rt) = Some i.
Proof.
  unfold stat_active. intros E. run_inv E as u rt1 E1. apply (inertly_run _ _ _ _ inertly_syscall), inert_active in E1.
  run_inv E as t rt2 E2. apply gets_Ok in E2 as [-> ->]. rewrite E1 in E.
  destruct (active rt) as [[d|own [j|]]|]; try done; by injection E as <- _.
Qed.

Lemma read_config_Ok rt b rt' : read_config rt = (Ok b, rt') -> config_file rt = Some b.
Proof.
  unfold read_config. intros E. run_inv E as u rt1 E1. apply (inertly_run _ _ _ _ inertly_syscall), inert_config in E1.
  run_inv E as f rt2 E2. apply gets_Ok in E2 as [-> ->]. rewrite E1 in E.
  destruct (config_file rt); try done. by injection E as <- _.
Qed.

(** Whatever fails, a pending recovery is started only when it was approved. *)
Lemma startup_approved rt u rt' : assert_startup_allowed rt = (Ok u, rt') -> pending rt = true -> approved rt = true.
Proof.
  intros E Hp. unfold assert_startup_allowed in E. run_inv E as p rt0 E0. apply gets_Ok in E0 as [-> ->]. rewrite Hp in E. cbn [negb] in E.
  run_inv E as allowed rt1 E1. apply lift_Ok in E as [E _]. destruct allowed; [|done]. clear E.
  apply catch_Ok in E1 as [E1|(e&rt2&_&_&E1)]; [|done].
  run_inv E1 as data rt2 E2. pose proof (read_anchor_Ok _ _ _ _ E2) as Hdata. apply (inertly_run _ _ _ _ (inertly_read _)) in E2.
  run_inv E1 as approval rt3 E3. apply lift_Ok in E3 as [Hload ->].
  run_inv E1 as i rt3 E3. pose proof (stat_active_Ok _ _ _ E3) as Hi. apply (inertly_run _ _ _ _ inertly_stat_active) in E3.
  run_inv E1 as expected rt4 E4. apply lift_Ok in E4 as [He ->].
  run_inv E1 as config rt4 E4. pose proof (read_config_Ok _ _ _ E4) as Hc.
  rewrite (inert_active _ _ E2) in Hi. rewrite (inert_config _ _ E3), (inert_config _ _ E2) in Hc.
  destruct (in_names expected [sha256_hex config]) eqn:Hin; [|done]. run_inv E1 as v rt5 E5. apply lift_Ok in E5 as [Hv ->].
  injection E1 as Hid _. unfold approved, approves. by rewrite Hdata, Hi, Hc, Hload, He, Hv, Hin.
Qed.

Lemma subscript_raise v key e : subscript v key = Raise e -> startup_errors e = true.
Proof. destruct v as [| | | | | |items]; cbn; try (by intros [= <-]). unfold item. destruct (dict_get key items); by intros [= <-]. Qed.

(** Reading without faults. *)
Definition found {A} (x : option A) : res A := match x with Some a => Ok a | None => Raise OSError end.
Definition file_data (x : option Entry) : option bytes := match x with Some (File data) => Some data | _ => None end.

Lemma run_res {A B} (c : R A) (k : A -> R B) rt r :
  c rt = (r, rt) -> (c ≫= k) rt = match r with Ok a => k a rt | Raise e => (Raise e, rt) end.
Proof. unfold mbind, ST_bind. by intros ->. Qed.

Lemma read_anchor_exact name rt : no_faults rt -> read_anchor name rt = (found (file_data (anchor rt !! name)), rt).
Proof. intros Hf. unfold read_anchor. rewrite run_syscall, run_read by done. by destruct (anchor rt !! name) as [[]|]. Qed.

Lemma stat_active_exact rt : no_faults rt -> stat_active rt = (found (state_identity (active rt)), rt).
Proof. intros Hf. unfold stat_active. rewrite run_syscall, run_read by done. by destruct (active rt) as [[|own []]|]. Qed.

Lemma read_config_exact rt : no_faults rt -> read_config rt = (found (config_file rt), rt).
Proof. intros Hf. unfold read_config. rewrite run_syscall, run_read by done. by destruct (config_file rt). Qed.

(** Without faults the gate is exactly the approval. *)
Lemma startup_exact rt :
  no_faults rt -> assert_startup_allowed rt =
    (if pending rt && negb (approved rt)
     then Raise (RecoveryError "KMIP recovery is pending public trust review and global Appliance Apply.") else Ok tt, rt).
Proof.
  intros Hf. unfold assert_startup_allowed. rewrite run_read. destruct (pending rt); [|done]. cbn [negb andb].
  set (body := mbind _ (read_anchor approved_json)).
  enough (body rt = (Ok (approved rt), rt) \/ (approved rt = false /\ exists e, startup_errors e = true /\ body rt = (Raise e, rt)))
    as Hbody.
  { rewrite (run_ok _ _ _ (approved rt) rt); [by destruct (approved rt)|]. unfold catch.
    destruct Hbody as [-> |(->&e&He&->)]; [done|]. by rewrite He. }
  unfold body, approved. rewrite (run_res _ _ _ _ (read_anchor_exact _ _ Hf)).
  destruct (anchor rt !! approved_json) as [[d|data]|]; cbn [file_data found]; [right; split; [done|]; by exists OSError| |right; split; [done|]; by exists OSError].
  destruct (loads_bytes data) as [approval|e] eqn:El.
  2: { right. split; [by destruct (state_identity (active rt)), (config_file rt)|]. exists e. split; [|done].
       apply loads_bytes_raise in El. unfold startup_errors. by destruct e. }
  rewrite (run_lift _ _ _ approval), (run_res _ _ _ _ (stat_active_exact _ Hf)) by done.
  destruct (state_identity (active rt)) as [i|]; cbn [found]; [|right; split; [done|]; by exists OSError]. unfold approves.
  destruct (subscript approval (str "config_sha256")) as [c|e] eqn:Ec.
  2: { right. split; [by destruct (config_file rt)|]. exists e. split; [by eapply subscript_raise|done]. }
  rewrite (run_lift _ _ _ c), (run_res _ _ _ _ (read_config_exact _ Hf)) by done.
  destruct (config_file rt) as [config|]; cbn [found]; [|right; split; [done|]; by exists OSError].
  destruct (in_names c [sha256_hex config]); [|left; by destruct (subscript approval (str "identity"))].
  destruct (subscript approval (str "identity")) as [v|e] eqn:Ev; [by left|right]. split; [done|]. exists e.
  split; [by eapply subscript_raise|done].
Qed.

(* ------------------------------------------------------------------ *)
(** ** The review *)

(** Step over a computation that changes nothing, or a pure one. *)
Ltac still_step E x H :=
  let rt1 := fresh "rt" in let E1 := fresh "E" in
  run_inv E as x rt1 E1;
  first
    [ apply lift_Ok in E1 as [H ->]
    | match type of E1 with ?c ?rt = _ =>
        let Hi := fresh "Hi" in
        assert (inert rt rt1) as Hi by (refine (inertly_run c rt _ rt1 _ E1); solve [auto with inert]);
        rename E1 into H
      end ].

(** Compose the steps from one state to another. *)
Ltac inert_chain :=
  match goal with
  | |- inert ?a ?a => reflexivity
  | H : inert ?a ?b |- inert ?a _ => etrans; [exact H|]; clear H; inert_chain
  end.

Lemma res_mapM_elem {A B} (f : A -> res B) l k y : mapM f l = Ok k -> y ∈ k -> exists x, x ∈ l /\ f x = Ok y.
Proof.
  rewrite res_mapM_Ok. induction 1 as [|x y' l k Hx _ IH]; intros Hy; [by apply not_elem_of_nil in Hy|].
  apply elem_of_cons in Hy as [-> |Hy]; [exists x; split; [by left|done]|].
  destruct (IH Hy) as (x'&?&?). exists x'. split; [by right|done].
Qed.

Section Review.
Context `{HX : X509}.

(** What the clock showed between [rt] and [rt']: its reading [now] was used up meanwhile
    (a clock without readings ahead shows 0). *)
Definition clock_shows (rt rt' : Runtime) (now : Z) : Prop :=
  exists readings, readings `suffix_of` clock (process rt) /\ now = default 0 (head readings) /\ clock (process rt') `suffix_of` tail readings.

Lemma clock_shows_inert rt0 rt rt' rt1 now : inert rt0 rt -> inert rt' rt1 -> clock_shows rt rt' now -> clock_shows rt0 rt1 now.
Proof.
  intros (s&p&->&_&_&H1) (s'&p'&->&_&_&H2) (c&Hc&->&Hc'). exists c. split_and!; [by etrans|done|by etrans].
Qed.

(** A fingerprint that the imported trust allows for a provider: provider and vCenter are
    enabled, the certificate belongs to the vCenter, and a certificate with the fingerprint
    is accepted and current at a time that the clock showed between [rt] and [rt']. *)
Definition entitled (rt rt' : Runtime) (trust : json) (p f : pystr) : Prop :=
  exists vcenters certificates providers provider certificate certificate' vid vcenter now pem cert,
    subscript trust (str "vcenters") ≫= elements = Ok vcenters /\
    subscript trust (str "certificates") ≫= elements = Ok certificates /\
    subscript trust (str "providers") ≫= elements = Ok providers /\
    (provider ∈ providers /\ text_field provider "id" = Ok p /\
     exists v, subscript provider (str "enabled") = Ok v /\ truthy v = true) /\
    (certificate ∈ certificates /\ text_field certificate "fingerprint_sha256" = Ok f /\
     text_field certificate "trusted_vcenter_id" = Ok vid) /\
    (vcenter ∈ vcenters /\ text_field vcenter "id" = Ok vid /\ text_field vcenter "provider_id" = Ok p /\
     exists v, subscript vcenter (str "enabled") = Ok v /\ truthy v = true) /\
    (certificate' ∈ certificates /\ text_field certificate' "fingerprint_sha256" = Ok f /\
     text_field certificate' "certificate_pem" = Ok pem /\ parse_public_certificate now pem true = Ok cert /\
     not_valid_before cert <= now < not_valid_after cert /\ clock_shows rt rt' now).

(** An accepted certificate is current. *)
Lemma parse_current now pem cert : parse_public_certificate now pem true = Ok cert -> not_valid_before cert <= now < not_valid_after cert.
Proof. unfold parse_public_certificate. intros E. res_inv. cbn [andb] in *. cbn. lia. Qed.

Lemma vcenter_by_id_Ok id vcenters found v :
  vcenter_by_id id vcenters found = Ok v -> found = Some v \/ (v ∈ vcenters /\ text_field v "id" = Ok id).
Proof.
  revert found. induction vcenters as [|x l IH]; intros found E; cbn [vcenter_by_id] in E.
  { destruct found; [left; congruence|done]. }
  apply bind_Ok in E as (i&Ei&E). apply IH in E as [E|[E1 E2]]; [|right; split; [by right|done]]. case_bool_decide; [|by left].
  injection E as ->. right. subst. split; [by left|done].
Qed.

Lemma certificate_usable_Ok vcenters usable p certificate fs f :
  certificate_usable vcenters usable p certificate = Ok fs -> f ∈ fs ->
  f ∈ usable /\ text_field certificate "fingerprint_sha256" = Ok f /\
  exists vid vcenter v, text_field certificate "trusted_vcenter_id" = Ok vid /\ vcenter ∈ vcenters /\
    text_field vcenter "id" = Ok vid /\ text_field vcenter "provider_id" = Ok p /\
    subscript vcenter (str "enabled") = Ok v /\ truthy v = true.
Proof.
  unfold certificate_usable. intros E Hf. destruct (text_field certificate "fingerprint_sha256") as [f'|] eqn:Ef; [|done].
  cbn [mbind res_bind] in E. destruct (mem f' usable) eqn:Em; cbn [negb] in E; [|simplify_eq; by apply not_elem_of_nil in Hf].
  destruct (text_field certificate "trusted_vcenter_id") as [vid|] eqn:Ev; [|done]. cbn [mbind res_bind] in E.
  destruct (vcenter_by_id vid vcenters None) as [vc|] eqn:Ec; [|done]. cbn [mbind res_bind] in E.
  apply vcenter_by_id_Ok in Ec as [?|[Hin Hid]]; [done|].
  destruct (text_field vc "provider_id") as [p'|] eqn:Ep; [|done]. cbn [mbind res_bind] in E.
  destruct (bool_decide (p' = p)) eqn:Epp; cbn [negb] in E; [|simplify_eq; by apply not_elem_of_nil in Hf].
  apply bool_decide_eq_true in Epp as ->. destruct (subscript vc (str "enabled")) as [v|] eqn:Een; [|done]. cbn [mbind res_bind] in E.
  injection E as <-. destruct (truthy v) eqn:Et; [|by apply not_elem_of_nil in Hf].
  apply list_elem_of_singleton in Hf as ->. split_and!; [by apply bool_decide_eq_true in Em|done|].
  by exists vid, vc, v.
Qed.

Lemma expected_graph_Ok vcenters certificates providers usable graph p fs :
  expected_graph vcenters certificates providers usable = Ok graph -> (p, fs) ∈ graph ->
  exists provider v, provider ∈ providers /\ text_field provider "id" = Ok p /\
    subscript provider (str "enabled") = Ok v /\ truthy v = true /\
    forall f, f ∈ fs -> exists certificate fs', certificate ∈ certificates /\
      certificate_usable vcenters usable p certificate = Ok fs' /\ f ∈ fs'.
Proof.
  revert graph. induction providers as [|provider providers IH]; intros graph E Hin; cbn [expected_graph] in E.
  { simplify_eq. by apply not_elem_of_nil in Hin. }
  destruct (subscript provider (str "enabled")) as [v|] eqn:Ev; [|done]. cbn [mbind res_bind] in E.
  apply bind_Ok in E as (row&Erow&E). apply bind_Ok in E as (rest&Erest&E). injection E as <-. apply elem_of_app in Hin as [Hin|Hin].
  - destruct (truthy v) eqn:Et; [|simplify_eq; by apply not_elem_of_nil in Hin].
    destruct (text_field provider "id") as [id|] eqn:Eid; [|done]. cbn [mbind res_bind] in Erow.
    apply bind_Ok in Erow as (fss&Efss&Erow). injection Erow as <-. apply list_elem_of_singleton in Hin. injection Hin as -> ->.
    exists provider, v. split_and!; [by left|done..|]. intros f Hf. rewrite merge_sort_Permutation in Hf.
    apply list_elem_of_In, in_concat in Hf as (fs'&Hfs'&Hf). apply list_elem_of_In in Hf, Hfs'.
    destruct (res_mapM_elem _ _ _ _ Efss Hfs') as (c&Hc&Ec). by exists c, fs'.
  - destruct (IH rest Erest Hin) as (pr&v'&H1&H2). exists pr, v'. split; [by right|done].
Qed.

Lemma usable_fingerprints_Ok certificates rt usable rt' f :
  usable_fingerprints certificates rt = (Ok usable, rt') -> f ∈ usable ->
  exists certificate pem now cert, certificate ∈ certificates /\ text_field certificate "fingerprint_sha256" = Ok f /\
    text_field certificate "certificate_pem" = Ok pem /\ parse_public_certificate now pem true = Ok cert /\ clock_shows rt rt' now.
Proof.
  revert rt usable. induction certificates as [|c certificates IH]; intros rt usable E Hf; cbn [usable_fingerprints] in E.
  { injection E as <- _. by apply not_elem_of_nil in Hf. }
  run_inv E as pem rt1 E1. apply lift_Ok in E1 as [Hpem ->]. run_inv E as now rt1 E1. run_inv E as fs rt2 E2.
  pose proof (inertly_run _ _ _ _ inertly_now E1) as I1.
  assert (inert rt1 rt2) as I2.
  { refine (inertly_run _ _ _ _ _ E2). destruct (parse_public_certificate now pem true) as [?|e]; [|destruct (is_ValueError e)]; inert_tac. }
  run_inv E as rest rt3 E3. pose proof (inertly_run _ _ _ _ (inertly_usable _) E3) as I3. injection E as <- <-. apply elem_of_app in Hf as [Hf|Hf].
  - destruct (parse_public_certificate now pem true) as [cert|e] eqn:Ep.
    + run_inv E2 as f' rt4 E4. apply lift_Ok in E4 as [Hf' ->]. injection E2 as <- _.
      apply list_elem_of_singleton in Hf as ->. exists c, pem, now, cert. split_and!; [by left|done..|].
      apply (clock_shows_inert rt _ rt1 _ now (reflexivity rt)); [by etrans|]. injection E1 as <- <-. by exists (clock (process rt)).
    + destruct (is_ValueError e); [|done]. injection E2 as <- _. by apply not_elem_of_nil in Hf.
  - destruct (IH rt2 rest E3 Hf) as (c'&pem'&now'&cert&H1&H2&H3&H4&H5). exists c', pem', now', cert. split_and!; [by right|done..|].
    by apply (clock_shows_inert rt rt2 rt3 rt3); [etrans|reflexivity|].
Qed.

(** What a review that returned has seen: the journal names the active directory, the
    service is enabled, and each provider that the configuration shows has clients, all of
    them entitled between [rt] and [rt']. *)
Record reviewed (rt rt' : Runtime) (journal : json) (i : Z * Z) (config : bytes) : Prop := {
  rv_journal : exists data, anchor rt !! pending_json = Some (File data) /\ loads_bytes data = Ok journal;
  rv_active : state_identity (active rt) = Some i;
  rv_identity : exists v, subscript journal (str "identity") = Ok v /\ is_identity v i = true;
  rv_config : config_file rt = Some config;
  rv_graph : exists trust document rows observed v,
    subscript journal (str "trust") = Ok trust /\ loads_bytes config = Ok document /\
    subscript document (str "enabled") = Ok v /\ truthy v = true /\
    subscript document (str "providers") ≫= elements = Ok rows /\ mapM observed_row rows = Ok observed /\
    forall p clients, as_map observed !! p = Some clients ->
      exists fs, clients = Some fs /\ fs <> [] /\ forall f, f ∈ fs -> entitled rt rt' trust p f
}.

Lemma as_map_elem {A} (l : list (pystr * A)) k x : as_map l !! k = Some x -> (k, x) ∈ l.
Proof. intros E. apply elem_of_list_to_map_2 in E. by rewrite reverse_Permutation in E. Qed.

Lemma graph_matches_rows expected observed p clients :
  graph_matches expected observed = true ->
  as_map observed !! p = Some clients -> exists fs, clients = Some fs /\ fs <> [] /\ (p, fs) ∈ expected.
Proof.
  intros Hm Hp. apply bool_decide_eq_true in Hm. rewrite <- Hm in Hp. apply as_map_elem in Hp.
  apply list_elem_of_fmap in Hp as ([p' fs]&E&Hin). injection E as -> ->. apply list_elem_of_filter in Hin as [Hne Hin].
  exists fs. split; [done|]. split; [|done]. by intros ->.
Qed.

Lemma review_Ok rt journal i config rt' : review rt = (Ok (journal, i, config), rt') -> reviewed rt rt' journal i config.
Proof.
  unfold review. intros E. still_step E data Hdata. apply read_anchor_Ok in Hdata. still_step E j Hj. still_step E i' Hi'.
  apply stat_active_Ok in Hi'. still_step E v Hv. still_step E u Hid. still_step E trust Htrust. still_step E text Htext.
  apply read_config_Ok in Htext. still_step E document Hdoc. still_step E vcenters Hvc. still_step E u2 Hids.
  still_step E certificates Hcerts. still_step E usable Husable.
  match type of Husable with usable_fingerprints _ ?a = (_, ?b) => assert (inert rt a) as Hbefore by inert_chain; rename b into rtb end.
  still_step E providers Hprov. still_step E expected Hexp.
  still_step E rows Hrows. still_step E observed Hobs. still_step E enabled Hen. still_step E u3 Hok. still_step E config' Hconf.
  apply read_config_Ok in Hconf. injection E as -> -> -> ->.
  assert (inert rtb rt') as Hafter by inert_chain.
  pose proof (fun now => clock_shows_inert _ _ _ _ now Hbefore Hafter) as Hclock.
  repeat match goal with H : inert _ _ |- _ => pose proof (inert_config _ _ H); pose proof (inert_active _ _ H); clear H end.
  assert (config_file rt = Some config) as Hc by congruence. assert (text = config) as -> by congruence.
  apply raise_if_Ok in Hok. apply orb_false_iff in Hok as [Hd Hok]. rewrite Hd in Hen. apply negb_false_iff in Hd, Hok.
  apply raise_if_Ok, negb_false_iff in Hid. split; [by exists data|congruence|by exists v|done|].
  exists trust, document, rows, observed, enabled. split_and!; try done. intros p clients Hp.
  destruct (graph_matches_rows _ _ _ _ Hd Hp) as (fs&->&Hne&Hin). exists fs. split_and!; try done. intros f Hf.
  destruct (expected_graph_Ok _ _ _ _ _ _ _ Hexp Hin) as (provider&pv&P1&P2&P3&P4&P5).
  destruct (P5 f Hf) as (c&fs'&C1&C2&C3).
  destruct (certificate_usable_Ok _ _ _ _ _ _ C2 C3) as (U1&U2&vid&vc&vv&V1&V2&V3&V4&V5&V6).
  destruct (usable_fingerprints_Ok _ _ _ _ _ Husable U1) as (c'&pem&now&cert&F1&F2&F3&F4&F5).
  apply Hclock in F5. destruct (parse_current _ _ _ F4) as [Q1 Q2].
  exists vcenters, certificates, providers, provider, c, c', vid, vc, now, pem, cert. split_and!; eauto.
Qed.

Lemma inertly_review : inertly review.
Proof. unfold review. inert_tac. Qed.
End Review.
#[export] Hint Resolve inertly_review : inert.

(* ------------------------------------------------------------------ *)
(** ** Changes beside the journal *)

(** The entry [name], the active entry and the configuration are as they were. *)
Record spares (name : pystr) (rt rt' : Runtime) : Prop := {
  sp_anchor : anchor rt' !! name = anchor rt !! name;
  sp_active : active rt' = active rt;
  sp_config : config_file rt' = config_file rt;
  sp_faults : faults (process rt') `suffix_of` faults (process rt)
}.

#[global] Instance spares_preorder name : PreOrder (spares name).
Proof.
  split.
  - by intros rt.
  - intros r1 r2 r3 [] []. split; try congruence. by etrans.
Qed.

Lemma inert_spares name rt rt' : inert rt rt' -> spares name rt rt'.
Proof.
  intros Hi. split; [by rewrite (inert_anchor _ _ Hi)|by apply inert_active|by apply inert_config|by apply inert_faults].
Qed.

Definition sparing {A} (name : pystr) (c : R A) : Prop := forall rt, spares name rt (c rt).2.

Lemma sparing_inert {A} name (c : R A) : inertly c -> sparing name c.
Proof. intros Hc rt. apply inert_spares, Hc. Qed.

Lemma sparing_run {A} name (c : R A) rt r rt' : sparing name c -> c rt = (r, rt') -> spares name rt rt'.
Proof. intros Hc E. specialize (Hc rt). by rewrite E in Hc. Qed.

Lemma sparing_bind {A B} name (c : R A) (k : A -> R B) : sparing name c -> (forall a, sparing name (k a)) -> sparing name (c ≫= k).
Proof.
  intros Hc Hk rt. unfold mbind, ST_bind. destruct (c rt) as [[a|e] rt'] eqn:E; pose proof (sparing_run _ _ _ _ _ Hc E); [|done].
  etrans; [done|]. apply Hk.
Qed.

Lemma spares_set name a rt : a !! name = anchor rt !! name -> spares name rt (set_anchor a rt).
Proof. by intros E. Qed.

Lemma sparing_rename name source destination :
  source <> name -> destination <> name -> sparing name (_rename_absent_file source destination).
Proof.
  intros Hs Hd. unfold _rename_absent_file. apply sparing_bind; [apply sparing_inert, inertly_syscall|]. intros _ rt. rewrite run_read.
  destruct (anchor rt !! source) as [[]|], (anchor rt !! destination); try reflexivity. rewrite run_modify.
  etrans; [apply spares_set|]; [|apply sparing_inert, inertly_bind; [apply inertly_syscall|intros; apply inertly_syscall]].
  by rewrite lookup_insert_ne, lookup_delete_ne.
Qed.

(** The anchor holds [a], and nothing else has changed. *)
Definition leaves (rt : Runtime) (a : gmap pystr Entry) (rt' : Runtime) : Prop := inert (set_anchor a rt) rt'.

Lemma inert_leaves rt rt' : inert rt rt' -> leaves rt (anchor rt) rt'.
Proof. unfold leaves. by destruct rt. Qed.
Lemma leaves_trans rt1 a rt2 b rt3 : leaves rt1 a rt2 -> leaves rt2 b rt3 -> leaves rt1 b rt3.
Proof. intros H1 H2. unfold leaves in *. etrans; [exact (inert_set_anchor b _ _ H1)|exact H2]. Qed.
Lemma leaves_anchor rt a rt' : leaves rt a rt' -> anchor rt' = a.
Proof. apply inert_anchor. Qed.

Lemma exclusive_Ok name data rt u rt' :
  exclusive_anchor_file name data rt = (Ok u, rt') -> anchor rt !! name = None /\ leaves rt (<[name := File data]> (anchor rt)) rt'.
Proof.
  unfold exclusive_anchor_file. intros E. run_inv E as u1 rt1 E1. apply (inertly_run _ _ _ _ inertly_syscall) in E1.
  run_inv E as a rt2 E2. apply gets_Ok in E2 as [-> ->]. run_inv E as u2 rt3 E3. apply lift_Ok in E3 as [E3 ->].
  apply raise_if_Ok, bool_decide_eq_false, eq_None_not_Some in E3. rewrite (inert_anchor _ _ E1) in E3. split; [done|].
  run_inv E as u3 rt4 E4. apply modify_Ok in E4 as ->. run_inv E as u4 rt5 E5. apply (inertly_run _ _ _ _ inertly_syscall) in E5.
  run_inv E as u5 rt6 E6. apply modify_Ok in E6 as ->. apply (inertly_run _ _ _ _ inertly_syscall) in E. unfold leaves.
  etrans; [|exact E]. unfold put_file in *. rewrite (inert_anchor _ _ E5). cbn [anchor set_anchor]. rewrite insert_insert_eq, (inert_anchor _ _ E1).
  etrans; [exact (inert_set_anchor _ _ _ E1)|]. exact (inert_set_anchor _ _ _ E5).
Qed.

Lemma replace_Ok source destination data rt u rt' :
  replace_file source destination rt = (Ok u, rt') -> anchor rt !! source = Some (File data) ->
  leaves rt (<[destination := File data]> (delete source (anchor rt))) rt'.
Proof.
  unfold replace_file. intros E Hs. run_inv E as u1 rt1 E1. apply (inertly_run _ _ _ _ inertly_syscall) in E1.
  run_inv E as a rt2 E2. apply gets_Ok in E2 as [-> ->]. rewrite (inert_anchor _ _ E1), Hs in E. apply modify_Ok in E as ->. by apply inert_set_anchor.
Qed.

(** The record of an approval reads back. *)
Definition approval_document (config : bytes) (i : Z * Z) : json :=
  JDict [(str "config_sha256", JStr (sha256_hex config)); (str "identity", json_identity i)].

Lemma approval_reads config i :
  dumpable (json_identity i) ->
  exists data approval, utf8_encode (dumps_default (approval_document config i)) = Ok data /\
    loads_bytes data = Ok approval /\ approves approval config i = true.
Proof.
  intros Hi. unfold approval_document. set (items := [_; _]).
  assert (dumpable (JDict items)) as Hd.
  { apply dumpable_dict. split; [by apply (bool_decide_unpack _)|].
    repeat (apply Forall_cons; split); [..|constructor]; (split; [by repeat constructor|]); [|done].
    apply ascii_scalar. eapply Forall_impl; [apply bytes_hex_lower|]. intros c Hc. apply is_lower_hex_lt in Hc. lia. }
  pose proof (trust_text_ok _ Hd) as Htext. eexists _, _. split; [exact Htext|]. split; [by apply loads_bytes_default|].
  destruct (sort_dicts_items items Hd) as (items'&Es&HI&_). rewrite Es. unfold approves, subscript. rewrite !HI.
  unfold items, item. dict_simpl. cbn [fmap res_fmap sort_dicts json_identity map]. unfold in_names, mem.
  rewrite bool_decide_eq_true_2 by (by apply list_elem_of_singleton). cbn. by rewrite !bool_decide_eq_true_2.
Qed.

Lemma approve_Ok config i rt u rt' :
  approve config i rt = (Ok u, rt') -> dumpable (json_identity i) ->
  exists data approval, leaves rt (<[approved_json := File data]> (anchor rt)) rt' /\ loads_bytes data = Ok approval /\
    approves approval config i = true.
Proof.
  intros E Hi. destruct (approval_reads config i Hi) as (data&approval&Hdata&Hload&Happ). unfold approve in E.
  run_inv E as hex rt1 E1. apply (inertly_run _ _ _ _ inertly_hex) in E1. cbv zeta in E. set (tmp := str "approval-" ++ hex) in E.
  run_inv E as data' rt2 E2. apply lift_Ok in E2 as [Hd ->]. unfold approval_document in Hdata. rewrite Hdata in Hd. injection Hd as <-.
  run_inv E as u1 rt2 E2. apply exclusive_Ok in E2 as [Hnew H2]. rewrite (inert_anchor _ _ E1) in Hnew, H2.
  run_inv E as u2 rt3 E3. apply (inertly_run _ _ _ _ inertly_syscall) in E3.
  assert (leaves rt (<[tmp := File data]> (anchor rt)) rt3) as H3 by (eapply leaves_trans; [apply inert_leaves, E1|]; unfold leaves; by etrans).
  run_inv E as u3 rt4 E4. apply (replace_Ok _ _ data) in E4; [|by rewrite (leaves_anchor _ _ _ H3), lookup_insert_eq].
  rewrite (leaves_anchor _ _ _ H3), delete_insert_id in E4 by done. apply (inertly_run _ _ _ _ inertly_syscall) in E.
  exists data, approval. split; [|done]. eapply leaves_trans; [exact H3|]. unfold leaves in *. by etrans.
Qed.

(** A review within a longer call is one of that call. *)
Lemma reviewed_widen `{HX : X509} rt rt1 rt2 a rt' journal i config :
  inert rt rt1 -> leaves rt2 a rt' -> reviewed rt1 rt2 journal i config -> reviewed rt rt' journal i config.
Proof.
  intros H1 H2 [R1 R2 R3 R4 (trust&document&rows&observed&v&Ht&G1&G2&G3&G4&G5&G)]. rewrite (inert_anchor _ _ H1) in R1. rewrite (inert_active _ _ H1) in R2.
  rewrite (inert_config _ _ H1) in R4. split; try done. exists trust, document, rows, observed, v. split_and!; try done.
  intros p clients Hp. destruct (G p clients Hp) as (fs&->&Hne&Hfs). exists fs. split_and!; try done. intros f Hf.
  destruct (Hfs f Hf) as (vc&cs&ps&pr&c&c'&vid&vcenter&now&pem&cert&A1&A2&A3&A4&A5&A6&A7&A8&A9&A10&A11&A12).
  exists vc, cs, ps, pr, c, c', vid, vcenter, now, pem, cert. do 6 (split; [assumption|]). do 5 (split; [assumption|]).
  destruct H1 as (s1&p1&->&_&_&C1), H2 as (s2&p2&->&_&_&C2), A12 as (l&B1&B2&B3). exists l. split_and!; [by etrans|done|by etrans].
Qed.

(* ------------------------------------------------------------------ *)
(** ** Completion *)

Definition calm (f : list fault) : Prop := Forall (eq Proceed) f.

(** At most one step fails, and the machine does not stop. *)
Fixpoint at_most_one (f : list fault) : Prop :=
  match f with
  | [] => True
  | Proceed :: f => at_most_one f
  | Fault :: f => calm f
  | Crash :: _ => False
  end.

Lemma calm_at_most_one f : calm f -> at_most_one f.
Proof. induction 1 as [|x f <- _ IH]; done. Qed.

Lemma calm_suffix f f' : f' `suffix_of` f -> calm f -> calm f'.
Proof. intros [l ->]. unfold calm. by rewrite Forall_app; intros [_ ?]. Qed.

Lemma at_most_one_suffix f f' : f' `suffix_of` f -> at_most_one f -> at_most_one f'.
Proof.
  intros [l ->]. induction l as [|[] l IH]; cbn; [done|done| |done]. intros Hc. apply calm_at_most_one.
  eapply calm_suffix; [|exact Hc]. by exists l.
Qed.

Lemma syscall_once rt :
  at_most_one (faults (process rt)) ->
  exists rt', inert rt rt' /\ (syscall rt = (Ok tt, rt') \/ (syscall rt = (Raise OSError, rt') /\ calm (faults (process rt')))).
Proof.
  intros Ho. exists (syscall rt).2. split; [apply inertly_syscall|]. unfold syscall, on_process, io.
  destruct (faults (process rt)) as [|[] f]; [by left|by left| |done]. right. by split.
Qed.

Lemma syscall_calm rt :
  calm (faults (process rt)) -> exists rt', inert rt rt' /\ calm (faults (process rt')) /\ syscall rt = (Ok tt, rt').
Proof.
  intros Hc. destruct (syscall_once rt) as (rt'&Hi&Hs); [by apply calm_at_most_one|]. exists rt'. split; [done|].
  split; [eapply calm_suffix; [by apply inert_faults|done]|]. destruct Hs as [?|[E _]]; [done|]. exfalso. revert E.
  unfold syscall, on_process, io. destruct Hc as [|x f <- _]; done.
Qed.

Definition moved (source destination : pystr) (data : bytes) (rt : Runtime) : gmap pystr Entry :=
  <[destination := File data]> (delete source (anchor rt)).

(** A move with at most one failure happens or does not; a failure after it is the last. *)
Lemma rename_once source destination data rt :
  anchor rt !! source = Some (File data) -> at_most_one (faults (process rt)) ->
  exists r rt', _rename_absent_file source destination rt = (r, rt') /\
    ((r = Raise OSError /\ anchor rt' = anchor rt) \/
     (anchor rt' = moved source destination data rt /\
      (r = Ok tt \/ (r = Raise OSError /\ calm (faults (process rt')))))).
Proof.
  intros Hs Ho. unfold _rename_absent_file. destruct (syscall_once rt Ho) as (rt1&H1&[E1|[E1 _]]).
  2: { exists (Raise OSError), rt1. unfold mbind, ST_bind. rewrite E1. split; [done|]. left. by rewrite (inert_anchor _ _ H1). }
  rewrite (run_ok _ _ _ _ _ E1), run_read, (inert_anchor _ _ H1), Hs.
  destruct (anchor rt !! destination); [exists (Raise OSError), rt1; split; [done|]; left; by rewrite (inert_anchor _ _ H1)|].
  rewrite run_modify. fold (moved source destination data rt). set (rt2 := set_anchor _ rt1).
  pose proof (at_most_one_suffix _ _ (inert_faults _ _ H1) Ho : at_most_one (faults (process rt2))) as Ho2.
  destruct (syscall_once rt2 Ho2) as (rt3&H3&[E3|[E3 Hc]]).
  2: { exists (Raise OSError), rt3. unfold mbind, ST_bind. rewrite E3. split; [done|]. right.
       rewrite (inert_anchor _ _ H3). split; [done|]. by right. }
  rewrite (run_ok _ _ _ _ _ E3). pose proof (at_most_one_suffix _ _ (inert_faults _ _ H3) Ho2) as Ho3.
  destruct (syscall_once rt3 Ho3) as (rt4&H4&[E4|[E4 Hc]]); rewrite E4; eexists _, rt4; (split; [done|]); right;
    (rewrite (inert_anchor _ _ H4), (inert_anchor _ _ H3); split; [done|]); [by left|by right].
Qed.

(** Without failures the move happens. *)
Lemma rename_calm source destination data rt :
  anchor rt !! source = Some (File data) -> anchor rt !! destination = None -> calm (faults (process rt)) ->
  exists rt', _rename_absent_file source destination rt = (Ok tt, rt') /\ anchor rt' = moved source destination data rt.
Proof.
  intros Hs Hd Hc. unfold _rename_absent_file. destruct (syscall_calm rt Hc) as (rt1&H1&Hc1&E1).
  rewrite (run_ok _ _ _ _ _ E1), run_read, (inert_anchor _ _ H1), Hs, Hd, run_modify.
  fold (moved source destination data rt). set (rt2 := set_anchor _ rt1).
  destruct (syscall_calm rt2 Hc1) as (rt3&H3&Hc3&E3). rewrite (run_ok _ _ _ _ _ E3).
  destruct (syscall_calm rt3 Hc3) as (rt4&H4&_&E4). exists rt4. split; [done|].
  by rewrite (inert_anchor _ _ H4), (inert_anchor _ _ H3).
Qed.

(** The journal is retired, or it is back in its place. *)
Definition retired (data : bytes) (r : res unit * Runtime) : Prop :=
  match r with
  | (Ok _, rt) => pending rt = false /\ exists archive, anchor rt !! (str "completed-" ++ archive ++ str ".json") = Some (File data)
  | (Raise _, rt) => anchor rt !! pending_json = Some (File data)
  end.

Lemma not_pending rt : anchor rt !! pending_json = None -> pending rt = false.
Proof. unfold pending. intros ->. by apply bool_decide_eq_false_2; intros [? ?]. Qed.

Lemma retire_journal archive data rt :
  let completed := str "completed-" ++ archive ++ str ".json" in
  anchor rt !! pending_json = Some (File data) -> at_most_one (faults (process rt)) ->
  retired data (catch (fun e => match e with OSError => true | _ => false end)
    (_rename_absent_file pending_json completed)
    (fun e =>
       p ← gets pending;
       a ← gets anchor;
       _ ← (if negb p && bool_decide (is_Some (a !! completed)) then _rename_absent_file completed pending_json else mret tt);
       lift (Raise e)) rt).
Proof.
  intros completed Hj Ho. assert (completed <> pending_json) as Hne by (intros [=]).
  destruct (rename_once pending_json completed data rt Hj Ho) as (r&rt1&E&Hcase). unfold catch. rewrite E. clear E.
  destruct Hcase as [[-> Ha]|[Ha Hr]].
  { rewrite !run_read. unfold pending. rewrite Ha, Hj, bool_decide_eq_true_2 by done. cbn [negb andb]. change (anchor rt1 !! pending_json = Some (File data)). by rewrite Ha. }
  assert (anchor rt1 !! pending_json = None /\ anchor rt1 !! completed = Some (File data)) as [Hp Hc].
  { rewrite Ha. unfold moved. rewrite lookup_insert_eq, lookup_insert_ne by done. by rewrite lookup_delete_eq. }
  destruct Hr as [-> |[-> Hcalm]]; [split; [by apply not_pending|by exists archive]|].
  rewrite !run_read, (not_pending _ Hp), Hc, (bool_decide_eq_true_2 (is_Some _)) by done. cbn [negb andb].
  destruct (rename_calm completed pending_json data rt1 Hc Hp Hcalm) as (rt2&E2&Ha2).
  rewrite (run_ok _ _ _ _ _ E2). change (anchor rt2 !! pending_json = Some (File data)). rewrite Ha2. unfold moved. by rewrite lookup_insert_eq.
Qed.

(** Steps beside the journal come before. *)
Lemma retired_bind {A} data (c : R A) (k : A -> R unit) rt :
  sparing pending_json c -> anchor rt !! pending_json = Some (File data) -> at_most_one (faults (process rt)) ->
  (forall a rt', anchor rt' !! pending_json = Some (File data) ->
     at_most_one (faults (process rt')) -> retired data (k a rt')) ->
  retired data ((c ≫= k) rt).
Proof.
  intros Hc Hj Ho Hk. unfold mbind, ST_bind. destruct (c rt) as [[a|e] rt'] eqn:E; pose proof (sparing_run _ _ _ _ _ Hc E) as Hs.
  - apply Hk; [by rewrite (sp_anchor _ _ _ Hs)|]. eapply at_most_one_suffix; [apply Hs|done].
  - cbn. by rewrite (sp_anchor _ _ _ Hs).
Qed.

Lemma complete_retires journal data rt :
  anchor rt !! pending_json = Some (File data) -> at_most_one (faults (process rt)) ->
  retired data (complete_journal journal rt).
Proof.
  intros Hj Ho. unfold complete_journal. apply retired_bind; [apply sparing_inert, inertly_startup|done..|]. clear rt Hj Ho.
  intros _ rt Hj Ho. apply retired_bind; [apply sparing_inert, inertly_gets|done..|]. clear rt Hj Ho.
  intros a rt Hj Ho. apply retired_bind; [|done..|].
  { case_bool_decide; [|apply sparing_inert, inertly_ret]. apply sparing_bind; [apply sparing_inert, inertly_hex|]. intros hex.
    apply sparing_rename; intros [=]. }
  clear rt Hj Ho. intros _ rt Hj Ho. apply retired_bind; [apply sparing_inert, inertly_syscall|done..|]. clear rt Hj Ho.
  intros _ rt Hj Ho. apply retired_bind; [apply sparing_inert, inertly_lift|done..|]. clear rt Hj Ho.
  intros archive rt Hj Ho. by apply retire_journal.
Qed.

Lemma rename_Ok source destination rt u rt' :
  _rename_absent_file source destination rt = (Ok u, rt') -> anchor rt !! destination = None.
Proof.
  unfold _rename_absent_file. intros E. run_inv E as u1 rt1 E1. apply (inertly_run _ _ _ _ inertly_syscall), inert_anchor in E1.
  run_inv E as a rt2 E2. apply gets_Ok in E2 as [-> ->]. rewrite E1 in E.
  by destruct (anchor rt !! source) as [[]|], (anchor rt !! destination).
Qed.

Lemma complete_Ok journal archive rt u rt' :
  complete_journal journal rt = (Ok u, rt') -> text_field journal "archive" = Ok archive ->
  anchor rt !! (str "completed-" ++ archive ++ str ".json") = None.
Proof.
  intros E Ha. unfold complete_journal in E. set (name := str "completed-" ++ archive ++ str ".json").
  run_inv E as u1 rt1 E1. apply (inertly_run _ _ _ _ inertly_startup) in E1.
  run_inv E as a rt2 E2. apply gets_Ok in E2 as [-> ->]. run_inv E as u2 rt3 E3.
  assert (spares name rt1 rt3) as H3.
  { revert E3. apply sparing_run. case_bool_decide; [|apply sparing_inert, inertly_ret].
    apply sparing_bind; [apply sparing_inert, inertly_hex|]. intros hex. apply sparing_rename; intros [=]. }
  run_inv E as u3 rt4 E4. apply (inertly_run _ _ _ _ inertly_syscall) in E4. run_inv E as archive' rt5 E5.
  apply lift_Ok in E5 as [E5 ->]. rewrite Ha in E5. injection E5 as <-. apply (catch_raise _ _ _ _ u) in E; [by apply rename_Ok in E; rewrite <- (inert_anchor _ _ E1), <- (sp_anchor _ _ _ H3), <- (inert_anchor _ _ E4)|].
  intros e w1 w2 H. run_inv H as p w3 _. run_inv H as a w4 _. run_inv H as u4 w5 _. done.
Qed.

(* ------------------------------------------------------------------ *)
(** ** Claims *)

(** C32. The startup gate is exactly the approval: whatever fails, a pending recovery is only
    started when the recorded approval covers the active directory and the installed
    configuration; when nothing fails, it is refused in every other case and never without
    need. *)
Theorem startup_gate rt :
  (forall rt', assert_startup_allowed rt = (Ok tt, rt') -> pending rt = true -> approved rt = true) /\
  (no_faults rt -> assert_startup_allowed rt =
     (if pending rt && negb (approved rt)
      then Raise (RecoveryError "KMIP recovery is pending public trust review and global Appliance Apply.") else Ok tt, rt)).
Proof. split; [apply startup_approved|apply startup_exact]. Qed.


(** Completion keeps the gate: with at most one failing step, a completion that raises
    leaves the journal pending with its content, and one that returns has kept it under its
    archived name; it requires the approval. *)
Theorem complete_keeps_gate `{HX : X509} rt data :
  anchor rt !! pending_json = Some (File data) -> at_most_one (faults (process rt)) ->
  retired data (authorize true rt) /\ (forall rt', authorize true rt = (Ok tt, rt') -> approved rt = true).
Proof.
  intros Hj Ho. assert (pending rt = true) as Hp by (unfold pending; by rewrite Hj, bool_decide_eq_true_2). split.
  - unfold authorize. apply retired_bind; [apply sparing_inert, inertly_secure|done..|]. clear rt Hj Ho Hp. intros _ rt Hj Ho.
    rewrite run_read. unfold pending at 1. rewrite Hj, bool_decide_eq_true_2 by done. cbn [negb].
    apply retired_bind; [apply sparing_inert, inertly_review|done..|]. clear rt Hj Ho. intros [[journal i] config] rt Hj Ho.
    by apply complete_retires.
  - intros rt' E. unfold authorize in E. run_inv E as u rt1 E1. apply (inertly_run _ _ _ _ inertly_secure) in E1.
    run_inv E as b rt2 E2. apply gets_Ok in E2 as [-> ->]. unfold pending in E at 1. rewrite (inert_anchor _ _ E1) in E.
    fold (pending rt) in E. rewrite Hp in E. cbn [negb] in E. run_inv E as x rt2 E2. destruct x as [[journal i] config].
    apply (inertly_run _ _ _ _ inertly_review) in E2. assert (inert rt rt2) as Hi by (by etrans).
    unfold complete_journal in E. run_inv E as u2 rt3 E3. apply startup_approved in E3.
    + unfold approved in *. by rewrite (inert_anchor _ _ Hi), (inert_active _ _ Hi), (inert_config _ _ Hi) in E3.
    + unfold pending. by rewrite (inert_anchor _ _ Hi), Hj, bool_decide_eq_true_2.
Qed.

(** The second recovery from one archive is never completed: the archived journal of the
    first one has the name that the second one needs. *)
Theorem recovery_completes_once `{HX : X509} rt data journal archive x u rt' :
  anchor rt !! pending_json = Some (File data) -> loads_bytes data = Ok journal -> text_field journal "archive" = Ok archive ->
  anchor rt !! (str "completed-" ++ archive ++ str ".json") = Some x -> authorize true rt <> (Ok u, rt').
Proof.
  intros Hj Hl Ha Hx E. unfold authorize in E. run_inv E as u1 rt1 E1. apply (inertly_run _ _ _ _ inertly_secure) in E1.
  run_inv E as b rt2 E2. apply gets_Ok in E2 as [-> ->]. unfold pending in E at 1.
  rewrite (inert_anchor _ _ E1), Hj, bool_decide_eq_true_2 in E by done. cbn [negb] in E.
  run_inv E as y rt2 E2. destruct y as [[journal' i] config]. pose proof (rv_journal _ _ _ _ _ (review_Ok _ _ _ _ _ E2)) as (data'&Hj'&Hl').
  rewrite (inert_anchor _ _ E1), Hj in Hj'. injection Hj' as <-. rewrite Hl in Hl'. injection Hl' as <-.
  apply (inertly_run _ _ _ _ inertly_review) in E2. pose proof (complete_Ok _ _ _ _ _ E Ha) as Hn.
  rewrite (inert_anchor _ _ E2), (inert_anchor _ _ E1) in Hn. congruence.
Qed.
