(* ===== verification/Protocol.v ===== *)
(** The bounded KMIP 1.1/1.4 operation dispatcher
    ([src/atlaso/app/kmip/protocol.py]).

    The dispatcher runs against the class [KeyStore], the five store methods it
    calls; the key store of [Store.v] is one instance ([KeyService.v]).  The
    integer enumerations of the source are inductive types with a coercion to their
    value.  Local variables that an exception handler reads ([operation_value],
    [batch_item_id]) are arguments of the step that may raise. *)

From S2P Require Import Prelude Utf8 PyText Uuid Json Ttlv World Store.
Open Scope Z_scope.

(** [class Tag(IntEnum)]. *)
Inductive Tag : Type :=
| ACTIVATION_DATE | ATTRIBUTE | ATTRIBUTE_NAME | ATTRIBUTE_VALUE | BATCH_COUNT | BATCH_ITEM
| CRYPTOGRAPHIC_ALGORITHM | CRYPTOGRAPHIC_LENGTH | CRYPTOGRAPHIC_USAGE_MASK | KEY_BLOCK
| KEY_FORMAT_TYPE | KEY_MATERIAL | KEY_VALUE | MAXIMUM_RESPONSE_SIZE | NAME | NAME_TYPE
| NAME_VALUE | OBJECT_TYPE | OPERATION | PROTOCOL_VERSION | PROTOCOL_VERSION_MAJOR
| PROTOCOL_VERSION_MINOR | QUERY_FUNCTION | REQUEST_HEADER | REQUEST_MESSAGE | REQUEST_PAYLOAD
| RESPONSE_HEADER | RESPONSE_MESSAGE | RESPONSE_PAYLOAD | RESULT_MESSAGE | RESULT_REASON
| RESULT_STATUS | STATE | SYMMETRIC_KEY | TEMPLATE_ATTRIBUTE | TIME_STAMP
| UNIQUE_BATCH_ITEM_ID | UNIQUE_IDENTIFIER | VENDOR_IDENTIFICATION.

(** The values of [Tag]. *)
Definition tag_value (t : Tag) : Z :=
  match t with
  | ACTIVATION_DATE => 0x420001
  | ATTRIBUTE => 0x420008
  | ATTRIBUTE_NAME => 0x42000A
  | ATTRIBUTE_VALUE => 0x42000B
  | BATCH_COUNT => 0x42000D
  | BATCH_ITEM => 0x42000F
  | CRYPTOGRAPHIC_ALGORITHM => 0x420028
  | CRYPTOGRAPHIC_LENGTH => 0x42002A
  | CRYPTOGRAPHIC_USAGE_MASK => 0x42002C
  | KEY_BLOCK => 0x420040
  | KEY_FORMAT_TYPE => 0x420042
  | KEY_MATERIAL => 0x420043
  | KEY_VALUE => 0x420045
  | MAXIMUM_RESPONSE_SIZE => 0x420050
  | NAME => 0x420053
  | NAME_TYPE => 0x420054
  | NAME_VALUE => 0x420055
  | OBJECT_TYPE => 0x420057
  | OPERATION => 0x42005C
  | PROTOCOL_VERSION => 0x420069
  | PROTOCOL_VERSION_MAJOR => 0x42006A
  | PROTOCOL_VERSION_MINOR => 0x42006B
  | QUERY_FUNCTION => 0x420074
  | REQUEST_HEADER => 0x420077
  | REQUEST_MESSAGE => 0x420078
  | REQUEST_PAYLOAD => 0x420079
  | RESPONSE_HEADER => 0x42007A
  | RESPONSE_MESSAGE => 0x42007B
  | RESPONSE_PAYLOAD => 0x42007C
  | RESULT_MESSAGE => 0x42007D
  | RESULT_REASON => 0x42007E
  | RESULT_STATUS => 0x42007F
  | STATE => 0x42008D
  | SYMMETRIC_KEY => 0x42008F
  | TEMPLATE_ATTRIBUTE => 0x420091
  | TIME_STAMP => 0x420092
  | UNIQUE_BATCH_ITEM_ID => 0x420093
  | UNIQUE_IDENTIFIER => 0x420094
  | VENDOR_IDENTIFICATION => 0x42009D
  end.
Coercion tag_value : Tag >-> Z.

(** [class Operation(IntEnum)], in definition order. *)
Inductive Operation : Type :=
| CREATE | LOCATE | GET | GET_ATTRIBUTES | GET_ATTRIBUTE_LIST | ACTIVATE | QUERY | DISCOVER_VERSIONS.

Definition operation_code (o : Operation) : Z :=
  match o with
  | CREATE => 0x01
  | LOCATE => 0x08
  | GET => 0x0A
  | GET_ATTRIBUTES => 0x0B
  | GET_ATTRIBUTE_LIST => 0x0C
  | ACTIVATE => 0x12
  | QUERY => 0x18
  | DISCOVER_VERSIONS => 0x1E
  end.
Coercion operation_code : Operation >-> Z.

(** [for operation in Operation]. *)
Definition operations : list Operation :=
  [CREATE; LOCATE; GET; GET_ATTRIBUTES; GET_ATTRIBUTE_LIST; ACTIVATE; QUERY; DISCOVER_VERSIONS].

(** [Operation(value)], [None] where the constructor raises [ValueError]. *)
Definition operation_of (value : Z) : option Operation :=
  List.find (fun o => operation_code o =? value) operations.

(** [class ResultStatus(IntEnum)]. *)
Inductive ResultStatus : Type := SUCCESS | OPERATION_FAILED.
Definition status_code (s : ResultStatus) : Z := match s with SUCCESS => 0 | OPERATION_FAILED => 1 end.
Coercion status_code : ResultStatus >-> Z.

(** [class ResultReason(IntEnum)]. *)
Inductive ResultReason : Type :=
| ITEM_NOT_FOUND | INVALID_MESSAGE | OPERATION_NOT_SUPPORTED | MISSING_DATA | INVALID_FIELD
| KEY_FORMAT_TYPE_NOT_SUPPORTED | GENERAL_FAILURE.

Definition reason_code (r : ResultReason) : Z :=
  match r with
  | ITEM_NOT_FOUND => 1
  | INVALID_MESSAGE => 4
  | OPERATION_NOT_SUPPORTED => 5
  | MISSING_DATA => 6
  | INVALID_FIELD => 7
  | KEY_FORMAT_TYPE_NOT_SUPPORTED => 16
  | GENERAL_FAILURE => 256
  end.
Coercion reason_code : ResultReason >-> Z.

(** [class QueryFunction(IntEnum)]. *)
Inductive QueryFunction : Type := OPERATIONS | OBJECTS | SERVER_INFORMATION.
Definition query_code (q : QueryFunction) : Z :=
  match q with OPERATIONS => 1 | OBJECTS => 2 | SERVER_INFORMATION => 3 end.
Coercion query_code : QueryFunction >-> Z.

Definition OBJECT_TYPE_SYMMETRIC_KEY : Z := 2.
Definition CRYPTOGRAPHIC_ALGORITHM_AES : Z := 3.
Definition KEY_FORMAT_TYPE_RAW : Z := 1.
Definition NAME_TYPE_UNINTERPRETED_TEXT_STRING : Z := 1.
Definition STATE_PRE_ACTIVE : Z := 1.
Definition STATE_ACTIVE : Z := 2.
Definition USAGE_ENCRYPT_DECRYPT : Z := 0x0C.
Definition MAX_BATCH_ITEMS : Z := 16.
Definition SUPPORTED_PROTOCOL_VERSIONS : list (Z * Z) := [(1, 4); (1, 1)].

(** The keys of [ATTRIBUTE_TAGS]. *)
Definition ATTRIBUTE_TAGS : list pystr :=
  [str "Activation Date"; str "Cryptographic Algorithm"; str "Cryptographic Length";
   str "Cryptographic Usage Mask"; str "Name"; str "Object Type"; str "State";
   str "Unique Identifier"].

(** [try: c except TtlvError as exc: raise ProtocolFailure(reason, message) from exc]. *)
Definition catches_TtlvError (e : exn) : bool := match e with TtlvError _ => true | _ => false end.

Definition or_fail {A} (reason : ResultReason) (message : string) (r : res A) : res A :=
  rethrow catches_TtlvError (ProtocolFailure reason message) r.

(* ------------------------------------------------------------------ *)
(** ** Field access *)

(** [_value]. *)
Definition _value (node : Ttlv) (expected_type : TtlvType) : res TtlvValue :=
  _ ← raise_if (negb (bool_decide (type node = expected_type)))
      (ProtocolFailure INVALID_FIELD "A KMIP field has the wrong TTLV type.");
  match value node with
  | VTuple _ => Raise AssertionError
  | v => Ok v
  end.

(** [_integer_value]. *)
Definition _integer_value (node : Ttlv) (expected_type : TtlvType) : res Z :=
  v ← _value node expected_type;
  match v with
  | VInt z => Ok z
  | _ => Raise (ProtocolFailure INVALID_FIELD "A KMIP numeric field is invalid.")
  end.

(** [_text_value]. *)
Definition _text_value (node : Ttlv) : res pystr :=
  v ← _value node TEXT_STRING;
  match v with
  | VStr s => Ok s
  | _ => Raise (ProtocolFailure INVALID_FIELD "A KMIP text field is invalid.")
  end.

(** [_required_child]. *)
Definition _required_child (node : Ttlv) (t : Tag) : res Ttlv :=
  c ← or_fail MISSING_DATA "A required KMIP field is missing." (child node t true);
  match c with
  | None => Raise AssertionError
  | Some c => Ok c
  end.

(** [_optional_batch_item_id]. *)
Definition _optional_batch_item_id (node : Ttlv) : res (option bytes) :=
  batch_item_id ← child node UNIQUE_BATCH_ITEM_ID false;
  match batch_item_id with
  | None => Ok None
  | Some n =>
    match type n, value n with
    | BYTE_STRING, VBytes b => Ok (Some b)
    | _, _ => Raise (ProtocolFailure INVALID_MESSAGE "Unique Batch Item ID must be a Byte String.")
    end
  end.

(** [_protocol_version]. *)
Definition _protocol_version (node : Ttlv) : res (Z * Z) :=
  _ ← raise_if (negb (bool_decide (type node = STRUCTURE)))
      (ProtocolFailure INVALID_FIELD "Protocol Version must be a structure.");
  _ ← or_fail INVALID_FIELD "Protocol Version contains unsupported fields."
      (assert_only_tags node [tag_value PROTOCOL_VERSION_MAJOR; tag_value PROTOCOL_VERSION_MINOR]);
  major_node ← _required_child node PROTOCOL_VERSION_MAJOR;
  major ← _integer_value major_node INTEGER;
  minor_node ← _required_child node PROTOCOL_VERSION_MINOR;
  minor ← _integer_value minor_node INTEGER;
  Ok (major, minor).

(** [_version_node]. *)
Definition _version_node (version : Z * Z) : Ttlv :=
  structure PROTOCOL_VERSION
    [integer PROTOCOL_VERSION_MAJOR version.1; integer PROTOCOL_VERSION_MINOR version.2].

(** [_attribute]. *)
Definition _attribute (name : pystr) (v : Ttlv) : Ttlv :=
  structure ATTRIBUTE [text_string ATTRIBUTE_NAME name; MkTtlv ATTRIBUTE_VALUE (type v) (value v)].

(* ------------------------------------------------------------------ *)
(** ** Timestamps read back *)

(** Days from 1970-01-01 to a proleptic Gregorian date. *)
Definition days_from_civil (y m d : Z) : Z :=
  let y := if m <=? 2 then y - 1 else y in
  let era := y / 400 in
  let yoe := y mod 400 in
  let doy := (153 * (if 2 <? m then m - 3 else m + 9) + 2) / 5 + d - 1 in
  era * 146097 + (yoe * 365 + yoe / 4 - yoe / 100 + doy) - 719468.

Definition is_leap (y : Z) : bool := (y mod 4 =? 0) && (negb (y mod 100 =? 0) || (y mod 400 =? 0)).

Definition days_in_month (y m : Z) : Z :=
  if m =? 2 then (if is_leap y then 29 else 28)
  else if mem m [4; 6; 9; 11] then 30 else 31.

(** A field of exactly [n] decimal digits at offset [i]. *)
Definition decimal_field (s : pystr) (i n : nat) : res Z :=
  let f := take n (drop i s) in
  if ((length f =? n)%nat && forallb is_digit f) then Ok (of_digits 10 (map (fun c => c - 48) f))
  else Raise (ValueError "Invalid isoformat string").

(** [datetime.fromisoformat(s)] in microseconds since 1970, for the text that
    [datetime.isoformat] gives an instant in UTC; any other text raises. *)
Definition fromisoformat (s : pystr) : res Z :=
  let invalid := ValueError "Invalid isoformat string" in
  y ← decimal_field s 0 4;
  m ← decimal_field s 5 2;
  d ← decimal_field s 8 2;
  hh ← decimal_field s 11 2;
  mm ← decimal_field s 14 2;
  ss ← decimal_field s 17 2;
  let '(fraction, rest) :=
    match drop 19 s with
    | c :: r => if c =? 46 then (decimal_field r 0 6, drop 6 r) else (Ok 0, c :: r)
    | [] => (Ok 0, [])
    end in
  us ← fraction;
  _ ← raise_if (negb (bool_decide
        (drop 4 (take 5 s) = str "-" /\ drop 7 (take 8 s) = str "-" /\ drop 10 (take 11 s) = str "T" /\
         drop 13 (take 14 s) = str ":" /\ drop 16 (take 17 s) = str ":" /\ rest = str "+00:00"))) invalid;
  _ ← raise_if (negb ((1 <=? y) && (1 <=? m) && (m <=? 12) && (1 <=? d) && (d <=? days_in_month y m) &&
                      (hh <=? 23) && (mm <=? 59) && (ss <=? 59))) invalid;
  Ok ((days_from_civil y m d * 86400 + hh * 3600 + mm * 60 + ss) * 1000000 + us).

(** [int(instant.timestamp())]: the quotient is exact in binary64 for every instant
    before the year 2242. *)
Definition timestamp_seconds (us : Z) : Z := Z.quot us 1000000.

(** [_metadata_attribute]. *)
Definition _metadata_attribute (name : pystr) (metadata : StoredKey) : res Ttlv :=
  if decide (name = str "Cryptographic Algorithm") then
    Ok (_attribute name (enumeration ATTRIBUTE_VALUE CRYPTOGRAPHIC_ALGORITHM_AES))
  else if decide (name = str "Cryptographic Length") then
    Ok (_attribute name (integer ATTRIBUTE_VALUE 256))
  else if decide (name = str "Cryptographic Usage Mask") then
    Ok (_attribute name (integer ATTRIBUTE_VALUE USAGE_ENCRYPT_DECRYPT))
  else if decide (name = str "Object Type") then
    Ok (_attribute name (enumeration ATTRIBUTE_VALUE OBJECT_TYPE_SYMMETRIC_KEY))
  else if decide (name = str "State") then
    let state := if decide (sk_state metadata = Active) then STATE_ACTIVE else STATE_PRE_ACTIVE in
    Ok (_attribute name (enumeration ATTRIBUTE_VALUE state))
  else if decide (name = str "Unique Identifier") then
    Ok (_attribute name (text_string ATTRIBUTE_VALUE (sk_key_id metadata)))
  else if decide (name = str "Activation Date") then
    match sk_activated_at metadata with
    | None => Raise (ProtocolFailure INVALID_FIELD "Activation Date is unavailable for a pre-active key.")
    | Some activated_at =>
      instant ← fromisoformat activated_at;
      Ok (_attribute name (date_time ATTRIBUTE_VALUE (timestamp_seconds instant)))
    end
  else if decide (name = str "Name") then
    match sk_name metadata with
    | None => Raise (ProtocolFailure INVALID_FIELD "Name is unavailable for this key.")
    | Some n =>
      Ok (_attribute name (structure ATTRIBUTE_VALUE
            [text_string NAME_VALUE n; enumeration NAME_TYPE NAME_TYPE_UNINTERPRETED_TEXT_STRING]))
    end
  else
    match dict_get name (dict_of (sk_custom_attributes metadata)) with
    | Some custom_value => Ok (_attribute name (text_string ATTRIBUTE_VALUE custom_value))
    | None => Raise (ProtocolFailure INVALID_FIELD "Requested KMIP attribute is unsupported.")
    end.

(* ------------------------------------------------------------------ *)
(** ** Parsing *)

(** [_parse_name]. *)
Definition _parse_name (node : Ttlv) : res pystr :=
  _ ← raise_if (negb (bool_decide (type node = STRUCTURE)))
      (ProtocolFailure INVALID_FIELD "Name must be a structure.");
  _ ← or_fail INVALID_FIELD "Name contains unsupported fields."
      (assert_only_tags node [tag_value NAME_VALUE; tag_value NAME_TYPE]);
  name_node ← _required_child node NAME_VALUE;
  name ← _text_value name_node;
  type_node ← _required_child node NAME_TYPE;
  name_type ← _integer_value type_node ENUMERATION;
  _ ← raise_if (negb (name_type =? NAME_TYPE_UNINTERPRETED_TEXT_STRING))
      (ProtocolFailure INVALID_FIELD "Only Uninterpreted Text String names are supported.");
  _ ← raise_if (negb ((1 <=? zlen name) && (zlen name <=? 256)))
      (ProtocolFailure INVALID_FIELD "Name must contain 1 to 256 characters.");
  Ok name.

(** A parsed attribute: [int | str]. *)
Inductive AttributeValue : Type :=
| AInt (z : Z)
| AStr (s : pystr).

#[global] Instance AttributeValue_eq_dec : EqDecision AttributeValue.
Proof. solve_decision. Defined.

(** The value of one template attribute. *)
Definition attribute_value (name : pystr) (string_names : list pystr) (raw_value : Ttlv)
    : res AttributeValue :=
  if decide (name = str "Name") then AStr <$> _parse_name raw_value
  else if mem name string_names then
    v ← _text_value raw_value;
    encoded ← rethrow (fun e => match e with UnicodeEncodeError => true | _ => false end)
                (ProtocolFailure INVALID_FIELD "Custom attribute value is not valid UTF-8 text.")
                (utf8_encode v);
    _ ← raise_if (MAX_CUSTOM_ATTRIBUTE_VALUE_BYTES <? zlen encoded)
        (ProtocolFailure INVALID_FIELD "Custom attribute values exceed the supported UTF-8 byte limit.");
    Ok (AStr v)
  else
    let expected := if mem name [str "Cryptographic Algorithm"; str "Object Type"; str "State"]
                    then ENUMERATION else INTEGER in
    AInt <$> _integer_value raw_value expected.

(** The loop of [_parse_template_attributes]. *)
Fixpoint parse_attributes (allowed_names string_names : list pystr) (attributes : list Ttlv)
    (result : list (pystr * AttributeValue)) : res (list (pystr * AttributeValue)) :=
  match attributes with
  | [] => Ok result
  | attribute :: rest =>
    _ ← raise_if (negb (bool_decide (type attribute = STRUCTURE)))
        (ProtocolFailure INVALID_FIELD "Attribute must be a structure.");
    _ ← or_fail INVALID_FIELD "Attribute contains unsupported fields."
        (assert_only_tags attribute [tag_value ATTRIBUTE_NAME; tag_value ATTRIBUTE_VALUE]);
    name_node ← _required_child attribute ATTRIBUTE_NAME;
    name ← _text_value name_node;
    _ ← raise_if (mem name result.*1)
        (ProtocolFailure INVALID_FIELD "Duplicate KMIP attributes are unsupported.");
    _ ← raise_if (negb (mem name allowed_names))
        (ProtocolFailure INVALID_FIELD "Create attribute is outside the allowlist.");
    raw_value ← _required_child attribute ATTRIBUTE_VALUE;
    v ← attribute_value name string_names raw_value;
    parse_attributes allowed_names string_names rest (dict_set name v result)
  end.

(** [_parse_template_attributes]. *)
Definition _parse_template_attributes (template : Ttlv) (allowed_names string_names : list pystr)
    : res (list (pystr * AttributeValue)) :=
  _ ← raise_if (negb (bool_decide (type template = STRUCTURE)))
      (ProtocolFailure INVALID_FIELD "Template Attribute must be a structure.");
  _ ← or_fail INVALID_FIELD "Template Attribute contains unsupported fields."
      (assert_only_tags template [tag_value ATTRIBUTE]);
  attributes ← children template (Some (tag_value ATTRIBUTE));
  parse_attributes allowed_names string_names attributes [].

(** [_unique_identifier]. *)
Definition _unique_identifier (payload : Ttlv) : res pystr :=
  node ← _required_child payload UNIQUE_IDENTIFIER;
  v ← _text_value node;
  _ ← raise_if (match v with [] => true | _ => false end)
      (ProtocolFailure INVALID_FIELD "Unique Identifier must not be empty.");
  Ok v.

(* ------------------------------------------------------------------ *)
(** ** The store the dispatcher calls *)

(** The methods of [WrappedKeyStore] that [KmipDispatcher] uses, over a state [S]. *)
Class KeyStore (S : Type) : Type := {
  ks_create : pystr -> option pystr -> list (pystr * pystr) -> ST S StoredKey;
  ks_activate : pystr -> pystr -> ST S StoredKey;
  ks_get : pystr -> pystr -> ST S (StoredKey * bytes);
  ks_metadata : pystr -> pystr -> ST S StoredKey;
  ks_locate : pystr -> option pystr -> option pystr -> Z -> ST S (list pystr)
}.

(* ------------------------------------------------------------------ *)
(** ** [KmipDispatcher] *)

(** [sorted(VSPHERE_CUSTOM_ATTRIBUTES)]. *)
Definition sorted_custom_attributes : list pystr := sorted_str VSPHERE_CUSTOM_ATTRIBUTES.

(** The attributes of a key, in the order of the response. *)
Definition standard_names : list pystr :=
  [str "Cryptographic Algorithm"; str "Cryptographic Length"; str "Cryptographic Usage Mask";
   str "Object Type"; str "State"; str "Unique Identifier"].

Definition attribute_names (metadata : StoredKey) : list pystr :=
  standard_names ++
  (match sk_name metadata with Some _ => [str "Name"] | None => [] end) ++
  (match sk_activated_at metadata with Some _ => [str "Activation Date"] | None => [] end) ++
  filter (fun name => name ∈ (dict_of (sk_custom_attributes metadata)).*1) sorted_custom_attributes.

Section Dispatcher.
Context {S : Type} `{KeyStore S}.

(** The key attributes [_create] takes from the template. *)
Definition create_names : list pystr :=
  [str "Cryptographic Algorithm"; str "Cryptographic Length"; str "Cryptographic Usage Mask"; str "Name"]
  ++ VSPHERE_CUSTOM_ATTRIBUTES.

(** The name and the custom attributes of a Create, from its template attributes. *)
Definition create_fields (attributes : list (pystr * AttributeValue)) : res (option pystr * list (pystr * pystr)) :=
  _ ← raise_if (negb (bool_decide (dict_get (str "Cryptographic Algorithm") attributes
                                   = Some (AInt CRYPTOGRAPHIC_ALGORITHM_AES))))
      (ProtocolFailure INVALID_FIELD "Only AES keys are supported.");
  _ ← raise_if (negb (bool_decide (dict_get (str "Cryptographic Length") attributes = Some (AInt 256))))
      (ProtocolFailure INVALID_FIELD "Only AES-256 keys are supported.");
  let usage := default (AInt USAGE_ENCRYPT_DECRYPT) (dict_get (str "Cryptographic Usage Mask") attributes) in
  _ ← raise_if (negb (bool_decide (usage = AInt USAGE_ENCRYPT_DECRYPT)))
      (ProtocolFailure INVALID_FIELD "Only Encrypt and Decrypt key usage is supported.");
  name ← match dict_get (str "Name") attributes with
         | None => Ok None
         | Some (AStr n) => Ok (Some n)
         | Some (AInt _) => Raise AssertionError
         end;
  Ok (name, omap (fun attribute_name =>
                    match dict_get attribute_name attributes with
                    | Some (AStr v) => Some (attribute_name, v)
                    | _ => None
                    end) sorted_custom_attributes).

(** What a Create payload asks for: the name and the custom attributes. *)
Definition create_request (payload : Ttlv) : res (option pystr * list (pystr * pystr)) :=
  _ ← or_fail INVALID_FIELD "Create contains unsupported fields."
      (assert_only_tags payload [tag_value OBJECT_TYPE; tag_value TEMPLATE_ATTRIBUTE]);
  object_node ← _required_child payload OBJECT_TYPE;
  object_type ← _integer_value object_node ENUMERATION;
  _ ← raise_if (negb (object_type =? OBJECT_TYPE_SYMMETRIC_KEY))
      (ProtocolFailure INVALID_FIELD "Only Symmetric Key objects are supported.");
  template ← _required_child payload TEMPLATE_ATTRIBUTE;
  attributes ← _parse_template_attributes template create_names VSPHERE_CUSTOM_ATTRIBUTES;
  create_fields attributes.

(** [_create]. *)
Definition _create (provider_id : pystr) (payload : Ttlv) : ST S (list Ttlv) :=
  '(name, custom_attributes) ← lift (create_request payload);
  metadata ← ks_create provider_id name custom_attributes;
  mret [enumeration OBJECT_TYPE OBJECT_TYPE_SYMMETRIC_KEY;
        text_string UNIQUE_IDENTIFIER (sk_key_id metadata)].

(** [_activate]. *)
Definition _activate (provider_id : pystr) (payload : Ttlv) : ST S (list Ttlv) :=
  _ ← lift (or_fail INVALID_FIELD "Activate contains unsupported fields."
              (assert_only_tags payload [tag_value UNIQUE_IDENTIFIER]));
  key_id ← lift (_unique_identifier payload);
  _ ← ks_activate provider_id key_id;
  mret [text_string UNIQUE_IDENTIFIER key_id].

(** The key object of a Get response. *)
Definition key_object (plaintext : bytes) : Ttlv :=
  structure SYMMETRIC_KEY
    [structure KEY_BLOCK
       [enumeration KEY_FORMAT_TYPE KEY_FORMAT_TYPE_RAW;
        structure KEY_VALUE [byte_string KEY_MATERIAL plaintext];
        enumeration CRYPTOGRAPHIC_ALGORITHM CRYPTOGRAPHIC_ALGORITHM_AES;
        integer CRYPTOGRAPHIC_LENGTH 256]].

(** [_get]. *)
Definition _get (provider_id : pystr) (payload : Ttlv) : ST S (list Ttlv) :=
  _ ← lift (or_fail INVALID_FIELD "Get contains unsupported fields."
              (assert_only_tags payload [tag_value UNIQUE_IDENTIFIER; tag_value KEY_FORMAT_TYPE]));
  format_node ← lift (child payload KEY_FORMAT_TYPE false);
  _ ← match format_node with
      | None => mret tt
      | Some n =>
        format ← lift (_integer_value n ENUMERATION);
        lift (raise_if (negb (format =? KEY_FORMAT_TYPE_RAW))
          (ProtocolFailure KEY_FORMAT_TYPE_NOT_SUPPORTED "Only Raw symmetric key format is supported."))
      end;
  key_id ← lift (_unique_identifier payload);
  '(metadata, plaintext) ← ks_get provider_id key_id;
  _ ← lift (raise_if (negb (mem (sk_state metadata) [Pre_Active; Active]))
        (ProtocolFailure INVALID_FIELD "Only Pre-Active or Active KMIP keys may be retrieved."));
  mret [enumeration OBJECT_TYPE OBJECT_TYPE_SYMMETRIC_KEY;
        text_string UNIQUE_IDENTIFIER (sk_key_id metadata);
        key_object plaintext].

(** [_get_attribute_list]. *)
Definition _get_attribute_list (provider_id : pystr) (payload : Ttlv) : ST S (list Ttlv) :=
  _ ← lift (or_fail INVALID_FIELD "Get Attribute List contains unsupported fields."
              (assert_only_tags payload [tag_value UNIQUE_IDENTIFIER]));
  key_id ← lift (_unique_identifier payload);
  metadata ← ks_metadata provider_id key_id;
  mret (text_string UNIQUE_IDENTIFIER (sk_key_id metadata)
          :: map (text_string ATTRIBUTE_NAME) (attribute_names metadata)).

(** The attributes of [metadata] that Get Attributes answers for [requested]. *)
Definition present_names (metadata : StoredKey) (requested : list pystr) : res (list pystr) :=
  let names := match requested with [] => attribute_names metadata | _ => requested end in
  let supported_names := ATTRIBUTE_TAGS ++ VSPHERE_CUSTOM_ATTRIBUTES in
  _ ← raise_if (negb (all_distinct names) || negb (forallb (fun name => mem name supported_names) names))
      (ProtocolFailure INVALID_FIELD "Requested attributes are invalid.");
  Ok (filter (fun name =>
        name ∈ (dict_of (sk_custom_attributes metadata)).*1 \/
        ((name ∉ VSPHERE_CUSTOM_ATTRIBUTES) /\
         (~ (sk_name metadata = None /\ name = str "Name")) /\
         (~ (sk_activated_at metadata = None /\ name = str "Activation Date")))) names).

(** [_get_attributes]. *)
Definition _get_attributes (provider_id : pystr) (payload : Ttlv) : ST S (list Ttlv) :=
  _ ← lift (or_fail INVALID_FIELD "Get Attributes contains unsupported fields."
              (assert_only_tags payload [tag_value UNIQUE_IDENTIFIER; tag_value ATTRIBUTE_NAME]));
  key_id ← lift (_unique_identifier payload);
  metadata ← ks_metadata provider_id key_id;
  name_nodes ← lift (children payload (Some (tag_value ATTRIBUTE_NAME)));
  requested ← lift (mapM _text_value name_nodes);
  names ← lift (present_names metadata requested);
  attributes ← lift (mapM (fun name => _metadata_attribute name metadata) names);
  mret (text_string UNIQUE_IDENTIFIER (sk_key_id metadata) :: attributes).

Definition locate_names : list pystr :=
  [str "Cryptographic Algorithm"; str "Cryptographic Length"; str "Name"; str "Object Type"; str "State"].

(** The state and name a Locate payload filters by; [None] when no key can match. *)
Definition locate_filters (attributes : list Ttlv) : res (option (option pystr * option pystr)) :=
  match attributes with
  | [] => Ok (Some (None, None))
  | _ =>
    filters ← _parse_template_attributes (structure TEMPLATE_ATTRIBUTE attributes) locate_names [];
    let differs (name : string) v := negb (bool_decide (default v (dict_get (str name) filters) = v)) in
    if differs "Cryptographic Algorithm"%string (AInt CRYPTOGRAPHIC_ALGORITHM_AES) then Ok None
    else if differs "Cryptographic Length"%string (AInt 256) then Ok None
    else if differs "Object Type"%string (AInt OBJECT_TYPE_SYMMETRIC_KEY) then Ok None
    else
      let raw_state := dict_get (str "State") filters in
      if negb (mem raw_state [None; Some (AInt STATE_PRE_ACTIVE); Some (AInt STATE_ACTIVE)]) then Ok None
      else
        let state := if decide (raw_state = Some (AInt STATE_PRE_ACTIVE)) then Some Pre_Active
                     else if decide (raw_state = Some (AInt STATE_ACTIVE)) then Some Active else None in
        match dict_get (str "Name") filters with
        | None => Ok (Some (state, None))
        | Some (AStr n) => Ok (Some (state, Some n))
        | Some (AInt _) => Raise AssertionError
        end
  end.

(** [_locate]; [limit] of [locate_keys] takes its default. *)
Definition _locate (provider_id : pystr) (payload : Ttlv) : ST S (list Ttlv) :=
  _ ← lift (or_fail INVALID_FIELD "Locate contains unsupported fields."
              (assert_only_tags payload [tag_value MAXIMUM_RESPONSE_SIZE; tag_value ATTRIBUTE]));
  attributes ← lift (children payload (Some (tag_value ATTRIBUTE)));
  filters ← lift (locate_filters attributes);
  match filters with
  | None => mret []
  | Some (state, name) =>
    key_ids ← ks_locate provider_id state name 1024;
    mret (map (text_string UNIQUE_IDENTIFIER) key_ids)
  end.

(** The nodes [_query] answers one function with. *)
Definition query_function (function : Z) : res (list Ttlv) :=
  if function =? OPERATIONS then Ok (map (fun o => enumeration OPERATION (operation_code o)) operations)
  else if function =? OBJECTS then Ok [enumeration OBJECT_TYPE OBJECT_TYPE_SYMMETRIC_KEY]
  else if function =? SERVER_INFORMATION then Ok [text_string VENDOR_IDENTIFICATION (str "Atlaso")]
  else Raise (ProtocolFailure OPERATION_NOT_SUPPORTED "Query Function is outside the supported contract.").

(** [_query]. *)
Definition _query (payload : Ttlv) : res (list Ttlv) :=
  _ ← or_fail INVALID_FIELD "Query contains unsupported fields."
      (assert_only_tags payload [tag_value QUERY_FUNCTION]);
  nodes ← children payload (Some (tag_value QUERY_FUNCTION));
  requested ← mapM (fun node => _integer_value node ENUMERATION) nodes;
  _ ← raise_if (match requested with [] => true | _ => false end)
      (ProtocolFailure MISSING_DATA "Query Function is required.");
  _ ← raise_if (negb (all_distinct requested))
      (ProtocolFailure INVALID_FIELD "Query Function must not be duplicated.");
  (fun l => concat l) <$> mapM query_function requested.

(** [_discover_versions]. *)
Definition _discover_versions (payload : Ttlv) : res (list Ttlv) :=
  _ ← or_fail INVALID_FIELD "Discover Versions contains unsupported fields."
      (assert_only_tags payload [tag_value PROTOCOL_VERSION]);
  nodes ← children payload (Some (tag_value PROTOCOL_VERSION));
  offered_versions ← mapM _protocol_version nodes;
  match offered_versions with
  | [] => Ok (map _version_node SUPPORTED_PROTOCOL_VERSIONS)
  | offered => Ok (map _version_node (filter (fun version => version ∈ offered) SUPPORTED_PROTOCOL_VERSIONS))
  end.

(** [_dispatch_operation]. *)
Definition _dispatch_operation (provider_id : pystr) (operation : Operation) (payload : Ttlv)
    : ST S (list Ttlv) :=
  _ ← lift (raise_if (negb (bool_decide (type payload = STRUCTURE)))
        (ProtocolFailure INVALID_FIELD "Request Payload must be a structure."));
  match operation with
  | QUERY => lift (_query payload)
  | DISCOVER_VERSIONS => lift (_discover_versions payload)
  | CREATE => _create provider_id payload
  | ACTIVATE => _activate provider_id payload
  | GET => _get provider_id payload
  | GET_ATTRIBUTES => _get_attributes provider_id payload
  | GET_ATTRIBUTE_LIST => _get_attribute_list provider_id payload
  | LOCATE => _locate provider_id payload
  end.

Definition id_node (batch_item_id : option bytes) : list Ttlv :=
  match batch_item_id with Some b => [byte_string UNIQUE_BATCH_ITEM_ID b] | None => [] end.

(** [_failed_batch]. *)
Definition _failed_batch (operation_value : Z) (reason : Z) (message : string)
    (batch_item_id : option bytes) : Ttlv :=
  structure BATCH_ITEM
    ([enumeration OPERATION operation_value] ++ id_node batch_item_id ++
     [enumeration RESULT_STATUS OPERATION_FAILED; enumeration RESULT_REASON reason;
      text_string RESULT_MESSAGE (str message)]).

(** The batch item of a success. *)
Definition succeeded_batch (operation : Operation) (batch_item_id : option bytes) (result : list Ttlv) : Ttlv :=
  structure BATCH_ITEM
    ([enumeration OPERATION operation] ++ id_node batch_item_id ++
     [enumeration RESULT_STATUS SUCCESS; structure RESPONSE_PAYLOAD result]).

(** The reason and message the [except] clauses of [dispatch] answer with. *)
Definition batch_failure (e : exn) : option (Z * string) :=
  match e with
  | TtlvError _ => Some (reason_code INVALID_MESSAGE, "Batch Item contains invalid TTLV.")
  | KeyNotFoundError _ =>
    Some (reason_code ITEM_NOT_FOUND, "KMIP key was not found in the authenticated provider.")
  | KeyStateError _ => Some (reason_code INVALID_FIELD, "KMIP key state is invalid.")
  | KeyStoreError _ => Some (reason_code GENERAL_FAILURE, "KMIP operational store request failed.")
  | ProtocolFailure reason message => Some (reason, message)
  | _ => None
  end%string.

(** The handlers, given the local variables at the time of the exception. *)
Definition answer_failure (operation_value : Z) (batch_item_id : option bytes) (e : exn) : ST S Ttlv :=
  match batch_failure e with
  | Some (reason, message) => mret (_failed_batch operation_value reason message batch_item_id)
  | None => lift (Raise e)
  end.

(** [c], whose exceptions the handlers answer, then [k]. *)
Definition attempt {A} (operation_value : Z) (batch_item_id : option bytes) (c : ST S A)
    (k : A -> ST S Ttlv) : ST S Ttlv := fun s =>
  match c s with
  | (Ok a, s') => k a s'
  | (Raise e, s') => answer_failure operation_value batch_item_id e s'
  end.

(** Counting correlation identifiers: a dictionary from identifiers to counts. *)
Fixpoint id_count (b : bytes) (counts : list (bytes * Z)) : option Z :=
  match counts with
  | [] => None
  | (k, n) :: counts => if decide (k = b) then Some n else id_count b counts
  end.

Fixpoint count_id (b : bytes) (counts : list (bytes * Z)) : list (bytes * Z) :=
  match counts with
  | [] => [(b, 1)]
  | (k, n) :: counts => if decide (k = b) then (k, n + 1) :: counts else (k, n) :: count_id b counts
  end.

(** The first loop of [dispatch]: [batch_id_counts]. *)
Definition batch_id_counts (batch_items : list Ttlv) : res (list (bytes * Z)) :=
  fold_left (fun counts item =>
    counts ← counts;
    match _optional_batch_item_id item with
    | Ok None => Ok counts
    | Ok (Some b) => Ok (count_id b counts)
    | Raise e => match e with ProtocolFailure _ _ | TtlvError _ => Ok counts | _ => Raise e end
    end) batch_items (Ok []).

(** The checks of a batch item between its identification and its operation. *)
Definition check_batch_item (batch_count : Z) (counts : list (bytes * Z)) (batch_item_id : option bytes)
    (operation_value : Z) : res Operation :=
  _ ← match batch_item_id with
      | None => raise_if (1 <? batch_count)
                  (ProtocolFailure INVALID_MESSAGE "Unique Batch Item ID is required for multi-item requests.")
      | Some b =>
        match id_count b counts with
        | None => Raise KeyError
        | Some n => raise_if (1 <? n)
                      (ProtocolFailure INVALID_MESSAGE "Unique Batch Item IDs must be unique within the request.")
        end
      end;
  match operation_of operation_value with
  | None => Raise (ProtocolFailure OPERATION_NOT_SUPPORTED "Operation is outside the supported contract.")
  | Some operation => Ok operation
  end.

(** One iteration of the second loop of [dispatch]. *)
Definition dispatch_item (provider_id : pystr) (batch_count : Z) (counts : list (bytes * Z)) (item : Ttlv)
    : ST S Ttlv :=
  attempt 0 None (lift (
    _ ← raise_if (negb (bool_decide (type item = STRUCTURE)))
        (ProtocolFailure INVALID_MESSAGE "Batch Item must be a structure.");
    _optional_batch_item_id item)) (fun batch_item_id =>
  attempt 0 batch_item_id (lift (
    _ ← assert_only_tags item
          [tag_value OPERATION; tag_value UNIQUE_BATCH_ITEM_ID; tag_value REQUEST_PAYLOAD];
    node ← _required_child item OPERATION;
    _integer_value node ENUMERATION)) (fun operation_value =>
  attempt operation_value batch_item_id (
    operation ← lift (check_batch_item batch_count counts batch_item_id operation_value);
    payload ← lift (_required_child item REQUEST_PAYLOAD);
    result ← _dispatch_operation provider_id operation payload;
    mret (succeeded_batch operation batch_item_id result)) mret)).

Fixpoint dispatch_items (provider_id : pystr) (batch_count : Z) (counts : list (bytes * Z))
    (items : list Ttlv) : ST S (list Ttlv) :=
  match items with
  | [] => mret []
  | item :: items =>
    response ← dispatch_item provider_id batch_count counts item;
    responses ← dispatch_items provider_id batch_count counts items;
    mret (response :: responses)
  end.

(** The checks of the request before its items: the version and the items. *)
Definition request_items (request : Ttlv) : res ((Z * Z) * list Ttlv) :=
  _ ← raise_if (negb (bool_decide (tag request = REQUEST_MESSAGE)) || negb (bool_decide (type request = STRUCTURE)))
      (ProtocolFailure INVALID_MESSAGE "Root TTLV must be Request Message.");
  _ ← or_fail INVALID_MESSAGE "Request Message contains unsupported fields."
      (assert_only_tags request [tag_value REQUEST_HEADER; tag_value BATCH_ITEM]);
  header ← _required_child request REQUEST_HEADER;
  _ ← raise_if (negb (bool_decide (type header = STRUCTURE)))
      (ProtocolFailure INVALID_MESSAGE "Request Header must be a structure.");
  _ ← or_fail INVALID_MESSAGE "Request Header contains unsupported fields."
      (assert_only_tags header
         [tag_value PROTOCOL_VERSION; tag_value MAXIMUM_RESPONSE_SIZE; tag_value BATCH_COUNT]);
  version_node ← _required_child header PROTOCOL_VERSION;
  request_version ← _protocol_version version_node;
  _ ← raise_if (negb (mem request_version SUPPORTED_PROTOCOL_VERSIONS))
      (ProtocolFailure INVALID_MESSAGE "The requested KMIP protocol version is not supported.");
  batch_items ← children request (Some (tag_value BATCH_ITEM));
  count_node ← _required_child header BATCH_COUNT;
  batch_count ← _integer_value count_node INTEGER;
  _ ← raise_if (negb (batch_count =? zlen batch_items) ||
                negb ((1 <=? batch_count) && (batch_count <=? MAX_BATCH_ITEMS)))
      (ProtocolFailure INVALID_MESSAGE "KMIP Batch Count is invalid.");
  Ok (request_version, batch_items).

(** The response message. *)
Definition response_message (version : Z * Z) (now : Z) (responses : list Ttlv) : Ttlv :=
  structure RESPONSE_MESSAGE
    (structure RESPONSE_HEADER
       [_version_node version; date_time TIME_STAMP now; integer BATCH_COUNT (zlen responses)]
     :: responses).

(** [dispatch]; [now] is [int(time.time())] when the response is built. *)
Definition dispatch (now : Z) (provider_id : pystr) (request : Ttlv) : ST S Ttlv :=
  '(request_version, batch_items) ← lift (request_items request);
  counts ← lift (batch_id_counts batch_items);
  responses ← dispatch_items provider_id (zlen batch_items) counts batch_items;
  mret (response_message request_version now responses).

End Dispatcher.
