(* ===== verification/ProtocolSpec.v ===== *)
(** Correctness of the dispatcher, proved against the interface [KeyStoreLaws] of
    the store: every item of a request is answered in order with its correlation
    identifier, a provider sees and changes its own keys only, and the responses
    are well-formed TTLV. *)

From S2P Require Import Prelude Utf8 PyText Uuid Json Ttlv World Store StoreSpec StoreInv Protocol.
Open Scope Z_scope.

(** The keys of a store: metadata and material by provider and key identifier. *)
Abbreviation keys := (gmap (pystr * pystr) (StoredKey * bytes)).

(** What a provider finds under an identifier. *)
Definition lookup_contents (c : keys) (provider_id key_id : pystr) : res (StoredKey * bytes) :=
  p ← _validated_uuid provider_id "provider_id must be a UUID.";
  k ← _validated_uuid key_id "key_id must be a UUID.";
  match c !! (p, k) with
  | Some x => Ok x
  | None => Raise (KeyNotFoundError "KMIP key was not found in the authenticated provider.")
  end.

(** What the dispatcher relies on: a relation [holds] between abstract keys and states
    that every method maintains.  A method that raises may or may not have had its
    effect. *)
Class KeyStoreLaws (S : Type) `{KeyStore S} : Type := {
  holds : keys -> S -> Prop;
  law_keys c s : holds c s -> map_Forall (fun k x => key_of x.1 = k /\ meta_ok x.1) c;
  law_create p n a c s : holds c s ->
    wp (ks_create p n a) (fun r s' =>
      (holds c s' /\ is_ok r = false) \/
      exists m plaintext, created p n a m /\ c !! key_of m = None /\
        holds (<[key_of m := (m, plaintext)]> c) s' /\ (is_ok r = true -> r = Ok m)) s;
  law_activate p k c s : holds c s ->
    wp (ks_activate p k) (fun r s' =>
      (holds c s' /\ (is_ok r = true ->
         exists m plaintext, r = Ok m /\ lookup_contents c p k = Ok (m, plaintext) /\ sk_state m = Active)) \/
      exists m plaintext at_, lookup_contents c p k = Ok (m, plaintext) /\ sk_state m = Pre_Active /\
        holds (<[key_of m := (activated m at_, plaintext)]> c) s' /\
        (is_ok r = true -> r = Ok (activated m at_))) s;
  law_get p k c s : holds c s ->
    wp (ks_get p k) (fun r s' => holds c s' /\ forall x, r = Ok x -> lookup_contents c p k = Ok x) s;
  law_metadata p k c s : holds c s ->
    wp (ks_metadata p k) (fun r s' => holds c s' /\
      forall m, r = Ok m -> exists plaintext, lookup_contents c p k = Ok (m, plaintext)) s;
  law_locate p st n l c s : holds c s ->
    wp (ks_locate p st n l) (fun r s' => holds c s' /\
      forall ids, r = Ok ids -> exists provider, _validated_uuid p "provider_id must be a UUID." = Ok provider /\
        Forall (fun id => is_Some (c !! (provider, id))) ids) s
}.

Lemma lookup_contents_Ok c p k x :
  lookup_contents c p k = Ok x ->
  exists provider key, _validated_uuid p "provider_id must be a UUID." = Ok provider /\ c !! (provider, key) = Some x.
Proof.
  unfold lookup_contents. intros E. apply bind_Ok in E as (p'&Hp&E). apply bind_Ok in E as (k'&_&E).
  destruct (c !! _) eqn:Ec; [|done]. injection E as ->. eauto.
Qed.

(* ------------------------------------------------------------------ *)
(** ** Answers *)

(** The operation and the correlation identifier that the answer to an item carries:
    those of the item as far as they can be read. *)
Definition item_header (item : Ttlv) : Z * option bytes :=
  match (_ ← raise_if (negb (bool_decide (type item = STRUCTURE)))
             (ProtocolFailure INVALID_MESSAGE "Batch Item must be a structure.");
         _optional_batch_item_id item) with
  | Raise _ => (0, None)
  | Ok batch_item_id =>
    match (_ ← assert_only_tags item
                 [tag_value OPERATION; tag_value UNIQUE_BATCH_ITEM_ID; tag_value REQUEST_PAYLOAD];
           node ← _required_child item OPERATION;
           _integer_value node ENUMERATION) with
    | Raise _ => (0, batch_item_id)
    | Ok operation_value => (operation_value, batch_item_id)
    end
  end.

(** [response] answers [item]: a failure with a reason, or a success whose operation is
    one of the supported ones. *)
Definition answers (item response : Ttlv) : Prop :=
  let '(operation_value, batch_item_id) := item_header item in
  (exists reason message, response = _failed_batch operation_value reason message batch_item_id) \/
  (exists operation result, operation_of operation_value = Some operation /\
     response = succeeded_batch operation batch_item_id result).

Section Answers.
Context {S : Type} `{KeyStore S}.

Lemma answer_failure_Ok o b e (s s' : S) t :
  answer_failure o b e s = (Ok t, s') -> exists reason message, t = _failed_batch o reason message b.
Proof.
  unfold answer_failure. destruct (batch_failure e) as [[reason message]|]; [|done].
  intros E. injection E as <- _. eauto.
Qed.

Lemma attempt_Ok {A} o b (c : ST S A) k s t s' :
  attempt o b c k s = (Ok t, s') ->
  (exists a s1, c s = (Ok a, s1) /\ k a s1 = (Ok t, s')) \/
  (exists e s1, c s = (Raise e, s1) /\ exists reason message, t = _failed_batch o reason message b).
Proof.
  unfold attempt. destruct (c s) as [[a|e] s1]; [eauto|]. intros E. right. exists e, s1.
  split; [done|]. by eapply answer_failure_Ok.
Qed.

Lemma check_batch_item_Ok n counts b v o :
  check_batch_item n counts b v = Ok o -> operation_of v = Some o.
Proof.
  unfold check_batch_item. intros E. apply bind_Ok in E as (?&_&E). by destruct (operation_of v); res_inv.
Qed.

Lemma dispatch_item_answers p n counts item (s s' : S) response :
  dispatch_item p n counts item s = (Ok response, s') -> answers item response.
Proof.
  unfold dispatch_item, answers, item_header. intros E.
  apply attempt_Ok in E as [(b&s1&E1&E)|(e&s1&E1&Hf)]; apply lift_run in E1 as [-> <-]; [|by left].
  apply attempt_Ok in E as [(v&s2&E2&E)|(e&s2&E2&Hf)]; apply lift_run in E2 as [-> <-]; [|by left].
  apply attempt_Ok in E as [(t&s3&E3&E)|(e&s3&_&Hf)]; [|by left].
  injection E as <- <-. right.
  apply run_bind_Ok in E3 as (o&s4&E4&E3). apply lift_run in E4 as [E4 <-]. apply check_batch_item_Ok in E4.
  apply run_bind_Ok in E3 as (payload&s5&_&E3). apply run_bind_Ok in E3 as (result&s6&_&E3).
  injection E3 as <- _. eauto.
Qed.

Lemma dispatch_items_answers p n counts items (s s' : S) responses :
  dispatch_items p n counts items s = (Ok responses, s') -> Forall2 answers items responses.
Proof.
  revert s s' responses; induction items as [|item items IH]; intros s s' responses E.
  - injection E as <- _. constructor.
  - cbn in E. apply run_bind_Ok in E as (t&s1&E1&E). apply run_bind_Ok in E as (ts&s2&E2&E).
    injection E as <- _. constructor; [by eapply dispatch_item_answers|by eapply IH].
Qed.

(** C35. A response message answers its request item by item: it has the request's
    protocol version, as many batch items as the request, in the same order, each with
    the operation and correlation identifier of its item, and a Batch Count between 1
    and 16 that counts them. *)
Theorem dispatch_answers now p request (s s' : S) response :
  dispatch now p request s = (Ok response, s') ->
  exists version items responses,
    request_items request = Ok (version, items) /\
    response = response_message version now responses /\
    Forall2 answers items responses /\ 1 <= zlen responses <= MAX_BATCH_ITEMS.
Proof.
  intros E. unfold dispatch in E. apply run_bind_Ok in E as ([v items]&s1&E1&E).
  apply lift_run in E1 as [Hreq _]. apply run_bind_Ok in E as (counts&s2&_&E).
  apply run_bind_Ok in E as (responses&s3&E3&E). injection E as <- _.
  apply dispatch_items_answers in E3. exists v, items, responses. split_and!; try done.
  all: apply Forall2_length in E3; unfold request_items in Hreq; res_inv; unfold zlen, MAX_BATCH_ITEMS in *; lia.
Qed.
End Answers.

(* ------------------------------------------------------------------ *)
(** ** Provider isolation *)

(** The key material in a node: the byte strings under the Key Material tag. *)
Fixpoint key_material (n : Ttlv) : list bytes :=
  match n with
  | MkTtlv t _ (VBytes b) => if t =? KEY_MATERIAL then [b] else []
  | MkTtlv _ _ (VTuple cs) =>
    (fix go cs := match cs with [] => [] | c :: cs' => key_material c ++ go cs' end) cs
  | _ => []
  end.

Fixpoint all_material (cs : list Ttlv) : list bytes :=
  match cs with [] => [] | c :: cs' => key_material c ++ all_material cs' end.

Lemma key_material_structure t cs : key_material (structure t cs) = all_material cs.
Proof. reflexivity. Qed.

Lemma all_material_app cs ds : all_material (cs ++ ds) = all_material cs ++ all_material ds.
Proof. induction cs as [|c cs IH]; [done|]. cbn. by rewrite IH, <- app_assoc. Qed.

Lemma all_material_map {A} (f : A -> Ttlv) l :
  (forall x, key_material (f x) = []) -> all_material (map f l) = [].
Proof. intros Hf. induction l as [|x l IH]; [done|]. cbn. by rewrite Hf, IH. Qed.

Lemma all_material_Forall cs : Forall (fun c => key_material c = []) cs -> all_material cs = [].
Proof. induction 1 as [|c cs Hc _ IH]; [done|]. cbn. by rewrite Hc, IH. Qed.

(** [provider_id] names the provider [provider]. *)
Definition names (provider_id provider : pystr) : Prop :=
  _validated_uuid provider_id "provider_id must be a UUID." = Ok provider.

(** The changes a provider can make: other providers' keys are untouched, and no key
    disappears or changes its material. *)
Definition confined (provider_id : pystr) (c c' : keys) : Prop :=
  (forall k, ~ names provider_id k.1 -> c' !! k = c !! k) /\
  (forall k m plaintext, c !! k = Some (m, plaintext) -> exists m', c' !! k = Some (m', plaintext)).

(** [b] is the material of a key of the provider. *)
Definition owned (provider_id : pystr) (c : keys) (b : bytes) : Prop :=
  exists k m, names provider_id k.1 /\ c !! k = Some (m, b).

#[global] Instance confined_refl p : Reflexive (confined p).
Proof. intros c. split; eauto. Qed.

#[global] Instance confined_trans p : Transitive (confined p).
Proof.
  intros c1 c2 c3 [H1 H1'] [H2 H2']. split.
  - intros k Hk. by rewrite H2, H1.
  - intros k m pt Hk. destruct (H1' k m pt Hk) as [m2 Hm2]. by eapply H2'.
Qed.

Lemma owned_confined p c c' b : confined p c c' -> owned p c b -> owned p c' b.
Proof. intros [_ Hc] (k&m&Hp&Hk). destruct (Hc k m b Hk) as [m' Hm']. exists k, m'. done. Qed.

Section Isolation.
Context {S : Type} `{KeyStoreLaws S}.

(** The outcome of serving [provider_id] over the keys [c]; [material] is the key
    material in the answer. *)
Definition served {A} (material : A -> list bytes) (provider_id : pystr) (c : keys) (r : res A) (s' : S) : Prop :=
  exists c', holds c' s' /\ confined provider_id c c' /\
    forall a, r = Ok a -> Forall (owned provider_id c') (material a).

Lemma served_raise {A} (material : A -> list bytes) p c e s : holds c s -> served material p c (Raise e) s.
Proof. intros Hs. exists c. done. Qed.

Lemma served_none {A} (material : A -> list bytes) p c r s :
  holds c s -> (forall a, r = Ok a -> material a = []) -> served material p c r s.
Proof. intros Hs Hm. exists c. split_and!; [done|done|]. intros a Ha. rewrite Hm by done. constructor. Qed.

Lemma served_ret {A} (material : A -> list bytes) p c a s :
  holds c s -> material a = [] -> served material p c (Ok a) s.
Proof. intros Hs Hm. apply served_none; [done|]. congruence. Qed.

Lemma served_confined {A} (material : A -> list bytes) p c c' r s :
  confined p c c' -> served material p c' r s -> served material p c r s.
Proof. intros Hc (c2&Hs&Hc2&Hm). exists c2. split_and!; [done|by etrans|done]. Qed.

(** A pure step, then a computation that is served when the step succeeds. *)
Lemma wp_lift_served {A B} (r : res A) (k : A -> ST S B) material p c s :
  holds c s -> (forall a, r = Ok a -> wp (k a) (served material p c) s) ->
  wp (x ← lift r; k x) (served material p c) s.
Proof.
  intros Hs Hk. apply wp_bind, wp_lift. destruct r as [a|e]; [by apply Hk|by apply served_raise].
Qed.

Lemma wp_create_served p payload c s :
  holds c s -> wp (_create p payload) (served all_material p c) s.
Proof.
  intros Hs. unfold _create. apply wp_lift_served; [done|]. intros [n a] _.
  apply wp_bind. eapply wp_mono; [by apply law_create|].
  intros r s' [[Hs' Hr]|(m&pt&Hcr&Hn&Hs'&Hr)].
  - destruct r; [done|]. by apply served_raise.
  - assert (confined p c (<[key_of m := (m, pt)]> c)) as Hc.
    { split.
      - intros k Hk. rewrite lookup_insert_ne; [done|]. intros <-. apply Hk, Hcr.
      - intros k m0 pt0 Hk. exists m0. rewrite lookup_insert_ne; [done|]. congruence. }
    destruct r as [m'|e]; [apply wp_ret|]; apply (served_confined _ _ _ _ _ _ Hc);
      [by apply served_ret|by apply served_raise].
Qed.

Lemma lookup_key_of c s p k m pt :
  holds c s -> lookup_contents c p k = Ok (m, pt) -> names p (key_of m).1 /\ c !! key_of m = Some (m, pt).
Proof.
  intros Hs Hl. apply lookup_contents_Ok in Hl as (p'&k'&Hp&Hk).
  destruct (law_keys _ _ Hs _ _ Hk) as [Hid _]. cbn in Hid. by rewrite Hid.
Qed.

Lemma wp_activate_served p payload c s :
  holds c s -> wp (_activate p payload) (served all_material p c) s.
Proof.
  intros Hs. unfold _activate. apply wp_lift_served; [done|]. intros _ _.
  apply wp_lift_served; [done|]. intros k _. apply wp_bind. eapply wp_mono; [by apply law_activate|].
  intros r s' [[Hs' _]|(m&pt&at_&Hl&_&Hs'&_)].
  - destruct r; [|by apply served_raise]. apply wp_ret. by apply served_ret.
  - destruct (lookup_key_of _ _ _ _ _ _ Hs Hl) as [Hp Hk].
    assert (confined p c (<[key_of m := (activated m at_, pt)]> c)) as Hc.
    { split.
      - intros q Hq. rewrite lookup_insert_ne; [done|]. intros <-. by apply Hq.
      - intros q m0 pt0 Hq. destruct (decide (q = key_of m)) as [->|Hne].
        + rewrite lookup_insert_eq. rewrite Hk in Hq. injection Hq as -> ->. eauto.
        + rewrite lookup_insert_ne by done. eauto. }
    destruct r as [m'|e]; [apply wp_ret|]; apply (served_confined _ _ _ _ _ _ Hc);
      [by apply served_ret|by apply served_raise].
Qed.

Lemma wp_get_served p payload c s :
  holds c s -> wp (_get p payload) (served all_material p c) s.
Proof.
  intros Hs. unfold _get. apply wp_lift_served; [done|]. intros _ _.
  apply wp_lift_served; [done|]. intros f _. apply wp_bind.
  apply (wp_mono _ (fun r s' => s' = s)).
  { destruct f; [|by apply wp_ret]. apply wp_bind, wp_lift. destruct (_integer_value _ _); [|done].
    by apply wp_lift. }
  intros r s' ->. destruct r as [u|e]; [|by apply served_raise].
  apply wp_lift_served; [done|]. intros k _. apply wp_bind. eapply wp_mono; [by apply law_get|].
  intros r s' [Hs' Hr]. destruct r as [[m pt]|e]; [|by apply served_raise].
  apply wp_lift_served; [done|]. intros _ _. apply wp_ret. exists c. split_and!; [done|done|].
  intros l Hl. injection Hl as <-. cbn. constructor; [|constructor].
  destruct (lookup_key_of _ _ _ _ _ _ Hs (Hr _ eq_refl)) as [Hp Hk]. by exists (key_of m), m.
Qed.

Lemma wp_get_attribute_list_served p payload c s :
  holds c s -> wp (_get_attribute_list p payload) (served all_material p c) s.
Proof.
  intros Hs. unfold _get_attribute_list. apply wp_lift_served; [done|]. intros _ _.
  apply wp_lift_served; [done|]. intros k _. apply wp_bind. eapply wp_mono; [by apply law_metadata|].
  intros r s' [Hs' _]. destruct r as [m|e]; [|by apply served_raise].
  apply wp_ret, served_ret; [done|]. cbn. by apply all_material_map.
Qed.

Lemma metadata_attribute_material name m t : _metadata_attribute name m = Ok t -> key_material t = [].
Proof. unfold _metadata_attribute. intros E. repeat case_decide; repeat case_match; res_inv; done. Qed.

Lemma wp_get_attributes_served p payload c s :
  holds c s -> wp (_get_attributes p payload) (served all_material p c) s.
Proof.
  intros Hs. unfold _get_attributes. apply wp_lift_served; [done|]. intros _ _.
  apply wp_lift_served; [done|]. intros k _. apply wp_bind. eapply wp_mono; [by apply law_metadata|].
  intros r s' [Hs' _]. destruct r as [m|e]; [|by apply served_raise].
  do 3 (apply wp_lift_served; [done|]; intros ? ?). apply wp_lift_served; [done|]. intros l Hl.
  apply wp_ret, served_ret; [done|]. cbn.
  apply res_mapM_Ok in Hl. apply all_material_Forall. clear -Hl.
  induction Hl as [|x y xs ys Hx _ IH]; constructor; [by eapply metadata_attribute_material|done].
Qed.

Lemma wp_locate_served p payload c s :
  holds c s -> wp (_locate p payload) (served all_material p c) s.
Proof.
  intros Hs. unfold _locate. do 2 (apply wp_lift_served; [done|]; intros ? ?).
  apply wp_lift_served; [done|]. intros [[st n]|] _; [|apply wp_ret; by apply served_ret].
  apply wp_bind. eapply wp_mono; [by apply law_locate|]. intros r s' [Hs' _].
  destruct r as [ids|e]; [|by apply served_raise].
  apply wp_ret, served_ret; [done|]. by apply all_material_map.
Qed.

Lemma query_material payload l : _query payload = Ok l -> all_material l = [].
Proof.
  unfold _query. intros E. do 5 (apply bind_Ok in E as (?&_&E)). apply fmap_Ok in E as (ls&E&<-).
  apply res_mapM_Ok in E. induction E as [|f l' fs ls' Hf _ IH]; [done|]. cbn.
  rewrite all_material_app, IH, app_nil_r. unfold query_function in Hf.
  repeat case_match; res_inv; done.
Qed.

Lemma discover_material payload l : _discover_versions payload = Ok l -> all_material l = [].
Proof.
  unfold _discover_versions. intros E. repeat (apply bind_Ok in E as (?&_&E)).
  case_match; injection E as <-; [done|by apply all_material_map].
Qed.

Lemma wp_dispatch_operation_served p o payload c s :
  holds c s -> wp (_dispatch_operation p o payload) (served all_material p c) s.
Proof.
  intros Hs. unfold _dispatch_operation. apply wp_lift_served; [done|]. intros _ _.
  destruct o.
  - by apply wp_create_served.
  - by apply wp_locate_served.
  - by apply wp_get_served.
  - by apply wp_get_attributes_served.
  - by apply wp_get_attribute_list_served.
  - by apply wp_activate_served.
  - apply wp_lift, served_none; [done|]. apply query_material.
  - apply wp_lift, served_none; [done|]. apply discover_material.
Qed.

Lemma failed_batch_material o r m b : key_material (_failed_batch o r m b) = [].
Proof. by destruct b. Qed.

Lemma succeeded_batch_material o b l : key_material (succeeded_batch o b l) = all_material l.
Proof. destruct b; cbn; by rewrite !app_nil_r. Qed.

Lemma wp_attempt {A} o b (ct : ST S A) k (Q : res Ttlv -> S -> Prop) s :
  wp ct (fun r s' => match r with Ok a => wp (k a) Q s' | Raise e => wp (answer_failure o b e) Q s' end) s ->
  wp (attempt o b ct k) Q s.
Proof. unfold wp, attempt. destruct (ct s) as [[a|e] s']; done. Qed.

Lemma wp_answer_failure_served o b e p c s :
  holds c s -> wp (answer_failure o b e) (served key_material p c) s.
Proof.
  intros Hs. unfold answer_failure. destruct (batch_failure e) as [[r m]|].
  - apply wp_ret, served_ret; [done|]. apply failed_batch_material.
  - apply wp_lift. by apply served_raise.
Qed.

Lemma wp_dispatch_item_served p n counts item c s :
  holds c s -> wp (dispatch_item p n counts item) (served key_material p c) s.
Proof.
  intros Hs. unfold dispatch_item. apply wp_attempt, wp_lift.
  destruct (_ ≫= _) as [b|e]; [|by apply wp_answer_failure_served].
  apply wp_attempt, wp_lift. destruct (_ ≫= _) as [v|e]; [|by apply wp_answer_failure_served].
  apply wp_attempt, wp_bind, wp_lift.
  destruct (check_batch_item n counts b v) as [o|e]; [|by apply wp_answer_failure_served].
  apply wp_bind, wp_lift. destruct (_required_child item _) as [payload|e]; [|by apply wp_answer_failure_served].
  apply wp_bind. eapply wp_mono; [by apply wp_dispatch_operation_served|].
  intros r s' (c'&Hs'&Hc&Hm). destruct r as [l|e].
  - apply wp_ret, wp_ret. exists c'. split_and!; [done|done|]. intros t Ht. injection Ht as <-.
    rewrite succeeded_batch_material. by apply Hm.
  - eapply wp_mono; [by apply wp_answer_failure_served|]. intros r s2 Hr. by eapply served_confined.
Qed.

Lemma wp_dispatch_items_served p n counts items c s :
  holds c s -> wp (dispatch_items p n counts items) (served all_material p c) s.
Proof.
  revert c s; induction items as [|item items IH]; intros c s Hs; cbn [dispatch_items].
  { apply wp_ret. by apply served_ret. }
  apply wp_bind. eapply wp_mono; [by apply wp_dispatch_item_served|].
  intros r s1 (c1&Hs1&Hc1&Hm1). destruct r as [t|e]; [|eapply served_confined; [done|by apply served_raise]].
  apply wp_bind. eapply wp_mono; [by apply IH|].
  intros r s2 (c2&Hs2&Hc2&Hm2). assert (confined p c c2) by by etrans.
  destruct r as [ts|e].
  - apply wp_ret. exists c2. split_and!; [done|done|]. intros l Hl. injection Hl as <-. cbn.
    apply Forall_app. split; [|by apply Hm2]. eapply Forall_impl; [by apply Hm1|].
    intros b. by apply owned_confined.
  - exists c2. split_and!; done.
Qed.

Lemma wp_dispatch_served now p request c s :
  holds c s -> wp (dispatch now p request) (served key_material p c) s.
Proof.
  intros Hs. unfold dispatch. apply wp_lift_served; [done|]. intros [v items] _.
  apply wp_lift_served; [done|]. intros counts _.
  apply wp_bind. eapply wp_mono; [by apply wp_dispatch_items_served|].
  intros r s' (c'&Hs'&Hc&Hm). destruct r as [ts|e]; [|exists c'; split_and!; done].
  apply wp_ret. exists c'. split_and!; [done|done|]. intros t Ht. injection Ht as <-.
  exact (Hm ts eq_refl).
Qed.

(** Provider isolation: whatever the request, serving a provider leaves every key of
    every other provider as it was, destroys no key and changes no key material, and all
    key material in the response belongs to keys of that provider. *)
Theorem dispatch_isolation now p request c s :
  holds c s -> wp (dispatch now p request) (served key_material p c) s.
Proof. apply wp_dispatch_served. Qed.
End Isolation.
