(* ===== verification/ProtocolWf.v ===== *)
(** The dispatcher on well-formed requests: every batch item is answered unless the
    store raises an exception the dispatcher does not handle, and the response is
    well-formed TTLV, so that encoding it can only fail on its size. *)

From S2P Require Import Prelude Utf8 PyText Uuid Json Ttlv World Store StoreSpec StoreInv Protocol ProtocolSpec.
Open Scope Z_scope.

Abbreviation wf n := (well_formed n = true).

(** [e] is answered with a failed batch item whose reason code fits its field. *)
Definition handled (e : exn) : Prop :=
  match batch_failure e with Some (r, _) => fits_signed 4 r = true | None => False end.

(** [r] returns a value with [P] or raises an exception that is answered. *)
Definition good {A} (P : A -> Prop) (r : res A) : Prop :=
  match r with Ok a => P a | Raise e => handled e end.

Lemma good_bind {A B} (P : A -> Prop) (Q : B -> Prop) r (f : A -> res B) :
  good P r -> (forall a, P a -> good Q (f a)) -> good Q (r ≫= f).
Proof. destruct r; cbn; auto. Qed.

Lemma good_mono {A} (P Q : A -> Prop) r : good P r -> (forall a, P a -> Q a) -> good Q r.
Proof. destruct r; cbn; auto. Qed.

Lemma good_fmap {A B} (P : B -> Prop) r (f : A -> B) : good (fun a => P (f a)) r -> good P (f <$> r).
Proof. by destruct r. Qed.

Lemma good_raise_if b (r : ResultReason) m : good (fun _ => b = false) (raise_if b (ProtocolFailure r m)).
Proof. destruct b; [by destruct r|done]. Qed.

Lemma good_or_fail {A} (P : A -> Prop) reason m r : good P r -> good P (or_fail reason m r).
Proof.
  unfold or_fail. destruct r as [a|e]; [done|]. cbn.
  destruct (catches_TtlvError e); [by destruct reason|done].
Qed.

Lemma good_mapM {A B} (P : A -> Prop) (Q : B -> Prop) (f : A -> res B) l :
  (forall a, P a -> good Q (f a)) -> Forall P l -> good (Forall Q) (mapM f l).
Proof.
  intros Hf. induction 1 as [|a l Ha _ IH]; cbn; [constructor|].
  apply (good_bind Q); [by apply Hf|]. intros b Hb.
  apply (good_bind (Forall Q)); [done|]. intros k Hk. by constructor.
Qed.

(* ------------------------------------------------------------------ *)
(** ** Well-formed nodes *)

Lemma wf_structure n : wf n -> type n = STRUCTURE -> exists cs, value n = VTuple cs /\ Forall (fun c => wf c) cs.
Proof.
  destruct n as [t ty v]. cbn [type value]. intros Hw ->. destruct v as [cs| | | |]; try (cbn in Hw; by rewrite andb_false_r in Hw).
  rewrite well_formed_tuple in Hw. exists cs. split; [done|]. apply Forall_forall. intros c Hc.
  apply andb_true_iff in Hw as [_ Hw]. apply andb_true_iff in Hw as [_ Hw].
  rewrite forallb_forall in Hw. by apply Hw, list_elem_of_In.
Qed.

Lemma wf_leaf n : wf n -> type n <> STRUCTURE -> leaf_typed (type n) (value n) = true.
Proof.
  destruct n as [t ty v]. cbn [type value]. intros Hw Hty. destruct v as [cs| | | |]; last first.
  1-4: cbn in Hw; apply andb_true_iff in Hw; tauto.
  rewrite well_formed_tuple, bool_decide_eq_false_2 in Hw by done. by rewrite andb_false_r in Hw.
Qed.

Lemma good_children n t : wf n -> good (Forall (fun c => wf c)) (children n t).
Proof.
  intros Hw. unfold children. case_decide as Ht; [|done].
  destruct (wf_structure n Hw Ht) as (cs&->&Hcs). destruct t as [t|]; [|done]. cbn.
  apply Forall_forall. intros c [_ Hc]%list_elem_of_filter. rewrite Forall_forall in Hcs. by apply Hcs.
Qed.

Lemma good_child n t required :
  wf n -> good (fun o => match o with Some c => wf c | None => required = false end) (child n t required).
Proof.
  intros Hw. unfold child. apply (good_bind (Forall (fun c => wf c))); [by apply good_children|].
  intros [|c [|c' l]] Hcs; [|by apply Forall_inv in Hcs|done]. destruct required; [done|done].
Qed.

Lemma good_required_child n t : wf n -> good (fun c => wf c) (_required_child n t).
Proof.
  intros Hw. unfold _required_child. eapply good_bind; [apply good_or_fail, good_child; done|].
  by intros [c|] Hc.
Qed.

Lemma good_assert_only_tags n allowed : wf n -> good (fun _ => True) (assert_only_tags n allowed).
Proof.
  intros Hw. unfold assert_only_tags. eapply good_bind; [by apply good_children|].
  intros cs _. case_match; [done|done].
Qed.

Lemma good_value n ty :
  wf n -> ty <> STRUCTURE -> good (fun v => leaf_typed ty v = true) (_value n ty).
Proof.
  intros Hw Hty. unfold _value. eapply good_bind; [apply good_raise_if|]. intros [] E. cbn in E.
  apply negb_false_iff, bool_decide_eq_true in E. pose proof (wf_leaf n Hw) as Hl. rewrite E in Hl.
  specialize (Hl Hty). destruct (value n); try done. by destruct ty.
Qed.

Lemma good_integer n ty :
  wf n -> ty = INTEGER \/ ty = ENUMERATION -> good (fun z => fits_signed 4 z = true) (_integer_value n ty).
Proof.
  intros Hw Hty. unfold _integer_value. eapply good_bind; [apply good_value; [done|]|].
  { by destruct Hty as [-> | ->]. }
  intros v Hv. destruct v; try done. by destruct Hty as [-> | ->].
Qed.


Lemma good_text n : wf n -> good scalar_text (_text_value n).
Proof.
  intros Hw. unfold _text_value. eapply good_bind; [by apply good_value|].
  intros v Hv. destruct v; try done. by apply forallb_scalar.
Qed.

Lemma good_batch_item_id n : wf n -> good (fun _ => True) (_optional_batch_item_id n).
Proof.
  intros Hw. unfold _optional_batch_item_id. eapply good_bind; [by apply good_child|].
  intros [c|] _; [|done]. destruct (type c), (value c); try done; done.
Qed.

Lemma good_protocol_version n : wf n -> good (fun _ => True) (_protocol_version n).
Proof.
  intros Hw. unfold _protocol_version. eapply good_bind; [apply good_raise_if|]. intros _ _.
  eapply good_bind; [by apply good_or_fail, good_assert_only_tags|]. intros _ _.
  eapply good_bind; [by apply good_required_child|]. intros c Hc.
  eapply good_bind; [apply good_integer; [done|by left]|]. intros z _.
  eapply good_bind; [by apply good_required_child|]. intros c' Hc'.
  eapply good_bind; [apply good_integer; [done|by left]|]. done.
Qed.

Lemma good_parse_name n : wf n -> good scalar_text (_parse_name n).
Proof.
  intros Hw. unfold _parse_name. eapply good_bind; [apply good_raise_if|]. intros _ _.
  eapply good_bind; [by apply good_or_fail, good_assert_only_tags|]. intros _ _.
  eapply good_bind; [by apply good_required_child|]. intros c Hc.
  eapply good_bind; [by apply good_text|]. intros name Hn.
  eapply good_bind; [by apply good_required_child|]. intros c' Hc'.
  eapply good_bind; [apply good_integer; [done|by right]|]. intros z _.
  eapply good_bind; [apply good_raise_if|]. intros _ _.
  eapply good_bind; [apply good_raise_if|]. done.
Qed.

(** A parsed attribute: text is a sequence of scalar values, and a Name is text. *)
Definition attribute_ok (kv : pystr * AttributeValue) : Prop :=
  match kv.2 with AStr s => scalar_text s | AInt _ => kv.1 <> str "Name" end.

Lemma good_attribute_value name string_names n :
  wf n -> good (fun v => attribute_ok (name, v)) (attribute_value name string_names n).
Proof.
  intros Hw. unfold attribute_value. case_decide as Hn.
  { apply good_fmap. by apply good_parse_name. }
  destruct (mem name string_names).
  - eapply good_bind; [by apply good_text|]. intros v Hv.
    apply (good_bind (fun _ => True)).
    { destruct (utf8_encode v) as [b|e] eqn:E; [done|]. apply utf8_encode_raise in E as ->. done. }
    intros b _. eapply good_bind; [apply good_raise_if|]. done.
  - apply good_fmap. eapply good_mono; [apply good_integer; [done|]|]; [|done]. case_match; auto.
Qed.

Lemma dict_set_Forall {A} (P : pystr * A -> Prop) k v d : P (k, v) -> Forall P d -> Forall P (dict_set k v d).
Proof.
  intros Hk. induction 1 as [|[x w] d Hx Hd IH]; cbn; [by repeat constructor|].
  case_decide; [subst; by constructor|by constructor].
Qed.

Lemma good_parse_attributes allowed string_names l acc :
  Forall (fun c => wf c) l -> Forall attribute_ok acc ->
  good (Forall attribute_ok) (parse_attributes allowed string_names l acc).
Proof.
  intros Hl. revert acc; induction Hl as [|n l Hw _ IH]; intros acc Hacc; [done|]. cbn [parse_attributes].
  eapply good_bind; [apply good_raise_if|]. intros _ _.
  eapply good_bind; [by apply good_or_fail, good_assert_only_tags|]. intros _ _.
  eapply good_bind; [by apply good_required_child|]. intros c Hc.
  eapply good_bind; [by apply good_text|]. intros name Hn.
  do 2 (eapply good_bind; [apply good_raise_if|]; intros _ _).
  eapply good_bind; [by apply good_required_child|]. intros c' Hc'.
  eapply good_bind; [by apply good_attribute_value|]. intros v Hv. by apply IH, dict_set_Forall.
Qed.

Lemma good_template template allowed string_names :
  wf template -> good (Forall attribute_ok) (_parse_template_attributes template allowed string_names).
Proof.
  intros Hw. unfold _parse_template_attributes. eapply good_bind; [apply good_raise_if|]. intros _ _.
  eapply good_bind; [by apply good_or_fail, good_assert_only_tags|]. intros _ _.
  eapply good_bind; [by apply good_children|]. intros cs Hcs. by apply good_parse_attributes.
Qed.

Lemma good_unique_identifier payload : wf payload -> good scalar_text (_unique_identifier payload).
Proof.
  intros Hw. unfold _unique_identifier. eapply good_bind; [by apply good_required_child|]. intros c Hc.
  eapply good_bind; [by apply good_text|]. intros v Hv. eapply good_bind; [apply good_raise_if|]. done.
Qed.

Lemma attribute_ok_get k v d : Forall attribute_ok d -> dict_get k d = Some v -> attribute_ok (k, v).
Proof. intros Hd Hk%dict_get_In. rewrite Forall_forall in Hd. by apply Hd. Qed.

Lemma good_create_request payload : wf payload -> good (fun _ => True) (create_request payload).
Proof.
  intros Hw. unfold create_request, create_fields.
  eapply good_bind; [by apply good_or_fail, good_assert_only_tags|]. intros _ _.
  eapply good_bind; [by apply good_required_child|]. intros c Hc.
  eapply good_bind; [apply good_integer; [done|by right]|]. intros z _.
  eapply good_bind; [apply good_raise_if|]. intros _ _.
  eapply good_bind; [by apply good_required_child|]. intros c' Hc'.
  eapply good_bind; [by apply good_template|]. intros attributes Ha.
  do 2 (eapply good_bind; [apply good_raise_if|]; intros _ _). cbv zeta.
  eapply good_bind; [apply good_raise_if|]. intros _ _.
  apply (good_bind (fun _ => True)); [|done].
  destruct (dict_get (str "Name") attributes) as [v|] eqn:E; [|done].
  pose proof (attribute_ok_get _ _ _ Ha E) as Hv. destruct v; [|done]. by unfold attribute_ok in Hv.
Qed.

Lemma good_locate_filters l : Forall (fun c => wf c) l -> good (fun _ => True) (locate_filters l).
Proof.
  intros Hl. unfold locate_filters. destruct l as [|n l]; [done|].
  eapply good_bind; [apply good_template|].
  { unfold structure. rewrite well_formed_tuple. cbn [tag_value]. rewrite bool_decide_eq_true_2 by done.
    apply andb_true_iff. split; [done|]. apply andb_true_iff. split; [done|].
    apply forallb_forall. rewrite Forall_forall in Hl. intros x Hx. by apply Hl, list_elem_of_In. }
  intros filters Hf. cbv zeta.
  do 3 (match goal with |- good _ (if ?b then _ else _) => destruct b; [done|] end).
  match goal with |- good _ (if ?b then _ else _) => destruct b; [done|] end.
  destruct (dict_get (str "Name") filters) as [v|] eqn:E; [|done].
  pose proof (attribute_ok_get _ _ _ Hf E) as Hv. destruct v; [|done]. by unfold attribute_ok in Hv.
Qed.

(* ------------------------------------------------------------------ *)
(** ** Well-formed answers *)

Lemma tag_in_range (t : Tag) : tag_out_of_range t = false.
Proof. by destruct t. Qed.

Lemma wf_struct (t : Tag) cs : Forall (fun c => wf c) cs -> wf (structure t cs).
Proof.
  intros Hcs. unfold structure. rewrite well_formed_tuple, tag_in_range, bool_decide_eq_true_2 by done.
  apply forallb_forall. rewrite Forall_forall in Hcs. intros x Hx. by apply Hcs, list_elem_of_In.
Qed.

Lemma wf_enumeration (t : Tag) z : fits_signed 4 z = true -> wf (enumeration t z).
Proof. intros Hz. cbn. by rewrite tag_in_range. Qed.

Lemma wf_integer (t : Tag) z : fits_signed 4 z = true -> wf (integer t z).
Proof. intros Hz. cbn. by rewrite tag_in_range. Qed.

Lemma wf_date_time (t : Tag) z : fits_signed 8 z = true -> wf (date_time t z).
Proof. intros Hz. cbn. by rewrite tag_in_range. Qed.

Lemma wf_text (t : Tag) s : scalar_text s -> wf (text_string t s).
Proof. intros Hs. cbn. rewrite tag_in_range. by apply forallb_scalar. Qed.

Lemma wf_bytes (t : Tag) b : wf (byte_string t b).
Proof. cbn. by rewrite tag_in_range. Qed.

Lemma scalar_str s : scalar_text (str s).
Proof.
  unfold scalar_text, str. apply Forall_map. apply Forall_forall. intros a _. apply is_scalar_spec.
  pose proof (N_ascii_bounded a). lia.
Qed.

Create HintDb wf.
#[export] Hint Resolve wf_struct wf_enumeration wf_integer wf_date_time wf_text wf_bytes scalar_str
  Forall_nil_2 Forall_cons_2 : wf.
#[export] Hint Extern 5 (fits_signed _ _ = true) => reflexivity : wf.

Lemma wf_attribute name v : scalar_text name -> wf v -> wf (_attribute name v).
Proof.
  intros Hn Hv. unfold _attribute. apply wf_struct. constructor; [by apply wf_text|].
  constructor; [|constructor]. destruct v as [t ty v]. cbn [type value].
  destruct v; cbn in *; apply andb_true_iff in Hv as [_ Hv]; done.
Qed.

Lemma decimal_field_range t i n z : decimal_field t i n = Ok z -> 0 <= z < 10 ^ Z.of_nat n.
Proof.
  intros E. unfold decimal_field in E. destruct (_ && _) eqn:Ec; [|done]. injection E as <-.
  apply andb_true_iff in Ec as [Hl Hd]. apply Nat.eqb_eq in Hl.
  set (f := take n (drop i t)) in *. set (ds := map (fun c => c - 48) f).
  assert (Forall (fun d => 0 <= d < 10) ds) as Hr.
  { apply Forall_map, Forall_forall. intros c Hc%list_elem_of_In. rewrite forallb_forall in Hd.
    specialize (Hd c Hc). unfold is_digit in Hd. lia. }
  pose proof (digits_fixed_of_digits 10 ds ltac:(lia) Hr) as E1.
  pose proof (of_digits_fixed 10 (length ds) (of_digits 10 ds) ltac:(lia)) as E2.
  rewrite E1 in E2. rewrite E2. unfold ds. rewrite length_map, Hl. apply Z.mod_pos_bound. lia.
Qed.

Lemma days_from_civil_range y m d :
  0 <= y < 10000 -> 0 <= m < 100 -> 0 <= d < 100 -> -2000000 <= days_from_civil y m d < 5000000.
Proof.
  intros Hy Hm Hd. unfold days_from_civil.
  destruct (Z.leb_spec m 2), (Z.ltb_spec 2 m); try lia; Z.div_mod_to_equations; lia.
Qed.

(** Every instant read back fits a 64-bit Date-Time. *)
Lemma fromisoformat_range s us : fromisoformat s = Ok us -> fits_signed 8 (timestamp_seconds us) = true.
Proof.
  unfold fromisoformat. intros E.
  apply bind_Ok in E as (y&Hy&E). apply bind_Ok in E as (m&Hm&E). apply bind_Ok in E as (d&Hd&E).
  apply bind_Ok in E as (hh&Hh&E). apply bind_Ok in E as (mm&Hmm&E). apply bind_Ok in E as (ss&Hss&E).
  destruct (match drop 19 s with [] => _ | _ :: _ => _ end) as [fraction rest] eqn:Ef.
  apply bind_Ok in E as (f&Hf&E). do 2 (apply bind_Ok in E as (?&_&E)). injection E as <-.
  apply decimal_field_range in Hy, Hm, Hd, Hh, Hmm, Hss.
  assert (0 <= f < 1000000) as Hfr.
  { destruct (drop 19 s) as [|c r].
    - assert (fraction = Ok 0) as -> by congruence. res_inv. lia.
    - destruct (c =? 46).
      + assert (fraction = decimal_field r 0 6) as -> by congruence. by apply decimal_field_range in Hf.
      + assert (fraction = Ok 0) as -> by congruence. res_inv. lia. }
  pose proof (days_from_civil_range y m d ltac:(lia) ltac:(lia) ltac:(lia)) as Hdays.
  unfold fits_signed, timestamp_seconds. change (8 * Z.of_nat 8 - 1) with 63. apply andb_true_iff.
  set (days := days_from_civil y m d) in *. 
  assert (-10^15 <= ((days * 86400 + hh * 3600 + mm * 60 + ss) * 1000000 + f) ÷ 1000000 <= 10^15) as Hq.
  { Z.quot_rem_to_equations. lia. }
  change (2 ^ 63) with 9223372036854775808. lia.
Qed.

Lemma fromisoformat_raise s e : fromisoformat s = Raise e -> exists msg, e = ValueError msg.
Proof.
  assert (forall t i n, decimal_field t i n = Raise e -> exists msg, e = ValueError msg) as Hd.
  { intros t i n E. unfold decimal_field in E. destruct (_ && _); [done|]. injection E as <-. eauto. }
  unfold fromisoformat. intros E.
  do 6 (apply bind_Raise in E as [E|(?&_&E)]; [by eapply Hd|]).
  destruct (match drop 19 s with [] => _ | _ :: _ => _ end) as [fraction rest] eqn:Ef.
  apply bind_Raise in E as [E|(?&_&E)].
  - destruct (drop 19 s) as [|c r]; [congruence|]. destruct (c =? 46); [|congruence].
    apply (Hd r 0%nat 6%nat). congruence.
  - do 2 (apply bind_Raise in E as [E|(?&_&E)]; [apply raise_if_Raise in E as [_ ->]; eauto|]). done.
Qed.

Lemma good_metadata_attribute name m :
  meta_ok m -> scalar_text name ->
  match _metadata_attribute name m with
  | Ok t => wf t
  | Raise e => handled e \/ exists msg, e = ValueError msg
  end.
Proof.
  intros Hm Hn. unfold _metadata_attribute.
  do 6 (case_decide; [apply wf_attribute; [done|]; try case_decide; auto with wf; apply wf_text, Hm|]).
  case_decide.
  { destruct (sk_activated_at m) as [a|]; [|by left].
    destruct (fromisoformat a) as [us|e] eqn:E; cbn [mbind res_bind].
    - apply wf_attribute; [done|]. by apply wf_date_time, (fromisoformat_range a).
    - right. by eapply fromisoformat_raise. }
  case_decide.
  { pose proof (mo_name m Hm) as Hnm. destruct (sk_name m) as [nm|]; [|by left].
    apply wf_attribute; [done|]. auto 8 with wf. }
  destruct (dict_get name _) as [v|] eqn:E; [|by left].
  apply wf_attribute; [done|]. apply wf_text.
  rewrite dict_of_NoDup in E by apply (va_keys _ (mo_attributes m Hm)). apply dict_get_In in E.
  pose proof (va_values _ (mo_attributes m Hm)) as Hv. rewrite Forall_forall in Hv.
  destruct (Hv _ E) as (b&Hb&_). by eapply attribute_scalar.
Qed.

(* ------------------------------------------------------------------ *)
(** ** Correlation identifiers *)

(** The correlation identifiers of a batch, in order. *)
Definition batch_ids (items : list Ttlv) : list bytes :=
  omap (fun item => match _optional_batch_item_id item with Ok o => o | Raise _ => None end) items.

Definition occurrences (b : bytes) (ids : list bytes) : Z := zlen (filter (fun x => x = b) ids).

(** The dictionary holds the number of occurrences of each identifier seen. *)
Definition counts_of (ids : list bytes) (counts : list (bytes * Z)) : Prop :=
  forall b, id_count b counts = if decide (b ∈ ids) then Some (occurrences b ids) else None.

Lemma id_count_count_id b x counts :
  id_count b (count_id x counts) =
    if decide (b = x) then Some (default 0 (id_count b counts) + 1) else id_count b counts.
Proof.
  induction counts as [|[k n] counts IH]; cbn; [repeat case_decide; subst; done|].
  destruct (decide (k = x)) as [->|Hkx]; cbn.
  - destruct (decide (x = b)) as [->|Hxb]; [by rewrite decide_True|]. by rewrite decide_False by congruence.
  - destruct (decide (k = b)) as [->|Hkb]; [by rewrite decide_False|]. apply IH.
Qed.

Lemma counts_of_snoc ids counts x : counts_of ids counts -> counts_of (ids ++ [x]) (count_id x counts).
Proof.
  intros Hc b. rewrite id_count_count_id, Hc. unfold occurrences. rewrite filter_app, zlen_app, filter_cons, filter_nil.
  destruct (decide (b = x)) as [->|Hne].
  - rewrite (decide_True (P := x ∈ ids ++ [x])) by set_solver.
    rewrite (decide_True (P := x = x)) by done. f_equal.
    case_decide as Hin; [done|]. cbn. replace (filter (fun y => y = x) ids) with (@nil bytes); [done|].
    symmetry. clear -Hin. induction ids as [|y ids IH]; [done|]. rewrite filter_cons_False by set_solver.
    apply IH. set_solver.
  - rewrite (decide_False (P := x = b)) by congruence. cbn. rewrite Z.add_0_r.
    destruct (decide (b ∈ ids)); [rewrite decide_True by set_solver|rewrite decide_False by set_solver]; done.
Qed.

Lemma batch_item_id_raise n e :
  _optional_batch_item_id n = Raise e ->
  (exists m, e = TtlvError m) \/ (exists r m, e = ProtocolFailure r m) \/ e = TypeError.
Proof.
  unfold _optional_batch_item_id, child. intros E. apply bind_Raise in E as [E|(o&_&E)].
  - apply bind_Raise in E as [E|(l&_&E)].
    + unfold children in E. case_decide; [|injection E as <-; eauto]. right. right.
      destruct (value n); [done|injection E as <-; done..].
    + destruct l as [|c [|c' l]]; [done|done|]. injection E as <-. eauto.
  - destruct o as [c|]; [|done]. right. left. destruct (type c), (value c); try done; injection E as <-; eauto.
Qed.

(** The first pass over the items counts the identifiers that can be read. *)
Lemma batch_id_counts_spec items :
  Forall (fun c => wf c) items ->
  exists counts, batch_id_counts items = Ok counts /\ counts_of (batch_ids items) counts.
Proof.
  intros Hw. unfold batch_id_counts.
  enough (forall l ids counts, Forall (fun c => wf c) l -> counts_of ids counts ->
    exists counts', fold_left (fun counts item =>
      counts ← counts;
      match _optional_batch_item_id item with
      | Ok None => Ok counts
      | Ok (Some b) => Ok (count_id b counts)
      | Raise e => match e with ProtocolFailure _ _ | TtlvError _ => Ok counts | _ => Raise e end
      end) l (Ok counts) = Ok counts' /\ counts_of (ids ++ batch_ids l) counts') as Hall.
  { apply (Hall items [] []); [done|]. intros b. by rewrite decide_False by set_solver. }
  clear items Hw. intros l ids counts Hl. revert ids counts.
  induction Hl as [|n l Hn _ IH]; intros ids counts Hc; cbn [fold_left mbind res_bind].
  { exists counts. by rewrite app_nil_r. }
  unfold batch_ids. cbn [omap list_omap]. pose proof (good_batch_item_id n Hn) as Hg.
  destruct (_optional_batch_item_id n) as [[b|]|e] eqn:E.
  - destruct (IH (ids ++ [b]) (count_id b counts)) as (c'&E'&Hc'); [by apply counts_of_snoc|].
    exists c'. split; [done|]. by rewrite <- app_assoc in Hc'.
  - by apply IH.
  - destruct (batch_item_id_raise n e E) as [(m&->)|[(r&m&->)| ->]]; [by apply IH..|]. by destruct Hg.
Qed.

(* ------------------------------------------------------------------ *)
(** ** Every item is answered *)

Section Sound.
Context {S : Type} `{KeyStoreLaws S}.

(** The exceptions of the store other than its own class. *)
Context (foreign : exn -> Prop).

Definition raises_only {A} (c : ST S A) : Prop :=
  forall s e s', c s = (Raise e, s') -> is_KeyStoreError e = true \/ foreign e.

Record store_errors : Prop := {
  se_foreign e : foreign e -> batch_failure e = None;
  se_create p n a : raises_only (ks_create p n a);
  se_activate p k : raises_only (ks_activate p k);
  se_get p k : raises_only (ks_get p k);
  se_metadata p k : raises_only (ks_metadata p k);
  se_locate p st n l : raises_only (ks_locate p st n l)
}.

(** The exceptions an operation may end with. *)
Definition tolerated (e : exn) : Prop := handled e \/ foreign e \/ exists msg, e = ValueError msg.

Definition sound {A} (P : A -> Prop) (r : res A) (s' : S) : Prop :=
  (exists c, holds c s') /\ match r with Ok a => P a | Raise e => tolerated e end.

Lemma KeyStoreError_handled e : is_KeyStoreError e = true -> handled e.
Proof. by destruct e. Qed.

Lemma wp_store {A} (ct : ST S A) (P : res A -> S -> Prop) s :
  wp ct P s -> raises_only ct ->
  wp ct (fun r s' => P r s' /\ forall e, r = Raise e -> tolerated e) s.
Proof.
  unfold wp. intros HP Hr. split; [done|]. intros e He. destruct (ct s) as [r s'] eqn:E. cbn in *. subst.
  destruct (Hr s e s' E) as [Hk|Hf]; [left; by apply KeyStoreError_handled|right; by left].
Qed.

Lemma wp_good {A B} (P : A -> Prop) (Q : B -> Prop) (r : res A) (k : A -> ST S B) c s :
  holds c s -> good P r -> (forall a, P a -> wp (k a) (sound Q) s) -> wp (x ← lift r; k x) (sound Q) s.
Proof.
  intros Hs Hr Hk. apply wp_bind, wp_lift. destruct r as [a|e]; [by apply Hk|].
  split; [by exists c|by left].
Qed.

Lemma sound_raise {A} (P : A -> Prop) c s e : holds c s -> tolerated e -> sound P (Raise e) s.
Proof. intros Hs He. split; [by exists c|done]. Qed.

Lemma sound_ret {A} (P : A -> Prop) c s a : holds c s -> P a -> wp (mret a) (sound P) s.
Proof. intros Hs Ha. split; [by exists c|done]. Qed.

Abbreviation wfs := (Forall (fun c => wf c)).

Lemma lookup_meta_ok c s p k x : holds c s -> lookup_contents c p k = Ok x -> meta_ok x.1.
Proof.
  intros Hs Hl. apply lookup_contents_Ok in Hl as (p'&k'&_&Hk). by apply (law_keys _ _ Hs _ _ Hk).
Qed.

Hypothesis Herr : store_errors.

Lemma wp_create_sound p payload c s : holds c s -> wf payload -> wp (_create p payload) (sound wfs) s.
Proof.
  intros Hs Hw. unfold _create. eapply wp_good; [done|by apply good_create_request|]. intros [n a] _.
  apply wp_bind. eapply wp_mono; [apply wp_store; [by apply law_create|apply Herr]|].
  intros r s' [Hr He]. destruct r as [m|e].
  - destruct Hr as [[_ Hr]|(m'&pt&Hcr&_&Hs'&Hr)]; [done|]. injection (Hr eq_refl) as ->.
    eapply sound_ret; [done|]. constructor; [auto with wf|]. constructor; [|constructor].
    apply wf_text, canonical_scalar, Hcr.
  - destruct Hr as [[Hs' _]|(m'&pt&_&_&Hs'&_)]; (eapply sound_raise; [done|by apply He]).
Qed.

Lemma wp_activate_sound p payload c s : holds c s -> wf payload -> wp (_activate p payload) (sound wfs) s.
Proof.
  intros Hs Hw. unfold _activate.
  eapply wp_good; [done|by apply good_or_fail, good_assert_only_tags|]. intros _ _.
  eapply wp_good; [done|by apply good_unique_identifier|]. intros k Hk.
  apply wp_bind. eapply wp_mono; [apply wp_store; [by apply law_activate|apply Herr]|].
  intros r s' [Hr He]. assert (exists c', holds c' s') as [c' Hs'].
  { destruct Hr as [[? _]|(?&?&?&_&_&?&_)]; eauto. }
  destruct r as [m|e]; [|eapply sound_raise; [done|by apply He]].
  eapply sound_ret; [done|]. constructor; [by apply wf_text|constructor].
Qed.

Lemma wf_key_object b : wf (key_object b).
Proof. unfold key_object. auto 12 with wf. Qed.

Lemma wp_get_sound p payload c s : holds c s -> wf payload -> wp (_get p payload) (sound wfs) s.
Proof.
  intros Hs Hw. unfold _get.
  eapply wp_good; [done|by apply good_or_fail, good_assert_only_tags|]. intros _ _.
  eapply wp_good; [done|by apply good_child|]. intros f Hf. apply wp_bind.
  apply (wp_mono _ (fun r s' => s' = s /\ good (fun _ => True) r)).
  { destruct f as [n|]; [|by apply wp_ret]. apply wp_bind, wp_lift.
    pose proof (good_integer n ENUMERATION Hf ltac:(by right)) as Hg.
    destruct (_integer_value n ENUMERATION); [|done]. apply wp_lift. split; [done|].
    eapply good_mono; [apply good_raise_if|done]. }
  intros r s' [-> Hr]. destruct r as [u|e]; [|eapply sound_raise; [done|by left]].
  eapply wp_good; [done|by apply good_unique_identifier|]. intros k Hk.
  apply wp_bind. eapply wp_mono; [apply wp_store; [by apply law_get|apply Herr]|].
  intros r s' [[Hs' Hl] He]. destruct r as [[m pt]|e]; [|eapply sound_raise; [done|by apply He]].
  pose proof (lookup_meta_ok _ _ _ _ _ Hs (Hl _ eq_refl)) as Hm.
  eapply wp_good; [done|apply good_raise_if|]. intros _ _. eapply sound_ret; [done|].
  constructor; [auto with wf|]. constructor; [apply wf_text, Hm|]. constructor; [apply wf_key_object|constructor].
Qed.

Lemma scalar_sorted_custom name : name ∈ sorted_custom_attributes -> scalar_text name.
Proof.
  unfold sorted_custom_attributes, sorted_str. rewrite merge_sort_Permutation. apply supported_scalar.
Qed.

Lemma attribute_names_scalar m : Forall scalar_text (attribute_names m).
Proof.
  unfold attribute_names. repeat (apply Forall_app; split).
  - repeat constructor.
  - destruct (sk_name m); by repeat constructor.
  - destruct (sk_activated_at m); by repeat constructor.
  - apply Forall_forall. intros x [_ Hx]%list_elem_of_filter. by apply scalar_sorted_custom.
Qed.

Lemma wp_get_attribute_list_sound p payload c s :
  holds c s -> wf payload -> wp (_get_attribute_list p payload) (sound wfs) s.
Proof.
  intros Hs Hw. unfold _get_attribute_list.
  eapply wp_good; [done|by apply good_or_fail, good_assert_only_tags|]. intros _ _.
  eapply wp_good; [done|by apply good_unique_identifier|]. intros k Hk.
  apply wp_bind. eapply wp_mono; [apply wp_store; [by apply law_metadata|apply Herr]|].
  intros r s' [[Hs' Hl] He]. destruct r as [m|e]; [|eapply sound_raise; [done|by apply He]].
  destruct (Hl m eq_refl) as [pt Hpt]. pose proof (lookup_meta_ok _ _ _ _ _ Hs Hpt) as Hm.
  eapply sound_ret; [done|]. constructor; [apply wf_text, Hm|]. apply Forall_map.
  eapply Forall_impl; [apply attribute_names_scalar|]. intros x Hx. by apply wf_text.
Qed.

Lemma good_present_names m requested :
  Forall scalar_text requested -> good (Forall scalar_text) (present_names m requested).
Proof.
  intros Hr. unfold present_names. eapply good_bind; [apply good_raise_if|]. intros _ _. cbn.
  apply Forall_forall. intros x [_ Hx]%list_elem_of_filter.
  assert (Forall scalar_text (match requested with [] => attribute_names m | _ => requested end)) as Hall.
  { destruct requested; [apply attribute_names_scalar|done]. }
  rewrite Forall_forall in Hall. by apply Hall.
Qed.

Lemma wp_get_attributes_sound p payload c s :
  holds c s -> wf payload -> wp (_get_attributes p payload) (sound wfs) s.
Proof.
  intros Hs Hw. unfold _get_attributes.
  eapply wp_good; [done|by apply good_or_fail, good_assert_only_tags|]. intros _ _.
  eapply wp_good; [done|by apply good_unique_identifier|]. intros k Hk.
  apply wp_bind. eapply wp_mono; [apply wp_store; [by apply law_metadata|apply Herr]|].
  intros r s' [[Hs' Hl] He]. destruct r as [m|e]; [|eapply sound_raise; [done|by apply He]].
  destruct (Hl m eq_refl) as [pt Hpt]. pose proof (lookup_meta_ok _ _ _ _ _ Hs Hpt) as Hm.
  eapply wp_good; [done|by apply good_children|]. intros nodes Hn.
  eapply wp_good; [done|apply (good_mapM (fun c => wf c)); [apply good_text|done]|]. intros requested Hq.
  eapply wp_good; [done|by apply good_present_names|]. intros names Hnames.
  apply wp_bind, wp_lift.
  assert (match mapM (fun name => _metadata_attribute name m) names with
          | Ok l => wfs l | Raise e => tolerated e end) as Hatt.
  { induction Hnames as [|x l Hx _ IH]; cbn; [constructor|].
    pose proof (good_metadata_attribute x m Hm Hx) as Hg. destruct (_metadata_attribute x m) as [t|e]; cbn.
    - destruct (mapM _ l); cbn; [by constructor|done].
    - destruct Hg; [by left|right; by right]. }
  destruct (mapM _ names) as [l|e]; [|by eapply sound_raise].
  eapply sound_ret; [done|]. constructor; [apply wf_text, Hm|done].
Qed.

Lemma wp_locate_sound p payload c s : holds c s -> wf payload -> wp (_locate p payload) (sound wfs) s.
Proof.
  intros Hs Hw. unfold _locate.
  eapply wp_good; [done|by apply good_or_fail, good_assert_only_tags|]. intros _ _.
  eapply wp_good; [done|by apply good_children|]. intros nodes Hn.
  eapply wp_good; [done|by apply good_locate_filters|]. intros [[st n]|] _; [|eapply sound_ret; [done|constructor]].
  apply wp_bind. eapply wp_mono; [apply wp_store; [by apply law_locate|apply Herr]|].
  intros r s' [[Hs' Hl] He]. destruct r as [ids|e]; [|eapply sound_raise; [done|by apply He]].
  destruct (Hl ids eq_refl) as (provider&_&Hids). eapply sound_ret; [done|]. apply Forall_map.
  eapply Forall_impl; [exact Hids|]. intros id [x Hx]. apply wf_text.
  destruct (law_keys _ _ Hs _ _ Hx) as [Hid Hm]. injection Hid as _ <-. apply Hm.
Qed.

Lemma good_query payload : wf payload -> good wfs (_query payload).
Proof.
  intros Hw. unfold _query.
  eapply good_bind; [by apply good_or_fail, good_assert_only_tags|]. intros _ _.
  eapply good_bind; [by apply good_children|]. intros nodes Hn.
  eapply good_bind.
  { apply (good_mapM (fun c => wf c) (fun _ => True)); [|done]. intros n Hwn.
    eapply good_mono; [apply good_integer; [done|by right]|done]. }
  intros requested Hr. do 2 (eapply good_bind; [apply good_raise_if|]; intros _ _).
  apply good_fmap. eapply good_mono; [apply (good_mapM (fun _ => True) wfs); [|done]|].
  - intros f _. unfold query_function. repeat case_match; by repeat constructor.
  - intros ls Hls. induction Hls; cbn; [constructor|]. apply Forall_app. auto.
Qed.

Lemma wf_version v : v ∈ SUPPORTED_PROTOCOL_VERSIONS -> wf (_version_node v).
Proof. revert v. apply Forall_forall. by repeat constructor. Qed.

Lemma good_discover payload : wf payload -> good wfs (_discover_versions payload).
Proof.
  intros Hw. unfold _discover_versions.
  eapply good_bind; [by apply good_or_fail, good_assert_only_tags|]. intros _ _.
  eapply good_bind; [by apply good_children|]. intros nodes Hn.
  eapply good_bind; [apply (good_mapM (fun c => wf c)); [apply good_protocol_version|done]|].
  intros [|v vs] _; cbn [good]; apply Forall_map, Forall_forall; intros x Hx; apply wf_version; [done|].
  by apply list_elem_of_filter in Hx as [_ Hx].
Qed.

Lemma wp_dispatch_operation_sound p o payload c s :
  holds c s -> wf payload -> wp (_dispatch_operation p o payload) (sound wfs) s.
Proof.
  intros Hs Hw. unfold _dispatch_operation. eapply wp_good; [done|apply good_raise_if|]. intros _ _.
  assert (forall r, good wfs r -> wp (lift r) (sound wfs) s) as Hlift.
  { intros r Hr. split; [by exists c|]. destruct r; [done|by left]. }
  destruct o; [by eapply wp_create_sound|by eapply wp_locate_sound|by eapply wp_get_sound
    |by eapply wp_get_attributes_sound|by eapply wp_get_attribute_list_sound|by eapply wp_activate_sound| |].
  - by apply Hlift, good_query.
  - by apply Hlift, good_discover.
Qed.

(** The exceptions that leave [dispatch_item]: those no handler answers. *)
Definition unanswered (e : exn) : Prop := foreign e \/ exists msg, e = ValueError msg.

Definition answered (P : Ttlv -> Prop) (r : res Ttlv) (s' : S) : Prop :=
  (exists c, holds c s') /\ match r with Ok t => P t | Raise e => unanswered e end.

(** A reason code that a failure reports fits an enumeration. *)
Lemma wf_failed_batch o r m b :
  fits_signed 4 o = true -> fits_signed 4 r = true -> wf (_failed_batch o r m b).
Proof. intros Ho Hr. unfold _failed_batch. destruct b; cbn [id_node app]; auto 10 with wf. Qed.

Lemma wf_succeeded_batch o b l : wfs l -> wf (succeeded_batch o b l).
Proof.
  intros Hl. unfold succeeded_batch. destruct b; cbn [id_node app]; destruct o; auto 10 with wf.
Qed.


Lemma wp_answer_failure_sound o b e c s :
  holds c s -> fits_signed 4 o = true -> tolerated e ->
  wp (answer_failure o b e) (answered (fun t => wf t)) s.
Proof.
  intros Hs Ho He. unfold answer_failure. unfold tolerated, handled in He.
  destruct (batch_failure e) as [[r m]|] eqn:E.
  - split; [by exists c|]. destruct He as [He|[He|(msg&->)]]; [by apply wf_failed_batch| |done].
    apply (se_foreign Herr) in He. congruence.
  - split; [by exists c|]. destruct He as [He|He]; done.
Qed.

Lemma good_check_batch_item n counts b v :
  (forall i, b = Some i -> is_Some (id_count i counts)) ->
  good (fun _ => True) (check_batch_item n counts b v).
Proof.
  intros Hb. unfold check_batch_item. apply (good_bind (fun _ => True)).
  - destruct b as [i|]; [|eapply good_mono; [apply good_raise_if|done]].
    destruct (Hb i eq_refl) as [k ->]. eapply good_mono; [apply good_raise_if|done].
  - intros _ _. by destruct (operation_of v).
Qed.

Lemma wp_dispatch_item_sound p n counts items item c s :
  holds c s -> item ∈ items -> wf item -> counts_of (batch_ids items) counts ->
  wp (dispatch_item p n counts item) (answered (fun t => wf t)) s.
Proof.
  intros Hs Hin Hw Hc. unfold dispatch_item. apply wp_attempt, wp_lift.
  assert (good (fun b => _optional_batch_item_id item = Ok b)
    (_ ← raise_if (negb (bool_decide (type item = STRUCTURE)))
       (ProtocolFailure INVALID_MESSAGE "Batch Item must be a structure."); _optional_batch_item_id item)) as Hb.
  { eapply good_bind; [apply good_raise_if|]. intros _ _. pose proof (good_batch_item_id item Hw) as Hg.
    by destruct (_optional_batch_item_id item). }
  destruct (_ ≫= _) as [b|e]; [|eapply wp_answer_failure_sound; [done|done|by left]]. cbn in Hb.
  apply wp_attempt, wp_lift.
  assert (good (fun z => fits_signed 4 z = true)
    (_ ← assert_only_tags item
           [tag_value OPERATION; tag_value UNIQUE_BATCH_ITEM_ID; tag_value REQUEST_PAYLOAD];
     node ← _required_child item OPERATION; _integer_value node ENUMERATION)) as Ho.
  { eapply good_bind; [by apply good_assert_only_tags|]. intros _ _.
    eapply good_bind; [by apply good_required_child|]. intros node Hn. apply good_integer; [done|by right]. }
  destruct (_ ≫= _) as [v|e]; [|eapply wp_answer_failure_sound; [done|done|by left]]. cbn in Ho.
  apply wp_attempt, wp_bind, wp_lift.
  assert (good (fun _ => True) (check_batch_item n counts b v)) as Hk.
  { apply good_check_batch_item. intros i ->. rewrite Hc, decide_True; [eauto|].
    unfold batch_ids. apply list_elem_of_omap. exists item. split; [done|]. by rewrite Hb. }
  destruct (check_batch_item n counts b v) as [o|e]; [|eapply wp_answer_failure_sound; [done|done|by left]].
  apply wp_bind, wp_lift. pose proof (good_required_child item REQUEST_PAYLOAD Hw) as Hp.
  destruct (_required_child item _) as [payload|e]; [|eapply wp_answer_failure_sound; [done|done|by left]].
  apply wp_bind. eapply wp_mono; [by eapply wp_dispatch_operation_sound|].
  intros r s' [[c' Hs'] Hr]. destruct r as [l|e]; [|by eapply wp_answer_failure_sound].
  apply wp_ret, wp_ret. split; [by exists c'|]. by apply wf_succeeded_batch.
Qed.

Lemma wp_dispatch_items_sound p n counts items l c s :
  holds c s -> l ⊆ items -> wfs l -> counts_of (batch_ids items) counts ->
  wp (dispatch_items p n counts l) (fun r s' => (exists c', holds c' s') /\
    match r with Ok ts => wfs ts /\ length ts = length l | Raise e => unanswered e end) s.
Proof.
  revert c s; induction l as [|item l IH]; intros c s Hs Hsub Hl Hc; cbn [dispatch_items].
  { apply wp_ret. split; [by exists c|done]. }
  apply Forall_cons in Hl as [Hw Hl]. apply wp_bind.
  eapply wp_mono; [eapply wp_dispatch_item_sound; [done|apply Hsub; left|done|done]|].
  intros r s1 [[c1 Hs1] Hr]. destruct r as [t|e]; [|split; [by exists c1|done]].
  apply wp_bind. eapply wp_mono; [eapply IH; [done|set_solver|done|done]|].
  intros r s2 [[c2 Hs2] Hr2]. destruct r as [ts|e]; [|split; [by exists c2|done]].
  apply wp_ret. split; [by exists c2|]. destruct Hr2 as [? Hlen]. split; [by constructor|]. cbn. lia.
Qed.

(** What the checks of the request leave. *)
Lemma good_request_items request :
  wf request ->
  good (fun x => x.1 ∈ SUPPORTED_PROTOCOL_VERSIONS /\ wfs x.2 /\ zlen x.2 <= MAX_BATCH_ITEMS) (request_items request).
Proof.
  intros Hw. unfold request_items. eapply good_bind; [apply good_raise_if|]. intros _ _.
  eapply good_bind; [by apply good_or_fail, good_assert_only_tags|]. intros _ _.
  eapply good_bind; [by apply good_required_child|]. intros header Hh.
  eapply good_bind; [apply good_raise_if|]. intros _ _.
  eapply good_bind; [by apply good_or_fail, good_assert_only_tags|]. intros _ _.
  eapply good_bind; [by apply good_required_child|]. intros vn Hvn.
  eapply good_bind; [by apply good_protocol_version|]. intros v _.
  eapply good_bind; [apply good_raise_if|]. intros [] Hv. cbn in Hv. apply negb_false_iff, mem_spec in Hv.
  eapply good_bind; [by apply good_children|]. intros items Hi.
  eapply good_bind; [by apply good_required_child|]. intros cn Hcn.
  eapply good_bind; [apply good_integer; [done|by left]|]. intros n _.
  eapply good_bind; [apply good_raise_if|]. intros [] Hn. cbn in Hn. cbn. unfold MAX_BATCH_ITEMS in *.
  split_and!; [done|done|lia].
Qed.

(** C33. A well-formed request is always answered, and with a well-formed response:
    [dispatch] raises only when the request header is refused, or when the store raised
    something other than a [KeyStoreError] (or an activation date cannot be read), and
    never a [KeyError], [TypeError] or [AssertionError] of its own. *)
Theorem dispatch_answered now p request c s :
  holds c s -> wf request -> fits_signed 8 now = true ->
  wp (dispatch now p request) (fun r s' =>
    match r with
    | Ok response => wf response
    | Raise e => (request_items request = Raise e /\ handled e) \/ unanswered e
    end) s.
Proof.
  intros Hs Hw Hnow. unfold dispatch. pose proof (good_request_items request Hw) as Hg.
  apply wp_bind, wp_lift. destruct (request_items request) as [[v items]|e]; [|by left].
  destruct Hg as (Hv&Hi&Hlen). cbn in Hv, Hi, Hlen.
  destruct (batch_id_counts_spec items Hi) as (counts&->&Hc). apply wp_bind, wp_lift.
  apply wp_bind. eapply wp_mono; [by eapply (wp_dispatch_items_sound _ _ _ items items)|].
  intros r s' [_ Hr]. destruct r as [ts|e]; [|by right]. destruct Hr as [Hts Hl].
  apply wp_ret. unfold response_message. apply wf_struct. constructor; [|done].
  apply wf_struct. constructor; [by apply wf_version|]. constructor; [by apply wf_date_time|].
  constructor; [|constructor]. apply wf_integer. unfold fits_signed. change (8 * Z.of_nat 4 - 1) with 31.
  unfold zlen, MAX_BATCH_ITEMS in *. apply andb_true_iff. rewrite Hl. lia.
Qed.
End Sound.
