(* ===== verification/KeyService.v ===== *)
(** The key service: the dispatcher of [Protocol.v] over the store of [Store.v].
    The store's methods implement the dispatcher's interface, and its invariant
    discharges the interface's laws. *)

From S2P Require Import Prelude Utf8 PyText Uuid Json Ttlv World Store StoreSpec StoreInv StoreOpen.
From S2P Require Import Protocol ProtocolSpec ProtocolWf.
Open Scope Z_scope.

#[global] Instance wrapped_key_store `{Aead} : KeyStore World := {|
  ks_create := create_key;
  ks_activate := activate_key;
  ks_get := get_key;
  ks_metadata := get_metadata;
  ks_locate := locate_keys
|}.

Section Service.
Context `{Aead} {laws : AeadLaws}.
Context (mk K : bytes) (recovery : option bytes).

(** The store holds the keys [c]. *)
Definition store_holds (c : keys) (w : World) : Prop :=
  exists d, store_inv mk K recovery d w /\ contents K d = c.

(** A method that changes nothing. *)
Lemma read_only_law {A} (c : ST World A) (P : A -> Prop) d g w :
  wp c (mutated mk K recovery d g (fun d' a => d' = d /\ P a)) w ->
  wp c (fun r w' => store_holds (contents K d) w' /\ forall a, r = Ok a -> P a) w.
Proof.
  intros Hc. eapply wp_mono; [exact Hc|]. intros r w' [[Hi Hr]|(d'&a&[-> HP]&Hi&Hr)].
  - split; [by exists d|]. intros a ->. done.
  - split; [by exists d|]. intros a' ->. destruct (Hr eq_refl) as [E _]. by injection E as ->.
Qed.

Lemma located_present d provider st n l ids :
  db_ok K d -> located_ids K d provider st n l ids -> Forall (fun id => is_Some (contents K d !! (provider, id))) ids.
Proof.
  intros Hd (found&Hp&_&->). apply Forall_map, Forall_forall. intros m Hm.
  assert (m ∈ found) as Hin.
  { rewrite <- (take_drop (Z.to_nat l) found). set_solver. }
  rewrite Hp in Hin. apply list_elem_of_filter in Hin as [[Hpr _] Hin].
  unfold all_metadata in Hin. apply list_elem_of_fmap in Hin as ([m' pt]&->&Hin).
  apply list_elem_of_fmap in Hin as ([k x]&E&Hin). apply elem_of_map_to_list in Hin. cbn in *. subst x.
  destruct (contents_keys K d Hd _ _ Hin) as [Hk _]. cbn in Hk. subst.
  unfold key_of in Hin. eauto.
Qed.

#[export] Instance store_laws : KeyStoreLaws World.
Proof.
  refine {| holds := store_holds |}.
  - intros c w (d&Hi&<-). apply (contents_keys K), Hi.
  - intros p n a c w (d&Hi&<-). eapply wp_mono; [by apply wp_create_key|].
    intros r w' [[Hi' Hr]|(d'&m&(Hcr&Hn&pt&_&Hct)&Hi'&Hr)]; [left; split; [by exists d|done]|right].
    exists m, pt. split_and!; try done; [by exists d'|]. intros Ho. by apply Hr.
  - intros p k c w (d&Hi&<-). eapply wp_mono; [by apply wp_activate_key|].
    intros r w' [[Hi' Hr]|(d'&m&(m0&pt&Hl&Hm)&Hi'&Hr)]; [left; split; [by exists d|by rewrite Hr]|].
    destruct Hm as [(Hs&->&->)|(Hs&at_&->&Hct)]; [left|right].
    + split; [by exists d|]. intros Ho. exists m0, pt. split_and!; [by apply Hr|done|done].
    + exists m0, pt, at_. split_and!; [done|done|by exists d'|]. intros Ho. by apply Hr.
  - intros p k c w (d&Hi&<-). by apply (read_only_law _ _ _ _ _ (wp_get_key _ _ _ p k d w Hi)).
  - intros p k c w (d&Hi&<-). by apply (read_only_law _ _ _ _ _ (wp_get_metadata _ _ _ p k d w Hi)).
  - intros p st n l c w (d&Hi&<-).
    eapply wp_mono; [apply (read_only_law _ _ _ _ _ (wp_locate_keys _ _ _ p st n l d w Hi))|].
    intros r w' [Hw' Hr]. split; [done|]. intros ids E. destruct (Hr ids E) as (provider&Hp&Hl).
    exists provider. split; [done|]. by eapply located_present, Hl; apply Hi.
Defined.

(* ------------------------------------------------------------------ *)
(** ** The exceptions of the store *)

(** [dispatch] has no answer for [e]. *)
Definition foreign (e : exn) : Prop := batch_failure e = None.

Definition polite_exn (e : exn) : Prop := is_KeyStoreError e = true \/ foreign e.

Definition polite_res {A} (r : res A) : Prop := match r with Ok _ => True | Raise e => polite_exn e end.

Definition polite {A} (c : M A) : Prop := forall w, polite_res (c w).1.

Lemma polite_rbind {A B} (r : res A) (f : A -> res B) :
  polite_res r -> (forall a, polite_res (f a)) -> polite_res (r ≫= f).
Proof. destruct r; cbn; auto. Qed.

Lemma polite_ok {A} (a : A) : polite_res (Ok a).
Proof. done. Qed.

Lemma polite_raise {A} e : polite_exn e -> polite_res (@Raise A e).
Proof. done. Qed.

Lemma polite_raise_if b e : polite_exn e -> polite_res (raise_if b e).
Proof. by destruct b. Qed.

Lemma polite_rethrow {A} cls e (r : res A) :
  polite_exn e -> (forall e', r = Raise e' -> cls e' = true \/ polite_exn e') -> polite_res (rethrow cls e r).
Proof.
  intros He Hr. destruct r as [a|e']; [done|]. cbn. destruct (cls e') eqn:E; [done|].
  destruct (Hr e' eq_refl) as [Ht|Ht]; [congruence|exact Ht].
Qed.

Lemma polite_bind {A B} (c : M A) (k : A -> M B) : polite c -> (forall a, polite (k a)) -> polite (c ≫= k).
Proof. intros Hc Hk w. specialize (Hc w). unfold mbind, ST_bind. destruct (c w) as [[a|e] w']; [apply Hk|done]. Qed.

Lemma polite_lift {A} (r : res A) : polite_res r -> polite (lift r).
Proof. by intros Hr w. Qed.

Lemma polite_gets {A} (f : World -> A) : polite (gets f).
Proof. done. Qed.

Lemma polite_modify f : polite (modify f).
Proof. done. Qed.

Lemma polite_ret {A} (a : A) : polite (mret a).
Proof. done. Qed.

Lemma polite_io e : polite_exn e -> polite (io e).
Proof. intros He w. unfold io. destruct (faults w) as [|[] ?]; try done. by right. Qed.

Lemma polite_catch {A} cls (c : M A) h :
  polite c -> (forall e, polite_exn e -> polite (h e)) -> polite (catch cls c h).
Proof.
  intros Hc Hh w. specialize (Hc w). unfold catch. destruct (c w) as [[a|e] w']; [done|].
  destruct (cls e); [by apply Hh|done].
Qed.

Lemma polite_ValueError msg : polite_exn (ValueError msg).
Proof. by right. Qed.
Lemma polite_SqliteError : polite_exn SqliteError.
Proof. by right. Qed.
Lemma polite_OSError : polite_exn OSError.
Proof. by right. Qed.
Lemma polite_AssertionError : polite_exn AssertionError.
Proof. by right. Qed.
Lemma polite_KeyStoreError msg : polite_exn (KeyStoreError msg).
Proof. by left. Qed.
Lemma polite_KeyStateError msg : polite_exn (KeyStateError msg).
Proof. by left. Qed.
Lemma polite_KeyNotFoundError msg : polite_exn (KeyNotFoundError msg).
Proof. by left. Qed.

Create HintDb polite.
#[local] Hint Resolve polite_rbind polite_ok polite_raise polite_raise_if polite_bind polite_lift polite_gets polite_modify polite_ret
  polite_io polite_catch polite_ValueError polite_SqliteError polite_OSError polite_AssertionError
  polite_KeyStoreError polite_KeyStateError polite_KeyNotFoundError : polite.

Lemma polite_utf8_encode s : polite_res (utf8_encode s).
Proof. destruct (utf8_encode s) as [b|e] eqn:E; [done|]. apply utf8_encode_raise in E as ->. by right. Qed.

Lemma polite_utf8_decode b : polite_res (utf8_decode b).
Proof. destruct (utf8_decode b) as [s|e] eqn:E; [done|]. apply utf8_decode_raise in E as ->. by right. Qed.

Lemma polite_dumps v : polite_res (dumps_bytes v).
Proof. apply polite_utf8_encode. Qed.

Lemma polite_validated_uuid s l : polite_res (_validated_uuid s l).
Proof.
  apply polite_rethrow; [auto with polite|]. intros e E. apply bind_Raise in E as [E|(?&_&?)]; [|done].
  apply uuid_int_Raise in E as [? ->]. by left.
Qed.

Lemma polite_aesgcm k : polite_res (AESGCM k).
Proof. destruct (AESGCM k) eqn:E; [done|]. apply aead_key_raise in E as [? ->]. by right. Qed.

Lemma polite_encrypt k n p a : polite_res (aes_encrypt k n p a).
Proof. destruct (aes_encrypt k n p a) eqn:E; [done|]. apply aead_encrypt_raise in E. right. by destruct e. Qed.

Lemma polite_aad m : polite_res (_canonical_aad m).
Proof. unfold _canonical_aad. apply polite_rbind; [auto with polite|]. intros _. apply polite_dumps. Qed.
#[local] Hint Resolve polite_utf8_encode polite_utf8_decode polite_dumps polite_validated_uuid polite_aesgcm
  polite_encrypt polite_aad : polite.

Lemma polite_normalize pairs acc : polite_res (normalize_attributes pairs acc).
Proof.
  revert acc; induction pairs as [|[a v] pairs IH]; intros acc; [done|]. cbn [normalize_attributes].
  do 2 (apply polite_rbind; [auto with polite|]; intros _). destruct v; try apply polite_ValueError.
  apply polite_rbind; [auto with polite|]. intros b. apply polite_rbind; [auto with polite|]. intros _. apply IH.
Qed.

Lemma validated_attributes_raise pairs e : _validated_custom_attributes pairs = Raise e -> is_ValueError e = true.
Proof.
  assert (forall pairs acc e, normalize_attributes pairs acc = Raise e -> is_ValueError e = true) as Hn.
  { clear. intros pairs; induction pairs as [|[a v] pairs IH]; intros acc e E; [done|]. cbn [normalize_attributes] in E.
    do 2 (apply bind_Raise in E as [E|(?&_&E)]; [by apply raise_if_Raise in E as [_ ->]|]).
    destruct v; try (injection E as <-; done).
    apply bind_Raise in E as [E|(?&_&E)]; [by apply utf8_encode_raise in E as ->|].
    apply bind_Raise in E as [E|(?&_&E)]; [by apply raise_if_Raise in E as [_ ->]|by eapply IH]. }
  unfold _validated_custom_attributes. intros E.
  apply bind_Raise in E as [E|(?&_&E)]; [by apply raise_if_Raise in E as [_ ->]|].
  apply bind_Raise in E as [E|(?&_&E)]; [by eapply Hn|done].
Qed.

Lemma polite_attributes pairs : polite_res (_validated_custom_attributes pairs).
Proof.
  unfold _validated_custom_attributes. apply polite_rbind; [auto with polite|]. intros _.
  apply polite_rbind; [apply polite_normalize|done].
Qed.

Lemma polite_decrypt_row k r : polite_res (_decrypt_row k r).
Proof.
  unfold _decrypt_row. apply polite_rbind.
  { unfold _metadata. apply polite_rbind; [|done]. apply polite_rethrow; [auto with polite|]. intros e E. left.
    apply bind_Raise in E as [E|(doc&_&E)]; [apply loads_raise in E; by rewrite E; destruct e|].
    destruct doc as [| | | | | |items]; try (injection E as <-; done).
    destruct (default _ _) as [| | | | | |raw]; try (injection E as <-; done).
    apply validated_attributes_raise in E. by rewrite E; destruct e. }
  intros m. apply polite_rbind; [auto with polite|]. intros aad. apply polite_rbind; [auto with polite|]. intros b.
  apply polite_rbind; [auto with polite|]. intros _. apply polite_rbind; [|intros pt; auto with polite].
  apply polite_rethrow; [auto with polite|]. intros e E. apply bind_Raise in E as [E|(?&_&E)].
  - apply aead_key_raise in E as [? ->]. right. auto with polite.
  - apply aead_decrypt_raise in E as [->|[? ->]]; [by left|right; auto with polite].
Qed.
#[local] Hint Resolve polite_attributes polite_decrypt_row : polite.

Lemma polite_urandom n : polite (urandom n).
Proof. done. Qed.
Lemma polite_now : polite now_isoformat.
Proof. done. Qed.
Lemma polite_uuid4 : polite uuid4.
Proof. done. Qed.
Lemma polite_rollback : polite rollback.
Proof. done. Qed.
#[local] Hint Resolve polite_urandom polite_now polite_uuid4 polite_rollback : polite.

Lemma polite_reraise {A} e : polite_exn e -> polite (_ ← rollback; lift (@Raise A e)).
Proof. intros He. apply polite_bind; [auto with polite|]. intros _. by apply polite_lift. Qed.

Lemma polite_commit : polite commit.
Proof.
  unfold commit. apply polite_bind; [auto with polite|]. intros t. destruct t; [|auto with polite].
  apply polite_bind; [auto with polite|]. intros _. auto with polite.
Qed.
#[local] Hint Resolve polite_reraise polite_commit : polite.

Lemma polite_connect {A} (body : M A) : polite body -> polite (_connect body).
Proof. intros Hb. unfold _connect. auto 10 with polite. Qed.

Lemma polite_seal k e n : polite_res (seal_envelope k e n).
Proof.
  unfold seal_envelope, int_text_limit. apply polite_rbind; [auto with polite|]. intros _.
  apply polite_rbind; [destruct (pending_generation e); [auto with polite|done]|]. intros _.
  apply polite_rbind; [auto with polite|]. intros p. apply polite_rbind; [auto with polite|]. intros _.
  apply polite_rbind; [auto with polite|]. intros c. apply polite_rbind; [auto with polite|done].
Qed.
#[local] Hint Resolve polite_connect polite_seal : polite.

Lemma polite_write_envelope e : polite (_write_envelope e).
Proof. unfold _write_envelope, _write_kek_envelope. auto 12 with polite. Qed.
#[local] Hint Resolve polite_write_envelope : polite.

Lemma polite_commitment d : polite_res (_store_commitment d).
Proof. unfold _store_commitment. apply polite_rbind; [auto with polite|done]. Qed.
#[local] Hint Resolve polite_commitment : polite.

Lemma polite_verify : polite _verify_store_commitment.
Proof.
  unfold _verify_store_commitment. do 5 (apply polite_bind; [auto with polite|intros ?]).
  repeat case_match; auto with polite.
Qed.

Lemma polite_commit_mutation : polite _commit_mutation.
Proof.
  unfold _commit_mutation. do 5 (apply polite_bind; [auto with polite|intros ?]).
  apply polite_bind; [|auto with polite]. apply polite_catch; [auto with polite|]. intros e He.
  do 2 (apply polite_bind; [auto with polite|intros _]). by apply polite_lift.
Qed.
#[local] Hint Resolve polite_verify polite_commit_mutation : polite.

Lemma polite_row d p k : polite_res (_row d p k).
Proof.
  unfold _row. do 2 (apply polite_rbind; [auto with polite|intros ?]). case_match; [done|apply polite_KeyNotFoundError].
Qed.
#[local] Hint Resolve polite_row : polite.

Lemma polite_verified_row p k : polite (verified_row p k).
Proof. unfold verified_row. auto 10 with polite. Qed.

Lemma polite_bind_text n : polite_res (bind_text n).
Proof. destruct n; [|done]. cbn. apply polite_rbind; [auto with polite|done]. Qed.
#[local] Hint Resolve polite_verified_row polite_bind_text : polite.

Lemma polite_insert r : polite (insert_row r).
Proof. unfold insert_row. auto 12 with polite. Qed.

Lemma polite_update a b c d e f g : polite (update_row a b c d e f g).
Proof.
  unfold update_row. do 3 (apply polite_bind; [auto with polite|intros ?]). repeat case_match; auto 10 with polite.
Qed.
#[local] Hint Resolve polite_insert polite_update : polite.

Lemma polite_raises {A} (c : M A) : polite c -> raises_only foreign c.
Proof. intros Hc w e w' E. specialize (Hc w). by rewrite E in Hc. Qed.

(** Every exception of the store is a [KeyStoreError] or one that [dispatch] does not
    answer: it never raises the protocol's own. *)
Lemma wrapped_store_errors : store_errors (S := World) foreign.
Proof.
  split; [done|..]; intros; apply polite_raises; cbn [ks_create ks_activate ks_get ks_metadata ks_locate wrapped_key_store].
  - unfold create_key. repeat first [apply polite_connect | apply polite_bind; [auto with polite|intros ?]].
    auto with polite.
  - apply polite_connect, polite_bind; [auto with polite|]. intros [m pt]. case_decide; [auto with polite|].
    repeat (apply polite_bind; [auto with polite|intros ?]). auto with polite.
  - apply polite_connect. auto with polite.
  - apply polite_connect, polite_bind; [auto with polite|]. intros [m pt]. auto with polite.
  - unfold locate_keys. repeat first [apply polite_connect | apply polite_bind; [auto with polite|intros ?]].
    auto with polite.
Qed.
End Service.
