(* ===== verification/Demo.v ===== *)
(** A concrete instance of the AEAD interface, and a small world to evaluate the store
    in: the hypotheses of the store's theorems can hold, and the definitions run.

    The cipher appends a SHA-256 tag over key, nonce, associated data and message; it
    meets the laws the store relies on (it hides nothing, which no law asks for). *)

From S2P Require Import Prelude Utf8 PyText Uuid Json Base64 Sha256 World Store StoreSpec StoreInv StoreOpen StoreLive.
Open Scope Z_scope.

Definition demo_tag (k n p a : bytes) : bytes := take 16 (sha256 (k ++ n ++ a ++ p)).
Arguments demo_tag : simpl never.

#[export] Instance demo_aead : Aead := {|
  AESGCM k := if (length k =? 32)%nat then Ok tt else Raise (ValueError "AESGCM key must be 256 bits.");
  aes_encrypt k n p a :=
    if (8 <=? length n)%nat then Ok (p ++ demo_tag k n p a) else Raise (ValueError "Nonce must be at least 8 bytes");
  aes_decrypt k n c a :=
    if (8 <=? length n)%nat then
      let p := take (length c - 16) c in
      if bool_decide (c = p ++ demo_tag k n p a) then Ok p else Raise InvalidTag
    else Raise (ValueError "Nonce must be at least 8 bytes")
|}.

#[export] Instance demo_aead_laws : AeadLaws.
Proof.
  split; cbn.
  - by intros k ->.
  - intros k e. case_match; [done|]. intros E. injection E as <-. eauto.
  - intros k n p a c. case_match; [|done]. intros E. injection E as <-.
    assert (length (demo_tag k n p a) = 16%nat) as Ht.
    { unfold demo_tag. by rewrite length_take, sha256_length. }
    rewrite length_app, Ht, Nat.add_sub, take_app_length.
    by rewrite bool_decide_eq_true_2.
  - intros k n c a e. case_match; [|intros E; injection E as <-; eauto].
    case_bool_decide; [done|]. intros E; injection E as <-. by left.
  - intros k n p a _ Hn _ _. rewrite Hn. cbn. eauto.
  - intros k n p a e. case_match; [done|]. intros E. injection E as <-. done.
  - intros k n p a c. case_match; [|done]. intros E. injection E as <-.
    rewrite length_app. f_equal. unfold demo_tag. by rewrite length_take, sha256_length.
Qed.

(** No files yet, ample random bytes, a clock that advances by one second. *)
Definition demo_random : bytes := map (fun i => to_byte (Z.of_nat i * 7 + 3)) (seq 0 400).
Definition demo_clock : list Z := [1700000000000000; 1700000001000000; 1700000002500000; 1700000003000000].
Definition no_self : WrappedKeyStore := mkStore false [] [] (mkKekEnvelope [] 0 [] None None).
Definition demo_world : World :=
  mkWorld None None None false empty_db false no_self demo_random demo_clock [].

Definition demo_secret : pystr := str "appliance secret".
Definition demo_provider : pystr := str "11111111-2222-3333-4444-555555555555".
Definition demo_other : pystr := str "99999999-2222-3333-4444-555555555555".

(** The world after opening a new store. *)
Definition demo_open : World := (__init__ demo_secret false demo_world).2.

Example demo_open_ok : is_ok (__init__ demo_secret false demo_world).1 = true.
Proof. vm_compute. reflexivity. Qed.

(** A key is created, found by its provider only, activated, and read back. *)
Definition demo_create : res StoredKey * World :=
  create_key demo_provider (Some (str "datastore")) [(str "x-Vendor", str "VMware")] demo_open.
Definition created_id (r : res StoredKey) : pystr := match r with Ok m => sk_key_id m | Raise _ => [] end.
Definition demo_key : pystr := created_id demo_create.1.

Example demo_created : is_ok demo_create.1 = true.
Proof. vm_compute. reflexivity. Qed.

Example demo_isolated : (get_key demo_other demo_key demo_create.2).1
  = Raise (KeyNotFoundError "KMIP key was not found in the authenticated provider.").
Proof. vm_compute. reflexivity. Qed.

Example demo_reopened :
  let w := (activate_key demo_provider demo_key demo_create.2).2 in
  let w' := (__init__ demo_secret false w).2 in
  match (get_key demo_provider demo_key demo_create.2).1, (get_key demo_provider demo_key w').1 with
  | Ok (m, key), Ok (m', key') => sk_state m = Pre_Active /\ sk_state m' = Active /\ key = key'
  | _, _ => False
  end.
Proof. vm_compute. done. Qed.

(** The wrong secret does not open the store. *)
Example demo_wrong_secret : (__init__ (str "another secret") false demo_create.2).1
  = Raise (KeyStoreError "KMIP KEK could not be opened with the configured appliance secrets key.").
Proof. vm_compute. reflexivity. Qed.

(* ------------------------------------------------------------------ *)
(** ** The invariant of the store just opened *)

Definition ok_bytes (r : res bytes) : bytes := match r with Ok b => b | Raise _ => [] end.
Definition demo_mk : bytes := ok_bytes (_master_key demo_secret).
Definition demo_kek : bytes := take_pad x00 32 demo_random.
Definition demo_db : Db := with_schema empty_db.

Lemma demo_master : _master_key demo_secret = Ok demo_mk.
Proof. vm_compute. reflexivity. Qed.

Lemma demo_mk_length : length demo_mk = 32%nat.
Proof. vm_compute. reflexivity. Qed.

Lemma demo_custody : custody demo_secret demo_mk None.
Proof. split; [apply demo_mk_length|]. exists demo_mk. split; [apply demo_master|done]. Qed.

Lemma live_end {A} (c : M A) Q w : live c (fun _ w' => Q w') w -> Q (c w).2.
Proof. unfold live, wp. destruct (c w) as [[a|e] w']; cbn; [by intros [_ ?]|done]. Qed.

Lemma demo_ready : ready demo_mk demo_kek None demo_db demo_open.
Proof.
  exact (live_end (__init__ demo_secret false) (ready demo_mk demo_kek None demo_db) demo_world
    (live_init_fresh demo_secret demo_mk demo_world demo_master eq_refl eq_refl eq_refl eq_refl)).
Qed.

Lemma demo_generation : small (generation (self_envelope (self demo_open)) + 1).
Proof. replace (generation (self_envelope (self demo_open))) with 0; [done|]. vm_compute. reflexivity. Qed.

Lemma demo_contents : contents demo_kek demo_db = ∅.
Proof. done. Qed.

(** The store with one key. *)
Definition demo_attributes : list (pystr * pystr) := [(str "x-Vendor", str "VMware")].
Definition demo_name : option pystr := Some (str "datastore").
Definition demo_world1 : World := demo_create.2.
Definition db_of (w : World) : Db := default empty_db (database w).
Definition demo_db1 : Db := db_of demo_world1.
Definition demo_found : res (StoredKey * bytes) := lookup_key demo_kek demo_db1 demo_provider demo_key.
Definition no_key : StoredKey * bytes := (mkStoredKey [] [] [] 0 None [] [] None [], []).
Definition ok_key (r : res (StoredKey * bytes)) : StoredKey * bytes := match r with Ok x => x | Raise _ => no_key end.
Definition demo_stored : StoredKey * bytes := ok_key demo_found.

Lemma demo_name_ok : name_ok demo_name.
Proof. split; [by repeat constructor|]. split; [by apply (bool_decide_unpack _)|done]. Qed.

Lemma demo_provider_ok : is_ok (_validated_uuid demo_provider "provider_id must be a UUID.") = true.
Proof. vm_compute. reflexivity. Qed.

Lemma demo_attributes_ok : is_ok (_validated_custom_attributes (json_attributes demo_attributes)) = true.
Proof. vm_compute. reflexivity. Qed.

Lemma demo_fresh provider : contents demo_kek demo_db !! (provider, next_key demo_open) = None.
Proof. rewrite demo_contents. apply lookup_empty. Qed.

Lemma demo_create_live :
  live (create_key demo_provider demo_name demo_attributes)
    (fun _ w' => ready demo_mk demo_kek None (db_of w') w') demo_open.
Proof.
  eapply live_mono; [eapply live_wp|].
  - exact (live_create_key demo_mk demo_kek None demo_provider demo_name demo_attributes demo_db demo_open
      (rd_faults _ _ _ _ _ demo_ready) demo_mk_length (rd_inv _ _ _ _ _ demo_ready)
      (rd_settled _ _ _ _ _ demo_ready) demo_generation demo_provider_ok demo_attributes_ok demo_name_ok demo_fresh).
  - exact (wp_create_key demo_mk demo_kek None demo_provider demo_name demo_attributes demo_db demo_open
      (rd_inv _ _ _ _ _ demo_ready)).
  - intros m w' Hf [_ [[_ ?]|(d'&a&_&Hi&Hr)]]; [done|]. destruct (Hr eq_refl) as (_&Hs&_).
    assert (db_of w' = d') as -> by (unfold db_of; by rewrite (si_database _ _ _ _ _ Hi)). by split.
Qed.

Lemma demo_ready1 : ready demo_mk demo_kek None demo_db1 demo_world1.
Proof.
  exact (live_end (create_key demo_provider demo_name demo_attributes)
    (fun w' => ready demo_mk demo_kek None (db_of w') w') demo_open demo_create_live).
Qed.

Lemma demo_lookup : lookup_key demo_kek demo_db1 demo_provider demo_key = Ok (demo_stored.1, demo_stored.2).
Proof. vm_compute. reflexivity. Qed.

Lemma demo_generation1 : small (generation (self_envelope (self demo_world1)) + 1).
Proof. replace (generation (self_envelope (self demo_world1))) with 1; [done|]. vm_compute. reflexivity. Qed.

Lemma demo_short : short demo_stored.1.
Proof. split; vm_compute; (discriminate || exact I). Qed.

(** The envelope in the KEK file. *)
Definition demo_envelope1 : _KekEnvelope := self_envelope (self demo_world1).

Lemma demo_file1 : file_holds demo_mk demo_envelope1 demo_world1.
Proof. exists (default [] (kek_file demo_world1)). split; vm_compute; reflexivity. Qed.

Lemma demo_committed1 : _store_commitment demo_db1 = Ok (commitment demo_envelope1).
Proof. vm_compute. reflexivity. Qed.

Lemma demo_settled1 : pending_commitment demo_envelope1 = None.
Proof. vm_compute. reflexivity. Qed.

Lemma demo_db_changed : demo_db <> demo_db1.
Proof.
  intros E. apply (f_equal (fun d => length (map_to_list (wrapped_keys d)))) in E. vm_compute in E. discriminate E.
Qed.

(** Faults do not matter to the invariant. *)
Lemma store_inv_faults mk K recovery d f w :
  store_inv mk K recovery d w -> store_inv mk K recovery d (set_faults f w).
Proof. intros Hi. by eapply store_inv_ext. Qed.

(** Replacing the database file. *)
Lemma recovery_set_database d w r : recovery_master w = r -> recovery_master (set_database d w) = r.
Proof. done. Qed.
Lemma file_set_database mk e d w : file_holds mk e w -> file_holds mk e (set_database d w).
Proof. done. Qed.
Lemma database_set_database d w : database (set_database d w) = d.
Proof. done. Qed.

(** The row of the key, and the row with another state. *)
Definition no_row : Row := mkRow [] [] [] 0 None [] [] None [] [] [].
Definition demo_row : Row := default no_row (wrapped_keys demo_db1 !! (demo_provider, demo_key)).
Definition forged (r : Row) : Row :=
  mkRow (row_provider_id r) (row_key_id r) (row_algorithm r) (row_key_length r) (row_name r) Active
    (row_created_at r) (Some (isoformat 0)) (row_nonce r) (row_ciphertext r) (row_aad_json r).

Lemma forged_aad r : row_aad_json (forged r) = row_aad_json r.
Proof. done. Qed.

Lemma demo_row_decrypts : _decrypt_row demo_kek demo_row = Ok (demo_stored.1, demo_stored.2).
Proof. vm_compute. reflexivity. Qed.

Lemma demo_meta_ok : meta_ok demo_stored.1.
Proof.
  destruct (lookup_key_Ok demo_kek demo_db1 demo_provider demo_key _ _
    (si_db _ _ _ _ _ (rd_inv _ _ _ _ _ demo_ready1)) demo_lookup) as (r&_&_&_&_&_&_&_&Hm). exact Hm.
Qed.

Lemma demo_forged : _metadata (forged demo_row) = Ok (activated demo_stored.1 (isoformat 0)).
Proof. vm_compute. reflexivity. Qed.

Lemma demo_forged_differs : activated demo_stored.1 (isoformat 0) <> demo_stored.1.
Proof. intros E. apply (f_equal sk_state) in E. vm_compute in E. discriminate E. Qed.
