(* ===== verification/IpAddress.v ===== *)
(** [str(ipaddress.ip_address(text))] of Python 3.14: the textual forms of IPv4 and
    IPv6 addresses that the KMIP configuration accepts, and their canonical form. *)

From S2P Require Import Prelude PyText Json.
Open Scope Z_scope.

(** [s.split(c)]. *)
Fixpoint split_on (c : Z) (s : pystr) : list pystr :=
  match s with
  | [] => [[]]
  | x :: s' =>
    if x =? c then [] :: split_on c s'
    else match split_on c s' with
         | p :: ps => (x :: p) :: ps
         | [] => [[x]]
         end
  end.

(** [_BaseV4._parse_octet]. *)
Definition parse_octet (s : pystr) : option Z :=
  if bool_decide (s = []) || negb (forallb is_digit s) || (3 <? zlen s) ||
     (negb (bool_decide (s = str "0")) && bool_decide (head s = Some 48))
  then None
  else
    let n := of_digits 10 (map (fun c => c - 48) s) in
    if 255 <? n then None else Some n.

(** [IPv4Address(s)] as a 32-bit integer. *)
Definition ipv4_int (s : pystr) : option Z :=
  match split_on 46 s with
  | [a; b; c; d] =>
    a ← parse_octet a; b ← parse_octet b; c ← parse_octet c; d ← parse_octet d;
    Some (((a * 256 + b) * 256 + c) * 256 + d)
  | _ => None
  end.

(** [str(IPv4Address(n))]. *)
Definition ipv4_str (n : Z) : pystr :=
  join_with (str ".") (map dump_int [n / 16777216; n / 65536 mod 256; n / 256 mod 256; n mod 256]).

(** [_BaseV6._parse_hextet]. *)
Definition parse_hextet (s : pystr) : option Z :=
  if bool_decide (s = []) || (4 <? zlen s) then None
  else l ← hex_digits_of s; Some (of_digits 16 l).

Fixpoint parse_hextets (acc : Z) (l : list pystr) : option Z :=
  match l with
  | [] => Some acc
  | h :: l => v ← parse_hextet h; parse_hextets (acc * 65536 + v) l
  end.

(** The lower-case hexadecimal digits of [n], without leading zeros. *)
Definition hex_str (n : Z) : pystr := map hex_char (digits 16 n).

(** The indexes of the empty parts other than the first and the last. *)
Definition inner_empty (parts : list pystr) : list nat :=
  filter (fun i => parts !! i = Some []) (seq 1 (length parts - 2)).

(** [_BaseV6._ip_int_from_string]. *)
Definition ipv6_int (s : pystr) : option Z :=
  let parts := split_on 58 s in
  if (zlen parts <? 3) then None else
  parts ← (let last_part := default [] (last parts) in
           if mem 46 last_part then
             n ← ipv4_int last_part;
             Some (removelast parts ++ [hex_str (n / 65536); hex_str (n mod 65536)])
           else Some parts);
  if 9 <? zlen parts then None else
  let first_empty := bool_decide (head parts = Some []) in
  let last_empty := bool_decide (last parts = Some []) in
  match inner_empty parts with
  | [] =>
    if negb (zlen parts =? 8) || first_empty || last_empty then None else parse_hextets 0 parts
  | [skip_index] =>
    let parts_hi := (if first_empty then skip_index - 1 else skip_index)%nat in
    let parts_lo0 := (length parts - skip_index - 1)%nat in
    let parts_lo := (if last_empty then parts_lo0 - 1 else parts_lo0)%nat in
    if (first_empty && negb (parts_hi =? 0)%nat) || (last_empty && negb (parts_lo =? 0)%nat) ||
       (8 - Z.of_nat (parts_hi + parts_lo) <? 1)
    then None
    else
      hi ← parse_hextets 0 (take parts_hi parts);
      parse_hextets (hi * 65536 ^ (8 - Z.of_nat (parts_hi + parts_lo))) (drop (length parts - parts_lo) parts)
  | _ => None
  end.

(** The first longest run of zeros: its start and length. *)
Fixpoint longest_zeros (hextets : list Z) (index start len best_start best_len : Z) : Z * Z :=
  match hextets with
  | [] => (best_start, best_len)
  | h :: hextets =>
    if h =? 0 then
      let len := len + 1 in
      let start := if start =? -1 then index else start in
      if best_len <? len then longest_zeros hextets (index + 1) start len start len
      else longest_zeros hextets (index + 1) start len best_start best_len
    else longest_zeros hextets (index + 1) (-1) 0 best_start best_len
  end.

(** [_BaseV6._string_from_ip_int]. *)
Definition ipv6_hex_str (n : Z) : pystr :=
  let hextets := digits_fixed 65536 8 n in
  let '(start, len) := longest_zeros hextets 0 (-1) 0 (-1) 0 in
  let texts := map hex_str hextets in
  let texts :=
    if 1 <? len then
      let tail := drop (Z.to_nat (start + len)) texts in
      (if start =? 0 then [[]] else []) ++ take (Z.to_nat start) texts ++ [[]] ++
      (match tail with [] => [[]] | _ => tail end)
    else texts in
  join_with (str ":") texts.

(** [str] of an IPv6 address: an IPv4-mapped one shows its IPv4 part. *)
Definition ipv6_str (n : Z) : pystr :=
  if n / 2 ^ 32 =? 0xffff then ipv6_hex_str 0xffff ++ str ":" ++ ipv4_str (n mod 2 ^ 32)
  else ipv6_hex_str n.

(** [IPv6Address(s)]: the integer and the scope. *)
Definition ipv6_scoped (s : pystr) : option (Z * pystr) :=
  match split_on 37 s with
  | [a] => n ← ipv6_int a; Some (n, [])
  | [a; scope] => if bool_decide (scope = []) then None else n ← ipv6_int a; Some (n, scope)
  | _ => None
  end.

(** [str(ip_address(s))]. *)
Definition ip_address_str (s : pystr) : res pystr :=
  if mem 47 s then Raise (ValueError "does not appear to be an IPv4 or IPv6 address") else
  match ipv4_int s with
  | Some n => Ok (ipv4_str n)
  | None =>
    match ipv6_scoped s with
    | Some (n, scope) => Ok (ipv6_str n ++ match scope with [] => [] | _ => str "%" ++ scope end)
    | None => Raise (ValueError "does not appear to be an IPv4 or IPv6 address")
    end
  end.

Example ip_v4 : ip_address_str (str "192.168.10.1") = Ok (str "192.168.10.1").
Proof. vm_compute. reflexivity. Qed.
Example ip_v4_zeros : is_ok (ip_address_str (str "192.168.010.1")) = false.
Proof. vm_compute. reflexivity. Qed.
Example ip_v6_all : ip_address_str (str "0:0:0:0:0:0:0:0") = Ok (str "::").
Proof. vm_compute. reflexivity. Qed.
Example ip_v6_doc : ip_address_str (str "2001:DB8:0:0:1:0:0:1") = Ok (str "2001:db8::1:0:0:1").
Proof. vm_compute. reflexivity. Qed.
Example ip_v6_loop : ip_address_str (str "::1") = Ok (str "::1").
Proof. vm_compute. reflexivity. Qed.
Example ip_v6_mapped : ip_address_str (str "::ffff:10.0.0.1") = Ok (str "::ffff:10.0.0.1").
Proof. vm_compute. reflexivity. Qed.
Example ip_v6_scope : ip_address_str (str "fe80::1%eth0") = Ok (str "fe80::1%eth0").
Proof. vm_compute. reflexivity. Qed.
Example ip_v6_end : ip_address_str (str "fe80:0:0:0:0:0:0:0") = Ok (str "fe80::").
Proof. vm_compute. reflexivity. Qed.
Example ip_v6_two : is_ok (ip_address_str (str "1::2::3")) = false.
Proof. vm_compute. reflexivity. Qed.
