(* ===== verification/Networks.v ===== *)
(** [ipaddress.ip_network(text, strict=False)] of Python 3.14: the textual forms of IPv4 and
    IPv6 networks, with prefix lengths, netmasks and hostmasks, and the addresses they hold. *)

From S2P Require Import Prelude PyText Json IpAddress.
Open Scope Z_scope.

Inductive Family : Type := V4 | V6.

#[global] Instance family_eq_dec : EqDecision Family.
Proof. solve_decision. Defined.

(** [max_prefixlen]. *)
Definition width (f : Family) : Z := match f with V4 => 32 | V6 => 128 end.

Record Network : Type := mkNetwork {
  version : Family;
  network_address : Z;
  prefixlen : Z;
  scope_id : pystr
}.

(** [_prefix_from_prefix_string]. *)
Definition prefix_from_prefix_string (f : Family) (s : pystr) : option Z :=
  if bool_decide (s = []) || negb (forallb is_digit s) then None
  else let n := of_digits 10 (map (fun c => c - 48) s) in
       if n <=? width f then Some n else None.

(** [_prefix_from_ip_int]: the mask with [p] leading ones, if there is one. *)
Definition prefix_from_ip_int (mask : Z) : option Z :=
  head (filter (fun p => mask = 2 ^ 32 - 2 ^ (32 - p)) (seqZ 0 33)).

(** [_prefix_from_ip_string]: a netmask, or a hostmask. *)
Definition prefix_from_ip_string (s : pystr) : option Z :=
  mask ← ipv4_int s;
  match prefix_from_ip_int mask with
  | Some p => Some p
  | None => prefix_from_ip_int (Z.lxor mask (2 ^ 32 - 1))
  end.

(** [_make_netmask]. *)
Definition make_netmask (f : Family) (s : pystr) : option Z :=
  match prefix_from_prefix_string f s with
  | Some p => Some p
  | None => match f with V4 => prefix_from_ip_string s | V6 => None end
  end.

(** [IPv4Address(s)] and [IPv6Address(s)]: the integer and the scope. *)
Definition address_of (f : Family) (s : pystr) : option (Z * pystr) :=
  match f with V4 => n ← ipv4_int s; Some (n, []) | V6 => ipv6_scoped s end.

(** The first address of the network of [a]. *)
Definition masked (f : Family) (p a : Z) : Z := Z.shiftl (Z.shiftr a (width f - p)) (width f - p).

(** [IPv4Network(s, strict)] and [IPv6Network(s, strict)]: masking host bits off drops the
    scope, and is an error when [strict]. *)
Definition network_of (strict : bool) (f : Family) (s : pystr) : option Network :=
  '(address, mask) ← match split_on 47 s with
                     | [a] => Some (a, None)
                     | [a; m] => Some (a, Some m)
                     | _ => None
                     end;
  '(n, scope) ← address_of f address;
  p ← match mask with Some m => make_netmask f m | None => Some (width f) end;
  if masked f p n =? n then Some (mkNetwork f n p scope)
  else if strict then None else Some (mkNetwork f (masked f p n) p []).

(** [ip_network(s, strict=False)] and [ip_network(s)]; [None] is [ValueError].  A text of an
    IPv4 network with host bits is none of IPv6. *)
Definition ip_network (s : pystr) : option Network :=
  match network_of false V4 s with Some n => Some n | None => network_of false V6 s end.
Definition ip_network_strict (s : pystr) : option Network :=
  match network_of true V4 s with Some n => Some n | None => network_of true V6 s end.

(** [str(network)]. *)
Definition network_str (n : Network) : pystr :=
  (match version n with
   | V4 => ipv4_str (network_address n)
   | V6 => ipv6_str (network_address n) ++ match scope_id n with [] => [] | scope => str "%" ++ scope end
   end) ++ str "/" ++ dump_int (prefixlen n).

(** An address, and the networks that hold it. *)
Record Address : Type := mkAddress { family : Family; value : Z }.

Definition in_network (a : Address) (n : Network) : bool :=
  bool_decide (family a = version n) && (masked (family a) (prefixlen n) (value a) =? network_address n).

Example network_v4 : network_str <$> ip_network (str "192.0.2.77/24") = Some (str "192.0.2.0/24").
Proof. vm_compute. reflexivity. Qed.
Example network_host : network_str <$> ip_network (str "192.0.2.77") = Some (str "192.0.2.77/32").
Proof. vm_compute. reflexivity. Qed.
Example network_netmask : network_str <$> ip_network (str "10.1.2.3/255.255.0.0") = Some (str "10.1.0.0/16").
Proof. vm_compute. reflexivity. Qed.
Example network_hostmask : network_str <$> ip_network (str "10.1.2.3/0.0.255.255") = Some (str "10.1.0.0/16").
Proof. vm_compute. reflexivity. Qed.
Example network_bad_mask : ip_network (str "10.1.2.3/255.0.255.0") = None.
Proof. vm_compute. reflexivity. Qed.
Example network_v6 : network_str <$> ip_network (str "2001:db8::1/64") = Some (str "2001:db8::/64").
Proof. vm_compute. reflexivity. Qed.
Example network_scoped : network_str <$> ip_network (str "fe80::%eth0/64") = Some (str "fe80::%eth0/64").
Proof. vm_compute. reflexivity. Qed.
Example network_any : ip_network (str "any") = None.
Proof. vm_compute. reflexivity. Qed.
