(* ===== verification/IpRoundtrip.v ===== *)
(** The text of an address or a network is read back as the same one. *)

From S2P Require Import Prelude PyText Json IpAddress Networks.
Open Scope Z_scope.

(* ------------------------------------------------------------------ *)
(** ** Splitting and joining *)

Lemma split_on_none c s : c ∉ s -> split_on c s = [s].
Proof.
  induction s as [|x s IH]; intros Hc; [done|]. apply not_elem_of_cons in Hc as [Hx Hs]. cbn.
  destruct (Z.eqb_spec x c); [congruence|]. by rewrite IH.
Qed.

Lemma split_on_app c a b : c ∉ a -> split_on c (a ++ c :: b) = a :: split_on c b.
Proof.
  induction a as [|x a IH]; intros Hc; cbn; [by rewrite Z.eqb_refl|]. apply not_elem_of_cons in Hc as [Hx Ha].
  destruct (Z.eqb_spec x c); [congruence|]. by rewrite IH.
Qed.

Lemma split_on_join c l : l <> [] -> Forall (fun s => c ∉ s) l -> split_on c (join_with [c] l) = l.
Proof.
  induction l as [|x [|y l] IH]; intros Hne Hl; [done| |]; apply Forall_cons in Hl as [Hx Hl].
  - by apply split_on_none.
  - change (join_with [c] (x :: y :: l)) with (x ++ c :: join_with [c] (y :: l)). rewrite split_on_app by done. by rewrite IH.
Qed.

(* ------------------------------------------------------------------ *)
(** ** Numbers *)

(** Facts about small numbers, by trying all of them. *)
Lemma small_forall (f : Z -> bool) n k : forallb f (seqZ 0 n) = true -> 0 <= k < n -> f k = true.
Proof. intros Hf Hk. rewrite forallb_forall in Hf. apply Hf. by apply list_elem_of_In, elem_of_seqZ. Qed.

Definition decimal_text (s : pystr) : bool := negb (bool_decide (s = [])) && forallb is_digit s.

Lemma octet_text n : 0 <= n < 256 -> parse_octet (dump_int n) = Some n /\ decimal_text (dump_int n) = true.
Proof.
  assert (forallb (fun n => bool_decide (parse_octet (dump_int n) = Some n) && decimal_text (dump_int n)) (seqZ 0 256) = true) as Hall
    by (vm_compute; reflexivity).
  intros Hn. pose proof (small_forall _ _ _ Hall Hn) as [E%bool_decide_eq_true E']%andb_true_iff. done.
Qed.

Lemma prefix_text f p : 0 <= p <= width f -> prefix_from_prefix_string f (dump_int p) = Some p /\ decimal_text (dump_int p) = true.
Proof.
  assert (forallb (fun p => bool_decide (prefix_from_prefix_string f (dump_int p) = Some p) && decimal_text (dump_int p))
    (seqZ 0 (width f + 1)) = true) as Hall by (destruct f; vm_compute; reflexivity).
  intros Hp. pose proof (small_forall _ _ p Hall ltac:(lia)) as [E%bool_decide_eq_true E']%andb_true_iff. done.
Qed.

Lemma decimal_avoids c s : decimal_text s = true -> (c < 48 \/ 57 < c) -> c ∉ s.
Proof.
  intros Hs%andb_true_iff Hc Hin. destruct Hs as [_ Hs]. rewrite forallb_forall in Hs. apply list_elem_of_In in Hin.
  specialize (Hs c Hin). unfold is_digit in Hs. lia.
Qed.

(* ------------------------------------------------------------------ *)
(** ** IPv4 *)

Lemma ipv4_octets n : 0 <= n < 2 ^ 32 ->
  Forall (fun o => 0 <= o < 256) [n / 16777216; n / 65536 mod 256; n / 256 mod 256; n mod 256] /\
  ((n / 16777216 * 256 + n / 65536 mod 256) * 256 + n / 256 mod 256) * 256 + n mod 256 = n.
Proof.
  intros Hn. split.
  - repeat constructor; try (apply Z.mod_pos_bound; lia); try (apply Z.div_pos; lia). apply Z.div_lt_upper_bound; lia.
  - replace (n / 16777216) with (n / 256 / 256 / 256) by (rewrite !Z.div_div by lia; done).
    replace (n / 65536) with (n / 256 / 256) by (rewrite !Z.div_div by lia; done).
    pose proof (Z.div_mod n 256). pose proof (Z.div_mod (n / 256) 256). pose proof (Z.div_mod (n / 256 / 256) 256). lia.
Qed.

Lemma ipv4_roundtrip n : 0 <= n < 2 ^ 32 -> ipv4_int (ipv4_str n) = Some n.
Proof.
  intros Hn. destruct (ipv4_octets n Hn) as [Ho E]. unfold ipv4_int, ipv4_str.
  rewrite split_on_join; [|done|].
  - rewrite !Forall_cons in Ho. destruct Ho as (H1&H2&H3&H4&_). cbn [map].
    rewrite (proj1 (octet_text _ H1)), (proj1 (octet_text _ H2)), (proj1 (octet_text _ H3)), (proj1 (octet_text _ H4)).
    cbn [mbind option_bind]. by rewrite E.
  - apply Forall_fmap. eapply Forall_impl; [exact Ho|]. intros o H. apply decimal_avoids; [by apply octet_text|lia].
Qed.

(** The characters of an IPv4 address. *)
Lemma ipv4_str_avoids n c : 0 <= n < 2 ^ 32 -> c <> 46 -> (c < 48 \/ 57 < c) -> c ∉ ipv4_str n.
Proof.
  intros Hn Hd Hc. destruct (ipv4_octets n Hn) as [Ho _]. rewrite !Forall_cons in Ho. destruct Ho as (H1&H2&H3&H4&_).
  unfold ipv4_str. cbn [map join_with]. pose proof (fun o H => decimal_avoids c (dump_int o) (proj2 (octet_text o H)) Hc) as Ha.
  rewrite !elem_of_app. change (str ".") with [46]. rewrite !list_elem_of_singleton. pose proof (Ha _ H1). pose proof (Ha _ H2). pose proof (Ha _ H3). pose proof (Ha _ H4). tauto.
Qed.

(* ------------------------------------------------------------------ *)
(** ** IPv6 *)

Lemma hex_str_digits h : 0 <= h < 65536 ->
  exists c t, hex_str h = c :: t /\ (length (c :: t) <= 4)%nat /\ Forall (fun x => is_lower_hex x = true) (c :: t) /\ hex_digits_of (c :: t) = Some (digits 16 h).
Proof.
  intros Hh. unfold hex_str. pose proof (digits_nonempty 16 h) as Hne. pose proof (digits_range 16 h ltac:(lia)) as Hr.
  pose proof (digits_length 16 h 4 ltac:(lia) ltac:(lia) ltac:(cbn; lia)) as Hl.
  destruct (digits 16 h) as [|d l] eqn:E; [done|]. exists (hex_char d), (map hex_char l). split; [done|]. split_and!.
  - cbn in *. rewrite length_map. lia.
  - change (hex_char d :: map hex_char l) with (map hex_char (d :: l)). apply Forall_fmap. eapply Forall_impl; [exact Hr|]. intros x. apply hex_char_lower.
  - change (hex_char d :: map hex_char l) with (map hex_char (d :: l)). by apply hex_digits_of_map.
Qed.

Lemma hextet_text h : 0 <= h < 65536 -> parse_hextet (hex_str h) = Some h.
Proof.
  intros Hh. destruct (hex_str_digits h Hh) as (c&t&->&Hl&_&Hd). unfold parse_hextet. rewrite bool_decide_eq_false_2 by done.
  replace (4 <? zlen (c :: t)) with false by (unfold zlen; symmetry; apply Z.ltb_ge; lia). cbn [orb]. rewrite Hd.
  cbn [mbind option_bind]. by rewrite of_digits_digits by lia.
Qed.

Lemma hex_str_avoids c h : 0 <= h < 65536 -> c < 48 \/ 57 < c < 97 \/ 102 < c -> c ∉ hex_str h.
Proof.
  intros Hh Hc Hin. destruct (hex_str_digits h Hh) as (x&t&E&_&Hf&_). rewrite E in Hin. rewrite Forall_forall in Hf.
  specialize (Hf c Hin). unfold is_lower_hex in Hf. lia.
Qed.

(** What [ipv6_int] does with the parts between the colons. *)
Definition parts_int (parts : list pystr) : option Z :=
  if 9 <? zlen parts then None else
  let first_empty := bool_decide (head parts = Some []) in
  let last_empty := bool_decide (last parts = Some []) in
  match inner_empty parts with
  | [] =>
    if negb (zlen parts =? 8) || first_empty || last_empty then None else parse_hextets 0 parts
  | [skip_index] =>
    let parts_hi := (if first_empty then skip_index - 1 else skip_index)%nat in
    let parts_lo0 := (length parts - skip_index - 1)%nat in
    let parts_lo := (if last_empty then parts_lo0 - 1 else parts_lo0)%nat in
    if (first_empty && negb (parts_hi =? 0)%nat) || (last_empty && negb (parts_lo =? 0)%nat) ||
       (8 - Z.of_nat (parts_hi + parts_lo) <? 1)
    then None
    else
      hi ← parse_hextets 0 (take parts_hi parts);
      parse_hextets (hi * 65536 ^ (8 - Z.of_nat (parts_hi + parts_lo))) (drop (length parts - parts_lo) parts)
  | _ => None
  end.

Lemma ipv6_int_parts s :
  ipv6_int s = let parts := split_on 58 s in
    if (zlen parts <? 3) then None else
    parts ← (let last_part := default [] (last parts) in
             if mem 46 last_part then
               n ← ipv4_int last_part;
               Some (removelast parts ++ [hex_str (n / 65536); hex_str (n mod 65536)])
             else Some parts);
    parts_int parts.
Proof. reflexivity. Qed.

(** The texts of eight hextets with the run of [len] zeros from [start] left out. *)
Definition compressed (texts : list pystr) (start len : nat) : list pystr :=
  (match start with O => [[]] | _ => [] end) ++ take start texts ++ [[]] ++
  (match drop (start + len) texts with [] => [[]] | tail => tail end).

Definition runs : list (nat * nat) :=
  [(0,2);(0,3);(0,4);(0,5);(0,6);(0,7);(0,8);(1,2);(1,3);(1,4);(1,5);(1,6);(1,7);(2,2);(2,3);(2,4);(2,5);(2,6);
   (3,2);(3,3);(3,4);(3,5);(4,2);(4,3);(4,4);(5,2);(5,3);(6,2)]%nat.

(** The hextet with a text that is not empty. *)
Definition texts_of (hextets : list Z) (texts : list pystr) : Prop :=
  Forall2 (fun h t => parse_hextet t = Some h /\ t <> []) hextets texts.

Lemma parts_int_compressed h texts start len :
  length h = 8%nat -> texts_of h texts -> (start, len) ∈ runs -> take len (drop start h) = replicate len 0 ->
  parts_int (compressed texts start len) = Some (of_digits 65536 h).
Proof.
  intros Hl Ht Hr Hz. destruct h as [|h0 [|h1 [|h2 [|h3 [|h4 [|h5 [|h6 [|h7 [|]]]]]]]]]; try discriminate Hl.
  unfold texts_of in Ht. 
  repeat match goal with H : Forall2 _ (_ :: _) _ |- _ => apply Forall2_cons_inv_l in H as (?&?&[? ?]&?&->) end.
  match goal with H : Forall2 _ [] _ |- _ => apply Forall2_nil_inv_l in H as -> end.
  repeat match goal with H : ?t <> [] |- _ => destruct t; [done|clear H] end.
  apply list_elem_of_In in Hr. cbn [runs In] in Hr.
  repeat (destruct Hr as [Hr|Hr]; [injection Hr as <- <-; cbn in Hz; simplify_eq|]); [..|done].
  all: cbv -[parse_hextet Z.mul Z.add Z.pow of_digits];
    repeat match goal with H : parse_hextet ?t = Some _ |- context [parse_hextet ?t] => rewrite H end;
    match goal with |- context [8 + ?k] => let v := eval vm_compute in (8 + k) in change (8 + k) with v end;
    cbv beta iota; f_equal; unfold of_digits; cbn [fold_left]; ring.
Qed.

Lemma parts_int_plain h texts :
  length h = 8%nat -> texts_of h texts -> parts_int texts = Some (of_digits 65536 h).
Proof.
  intros Hl Ht. destruct h as [|h0 [|h1 [|h2 [|h3 [|h4 [|h5 [|h6 [|h7 [|]]]]]]]]]; try discriminate Hl.
  unfold texts_of in Ht.
  repeat match goal with H : Forall2 _ (_ :: _) _ |- _ => apply Forall2_cons_inv_l in H as (?&?&[? ?]&?&->) end.
  match goal with H : Forall2 _ [] _ |- _ => apply Forall2_nil_inv_l in H as -> end.
  repeat match goal with H : ?t <> [] |- _ => destruct t; [done|clear H] end.
  cbv -[parse_hextet Z.mul Z.add Z.pow of_digits].
  repeat match goal with H : parse_hextet ?t = Some _ |- context [parse_hextet ?t] => rewrite H end.
  reflexivity.
Qed.

(** The run that is left out depends only on which hextets are zero. *)
Fixpoint patterns (n : nat) : list (list Z) :=
  match n with O => [[]] | S n => map (cons 0) (patterns n) ++ map (cons 1) (patterns n) end.

Definition pattern (hextets : list Z) : list Z := map (fun h => if h =? 0 then 0 else 1) hextets.

Lemma pattern_in hextets : pattern hextets ∈ patterns (length hextets).
Proof.
  induction hextets as [|h l IH]; cbn; [by left|]. apply elem_of_app.
  destruct (h =? 0); [left|right]; by apply list_elem_of_fmap_2.
Qed.

Lemma longest_zeros_pattern l : forall i s n bs bn, longest_zeros (pattern l) i s n bs bn = longest_zeros l i s n bs bn.
Proof. induction l as [|h l IH]; intros; cbn; [done|]. destruct (Z.eqb_spec h 0); cbn; rewrite ?IH; done. Qed.

Definition run_ok (hextets : list Z) : bool :=
  let '(start, len) := longest_zeros hextets 0 (-1) 0 (-1) 0 in
  (len <=? 1) ||
  (bool_decide ((Z.to_nat start, Z.to_nat len) ∈ runs) && (0 <=? start) &&
   bool_decide (take (Z.to_nat len) (drop (Z.to_nat start) hextets) = replicate (Z.to_nat len) 0)).

Lemma longest_zeros_run h start len :
  length h = 8%nat -> longest_zeros h 0 (-1) 0 (-1) 0 = (start, len) -> 1 < len ->
  0 <= start /\ ((Z.to_nat start, Z.to_nat len) ∈ runs) /\
  take (Z.to_nat len) (drop (Z.to_nat start) h) = replicate (Z.to_nat len) 0.
Proof.
  intros Hl Hr Hlen. assert (forallb run_ok (patterns 8) = true) as Hall by (vm_compute; reflexivity).
  rewrite forallb_forall in Hall. specialize (Hall (pattern h)). rewrite <- list_elem_of_In in Hall. rewrite <- Hl in Hall at 1.
  specialize (Hall (pattern_in h)). unfold run_ok in Hall. rewrite longest_zeros_pattern, Hr in Hall.
  apply orb_true_iff in Hall as [?|Hall]; [lia|]. apply andb_true_iff in Hall as [[Hruns%bool_decide_eq_true Hs]%andb_true_iff Hz%bool_decide_eq_true].
  split_and!; [lia|done|]. unfold pattern in Hz.
  change (map (fun h => if h =? 0 then 0 else 1) h) with ((fun h => if h =? 0 then 0 else 1) <$> h) in Hz.
  rewrite <- fmap_drop, <- fmap_take in Hz. revert Hz. generalize (take (Z.to_nat len) (drop (Z.to_nat start) h)) as l.
  generalize (Z.to_nat len) as n. clear. intros n l. revert n. induction l as [|x l IH]; intros [|n]; cbn; intros [=]; [done|].
  destruct (Z.eqb_spec x 0); [|done]. subst. f_equal. by apply IH.
Qed.

(** The parts of the text of an IPv6 address in hexadecimal. *)
Definition ipv6_parts (n : Z) : list pystr :=
  let hextets := digits_fixed 65536 8 n in
  let '(start, len) := longest_zeros hextets 0 (-1) 0 (-1) 0 in
  if 1 <? len then compressed (map hex_str hextets) (Z.to_nat start) (Z.to_nat len) else map hex_str hextets.

Lemma ipv6_hex_str_parts n : ipv6_hex_str n = join_with [58] (ipv6_parts n).
Proof.
  unfold ipv6_hex_str, ipv6_parts. destruct (longest_zeros _ _ _ _ _ _) as [start len] eqn:E.
  destruct (1 <? len) eqn:Hlen; [|done]. change (str ":") with [58]. f_equal. apply Z.ltb_lt in Hlen.
  destruct (longest_zeros_run _ _ _ (length_digits_fixed _ _ _) E Hlen) as (Hs&_&_). unfold compressed.
  rewrite Z2Nat.inj_add by lia. destruct (Z.eqb_spec start 0) as [->|]; [by destruct (drop _ _)|].
  destruct (Z.to_nat start) eqn:?; [lia|by destruct (drop _ _)].
Qed.

Lemma hextets_texts l : Forall (fun h => 0 <= h < 65536) l -> texts_of l (map hex_str l).
Proof.
  intros Hl. induction Hl as [|h l Hh _ IH]; cbn; constructor; [|done]. split; [by apply hextet_text|].
  by destruct (hex_str_digits h Hh) as (c&t&->&_).
Qed.

Lemma ipv6_parts_spec n : 0 <= n < 2 ^ 128 ->
  parts_int (ipv6_parts n) = Some n /\ (3 <= length (ipv6_parts n))%nat /\
  Forall (fun s => forall c, c < 48 \/ 57 < c < 97 \/ 102 < c -> c ∉ s) (ipv6_parts n).
Proof.
  intros Hn. unfold ipv6_parts. pose proof (length_digits_fixed 65536 8 n) as Hl. pose proof (digits_fixed_range 65536 8 n ltac:(lia)) as Hr.
  pose proof (of_digits_fixed 65536 8 n ltac:(lia)) as Ho. rewrite Z.mod_small in Ho by (change (65536 ^ Z.of_nat 8) with (2 ^ 128); lia).
  pose proof (hextets_texts _ Hr) as Ht.
  assert (Forall (fun s => forall c, c < 48 \/ 57 < c < 97 \/ 102 < c -> c ∉ s) (map hex_str (digits_fixed 65536 8 n))) as Hc.
  { apply Forall_map. eapply Forall_impl; [exact Hr|]. intros h Hh c. by apply hex_str_avoids. }
  revert Hl Ho Ht Hc. generalize (digits_fixed 65536 8 n) as h. intros h Hl <- Ht Hc.
  destruct (longest_zeros _ _ _ _ _ _) as [start len] eqn:E. destruct (1 <? len) eqn:Hlen.
  - apply Z.ltb_lt in Hlen. destruct (longest_zeros_run _ _ _ Hl E Hlen) as (Hs&Hruns&Hz). split; [|split].
    + by rewrite (parts_int_compressed h).
    + unfold compressed. rewrite !length_app, length_take, length_map, Hl.
      destruct (drop (_ + _) _); destruct (Z.to_nat start); cbn [length app]; lia.
    + assert (forall c : Z, c ∉ []) as Hnil by (intros c; apply not_elem_of_nil). unfold compressed.
      rewrite !Forall_app. split_and!.
      * destruct (Z.to_nat start); repeat constructor. auto.
      * by apply Forall_take.
      * repeat constructor. auto.
      * pose proof (Forall_drop _ (Z.to_nat start + Z.to_nat len) _ Hc) as Hd. destruct (drop (_ + _) _); [|done]. repeat constructor. auto.
  - split; [by apply parts_int_plain|]. split; [rewrite length_map, Hl; lia|done].
Qed.

Lemma ipv6_hex_split n : 0 <= n < 2 ^ 128 -> split_on 58 (ipv6_hex_str n) = ipv6_parts n.
Proof.
  intros Hn. destruct (ipv6_parts_spec n Hn) as (_&Hl&Hc). rewrite ipv6_hex_str_parts. apply split_on_join; [by intros E; rewrite E in Hl; cbn in Hl; lia|].
  eapply Forall_impl; [exact Hc|]. intros s Hs. apply Hs. lia.
Qed.

Lemma join_avoids c l : c <> 58 -> Forall (fun s => c ∉ s) l -> c ∉ join_with [58] l.
Proof.
  intros Hc Hl. induction Hl as [|x l Hx Hl IH]; [apply not_elem_of_nil|]. destruct l; [done|].
  change (join_with [58] (x :: l :: l0)) with (x ++ 58 :: join_with [58] (l :: l0)).
  rewrite not_elem_of_app, not_elem_of_cons. done.
Qed.

Lemma ipv6_hex_avoids c n : 0 <= n < 2 ^ 128 -> c < 48 \/ 58 < c < 97 \/ 102 < c -> c ∉ ipv6_hex_str n.
Proof.
  intros Hn Hc. destruct (ipv6_parts_spec n Hn) as (_&_&Hp). rewrite ipv6_hex_str_parts. apply join_avoids; [lia|].
  eapply Forall_impl; [exact Hp|]. intros s Hs. apply Hs. lia.
Qed.

Lemma ipv6_hex_roundtrip n : 0 <= n < 2 ^ 128 -> ipv6_int (ipv6_hex_str n) = Some n.
Proof.
  intros Hn. destruct (ipv6_parts_spec n Hn) as (Hi&Hl&Hc). rewrite ipv6_int_parts, ipv6_hex_split by done. cbv zeta.
  replace (zlen (ipv6_parts n) <? 3) with false by (unfold zlen; symmetry; apply Z.ltb_ge; lia).
  replace (mem 46 (default [] (last (ipv6_parts n)))) with false; [done|]. symmetry. apply bool_decide_eq_false.
  destruct (last (ipv6_parts n)) as [s|] eqn:E; [|apply not_elem_of_nil]. apply last_Some_elem_of in E.
  rewrite Forall_forall in Hc. apply (Hc s E). lia.
Qed.

Lemma ipv4_str_dot n : 46 ∈ ipv4_str n.
Proof. unfold ipv4_str. cbn [map join_with]. change (str ".") with [46]. rewrite !elem_of_app, !list_elem_of_singleton. tauto. Qed.

Lemma ipv6_mapped_roundtrip m : 0 <= m < 2 ^ 32 ->
  ipv6_int (ipv6_hex_str 0xffff ++ str ":" ++ ipv4_str m) = Some (0xffff * 2 ^ 32 + m).
Proof.
  intros Hm. rewrite ipv6_int_parts. change (ipv6_hex_str 0xffff ++ str ":" ++ ipv4_str m) with ([] ++ 58 :: [] ++ 58 :: str "ffff" ++ 58 :: ipv4_str m).
  rewrite !split_on_app, (split_on_none _ (ipv4_str m)) by first [apply not_elem_of_nil|apply ipv4_str_avoids; lia|apply (bool_decide_unpack _); reflexivity].
  cbv zeta. cbn [last default zlen length Z.ltb]. unfold mem. rewrite bool_decide_eq_true_2 by apply ipv4_str_dot.
  cbn [id]. rewrite ipv4_roundtrip by done. cbn [mbind option_bind removelast app zlen length].
  change (zlen [[]; []; str "ffff"; ipv4_str m] <? 3) with false. cbv iota.
  assert (0 <= m / 65536 < 65536) by (split; [apply Z.div_pos; lia|apply Z.div_lt_upper_bound; lia]).
  assert (0 <= m mod 65536 < 65536) by (apply Z.mod_pos_bound; lia).
  change (parts_int [[]; []; str "ffff"; hex_str (m / 65536); hex_str (m mod 65536)]) with
    (parts_int (compressed (map hex_str [0; 0; 0; 0; 0; 0xffff; m / 65536; m mod 65536]) 0 5)).
  rewrite (parts_int_compressed [0; 0; 0; 0; 0; 0xffff; m / 65536; m mod 65536]); [|done| | |done].
  - unfold of_digits. cbn [fold_left]. f_equal. pose proof (Z.div_mod m 65536). lia.
  - apply hextets_texts. repeat constructor; lia.
  - apply (bool_decide_unpack _). reflexivity.
Qed.

Lemma ipv6_roundtrip n : 0 <= n < 2 ^ 128 -> ipv6_int (ipv6_str n) = Some n.
Proof.
  intros Hn. unfold ipv6_str. destruct (Z.eqb_spec (n / 2 ^ 32) 0xffff) as [E|_]; [|by apply ipv6_hex_roundtrip].
  rewrite ipv6_mapped_roundtrip by (apply Z.mod_pos_bound; lia). rewrite <- E. f_equal. pose proof (Z.div_mod n (2 ^ 32)). lia.
Qed.

(** The text of an IPv6 address has a colon, and neither a percent sign nor a slash. *)
Lemma ipv6_str_avoids c n : 0 <= n < 2 ^ 128 -> c = 37 \/ c = 47 -> c ∉ ipv6_str n.
Proof.
  intros Hn Hc. unfold ipv6_str. destruct (Z.eqb_spec (n / 2 ^ 32) 0xffff) as [_|_]; [|apply ipv6_hex_avoids; lia].
  rewrite !not_elem_of_app. split_and!; [apply ipv6_hex_avoids; lia| |apply ipv4_str_avoids; [apply Z.mod_pos_bound|..]; lia].
  change (str ":") with [58]. rewrite list_elem_of_singleton. lia.
Qed.

Lemma join_colon l : (2 <= length l)%nat -> 58 ∈ join_with [58] l.
Proof.
  destruct l as [|x [|y l]]; cbn [length]; [lia..|]. intros _. change (join_with [58] (x :: y :: l)) with (x ++ 58 :: join_with [58] (y :: l)).
  rewrite elem_of_app, elem_of_cons. auto.
Qed.

Lemma ipv6_str_colon n : 0 <= n < 2 ^ 128 -> 58 ∈ ipv6_str n.
Proof.
  intros Hn. unfold ipv6_str. destruct (n / 2 ^ 32 =? 0xffff).
  - rewrite !elem_of_app. right. left. by left.
  - rewrite ipv6_hex_str_parts. apply join_colon. pose proof (ipv6_parts_spec n Hn). lia.
Qed.

(** A text with a colon is no IPv4 address. *)
Lemma split_on_elem c x s : x ∈ s -> x <> c -> exists p, p ∈ split_on c s /\ x ∈ p.
Proof.
  induction s as [|y s IH]; cbn; [by intros ?%not_elem_of_nil|]. intros Hx Hc.
  apply elem_of_cons in Hx as [->|Hx].
  - rewrite (proj2 (Z.eqb_neq _ _) Hc). destruct (split_on c s) as [|p ps]; eexists; split; by left.
  - destruct (IH Hx Hc) as (p&Hp&Hxp). destruct (y =? c); [exists p; split; [by right|done]|].
    destruct (split_on c s) as [|q ps]; [by apply not_elem_of_nil in Hp|]. apply elem_of_cons in Hp as [->|Hp].
    + exists (y :: q). split; [by left|by right].
    + exists p. split; [by right|done].
Qed.

Lemma parse_octet_digits s n x : parse_octet s = Some n -> x ∈ s -> is_digit x = true.
Proof.
  unfold parse_octet. destruct (forallb is_digit s) eqn:E; [|by rewrite orb_true_r]. intros _ Hx. rewrite forallb_forall in E.
  apply E. by apply list_elem_of_In.
Qed.

Lemma ipv4_int_chars s n x : ipv4_int s = Some n -> x ∈ s -> x = 46 \/ is_digit x = true.
Proof.
  intros Hs Hx. destruct (Z.eq_dec x 46) as [|Hd]; [by left|right]. destruct (split_on_elem 46 x s Hx Hd) as (p&Hp&Hxp).
  unfold ipv4_int in Hs. destruct (split_on 46 s) as [|a [|b [|c [|d [|]]]]]; try done.
  destruct (parse_octet a) eqn:Ea; [|done]. destruct (parse_octet b) eqn:Eb; [|done].
  destruct (parse_octet c) eqn:Ec; [|done]. destruct (parse_octet d) eqn:Ed; [|done].
  rewrite !elem_of_cons in Hp. destruct Hp as [->|[->|[->|[->|Hp]]]]; [..|by apply not_elem_of_nil in Hp]; eauto using parse_octet_digits.
Qed.

(* ------------------------------------------------------------------ *)
(** ** Ranges of what is read *)

Lemma of_digits_range b l : 1 < b -> Forall (fun d => 0 <= d < b) l -> 0 <= of_digits b l < b ^ Z.of_nat (length l).
Proof.
  intros Hb Hl. rewrite <- (digits_fixed_of_digits b l Hb Hl) at 1 2. rewrite of_digits_fixed by done. apply Z.mod_pos_bound. apply Z.pow_pos_nonneg; lia.
Qed.

Lemma decimal_digits s : forallb is_digit s = true -> Forall (fun d => 0 <= d < 10) (map (fun c => c - 48) s).
Proof.
  intros Hs. apply Forall_map, Forall_forall. intros c Hc%list_elem_of_In. rewrite forallb_forall in Hs. specialize (Hs c Hc).
  unfold is_digit in Hs. lia.
Qed.

Lemma parse_octet_range s n : parse_octet s = Some n -> 0 <= n < 256.
Proof.
  unfold parse_octet. destruct (forallb is_digit s) eqn:E; [|by rewrite orb_true_r]. destruct (_ || _); [done|].
  destruct (255 <? _) eqn:Hn; [done|]. intros [= <-]. apply Z.ltb_ge in Hn.
  pose proof (of_digits_range 10 _ ltac:(lia) (decimal_digits s E)). lia.
Qed.

Lemma ipv4_int_range s n : ipv4_int s = Some n -> 0 <= n < 2 ^ 32.
Proof.
  unfold ipv4_int. destruct (split_on 46 s) as [|a [|b [|c [|d [|]]]]]; try done.
  destruct (parse_octet a) eqn:Ea; [|done]. destruct (parse_octet b) eqn:Eb; [|done].
  destruct (parse_octet c) eqn:Ec; [|done]. destruct (parse_octet d) eqn:Ed; [|done]. intros [= <-].
  apply parse_octet_range in Ea, Eb, Ec, Ed. lia.
Qed.

Lemma hex_digits_range s l : hex_digits_of s = Some l -> Forall (fun d => 0 <= d < 16) l /\ length l = length s.
Proof.
  revert l. induction s as [|c s IH]; intros l; cbn; [by intros [= <-]|]. destruct (hex_value c) as [d|] eqn:Ec; [|done].
  destruct (hex_digits_of s) as [l'|]; [|done]. intros [= <-]. destruct (IH l' eq_refl) as [Hr Hl]. cbn. split; [|by rewrite Hl].
  constructor; [|done]. by apply hex_value_range in Ec.
Qed.

Lemma parse_hextet_range s h : parse_hextet s = Some h -> 0 <= h < 65536.
Proof.
  unfold parse_hextet. destruct (bool_decide (s = [])); [done|]. destruct (4 <? zlen s) eqn:Hl; [done|]. cbn [orb]. apply Z.ltb_ge in Hl.
  destruct (hex_digits_of s) as [l|] eqn:E; [|done]. intros [= <-]. apply hex_digits_range in E as [Hr E].
  pose proof (of_digits_range 16 l ltac:(lia) Hr). unfold zlen in Hl.
  pose proof (Z.pow_le_mono_r 16 (Z.of_nat (length l)) 4 ltac:(lia) ltac:(lia)). lia.
Qed.

Lemma parse_hextets_range l : forall acc n,
  parse_hextets acc l = Some n -> 0 <= acc -> 0 <= n < (acc + 1) * 65536 ^ Z.of_nat (length l).
Proof.
  induction l as [|t l IH]; intros acc n; cbn [parse_hextets length]; [intros [= <-]; cbn; lia|]. destruct (parse_hextet t) as [v|] eqn:E; [|done].
  intros Hn Ha. apply parse_hextet_range in E. cbn in Hn. apply IH in Hn; [|lia].
  rewrite Nat2Z.inj_succ, Z.pow_succ_r by lia. nia.
Qed.

Lemma parts_int_range parts n : parts_int parts = Some n -> 0 <= n < 2 ^ 128.
Proof.
  unfold parts_int. destruct (9 <? zlen parts); [done|]. change (2 ^ 128) with (65536 ^ 8).
  destruct (inner_empty parts) as [|i [|]]; [| |done].
  - destruct (zlen parts =? 8) eqn:E; [|done]. destruct (_ || _); [done|]. intros Hn. apply parse_hextets_range in Hn; [|done].
    apply Z.eqb_eq in E. unfold zlen in E. rewrite E in Hn. lia.
  - cbv zeta. set (hi := (if bool_decide _ then i - 1 else i)%nat).
    set (lo := (if bool_decide (last parts = Some []) then _ else _)%nat).
    destruct (_ || _ || _) eqn:E; [done|]. apply orb_false_iff in E as [_ E]. apply Z.ltb_ge in E.
    destruct (parse_hextets 0 (take hi parts)) as [a|] eqn:Ea; [|done]. cbn. intros Hn.
    apply parse_hextets_range in Ea; [|done]. set (k := 8 - Z.of_nat (hi + lo)) in *.
    assert (0 < 65536 ^ k) by (apply Z.pow_pos_nonneg; lia). apply parse_hextets_range in Hn; [|lia].
    assert (65536 ^ Z.of_nat (length (take hi parts)) <= 65536 ^ Z.of_nat hi) by (apply Z.pow_le_mono_r; [lia|rewrite length_take; lia]).
    assert (65536 ^ Z.of_nat (length (drop (length parts - lo) parts)) <= 65536 ^ Z.of_nat lo)
      by (apply Z.pow_le_mono_r; [lia|rewrite length_drop; lia]).
    split; [lia|]. assert (65536 ^ 8 = 65536 ^ Z.of_nat hi * 65536 ^ k * 65536 ^ Z.of_nat lo) as ->
      by (rewrite <- !Z.pow_add_r by lia; f_equal; lia).
    assert (a * 65536 ^ k + 1 <= 65536 ^ Z.of_nat hi * 65536 ^ k) by nia.
    assert (0 < 65536 ^ Z.of_nat lo) by (apply Z.pow_pos_nonneg; lia). nia.
Qed.

Lemma ipv6_int_range s n : ipv6_int s = Some n -> 0 <= n < 2 ^ 128.
Proof.
  rewrite ipv6_int_parts. cbv zeta. destruct (zlen _ <? 3); [done|]. destruct (mem 46 _); [|apply parts_int_range].
  destruct (ipv4_int _); [|done]. apply parts_int_range.
Qed.

(* ------------------------------------------------------------------ *)
(** ** Networks *)

Definition network_wf (n : Network) : Prop :=
  0 <= network_address n < 2 ^ width (version n) /\ 0 <= prefixlen n <= width (version n) /\
  masked (version n) (prefixlen n) (network_address n) = network_address n /\
  match version n with V4 => scope_id n = [] | V6 => (37 ∉ scope_id n) /\ (47 ∉ scope_id n) end.

Lemma masked_range f p a : 0 <= p <= width f -> 0 <= a < 2 ^ width f -> 0 <= masked f p a < 2 ^ width f.
Proof.
  intros Hp Ha. unfold masked. rewrite Z.shiftl_mul_pow2, Z.shiftr_div_pow2 by lia.
  pose proof (Z.mul_div_le a (2 ^ (width f - p)) ltac:(apply Z.pow_pos_nonneg; lia)).
  pose proof (Z.div_pos a (2 ^ (width f - p)) ltac:(lia) ltac:(apply Z.pow_pos_nonneg; lia)).
  assert (0 < 2 ^ (width f - p)) by (apply Z.pow_pos_nonneg; lia). nia.
Qed.

Lemma masked_masked f p a : 0 <= p <= width f -> masked f p (masked f p a) = masked f p a.
Proof. intros Hp. unfold masked. rewrite Z.shiftr_shiftl_l by lia. by rewrite Z.sub_diag, Z.shiftl_0_r. Qed.

Lemma make_netmask_range f s p : make_netmask f s = Some p -> 0 <= p <= width f.
Proof.
  unfold make_netmask. destruct (prefix_from_prefix_string f s) as [q|] eqn:E.
  - intros [= <-]. unfold prefix_from_prefix_string in E. destruct (forallb is_digit s) eqn:Hd; [|by rewrite orb_true_r in E].
    destruct (_ || _); [done|]. destruct (_ <=? _) eqn:Hw; [|done]. injection E as <-.
    pose proof (of_digits_range 10 _ ltac:(lia) (decimal_digits s Hd)). lia.
  - destruct f; [|done]. unfold prefix_from_ip_string. destruct (ipv4_int s) as [mask|]; [|done]. cbn [mbind option_bind].
    assert (forall m p, prefix_from_ip_int m = Some p -> 0 <= p <= width V4) as Hm; [|destruct (prefix_from_ip_int mask) eqn:Em; [intros [= <-]|]; eauto].
    intros m q Hq. unfold prefix_from_ip_int in Hq. assert (q ∈ filter (fun p => m = 2 ^ 32 - 2 ^ (32 - p)) (seqZ 0 33)) as Hin
      by (destruct (filter _ _); [done|injection Hq as ->; by left]).
    apply list_elem_of_filter in Hin as [_ Hin%elem_of_seqZ]. cbn. lia.
Qed.

Lemma split_on_no c s p : p ∈ split_on c s -> c ∉ p.
Proof.
  revert p. induction s as [|x s IH]; cbn; intros p; [rewrite list_elem_of_singleton; intros ->; apply not_elem_of_nil|].
  destruct (Z.eqb_spec x c) as [->|Hx].
  - rewrite elem_of_cons. intros [->|Hp]; [apply not_elem_of_nil|by apply IH].
  - destruct (split_on c s) as [|q ps]; rewrite elem_of_cons.
    + intros [->|Hp]; [by rewrite list_elem_of_singleton|by apply not_elem_of_nil in Hp].
    + intros [->|Hp]; [|apply IH; by right]. rewrite not_elem_of_cons. split; [done|]. apply IH. by left.
Qed.

Lemma split_on_chars c s p x : p ∈ split_on c s -> x ∈ p -> x ∈ s.
Proof.
  revert p. induction s as [|y s IH]; cbn; intros p; [rewrite list_elem_of_singleton; by intros ->|].
  destruct (y =? c); rewrite elem_of_cons.
  - intros [->|Hp] Hx; [by apply not_elem_of_nil in Hx|right; by eapply IH].
  - destruct (split_on c s) as [|q ps]; rewrite elem_of_cons.
    + intros [->|Hp]; [|by apply not_elem_of_nil in Hp]. rewrite list_elem_of_singleton. auto.
    + intros [->|Hp] Hx; [|right; apply (IH p); [by right|done]]. apply elem_of_cons in Hx as [->|Hx]; [by left|right].
      apply (IH q); [by left|done].
Qed.

Lemma ipv6_scoped_spec s n scope : ipv6_scoped s = Some (n, scope) -> 47 ∉ s ->
  0 <= n < 2 ^ 128 /\ (37 ∉ scope) /\ (47 ∉ scope).
Proof.
  unfold ipv6_scoped. pose proof (split_on_no 37 s) as Hno. pose proof (split_on_chars 37 s) as Hch.
  destruct (split_on 37 s) as [|a [|b [|]]]; try done.
  - destruct (ipv6_int a) as [m|] eqn:E; [|done]. intros [= <- <-] _. apply ipv6_int_range in E.
    split_and!; [lia|lia|apply not_elem_of_nil..].
  - destruct (bool_decide _); [done|]. destruct (ipv6_int a) as [m|] eqn:E; [|done]. intros [= <- <-] Hs. apply ipv6_int_range in E.
    split_and!; [lia|lia|apply Hno; by right; left|]. intros Hx. apply Hs. apply (Hch b); [by right; left|done].
Qed.

Lemma address_of_spec f s n scope : address_of f s = Some (n, scope) -> 47 ∉ s ->
  0 <= n < 2 ^ width f /\ match f with V4 => scope = [] | V6 => (37 ∉ scope) /\ (47 ∉ scope) end.
Proof.
  destruct f; cbn; [|apply ipv6_scoped_spec]. destruct (ipv4_int s) as [m|] eqn:E; [|done]. intros [= <- <-] _.
  split; [by apply ipv4_int_range in E|done].
Qed.

Lemma network_of_wf strict f s n : network_of strict f s = Some n -> network_wf n /\ version n = f.
Proof.
  unfold network_of. pose proof (split_on_no 47 s) as Hno.
  destruct (match split_on 47 s with [a] => Some (a, None) | [a; m] => Some (a, Some m) | _ => None end) as [[a mask]|] eqn:E; [|done].
  assert (47 ∉ a) as Ha by (destruct (split_on 47 s) as [|? [|? [|]]]; try done; injection E as <- _; apply Hno; by left).
  clear E Hno. cbn [mbind option_bind].
  destruct (address_of f a) as [[m scope]|] eqn:Em; [|done]. cbn [mbind option_bind]. apply address_of_spec in Em as [Hm Hscope]; [|done].
  destruct (match mask with Some m => make_netmask f m | None => Some (width f) end) as [p|] eqn:Ep; [|done]. cbn [mbind option_bind].
  assert (0 <= p <= width f) as Hp by (destruct mask; [by apply make_netmask_range in Ep|injection Ep as <-; destruct f; cbn; lia]).
  destruct (Z.eqb_spec (masked f p m) m) as [Hmask|_].
  - intros [= <-]. done.
  - destruct strict; [done|]. intros [= <-]. split; [|done]. unfold network_wf. cbn [version network_address prefixlen scope_id].
    split; [by apply masked_range|]. split; [done|]. split; [by apply masked_masked|].
    destruct f; [done|split; apply not_elem_of_nil].
Qed.

Lemma ip_network_wf s n : ip_network s = Some n -> network_wf n.
Proof.
  unfold ip_network. destruct (network_of false V4 s) eqn:E; intros E'; [injection E' as <-; apply (network_of_wf _ _ _ _ E)|apply (network_of_wf _ _ _ _ E')].
Qed.

Lemma slash_split a b : 47 ∉ a -> 47 ∉ b -> split_on 47 (a ++ str "/" ++ b) = [a; b].
Proof. intros Ha Hb. change (a ++ str "/" ++ b) with (a ++ 47 :: b). by rewrite split_on_app, split_on_none. Qed.

(** The text of the first address of a network. *)
Definition address_str (n : Network) : pystr :=
  match version n with
  | V4 => ipv4_str (network_address n)
  | V6 => ipv6_str (network_address n) ++ match scope_id n with [] => [] | scope => str "%" ++ scope end
  end.

Lemma address_str_spec n : network_wf n ->
  address_of (version n) (address_str n) = Some (network_address n, scope_id n) /\ (47 ∉ address_str n) /\
  (version n = V6 -> 58 ∈ address_str n).
Proof.
  intros (Hn&_&_&Hs). unfold address_str. destruct n as [f a p scope]. cbn [version network_address scope_id prefixlen] in *. destruct f; cbn [width] in Hn.
  - subst scope. cbn [address_of]. rewrite ipv4_roundtrip by done. split_and!; [done|apply ipv4_str_avoids; lia|done].
  - destruct Hs as [Hp Hsl]. cbn [address_of]. unfold ipv6_scoped. pose proof (ipv6_str_avoids 37 a Hn ltac:(lia)) as H37.
    pose proof (ipv6_str_avoids 47 a Hn ltac:(lia)) as H47. pose proof (ipv6_str_colon a Hn) as H58.
    destruct scope as [|c scope].
    + rewrite app_nil_r, split_on_none, ipv6_roundtrip by done. done.
    + change (str "%" ++ c :: scope) with (37 :: c :: scope). rewrite split_on_app, split_on_none by done.
      rewrite bool_decide_eq_false_2 by done. rewrite ipv6_roundtrip by done. split_and!; [done| |].
      * rewrite not_elem_of_app, not_elem_of_cons. done.
      * intros _. rewrite elem_of_app. by left.
Qed.

Lemma network_str_parts n : network_wf n -> split_on 47 (network_str n) = [address_str n; dump_int (prefixlen n)].
Proof.
  intros Hn. pose proof (address_str_spec n Hn) as (_&Ha&_). destruct Hn as (_&Hp&_). unfold network_str. fold (address_str n).
  apply slash_split; [done|]. apply decimal_avoids; [by apply (prefix_text (version n))|lia].
Qed.

Lemma network_of_str strict n : network_wf n -> network_of strict (version n) (network_str n) = Some n.
Proof.
  intros Hn. unfold network_of. rewrite network_str_parts by done. cbn [mbind option_bind].
  rewrite (proj1 (address_str_spec n Hn)). cbn [mbind option_bind]. destruct Hn as (_&Hp&Hm&_). unfold make_netmask.
  rewrite (proj1 (prefix_text _ _ Hp)). cbn [mbind option_bind]. rewrite Hm, Z.eqb_refl. by destruct n.
Qed.

Lemma network_of_v4_str strict n : network_wf n -> version n = V6 -> network_of strict V4 (network_str n) = None.
Proof.
  intros Hn Hv. unfold network_of. rewrite network_str_parts by done. cbn [mbind option_bind address_of].
  destruct (ipv4_int (address_str n)) as [m|] eqn:E; [|done]. apply (ipv4_int_chars _ _ 58) in E; [|by apply address_str_spec].
  destruct E as [E|E]; [lia|done].
Qed.

(** The text of a network is that of no other network, also without host bits allowed. *)
Lemma ip_network_str n : network_wf n -> ip_network (network_str n) = Some n.
Proof.
  intros Hn. unfold ip_network. destruct (version n) eqn:E; [by rewrite <- E, network_of_str|].
  rewrite network_of_v4_str by done. by rewrite <- E, network_of_str.
Qed.

Lemma ip_network_strict_str n : network_wf n -> ip_network_strict (network_str n) = Some n.
Proof.
  intros Hn. unfold ip_network_strict. destruct (version n) eqn:E; [by rewrite <- E, network_of_str|].
  rewrite network_of_v4_str by done. by rewrite <- E, network_of_str.
Qed.
