(* ===== verification/Server.v ===== *)
(** The configuration of the KMIP server ([src/atlaso/app/kmip/server.py]):
    [parse_config] and the validators it calls, [load_config], and the map from client
    certificate fingerprints to providers.

    PEM certificates are parsed by third-party code: [certificate_der] is what
    reading and parsing the file at a path gives. *)

From S2P Require Import Prelude Utf8 PyText Uuid Json Sha256 IpAddress Ttlv World Store Protocol.
Open Scope Z_scope.

Definition CONFIG_FIELDS : list pystr :=
  [str "schema_version"; str "enabled"; str "listen"; str "tls"; str "store"; str "limits";
   str "providers"; str "interop_trace_path"].
Definition PROVIDER_FIELDS : list pystr :=
  [str "id"; str "name"; str "client_fingerprints"; str "client_certificate_paths"].

(** [class Provider]. *)
Record Provider : Type := mkProvider {
  provider_id : pystr;
  provider_name : pystr;
  client_fingerprints : list pystr
}.

(** [class ServiceLimits]. *)
Record ServiceLimits : Type := mkLimits {
  max_request_bytes : Z;
  max_connections : Z;
  idle_timeout_seconds : Z;
  max_requests_per_connection : Z
}.

(** [class ServiceConfig]; a path is its text. *)
Record ServiceConfig : Type := mkConfig {
  enabled : bool;
  listen_addresses : list pystr;
  port : Z;
  certificate_path : pystr;
  private_key_path : pystr;
  ca_path : pystr;
  database_path : pystr;
  kek_path : pystr;
  limits : ServiceLimits;
  providers : list Provider;
  interop_trace_path : option pystr
}.

(** [ServiceConfig.fingerprint_providers]. *)
Definition fingerprint_providers (config : ServiceConfig) : list (pystr * pystr) :=
  dict_of (concat (map (fun p => map (fun fingerprint => (fingerprint, provider_id p)) (client_fingerprints p))
                       (providers config))).

(** [s.casefold()] up to characters that are hexadecimal digits: the letters of ASCII,
    and the ligature whose folding is two of them. *)
Definition casefold_hex (s : pystr) : pystr :=
  concat (map (fun c => if (65 <=? c) && (c <=? 90) then [c + 32]
                        else if c =? 0xFB00 then [102; 102] else [c]) s).

(** [_fingerprint]. *)
Definition _fingerprint (value : json) : res pystr :=
  match value with
  | JStr value =>
    let normalized := casefold_hex (strip is_space (replace_empty (str ":") value)) in
    _ ← raise_if (negb (zlen normalized =? 64) || negb (forallb is_lower_hex normalized))
        (ConfigurationError "KMIP client fingerprint must be a SHA-256 digest.");
    Ok normalized
  | _ => Raise (ConfigurationError "KMIP client fingerprint must be a string.")
  end.

(** [_exact_fields]; the details of the message are left out. *)
Definition _exact_fields (value : list (pystr * json)) (expected : list pystr) (label : string) : res unit :=
  let missing := filter (fun k => k ∉ value.*1) expected in
  let extra := filter (fun k => k ∉ expected) value.*1 in
  raise_if (negb (bool_decide (missing = [])) || negb (bool_decide (extra = []))) (ConfigurationError label).

(** [_path]: an absolute POSIX path. *)
Definition _path (value : json) (label : string) : res pystr :=
  match value with
  | JStr value =>
    _ ← raise_if (bool_decide (strip is_space value = [])) (ConfigurationError label);
    _ ← raise_if (negb (bool_decide (head value = Some 47))) (ConfigurationError label);
    Ok value
  | _ => Raise (ConfigurationError label)
  end.

(** [_integer]. *)
Definition _integer (value : json) (label : string) : res Z :=
  match value with
  | JInt z => Ok z
  | _ => Raise (ConfigurationError label)
  end.

(** [isinstance(value, dict)]. *)
Definition as_dict (value : json) (e : exn) : res (list (pystr * json)) :=
  match value with JDict d => Ok d | _ => Raise e end.

(** The loop over [listen["addresses"]]. *)
Definition listen_address (value : json) : res pystr :=
  match value with
  | JStr value =>
    rethrow is_ValueError (ConfigurationError "KMIP listen address must be an IP address.")
      (ip_address_str (strip is_space value))
  | _ => Raise (ConfigurationError "KMIP listen address must be a string.")
  end.

Section Config.
(** The DER form of the certificate in a PEM file, or the [OSError] or [ValueError] of
    reading it. *)
Context (certificate_der : pystr -> res bytes).

(** [certificate_sha256]. *)
Definition certificate_sha256 (path : pystr) : res pystr :=
  der ← rethrow (fun e => match e with OSError => true | _ => is_ValueError e end)
          (ConfigurationError "KMIP client certificate is invalid") (certificate_der path);
  Ok (sha256_hex der).

(** [_provider]. *)
Definition _provider (value : json) : res Provider :=
  value ← as_dict value (ConfigurationError "KMIP provider must be an object.");
  _ ← _exact_fields value PROVIDER_FIELDS "KMIP provider fields are invalid";
  raw_provider_id ← item value (str "id");
  provider_id ← match raw_provider_id with
                | JStr s => rethrow is_ValueError (ConfigurationError "KMIP provider ID must be a UUID.")
                              (n ← uuid_int s; Ok (uuid_str n))
                | _ => Raise (ConfigurationError "KMIP provider ID must be a UUID string.")
                end;
  raw_name ← item value (str "name");
  name ← match raw_name with
         | JStr s => Ok (strip is_space s)
         | _ => Raise (ConfigurationError "KMIP provider name must be a string.")
         end;
  _ ← raise_if (bool_decide (name = []) || (120 <? zlen name))
      (ConfigurationError "KMIP provider name must contain 1 to 120 characters.");
  configured ← item value (str "client_fingerprints");
  certificate_paths ← item value (str "client_certificate_paths");
  match configured, certificate_paths with
  | JList configured, JList certificate_paths =>
    listed ← mapM _fingerprint configured;
    certified ← mapM (fun item => path ← _path item "KMIP client certificate path"; certificate_sha256 path)
                  certificate_paths;
    let fingerprints := listed ++ certified in
    _ ← raise_if (bool_decide (fingerprints = []))
        (ConfigurationError "KMIP provider requires at least one trusted client fingerprint.");
    _ ← raise_if (negb (all_distinct fingerprints))
        (ConfigurationError "KMIP provider client fingerprints must be unique.");
    Ok (mkProvider provider_id name (sorted_str fingerprints))
  | _, _ => Raise (ConfigurationError "KMIP provider client identities must be lists.")
  end.

(** The part of [parse_config] that reads [limits]. *)
Definition parse_limits (limits : list (pystr * json)) : res ServiceLimits :=
  v1 ← item limits (str "max_request_bytes");
  n1 ← _integer v1 "KMIP max_request_bytes";
  v2 ← item limits (str "max_connections");
  n2 ← _integer v2 "KMIP max_connections";
  v3 ← item limits (str "idle_timeout_seconds");
  n3 ← _integer v3 "KMIP idle_timeout_seconds";
  v4 ← item limits (str "max_requests_per_connection");
  n4 ← _integer v4 "KMIP max_requests_per_connection";
  _ ← raise_if (negb ((1024 <=? n1) && (n1 <=? MAX_MESSAGE_BYTES)))
      (ConfigurationError "KMIP max_request_bytes must be between 1024 and 1048576.");
  _ ← raise_if (negb ((1 <=? n2) && (n2 <=? 256)))
      (ConfigurationError "KMIP max_connections must be between 1 and 256.");
  _ ← raise_if (negb ((1 <=? n3) && (n3 <=? 300)))
      (ConfigurationError "KMIP idle_timeout_seconds must be between 1 and 300.");
  _ ← raise_if (negb ((1 <=? n4) && (n4 <=? 1024)))
      (ConfigurationError "KMIP max_requests_per_connection must be between 1 and 1024.");
  Ok (mkLimits n1 n2 n3 n4).

(** The part of [parse_config] that reads [listen]. *)
Definition parse_listen (listen : list (pystr * json)) : res (list pystr * Z) :=
  values ← item listen (str "addresses");
  match values with
  | JList (v :: vs) =>
    _ ← raise_if (32 <? zlen (v :: vs))
        (ConfigurationError "KMIP listen addresses cannot contain more than 32 entries.");
    addresses ← mapM listen_address (v :: vs);
    _ ← raise_if (negb (all_distinct addresses)) (ConfigurationError "KMIP listen addresses must be unique.");
    port_value ← item listen (str "port");
    port ← _integer port_value "KMIP listen port";
    _ ← raise_if (negb ((1 <=? port) && (port <=? 65535)))
        (ConfigurationError "KMIP listen port must be between 1 and 65535.");
    Ok (addresses, port)
  | _ => Raise (ConfigurationError "KMIP listen addresses must be a nonempty list.")
  end.

(** The part of [parse_config] that reads [providers]. *)
Definition parse_providers (values : json) : res (list Provider) :=
  match values with
  | JList values =>
    providers ← mapM _provider values;
    _ ← raise_if (negb (all_distinct (map provider_id providers)))
        (ConfigurationError "KMIP provider IDs must be unique.");
    _ ← raise_if (negb (all_distinct (concat (map client_fingerprints providers))))
        (ConfigurationError "A KMIP client fingerprint cannot map to multiple providers.");
    Ok providers
  | _ => Raise (ConfigurationError "KMIP providers must be a list.")
  end.

(** [parse_config]. *)
Definition parse_config (document : json) : res ServiceConfig :=
  document ← as_dict document (ConfigurationError "KMIP configuration must be an object.");
  _ ← _exact_fields document CONFIG_FIELDS "KMIP configuration fields are invalid";
  version ← item document (str "schema_version");
  version ← _integer version "KMIP configuration schema_version";
  _ ← raise_if (negb (version =? 1)) (ConfigurationError "KMIP configuration schema_version must be 1.");
  enabled_value ← item document (str "enabled");
  enabled ← match enabled_value with
            | JBool b => Ok b
            | _ => Raise (ConfigurationError "KMIP enabled must be true or false.")
            end;
  let objects := ConfigurationError "KMIP listen, TLS, store, and limits must be objects." in
  listen ← item document (str "listen");
  tls ← item document (str "tls");
  store ← item document (str "store");
  limits ← item document (str "limits");
  listen ← as_dict listen objects;
  tls ← as_dict tls objects;
  store ← as_dict store objects;
  limits ← as_dict limits objects;
  _ ← _exact_fields listen [str "addresses"; str "port"] "KMIP listen fields are invalid";
  _ ← _exact_fields tls [str "certificate_path"; str "private_key_path"; str "ca_path"]
        "KMIP TLS fields are invalid";
  _ ← _exact_fields store [str "database_path"; str "kek_path"] "KMIP store fields are invalid";
  _ ← _exact_fields limits [str "max_request_bytes"; str "max_connections"; str "idle_timeout_seconds";
                            str "max_requests_per_connection"] "KMIP limits fields are invalid";
  '(addresses, port) ← parse_listen listen;
  parsed_limits ← parse_limits limits;
  provider_values ← item document (str "providers");
  providers ← parse_providers provider_values;
  trace_value ← item document (str "interop_trace_path");
  trace_value ← match trace_value with
                | JStr s => Ok (strip is_space s)
                | _ => Raise (ConfigurationError "KMIP interop trace path must be a string.")
                end;
  let path value label := v ← value; _path v label in
  certificate_path ← path (item tls (str "certificate_path")) "KMIP server certificate"%string;
  private_key_path ← path (item tls (str "private_key_path")) "KMIP server private key"%string;
  ca_path ← path (item tls (str "ca_path")) "KMIP CA certificate"%string;
  database_path ← path (item store (str "database_path")) "KMIP database"%string;
  kek_path ← path (item store (str "kek_path")) "KMIP KEK envelope"%string;
  interop_trace_path ← match trace_value with
                       | [] => Ok None
                       | _ => Some <$> _path (JStr trace_value) "KMIP interop trace"
                       end;
  Ok (mkConfig enabled addresses port certificate_path private_key_path ca_path database_path kek_path
        parsed_limits providers interop_trace_path).

(** [load_config], given the outcome of reading the file: text that is not UTF-8 raises
    [UnicodeDecodeError], which the handler does not name. *)
Definition load_config (contents : res bytes) : res ServiceConfig :=
  document ← rethrow (fun e => match e with OSError | JSONDecodeError => true | _ => false end)
    (ConfigurationError "KMIP configuration could not be read.")
    (contents ← contents; text ← utf8_decode contents; loads text);
  parse_config document.
End Config.
