(* ===== verification/Trace.v ===== *)
(** The contract for interoperability traces ([src/atlaso/app/kmip/trace.py]): the
    validation of the contract, of an event and of a trace, and its summary.

    Messages are kept without their variable parts.  What the interpreter takes from
    its own tables is a parameter: the Unicode properties of characters outside ASCII,
    the comparison of a float literal with an integer, and the text of a value that
    is neither a string nor an integer. *)

From S2P Require Import Prelude Utf8 PyText Json Sha256.
Open Scope Z_scope.

Definition TRACE_SCHEMA_VERSION : Z := 1.
Definition REQUIRED_FIELDS : list pystr :=
  [str "schema_version"; str "timestamp"; str "connection_id"; str "client_cert_sha256"; str "provider_id";
   str "protocol_version"; str "operation"; str "object_type"; str "algorithm"; str "key_length";
   str "key_format_type"; str "attribute_names"; str "result_status"; str "result_reason";
   str "request_digest"].
Definition FORBIDDEN_FIELD_FRAGMENTS : list pystr :=
  [str "credential"; str "keyblock"; str "keybytes"; str "keymaterial"; str "password"; str "privatekey";
   str "rawpayload"; str "secret"].
Definition CONTRACT_FIELDS : list pystr :=
  [str "schema_version"; str "contract_id"; str "target"; str "status"; str "promotion_gate";
   str "transport"; str "protocol_versions"; str "objects"; str "algorithms"; str "candidate_operations";
   str "candidate_attributes"; str "result_statuses"; str "result_reasons"; str "explicitly_unsupported";
   str "sources"].

(** [class TraceSummary]. *)
Record TraceSummary : Type := mkSummary {
  contract_id : pystr;
  contract_sha256 : pystr;
  event_count : Z;
  operation_counts : list (pystr * Z);
  protocol_versions : list pystr;
  trace_providers : list pystr;
  status_counts : list (pystr * Z)
}.

(** [TraceSummary.to_dict]. *)
Definition to_dict (s : TraceSummary) : json :=
  let counts l := JDict (map (fun kv => (kv.1, JInt kv.2)) l) in
  JDict [(str "contract_id", JStr (contract_id s)); (str "contract_sha256", JStr (contract_sha256 s));
         (str "event_count", JInt (event_count s)); (str "operations", counts (operation_counts s));
         (str "protocol_versions", JList (map JStr (protocol_versions s)));
         (str "providers", JList (map JStr (trace_providers s)));
         (str "result_statuses", counts (status_counts s))].

(** The tables of the interpreter. *)
Class PyRuntime : Type := {
  unicode_casefold : Z -> pystr;
  unicode_isalnum : Z -> bool;
  float_eq : pystr -> Z -> bool;
  str_other : json -> pystr
}.

(** A list of nonempty names, [None] for anything else. *)
Definition name_list (v : json) : option (list pystr) :=
  match v with
  | JList values =>
    mapM (fun v => match v with
                   | JStr s => if bool_decide (strip is_space s = []) then None else Some s
                   | _ => None
                   end) values
  | _ => None
  end.

(** A nonempty list of distinct names. *)
Definition unique_names (v : json) : bool :=
  match name_list v with
  | Some values => negb (bool_decide (values = [])) && all_distinct values
  | None => false
  end.

(** A nonempty list of distinct positive integers. *)
Definition unique_lengths (v : json) : bool :=
  match v with
  | JList values =>
    match mapM (fun v => match v with JInt z => if 0 <? z then Some z else None | _ => None end) values with
    | Some lengths => negb (bool_decide (lengths = [])) && all_distinct lengths
    | None => false
    end
  | _ => false
  end.

(** One entry of [contract["algorithms"]]. *)
Definition algorithm_ok (entry : pystr * json) : bool :=
  negb (bool_decide (strip is_space entry.1 = [])) &&
  match entry.2 with
  | JDict algorithm =>
    same_keys [str "lengths"; str "key_format_types"] algorithm.*1 &&
    match dict_get (str "lengths") algorithm with Some v => unique_lengths v | None => false end &&
    match dict_get (str "key_format_types") algorithm with Some v => unique_names v | None => false end
  | _ => false
  end.

(** [contract[field]] for a field that holds names. *)
Definition names (contract : list (pystr * json)) (field : pystr) : res (list pystr) :=
  v ← item contract field; Ok (default [] (name_list v)).

(** [s.splitlines()], with the reversed text of the current line. *)
Fixpoint splitlines_from (current s : pystr) : list pystr :=
  match s with
  | [] => match current with [] => [] | _ => [rev current] end
  | c :: s' =>
    if is_line_break c then
      rev current ::
        match s' with
        | d :: s'' => if (c =? 13) && (d =? 10) then splitlines_from [] s'' else splitlines_from [] s'
        | [] => splitlines_from [] s'
        end
    else splitlines_from (c :: current) s'
  end.

Definition splitlines (s : pystr) : list pystr := splitlines_from [] s.

Section Trace.
Context `{PyRuntime}.

(** [value == n]: [True] is 1, and a float can be an integer. *)
Definition equals_int (value : json) (n : Z) : bool :=
  match value with
  | JInt z => z =? n
  | JBool b => (if b then 1 else 0) =? n
  | JFloat literal => float_eq literal n
  | _ => false
  end.

(** [str(value)]. *)
Definition py_str (value : json) : pystr :=
  match value with JStr s => s | JInt z => dump_int z | _ => str_other value end.

(** [validate_contract]. *)
Definition validate_contract (contract : list (pystr * json)) : res (list (pystr * json)) :=
  _ ← raise_if (negb (same_keys CONTRACT_FIELDS contract.*1))
      (TraceValidationError "KMIP contract fields are invalid");
  version ← item contract (str "schema_version");
  _ ← raise_if (negb (equals_int version 1)) (TraceValidationError "KMIP contract schema_version must be 1.");
  status ← item contract (str "status");
  known ← in_set status [str "candidate-unverified"; str "observed"];
  _ ← raise_if (negb known) (TraceValidationError "KMIP contract status is invalid.");
  _ ← mapM (fun field =>
        values ← item contract field;
        raise_if (negb (unique_names values))
          (TraceValidationError "KMIP contract field must be a non-empty list of unique names."))
      [str "protocol_versions"; str "objects"; str "candidate_operations"; str "candidate_attributes";
       str "result_statuses"; str "result_reasons"];
  algorithms ← item contract (str "algorithms");
  let invalid := TraceValidationError "KMIP contract algorithms must be a non-empty object." in
  _ ← match algorithms with
      | JDict (a :: l) =>
        raise_if (negb (forallb algorithm_ok (a :: l))) (TraceValidationError "KMIP contract algorithm is invalid.")
      | _ => Raise invalid
      end;
  transport ← item contract (str "transport");
  _ ← raise_if
      (negb match transport with
            | JDict transport =>
              match dict_get (str "encoding") transport with
              | Some (JStr s) => bool_decide (s = str "TTLV")
              | _ => false
              end &&
              match dict_get (str "mutual_tls_required") transport with
              | Some (JBool true) => true
              | _ => false
              end &&
              match dict_get (str "port") transport with
              | Some v => equals_int v 5696
              | None => false
              end
            | _ => false
            end)
      (TraceValidationError "KMIP contract transport must require mutual TLS TTLV on TCP 5696.");
  Ok contract.

(** [load_contract], given the outcome of reading the file. *)
Definition load_contract (contents : res bytes) : res (list (pystr * json)) :=
  contents ← contents;
  text ← utf8_decode contents;
  contract ← loads text;
  match contract with
  | JDict contract => validate_contract contract
  | _ => Raise (TraceValidationError "KMIP contract must be a JSON object.")
  end.

Definition casefold_char (c : Z) : pystr :=
  if c <? 128 then [if (65 <=? c) && (c <=? 90) then c + 32 else c] else unicode_casefold c.

Definition isalnum (c : Z) : bool :=
  if c <? 128 then is_digit c || ((65 <=? c) && (c <=? 90)) || ((97 <=? c) && (c <=? 122)) else unicode_isalnum c.

(** [_normalized_field]. *)
Definition _normalized_field (value : pystr) : pystr :=
  List.filter isalnum (concat (map casefold_char value)).

Definition forbidden (key : pystr) : bool :=
  existsb (fun fragment => contains fragment (_normalized_field key)) FORBIDDEN_FIELD_FRAGMENTS.

(** [_reject_secret_fields]. *)
Fixpoint _reject_secret_fields (value : json) : res unit :=
  match value with
  | JDict items =>
    (fix go items := match items with
                     | [] => Ok tt
                     | (key, child) :: items =>
                       _ ← raise_if (forbidden key)
                           (TraceValidationError "contains forbidden secret-bearing field");
                       _ ← _reject_secret_fields child;
                       go items
                     end) items
  | JList l =>
    (fix go l := match l with
                 | [] => Ok tt
                 | child :: l => _ ← _reject_secret_fields child; go l
                 end) l
  | _ => Ok tt
  end.

(** [_require_sha256]. *)
Definition _require_sha256 (value : json) : res pystr :=
  let text := py_str value in
  _ ← raise_if (negb (zlen text =? 64) || negb (forallb is_lower_hex text))
      (TraceValidationError "must be a lowercase SHA-256 digest.");
  Ok text.

(** The algorithm, the key length and the key format of an event. *)
Definition validate_algorithm (contract : list (pystr * json)) (algorithm key_length key_format_type : json)
    : res unit :=
  match algorithm with
  | JNull =>
    match key_length, key_format_type with
    | JNull, JNull => Ok tt
    | _, _ => Raise (TraceValidationError "key_length and key_format_type require an algorithm.")
    end
  | _ =>
    algorithms ← item contract (str "algorithms");
    algorithm_contract ←
      match algorithm, algorithms with
      | (JList _ | JDict _), _ => Raise TypeError
      | JStr name, JDict algorithms => Ok (dict_get name algorithms)
      | _, _ => Ok None
      end;
    match algorithm_contract with
    | Some (JDict algorithm_contract) =>
      lengths ← item algorithm_contract (str "lengths");
      _ ← raise_if (negb match key_length, lengths with
                         | JInt z, JList l => existsb (fun v => match v with JInt n => n =? z | _ => false end) l
                         | _, _ => false
                         end)
          (TraceValidationError "key_length is outside the contract.");
      formats ← names algorithm_contract (str "key_format_types");
      raise_if (negb (in_names key_format_type formats))
        (TraceValidationError "key_format_type is outside the contract.")
    | _ => Raise (TraceValidationError "algorithm is outside the contract.")
    end
  end.

(** A list of strings, [None] for anything else. *)
Definition string_list (v : json) : option (list pystr) :=
  match v with JList l => mapM (fun v => match v with JStr s => Some s | _ => None end) l | _ => None end.

Definition is_null (v : json) : bool := match v with JNull => true | _ => false end.

(** [_validate_event]. *)
Definition _validate_event (event contract : list (pystr * json)) : res unit :=
  _ ← _reject_secret_fields (JDict event);
  _ ← raise_if (negb (bool_decide (missing REQUIRED_FIELDS event.*1 = []))) (TraceValidationError "missing fields");
  _ ← raise_if (negb (bool_decide (missing event.*1 REQUIRED_FIELDS = []))) (TraceValidationError "unexpected fields");
  version ← item event (str "schema_version");
  _ ← raise_if (negb (equals_int version TRACE_SCHEMA_VERSION)) (TraceValidationError "schema_version must be 1");
  client ← item event (str "client_cert_sha256");
  _ ← _require_sha256 client;
  digest ← item event (str "request_digest");
  _ ← _require_sha256 digest;
  protocol_version ← item event (str "protocol_version");
  versions ← names contract (str "protocol_versions");
  _ ← raise_if (negb (in_names protocol_version versions))
      (TraceValidationError "protocol_version is outside the contract.");
  operation ← item event (str "operation");
  candidates ← names contract (str "candidate_operations");
  _ ← raise_if (negb (in_names operation candidates))
      (TraceValidationError "operation is outside the candidate allowlist.");
  object_type ← item event (str "object_type");
  objects ← names contract (str "objects");
  _ ← raise_if (negb (is_null object_type) && negb (in_names object_type objects))
      (TraceValidationError "object_type is outside the contract.");
  algorithm ← item event (str "algorithm");
  key_length ← item event (str "key_length");
  key_format_type ← item event (str "key_format_type");
  _ ← raise_if (in_names operation [str "Create"] &&
                (is_null algorithm || is_null key_length || is_null key_format_type))
      (TraceValidationError "Create must record algorithm, key_length, and key_format_type.");
  _ ← validate_algorithm contract algorithm key_length key_format_type;
  attributes ← item event (str "attribute_names");
  allowed ← names contract (str "candidate_attributes");
  _ ← match string_list attributes with
      | None => Raise (TraceValidationError "attribute_names must be a list of names.")
      | Some attributes =>
        raise_if (negb (bool_decide (missing attributes allowed = [])))
          (TraceValidationError "attributes are outside the candidate allowlist")
      end;
  status ← item event (str "result_status");
  statuses ← names contract (str "result_statuses");
  _ ← raise_if (negb (in_names status statuses)) (TraceValidationError "result_status is outside the contract.");
  _ ← mapM (fun field =>
        v ← item event field;
        raise_if (match v with JStr s => bool_decide (strip is_space s = []) | _ => true end)
          (TraceValidationError "must be a non-empty string."))
      [str "timestamp"; str "connection_id"; str "provider_id"; str "operation"];
  reason ← item event (str "result_reason");
  reasons ← names contract (str "result_reasons");
  raise_if (negb (is_null reason) && negb (in_names reason reasons))
    (TraceValidationError "result_reason must be null or an allowlisted KMIP reason.").

(** The loop over the lines of a trace. *)
Fixpoint validate_lines (contract : list (pystr * json)) (lines : list pystr) : res (list (list (pystr * json))) :=
  match lines with
  | [] => Ok []
  | raw_line :: lines =>
    if bool_decide (strip is_space raw_line = []) then validate_lines contract lines
    else
      event ← rethrow (fun e => match e with JSONDecodeError => true | _ => false end)
                (TraceValidationError "invalid JSON") (loads raw_line);
      match event with
      | JDict event =>
        _ ← _validate_event event contract;
        events ← validate_lines contract lines;
        Ok (event :: events)
      | _ => Raise (TraceValidationError "each event must be a JSON object.")
      end
  end.

(** [str(event[field]) for event in events]. *)
Definition texts (field : pystr) (events : list (list (pystr * json))) : res (list pystr) :=
  mapM (fun event => v ← item event field; Ok (py_str v)) events.

(** [dict(sorted(Counter(values).items()))]. *)
Definition counter (values : list pystr) : list (pystr * Z) :=
  map (fun v => (v, zlen (filter (fun x => x = v) values))) (sorted_str (remove_dups values)).

(** [sorted({...})]. *)
Definition sorted_set (values : list pystr) : list pystr := sorted_str (remove_dups values).

(** [validate_trace]; [default_contract] is the outcome of reading the checked-in
    contract. *)
Definition validate_trace (default_contract : res bytes) (lines : list pystr)
    (contract : option (list (pystr * json))) (contract_bytes : bytes) : res TraceSummary :=
  selected_contract ← match contract with
                      | Some contract => validate_contract contract
                      | None => load_contract default_contract
                      end;
  events ← validate_lines selected_contract lines;
  _ ← raise_if (bool_decide (events = [])) (TraceValidationError "trace must contain at least one event.");
  serialized_contract ← match contract_bytes with
                        | [] => dumps_bytes (JDict selected_contract)
                        | _ => Ok contract_bytes
                        end;
  operation_values ← texts (str "operation") events;
  status_values ← texts (str "result_status") events;
  contract_id ← item selected_contract (str "contract_id");
  version_values ← texts (str "protocol_version") events;
  provider_values ← texts (str "provider_id") events;
  Ok (mkSummary (py_str contract_id) (sha256_hex serialized_contract) (zlen events)
        (counter operation_values) (sorted_set version_values) (sorted_set provider_values)
        (counter status_values)).
End Trace.
