(* ===== verification/TraceWriter.v ===== *)
(** The trace writer of the KMIP server ([InteropTraceWriter] of
    [src/atlaso/app/kmip/server.py]): the projections of a batch item and the lines that
    [record] appends for a request and its response. *)

From S2P Require Import Prelude PyText Json Sha256 Ttlv World Protocol Trace.
Open Scope Z_scope.

Definition OPERATION_NAMES (o : Operation) : pystr :=
  match o with
  | CREATE => str "Create"
  | LOCATE => str "Locate"
  | GET => str "Get"
  | GET_ATTRIBUTES => str "Get Attributes"
  | GET_ATTRIBUTE_LIST => str "Get Attribute List"
  | ACTIVATE => str "Activate"
  | QUERY => str "Query"
  | DISCOVER_VERSIONS => str "Discover Versions"
  end.

Definition RESULT_REASON_NAMES (r : ResultReason) : pystr :=
  match r with
  | ITEM_NOT_FOUND => str "Item Not Found"
  | INVALID_MESSAGE => str "Invalid Message"
  | OPERATION_NOT_SUPPORTED => str "Operation Not Supported"
  | MISSING_DATA => str "Missing Data"
  | INVALID_FIELD => str "Invalid Field"
  | KEY_FORMAT_TYPE_NOT_SUPPORTED => str "Key Format Type Not Supported"
  | GENERAL_FAILURE => str "General Failure"
  end.

(** [ResultReason(value)]. *)
Definition reason_of (value : Z) : option ResultReason :=
  List.find (fun r => reason_code r =? value)
    [ITEM_NOT_FOUND; INVALID_MESSAGE; OPERATION_NOT_SUPPORTED; MISSING_DATA; INVALID_FIELD;
     KEY_FORMAT_TYPE_NOT_SUPPORTED; GENERAL_FAILURE].

(** [_operation]. *)
Definition _operation (item : Ttlv) : res (pystr * Z) :=
  node ← child item OPERATION false;
  match (match node with Some n => value n | None => VInt 0 end) with
  | VInt v =>
    match operation_of v with
    | Some operation => Ok (OPERATION_NAMES operation, v)
    | None => Ok (str "Unknown", v)
    end
  | _ => Ok (str "Unknown", 0)
  end.

(** What the body of a loop over [stack] does with a node: [return], or go on with the
    nodes it pushed. *)
Inductive visited (A : Type) : Type :=
| Return (a : A)
| Push (a : A) (nodes : list Ttlv).
Arguments Return {A}.
Arguments Push {A}.

(** [while stack: node = stack.pop(); ...]; the top of the stack comes first. *)
Fixpoint walk {A} (visit : A -> Ttlv -> res (visited A)) (fuel : nat) (acc : A) (stack : list Ttlv) : res A :=
  match stack with
  | [] => Ok acc
  | node :: stack =>
    match fuel with
    | O => Raise OutOfFuel
    | S f =>
      v ← visit acc node;
      match v with
      | Return a => Ok a
      | Push a nodes => walk visit f a (rev nodes ++ stack)
      end
    end
  end.

(** The loop from [stack = [item]]: it pops every node at most once. *)
Definition traverse {A} (visit : A -> Ttlv -> res (visited A)) (acc : A) (item : Ttlv) : res A :=
  walk visit (Z.to_nat (node_count item)) acc [item].

(** [if node.type is TtlvType.STRUCTURE: stack.extend(node.children())]. *)
Definition extend {A} (acc : A) (node : Ttlv) : res (visited A) :=
  if decide (type node = STRUCTURE) then nodes ← children node None; Ok (Push acc nodes)
  else Ok (Push acc []).

Definition visit_object_type (acc : option pystr) (node : Ttlv) : res (visited (option pystr)) :=
  if (tag node =? OBJECT_TYPE) && (match value node with VInt z => z =? 2 | _ => false end)
  then Ok (Return (Some (str "Symmetric Key"))) else extend acc node.

(** [_object_type]. *)
Definition _object_type (item : Ttlv) : res (option pystr) := traverse visit_object_type None item.

Definition visit_attribute_names (names : list pystr) (node : Ttlv) : res (visited (list pystr)) :=
  let names := if tag node =? ATTRIBUTE_NAME then
                 match value node with VStr s => if mem s names then names else names ++ [s] | _ => names end
               else names in
  extend names node.

(** [_attribute_names]. *)
Definition _attribute_names (item : Ttlv) : res (list pystr) :=
  sorted_str <$> traverse visit_attribute_names [] item.

Definition visit_parameters (values : list (pystr * TtlvValue)) (node : Ttlv)
    : res (visited (list (pystr * TtlvValue))) :=
  if (tag node =? ATTRIBUTE) && bool_decide (type node = STRUCTURE) then
    match (name ← child node ATTRIBUTE_NAME true; v ← child node ATTRIBUTE_VALUE true; Ok (name, v)) with
    | Raise (TtlvError _) => Ok (Push values [])
    | Raise e => Raise e
    | Ok (Some name, Some v) =>
      extend (match value name with VStr s => dict_set s (value v) values | _ => values end) node
    | Ok _ => extend values node
    end
  else extend values node.

(** [_cryptographic_parameters]. *)
Definition _cryptographic_parameters (item : Ttlv) (operation : pystr)
    : res (option pystr * option Z * option pystr) :=
  if negb (bool_decide (operation = str "Create")) then Ok (None, None, None) else
  values ← traverse visit_parameters [] item;
  let aes := match dict_get (str "Cryptographic Algorithm") values with
             | Some (VInt z) => z =? CRYPTOGRAPHIC_ALGORITHM_AES
             | _ => false
             end in
  Ok (if aes then Some (str "AES") else None,
      match dict_get (str "Cryptographic Length") values with Some (VInt z) => Some z | _ => None end,
      if aes then Some (str "Raw") else None).

(** [isinstance(value, int)], with the number: a [bool] is an [int]. *)
Definition int_value (v : TtlvValue) : option Z :=
  match v with VInt z => Some z | VBool b => Some (if b then 1 else 0) | _ => None end.

(** [f"{value}"] for an [int]. *)
Definition format_int (v : TtlvValue) : pystr :=
  match v with VBool true => str "True" | VBool false => str "False" | VInt z => dump_int z | _ => [] end.

(** A required child, [assert]ed to be there. *)
Definition present (r : res (option Ttlv)) : res Ttlv :=
  n ← r; match n with Some n => Ok n | None => Raise AssertionError end.

(** [protocol_version] of [record]. *)
Definition request_version (request : Ttlv) : res pystr :=
  header ← present (child request REQUEST_HEADER true);
  version ← present (child header PROTOCOL_VERSION true);
  major ← present (child version PROTOCOL_VERSION_MAJOR true);
  minor ← present (child version PROTOCOL_VERSION_MINOR true);
  match int_value (value major), int_value (value minor) with
  | Some _, Some _ => Ok (format_int (value major) ++ str "." ++ format_int (value minor))
  | _, _ => Raise AssertionError
  end.

(** [s.replace(pattern, new)]. *)
Fixpoint replace_all (pattern new : pystr) (skip : nat) (s : pystr) : pystr :=
  match s with
  | [] => []
  | c :: s' =>
    match skip with
    | S k => replace_all pattern new k s'
    | O => if has_prefix pattern s then new ++ replace_all pattern new (length pattern - 1) s'
           else c :: replace_all pattern new O s'
    end
  end.

(** [datetime.now(UTC).isoformat().replace("+00:00", "Z")]. *)
Definition trace_timestamp (us : Z) : pystr := replace_all (str "+00:00") (str "Z") O (isoformat us).

Definition optional {A} (f : A -> json) (o : option A) : json := match o with Some a => f a | None => JNull end.

Section Record.
Context (connection_id client_cert_sha256 provider_id protocol_version timestamp : pystr) (request_bytes : bytes).

(** The event of one batch item. *)
Definition trace_event (request_item response_item : Ttlv) : res json :=
  '(operation_name, _) ← _operation request_item;
  '(algorithm, key_length, key_format_type) ← _cryptographic_parameters request_item operation_name;
  status_node ← present (child response_item RESULT_STATUS true);
  status ← match int_value (value status_node) with Some z => Ok z | None => Raise AssertionError end;
  reason_node ← child response_item RESULT_REASON false;
  let reason := n ← reason_node; z ← int_value (value n); r ← reason_of z; Some (RESULT_REASON_NAMES r) in
  object_type ← _object_type request_item;
  attribute_names ← _attribute_names request_item;
  Ok (JDict [(str "schema_version", JInt 1);
             (str "timestamp", JStr timestamp);
             (str "connection_id", JStr connection_id);
             (str "client_cert_sha256", JStr client_cert_sha256);
             (str "provider_id", JStr provider_id);
             (str "protocol_version", JStr protocol_version);
             (str "operation", JStr operation_name);
             (str "object_type", optional JStr object_type);
             (str "algorithm", optional JStr algorithm);
             (str "key_length", optional JInt key_length);
             (str "key_format_type", optional JStr key_format_type);
             (str "attribute_names", JList (map JStr attribute_names));
             (str "result_status", JStr (if status =? SUCCESS then str "Success" else str "Operation Failed"));
             (str "result_reason", optional JStr reason);
             (str "request_digest", JStr (sha256_hex request_bytes))]).

Context `{PyRuntime} (contract : res bytes).

(** The loop over [zip(request_items, response_items, strict=True)]: events outside the
    contract are left out. *)
Fixpoint trace_lines (request_items response_items : list Ttlv) : res (list pystr) :=
  match request_items, response_items with
  | [], [] => Ok []
  | request_item :: request_items, response_item :: response_items =>
    event ← trace_event request_item response_item;
    let rendered := dumps_compact event in
    match validate_trace contract [rendered] None [] with
    | Raise (TraceValidationError _) => trace_lines request_items response_items
    | Raise e => Raise e
    | Ok _ => events ← trace_lines request_items response_items; Ok (rendered :: events)
    end
  | _, _ => Raise (ValueError "zip() arguments have different lengths")
  end.
End Record.
