(* ===== verification/Diagnostics.v ===== *)
(** The redacted diagnostics of the KMIP server ([src/atlaso/app/kmip/server.py]): the
    bounded projections of requests and responses that its log lines contain. *)

From S2P Require Import Prelude PyText Json Ttlv Protocol.
Open Scope Z_scope.

Definition ATTRIBUTE_DIAGNOSTIC_TYPES : list (pystr * TtlvType) :=
  [(str "Cryptographic Algorithm", ENUMERATION); (str "Cryptographic Length", INTEGER);
   (str "Cryptographic Usage Mask", INTEGER); (str "Object Type", ENUMERATION); (str "State", ENUMERATION)].

Definition ATTRIBUTE_DIAGNOSTIC_NAMES : list pystr :=
  ATTRIBUTE_DIAGNOSTIC_TYPES.*1 ++
  [str "Activation Date"; str "Name"; str "Unique Identifier"; str "x-Component"; str "x-Identifier";
   str "x-Name"; str "x-Product"; str "x-Product_Version"; str "x-Vendor"].

(** The children of a structure, [()] for anything else. *)
Definition tuple_of (n : Ttlv) : list Ttlv := match value n with VTuple cs => cs | _ => [] end.

(** [_numeric_child_value]. *)
Definition _numeric_child_value (node : Ttlv) (t : Z) (expected_type : TtlvType) : option Z :=
  if decide (type node = STRUCTURE) then
    head (omap (fun child =>
      if (tag child =? t) && bool_decide (type child = expected_type) then
        match value child with VInt z => Some z | _ => None end
      else None) (take 16 (tuple_of node)))
  else None.

(** [(child.tag, int(child.type))]. *)
Definition field_shape (n : Ttlv) : Z * Z := (tag n, type_code (type n)).

(** The first child with a tag and the type [Structure]. *)
Definition find_structure (t : Z) (cs : list Ttlv) : option Ttlv :=
  List.find (fun c => (tag c =? t) && bool_decide (type c = STRUCTURE)) cs.

(** An entry of the projection of a Template-Attribute. *)
Record AttributeShape : Type := mkAttributeShape {
  shape_fields : list (Z * Z);
  shape_name : pystr;
  shape_numeric_value : option Z
}.

Definition attribute_shape (attribute : Ttlv) : AttributeShape :=
  let children := take 16 (tuple_of attribute) in
  let name := head (omap (fun c =>
    if (tag c =? ATTRIBUTE_NAME) && bool_decide (type c = TEXT_STRING) then
      match value c with VStr s => Some s | _ => None end
    else None) children) in
  let label := match name with
               | Some s => if mem s ATTRIBUTE_DIAGNOSTIC_NAMES then s else str "unsupported"
               | None => str "unsupported"
               end in
  mkAttributeShape (map field_shape children) label
    (match dict_get label ATTRIBUTE_DIAGNOSTIC_TYPES with
     | Some expected_type => _numeric_child_value attribute ATTRIBUTE_VALUE expected_type
     | None => None
     end).

(** [_template_attribute_shape]. *)
Definition _template_attribute_shape (payload : Ttlv) : list AttributeShape :=
  if decide (type payload = STRUCTURE) then
    match find_structure TEMPLATE_ATTRIBUTE (take 16 (tuple_of payload)) with
    | None => []
    | Some template =>
      map attribute_shape
        (filter (fun a => tag a = ATTRIBUTE /\ type a = STRUCTURE) (take 16 (tuple_of template)))
    end
  else [].

(** The dictionary [_dispatch_request_shape] returns. *)
Record RequestShape : Type := mkRequestShape {
  header_fields : list (Z * Z);
  protocol_version : option (option Z * option Z);
  shape_operations : list Z;
  batch_fields : list (list (Z * Z));
  payload_fields : list (list (Z * Z));
  template_attributes : list (list AttributeShape)
}.

(** [_dispatch_request_shape]. *)
Definition _dispatch_request_shape (request : Ttlv) : RequestShape :=
  if decide (type request = STRUCTURE) then
    let root_children := take (Z.to_nat (MAX_BATCH_ITEMS + 1)) (tuple_of request) in
    let header := find_structure REQUEST_HEADER root_children in
    let version := h ← header; find_structure PROTOCOL_VERSION (take 16 (tuple_of h)) in
    let items := take (Z.to_nat MAX_BATCH_ITEMS)
                   (filter (fun c => tag c = BATCH_ITEM /\ type c = STRUCTURE) root_children) in
    let payload item := find_structure REQUEST_PAYLOAD (take 16 (tuple_of item)) in
    mkRequestShape
      (match header with Some h => map field_shape (take 16 (tuple_of h)) | None => [] end)
      (v ← version;
       Some (_numeric_child_value v PROTOCOL_VERSION_MAJOR INTEGER,
             _numeric_child_value v PROTOCOL_VERSION_MINOR INTEGER))
      (omap (fun item => _numeric_child_value item OPERATION ENUMERATION) items)
      (map (fun item => map field_shape (take 16 (tuple_of item))) items)
      (map (fun item => match payload item with
                        | Some p => map field_shape (take 16 (tuple_of p))
                        | None => []
                        end) items)
      (map (fun item => match payload item with Some p => _template_attribute_shape p | None => [] end) items)
  else mkRequestShape [] None [] [] [] [].

(** A failed item as [_log_response_failures] reports it: operation, status, reason. *)
Definition failed_item (item : Ttlv) : option (option Z * Z * option Z) :=
  match _numeric_child_value item RESULT_STATUS ENUMERATION with
  | None => None
  | Some status =>
    if status =? SUCCESS then None
    else Some (_numeric_child_value item OPERATION ENUMERATION, status,
               _numeric_child_value item RESULT_REASON ENUMERATION)
  end.

(** The warnings of a connection. *)
Inductive DispatchLog : Type :=
| UnmappedCertificate
| FailedItems (failures : list (option Z * Z * option Z)) (request_shape : RequestShape)
| RejectedRequest (reason : Z) (request_shape : RequestShape)
| UnexpectedFailure (exception_class : string) (request_shape : RequestShape).

(** [type(e).__name__], up to the subclasses that [exn] does not tell apart. *)
Definition class_name (e : exn) : string :=
  match e with
  | TtlvError _ => "TtlvError" | ProtocolFailure _ _ => "ProtocolFailure" | KeyStoreError _ => "KeyStoreError"
  | KeyNotFoundError _ => "KeyNotFoundError" | KeyStateError _ => "KeyStateError"
  | ConfigurationError _ => "ConfigurationError" | TraceValidationError _ => "TraceValidationError"
  | RecoveryError _ => "RecoveryError" | UploadError _ _ => "UploadError" | PublicationConflict => "PublicationConflict"
  | FileExistsError => "FileExistsError" | LookupError => "LookupError" | AttributeError => "AttributeError" | IndexError => "IndexError"
  | OverflowError => "OverflowError"
  | ValueError _ => "ValueError" | JSONDecodeError => "JSONDecodeError"
  | UnicodeEncodeError => "UnicodeEncodeError" | UnicodeDecodeError => "UnicodeDecodeError"
  | StructError => "error" | TypeError => "TypeError" | KeyError => "KeyError"
  | AssertionError => "AssertionError" | InvalidTag => "InvalidTag" | OSError => "OSError"
  | SqliteError => "Error" | IntegrityError => "IntegrityError" | PowerFailure | OutOfFuel => "none"
  end.

(** [_log_dispatch_failure]: a protocol failure is logged by its reason, any other
    exception by its class. *)
Definition _log_dispatch_failure (request : Ttlv) (error : exn) : DispatchLog :=
  match error with
  | ProtocolFailure reason _ => RejectedRequest reason (_dispatch_request_shape request)
  | _ => UnexpectedFailure (class_name error) (_dispatch_request_shape request)
  end.

(** The items of a response that [_log_response_failures] collects. *)
Definition failed_items (response : Ttlv) : list (option Z * Z * option Z) :=
  if decide (type response = STRUCTURE) then
    take (Z.to_nat MAX_BATCH_ITEMS)
      (omap failed_item
         (filter (fun c => tag c = BATCH_ITEM /\ type c = STRUCTURE)
                 (take (Z.to_nat (MAX_BATCH_ITEMS + 1)) (tuple_of response))))
  else [].

(** [_log_response_failures]. *)
Definition _log_response_failures (request response : Ttlv) : list DispatchLog :=
  match failed_items response with
  | [] => []
  | failures => [FailedItems failures (_dispatch_request_shape request)]
  end.

(* ------------------------------------------------------------------ *)
(** ** Properties *)

(** Which numbers and texts among the children of a structure are public. *)
Record Public : Type := mkPublic { public_number : Z -> TtlvType -> bool; public_text : Z -> pystr -> bool }.

Definition numbers (fields : list (Z * TtlvType)) : Public := mkPublic (fun t ty => mem (t, ty) fields) (fun _ _ => false).

(** The name of an attribute: its first text with the tag. *)
Definition attribute_name (children : list Ttlv) : option pystr :=
  head (omap (fun c =>
    if (tag c =? ATTRIBUTE_NAME) && bool_decide (type c = TEXT_STRING) then
      match value c with VStr s => Some s | _ => None end
    else None) (take 16 children)).

(** Of a request: the numbers of the protocol version, the operation of a batch item, the
    allowlisted names of attributes, and the number of an attribute with one of the five
    allowlisted names, if it has the type that goes with the name. *)
Definition request_public (t : Z) (children : list Ttlv) : Public :=
  if t =? PROTOCOL_VERSION then numbers [(tag_value PROTOCOL_VERSION_MAJOR, INTEGER); (tag_value PROTOCOL_VERSION_MINOR, INTEGER)]
  else if t =? BATCH_ITEM then numbers [(tag_value OPERATION, ENUMERATION)]
  else if t =? ATTRIBUTE then
    mkPublic
      (fun t ty => (t =? ATTRIBUTE_VALUE) && bool_decide ((name ← attribute_name children; dict_get name ATTRIBUTE_DIAGNOSTIC_TYPES) = Some ty))
      (fun t s => (t =? ATTRIBUTE_NAME) && mem s ATTRIBUTE_DIAGNOSTIC_NAMES)
  else numbers [].

(** Of a response: the operation, status and reason of a batch item. *)
Definition response_public (t : Z) (_ : list Ttlv) : Public :=
  if t =? BATCH_ITEM then numbers [(tag_value OPERATION, ENUMERATION); (tag_value RESULT_STATUS, ENUMERATION); (tag_value RESULT_REASON, ENUMERATION)]
  else numbers [].

(** An exception without its message. *)
Definition anonymous (e : exn) : exn :=
  match e with
  | TtlvError _ => TtlvError "" | ProtocolFailure reason _ => ProtocolFailure reason "" | KeyStoreError _ => KeyStoreError ""
  | KeyNotFoundError _ => KeyNotFoundError "" | KeyStateError _ => KeyStateError "" | ConfigurationError _ => ConfigurationError ""
  | TraceValidationError _ => TraceValidationError "" | RecoveryError _ => RecoveryError "" | UploadError _ _ => UploadError 0 ""
  | ValueError _ => ValueError "" | _ => e
  end.

Section Redaction.
Context (public : Z -> list Ttlv -> Public).

(** A message without its content: every number, text, boolean and byte string that is not
    public where it stands is blanked. *)
Fixpoint redact_in (p : Public) (n : Ttlv) : Ttlv :=
  match n with
  | MkTtlv t ty v =>
    MkTtlv t ty
      match v with
      | VTuple cs => VTuple (map (redact_in (public t cs)) cs)
      | VInt z => VInt (if public_number p t ty then z else 0)
      | VStr s => VStr (if public_text p t s then s else [])
      | VBool _ => VBool false
      | VBytes _ => VBytes []
      end
  end.
Definition redact : Ttlv -> Ttlv := redact_in (numbers []).

(** What is public among the children of a node. *)
Abbreviation inside n := (public (tag n) (tuple_of n)).

Lemma redact_tag p n : tag (redact_in p n) = tag n.
Proof. by destruct n. Qed.

Lemma redact_type p n : type (redact_in p n) = type n.
Proof. by destruct n. Qed.

Lemma redact_tuple p n : tuple_of (redact_in p n) = map (redact_in (inside n)) (tuple_of n).
Proof. by destruct n as [t ty []]. Qed.

Lemma redact_shapes p l : map field_shape (map (redact_in p) l) = map field_shape l.
Proof. rewrite map_map. apply map_ext. intros n. unfold field_shape. by rewrite redact_tag, redact_type. Qed.

Lemma redact_fields p n k : map field_shape (take k (tuple_of (redact_in p n))) = map field_shape (take k (tuple_of n)).
Proof. by rewrite redact_tuple, firstn_map, redact_shapes. Qed.

Lemma redact_find p t l : find_structure t (map (redact_in p) l) = redact_in p <$> find_structure t l.
Proof.
  unfold find_structure. induction l as [|c l IH]; [done|]. cbn [map List.find].
  rewrite redact_tag, redact_type. by destruct (_ && _).
Qed.

Lemma redact_find_in p t k n :
  find_structure t (take k (tuple_of (redact_in p n))) = redact_in (inside n) <$> find_structure t (take k (tuple_of n)).
Proof. by rewrite redact_tuple, firstn_map, redact_find. Qed.

Lemma redact_filter p t l :
  filter (fun c => tag c = t /\ type c = STRUCTURE) (map (redact_in p) l) =
  map (redact_in p) (filter (fun c => tag c = t /\ type c = STRUCTURE) l).
Proof.
  induction l as [|c l IH]; [done|]. cbn [map]. rewrite !filter_cons, redact_tag, redact_type, IH.
  by case_decide.
Qed.

(** A public number of a structure is kept. *)
Lemma redact_numeric p n t ty :
  public_number (inside n) t ty = true -> _numeric_child_value (redact_in p n) t ty = _numeric_child_value n t ty.
Proof.
  intros Ht. unfold _numeric_child_value. rewrite redact_type. case_decide; [|done].
  rewrite redact_tuple, firstn_map. f_equal. revert Ht. generalize (inside n). intros q Ht. induction (take 16 (tuple_of n)) as [|c l IH]; [done|].
  cbn [map omap list_omap]. rewrite redact_tag, redact_type.
  destruct (Z.eqb_spec (tag c) t) as [E|]; [|by rewrite IH]. destruct (bool_decide_reflect (type c = ty)) as [Ey|]; [|by rewrite IH].
  cbn [andb]. destruct c as [t' ty' [| z | | |]]; cbn [redact_in value]; try by rewrite IH.
  cbn in E, Ey. subst t' ty'. by rewrite Ht, IH.
Qed.
End Redaction.

Lemma find_structure_tag t l n : find_structure t l = Some n -> tag n = t.
Proof. intros [_ E]%List.find_some. apply andb_true_iff in E as [E _]. by apply Z.eqb_eq. Qed.

(** The structures with a tag in a list. *)
Lemma filter_tag t (l : list Ttlv) n : n ∈ filter (fun c => tag c = t /\ type c = STRUCTURE) l -> tag n = t.
Proof. by intros [[? _] _]%list_elem_of_filter. Qed.

Abbreviation redact_request := (redact request_public).
Abbreviation redact_response := (redact response_public).

Lemma redact_name a : tag a = ATTRIBUTE ->
  forall q l, q = request_public (tag a) (tuple_of a) ->
  (match attribute_name (map (redact_in request_public q) l) with
   | Some s => if mem s ATTRIBUTE_DIAGNOSTIC_NAMES then s else str "unsupported" | None => str "unsupported" end) =
  (match attribute_name l with
   | Some s => if mem s ATTRIBUTE_DIAGNOSTIC_NAMES then s else str "unsupported" | None => str "unsupported" end).
Proof.
  intros Ha q l ->. unfold attribute_name. rewrite firstn_map. induction (take 16 l) as [|c k IH]; [done|].
  cbn [map omap list_omap]. rewrite redact_tag, redact_type.
  destruct (tag c =? ATTRIBUTE_NAME) eqn:E; [|done]. destruct (bool_decide (type c = TEXT_STRING)); [|done].
  cbn [andb]. destruct c as [t ty [| | | s |]]; cbn [redact_in value]; try done. cbn [head].
  rewrite Ha. change ((t =? ATTRIBUTE_NAME) = true) in E.
  change (public_text (request_public ATTRIBUTE (tuple_of a)) t s) with ((t =? ATTRIBUTE_NAME) && mem s ATTRIBUTE_DIAGNOSTIC_NAMES).
  rewrite E. cbn [andb]. by destruct (mem s ATTRIBUTE_DIAGNOSTIC_NAMES) eqn:Em; [rewrite Em|].
Qed.

Lemma redact_attribute p a : tag a = ATTRIBUTE -> attribute_shape (redact_in request_public p a) = attribute_shape a.
Proof.
  intros Ha. unfold attribute_shape. fold (attribute_name (tuple_of (redact_in request_public p a))). fold (attribute_name (tuple_of a)).
  rewrite redact_fields, redact_tuple. rewrite (redact_name a Ha _ _ eq_refl). f_equal.
  destruct (dict_get _ _) as [ty|] eqn:E; [|done]. apply redact_numeric. rewrite Ha.
  change (bool_decide ((name ← attribute_name (tuple_of a); dict_get name ATTRIBUTE_DIAGNOSTIC_TYPES) = Some ty) = true).
  destruct (attribute_name (tuple_of a)) as [s|]; [|discriminate E].
  destruct (mem s ATTRIBUTE_DIAGNOSTIC_NAMES); [|discriminate E]. cbn [mbind option_bind]. by apply bool_decide_eq_true.
Qed.

Lemma redact_template p n : _template_attribute_shape (redact_in request_public p n) = _template_attribute_shape n.
Proof.
  unfold _template_attribute_shape. rewrite redact_type, redact_find_in. case_decide; [|done].
  destruct (find_structure _ _) as [template|]; [|done]. cbn [fmap option_fmap option_map].
  rewrite redact_tuple, firstn_map, redact_filter, map_map. apply map_ext_in. intros a Hin%list_elem_of_In%filter_tag. by apply redact_attribute.
Qed.

(** The shape of a request does not depend on its content. *)
Lemma redact_request_shape request : _dispatch_request_shape (redact_request request) = _dispatch_request_shape request.
Proof.
  unfold _dispatch_request_shape, redact. rewrite redact_type. case_decide; [|done].
  rewrite redact_tuple, firstn_map, redact_find, redact_filter, firstn_map.
  set (items := take _ (filter _ _)). set (root := take _ (tuple_of request)).
  assert (Forall (fun i => tag i = BATCH_ITEM) items) as Hitems.
  { apply Forall_forall. intros i Hi. unfold items in Hi. apply elem_of_take in Hi as (k&Hk&_). apply list_elem_of_lookup_2 in Hk. by eapply filter_tag. }
  f_equal.
  - destruct (find_structure _ root) as [h|]; [|done]. cbn. by rewrite redact_fields.
  - destruct (find_structure _ root) as [h|]; [|done]. cbn [fmap option_fmap option_map mbind option_bind].
    rewrite redact_find_in. destruct (find_structure _ (take 16 (tuple_of h))) as [v|] eqn:Ev; [|done].
    apply find_structure_tag in Ev. cbn [fmap option_fmap option_map mbind option_bind].
    by rewrite !redact_numeric by (unfold request_public; by rewrite Ev).
  - induction Hitems as [|i items Hi _ IH]; [done|]. cbn [map omap list_omap].
    rewrite redact_numeric by (unfold request_public; by rewrite Hi). by rewrite IH.
  - rewrite map_map. apply map_ext. intros i. by rewrite redact_fields.
  - rewrite map_map. apply map_ext. intros i. rewrite redact_find_in. destruct (find_structure _ _) as [p|]; [|done]. cbn. by rewrite redact_fields.
  - rewrite map_map. apply map_ext. intros i. rewrite redact_find_in. destruct (find_structure _ _) as [p|]; [|done]. apply redact_template.
Qed.

(** The failures in a response do not depend on its content. *)
Lemma redact_failed_items response : failed_items (redact_response response) = failed_items response.
Proof.
  unfold failed_items, redact. rewrite redact_type. case_decide; [|done]. rewrite redact_tuple, firstn_map, redact_filter. f_equal.
  set (items := filter _ _).
  assert (Forall (fun i => tag i = BATCH_ITEM) items) as Hitems by (apply Forall_forall; intros i; apply filter_tag).
  induction Hitems as [|i l Hi _ IH]; [done|]. cbn [map omap list_omap]. rewrite IH. unfold failed_item.
  by rewrite !redact_numeric by (unfold response_public; by rewrite Hi).
Qed.

(** C39. Diagnostics are redacted: the warnings of the server depend on a request only
    through the tags and types of its fields, the protocol version, the operations, the
    allowlisted names of attributes and the numbers of the five allowlisted ones; on an
    exception only through its class and the reason of a protocol failure; and on a response
    only through the operation, status and reason of its items.  With all other texts, key
    bytes, numbers and messages blanked the same is logged. *)
Theorem diagnostics_redacted request response error :
  _log_dispatch_failure (redact_request request) (anonymous error) = _log_dispatch_failure request error /\
  _log_response_failures (redact_request request) (redact_response response) = _log_response_failures request response.
Proof.
  split.
  - unfold _log_dispatch_failure. rewrite redact_request_shape. by destruct error.
  - unfold _log_response_failures. by rewrite redact_failed_items, redact_request_shape.
Qed.
