(* ===== verification/Connection.v ===== *)
(** A connection of the KMIP server ([src/atlaso/app/kmip/server.py]): framing of requests
    on a socket ([_receive_exact]) and the authenticated request loop
    ([KmipRequestHandler.handle]) over any key store.

    TLS is outside the model: [handle] is given the outcome of the handshake.  A socket is
    the list of what its [recv] calls are going to return, and each send, each write of
    the trace file and each reading of a clock consumes the next outcome of its own list. *)

From S2P Require Import Prelude Utf8 PyText Uuid Json Sha256 Ttlv World Protocol Server Trace TraceWriter Diagnostics.
Open Scope Z_scope.

(* ------------------------------------------------------------------ *)
(** ** Sockets *)

(** What the next [recv] finds: bytes that arrived, or an error.  An empty list is a
    connection the peer has closed. *)
Inductive recv_event : Type :=
| Arrived (b : bytes)
| Broken.

(** [sock.recv(size)]. *)
Definition recv (size : Z) (sock : list recv_event) : res bytes * list recv_event :=
  match sock with
  | [] => (Ok [], [])
  | Broken :: sock => (Raise OSError, sock)
  | Arrived b :: sock =>
    if zlen b <=? size then (Ok b, sock)
    else (Ok (take (Z.to_nat size) b), Arrived (drop (Z.to_nat size) b) :: sock)
  end.

(** The loop of [_receive_exact], with what was received so far. *)
Fixpoint receive_loop (fuel : nat) (size : Z) (result : bytes) (sock : list recv_event)
    : res bytes * list recv_event :=
  if zlen result <? size then
    match fuel with
    | O => (Raise OutOfFuel, sock)
    | S f =>
      match recv (size - zlen result) sock with
      | (Raise e, sock) => (Raise e, sock)
      | (Ok [], sock) =>
        match result with
        | [] => (Ok [], sock)
        | _ => (Raise (TtlvError "KMIP connection closed during a message."), sock)
        end
      | (Ok chunk, sock) => receive_loop f size (result ++ chunk) sock
      end
    end
  else (Ok result, sock).

(** [_receive_exact]: every round but the last adds a byte. *)
Definition _receive_exact (size : Z) (sock : list recv_event) : res bytes * list recv_event :=
  receive_loop (Z.to_nat size) size [] sock.

(* ------------------------------------------------------------------ *)
(** ** The state of a connection *)

(** What the socket will deliver, what was sent, whether the next sends succeed, the
    seconds of [time.time] and the microseconds of [datetime.now], random bytes, the
    lines that were logged, the text of the trace file, the next writes of it ([Some n]
    fails after [n] characters), and the store. *)
Record Conn (St : Type) : Type := mkConn {
  incoming : list recv_event;
  sent : list bytes;
  sends : list bool;
  times : list Z;
  stamps : list Z;
  entropy : bytes;
  logged : list DispatchLog;
  trace_text : pystr;
  trace_writes : list (option nat);
  store : St
}.
Arguments mkConn {St}.
Arguments incoming {St}.
Arguments sent {St}.
Arguments sends {St}.
Arguments times {St}.
Arguments stamps {St}.
Arguments entropy {St}.
Arguments logged {St}.
Arguments trace_text {St}.
Arguments trace_writes {St}.
Arguments store {St}.

Section Connection.
Context {St : Type}.

Definition set_incoming (x : list recv_event) (c : Conn St) : Conn St :=
  mkConn x (sent c) (sends c) (times c) (stamps c) (entropy c) (logged c) (trace_text c) (trace_writes c) (store c).
Definition set_sent (x : list bytes) (l : list bool) (c : Conn St) : Conn St :=
  mkConn (incoming c) x l (times c) (stamps c) (entropy c) (logged c) (trace_text c) (trace_writes c) (store c).
Definition set_times (x : list Z) (c : Conn St) : Conn St :=
  mkConn (incoming c) (sent c) (sends c) x (stamps c) (entropy c) (logged c) (trace_text c) (trace_writes c) (store c).
Definition set_stamps (x : list Z) (c : Conn St) : Conn St :=
  mkConn (incoming c) (sent c) (sends c) (times c) x (entropy c) (logged c) (trace_text c) (trace_writes c) (store c).
Definition set_entropy (x : bytes) (c : Conn St) : Conn St :=
  mkConn (incoming c) (sent c) (sends c) (times c) (stamps c) x (logged c) (trace_text c) (trace_writes c) (store c).
Definition set_logged (x : list DispatchLog) (c : Conn St) : Conn St :=
  mkConn (incoming c) (sent c) (sends c) (times c) (stamps c) (entropy c) x (trace_text c) (trace_writes c) (store c).
Definition set_trace (x : pystr) (l : list (option nat)) (c : Conn St) : Conn St :=
  mkConn (incoming c) (sent c) (sends c) (times c) (stamps c) (entropy c) (logged c) x l (store c).
Definition set_store (x : St) (c : Conn St) : Conn St :=
  mkConn (incoming c) (sent c) (sends c) (times c) (stamps c) (entropy c) (logged c) (trace_text c) (trace_writes c) x.

Definition receive (size : Z) : ST (Conn St) bytes := fun c =>
  let '(r, sock) := _receive_exact size (incoming c) in (r, set_incoming sock c).

(** [sock.sendall(b)]. *)
Definition sendall (b : bytes) : ST (Conn St) unit := fun c =>
  match sends c with
  | false :: l => (Raise OSError, set_sent (sent c) l c)
  | l => (Ok tt, set_sent (sent c ++ [b]) (tail l) c)
  end.

(** [int(time.time())]. *)
Definition time_time : ST (Conn St) Z := fun c =>
  (Ok (default 0 (head (times c))), set_times (tail (times c)) c).

(** The microseconds of [datetime.now(UTC)]. *)
Definition datetime_now : ST (Conn St) Z := fun c =>
  (Ok (default 0 (head (stamps c))), set_stamps (tail (stamps c)) c).

(** [str(uuid.uuid4())]. *)
Definition new_connection_id : ST (Conn St) pystr := fun c =>
  (Ok (uuid_str (uuid4_bits (take_pad x00 16 (entropy c)))), set_entropy (drop 16 (entropy c)) c).

Definition on_store {A} (m : ST St A) : ST (Conn St) A := fun c =>
  let '(r, s) := m (store c) in (r, set_store s c).

Definition log (l : list DispatchLog) : ST (Conn St) unit := fun c => (Ok tt, set_logged (logged c ++ l) c).

(** The writes of [record], up to [os.fsync] and [os.chmod]. *)
Definition append_trace (text : pystr) : ST (Conn St) unit := fun c =>
  match trace_writes c with
  | Some n :: l => (Raise OSError, set_trace (trace_text c ++ take n text) l c)
  | l => (Ok tt, set_trace (trace_text c ++ text) (tail l) c)
  end.

Context `{PyRuntime} (contract : res bytes).

(** [InteropTraceWriter.record]. *)
Definition record (connection_id client_cert_sha256 provider_id : pystr) (request response : Ttlv)
    (request_bytes : bytes) : ST (Conn St) unit :=
  request_items ← lift (children request (Some (tag_value BATCH_ITEM)));
  response_items ← lift (children response (Some (tag_value BATCH_ITEM)));
  protocol_version ← lift (request_version request);
  us ← datetime_now;
  events ← lift (trace_lines connection_id client_cert_sha256 provider_id protocol_version
                   (trace_timestamp us) request_bytes contract request_items response_items);
  match events with
  | [] => mret tt
  | _ => append_trace (concat (map (fun rendered_event => rendered_event ++ [10]) events))
  end.

Context `{KeyStore St}.

(** [dispatch] as [handle] calls it: a failure is logged; [None] is the [return] of a
    protocol failure, anything else is raised again. *)
Definition dispatch_logged (provider_id : pystr) (request : Ttlv) : ST (Conn St) (option Ttlv) :=
  now ← time_time;
  catch is_Exception
    (response ← on_store (dispatch now provider_id request); mret (Some response))
    (fun e =>
       _ ← log [_log_dispatch_failure request e];
       match e with
       | ProtocolFailure _ _ => mret None
       | _ => lift (Raise e)
       end).

(** The iteration of [handle] from the decoded request on. *)
Definition answer_request (trace_writer : bool) (connection_id fingerprint provider_id : pystr)
    (request : Ttlv) (request_bytes : bytes) : ST (Conn St) bool :=
  response ← dispatch_logged provider_id request;
  match response with
  | None => mret false
  | Some response =>
    _ ← log (_log_response_failures request response);
    response_bytes ← lift (Ttlv.encode response);
    _ ← (if trace_writer : bool
         then record connection_id fingerprint provider_id request response request_bytes
         else mret tt);
    _ ← sendall response_bytes;
    mret true
  end.

(** One iteration of [handle] inside its [try]: the result tells whether the loop goes on. *)
Definition serve_request (limits : ServiceLimits) (trace_writer : bool)
    (connection_id fingerprint provider_id : pystr) : ST (Conn St) bool :=
  header ← receive 8;
  match header with
  | [] => mret false
  | _ =>
    _ ← lift (raise_if (negb (bool_decide (take 3 header = to_bytes_big 3 REQUEST_MESSAGE)))
          (TtlvError "KMIP root tag must be Request Message."));
    _ ← lift (raise_if (negb (from_bytes_big (slice header 3 4) =? type_code STRUCTURE))
          (TtlvError "KMIP Request Message must be a structure."));
    let length := from_bytes_big (slice header 4 8) in
    let padded_length := length + (8 - length mod 8) mod 8 in
    let total := 8 + padded_length in
    _ ← lift (raise_if (max_request_bytes limits <? total)
          (TtlvError "KMIP request exceeds the configured maximum size."));
    body ← receive padded_length;
    _ ← lift (raise_if (negb (zlen body =? padded_length)) (TtlvError "KMIP request is truncated."));
    let request_bytes := (header ++ body)%list in
    request ← lift (Ttlv.decode request_bytes);
    answer_request trace_writer connection_id fingerprint provider_id request request_bytes
  end.

(** Connection errors and invalid messages end the loop. *)
Definition ends_connection (e : exn) : bool :=
  match e with OSError | TtlvError _ => true | _ => false end.

(** The loop of [handle]. *)
Fixpoint serve_requests (limits : ServiceLimits) (trace_writer : bool)
    (connection_id fingerprint provider_id : pystr) (n : nat) : ST (Conn St) unit :=
  match n with
  | O => mret tt
  | S n =>
    continue ← catch ends_connection (serve_request limits trace_writer connection_id fingerprint provider_id)
                 (fun _ => mret false);
    if (continue : bool) then serve_requests limits trace_writer connection_id fingerprint provider_id n
    else mret tt
  end.

(** [handle], given the outcome of the TLS handshake: the peer's certificate in DER. *)
Definition handle (config : ServiceConfig) (handshake : res (option bytes)) : ST (Conn St) unit :=
  match handshake with
  | Raise OSError => mret tt
  | Raise e => lift (Raise e)
  | Ok None | Ok (Some []) => mret tt
  | Ok (Some peer_der) =>
    let fingerprint := sha256_hex peer_der in
    match dict_get fingerprint (fingerprint_providers config) with
    | None => log [UnmappedCertificate]
    | Some provider_id =>
      connection_id ← new_connection_id;
      serve_requests (limits config) (bool_decide (is_Some (interop_trace_path config)))
        connection_id fingerprint provider_id (Z.to_nat (max_requests_per_connection (limits config)))
    end
  end.
End Connection.
