(* ===== verification/Slots.v ===== *)
(** The connection slots of the KMIP server ([src/atlaso/app/kmip/server.py]): the bounded
    semaphore that the listeners and the connection threads share. *)

From S2P Require Import Prelude.
From stdpp Require Import relations.
Open Scope Z_scope.

(** The shared bounded semaphore and the connections that hold a slot: those accepted
    and not yet handed to a thread, and those being served. *)
Record Slots : Type := mkSlots {
  slots_max : Z;
  slots_free : Z;
  slots_pending : Z;
  slots_serving : Z
}.

(** [BoundedSemaphore.acquire(blocking=False)] and [release()]. *)
Definition acquire (s : Slots) : bool * Slots :=
  if 0 <? slots_free s then (true, mkSlots (slots_max s) (slots_free s - 1) (slots_pending s) (slots_serving s))
  else (false, s).

Definition release (s : Slots) : res unit * Slots :=
  if slots_max s <=? slots_free s then (Raise (ValueError "Semaphore released too many times"), s)
  else (Ok tt, mkSlots (slots_max s) (slots_free s + 1) (slots_pending s) (slots_serving s)).

(** [get_request]: a connection beyond the limit is closed; a failed TLS wrap gives the
    slot back. *)
Definition get_request (wrapped : bool) : ST Slots unit := fun s =>
  let '(ok, s) := acquire s in
  if ok then
    if wrapped then (Ok tt, mkSlots (slots_max s) (slots_free s) (slots_pending s + 1) (slots_serving s))
    else match release s with
         | (Ok _, s) => (Raise OSError, s)
         | (Raise e, s) => (Raise e, s)
         end
  else (Raise OSError, s).

(** [process_request]: the connection is handed to a thread, or its slot is given back. *)
Definition process_request (started : bool) : ST Slots unit := fun s =>
  let s := mkSlots (slots_max s) (slots_free s) (slots_pending s - 1) (slots_serving s) in
  if started then (Ok tt, mkSlots (slots_max s) (slots_free s) (slots_pending s) (slots_serving s + 1))
  else match release s with
       | (Ok _, s) => (Raise OSError, s)
       | (Raise e, s) => (Raise e, s)
       end.

(** [process_request_thread]: the slot is given back however serving ends. *)
Definition process_request_thread : ST Slots unit := fun s =>
  release (mkSlots (slots_max s) (slots_free s) (slots_pending s) (slots_serving s - 1)).

(** The interleavings of the listeners and the connection threads. *)
Inductive slot_step : Slots -> Slots -> Prop :=
| step_get wrapped s r s' : get_request wrapped s = (r, s') -> slot_step s s'
| step_process started s r s' :
    0 < slots_pending s -> process_request started s = (r, s') -> slot_step s s'
| step_end s r s' : 0 < slots_serving s -> process_request_thread s = (r, s') -> slot_step s s'.

(* ------------------------------------------------------------------ *)
(** ** Properties *)

Section SlotProps.
Context (max_connections : Z).

(** Every slot is free, pending or serving. *)
Record slots_ok (s : Slots) : Prop := {
  so_max : slots_max s = max_connections;
  so_free : 0 <= slots_free s;
  so_pending : 0 <= slots_pending s;
  so_serving : 0 <= slots_serving s;
  so_sum : slots_free s + slots_pending s + slots_serving s = max_connections
}.

(** [BoundedSemaphore(max_connections)]. *)
Definition new_slots : Slots := mkSlots max_connections max_connections 0 0.

Lemma release_ok s :
  slots_max s = max_connections -> 0 <= slots_free s -> 0 <= slots_pending s -> 0 <= slots_serving s ->
  slots_free s + slots_pending s + slots_serving s = max_connections - 1 ->
  exists s', release s = (Ok tt, s') /\ slots_ok s'.
Proof.
  intros Hm Hf Hp Hs Hsum. unfold release. rewrite Hm, (proj2 (Z.leb_gt _ _)) by lia.
  eexists. split; [done|]. split; cbn; lia.
Qed.

Lemma slot_step_ok s s' : slots_ok s -> slot_step s s' -> slots_ok s'.
Proof.
  intros Hok Hst. pose proof Hok as [Hm Hf Hp Hs Hsum].
  destruct Hst as [wrapped s r s' E|started s r s' Hpos E|s r s' Hpos E].
  - unfold get_request, acquire in E. destruct (Z.ltb_spec 0 (slots_free s)); [|congruence].
    destruct wrapped; [simplify_eq; split; cbn; lia|].
    match type of E with match release ?x with _ => _ end = _ => destruct (release_ok x) as (s1&E1&H1) end;
      cbn; try lia. rewrite E1 in E. by simplify_eq.
  - unfold process_request in E. destruct started; [simplify_eq; split; cbn in *; lia|].
    match type of E with match release ?x with _ => _ end = _ => destruct (release_ok x) as (s1&E1&H1) end;
      cbn; try lia. rewrite E1 in E. by simplify_eq.
  - unfold process_request_thread in E.
    match type of E with release ?x = _ => destruct (release_ok x) as (s1&E1&H1) end;
      cbn; try lia. congruence.
Qed.

(** C38. The connection limit: in every interleaving of listeners and connection threads,
    the free, pending and serving slots add up to the configured maximum; so at most that
    many connections are served at once, every slot comes back when its connection ends
    or fails to start, and releasing a slot never raises. *)
Theorem slots_bounded s :
  0 <= max_connections -> rtc slot_step new_slots s ->
  slots_ok s /\ slots_serving s <= max_connections /\
  (0 < slots_serving s -> exists s', process_request_thread s = (Ok tt, s')).
Proof.
  intros Hmax Hst.
  assert (slots_ok s) as Hok.
  { assert (slots_ok new_slots) as H0 by (split; cbn; lia). clear Hmax.
    revert H0. induction Hst as [s|s1 s2 s3 H1 _ IH]; [done|]. intros H0. apply IH. by eapply slot_step_ok. }
  pose proof Hok as [Hm Hf Hp Hs Hsum]. split_and!; [done|lia|]. intros Hpos.
  unfold process_request_thread.
  match goal with |- context [release ?x] => destruct (release_ok x) as (s1&E1&H1) end; cbn; try lia. eauto.
Qed.
End SlotProps.

Lemma slots_bounded_witness :
  let s := mkSlots 2 1 1 0 in
  slots_ok 2 s /\ slots_serving s <= 2 /\ (0 < slots_serving s -> exists s', process_request_thread s = (Ok tt, s')).
Proof.
  intros s. apply slots_bounded; [discriminate|]. apply rtc_once.
  apply (step_get true (new_slots 2) (Ok tt)). reflexivity.
Defined.
