(* ===== verification/SourceGroups.v ===== *)
(** Source Groups of the appliance firewall ([src/atlaso/app/services/firewall.py]): named
    lists of addresses and of references to other groups, as they are stored, validated and
    expanded for rules.

    A group is a dictionary, as it comes out of JSON.  The lower case of a text is the class
    [PyCase], the interpreter's Unicode table; [str] of a value is [py_str] of the
    interpreter's class [PyRuntime]. *)

From S2P Require Import Prelude PyText Json IpAddress Networks Trace.
Open Scope Z_scope.

(** [s.lower()]. *)
Class PyCase : Type := { py_lower : pystr -> pystr }.

Definition FIREWALL_ANY_SOURCE_GROUP_ID : pystr := str "any".
Definition FIREWALL_SOURCE_GROUP_REFERENCE_PREFIX : pystr := str "group:".
Definition ANY : pystr := str "any".

Abbreviation Group := (list (pystr * json)).
Abbreviation GroupsById := (list (pystr * list (pystr * json))).

(** [if value not in l: l.append(value)]. *)
Definition append_new (l : list pystr) (value : pystr) : list pystr := if mem value l then l else l ++ [value].

(** A list of texts. *)
Definition json_texts (v : json) : option (list pystr) :=
  match v with JList l => mapM (fun v => match v with JStr s => Some s | _ => None end) l | _ => None end.

Section Groups.
Context `{PyRuntime} `{PyCase}.

(** [str(group.get(key, ""))]. *)
Definition group_field (g : Group) (key : string) : pystr := py_str (default (JStr []) (dict_get (str key) g)).

(** [str(group.get("name") or group_id or "Source Group")]. *)
Definition group_label (g : Group) (group_id : pystr) : pystr :=
  match dict_get (str "name") g with
  | Some v => if truthy v then py_str v
              else match group_id with [] => str "Source Group" | _ => group_id end
  | None => match group_id with [] => str "Source Group" | _ => group_id end
  end.

(** [{str(group.get("id", "")): group for group in groups}]. *)
Definition groups_by_id (groups : list Group) : GroupsById := dict_of (map (fun g => (group_field g "id", g)) groups).

(* ------------------------------------------------------------------ *)
(** ** Entries *)

(** [_split_source_group_entry_values]; [_split_address_values] cuts at the same places. *)
Definition is_entry_separator (c : Z) : bool := (c =? 10) || (c =? 44).
Definition _split_source_group_entry_values (value : pystr) : list pystr := stripped_parts is_entry_separator value.

Definition raw_entries (g : Group) : json :=
  match dict_get (str "entries") g with
  | None | Some JNull => default JNull (dict_get (str "sources") g)
  | Some v => v
  end.

Definition entry_values (raw : json) : list pystr :=
  match raw with
  | JStr s => _split_source_group_entry_values s
  | JList l => filter (fun s => s <> []) (map (fun v => strip is_space (py_str v)) l)
  | _ => []
  end.

(** The body of the loop of [_source_group_entries]. *)
Definition normalize_entry (value : pystr) : pystr :=
  let item := strip is_space value in
  if bool_decide (py_lower item = ANY) then ANY
  else if has_prefix FIREWALL_SOURCE_GROUP_REFERENCE_PREFIX (py_lower item)
       then FIREWALL_SOURCE_GROUP_REFERENCE_PREFIX ++ drop (length FIREWALL_SOURCE_GROUP_REFERENCE_PREFIX) item
       else item.

(** [_source_group_entries]; no group is the empty dictionary. *)
Definition _source_group_entries (g : Group) (default_entries : list pystr) : list pystr :=
  map normalize_entry (match entry_values (raw_entries g) with [] => default_entries | values => values end).

(** [_source_group]. *)
Definition _source_group (group_id name : pystr) (entries : list pystr) (description : pystr) (builtin : bool) : Group :=
  let normalized := JList (map JStr (_source_group_entries [(str "entries", JList (map JStr entries))] [ANY])) in
  [(str "id", JStr group_id); (str "name", JStr name); (str "entries", normalized); (str "sources", normalized);
   (str "description", JStr description); (str "builtin", JBool builtin)].

(* ------------------------------------------------------------------ *)
(** ** References *)

(** [_looks_like_source_group_reference]. *)
Definition _looks_like_source_group_reference (value : pystr) : bool :=
  has_prefix (str "@") (strip is_space value) ||
  has_prefix FIREWALL_SOURCE_GROUP_REFERENCE_PREFIX (py_lower (strip is_space value)).

(** [_source_group_name_index]. *)
Definition normal_name (name : pystr) : pystr := py_lower (strip is_space name).
Definition _source_group_name_index (groups : GroupsById) : list (pystr * pystr) :=
  dict_of (map (fun kg => (normal_name (group_field kg.2 "name"), kg.1))
             (filter (fun kg => strip is_space (group_field kg.2 "name") <> []) groups)).

(** [_source_group_reference_target]: no names are the name index; the empty text is no
    target. *)
Definition _source_group_reference_target (value : pystr) (groups : GroupsById) (names : list (pystr * pystr)) : pystr :=
  let item := strip is_space value in
  if has_prefix FIREWALL_SOURCE_GROUP_REFERENCE_PREFIX (py_lower item) then
    let group_id := drop (length FIREWALL_SOURCE_GROUP_REFERENCE_PREFIX) item in
    if mem group_id groups.*1 then group_id else []
  else if has_prefix (str "@") item then
    let name_index := match names with [] => _source_group_name_index groups | _ => names end in
    default [] (dict_get (normal_name (drop 1 item)) name_index)
  else [].

(* ------------------------------------------------------------------ *)
(** ** Expansion *)

(** The loop of [_expand_source_group_entries]; [nested] expands a target. *)
Fixpoint expand_entries (nested : pystr -> list pystr) (groups : GroupsById) (stack : list pystr)
    (entries expanded : list pystr) : list pystr :=
  match entries with
  | [] => match expanded with [] => [ANY] | _ => expanded end
  | entry :: entries =>
    let normalized := strip is_space entry in
    if bool_decide (py_lower normalized = ANY) then [ANY]
    else match _source_group_reference_target normalized groups (_source_group_name_index groups) with
         | [] => expand_entries nested groups stack entries (append_new expanded normalized)
         | target_id =>
           if mem target_id stack then expand_entries nested groups stack entries expanded
           else let nested_sources := nested target_id in
                if bool_decide (nested_sources = [ANY]) then [ANY]
                else expand_entries nested groups stack entries (fold_left append_new nested_sources expanded)
         end
  end.

Fixpoint expand (fuel : nat) (g : Group) (groups : GroupsById) (stack : list pystr) : list pystr :=
  match fuel with
  | O => []
  | S fuel =>
    expand_entries (fun target_id => expand fuel (default [] (dict_get target_id groups)) groups (stack ++ [target_id]))
      groups stack (_source_group_entries g [ANY]) []
  end.

(** [_expand_source_group_entries]: every nested call has one more group on its stack. *)
Definition _expand_source_group_entries (g : Group) (groups : GroupsById) : list pystr := expand (S (length groups)) g groups [].

(** [source_group_to_rule_source]. *)
Definition source_group_to_rule_source (g : Group) (groups : GroupsById) : pystr :=
  join_with [10] (match _expand_source_group_entries g groups with [] => [ANY] | sources => sources end).

(* ------------------------------------------------------------------ *)
(** ** Validation *)

(** [_split_address_values]. *)
Definition _split_address_values (value : pystr) : list pystr := map py_lower (_split_source_group_entry_values value).

Definition any_alone (label : pystr) : pystr := label ++ str " can use 'any' only by itself.".
Definition bad_address (label : pystr) : pystr := label ++ str " must be 'any' or valid IPv4/IPv6 addresses or CIDRs.".

(** [_validate_address_value]. *)
Definition _validate_address_value (label value : pystr) : list pystr :=
  match _split_address_values value with
  | [] => []
  | normalized_values =>
    if mem ANY normalized_values then if bool_decide (normalized_values = [ANY]) then [] else [any_alone label]
    else concat (map (fun item => match ip_network item with Some _ => [] | None => [bad_address label] end) normalized_values)
  end.

(** The position of an element of a list. *)
Fixpoint index_of (x : pystr) (l : list pystr) : nat :=
  match l with [] => O | y :: l => if decide (y = x) then O else S (index_of x l) end.

(** [visit]. *)
Fixpoint visit (fuel : nat) (groups : GroupsById) (names : list (pystr * pystr)) (group_id : pystr) (path : list pystr)
    : list pystr :=
  match fuel with
  | O => []
  | S fuel =>
    if mem group_id path then
      let cycle_ids := drop (index_of group_id path) path ++ [group_id] in
      let cycle_names := concat (map (fun id => match dict_get id groups with
                                                | Some g => [match dict_get (str "name") g with
                                                             | Some v => if truthy v then py_str v else id
                                                             | None => id
                                                             end]
                                                | None => []
                                                end) cycle_ids) in
      [str "Source Groups cannot reference each other in a cycle: " ++ join_with (str " -> ") cycle_names ++ str "."]
    else match dict_get group_id groups with
         | None | Some [] => []
         | Some g =>
           concat (map (fun entry => match _source_group_reference_target entry groups names with
                                     | [] => []
                                     | target_id => visit fuel groups names target_id (path ++ [group_id])
                                     end) (_source_group_entries g [ANY]))
         end
  end.

(** [_validate_source_group_cycles]: a path holds every group once. *)
Definition _validate_source_group_cycles (groups : list Group) (by_id : GroupsById) (names : list (pystr * pystr)) : list pystr :=
  concat (map (fun g => match group_field g "id" with
                        | [] => []
                        | group_id => visit (S (S (length by_id))) by_id names group_id []
                        end) groups).

(** The first loop of [validate_firewall_source_groups]. *)
Fixpoint validate_names (groups : list Group) (names : list (pystr * pystr)) : list pystr * list (pystr * pystr) :=
  match groups with
  | [] => ([], names)
  | g :: groups =>
    let group_id := group_field g "id" in
    let label := group_label g group_id in
    let error := if bool_decide (strip is_space label = []) then [str "Source Group name is required."]
                 else match dict_get (normal_name label) names with
                      | Some other => if bool_decide (other = group_id) then []
                                      else [str "Source Group name '" ++ label ++ str "' is already used."]
                      | None => []
                      end in
    let '(errors, names) := validate_names groups (dict_set (normal_name label) group_id names) in
    (error ++ errors, names)
  end.

(** The second loop of [validate_firewall_source_groups]. *)
Definition validate_group (by_id : GroupsById) (names : list (pystr * pystr)) (g : Group) : list pystr :=
  let group_id := group_field g "id" in
  let label := group_label g group_id in
  let entries := _source_group_entries g [ANY] in
  let target entry := _source_group_reference_target entry by_id names in
  if bool_decide (group_id = FIREWALL_ANY_SOURCE_GROUP_ID) && negb (bool_decide (entries = [ANY])) then
    [str "Any is built in and must contain only 'any'."]
  else
    let address_entries := filter (fun entry => target entry = []) entries in
    concat (map (fun entry =>
      if bool_decide (normal_name entry = ANY) || negb (bool_decide (target entry = [])) then []
      else if _looks_like_source_group_reference entry
           then [label ++ str " references a Source Group that does not exist: " ++ entry ++ str "."]
           else []) entries) ++
    _validate_address_value label (join_with [10] address_entries) ++
    (if mem ANY (map normal_name entries) && (1 <? zlen entries) then [any_alone label] else []).

(** [validate_firewall_source_groups]. *)
Definition validate_firewall_source_groups (groups : list Group) : list pystr :=
  let by_id := groups_by_id groups in
  let '(errors, names) := validate_names groups [] in
  errors ++ concat (map (validate_group by_id names) groups) ++ _validate_source_group_cycles groups by_id names.

(* ------------------------------------------------------------------ *)
(** ** Stored state *)

(** The groups and the assignments of rules to groups. *)
Record GroupState : Type := mkGroupState {
  gs_groups : list Group;
  gs_assignments : list (pystr * pystr)
}.

(** [str(saved.get(key) or fallback)]. *)
Definition field_or (g : Group) (key : string) (fallback : pystr) : pystr :=
  match dict_get (str key) g with Some v => if truthy v then py_str v else fallback | None => fallback end.

(** The group of a saved one. *)
Definition restored_group (interface_networks : list (pystr * list pystr)) (group_id : pystr) (saved : Group) : Group :=
  let default_entries :=
    if has_prefix (str "interface:") group_id then
      default [ANY] (dict_get (drop (length (str "interface:")) group_id) interface_networks)
    else [ANY] in
  let entries := _source_group_entries saved default_entries in
  let g := _source_group group_id (field_or saved "name" group_id) entries (field_or saved "description" (str "Custom source group.")) false in
  let own := default JNull (dict_get (str "entries") g) in
  if bool_decide (group_id = str "custom:bootstrap-management") &&
     bool_decide ((dict_get (str "bootstrap_entries") saved ≫= json_texts) = json_texts own)
  then g ++ [(str "bootstrap_entries", own)] else g.

(** The dictionaries of [saved.get("groups", [])], by identifier: texts and the keys of a
    dictionary are none, other values cannot be iterated. *)
Definition saved_groups (saved : list (pystr * json)) : res GroupsById :=
  match default (JList []) (dict_get (str "groups") saved) with
  | JList l => Ok (dict_of (concat (map (fun v => match v with JDict g => [(group_field g "id", g)] | _ => [] end) l)))
  | JStr _ | JDict _ => Ok []
  | _ => Raise TypeError
  end.

(** [firewall_source_group_state]. *)
Definition firewall_source_group_state (raw_json : pystr) (interface_networks : list (pystr * list pystr)) : res GroupState :=
  let saved := match strip is_space raw_json with
               | [] => []
               | _ => match loads raw_json with Ok (JDict parsed) => parsed | _ => [] end
               end in
  stored ← saved_groups saved;
  let groups := _source_group (str "any") (str "Any") [ANY] (str "Allow traffic from any source or destination address.") true ::
    map (fun kg => restored_group interface_networks kg.1 kg.2) (filter (fun kg => kg.1 <> str "any") stored) in
  let assignments := match dict_get (str "assignments") saved with Some (JDict a) => a | _ => [] end in
  let ids := map (fun g => group_field g "id") groups in
  Ok (mkGroupState groups
        (map (fun kv => (kv.1, py_str kv.2)) (filter (fun kv => mem (py_str kv.2) ids = true) assignments))).
End Groups.
