(* ===== verification/SourceGroupsProps.v ===== *)
(** Source Groups refer to each other without cycles exactly when the validator reports
    none, and valid groups expand to exactly the addresses they reach. *)

From S2P Require Import Prelude PyText Json IpAddress Networks Trace SourceGroups.
Open Scope Z_scope.

(** What the case table promises on ASCII texts. *)
Definition ascii_lower (c : Z) : Z := if (65 <=? c) && (c <=? 90) then c + 32 else c.
Class PyCaseLaws `{PyCase} : Prop := {
  py_lower_ascii s : Forall (fun c => 0 <= c < 128) s -> py_lower s = map ascii_lower s
}.

(** Stripping is idempotent. *)
Lemma lstrip_suffix p s : exists t, s = t ++ lstrip p s.
Proof. induction s as [|c s (t&IH)]; cbn; [by exists []|]. destruct (p c); [exists (c :: t); cbn; by rewrite <- IH|by exists []]. Qed.

Lemma lstrip_head p s c t : lstrip p s = c :: t -> p c = false.
Proof. induction s as [|x s IH]; cbn; [done|]. destruct (p x) eqn:E; [done|]. by intros [= <- <-]. Qed.

Lemma strip_strip p s : strip p (strip p s) = strip p s.
Proof.
  unfold strip. set (t := lstrip p s). set (v := lstrip p (rev t)).
  assert (lstrip p (rev v) = rev v) as ->.
  { apply lstrip_id. destruct (lstrip_suffix p (rev t)) as (w&Hw). fold v in Hw. apply (f_equal (@rev Z)) in Hw.
    rewrite rev_involutive, rev_app_distr in Hw. destruct (rev v) as [|c u]; [done|]. by apply (lstrip_head p s c (u ++ rev w)). }
  rewrite rev_involutive. f_equal. unfold v. apply lstrip_id. destruct (lstrip p (rev t)) as [|c u] eqn:E; [done|]. by apply (lstrip_head _ _ _ _ E).
Qed.

Definition open_with (p : Z -> bool) (s : pystr) : Prop := match s with c :: _ => p c = false | [] => True end.

Lemma strip_ends p s : open_with p s -> open_with p (rev s) -> strip p s = s.
Proof. intros H1 H2. unfold strip. by rewrite (lstrip_id p s), (lstrip_id p (rev s)), rev_involutive. Qed.

Lemma strip_last p s : open_with p (rev (strip p s)).
Proof.
  unfold strip. rewrite rev_involutive. destruct (lstrip p (rev (lstrip p s))) as [|c t] eqn:E; [done|]. by apply lstrip_head in E.
Qed.

(** A walk along the references of groups. *)
Section Walks.
Context (R : relation pystr).

Fixpoint walk (a : pystr) (w : list pystr) : Prop :=
  match w with [] => True | b :: w => R a b /\ walk b w end.

Lemma tc_walk a b : tc R a b -> exists w, walk a (w ++ [b]).
Proof.
  induction 1 as [a b Hab|a b c Hab _ (w&Hw)]; [by exists []|]. by exists (b :: w).
Qed.
Lemma tc_last a b : tc R a b -> exists c, R c b.
Proof. induction 1; eauto. Qed.

Lemma tc_first a b : tc R a b -> exists c, R a c.
Proof. induction 1; eauto. Qed.
End Walks.

Section Props.
Context `{PyRuntime} `{PyCase} {laws : PyCaseLaws}.

Lemma lower_any : py_lower ANY = ANY.
Proof. rewrite py_lower_ascii; [done|]. by repeat constructor. Qed.

(* ------------------------------------------------------------------ *)
(** ** Cycles *)

Section Graph.
Context (groups : GroupsById) (names : list (pystr * pystr)).

(** The references of a group, and the graph they make. *)
Definition target (e : pystr) : pystr := _source_group_reference_target e groups names.
Definition cites (g : Group) (b : pystr) : Prop := exists e, (e ∈ _source_group_entries g [ANY]) /\ target e = b /\ b <> [].
Definition refers (a b : pystr) : Prop := exists g, dict_get a groups = Some g /\ cites g b.

Lemma empty_group_cites b : ~ cites [] b.
Proof.
  intros (e&He&<-&Hne). apply Hne. cbn in He. unfold normalize_entry in He.
  change (strip is_space ANY) with ANY in He. rewrite lower_any in He. rewrite bool_decide_eq_true_2 in He by done.
  apply list_elem_of_singleton in He as ->. unfold target, _source_group_reference_target.
  change (strip is_space ANY) with ANY. by rewrite lower_any.
Qed.

(** One step of a visit that reports nothing. *)
Lemma visit_nil_step n id path :
  visit (S n) groups names id path = [] <-> (id ∉ path) /\ forall t, refers id t -> visit n groups names t (path ++ [id]) = [].
Proof.
  cbn [visit]. destruct (mem id path) eqn:Em; unfold mem in Em.
  { apply bool_decide_eq_true in Em. split; [done|naive_solver]. }
  apply bool_decide_eq_false in Em. split.
  - intros Hv. split; [done|]. intros t (g&Hg&Hc). rewrite Hg in Hv.
    destruct g as [|kv g]; [by apply empty_group_cites in Hc|].
    destruct Hc as (e&He&Ht&Hne). rewrite concat_map_nil in Hv. specialize (Hv e He). unfold target in Ht.
    rewrite Ht in Hv. by destruct t.
  - intros [_ Hall]. destruct (dict_get id groups) as [[|kv g]|] eqn:Eg; [done| |done].
    apply concat_map_nil. intros e He. destruct (_source_group_reference_target e groups names) as [|c t] eqn:Et; [done|].
    apply Hall. exists (kv :: g). split; [done|]. exists e. by split_and!.
Qed.

Lemma refers_key a b : refers a b -> a ∈ groups.*1.
Proof. intros (g&Hg&_). destruct (decide (a ∈ groups.*1)) as [|Hn]; [done|]. apply dict_get_None in Hn. congruence. Qed.

(** A visit that reports nothing sees every walk without a repetition. *)
Lemma visit_nil_walks n id path w :
  (length groups + 1 <= n + length path)%nat -> NoDup path -> path ⊆ groups.*1 ->
  visit n groups names id path = [] -> walk refers id w -> NoDup (path ++ id :: w).
Proof.
  revert n id path. induction w as [|t w IH]; intros n id path Hn Hnd Hsub Hv Hw.
  - assert (length path <= length groups)%nat.
    { rewrite <- (length_fmap fst groups). by apply submseteq_length, NoDup_submseteq. }
    destruct n as [|n]; [lia|]. apply visit_nil_step in Hv as [Hid _].
    apply NoDup_app. split_and!; [done|set_solver|apply NoDup_singleton].
  - assert (length path <= length groups)%nat.
    { rewrite <- (length_fmap fst groups). by apply submseteq_length, NoDup_submseteq. }
    destruct n as [|n]; [lia|]. apply visit_nil_step in Hv as [Hid Hv]. destruct Hw as [Ht Hw].
    replace (path ++ id :: t :: w) with ((path ++ [id]) ++ t :: w) by by rewrite <- app_assoc.
    apply (IH n); [rewrite length_app; cbn; lia| |pose proof (refers_key _ _ Ht); set_solver|by apply Hv|done].
    apply NoDup_app. split_and!; [done|set_solver|apply NoDup_singleton].
Qed.

(** A reported visit is on a cycle that the path leads to. *)
Lemma visit_reports n id path :
  (forall x, x ∈ path -> tc refers x id) -> visit n groups names id path <> [] -> exists x, tc refers x x.
Proof.
  revert id path. induction n as [|n IH]; intros id path Hp Hv; [done|].
  destruct (decide (id ∈ path)) as [Hid|Hid]; [exists id; auto|].
  destruct (decide (Exists (fun e => visit n groups names (target e) (path ++ [id]) <> [] /\ target e <> [])
    (match dict_get id groups with Some g => _source_group_entries g [ANY] | None => [] end))) as [He|He].
  - apply Exists_exists in He as (e&He&Hve&Hne). destruct (dict_get id groups) as [g|] eqn:Eg; [|by apply not_elem_of_nil in He].
    assert (refers id (target e)) as Hr by (exists g; split; [done|]; by exists e).
    apply (IH (target e) (path ++ [id])); [|done]. intros x [Hx|Hx]%elem_of_app.
    + eapply tc_r; [by apply Hp|done].
    + apply list_elem_of_singleton in Hx as ->. by apply tc_once.
  - exfalso. apply Hv, visit_nil_step. split; [done|]. intros t (g&Hg&e&Het&Ht&Hne).
    apply dec_stable. intros Hvt. apply He, Exists_exists. exists e. rewrite Hg. split; [done|]. by rewrite Ht.
Qed.
End Graph.

(** The groups of a list, by identifier. *)
Lemma dict_of_keys {A} (l : list (pystr * A)) d k :
  k ∈ (fold_left (fun d '(k, v) => dict_set k v d) l d).*1 <-> k ∈ d.*1 \/ k ∈ l.*1.
Proof.
  revert d. induction l as [|[x v] l IH]; intros d; cbn; [set_solver|]. rewrite IH, dict_set_keys. case_decide; set_solver.
Qed.

Lemma groups_by_id_key groups k : k ∈ (groups_by_id groups).*1 <-> exists g, g ∈ groups /\ group_field g "id" = k.
Proof.
  unfold groups_by_id, dict_of. rewrite dict_of_keys. cbn. split.
  - intros [Hk|Hk]; [by apply not_elem_of_nil in Hk|]. apply list_elem_of_fmap in Hk as (kg&->&Hkg).
    apply list_elem_of_fmap in Hkg as (g&->&Hg). by exists g.
  - intros (g&Hg&<-). right. apply list_elem_of_fmap. exists (group_field g "id", g). split; [done|].
    by apply (list_elem_of_fmap_2 (fun g => (group_field g "id", g))).
Qed.

(** The validator reports a cycle exactly when there is one. *)
Lemma cycles_iff groups names :
  _validate_source_group_cycles groups (groups_by_id groups) names = [] <->
  forall x, ~ tc (refers (groups_by_id groups) names) x x.
Proof.
  unfold _validate_source_group_cycles. rewrite concat_map_nil. split.
  - intros Hall x Hx. assert (exists g, dict_get x (groups_by_id groups) = Some g /\ x <> []) as (g0&Hg0&Hne).
    { destruct (tc_last _ _ _ Hx) as (y&g&_&e&_&_&Hne). destruct (tc_first _ _ _ Hx) as (y'&g'&Hg'&_). by exists g'. }
    assert (x ∈ (groups_by_id groups).*1) as (g&Hg&Hid)%groups_by_id_key.
    { apply dec_stable. intros Hn. apply dict_get_None in Hn. congruence. }
    specialize (Hall g Hg). rewrite Hid in Hall. destruct x as [|c x]; [done|].
    apply tc_walk in Hx as (w&Hw). eapply (visit_nil_walks _ _ (S (S (length (groups_by_id groups)))) _ []) in Hw; [|cbn; lia|constructor|set_solver|exact Hall].
    cbn in Hw. apply NoDup_cons in Hw as [Hx _]. set_solver.
  - intros Hac g Hg. destruct (group_field g "id") as [|c id]; [done|].
    apply dec_stable. intros Hv. apply visit_reports in Hv as (x&Hx); [by apply (Hac x)|]. intros y Hy. by apply not_elem_of_nil in Hy.
Qed.

(* ------------------------------------------------------------------ *)
(** ** Expansion *)

Section Expansion.
Context (groups : GroupsById).

Abbreviation index := (_source_group_name_index groups).
Abbreviation entries g := (_source_group_entries g [ANY]).
Abbreviation group_at t := (default [] (dict_get t groups)).

(** What a group reaches: the text "any", and other entries that are no references. *)
Inductive reaches_any (g : Group) : Prop :=
| any_here e : e ∈ entries g -> normal_name e = ANY -> reaches_any g
| any_there t : cites groups index g t -> reaches_any (group_at t) -> reaches_any g.

Inductive reaches (g : Group) (x : pystr) : Prop :=
| here e : e ∈ entries g -> target groups index e = [] -> x = strip is_space e -> reaches g x
| there t : cites groups index g t -> reaches (group_at t) x -> reaches g x.

Lemma target_strip e : target groups index (strip is_space e) = target groups index e.
Proof. unfold target, _source_group_reference_target. by rewrite strip_strip. Qed.

Lemma index_values k v : dict_get k index = Some v -> v ∈ groups.*1.
Proof.
  intros Hk%dict_get_In. unfold index in Hk.
  assert (forall l d, (forall k v, (k, v) ∈ d -> v ∈ groups.*1) -> (forall k v, (k, v) ∈ l -> v ∈ groups.*1) ->
    forall k v, (k, v) ∈ fold_left (fun (d : list (pystr * pystr)) '(k, v) => dict_set k v d) l d -> v ∈ groups.*1) as Hfold.
  { induction l as [|[x w] l IH]; intros d Hd Hl; cbn; [done|]. apply IH; [|intros; eapply Hl; by right].
    intros k' v' Hin. enough ((k', v') ∈ d \/ v' = w) as [?| ->]; [by eapply Hd|eapply Hl; by left|].
    clear -Hin. induction d as [|[y u] d IH]; cbn in Hin; [set_solver|]. case_decide; set_solver. }
  eapply (Hfold _ []); [set_solver| |exact Hk]. intros k' v' Hin. apply list_elem_of_fmap in Hin as (kg&[= -> ->]&Hkg).
  apply list_elem_of_filter in Hkg as [_ Hkg]. by apply list_elem_of_fmap_2.
Qed.

Lemma target_key e t : target groups index e = t -> t <> [] -> t ∈ groups.*1.
Proof.
  unfold target, _source_group_reference_target. destruct (has_prefix _ (py_lower _)).
  - destruct (mem _ _) eqn:Em; [|by intros <-]. intros <- _. unfold mem in Em. by apply bool_decide_eq_true in Em.
  - destruct (has_prefix _ _); [|by intros <-].
    cbn zeta. assert ((match index with [] => index | _ :: _ => index end) = index) as -> by by destruct index.
    destruct (dict_get _ _) as [v|] eqn:E; [|by intros <-]. intros <- _. by apply index_values in E.
Qed.

(** The result of an expansion. *)
Definition expands (g : Group) (r : list pystr) : Prop :=
  (reaches_any g /\ r = [ANY]) \/
  (~ reaches_any g /\ r <> [] /\ NoDup r /\ forall x, x ∈ r <-> reaches g x).

Lemma append_new_elem l v x : x ∈ append_new l v <-> x ∈ l \/ x = v.
Proof. unfold append_new, mem. case_bool_decide; set_solver. Qed.

Lemma append_new_NoDup l v : NoDup l -> NoDup (append_new l v).
Proof.
  intros Hl. unfold append_new, mem. case_bool_decide; [done|].
  apply NoDup_app. split_and!; [done|set_solver|apply NoDup_singleton].
Qed.

Lemma append_all_elem l k x : x ∈ fold_left append_new k l <-> x ∈ l \/ x ∈ k.
Proof. revert l. induction k as [|v k IH]; intros l; cbn; [set_solver|]. rewrite IH, append_new_elem. set_solver. Qed.

Lemma append_all_NoDup l k : NoDup l -> NoDup (fold_left append_new k l).
Proof. revert l. induction k as [|v k IH]; intros l Hl; cbn; [done|]. by apply IH, append_new_NoDup. Qed.

Lemma reaches_ANY g : reaches g ANY -> reaches_any g.
Proof.
  intros HA. remember ANY as a eqn:Ea. induction HA as [g a e He _ Hs|g a t Hc _ IH].
  - apply (any_here _ e); [done|]. unfold normal_name. by rewrite <- Hs, Ea, lower_any.
  - eapply any_there; [exact Hc|auto].
Qed.

(** The loop over entries whose targets expand. *)
Section Loop.
Context (nested : pystr -> list pystr) (stack : list pystr) (g : Group).
Context (Ht : forall t, cites groups index g t -> (t ∉ stack) /\ expands (group_at t) (nested t)).

(** An entry that leads to "any". *)
Definition any_entry (e : pystr) : Prop :=
  normal_name e = ANY \/ exists t, target groups index e = t /\ t <> [] /\ reaches_any (group_at t).

(** What an entry leads to. *)
Definition entry_reaches (e x : pystr) : Prop :=
  (target groups index e = [] /\ x = strip is_space e) \/
  exists t, target groups index e = t /\ t <> [] /\ reaches (group_at t) x.

Lemma expand_step e l expanded :
  e ∈ entries g -> ~ any_entry e ->
  exists more, expand_entries nested groups stack (e :: l) expanded = expand_entries nested groups stack l (fold_left append_new more expanded) /\
    more <> [] /\ (ANY ∉ more) /\ forall x, x ∈ more <-> entry_reaches e x.
Proof.
  intros He Hany. cbn [expand_entries]. rewrite bool_decide_eq_false_2 by (intros E; apply Hany; by left).
  change (_source_group_reference_target (strip is_space e) groups index) with (target groups index (strip is_space e)).
  rewrite target_strip. destruct (target groups index e) as [|c t] eqn:Et.
  - exists [strip is_space e]. split_and!; [done|done| |].
    + intros E%list_elem_of_singleton. apply Hany. left. unfold normal_name. by rewrite <- E, lower_any.
    + intros x. rewrite list_elem_of_singleton. unfold entry_reaches. rewrite Et. split; [intros ->; by left|]. by intros [[_ ->]|(?&<-&?&_)].
  - set (t' := c :: t) in *. assert (cites groups index g t') as Hc by (exists e; by split_and!).
    destruct (Ht t' Hc) as [Hs [[Ha _]|(Hn&Hne&Hnd&Hx)]]; [exfalso; apply Hany; right; by exists t'|].
    replace (mem t' stack) with false by (unfold mem; by rewrite bool_decide_eq_false_2).
    assert (ANY ∉ nested t') as HA.
    { intros HA%Hx. by apply Hn, reaches_ANY. }
    rewrite bool_decide_eq_false_2 by (intros E; apply HA; rewrite E; by left). exists (nested t'). split_and!; try done.
    intros x. rewrite Hx. unfold entry_reaches. rewrite Et. split; [intros Hr; right; by exists t'|].
    intros [[E _]|(t2&<-&_&Hr)]; [done|exact Hr].
Qed.

Lemma expand_entries_any l expanded :
  l ⊆ entries g -> Exists any_entry l -> expand_entries nested groups stack l expanded = [ANY].
Proof.
  revert expanded. induction l as [|e l IH]; intros expanded Hl Hex; [by inversion Hex|].
  assert (e ∈ entries g) as He by (apply Hl; by left). assert (l ⊆ entries g) as Hl' by (intros ? ?; apply Hl; by right).
  destruct (decide (normal_name e = ANY)) as [En|En].
  { cbn [expand_entries]. by rewrite bool_decide_eq_true_2. }
  cbn [expand_entries]. rewrite bool_decide_eq_false_2 by done.
  change (_source_group_reference_target (strip is_space e) groups index) with (target groups index (strip is_space e)).
  rewrite target_strip. destruct (target groups index e) as [|c t] eqn:Et.
  - apply IH; [done|]. inversion Hex as [??[?|(t&Ht'&Hne&_)]|]; [done| |done]. congruence.
  - set (t' := c :: t) in *. assert (cites groups index g t') as Hc by (exists e; by split_and!).
    destruct (Ht t' Hc) as [Hs [[Ha ->]|(Hn&_)]].
    all: replace (mem t' stack) with false by (unfold mem; by rewrite bool_decide_eq_false_2).
    { by rewrite bool_decide_eq_true_2. }
    case_bool_decide; [done|]. apply IH; [done|]. inversion Hex as [??[?|(t2&Ht'&Hne&Ha)]|]; [done| |done]. congruence.
Qed.

Lemma expand_entries_none l expanded :
  l ⊆ entries g -> Forall (fun e => ~ any_entry e) l -> NoDup expanded -> (expanded = [] -> l <> []) ->
  let r := expand_entries nested groups stack l expanded in
  r <> [] /\ NoDup r /\ forall x, x ∈ r <-> x ∈ expanded \/ Exists (fun e => entry_reaches e x) l.
Proof.
  revert expanded. induction l as [|e l IH]; intros expanded Hl Hn Hnd Hne; cbn zeta.
  - cbn. destruct expanded; [by destruct Hne|]. split_and!; [done|done|]. intros x. rewrite Exists_nil. tauto.
  - apply Forall_cons in Hn as [He Hn]. destruct (expand_step e l expanded) as (more&->&Hm&_&Hx); [apply Hl; by left|done|].
    destruct (IH (fold_left append_new more expanded)) as (H1&H2&H3); [intros ? ?; apply Hl; by right|done|by apply append_all_NoDup| |].
    + intros E. destruct more as [|m more]; [done|]. exfalso. apply (not_elem_of_nil m). rewrite <- E, append_all_elem. right. by left.
    + split_and!; [done|done|]. intros x. rewrite H3, append_all_elem, Hx, Exists_cons. tauto.
Qed.

Lemma any_entry_dec l : l ⊆ entries g -> Exists any_entry l \/ Forall (fun e => ~ any_entry e) l.
Proof.
  induction l as [|e l IH]; intros Hl; [by right|]. destruct IH as [Hx|Hn]; [intros ? ?; apply Hl; by right|left; by apply Exists_cons_tl|].
  destruct (decide (normal_name e = ANY)) as [En|En]; [left; by left; left|].
  destruct (decide (target groups index e = [])) as [Et|Et].
  - right. constructor; [|done]. intros [?|(t&Ht'&Hne&_)]; [done|]. congruence.
  - destruct (Ht (target groups index e)) as [_ [[Ha _]|(Hna&_)]]; [exists e; split; [apply Hl; by left|done]| |].
    + left. left. right. by exists (target groups index e).
    + right. constructor; [|done]. intros [?|(t&<-&_&Ha)]; [done|]. by apply Hna.
Qed.

Lemma reaches_any_entries : reaches_any g <-> Exists any_entry (entries g).
Proof.
  rewrite Exists_exists. split.
  - intros [e He Hn|t (e&He&Het&Hne) Ha]; exists e; (split; [done|]); [by left|right; by exists t].
  - intros (e&He&[Hn|(t&Het&Hne&Ha)]); [by apply (any_here _ e)|]. apply (any_there _ t); [by exists e|done].
Qed.

Lemma reaches_entries x : reaches g x <-> Exists (fun e => entry_reaches e x) (entries g).
Proof.
  rewrite Exists_exists. split.
  - intros [e He Hn ->|t (e&He&Het&Hne) Hr]; exists e; (split; [done|]); [by left|right; by exists t].
  - intros (e&He&[[Hn ->]|(t&Het&Hne&Hr)]); [by apply (here _ _ e)|]. apply (there _ _ t); [by exists e|done].
Qed.

Lemma expand_entries_expands : expands g (expand_entries nested groups stack (entries g) []).
Proof.
  destruct (any_entry_dec (entries g)) as [Hx|Hn]; [done| |].
  - left. split; [by apply reaches_any_entries|]. by apply expand_entries_any.
  - right. destruct (expand_entries_none (entries g) []) as (H1&H2&H3); [done|done|constructor| |].
    { intros _. unfold _source_group_entries. by destruct (entry_values _). }
    split_and!; [|done|done|]; [|intros x; rewrite H3, reaches_entries; set_solver].
    rewrite reaches_any_entries, Exists_exists. intros (e&He&Ha). rewrite Forall_forall in Hn. by apply (Hn e).
Qed.
End Loop.

(** Without cycles every group expands to what it reaches. *)
Lemma expand_expands fuel g stack :
  (forall x, ~ tc (refers groups index) x x) -> (length groups + 1 <= fuel + length stack)%nat ->
  NoDup stack -> stack ⊆ groups.*1 -> (forall s t, s ∈ stack -> cites groups index g t -> tc (refers groups index) s t) ->
  expands g (expand fuel g groups stack).
Proof.
  intros Hac. revert g stack. induction fuel as [|fuel IH]; intros g stack Hf Hnd Hsub Htc.
  { assert (length stack <= length groups)%nat; [|lia].
    rewrite <- (length_fmap fst groups). by apply submseteq_length, NoDup_submseteq. }
  cbn [expand]. apply expand_entries_expands. intros t Hc.
  assert (t ∉ stack) as Hts by (intros Hs; by apply (Hac t), Htc). split; [done|].
  assert (t ∈ groups.*1) as Hkey by (destruct Hc as (e&_&He&Hne); by apply (target_key e)).
  destruct (dict_get t groups) as [g'|] eqn:Eg; [|by apply dict_get_None in Eg].
  change (default [] (Some g')) with g'. apply IH.
  - rewrite length_app. cbn. lia.
  - apply NoDup_app. split_and!; [done|set_solver|apply NoDup_singleton].
  - set_solver.
  - intros s u Hs Hu. assert (refers groups index t u) as Hr by by exists g'. apply elem_of_app in Hs as [Hs|Hs].
    + eapply tc_r; [by apply Htc|done].
    + apply list_elem_of_singleton in Hs as ->. by apply tc_once.
Qed.
End Expansion.

(* ------------------------------------------------------------------ *)
(** ** Validated groups *)

(** A group with an identifier and a name of its own, as the stored state gives it. *)
Definition named (g : Group) : Prop :=
  exists name, dict_get (str "name") g = Some (JStr name) /\ strip is_space name <> [].

Lemma named_field g : named g -> exists name, group_field g "name" = name /\ strip is_space name <> [] /\ group_label g (group_field g "id") = name.
Proof.
  intros (name&Hn&Hs). exists name. unfold group_field, group_label. rewrite Hn. cbn. split_and!; [done|done|].
  assert (name <> []) by (intros ->; by apply Hs). by rewrite bool_decide_eq_false_2.
Qed.

Lemma groups_by_id_NoDup groups :
  NoDup (map (fun g => group_field g "id") groups) -> groups_by_id groups = map (fun g => (group_field g "id", g)) groups.
Proof. intros Hnd. apply dict_of_NoDup. by rewrite <- list_fmap_compose. Qed.

(** The names that the validator collects are the name index of the expansion. *)
Lemma validate_names_fold groups names :
  Forall named groups ->
  (validate_names groups names).2 =
    fold_left (fun d '(k, v) => dict_set k v d) (map (fun g => (normal_name (group_field g "name"), group_field g "id")) groups) names.
Proof.
  intros Hn. revert names. induction Hn as [|g groups Hg Hn IH]; intros names; cbn; [done|].
  destruct (named_field g Hg) as (name&Hf&_&Hl). rewrite Hl, Hf. rewrite <- IH.
  by destruct (validate_names groups _).
Qed.

Lemma validate_names_index groups :
  Forall named groups -> NoDup (map (fun g => group_field g "id") groups) ->
  (validate_names groups []).2 = _source_group_name_index (groups_by_id groups).
Proof.
  intros Hn Hnd. rewrite groups_by_id_NoDup, validate_names_fold by done. unfold _source_group_name_index, dict_of. f_equal.
  clear Hnd. induction Hn as [|g groups Hg Hn IH]; cbn; [done|].
  destruct (named_field g Hg) as (name&Hf&Hs&_). rewrite decide_True by (cbn; by rewrite Hf). cbn. by rewrite IH.
Qed.

(** Addresses in a text. *)
Definition addresses (x : pystr) : Prop := Forall (fun item => is_Some (ip_network item)) (_split_address_values x).

Lemma split_where_nonempty p s : split_where p s <> [].
Proof. destruct s as [|c s]; cbn; [done|]. destruct (p c); [done|]. by destruct (split_where p s). Qed.

Lemma split_where_join p sep l :
  (forall c, sep = [c] -> p c = true) -> length sep = 1%nat -> l <> [] ->
  split_where p (join_with sep l) = concat (map (split_where p) l).
Proof.
  intros Hsep Hlen. destruct sep as [|c [|]]; try done. specialize (Hsep c eq_refl).
  assert (forall x y, split_where p (x ++ c :: y) = split_where p x ++ split_where p y) as Happ.
  { induction x as [|d x IH]; intros y; cbn; [by rewrite Hsep|]. rewrite IH. destruct (p d); [done|].
    pose proof (split_where_nonempty p x). by destruct (split_where p x). }
  induction l as [|x [|y l] IH]; intros Hne; [done|cbn; by rewrite app_nil_r|].
  change (join_with [c] (x :: y :: l)) with (x ++ c :: join_with [c] (y :: l)). rewrite Happ, IH by done. done.
Qed.

Lemma split_address_values_join l :
  _split_address_values (join_with [10] l) = concat (map _split_address_values l).
Proof.
  unfold _split_address_values, _split_source_group_entry_values, stripped_parts. destruct l as [|x l]; [done|].
  rewrite split_where_join by (done || by intros ? [= <-]).
  induction (x :: l) as [|y k IH]; cbn; [done|]. by rewrite map_app, filter_app, map_app, IH.
Qed.

(** A value without errors is "any", or a list of addresses. *)
Lemma validate_address_value_nil label value :
  _validate_address_value label value = [] ->
  _split_address_values value = [ANY] \/ (ANY ∉ _split_address_values value) /\ addresses value.
Proof.
  unfold _validate_address_value, addresses. destruct (_split_address_values value) as [|v l] eqn:E.
  { intros _. right. split; [by apply not_elem_of_nil|constructor]. }
  unfold mem. case_bool_decide as Hm.
  - case_bool_decide; [|done]. by left.
  - rewrite concat_map_nil. intros Hall. right. split; [done|]. apply Forall_forall. intros x Hx.
    specialize (Hall x Hx). by destruct (ip_network x).
Qed.

(** Entries are stripped. *)
Lemma strip_entry g e : e ∈ _source_group_entries g [ANY] -> strip is_space e = e.
Proof.
  unfold _source_group_entries. intros He. apply list_elem_of_fmap in He as (v&->&_). unfold normalize_entry.
  case_bool_decide; [done|]. destruct (has_prefix _ _); [|apply strip_strip].
  set (i := strip is_space v). set (n := length FIREWALL_SOURCE_GROUP_REFERENCE_PREFIX).
  apply strip_ends; [done|]. rewrite rev_app_distr. pose proof (strip_last is_space v) as Hl. fold i in Hl.
  rewrite <- (take_drop n i), rev_app_distr in Hl. by destruct (rev (drop n i)).
Qed.

(** The values of an entry: addresses, or "any". *)
Definition valid_values (x : pystr) : Prop :=
  Forall (fun item => item = ANY \/ is_Some (ip_network item)) (_split_address_values x).

Section Validated.
Context (groups : list Group).
Context (Hvalid : validate_firewall_source_groups groups = []) (Hnamed : Forall named groups).
Context (Hids : NoDup (map (fun g => group_field g "id") groups)).

Abbreviation by_id := (groups_by_id groups).

Lemma validated_parts :
  (forall x, ~ tc (refers by_id (_source_group_name_index by_id)) x x) /\
  forall g, g ∈ groups -> validate_group by_id (_source_group_name_index by_id) g = [].
Proof.
  unfold validate_firewall_source_groups in Hvalid. rewrite <- validate_names_index by done.
  destruct (validate_names groups []) as [errors names]. cbn [snd].
  apply app_nil in Hvalid as [_ Hv]. apply app_nil in Hv as [Hg Hc]. split; [by apply cycles_iff|by apply concat_map_nil].
Qed.

Lemma stored_group id g : dict_get id by_id = Some g -> g ∈ groups.
Proof.
  intros Hg%dict_get_In. rewrite groups_by_id_NoDup in Hg by done. apply list_elem_of_fmap in Hg as (g'&[= _ ->]&Hg). done.
Qed.

Lemma validate_group_entry g e :
  g ∈ groups -> e ∈ _source_group_entries g [ANY] -> target by_id (_source_group_name_index by_id) e = [] -> valid_values e.
Proof.
  intros Hg He Ht. pose proof (proj2 validated_parts g Hg) as Hv. unfold validate_group in Hv.
  destruct (bool_decide (group_field g "id" = FIREWALL_ANY_SOURCE_GROUP_ID) && _); [done|].
  apply app_nil in Hv as [_ Hv]. apply app_nil in Hv as [Hv _]. apply validate_address_value_nil in Hv.
  unfold valid_values, addresses in *. rewrite split_address_values_join in Hv. apply Forall_forall. intros item Hitem.
  assert (item ∈ concat (map _split_address_values (filter (fun entry => _source_group_reference_target entry by_id (_source_group_name_index by_id) = [])
    (_source_group_entries g [ANY])))) as Hin.
  { apply concat_map_elem. exists e. split; [|done]. by apply list_elem_of_filter. }
  destruct Hv as [Hv|[_ Hv]]; [left; rewrite Hv in Hin; by apply list_elem_of_singleton in Hin|].
  right. rewrite Forall_forall in Hv. by apply Hv.
Qed.

Lemma reaches_valid g x : g ∈ groups -> reaches by_id g x -> valid_values x.
Proof.
  intros Hg Hr. induction Hr as [g x e He Ht ->|g x t (e&He&Ht&Hne) _ IH].
  - rewrite (strip_entry g) by done. by apply (validate_group_entry g).
  - apply IH. assert (t ∈ by_id.*1) as Hkey by by apply (target_key by_id e).
    destruct (dict_get t by_id) as [g'|] eqn:Eg; [by apply (stored_group t)|by apply dict_get_None in Eg].
Qed.

Lemma validated_expands id g :
  dict_get id by_id = Some g -> expands by_id g (_expand_source_group_entries g by_id).
Proof.
  intros Hg. apply expand_expands; [apply validated_parts|cbn; lia|constructor|set_solver|].
  intros s t Hs. by apply not_elem_of_nil in Hs.
Qed.
End Validated.

(** C26.  The validator of Source Groups reports a cycle exactly when a group reaches itself
    along references, by identifier or by name, through any number of groups. *)
Theorem source_group_cycles_reported groups names :
  _validate_source_group_cycles groups (groups_by_id groups) names = [] <->
  forall x, ~ tc (refers (groups_by_id groups) names) x x.
Proof. apply cycles_iff. Qed.

(** C25.  A Source Group of a valid state expands to exactly what it reaches along
    references: to "any" when it reaches "any", and otherwise to the distinct entries of the
    groups it reaches, at least one, all of them addresses; the recursion never runs out of
    its bound. *)
Theorem source_groups_expand groups id g :
  validate_firewall_source_groups groups = [] -> Forall named groups -> NoDup (map (fun g => group_field g "id") groups) ->
  dict_get id (groups_by_id groups) = Some g ->
  let r := _expand_source_group_entries g (groups_by_id groups) in
  (reaches_any (groups_by_id groups) g /\ r = [ANY]) \/
  (~ reaches_any (groups_by_id groups) g /\ r <> [] /\ NoDup r /\ (forall x, x ∈ r <-> reaches (groups_by_id groups) g x) /\
   Forall valid_values r).
Proof.
  intros Hv Hn Hids Hg r. destruct (validated_expands groups Hv Hn Hids id g Hg) as [Ha|(Hna&Hne&Hnd&Hx)]; [by left|].
  right. split_and!; try done. apply Forall_forall. intros x Hr%Hx.
  apply (reaches_valid groups Hv Hn Hids g); [by apply (stored_group groups Hids id)|done].
Qed.
End Props.

(* ------------------------------------------------------------------ *)
(** ** Instances *)

(** An interpreter with the ASCII case table. *)
Definition ascii_case : PyCase := {| py_lower := map ascii_lower |}.
Lemma ascii_case_laws : @PyCaseLaws ascii_case.
Proof. by constructor. Qed.

Definition plain_runtime : PyRuntime :=
  {| unicode_casefold c := [c]; unicode_isalnum _ := false; float_eq _ _ := false; str_other _ := [] |}.

Definition sample_group (id : string) (entries : list string) : Group :=
  [(str "id", JStr (str id)); (str "name", JStr (str id)); (str "entries", JList (map (fun e => JStr (str e)) entries))].

(** A group that refers to another by identifier and by name. *)
Definition lab_group : Group := sample_group "lab" ["group:dc"; "@DC"; "192.0.2.0/24"]%string.
Definition sample_groups : list Group :=
  [lab_group; sample_group "dc" ["10.0.0.0/8"; "2001:db8::/32"]%string].

(** [source_groups_expand] at a group that refers to another one. *)
Lemma source_groups_expand_witness :
  let by_id := @groups_by_id plain_runtime sample_groups in
  @_expand_source_group_entries plain_runtime ascii_case lab_group by_id
    = map str ["10.0.0.0/8"; "2001:db8::/32"; "192.0.2.0/24"]%string /\
  @reaches plain_runtime ascii_case by_id lab_group (str "10.0.0.0/8").
Proof.
  cbn zeta. set (r := map str _).
  assert (@_expand_source_group_entries plain_runtime ascii_case lab_group
    (@groups_by_id plain_runtime sample_groups) = r) as E by (vm_compute; reflexivity).
  destruct (@source_groups_expand plain_runtime ascii_case ascii_case_laws sample_groups (str "lab")
    lab_group) as [[_ Hr]|(_&_&_&Hx&_)].
  - vm_compute. reflexivity.
  - repeat constructor; eexists; (split; [vm_compute; reflexivity|vm_compute; discriminate]).
  - apply (bool_decide_unpack _). vm_compute. exact I.
  - vm_compute. reflexivity.
  - rewrite E in Hr. discriminate Hr.
  - split; [exact E|]. apply Hx. rewrite E. left.
Defined.

(** [source_group_cycles_reported] at groups without a cycle. *)
Lemma source_group_cycles_reported_witness :
  let by_id := @groups_by_id plain_runtime sample_groups in
  @_validate_source_group_cycles plain_runtime ascii_case sample_groups by_id [] = [] /\
  ~ tc (@refers plain_runtime ascii_case by_id []) (str "lab") (str "lab").
Proof.
  cbn zeta. split; [vm_compute; reflexivity|].
  apply (@source_group_cycles_reported plain_runtime ascii_case ascii_case_laws sample_groups []). vm_compute. reflexivity.
Defined.

Example cycle_found :
  @_validate_source_group_cycles plain_runtime ascii_case [sample_group "a" ["group:b"]; sample_group "b" ["group:a"]]%string
    (@groups_by_id plain_runtime [sample_group "a" ["group:b"]; sample_group "b" ["group:a"]]%string) []
  = [str "Source Groups cannot reference each other in a cycle: a -> b -> a.";
     str "Source Groups cannot reference each other in a cycle: b -> a -> b."].
Proof. vm_compute. reflexivity. Qed.
