(* ===== verification/Firewall.v ===== *)
(** The appliance firewall ([src/atlaso/app/services/firewall.py]): its rules, their
    validation, and the nftables configuration they are rendered to.

    - A rule is the record of its columns and of the two transient fields of routing.
    - Groups are those of [SourceGroups]; the management network of the process settings is
      an argument. *)

From S2P Require Import Prelude PyText Json IpAddress Networks Trace SourceGroups.
Open Scope Z_scope.

(** [class FirewallSettings]. *)
Record FirewallSettings : Type := mkFirewallSettings {
  fs_enabled : bool;
  default_input_policy : pystr;
  default_forward_policy : pystr;
  default_output_policy : pystr;
  allow_established : bool;
  allow_loopback : bool;
  allow_icmp : bool;
  log_dropped : bool
}.

(** [class FirewallRule]. *)
Record FirewallRule : Type := mkFirewallRule {
  routing_destination_interface : pystr;
  routing_policy_phase : pystr;
  fr_name : pystr;
  direction : pystr;
  action : pystr;
  protocol : pystr;
  fr_source : pystr;
  destination : pystr;
  destination_port : pystr;
  interface_name : pystr;
  priority : Z;
  fr_enabled : bool;
  fr_description : option pystr
}.

Definition FIREWALL_DIRECTIONS : list pystr := map str ["input"; "forward"; "output"]%string.
Definition FIREWALL_ACTIONS : list pystr := map str ["accept"; "drop"; "reject"]%string.
Definition FIREWALL_PROTOCOLS : list pystr := map str ["any"; "tcp"; "udp"; "icmp"]%string.
Definition FIREWALL_POLICIES : list pystr := map str ["accept"; "drop"]%string.
Definition ATLASO_DHCP_FIREWALL_RULE_MARKER : pystr := str "Atlaso-managed DNS/DHCP access".
Definition ATLASO_DNS_FIREWALL_RULE_MARKER : pystr := str "Atlaso-managed DNS access".
Definition ATLASO_SERVICE_FIREWALL_RULE_MARKER : pystr := str "Atlaso-managed service access".
Definition ATLASO_ROUTING_FIREWALL_RULE_MARKER : pystr := str "Atlaso-managed lab routing".
Definition ATLASO_MANAGEMENT_ISOLATION_RULE_MARKER : pystr := str "Atlaso-managed management routing isolation".

(* ------------------------------------------------------------------ *)
(** ** Ports *)

(** [c.isdigit()] for characters that are no decimal digits. *)
Definition is_other_digit (c : Z) : bool :=
  existsb (fun r => (r.1 <=? c) && (c <=? r.2))
    [(0xb2, 0xb3); (0xb9, 0xb9); (0x1369, 0x1371); (0x19da, 0x19da); (0x2070, 0x2070); (0x2074, 0x2079); (0x2080, 0x2089);
     (0x2460, 0x2468); (0x2474, 0x247c); (0x2488, 0x2490); (0x24ea, 0x24ea); (0x24f5, 0x24fd); (0x24ff, 0x24ff);
     (0x2776, 0x277e); (0x2780, 0x2788); (0x278a, 0x2792); (0x10a40, 0x10a43); (0x10e60, 0x10e68); (0x11052, 0x1105a);
     (0x1f100, 0x1f10a)].

(** The value of a decimal digit. *)
Definition digit_value (c : Z) : option Z := if is_digit c then Some (c - 48) else decimal_value c.

(** [s.isdigit()]. *)
Definition isdigit (s : pystr) : bool :=
  negb (bool_decide (s = [])) && forallb (fun c => bool_decide (is_Some (digit_value c)) || is_other_digit c) s.

(** [int(s)] of a text of digits: at most 4300 decimal ones. *)
Definition int_of_digits (s : pystr) : res Z :=
  match mapM digit_value s with
  | Some l => if 4300 <? zlen s then Raise (ValueError "") else Ok (of_digits 10 l)
  | None => Raise (ValueError "")
  end.

(** [_valid_port]. *)
Definition _valid_port (value : pystr) : res bool :=
  if isdigit value then n ← int_of_digits value; Ok ((1 <=? n) && (n <=? 65535)) else Ok false.

(** [value.split("-", 1)] of a text with a dash. *)
Fixpoint split_dash (s : pystr) : pystr * pystr :=
  match s with
  | [] => ([], [])
  | c :: s => if c =? 45 then ([], s) else let '(a, b) := split_dash s in (c :: a, b)
  end.

(** The body of the loop of [_validate_ports]. *)
Definition validate_port (value : pystr) : res (list pystr) :=
  if mem 45 value then
    let '(start, stop) := split_dash value in
    let invalid := [str "Port range " ++ value ++ str " is invalid."] in
    first ← _valid_port start;
    if negb first then Ok invalid else
    last ← _valid_port stop;
    if negb last then Ok invalid else
    a ← int_of_digits start;
    b ← int_of_digits stop;
    Ok (if b <? a then invalid else [])
  else
    valid ← _valid_port value;
    Ok (if negb valid then [str "Port " ++ value ++ str " is invalid."] else []).

(** [_validate_ports]. *)
Definition _validate_ports (raw_ports : pystr) : res (list pystr) :=
  errors ← mapM validate_port (stripped_parts is_separator raw_ports);
  Ok (concat errors).

(** [_render_ports]; [replace("-", "-")] changes nothing. *)
Definition _render_ports (raw_ports : pystr) : pystr :=
  match stripped_parts is_separator raw_ports with
  | [] => []
  | [port] => port
  | ports => str "{ " ++ join_with (str ", ") ports ++ str " }"
  end.

(** [_safe_comment]. *)
Definition _safe_comment (value : pystr) : pystr := strip is_space (map (fun c => if c =? 34 then 39 else c) value).

Section Rules.
Context `{PyRuntime} `{PyCase}.

(* ------------------------------------------------------------------ *)
(** ** Addresses of rules *)

(** [_rule_address_value]. *)
Definition _rule_address_value (value : pystr) (groups : GroupsById) : pystr :=
  match strip is_space value with
  | [] => ANY
  | raw_value =>
    match _source_group_reference_target raw_value groups [] with
    | [] => py_lower raw_value
    | target_id => join_with [10] (_expand_source_group_entries (default [] (dict_get target_id groups)) groups)
    end
  end.

(** [_validate_rule_address_value]. *)
Definition _validate_rule_address_value (label value : pystr) (groups : GroupsById) (names : list (pystr * pystr)) : list pystr :=
  match strip is_space value with
  | [] => []
  | raw_value =>
    match _source_group_reference_target raw_value groups names with
    | [] => if _looks_like_source_group_reference raw_value
            then [label ++ str " references a Source Group that does not exist: " ++ raw_value ++ str "."]
            else _validate_address_value label raw_value
    | target_id =>
      _validate_address_value label (join_with [10] (_expand_source_group_entries (default [] (dict_get target_id groups)) groups))
    end
  end.

(** [_validate_rule_group_reference]. *)
Definition _validate_rule_group_reference (label value : pystr) (groups : GroupsById) : pystr :=
  let raw_value := strip is_space value in
  if bool_decide (py_lower raw_value = ANY) then []
  else if has_prefix FIREWALL_SOURCE_GROUP_REFERENCE_PREFIX (py_lower raw_value) then
    match _source_group_reference_target raw_value groups [] with
    | [] => label ++ str " references a Source Group that does not exist: " ++ raw_value ++ str "."
    | _ => []
    end
  else label ++ str " must use Any or a Source Group.".

(** The loop of [_address_values_by_family]: it ends at "any", and what was found stays. *)
Fixpoint family_values (items : list pystr) (v4 v6 : list pystr) : list pystr * list pystr :=
  match items with
  | [] => (v4, v6)
  | item :: items =>
    if bool_decide (item = ANY) then (v4, v6)
    else match version <$> ip_network item with
         | None => family_values items v4 v6
         | Some V4 => family_values items (append_new v4 item) v6
         | Some V6 => family_values items v4 (append_new v6 item)
         end
  end.

(** [_address_values_by_family]: the values of IPv4 and of IPv6. *)
Definition _address_values_by_family (value : pystr) : list pystr * list pystr :=
  family_values (_split_address_values value) [] [].

(* ------------------------------------------------------------------ *)
(** ** Validation *)

(** [validate_firewall_settings]. *)
Definition validate_firewall_settings (settings : FirewallSettings) : list pystr :=
  concat (map (fun fv => if mem fv.2 FIREWALL_POLICIES then [] else [fv.1 ++ str " must be accept or drop."])
    [(str "Default input policy", default_input_policy settings);
     (str "Default forward policy", default_forward_policy settings);
     (str "Default output policy", default_output_policy settings)]).

(** One address of [validate_firewall_rule]. *)
Definition validate_rule_address (require_group_addresses : bool) (by_id : GroupsById) (label value : pystr) : list pystr :=
  match (if require_group_addresses then _validate_rule_group_reference label value by_id else []) with
  | [] => _validate_rule_address_value label value by_id (_source_group_name_index by_id)
  | group_error => [group_error]
  end.

(** [validate_firewall_rule]. *)
Definition validate_firewall_rule (rule : FirewallRule) (source_groups : list Group) (require_group_addresses : bool)
    : res (list pystr) :=
  let has_port := negb (bool_decide (strip is_space (destination_port rule) = [])) in
  let by_id := groups_by_id source_groups in
  ports ← (if has_port then _validate_ports (destination_port rule) else Ok []);
  Ok ((if bool_decide (strip is_space (fr_name rule) = []) then [str "Rule name is required."] else []) ++
      (if mem (direction rule) FIREWALL_DIRECTIONS then [] else [str "Direction must be input, forward, or output."]) ++
      (if mem (action rule) FIREWALL_ACTIONS then [] else [str "Action must be accept, drop, or reject."]) ++
      (if mem (protocol rule) FIREWALL_PROTOCOLS then [] else [str "Protocol must be any, tcp, udp, or icmp."]) ++
      (if mem (protocol rule) (map str ["any"; "icmp"]%string) && has_port
       then [str "Destination port is only valid for TCP or UDP rules."] else []) ++
      validate_rule_address require_group_addresses by_id (str "Source") (fr_source rule) ++
      validate_rule_address require_group_addresses by_id (str "Destination") (destination rule) ++
      ports).

(** [is_atlaso_dhcp_firewall_rule], [is_atlaso_dns_firewall_rule],
    [is_atlaso_managed_firewall_rule]. *)
Definition description_text (rule : FirewallRule) : pystr := strip is_space (default [] (fr_description rule)).

Definition is_atlaso_dhcp_firewall_rule (rule : FirewallRule) : bool :=
  mem (normal_name (fr_name rule)) [str "sitea-dns-dhcp"] || contains ATLASO_DHCP_FIREWALL_RULE_MARKER (description_text rule).

Definition is_atlaso_dns_firewall_rule (rule : FirewallRule) : bool :=
  contains ATLASO_DNS_FIREWALL_RULE_MARKER (description_text rule) ||
  (has_prefix (str "allow-") (normal_name (fr_name rule)) && contains (str "-dns-") (normal_name (fr_name rule)) &&
   mem (normal_name (protocol rule)) (map str ["tcp"; "udp"]%string) &&
   bool_decide (strip is_space (destination_port rule) = str "53") &&
   has_prefix (str "Allow DNS from ") (description_text rule)).

Definition is_atlaso_managed_firewall_rule (rule : FirewallRule) : bool :=
  mem (normal_name (fr_name rule)) [str "mgmt-console"] ||
  contains ATLASO_SERVICE_FIREWALL_RULE_MARKER (description_text rule) ||
  contains ATLASO_ROUTING_FIREWALL_RULE_MARKER (description_text rule) ||
  contains ATLASO_MANAGEMENT_ISOLATION_RULE_MARKER (description_text rule) ||
  is_atlaso_dns_firewall_rule rule || is_atlaso_dhcp_firewall_rule rule.

(** Which generated rules replace stored ones. *)
Record Replace : Type := mkReplace { replace_dhcp : bool; replace_dns : bool; replace_service : bool }.

(** [effective_firewall_rules]. *)
Definition effective_firewall_rules (rules generated_rules : list FirewallRule) (replace : Replace) : list FirewallRule :=
  if bool_decide (length generated_rules = O) && negb (replace_dhcp replace) && negb (replace_dns replace) && negb (replace_service replace)
  then rules
  else List.filter (fun rule => negb ((replace_dhcp replace && is_atlaso_dhcp_firewall_rule rule) ||
                                      (replace_dns replace && is_atlaso_dns_firewall_rule rule) ||
                                      (replace_service replace && is_atlaso_managed_firewall_rule rule))) rules ++ generated_rules.

(** The loop of [validate_firewall_state]. *)
Fixpoint validate_rules (rules : list FirewallRule) (source_groups : list Group) (seen_names : list pystr) : res (list pystr) :=
  match rules with
  | [] => Ok []
  | rule :: rules =>
    let name := normal_name (fr_name rule) in
    errors ← validate_firewall_rule rule source_groups false;
    rest ← validate_rules rules source_groups (name :: seen_names);
    Ok ((if mem name seen_names then [str "Firewall rule " ++ fr_name rule ++ str " is duplicated."] else []) ++ errors ++ rest)
  end.

(** [validate_firewall_state]. *)
Definition validate_firewall_state (settings : FirewallSettings) (rules generated_rules : list FirewallRule)
    (source_groups : list Group) (replace : Replace) : res (list pystr) :=
  errors ← validate_rules (effective_firewall_rules rules generated_rules replace) source_groups [];
  Ok (validate_firewall_settings settings ++
      (if negb (fs_enabled settings) &&
          existsb (fun rule => fr_enabled rule && bool_decide (routing_policy_phase rule = str "deny")) generated_rules
       then [str "Enable Firewall before applying a routing deny (explicit or automatic); forwarding cannot be denied while Firewall is disabled."]
       else []) ++ errors).

(* ------------------------------------------------------------------ *)
(** ** Rendering *)

(** [_address_expr]. *)
Definition _address_expr (direction value : pystr) : res pystr :=
  match _split_address_values value with
  | [] => Raise IndexError
  | (first :: rest) as values =>
    match ip_network first with
    | None => Raise (ValueError "does not appear to be an IPv4 or IPv6 network")
    | Some n =>
      let family := match version n with V6 => str "ip6" | V4 => str "ip" end in
      Ok (family ++ str " " ++ direction ++ str " " ++
          match rest with [] => first | _ => str "{ " ++ join_with (str ", ") values ++ str " }" end)
    end
  end.

(** The part of an address, unless it is any. *)
Definition address_part (direction value : pystr) : res (list pystr) :=
  if bool_decide (value = []) || bool_decide (value = ANY) then Ok []
  else part ← _address_expr direction value; Ok [part].

(** [f'"{s}"']. *)
Definition quoted (s : pystr) : pystr := [34] ++ s ++ [34].

(** [_render_rule]. *)
Definition _render_rule (rule : FirewallRule) (groups : GroupsById) : res pystr :=
  let protocol := normal_name (protocol rule) in
  let interface := strip is_space (interface_name rule) in
  source ← address_part (str "saddr") (_rule_address_value (fr_source rule) groups);
  destination ← address_part (str "daddr") (_rule_address_value (destination rule) groups);
  Ok (join_with (str " ")
        ((match routing_destination_interface rule with [] => [] | name => [str "oifname " ++ quoted name] end) ++
         (match interface with
          | [] => []
          | _ => [(if bool_decide (direction rule = str "output") then str "oifname" else str "iifname") ++ str " " ++ quoted interface]
          end) ++
         (if bool_decide (protocol = str "icmp") then [str "meta l4proto icmp"] else []) ++
         source ++ destination ++
         (if mem protocol (map str ["tcp"; "udp"]%string) then
            match strip is_space (destination_port rule) with
            | [] => [str "meta l4proto " ++ protocol]
            | _ => [protocol ++ str " dport " ++ _render_ports (destination_port rule)]
            end
          else []) ++
         [action rule; str "comment " ++ quoted (_safe_comment (fr_name rule))])).

Definition with_addresses (rule : FirewallRule) (source destination : pystr) : FirewallRule :=
  mkFirewallRule (routing_destination_interface rule) (routing_policy_phase rule) (fr_name rule) (direction rule) (action rule)
    (protocol rule) source destination (destination_port rule) (interface_name rule) (priority rule) (fr_enabled rule)
    (fr_description rule).

(** ["\n".join(values or ["any"])]. *)
Definition joined_or_any (values : list pystr) : pystr := match values with [] => ANY | _ => join_with [10] values end.

(** [_rule_family_variants]. *)
Definition _rule_family_variants (rule : FirewallRule) (groups : GroupsById) : list FirewallRule :=
  let '(source4, source6) := _address_values_by_family (_rule_address_value (fr_source rule) groups) in
  let '(destination4, destination6) := _address_values_by_family (_rule_address_value (destination rule) groups) in
  let is_empty (l : list pystr) := bool_decide (length l = O) in
  let no_source := is_empty source4 && is_empty source6 in
  let no_destination := is_empty destination4 && is_empty destination6 in
  let variant (source destination : list pystr) :=
    if (is_empty source && is_empty destination) || (negb no_source && is_empty source) || (negb no_destination && is_empty destination)
    then [] else [with_addresses rule (joined_or_any source) (joined_or_any destination)] in
  if no_source && no_destination then [rule] else variant source4 destination4 ++ variant source6 destination6.

(** [sorted(rules, key=lambda item: item.priority)], which is stable. *)
Fixpoint insert_by_priority (rule : FirewallRule) (l : list FirewallRule) : list FirewallRule :=
  match l with
  | [] => [rule]
  | other :: l => if priority rule <=? priority other then rule :: other :: l else other :: insert_by_priority rule l
  end.
Definition sort_by_priority (l : list FirewallRule) : list FirewallRule := foldr insert_by_priority [] l.

Definition in_prelude (rule : FirewallRule) : bool := mem (routing_policy_phase rule) (map str ["deny"; "isolation"]%string).

(** The lines of a rule of the prelude: an automatic denial of an interface to itself leaves
    managed translations to their own rules. *)
Definition prelude_lines (groups : GroupsById) (rule : FirewallRule) : res (list pystr) :=
  lines ← mapM (fun variant =>
    rendered ← _render_rule variant groups;
    Ok (if bool_decide (routing_policy_phase rule = str "deny") &&
           bool_decide (interface_name rule = routing_destination_interface rule) &&
           has_prefix (str "routing-default-deny-ipv") (fr_name rule)
        then [str "    ct status & dnat == 0 " ++ rendered; str "    ct mark & 0xff000000 != 0xa7000000 " ++ rendered]
        else [str "    " ++ rendered])) (_rule_family_variants rule groups);
  Ok (concat lines).

Definition rule_lines (groups : GroupsById) (rule : FirewallRule) : res (list pystr) :=
  mapM (fun variant => rendered ← _render_rule variant groups; Ok (str "    " ++ rendered)) (_rule_family_variants rule groups).

(** The lines of a chain. *)
Definition chain_lines (settings : FirewallSettings) (effective : list FirewallRule) (groups : GroupsById)
    (replace_atlaso_service_rules : bool) (management_source_cidr chain_name policy : pystr) : res (list pystr) :=
  let is_input := bool_decide (chain_name = str "input") in
  let chain_rules := List.filter (fun item => fr_enabled item && bool_decide (direction item = chain_name)) effective in
  prelude ← mapM (prelude_lines groups) (sort_by_priority (List.filter in_prelude chain_rules));
  rest ← mapM (rule_lines groups) (sort_by_priority (List.filter (fun item => negb (in_prelude item)) chain_rules));
  Ok ([str "  chain " ++ chain_name ++ str " {";
       str "    type filter hook " ++ chain_name ++ str " priority filter; policy " ++ policy ++ str ";"] ++
      (if is_input && allow_loopback settings
       then [str "    iifname " ++ quoted (str "lo") ++ str " accept comment " ++ quoted (str "Atlaso loopback")] else []) ++
      concat prelude ++
      (if allow_established settings
       then [str "    ct state established,related accept comment " ++ quoted (str "Atlaso established traffic")] else []) ++
      (if is_input && negb replace_atlaso_service_rules
       then [str "    ip saddr " ++ management_source_cidr ++ str " tcp dport { 22, 80, 443 } accept comment " ++
             quoted (str "Atlaso management access")] else []) ++
      (if allow_icmp settings
       then [str "    meta l4proto icmp accept comment " ++ quoted (str "Atlaso ICMP diagnostics");
             str "    meta l4proto 58 accept comment " ++ quoted (str "Atlaso IPv6 ICMP diagnostics")] else []) ++
      concat rest ++
      (if log_dropped settings && bool_decide (policy = str "drop")
       then [str "    log prefix " ++ quoted (str "atlaso " ++ chain_name ++ str " drop: ") ++ str " flags all counter"] else []) ++
      [str "  }"]).

(** [render_nftables_config]. *)
Definition render_nftables_config (settings : FirewallSettings) (rules generated_rules : list FirewallRule)
    (source_groups : list Group) (replace : Replace) (management_source_cidr settings_source_cidr : pystr) : res pystr :=
  let head := [str "# Managed by Atlaso. Local changes may be overwritten.";
               str "# nftables firewall state for Photon OS appliance images.";
               str "flush ruleset"] in
  if negb (fs_enabled settings) then
    Ok (join_with [10] (head ++ [str "# Atlaso firewall desired state is disabled.";
                                 str "# Applying this state clears Atlaso-managed nftables rules."]) ++ [10])
  else
    let cidr := match management_source_cidr with [] => settings_source_cidr | _ => management_source_cidr end in
    _ ← raise_if (negb (replace_service replace) && negb (bool_decide (is_Some (ip_network cidr))))
        (ValueError "does not appear to be an IPv4 or IPv6 network");
    let groups := groups_by_id source_groups in
    let effective := effective_firewall_rules rules generated_rules replace in
    let chain := chain_lines settings effective groups (replace_service replace) cidr in
    input ← chain (str "input") (default_input_policy settings);
    forward ← chain (str "forward") (default_forward_policy settings);
    output ← chain (str "output") (default_output_policy settings);
    Ok (join_with [10] (head ++ [str "table inet atlaso {"] ++ input ++ forward ++ output ++ [str "}"]) ++ [10]).
End Rules.
