(* ===== verification/FirewallRouting.v ===== *)
(** [services/firewall.py]: the forwarding rules that the appliance generates from its
    interfaces and VLANs and from the routing permissions of the operator.  Management
    networks are isolated from the lab, route-role networks reach each other, explicit
    permissions allow or deny one direction of a pair, and access-role networks are denied
    what no permission allows.  The families of a set of networks are a list; an address
    text that is no network raises [ValueError]. *)

From S2P Require Import Prelude Utf8 PyText Json Sha256 IpAddress Networks Trace SourceGroups Firewall.
Open Scope Z_scope.

(* ------------------------------------------------------------------ *)
(** ** Data *)

(** The columns of [class PhysicalInterface] that the rules depend on. *)
Record PhysicalInterface : Type := mkPhysicalInterface {
  pi_name : pystr;
  pi_oper_state : pystr;
  pi_mode : pystr;
  pi_role : pystr;
  pi_ip_cidr : option pystr;
  pi_ipv6_cidr : option pystr
}.

(** Those of [class VlanInterface]. *)
Record VlanInterface : Type := mkVlanInterface {
  vi_name : pystr;
  vi_enabled : bool;
  vi_role : pystr;
  vi_ip_cidr : option pystr;
  vi_ipv6_cidr : option pystr
}.

(** [class RoutingRule]; a rule that was not saved has no identifier. *)
Record RoutingRule : Type := mkRoutingRule {
  rr_id : option Z;
  rr_name : pystr;
  rr_enabled : bool;
  rr_source_interface : pystr;
  rr_destination_interface : pystr;
  rr_policy : option pystr;
  rr_ip_family : option Z;
  rr_priority : Z;
  rr_description : option pystr
}.

(** The dictionaries of [routing_firewall_targets]. *)
Record Target : Type := mkTarget {
  t_name : pystr;
  t_role : pystr;
  networks : list pystr
}.

Section Routing.
Context `{PyRuntime} `{PyCase}.

(* ------------------------------------------------------------------ *)
(** ** Roles and modes *)

(** [(value or "unused").strip().lower()]. *)
Definition normal_or_unused (value : pystr) : pystr := normal_name (match value with [] => str "unused" | _ => value end).

(** [normalize_interface_mode]. *)
Definition INTERFACE_MODES : list pystr := map str ["access"; "trunk"; "unused"]%string.
Definition normalize_interface_mode (mode : pystr) : pystr :=
  let value := normal_or_unused mode in
  if bool_decide (value = str "routed") then str "access"
  else if mem value INTERFACE_MODES then value else str "unused".

(** [normalize_interface_role]. *)
Definition NETWORK_ROLES : list pystr := map str ["management"; "access"; "route"; "unused"]%string.
Definition LEGACY_NETWORK_ROLE_REPLACEMENTS : list (pystr * pystr) :=
  [(str "services", str "access"); (str "storage", str "access")].
Definition normalize_interface_role (role : pystr) : pystr :=
  let value := normal_or_unused role in
  match dict_get value LEGACY_NETWORK_ROLE_REPLACEMENTS with
  | Some replacement => replacement
  | None => if mem value NETWORK_ROLES then value else str "unused"
  end.

(* ------------------------------------------------------------------ *)
(** ** Networks of interfaces *)

(** [_network_from_cidr]. *)
Definition _network_from_cidr (value : option pystr) : pystr :=
  match value with
  | None | Some [] => []
  | Some value => match ip_network value with Some n => network_str n | None => [] end
  end.

(** [_networks_from_cidrs]. *)
Definition add_network (networks : list pystr) (value : option pystr) : list pystr :=
  match _network_from_cidr value with [] => networks | network => append_new networks network end.
Definition _networks_from_cidrs (values : list (option pystr)) : list pystr := fold_left add_network values [].

(** [routing_firewall_targets]. *)
Definition target (name role : pystr) (ip_cidr ipv6_cidr : option pystr) : list Target :=
  match _networks_from_cidrs [ip_cidr; ipv6_cidr] with
  | [] => []
  | networks => [mkTarget name (normalize_interface_role role) networks]
  end.
Definition interface_target (interface : PhysicalInterface) : list Target :=
  if bool_decide (pi_oper_state interface = str "missing") || bool_decide (normalize_interface_mode (pi_mode interface) = str "trunk")
  then [] else target (pi_name interface) (pi_role interface) (pi_ip_cidr interface) (pi_ipv6_cidr interface).
Definition vlan_target (vlan : VlanInterface) : list Target :=
  if vi_enabled vlan then target (vi_name vlan) (vi_role vlan) (vi_ip_cidr vlan) (vi_ipv6_cidr vlan) else [].
Definition routing_firewall_targets (interfaces : list PhysicalInterface) (vlans : list VlanInterface) : list Target :=
  concat (map interface_target interfaces) ++ concat (map vlan_target vlans).

(** [ip_network(network).version]. *)
Definition version_of (network : pystr) : res Family :=
  match ip_network_strict network with
  | Some n => Ok (version n)
  | None => Raise (ValueError "does not appear to be an IPv4 or IPv6 network")
  end.

(** [_common_routing_networks]. *)
Definition _common_routing_networks (source destination : list pystr) : res (list Family) :=
  source ← mapM version_of source;
  destination ← mapM version_of destination;
  Ok (List.filter (fun f => mem f source && mem f destination) [V4; V6]).

(** The networks whose version satisfies [p]. *)
Definition networks_where (p : Family -> bool) (l : list pystr) : res (list pystr) :=
  versions ← mapM version_of l;
  Ok (map fst (List.filter (fun nv => p nv.2) (zip l versions))).

(* ------------------------------------------------------------------ *)
(** ** Names *)

(** A character of [json.dumps(text, ensure_ascii=False)]. *)
Definition escape_plain (c : Z) : pystr := if (32 <=? c) && negb (c =? 34) && negb (c =? 92) then [c] else escape_char c.

(** [json.dumps([source, destination, family], ensure_ascii=False, separators=(",", ":"))]. *)
Definition identity_text (source_name destination_name : pystr) (family : Z) : pystr :=
  let text s := [34] ++ concat (map escape_plain s) ++ [34] in
  str "[" ++ text source_name ++ str "," ++ text destination_name ++ str "," ++ dump_int family ++ str "]".

(** [_routing_generated_name]. *)
Definition _routing_generated_name (prefix source_name destination_name : pystr) (family : Z) : res pystr :=
  encoded ← utf8_encode (identity_text source_name destination_name family);
  Ok (prefix ++ str "-" ++ sha256_hex encoded).

Definition family_number (f : Family) : Z := match f with V4 => 4 | V6 => 6 end.

(** [_routing_default_deny_name]. *)
Definition _routing_default_deny_name (source_name destination_name : pystr) (family : Family) : res pystr :=
  _routing_generated_name (str "routing-default-deny-ipv" ++ dump_int (family_number family))
    source_name destination_name (family_number family).

(** [_slug]: every run of other characters becomes a dash. *)
Definition slug_char (c : Z) : bool := ((97 <=? c) && (c <=? 122)) || is_digit c.
Fixpoint sub_dash (in_run : bool) (s : pystr) : pystr :=
  match s with
  | [] => []
  | c :: s => if slug_char c then c :: sub_dash false s else if in_run then sub_dash true s else 45 :: sub_dash true s
  end.
Definition _slug (value : pystr) : pystr :=
  match strip (fun c => c =? 45) (sub_dash false (normal_name value)) with [] => str "dhcp-scope" | slug => slug end.

(* ------------------------------------------------------------------ *)
(** ** Rules *)

(** [_routing_firewall_rule]. *)
Definition _routing_firewall_rule (name action source_interface : pystr) (source_networks destination_networks : list pystr)
    (priority : Z) (description destination_interface policy_phase : pystr) : res FirewallRule :=
  common ← _common_routing_networks source_networks destination_networks;
  source ← networks_where (fun f => mem f common) source_networks;
  destination ← networks_where (fun f => mem f common) destination_networks;
  Ok (mkFirewallRule destination_interface
        (if bool_decide (description = ATLASO_MANAGEMENT_ISOLATION_RULE_MARKER) then str "isolation" else policy_phase)
        name (str "forward") action (str "any") (join_with [10] source) (join_with [10] destination) [] source_interface priority
        true (Some description)).

Definition is_role (role : string) (t : Target) : bool := bool_decide (t_role t = str role).
Definition has_permissions (t : Target) : bool := is_role "route" t || is_role "access" t.

(** [for x in l: rules.extend(f(x))]. *)
Definition res_concat {A B} (f : A -> res (list B)) (l : list A) : res (list B) := ll ← mapM f l; Ok (concat ll).

(** The two rules between a lab target and a management target. *)
Definition isolation_pair (lab management : Target) : res (list FirewallRule) :=
  common ← _common_routing_networks (networks lab) (networks management);
  match common with
  | [] => Ok []
  | _ =>
    name ← _routing_generated_name (str "isolate") (t_name lab) (t_name management) 0;
    inward ← _routing_firewall_rule name (str "drop") (t_name lab) (networks lab) (networks management) (-100)
      ATLASO_MANAGEMENT_ISOLATION_RULE_MARKER [] [];
    name ← _routing_generated_name (str "isolate") (t_name management) (t_name lab) 0;
    outward ← _routing_firewall_rule name (str "drop") (t_name management) (networks management) (networks lab) (-100)
      ATLASO_MANAGEMENT_ISOLATION_RULE_MARKER [] [];
    Ok [inward; outward]
  end.
Definition isolation_rules (lab_targets management_targets : list Target) : res (list FirewallRule) :=
  res_concat (fun lab => res_concat (isolation_pair lab) management_targets) lab_targets.

(** The rule from one route-role target to another. *)
Definition route_pair (source destination : Target) : res (list FirewallRule) :=
  if bool_decide (t_name source = t_name destination) then Ok [] else
  common ← _common_routing_networks (networks source) (networks destination);
  match common with
  | [] => Ok []
  | _ =>
    name ← _routing_generated_name (str "route") (t_name source) (t_name destination) 0;
    rule ← _routing_firewall_rule name (str "accept") (t_name source) (networks source) (networks destination) 30
      (ATLASO_ROUTING_FIREWALL_RULE_MARKER ++ str " from route-role networks.") (t_name destination) (str "automatic");
    Ok [rule]
  end.
Definition route_rules (route_targets : list Target) : res (list FirewallRule) :=
  res_concat (fun source => res_concat (route_pair source) route_targets) route_targets.

(** [[network for network in l if not family or ip_network(network).version == family]]. *)
Definition networks_of_family (family : Z) (l : list pystr) : res (list pystr) :=
  if family =? 0 then Ok l else networks_where (fun f => family_number f =? family) l.

(** The network of all addresses of a version. *)
Definition everywhere (f : Family) : pystr := match f with V4 => str "0.0.0.0/0" | V6 => str "::/0" end.

Abbreviation Pair := (pystr * pystr * Family)%type.

(** An explicit rule between two targets: the pairs it allows and its firewall rule. *)
Definition explicit_pair (rule : RoutingRule) (policy : pystr) (family : Z) (source destination : Target)
    : res (list Pair * list FirewallRule) :=
  source_networks ← networks_of_family family (networks source);
  destination_networks ← networks_of_family family (networks destination);
  destination_networks ← (if bool_decide (t_name source = t_name destination)
                          then versions ← mapM version_of source_networks; Ok (map everywhere versions)
                          else Ok destination_networks);
  common ← _common_routing_networks source_networks destination_networks;
  match common with
  | [] => Ok ([], [])
  | _ =>
    if bool_decide (policy = str "automatic") then Ok ([], []) else
    let allowed := if bool_decide (policy = str "allow") then map (fun f => (t_name source, t_name destination, f)) common else [] in
    rule_identity ← match rr_id rule with
                    | Some id => Ok (dump_int id)
                    | None => encoded ← utf8_encode (rr_name rule); Ok (take 12 (sha256_hex encoded))
                    end;
    generated ← _routing_firewall_rule (str "routing-" ++ rule_identity ++ str "-" ++ take 90 (_slug (rr_name rule)))
      (if bool_decide (policy = str "deny") then str "drop" else str "accept") (t_name source) source_networks destination_networks
      (rr_priority rule) (ATLASO_ROUTING_FIREWALL_RULE_MARKER ++ str " from explicit routing rule " ++ rr_name rule ++ str ".")
      (t_name destination) policy;
    Ok (allowed, [generated])
  end.

Definition rule_policy (rule : RoutingRule) : pystr := default (str "allow") (rr_policy rule).
Definition rule_family (rule : RoutingRule) : Z := default 0 (rr_ip_family rule).

(** One round of the loop over the routing rules. *)
Definition explicit_rule (by_name : list (pystr * Target)) (rule : RoutingRule) : res (list Pair * list FirewallRule) :=
  if negb (rr_enabled rule) then Ok ([], []) else
  _ ← raise_if (negb (mem (rule_policy rule) (map str ["automatic"; "allow"; "deny"]%string)) || negb (mem (rule_family rule) [0; 4; 6]))
      (ValueError "Invalid routing permission policy or family.");
  match dict_get (rr_source_interface rule) by_name, dict_get (rr_destination_interface rule) by_name with
  | Some source, Some destination =>
    if has_permissions source && has_permissions destination
    then explicit_pair rule (rule_policy rule) (rule_family rule) source destination else Ok ([], [])
  | _, _ => Ok ([], [])
  end.

(** The denial of one version from a target to another, unless the pair is allowed. *)
Definition default_deny (allowed_pairs : list Pair) (source destination : Target) (f : Family) : res (list FirewallRule) :=
  if mem (t_name source, t_name destination, f) allowed_pairs then Ok [] else
  source_networks ← networks_where (fun g => bool_decide (g = f)) (networks source);
  destination_networks ← networks_where (fun g => bool_decide (g = f)) (networks destination);
  let destination_networks :=
    if bool_decide (t_name source = t_name destination) then [everywhere f] else destination_networks in
  match source_networks, destination_networks with
  | _ :: _, _ :: _ =>
    name ← _routing_default_deny_name (t_name source) (t_name destination) f;
    rule ← _routing_firewall_rule name (str "drop") (t_name source) source_networks destination_networks 30
      (ATLASO_ROUTING_FIREWALL_RULE_MARKER ++ str " from automatic Access isolation.") (t_name destination) (str "deny");
    Ok [rule]
  | _, _ => Ok []
  end.
Definition default_denies (allowed_pairs : list Pair) (source destination : Target) : res (list FirewallRule) :=
  if negb (bool_decide (t_name source = t_name destination)) && (is_role "route" source && is_role "route" destination) then Ok []
  else res_concat (default_deny allowed_pairs source destination) [V4; V6].

(** [managed_routing_firewall_rules]. *)
Definition managed_routing_firewall_rules (interfaces : list PhysicalInterface) (vlans : list VlanInterface)
    (routing_rules : list RoutingRule) (routing_enabled : bool) : res (list FirewallRule) :=
  let targets := routing_firewall_targets interfaces vlans in
  let targets_by_name := dict_of (map (fun t => (t_name t, t)) targets) in
  let management_targets := List.filter (is_role "management") targets in
  let lab_targets := List.filter (fun t => negb (is_role "management" t)) targets in
  isolation ← isolation_rules lab_targets management_targets;
  if negb routing_enabled then Ok isolation else
  routes ← route_rules (List.filter (is_role "route") lab_targets);
  explicit ← mapM (explicit_rule targets_by_name) routing_rules;
  let allowed_pairs := concat (map fst explicit) in
  let permission_targets := List.filter has_permissions lab_targets in
  denies ← res_concat (fun source => res_concat (default_denies allowed_pairs source) permission_targets) permission_targets;
  Ok (isolation ++ routes ++ concat (map snd explicit) ++ denies).
End Routing.
