(* ===== verification/FirewallServices.v ===== *)
(** [services/firewall.py]: the input rules that the appliance generates for its own
    services, one to a listening interface and protocol, with the Source Group that is
    assigned to the rule as its source. *)

From S2P Require Import Prelude Utf8 PyText Json Sha256 IpAddress Networks Trace KeyProviders SourceGroups Firewall FirewallRouting.
Open Scope Z_scope.

(** [str.upper]. *)
Class PyUpper := { py_upper : pystr -> pystr }.

(* ------------------------------------------------------------------ *)
(** ** Data: the columns that the rules depend on *)

Record DnsSettings : Type := mkDnsSettings { dns_enabled : bool; dns_listen_interface : pystr }.

Record DhcpScope : Type := mkDhcpScope {
  scope_name : pystr;
  scope_address_family : pystr;
  scope_interface_name : pystr;
  scope_site_address : pystr;
  scope_enabled : bool
}.

Record CaSettings : Type := mkCaSettings { ca_enabled : bool; ca_listen_interface : pystr }.

(** [KmsSettings], [OidcProviderSettings], [VcfBackupSettings], [VcfOfflineDepotSettings] and
    [VcfPrivateRegistrySettings] listen on one port. *)
Record ListenerSettings : Type := mkListenerSettings {
  listener_enabled : bool;
  listen_interface : pystr;
  listener_port : Z
}.

Record NtpSettings : Type := mkNtpSettings {
  ntp_enabled : bool;
  ntp_listen_interface : pystr;
  ntp_port : Z;
  nts_server_enabled : bool;
  nts_ke_port : Z
}.

Record LdapSettings : Type := mkLdapSettings {
  ldap_service_enabled : bool;
  ldap_listen_interface : pystr;
  ldaps_enabled : bool;
  ldaps_port : Z;
  ldap_enabled : bool;
  ldap_port : Z
}.

(** The entries of [esx_storage_rules]. *)
Record StorageRule : Type := mkStorageRule {
  sr_name : pystr;
  sr_family : pystr;
  sr_interface_name : pystr;
  sr_source : pystr;
  sr_ports : pystr
}.

(** The arguments of [managed_service_firewall_rules]. *)
Record ServiceState : Type := mkServiceState {
  dns_settings : DnsSettings;
  dhcp_enabled : bool;
  dhcp_scopes : list DhcpScope;
  ca_settings : CaSettings;
  ca_portal_interfaces : option (list pystr);
  kms_settings : ListenerSettings;
  ntp_settings : NtpSettings;
  vcf_backup_settings : ListenerSettings;
  vcf_depot_settings : ListenerSettings;
  vcf_registry_settings : ListenerSettings;
  esxi_pxe_boot : list (pystr * json);
  interface_networks : list (pystr * list pystr);
  source_groups : list Group;
  source_group_assignments : list (pystr * pystr);
  web_terminal_interfaces : list pystr;
  ldap_settings : option LdapSettings;
  oidc_settings : option ListenerSettings;
  esx_storage_rules : list StorageRule;
  management_interface : option pystr;
  access_management_ui_interfaces : list pystr
}.

(** [for index, item in enumerate(l, start): ...]. *)
Fixpoint enumerate {A B} (f : Z -> A -> list B) (start : Z) (l : list A) : list B :=
  match l with [] => [] | x :: l => f start x ++ enumerate f (start + 1) l end.

(** [split_interfaces]. *)
Definition split_interfaces (raw : pystr) : list pystr := ordered_unique [] (stripped_parts is_separator raw).

(** [_ordered_unique] of [firewall.py], which leaves empty texts out. *)
Definition _ordered_unique (values : list pystr) : list pystr := ordered_unique [] (List.filter (fun v => negb (bool_decide (v = []))) values).

(** [ip_address(text).version]; [None] is [ValueError]. *)
Definition ip_address_version (s : pystr) : option Family :=
  if mem 47 s then None
  else match ipv4_int s with
       | Some _ => Some V4
       | None => match ipv6_scoped s with Some _ => Some V6 | None => None end
       end.

Section Services.
Context `{PyRuntime} `{PyCase} `{PyUpper}.

(** [dhcp_scope_address_family]. *)
Definition dhcp_scope_address_family (scope : DhcpScope) : pystr :=
  let family := normal_name (scope_address_family scope) in
  if mem family (map str ["ipv4"; "ipv6"]%string) then family
  else match ip_address_version (scope_site_address scope) with Some V6 => str "ipv6" | _ => str "ipv4" end.

(** [managed_rule_source_group_id]. *)
Definition managed_rule_source_group_id (rule_name : pystr) (assignments : list (pystr * pystr)) : pystr :=
  let default_name := if has_prefix (str "management-ui-") rule_name then str "management-ui" else rule_name in
  match dict_get rule_name assignments with
  | Some group_id => group_id
  | None => default FIREWALL_ANY_SOURCE_GROUP_ID (dict_get default_name assignments)
  end.

(** [_managed_rule_source]: an empty group is none. *)
Definition _managed_rule_source (rule_name : pystr) (groups : GroupsById) (assignments : list (pystr * pystr)) : pystr :=
  match (match dict_get (managed_rule_source_group_id rule_name assignments) groups with
         | Some ((_ :: _) as g) => Some g
         | _ => dict_get FIREWALL_ANY_SOURCE_GROUP_ID groups
         end) with
  | Some ((_ :: _) as g) => source_group_to_rule_source g groups
  | _ => ANY
  end.

(** [_service_firewall_rule]. *)
Definition _service_firewall_rule (name service interface_name source protocol ports : pystr) (priority : Z) : FirewallRule :=
  mkFirewallRule [] [] name (str "input") (str "accept") protocol source ANY ports (strip is_space interface_name) priority true
    (Some (ATLASO_SERVICE_FIREWALL_RULE_MARKER ++ str " for " ++ service ++ str ".")).

(** [dhcp_firewall_rules]. *)
Definition dhcp_rule (index : Z) (scope : DhcpScope) : list FirewallRule :=
  let ipv6 := bool_decide (dhcp_scope_address_family scope = str "ipv6") in
  [mkFirewallRule [] [] (_slug (scope_name scope) ++ str "-dns-dhcp" ++ (if ipv6 then str "v6" else [])) (str "input") (str "accept")
     (str "udp") ANY ANY (if ipv6 then str "547" else str "67") (strip is_space (scope_interface_name scope)) (20 + index) true
     (Some (ATLASO_DHCP_FIREWALL_RULE_MARKER ++ str " for DHCP " ++ (if ipv6 then str "IPv6" else str "IPv4") ++ str " IP zone " ++
            scope_name scope ++ str ". DHCP bootstrap traffic is interface-bound and not group-restricted."))].
Definition dhcp_firewall_rules (enabled : bool) (scopes : list DhcpScope) : list FirewallRule :=
  if enabled then enumerate dhcp_rule 1 (List.filter scope_enabled scopes) else [].

(** [dns_firewall_rules]. *)
Definition dns_rule (groups : GroupsById) (assignments : list (pystr * pystr)) (index : Z) (interface_name : pystr)
    (protocol_offset : Z) (protocol : pystr) : FirewallRule :=
  let rule_name := _slug interface_name ++ str "-dns-" ++ protocol in
  mkFirewallRule [] [] rule_name (str "input") (str "accept") protocol (_managed_rule_source rule_name groups assignments) ANY
    (str "53") interface_name (40 + index * 2 + protocol_offset) true
    (Some (ATLASO_DNS_FIREWALL_RULE_MARKER ++ str " for DNS listener " ++ interface_name ++ str ".")).
Definition dns_firewall_rules (settings : DnsSettings) (groups : GroupsById) (assignments : list (pystr * pystr)) : list FirewallRule :=
  if dns_enabled settings then
    enumerate (fun index interface_name => [dns_rule groups assignments index interface_name 0 (str "tcp");
                                            dns_rule groups assignments index interface_name 1 (str "udp")])
      1 (stripped_parts is_separator (dns_listen_interface settings))
  else [].

Section State.
Context (state : ServiceState).
Let groups := groups_by_id (source_groups state).
Let source_of (rule_name : pystr) : pystr := _managed_rule_source rule_name groups (source_group_assignments state).

(** A rule that is named after its interface and has the source of [key], or of its own
    name. *)
Definition interface_rule (prefix : string) (key : option string) (service protocol : string) (ports : pystr) (base index : Z)
    (interface_name : pystr) : FirewallRule :=
  let name := str prefix ++ interface_name in
  _service_firewall_rule name (str service) interface_name (source_of (match key with Some k => str k | None => name end)) (str protocol)
    ports (base + index).

Definition listener_rules (prefix : string) (key : option string) (service protocol : string) (base : Z) (settings : ListenerSettings)
    : list FirewallRule :=
  if listener_enabled settings then
    enumerate (fun index interface_name => [interface_rule prefix key service protocol (dump_int (listener_port settings)) base index interface_name])
      1 (split_interfaces (listen_interface settings))
  else [].

Definition console_rules : list FirewallRule :=
  match default (str "eth0") (management_interface state) with
  | [] => []
  | interface => [_service_firewall_rule (str "mgmt-console") (str "Management console") interface (source_of (str "mgmt-console"))
                    (str "tcp") (str "22,80,443") 10]
  end.

Definition known_interface (interface_name : pystr) : bool := mem interface_name (interface_networks state).*1.

Definition management_ui_rules : list FirewallRule :=
  enumerate (fun index interface_name =>
    if known_interface interface_name
    then [interface_rule "management-ui-" None "Management UI" "tcp" (str "22,80,443") 10 index interface_name] else [])
    1 (access_management_ui_interfaces state).

Definition terminal_rules : list FirewallRule :=
  enumerate (fun index interface_name =>
    if bool_decide (interface_name = str "eth0") then []
    else [interface_rule "web-terminal-" None "Web terminal" "tcp" (str "443") 15 index interface_name])
    1 (web_terminal_interfaces state).

Definition ca_interfaces : list pystr :=
  match ca_portal_interfaces state with
  | Some interfaces => interfaces
  | None => split_interfaces (ca_listen_interface (ca_settings state))
  end.
Definition ca_rules : list FirewallRule :=
  if ca_enabled (ca_settings state) then
    enumerate (fun index interface_name =>
      [interface_rule "ca-portal-" (Some "ca-portal"%string) "CA portal" "tcp" (str "80,443") 55 index interface_name]) 1 ca_interfaces
  else [].

Definition ldap_rules : list FirewallRule :=
  match ldap_settings state with
  | Some settings =>
    if ldap_service_enabled settings then
      enumerate (fun index interface_name =>
        (if ldaps_enabled settings
         then [interface_rule "ldap-ldaps-" None "Managed LDAP / LDAPS" "tcp" (dump_int (ldaps_port settings)) 63 index interface_name] else []) ++
        (if ldap_enabled settings
         then [interface_rule "ldap-plaintext-" None "Managed LDAP / plaintext LDAP" "tcp" (dump_int (ldap_port settings)) 64 index interface_name]
         else [])) 1 (split_interfaces (ldap_listen_interface settings))
    else []
  | None => []
  end.

Definition oidc_rules : list FirewallRule :=
  match oidc_settings state with
  | Some settings => listener_rules "oidc-" None "OpenID Connect" "tcp" 69 settings
  | None => []
  end.

Definition ntp_rules : list FirewallRule :=
  let settings := ntp_settings state in
  if ntp_enabled settings then
    enumerate (fun index interface_name =>
      interface_rule "ntpd-" None "NTPsec" "udp" (dump_int (ntp_port settings)) 65 index interface_name ::
      (if nts_server_enabled settings
       then [interface_rule "ntpd-nts-" None "NTPsec NTS-KE" "tcp"
               (dump_int (if nts_ke_port settings =? 0 then 4460 else nts_ke_port settings)) 68 index interface_name] else []))
      1 (split_interfaces (ntp_listen_interface settings))
  else [].

(** [esxi_pxe_boot and esxi_pxe_boot.get("enabled")], and [str(d.get(key) or fallback)]. *)
Definition pxe_enabled : bool := match dict_get (str "enabled") (esxi_pxe_boot state) with Some v => truthy v | None => false end.
Definition pxe_text (key : string) (fallback : pystr) : pystr :=
  match dict_get (str key) (esxi_pxe_boot state) with Some v => if truthy v then py_str v else fallback | None => fallback end.
Definition pxe_interfaces : list pystr := split_interfaces (pxe_text "listen_interface" []).

Definition public_service_interfaces : list pystr :=
  (if ca_enabled (ca_settings state) then ca_interfaces else []) ++
  (if listener_enabled (vcf_depot_settings state) then split_interfaces (listen_interface (vcf_depot_settings state)) else []) ++
  (if listener_enabled (vcf_registry_settings state) then split_interfaces (listen_interface (vcf_registry_settings state)) else []) ++
  (if pxe_enabled then pxe_interfaces else []).
Definition public_rules : list FirewallRule :=
  enumerate (fun index interface_name =>
    if known_interface interface_name
    then [interface_rule "public-services-" (Some "public-services"%string) "Public service directory" "tcp" (str "80") 75 index interface_name]
    else []) 1 (_ordered_unique public_service_interfaces).

Definition pxe_rules : list FirewallRule :=
  if pxe_enabled then
    enumerate (fun index interface_name =>
      [interface_rule "esxi-pxe-tftp-" (Some "esxi-pxe-tftp"%string) "ESXi PXE TFTP" "udp" (str "69") 100 index interface_name;
       interface_rule "esxi-pxe-http-" (Some "esxi-pxe-http"%string) "ESXi PXE HTTP" "tcp" (pxe_text "http_port" (str "8080")) 110 index interface_name])
      1 pxe_interfaces
  else [].

(** The rules of the loop over [esx_storage_rules], whose priorities count the rules before. *)
Definition storage_rule (priority : Z) (spec : StorageRule) : list FirewallRule :=
  [_service_firewall_rule (sr_name spec) (str "ESX NFS " ++ py_upper (sr_family spec)) (sr_interface_name spec) (sr_source spec)
     (str "tcp") (sr_ports spec) priority].

(** [managed_service_firewall_rules]. *)
Definition managed_service_firewall_rules : list FirewallRule :=
  let rules :=
    console_rules ++ management_ui_rules ++ terminal_rules ++
    dns_firewall_rules (dns_settings state) groups (source_group_assignments state) ++
    dhcp_firewall_rules (dhcp_enabled state) (dhcp_scopes state) ++
    ca_rules ++
    listener_rules "kms-kmip-" (Some "kms-kmip"%string) "KMS / KMIP" "tcp" 60 (kms_settings state) ++
    ldap_rules ++ oidc_rules ++ ntp_rules ++
    listener_rules "vcf-backups-sftp-" (Some "vcf-backups-sftp"%string) "VCF Backups SFTP" "tcp" 70 (vcf_backup_settings state) ++
    public_rules ++
    listener_rules "vcf-offline-depot-" (Some "vcf-offline-depot"%string) "VCF Offline Depot" "tcp" 80 (vcf_depot_settings state) ++
    listener_rules "vcf-private-registry-" (Some "vcf-private-registry"%string) "VCF Private Registry" "tcp" 90 (vcf_registry_settings state) ++
    pxe_rules in
  rules ++ enumerate storage_rule (125 + zlen rules) (esx_storage_rules state).
End State.

(** [firewall_interface_networks]. *)
Definition set_networks (d : list (pystr * list pystr)) (name : pystr) (ip_cidr ipv6_cidr : option pystr) : list (pystr * list pystr) :=
  match _networks_from_cidrs [ip_cidr; ipv6_cidr] with [] => d | networks => dict_set name networks d end.
Definition firewall_interface_networks (interfaces : list PhysicalInterface) (vlans : list VlanInterface) : list (pystr * list pystr) :=
  let d := fold_left (fun d i => if bool_decide (pi_oper_state i = str "missing") then d
                                 else set_networks d (pi_name i) (pi_ip_cidr i) (pi_ipv6_cidr i)) interfaces [] in
  fold_left (fun d v => if vi_enabled v then set_networks d (vi_name v) (vi_ip_cidr v) (vi_ipv6_cidr v) else d) vlans d.

(** [ca_portal_firewall_interfaces]. *)
Definition ca_portal_firewall_interfaces (interfaces : list PhysicalInterface) (vlans : list VlanInterface)
    (interface_networks : list (pystr * list pystr)) : list pystr :=
  let known name := mem name interface_networks.*1 in
  map pi_name (List.filter (fun i => negb (bool_decide (pi_oper_state i = str "missing")) && known (pi_name i) &&
                                     negb (bool_decide (normalize_interface_mode (pi_mode i) = str "trunk") ||
                                           bool_decide (normal_name (pi_role i) = str "management"))) interfaces) ++
  map vi_name (List.filter (fun v => vi_enabled v && known (vi_name v) && negb (bool_decide (normal_name (vi_role v) = str "management"))) vlans).
End Services.
