(* ===== verification/RoutingPermissions.v ===== *)
(** [services/routing_permissions.py]: the topology that routing permissions refer to, the
    validation of a permission, and the rows that show the operator what is effectively
    allowed and denied between two interfaces.  Of the dictionaries of targets the entries
    are modelled that permissions depend on; labels and the eligibility for translation are
    left out. *)

From S2P Require Import Prelude Utf8 PyText Json Sha256 IpAddress Networks Trace SourceGroups Firewall FirewallRouting.
Open Scope Z_scope.

Definition ROUTING_POLICIES : list pystr := map str ["automatic"; "allow"; "deny"]%string.

(** The targets of [routing_permission_targets]. *)
Record PermissionTarget : Type := mkPermissionTarget {
  pt_name : pystr;
  pt_role : pystr;
  pt_ip_cidr : pystr;
  pt_ipv6_cidr : pystr;
  pt_addresses : list pystr;
  pt_routing_domain : pystr
}.

(** [str(ip_interface(cidr).ip)], an address without its scope; [None] is [ValueError]. *)
Definition interface_of (f : Family) (s : pystr) : option pystr :=
  '(address, mask) ← match split_on 47 s with
                     | [a] => Some (a, None)
                     | [a; m] => Some (a, Some m)
                     | _ => None
                     end;
  '(n, _) ← address_of f address;
  _ ← match mask with Some m => make_netmask f m | None => Some (width f) end;
  Some (match f with V4 => ipv4_str n | V6 => ipv6_str n end).
Definition ip_interface_ip (s : pystr) : option pystr :=
  match interface_of V4 s with Some text => Some text | None => interface_of V6 s end.

(** [_configured_address]. *)
Definition _configured_address (cidr : option pystr) : pystr :=
  match cidr with None | Some [] => [] | Some cidr => default [] (ip_interface_ip cidr) end.

(** [target_networks]. *)
Definition cidr_networks (family : Z) (value : pystr) : list pystr :=
  match value with
  | [] => []
  | _ => match ip_network value with
         | Some network => if (family =? 0) || (family_number (version network) =? family) then [network_str network] else []
         | None => []
         end
  end.
Definition target_networks (target : PermissionTarget) (family : Z) : list pystr :=
  cidr_networks family (pt_ip_cidr target) ++ cidr_networks family (pt_ipv6_cidr target).

(** [routing_policy] and [routing_family]. *)
Definition routing_policy (rule : RoutingRule) : pystr := default (str "allow") (rr_policy rule).
Definition routing_family (rule : RoutingRule) : Z := default 0 (rr_ip_family rule).

(** [_LINE_SEPARATORS]. *)
Definition is_line_separator (c : Z) : bool :=
  mem c [13; 10; 11; 12; 0x85; 0x2028; 0x2029] || ((0x1c <=? c) && (c <=? 0x1e)).

(** [re.fullmatch(r"[A-Za-z0-9_.:-]{1,80}", name)]. *)
Definition is_name_char (c : Z) : bool :=
  ((65 <=? c) && (c <=? 90)) || ((97 <=? c) && (c <=? 122)) || is_digit c || mem c [95; 46; 58; 45].
Definition is_interface_name (name : pystr) : bool := (1 <=? zlen name) && (zlen name <=? 80) && forallb is_name_char name.

Section Permissions.
Context `{PyRuntime} `{PyCase}.

(** [routing_permission_targets]. *)
Definition permission_target (name role : pystr) (ip_cidr ipv6_cidr : option pystr) : list PermissionTarget :=
  match List.filter (fun address => negb (bool_decide (address = []))) (map _configured_address [ip_cidr; ipv6_cidr]) with
  | [] => []
  | addresses =>
    let role := normalize_interface_role role in
    [mkPermissionTarget name role (default [] ip_cidr) (default [] ipv6_cidr) addresses
       (if bool_decide (role = str "management") then str "management" else str "lab")]
  end.
Definition interface_permission_target (interface : PhysicalInterface) : list PermissionTarget :=
  if bool_decide (pi_oper_state interface = str "missing") || bool_decide (normalize_interface_mode (pi_mode interface) = str "trunk") then []
  else permission_target (pi_name interface) (pi_role interface) (pi_ip_cidr interface) (pi_ipv6_cidr interface).
Definition vlan_permission_target (vlan : VlanInterface) : list PermissionTarget :=
  if vi_enabled vlan then permission_target (vi_name vlan) (vi_role vlan) (vi_ip_cidr vlan) (vi_ipv6_cidr vlan) else [].
Definition routing_permission_targets (interfaces : list PhysicalInterface) (vlans : list VlanInterface) : list PermissionTarget :=
  concat (map interface_permission_target interfaces) ++ concat (map vlan_permission_target vlans).

Definition targets_by_name (targets : list PermissionTarget) : list (pystr * PermissionTarget) :=
  dict_of (map (fun t => (pt_name t, t)) targets).

(** [{ip_network(n).version for n in source} & {ip_network(n).version for n in destination}]. *)
Definition common_versions (source destination : list pystr) : res (list Family) := _common_routing_networks source destination.

(** The names of management interfaces in the database. *)
Definition protected_names (interfaces : list PhysicalInterface) (vlans : list VlanInterface) : list pystr :=
  map pi_name (List.filter (fun i => bool_decide (pi_role i = str "management")) interfaces) ++
  map vi_name (List.filter (fun v => bool_decide (vi_role v = str "management")) vlans).

(** The errors about one end of a permission. *)
Definition validate_end (rule : RoutingRule) (targets : list PermissionTarget) (protected : list pystr) (label name : pystr) : list pystr :=
  let target := dict_get name (targets_by_name targets) in
  let family := routing_family rule in
  (if is_interface_name name then []
   else [str "Routing permission " ++ label ++ str " must use a canonical interface name of at most 80 characters."]) ++
  (if mem name protected || match target with
                            | Some t => bool_decide (pt_role t = str "management") || bool_decide (pt_routing_domain t = str "management")
                            | None => false
                            end
   then [str "Routing permission " ++ label ++
         str " must be a non-management Access or Route interface/VLAN; protected management rules cannot be overridden."]
   else if negb (rr_enabled rule) then []
   else match target with
        | Some t =>
          if negb (mem (pt_role t) (map str ["route"; "access"]%string))
          then [str "Routing permission " ++ label ++ str " must be a non-management Access or Route interface/VLAN."]
          else if mem family [0; 4; 6] && bool_decide (target_networks t family = [])
          then [str "Routing permission " ++ label ++ str " has no configured prefix for the selected IP family."] else []
        | None => [str "Routing permission " ++ label ++ str " must be a non-management Access or Route interface/VLAN."]
        end).

(** [validate_routing_permission]; without a database no name is protected. *)
Definition validate_routing_permission (rule : RoutingRule) (targets : list PermissionTarget) (protected : list pystr) : res (list pystr) :=
  let family := routing_family rule in
  let errors :=
    (if mem (routing_policy rule) ROUTING_POLICIES then [] else [str "Routing permission policy must be automatic, allow, or deny."]) ++
    (if mem family [0; 4; 6] then [] else [str "Routing permission IP family must be 0 (both), 4, or 6."]) ++
    (if bool_decide (strip is_space (rr_name rule) = []) || (120 <? zlen (rr_name rule))
     then [str "Routing permission needs a name of at most 120 characters."]
     else if existsb is_line_separator (rr_name rule) then [str "Routing permission name must not contain line breaks."] else []) ++
    (if rr_priority rule <? 0 then [str "Routing permission priority cannot be negative."] else []) ++
    validate_end rule targets protected (str "source") (rr_source_interface rule) ++
    validate_end rule targets protected (str "destination") (rr_destination_interface rule) in
  match dict_get (rr_source_interface rule) (targets_by_name targets), dict_get (rr_destination_interface rule) (targets_by_name targets) with
  | Some source, Some destination =>
    if rr_enabled rule && mem family [0; 4; 6] then
      common ← common_versions (target_networks source family) (target_networks destination family);
      Ok (errors ++ match common with [] => [str "Routing permission targets need a common configured address family."] | _ => [] end)
    else Ok errors
  | _, _ => Ok errors
  end.

(* ------------------------------------------------------------------ *)
(** ** The rows *)

Record Candidate : Type := mkCandidate {
  row_id : json;
  row_name : pystr;
  row_enabled : bool;
  row_source_interface : pystr;
  row_destination_interface : pystr;
  row_priority : Z;
  row_description : pystr;
  row_generated : bool;
  row_policy : pystr;
  row_ip_family : Z
}.

Record Row : Type := mkRow {
  row_candidate : Candidate;
  row_source_networks : list pystr;
  row_destination_networks : list pystr;
  effective_action : pystr;
  family_effective_actions : list (Family * pystr);
  address_family : pystr;
  apply_state : pystr
}.

(** [generated_route_role_rules], with the entries that [routing_permission_rows] adds. *)
Definition generated_route_role_rules (targets : list PermissionTarget) : list Candidate :=
  let route_targets := List.filter (fun t => bool_decide (pt_role t = str "route") && bool_decide (pt_routing_domain t = str "lab")) targets in
  concat (map (fun source => concat (map (fun destination =>
    if bool_decide (pt_name source = pt_name destination) then []
    else [mkCandidate
            (JStr (str "generated:" ++ dump_int (zlen (pt_name source)) ++ str ":" ++ pt_name source ++ str ":" ++
                   dump_int (zlen (pt_name destination)) ++ str ":" ++ pt_name destination))
            (pt_name source ++ str " to " ++ pt_name destination) true (pt_name source) (pt_name destination) 30
            (str "Generated from route-role network intent.") true (str "automatic") 0]) route_targets)) route_targets).

Definition rule_candidate (rule : RoutingRule) : Candidate :=
  mkCandidate (match rr_id rule with Some id => JInt id | None => JNull end) (rr_name rule) (rr_enabled rule) (rr_source_interface rule)
    (rr_destination_interface rule) (rr_priority rule) (default [] (rr_description rule)) false (routing_policy rule) (routing_family rule).

(** The members of [active_policies], a policy with its key. *)
Abbreviation ActivePolicy := (pystr * pystr * Z * pystr)%type.
Definition active_policy (targets : list PermissionTarget) (rule : RoutingRule) : res (list ActivePolicy) :=
  if negb (rr_enabled rule) then Ok [] else
  errors ← validate_routing_permission rule targets [];
  Ok (match errors with
      | [] => map (fun version => (rr_source_interface rule, rr_destination_interface rule, version, routing_policy rule))
                (if routing_family rule =? 0 then [4; 6] else [routing_family rule])
      | _ => []
      end).
Definition active_policies (targets : list PermissionTarget) (rules : list RoutingRule) : res (list ActivePolicy) :=
  res_concat (active_policy targets) rules.

(** The action of one version. *)
Definition family_action (active : list ActivePolicy) (source_interface destination_interface : pystr)
    (source destination : option PermissionTarget) (version : Family) : pystr :=
  let has policy := mem (source_interface, destination_interface, family_number version, str policy) active in
  if has "deny"%string then str "explicit deny"
  else if has "allow"%string then str "explicit allow"
  else if negb (bool_decide (source_interface = destination_interface)) && bool_decide (pt_role <$> source = Some (str "route")) &&
          bool_decide (pt_role <$> destination = Some (str "route"))
  then str "automatic allow" else str "automatic deny".

Definition version_text (version : Family) : pystr := str "IPv" ++ dump_int (family_number version).

(** The row of a candidate. *)
Definition permission_row (targets : list PermissionTarget) (active : list ActivePolicy) (routing_enabled : bool) (row : Candidate) : res Row :=
  let source := dict_get (row_source_interface row) (targets_by_name targets) in
  let destination := dict_get (row_destination_interface row) (targets_by_name targets) in
  let family := row_ip_family row in
  let networks_at t := match t with Some t => target_networks t family | None => [] end in
  let source_networks := networks_at source in
  destination_networks ← (if bool_decide (row_source_interface row = row_destination_interface row)
                          then versions ← mapM version_of source_networks; Ok (map everywhere versions)
                          else Ok (networks_at destination));
  common ← common_versions source_networks destination_networks;
  let actions := map (fun version => (version, family_action active (row_source_interface row) (row_destination_interface row)
                                                 source destination version)) common in
  let in_scope t := match t with Some t => mem (pt_role t) (map str ["route"; "access"]%string) | None => false end in
  let valid_scope := in_scope source && in_scope destination && mem family [0; 4; 6] && mem (row_policy row) ROUTING_POLICIES in
  Ok (mkRow row source_networks destination_networks
        (if negb routing_enabled || negb (row_enabled row) then str "suspended"
         else match actions with
              | [] => str "conflict"
              | (_, action) :: rest =>
                if negb valid_scope then str "conflict"
                else if forallb (fun va => bool_decide (va.2 = action)) rest then action
                else join_with (str "; ") (map (fun va => version_text va.1 ++ str ": " ++ va.2) actions)
              end)
        actions
        (match common with [] => str "Unavailable" | _ => join_with (str " / ") (map version_text common) end)
        (str "pending")).

(** [routing_permission_rows]. *)
Definition routing_permission_rows (targets : list PermissionTarget) (rules : list RoutingRule) (routing_enabled : bool) : res (list Row) :=
  active ← active_policies targets rules;
  mapM (permission_row targets active routing_enabled) (generated_route_role_rules targets ++ map rule_candidate rules).

(* ------------------------------------------------------------------ *)
(** ** What was applied *)

Definition strings (l : list pystr) : json := JList (map JStr l).

(** The dictionaries that are hashed. *)
Definition row_json (row : Row) : json :=
  let c := row_candidate row in
  JDict [(str "id", row_id c); (str "name", JStr (row_name c)); (str "enabled", JBool (row_enabled c));
         (str "source_interface", JStr (row_source_interface c)); (str "destination_interface", JStr (row_destination_interface c));
         (str "priority", JInt (row_priority c)); (str "description", JStr (row_description c)); (str "generated", JBool (row_generated c));
         (str "policy", JStr (row_policy c)); (str "ip_family", JInt (row_ip_family c));
         (str "source_networks", strings (row_source_networks row)); (str "destination_networks", strings (row_destination_networks row));
         (str "effective_action", JStr (effective_action row));
         (str "family_effective_actions", JDict (map (fun va => (dump_int (family_number va.1), JStr va.2)) (family_effective_actions row)));
         (str "address_family", JStr (address_family row)); (str "apply_state", JStr (apply_state row))].
Definition target_json (t : Target) : json :=
  JDict [(str "name", JStr (t_name t)); (str "role", JStr (t_role t)); (str "networks", strings (networks t))].
Definition generated_json (rule : FirewallRule) : json :=
  JDict [(str "name", JStr (fr_name rule)); (str "source_interface", JStr (interface_name rule));
         (str "destination_interface", JStr (routing_destination_interface rule)); (str "phase", JStr (routing_policy_phase rule));
         (str "action", JStr (action rule)); (str "source", JStr (fr_source rule)); (str "destination", JStr (destination rule));
         (str "priority", JInt (priority rule))].

(** The desired state that forwarding depends on. *)
Record RoutingState : Type := mkRoutingState {
  rs_interfaces : list PhysicalInterface;
  rs_vlans : list VlanInterface;
  rs_rules : list RoutingRule;
  rs_routing_enabled : bool
}.

Definition managed_rules (db : RoutingState) : res (list FirewallRule) :=
  managed_routing_firewall_rules (rs_interfaces db) (rs_vlans db) (rs_rules db) (rs_routing_enabled db).

(** [policy] in [routing_permission_fingerprint]. *)
Definition fingerprint_policy (db : RoutingState) : res json :=
  rows ← routing_permission_rows (routing_permission_targets (rs_interfaces db) (rs_vlans db)) (rs_rules db) (rs_routing_enabled db);
  generated ← managed_rules db;
  Ok (JDict [(str "routing_enabled", JBool (rs_routing_enabled db)); (str "rows", JList (map row_json rows));
             (str "targets", JList (map target_json (routing_firewall_targets (rs_interfaces db) (rs_vlans db))));
             (str "generated_firewall", JList (map generated_json generated))]).

(** [routing_permission_fingerprint]. *)
Definition routing_permission_fingerprint (db : RoutingState) : res pystr :=
  policy ← fingerprint_policy db;
  encoded ← utf8_encode (dumps_default policy);
  Ok (sha256_hex encoded).

(** [baselines.get(unit)] is a dictionary with the fingerprint. *)
Definition unit_applied (baselines : list (pystr * json)) (fingerprint unit_ : pystr) : bool :=
  match dict_get unit_ baselines with
  | Some (JDict baseline) =>
    match dict_get (str "routing_permission_fingerprint") baseline with
    | Some (JStr recorded) => bool_decide (recorded = fingerprint)
    | _ => false
    end
  | _ => false
  end.

(** [routing_permission_apply_state]; [setting] is the value of the setting. *)
Definition routing_permission_apply_state (setting : option pystr) (db : RoutingState) : res pystr :=
  match loads (default (str "{}") setting) with
  | Raise e => if is_ValueError e then Ok (str "pending") else Raise e
  | Ok baselines =>
    fingerprint ← routing_permission_fingerprint db;
    Ok (match baselines with
        | JDict baselines =>
          if forallb (unit_applied baselines fingerprint) (map str ["wan"; "firewall"]%string) then str "applied" else str "pending"
        | _ => str "pending"
        end)
  end.
End Permissions.
