(* ===== verification/Nftables.v ===== *)
(** The fragment of the nftables language that the firewall renders: statements, their text,
    and the decision of a chain on a packet.  A chain takes its statements in order; the
    first one whose matches all hold decides, and the policy decides for the others.  A
    statement without an action (the log) decides nothing. *)

From S2P Require Import Prelude PyText Json IpAddress Networks Firewall.
Open Scope Z_scope.

(** What the matches read of a packet: both addresses are of one family. *)
Record Packet : Type := mkPacket {
  iifname : pystr;
  oifname : pystr;
  saddr : Address;
  daddr : Address;
  l4proto : Z;
  dport : Z;
  ct_established : bool;
  ct_dnat : bool;
  ct_mark : Z
}.

Inductive Match : Type :=
| OifName (name : pystr)
| IifName (name : pystr)
| L4Proto (name : pystr)
| SourceIn (f : Family) (items : list pystr)
| DestinationIn (f : Family) (items : list pystr)
| DportIn (protocol : pystr) (ports : list pystr)
| CtEstablished
| CtNotDnat
| CtUnmarked.

Record Statement : Type := mkStatement {
  matches : list Match;
  verdict : pystr;
  remark : pystr
}.

(* ------------------------------------------------------------------ *)
(** ** Text *)

Definition print_set (items : list pystr) : pystr :=
  match items with
  | [] => []
  | [item] => item
  | _ => str "{ " ++ join_with (str ", ") items ++ str " }"
  end.

Definition print_family (f : Family) : pystr := match f with V4 => str "ip" | V6 => str "ip6" end.

Definition print_match (m : Match) : pystr :=
  match m with
  | OifName name => str "oifname " ++ quoted name
  | IifName name => str "iifname " ++ quoted name
  | L4Proto name => str "meta l4proto " ++ name
  | SourceIn f items => print_family f ++ str " saddr " ++ print_set items
  | DestinationIn f items => print_family f ++ str " daddr " ++ print_set items
  | DportIn protocol ports => protocol ++ str " dport " ++ print_set ports
  | CtEstablished => str "ct state established,related"
  | CtNotDnat => str "ct status & dnat == 0"
  | CtUnmarked => str "ct mark & 0xff000000 != 0xa7000000"
  end.

Definition print_statement (s : Statement) : pystr :=
  join_with (str " ") (map print_match (matches s) ++ [verdict s; str "comment " ++ quoted (remark s)]).

(* ------------------------------------------------------------------ *)
(** ** Decisions *)

(** An address is in one of the networks of a set. *)
Definition in_items (items : list pystr) (a : Address) : bool :=
  existsb (fun item => match ip_network item with Some n => in_network a n | None => false end) items.

(** A port is in one of the ports and ranges of a set. *)
Definition port_value (s : pystr) : Z := match int_of_digits s with Ok n => n | Raise _ => -1 end.
Definition in_ports (ports : list pystr) (port : Z) : bool :=
  existsb (fun item => if mem 45 item
                       then let '(a, b) := split_dash item in (port_value a <=? port) && (port <=? port_value b)
                       else port =? port_value item) ports.

(** The number of a protocol, by its name or its number. *)
Definition l4_number (name : pystr) : Z :=
  if bool_decide (name = str "icmp") then 1
  else if bool_decide (name = str "tcp") then 6
  else if bool_decide (name = str "udp") then 17
  else port_value name.

Definition holds (p : Packet) (m : Match) : bool :=
  match m with
  | OifName name => bool_decide (oifname p = name)
  | IifName name => bool_decide (iifname p = name)
  | L4Proto name => l4proto p =? l4_number name
  | SourceIn f items => bool_decide (family (saddr p) = f) && in_items items (saddr p)
  | DestinationIn f items => bool_decide (family (daddr p) = f) && in_items items (daddr p)
  | DportIn protocol ports => (l4proto p =? l4_number protocol) && in_ports ports (dport p)
  | CtEstablished => ct_established p
  | CtNotDnat => negb (ct_dnat p)
  | CtUnmarked => negb (Z.land (ct_mark p) 0xff000000 =? 0xa7000000)
  end.

Definition applies (p : Packet) (s : Statement) : bool := forallb (holds p) (matches s).

Fixpoint decide_chain (chain : list Statement) (policy : pystr) (p : Packet) : pystr :=
  match chain with
  | [] => policy
  | s :: chain => if applies p s then verdict s else decide_chain chain policy p
  end.

Lemma decide_chain_app a b policy p : decide_chain (a ++ b) policy p = decide_chain a (decide_chain b policy p) p.
Proof. induction a as [|s a IH]; cbn; [done|]. by destruct (applies p s). Qed.

(** A run of statements with one verdict. *)
Lemma decide_chain_same a v policy p :
  Forall (fun s => verdict s = v) a -> decide_chain a policy p = if existsb (applies p) a then v else policy.
Proof. induction 1 as [|s a Hs _ IH]; cbn; [done|]. destruct (applies p s); [done|]. by rewrite IH. Qed.
