(* ===== verification/FirewallText.v ===== *)
(** Texts of addresses: how a list of them is cut, lower-cased and put together again, and
    that no address looks like a reference to a group. *)

From S2P Require Import Prelude PyText Json IpAddress Networks Trace SourceGroups SourceGroupsProps.
Open Scope Z_scope.

Definition ascii (s : pystr) : Prop := Forall (fun c => 0 <= c < 128) s.

(* ------------------------------------------------------------------ *)
(** ** The first character of an address *)

Definition address_char (c : Z) : Prop := is_Some (hex_value c) \/ c = 58.

Lemma split_on_first c s h t xs : split_on c s = (h :: t) :: xs -> exists s', s = h :: s'.
Proof.
  destruct s as [|x s]; cbn; [done|]. destruct (x =? c); [done|].
  destruct (split_on c s) as [|p ps]; intros [= <- _]; eauto.
Qed.

Lemma split_on_first_empty c s xs : split_on c s = [] :: xs -> s = [] \/ exists s', s = c :: s'.
Proof.
  destruct s as [|x s]; cbn; [by left|]. destruct (Z.eqb_spec x c) as [->|]; [right; eauto|]. by destruct (split_on c s).
Qed.

Lemma parse_octet_head s n : parse_octet s = Some n -> exists h t, s = h :: t /\ address_char h.
Proof.
  unfold parse_octet. destruct s as [|h t]; [done|]. destruct (forallb is_digit (h :: t)) eqn:E; [|by destruct (bool_decide _)].
  intros _. exists h, t. split; [done|]. left. cbn in E. apply andb_true_iff in E as [E _]. unfold is_digit in E.
  unfold hex_value. assert ((48 <=? h) && (h <=? 57) = true) as -> by done. eauto.
Qed.

Lemma parse_hextet_head s n : parse_hextet s = Some n -> exists h t, s = h :: t /\ address_char h.
Proof.
  unfold parse_hextet. destruct s as [|h t]; [done|]. destruct (_ || _); [done|]. cbn [hex_digits_of].
  destruct (hex_value h) as [d|] eqn:E; [|done]. intros _. exists h, t. split; [done|]. left. by rewrite E.
Qed.

Lemma ipv4_head s n : ipv4_int s = Some n -> exists h t, s = h :: t /\ address_char h.
Proof.
  unfold ipv4_int. destruct (split_on 46 s) as [|x [|? [|? [|? [|]]]]] eqn:E; try done.
  destruct (parse_octet x) as [v|] eqn:Ex; [|done]. intros _. apply parse_octet_head in Ex as (h&t&->&Hh).
  apply split_on_first in E as (s'&->). eauto.
Qed.

Lemma parse_hextets_head acc x xs n : parse_hextets acc (x :: xs) = Some n -> exists h t, x = h :: t /\ address_char h.
Proof. cbn. destruct (parse_hextet x) as [v|] eqn:E; [|done]. intros _. by apply parse_hextet_head in E. Qed.

(** The parts of an IPv6 address, when the first one is not empty. *)
Lemma hextets_head parts x xs n :
  parts = x :: xs -> x <> [] ->
  (if 9 <? zlen parts then None else
   let first_empty := bool_decide (head parts = Some []) in
   let last_empty := bool_decide (last parts = Some []) in
   match inner_empty parts with
   | [] => if negb (zlen parts =? 8) || first_empty || last_empty then None else parse_hextets 0 parts
   | [skip_index] =>
     let parts_hi := (if first_empty then skip_index - 1 else skip_index)%nat in
     let parts_lo0 := (length parts - skip_index - 1)%nat in
     let parts_lo := (if last_empty then parts_lo0 - 1 else parts_lo0)%nat in
     if (first_empty && negb (parts_hi =? 0)%nat) || (last_empty && negb (parts_lo =? 0)%nat) ||
        (8 - Z.of_nat (parts_hi + parts_lo) <? 1)
     then None
     else
       hi ← parse_hextets 0 (take parts_hi parts);
       parse_hextets (hi * 65536 ^ (8 - Z.of_nat (parts_hi + parts_lo))) (drop (length parts - parts_lo) parts)
   | _ => None
   end) = Some n -> exists h t, x = h :: t /\ address_char h.
Proof.
  intros Hp Hx. destruct (9 <? zlen parts); [done|]. cbn zeta.
  rewrite (bool_decide_eq_false_2 (head parts = Some [])) by (rewrite Hp; cbn; congruence).
  destruct (inner_empty parts) as [|k [|]] eqn:Ei; [| |done].
  - destruct (_ || _); [done|]. rewrite Hp. apply parse_hextets_head.
  - destruct (_ || _); [done|]. assert (1 <= k)%nat as Hk.
    { assert (k ∈ inner_empty parts) as Hin by (rewrite Ei; by left). unfold inner_empty in Hin.
      apply list_elem_of_filter in Hin as [_ Hin]. apply elem_of_seq in Hin. lia. }
    destruct k as [|k]; [lia|]. rewrite Hp. cbn [take].
    destruct (parse_hextets 0 (x :: take k xs)) as [hi|] eqn:E; [|done]. intros _. by apply parse_hextets_head in E.
Qed.

Lemma ipv6_head s n : ipv6_int s = Some n -> exists h t, s = h :: t /\ address_char h.
Proof.
  unfold ipv6_int. destruct (split_on 58 s) as [|x xs] eqn:Es; [done|].
  destruct (Z.ltb_spec (zlen (x :: xs)) 3) as [|Hlen]; [done|].
  destruct x as [|h t].
  { apply split_on_first_empty in Es as Hs. destruct Hs as [->|(s'&->)]; [cbn in Es; injection Es as <-; by cbn in Hlen|].
    intros _. exists 58, s'. split; [done|]. by right. }
  destruct (split_on_first _ _ _ _ _ Es) as (s'&->). intros E. exists h, s'. split; [done|].
  destruct xs as [|y xs]; [by cbn in Hlen|].
  enough (exists h' t', h :: t = h' :: t' /\ address_char h') as (?&?&[= <- _]&Hh) by done.
  destruct (mem 46 _).
  - destruct (ipv4_int _) as [v|]; [|done]. cbn [mbind option_bind] in E. eapply hextets_head; [reflexivity|done|exact E].
  - cbn [mbind option_bind] in E. eapply hextets_head; [reflexivity|done|exact E].
Qed.

Lemma ip_network_head s n : ip_network s = Some n -> exists h t, s = h :: t /\ address_char h.
Proof.
  assert (forall f, network_of false f s = Some n -> exists h t, s = h :: t /\ address_char h) as Hf.
  2: { unfold ip_network. destruct (network_of false V4 s) eqn:E; [intros [= ->]; eauto|eauto]. }
  intros f E. unfold network_of in E.
  assert (exists a, (exists v, address_of f a = Some v) /\ exists xs, split_on 47 s = a :: xs) as (a&(v&Ha)&xs&Hs).
  { destruct (split_on 47 s) as [|a [|m [|]]]; try done; cbn in E; (destruct (address_of f a) as [v|] eqn:Ea; [|done]);
      exists a; eauto. }
  enough (exists h t, a = h :: t /\ address_char h) as (h&t&->&Hh) by (apply split_on_first in Hs as (s'&->); eauto).
  destruct f; cbn [address_of] in Ha.
  - destruct (ipv4_int a) eqn:E4; [|done]. by apply ipv4_head in E4.
  - unfold ipv6_scoped in Ha. destruct (split_on 37 a) as [|b [|sc [|]]] eqn:E6; try done.
    + destruct (ipv6_int b) eqn:E7; [|done]. apply ipv6_head in E7 as (h&t&->&Hh). apply split_on_first in E6 as (s'&->). eauto.
    + destruct (bool_decide _); [done|]. destruct (ipv6_int b) eqn:E7; [|done]. apply ipv6_head in E7 as (h&t&->&Hh).
      apply split_on_first in E6 as (s'&->). eauto.
Qed.

(* ------------------------------------------------------------------ *)
(** ** Lower case and parts *)

Lemma lstrip_map (f : Z -> Z) p s : Forall (fun c => p (f c) = p c) s -> lstrip p (map f s) = map f (lstrip p s).
Proof. induction 1 as [|c s Hc _ IH]; cbn; [done|]. rewrite Hc. by destruct (p c). Qed.

Lemma strip_map (f : Z -> Z) p s : Forall (fun c => p (f c) = p c) s -> strip p (map f s) = map f (strip p s).
Proof.
  intros Hs. unfold strip. rewrite lstrip_map, <- map_rev, lstrip_map, map_rev; [done| |done].
  apply Forall_forall. intros c Hc. pose proof (lstrip_Forall _ p _ Hs) as Hl. rewrite Forall_forall in Hl. apply Hl.
  apply list_elem_of_In, in_rev. by apply list_elem_of_In.
Qed.

Lemma split_where_map (f : Z -> Z) p s : Forall (fun c => p (f c) = p c) s -> split_where p (map f s) = map (map f) (split_where p s).
Proof.
  induction 1 as [|c s Hc _ IH]; cbn; [done|]. rewrite Hc, IH. destruct (p c); [done|]. by destruct (split_where p s).
Qed.

Lemma split_where_none p s : Forall (fun c => p c = false) s -> split_where p s = [s].
Proof. induction 1 as [|c s Hc _ IH]; cbn; [done|]. by rewrite Hc, IH. Qed.

Lemma split_where_parts p s : Forall (Forall (fun c => p c = false)) (split_where p s).
Proof.
  induction s as [|c s IH]; cbn; [by repeat constructor|]. destruct (p c) eqn:E; [by constructor|].
  destruct IH as [|x xs Hx Hxs]; by repeat constructor.
Qed.

Lemma ascii_lower_ascii c : 0 <= c < 128 -> 0 <= ascii_lower c < 128.
Proof. unfold ascii_lower. destruct ((65 <=? c) && (c <=? 90)) eqn:E; lia. Qed.

Lemma ascii_lower_idem c : ascii_lower (ascii_lower c) = ascii_lower c.
Proof.
  unfold ascii_lower. destruct ((65 <=? c) && (c <=? 90)) eqn:E; [|by rewrite E].
  destruct ((65 <=? c + 32) && (c + 32 <=? 90)) eqn:E'; lia.
Qed.

Lemma visible_not_space c : 33 <= c < 127 -> is_space c = false.
Proof. intros Hc. unfold is_space, is_ascii_space, is_unicode_space. lia. Qed.

Lemma ascii_lower_space c : is_space (ascii_lower c) = is_space c.
Proof.
  unfold ascii_lower. destruct ((65 <=? c) && (c <=? 90)) eqn:E; [|done]. by rewrite !visible_not_space by lia.
Qed.

Lemma ascii_lower_separator c : is_entry_separator (ascii_lower c) = is_entry_separator c.
Proof. unfold ascii_lower, is_entry_separator. destruct ((65 <=? c) && (c <=? 90)) eqn:E; [|done]. lia. Qed.

Lemma stripped_parts_map (f : Z -> Z) p s :
  (forall c, p (f c) = p c) -> (forall c, is_space (f c) = is_space c) ->
  stripped_parts p (map f s) = map (map f) (stripped_parts p s).
Proof.
  intros Hp Hs. unfold stripped_parts. rewrite split_where_map by by apply Forall_true.
  induction (split_where p s) as [|x l IH]; [done|]. cbn [map]. rewrite !filter_cons, IH, strip_map by by apply Forall_true.
  by destruct (strip is_space x).
Qed.

(** An item of a list of addresses. *)
Record plain (i : pystr) : Prop := {
  pl_ascii : ascii i;
  pl_lower : map ascii_lower i = i;
  pl_separators : Forall (fun c => is_entry_separator c = false) i;
  pl_strip : strip is_space i = i;
  pl_nonempty : i <> []
}.

Section Items.
Context `{PyRuntime} `{PyCase} {laws : PyCaseLaws}.

Lemma lower_ascii s : ascii s -> py_lower s = map ascii_lower s.
Proof. apply py_lower_ascii. Qed.

Lemma parts_ascii p s : ascii s -> Forall ascii (stripped_parts p s).
Proof.
  intros Hs. apply Forall_forall. intros x Hx. apply list_elem_of_filter in Hx as [_ Hx]. apply list_elem_of_fmap in Hx as (y&->&Hy).
  apply strip_Forall. pose proof (split_where_Forall _ p s Hs) as Hall. rewrite Forall_forall in Hall. by apply Hall.
Qed.

Lemma split_values_ascii s : ascii s -> _split_address_values s = map (map ascii_lower) (stripped_parts is_entry_separator s).
Proof.
  intros Hs. unfold _split_address_values, _split_source_group_entry_values. apply map_ext_in. intros x Hx.
  apply lower_ascii. pose proof (parts_ascii is_entry_separator s Hs) as Hall. rewrite Forall_forall in Hall. by apply Hall, list_elem_of_In.
Qed.

Lemma ascii_lower_text s : ascii s -> ascii (map ascii_lower s).
Proof. intros Hs. apply Forall_fmap. eapply Forall_impl; [exact Hs|]. intros c. apply ascii_lower_ascii. Qed.

Lemma map_lower_idem s : map ascii_lower (map ascii_lower s) = map ascii_lower s.
Proof. rewrite map_map. apply map_ext. apply ascii_lower_idem. Qed.

(** Lower-casing first does not change the items. *)
Lemma split_values_lower s : ascii s -> _split_address_values (py_lower s) = _split_address_values s.
Proof.
  intros Hs. rewrite lower_ascii by done. rewrite !split_values_ascii by (done || by apply ascii_lower_text).
  rewrite stripped_parts_map by (apply ascii_lower_separator || apply ascii_lower_space).
  rewrite map_map. apply map_ext. apply map_lower_idem.
Qed.

Lemma split_values_plain s : ascii s -> Forall plain (_split_address_values s).
Proof.
  intros Hs. rewrite split_values_ascii by done. apply Forall_forall. intros i Hi. apply list_elem_of_fmap in Hi as (x&->&Hx).
  pose proof (parts_ascii is_entry_separator s Hs) as Ha. rewrite Forall_forall in Ha. specialize (Ha x Hx).
  unfold stripped_parts in Hx. apply list_elem_of_filter in Hx as [Hne Hx]. apply list_elem_of_fmap in Hx as (part&->&Hpart).
  pose proof (split_where_parts is_entry_separator s) as Hp. rewrite Forall_forall in Hp. specialize (Hp part Hpart).
  split.
  - by apply ascii_lower_text.
  - apply map_lower_idem.
  - apply Forall_fmap. eapply Forall_impl; [by apply strip_Forall|]. intros c Hc. unfold compose. by rewrite ascii_lower_separator.
  - rewrite strip_map by (apply Forall_true, ascii_lower_space). by rewrite strip_strip.
  - by destruct (strip is_space part).
Qed.

Lemma split_values_item i : plain i -> _split_address_values i = [i].
Proof.
  intros Hi. rewrite split_values_ascii by apply Hi. unfold stripped_parts. rewrite split_where_none by apply Hi. cbn.
  rewrite (pl_strip _ Hi). rewrite decide_True by apply Hi. cbn. by rewrite (pl_lower _ Hi).
Qed.

(** Items put together are cut into the same items. *)
Lemma split_values_join items : Forall plain items -> _split_address_values (join_with [10] items) = items.
Proof.
  intros Hi. rewrite split_address_values_join. induction Hi as [|i items Hi _ IH]; cbn; [done|]. by rewrite split_values_item, IH.
Qed.
End Items.
