(* ===== verification/FirewallMeaning.v ===== *)
(** What a firewall rule means, and that the statements it is rendered to mean the same: a
    rule whose addresses are of both families becomes one statement to a family. *)

From S2P Require Import Prelude PyText Json IpAddress Networks Trace SourceGroups SourceGroupsProps Firewall Nftables FirewallText.
Open Scope Z_scope.

(* ------------------------------------------------------------------ *)
(** ** Joined items *)

Lemma join_Forall (P : Z -> Prop) sep l : Forall P sep -> Forall (Forall P) l -> Forall P (join_with sep l).
Proof.
  intros Hs Hl. induction Hl as [|x l Hx Hl IH]; [constructor|]. destruct l as [|y l]; [done|].
  change (join_with sep (x :: y :: l)) with (x ++ sep ++ join_with sep (y :: l)). by repeat (apply Forall_app; split).
Qed.

Lemma join_map (f : Z -> Z) sep l : map f (join_with sep l) = join_with (map f sep) (map (map f) l).
Proof.
  induction l as [|x [|y l] IH]; [done|done|].
  change (join_with sep (x :: y :: l)) with (x ++ sep ++ join_with sep (y :: l)). rewrite !map_app, IH. done.
Qed.

Lemma plain_last i : plain i -> exists c t, rev i = c :: t /\ is_space c = false.
Proof.
  intros Hi. pose proof (strip_last is_space i) as Hl. rewrite (pl_strip _ Hi) in Hl.
  destruct (rev i) as [|c t] eqn:E; [|eauto]. exfalso. apply (pl_nonempty _ Hi). by rewrite <- (rev_involutive i), E.
Qed.

Lemma join_last items : Forall plain items -> open_with is_space (rev (join_with [10] items)).
Proof.
  induction 1 as [|i items Hi Hl IH]; [done|]. destruct items as [|j items].
  - cbn. by destruct (plain_last i Hi) as (c&t&->&Hc).
  - change (join_with [10] (i :: j :: items)) with (i ++ [10] ++ join_with [10] (j :: items)). rewrite !rev_app_distr.
    destruct (rev (join_with [10] (j :: items))) as [|c t] eqn:E; [|done].
    apply (f_equal (@rev Z)) in E. rewrite rev_involutive in E. apply Forall_cons in Hl as [Hj _].
    exfalso. apply (pl_nonempty _ Hj). destruct items as [|k items]; [done|]. by destruct j.
Qed.

Section Meaning.
Context `{PyRuntime} `{PyCase} {laws : PyCaseLaws}.

(** Items that are all addresses. *)
Definition items_ok (items : list pystr) : Prop := Forall (fun i => plain i /\ is_Some (ip_network i)) items.

Lemma items_ok_plain items : items_ok items -> Forall plain items.
Proof. intros Hi. eapply Forall_impl; [exact Hi|]. by intros i []. Qed.

Lemma join_head items : items_ok items -> items <> [] -> exists h t, join_with [10] items = h :: t /\ address_char h.
Proof.
  intros Hok Hne. destruct Hok as [|i items [Hi (n&Hn)] _]; [done|]. apply ip_network_head in Hn as (h&t&->&Hh).
  exists h. destruct items as [|j items]; [by exists t|]. by eexists.
Qed.

Lemma address_char_range h : address_char h -> is_space h = false /\ h <> 103 /\ h <> 64.
Proof.
  intros [(d&Hd)| ->]; [|done]. unfold hex_value in Hd.
  assert (48 <= h <= 57 \/ 97 <= h <= 102 \/ 65 <= h <= 70) as Hr by (repeat (case_match; try lia); done).
  split; [apply visible_not_space; lia|lia].
Qed.

(** A joined list of addresses is read as it is. *)
Lemma rule_address_items items groups :
  items_ok items -> items <> [] -> _rule_address_value (join_with [10] items) groups = join_with [10] items.
Proof.
  intros Hok Hne. pose proof (items_ok_plain _ Hok) as Hp. destruct (join_head _ Hok Hne) as (h&t&Ej&Hh).
  apply address_char_range in Hh as (Hsp&Hg&Hat).
  assert (ascii (join_with [10] items)) as Ha.
  { apply join_Forall; [by repeat constructor|]. eapply Forall_impl; [exact Hp|]. by intros i []. }
  assert (py_lower (join_with [10] items) = join_with [10] items) as Hlow.
  { rewrite lower_ascii, join_map by done. f_equal. clear -Hp. induction Hp as [|i l Hi _ IH]; cbn; [done|]. by rewrite IH, (pl_lower _ Hi). }
  assert (strip is_space (join_with [10] items) = join_with [10] items) as Hs.
  { apply strip_ends; [by rewrite Ej|by apply join_last]. }
  assert (_source_group_reference_target (join_with [10] items) groups [] = []) as Ht.
  { unfold _source_group_reference_target. rewrite Hs, Hlow, Ej. unfold has_prefix.
    rewrite !bool_decide_eq_false_2; [done| |]; cbn; by intros [= E]. }
  unfold _rule_address_value. rewrite Hs. rewrite Ej in Hlow, Ht |- *. by rewrite Ht.
Qed.

Lemma rule_address_any groups : _rule_address_value ANY groups = ANY.
Proof.
  assert (_source_group_reference_target ANY groups [] = []) as Ht.
  { unfold _source_group_reference_target. change (strip is_space ANY) with ANY. by rewrite lower_any. }
  unfold _rule_address_value. change (strip is_space ANY) with [97; 110; 121]. cbv iota.
  change [97; 110; 121] with ANY. rewrite Ht. apply lower_any.
Qed.

(* ------------------------------------------------------------------ *)
(** ** The meaning of a rule *)

(** An address value: any address, or one in its networks. *)
Definition address_matches (value : pystr) (a : Address) : bool :=
  bool_decide (value = ANY) || in_items (_split_address_values value) a.

(** The protocol and the ports of a rule. *)
Definition port_matches (rule : FirewallRule) (p : Packet) : bool :=
  let protocol := normal_name (protocol rule) in
  if bool_decide (protocol = str "icmp") then l4proto p =? 1
  else if mem protocol (map str ["tcp"; "udp"]%string) then
    (l4proto p =? l4_number protocol) &&
    (bool_decide (strip is_space (destination_port rule) = []) || in_ports (stripped_parts is_separator (destination_port rule)) (dport p))
  else true.

Definition interface_matches (rule : FirewallRule) (p : Packet) : bool :=
  let interface := strip is_space (interface_name rule) in
  (bool_decide (routing_destination_interface rule = []) || bool_decide (oifname p = routing_destination_interface rule)) &&
  (bool_decide (interface = []) ||
   bool_decide ((if bool_decide (direction rule = str "output") then oifname p else iifname p) = interface)).

Definition rule_applies (groups : GroupsById) (rule : FirewallRule) (p : Packet) : bool :=
  interface_matches rule p && port_matches rule p &&
  address_matches (_rule_address_value (fr_source rule) groups) (saddr p) &&
  address_matches (_rule_address_value (destination rule) groups) (daddr p).

(* ------------------------------------------------------------------ *)
(** ** The statements of a rule *)

(** A match, unless its argument is empty. *)
Definition items_part {A} (m : list A -> Match) (items : list A) : list Match := match items with [] => [] | _ => [m items] end.

Definition interface_part (rule : FirewallRule) : list Match :=
  items_part OifName (routing_destination_interface rule) ++
  items_part (if bool_decide (direction rule = str "output") then OifName else IifName) (strip is_space (interface_name rule)) ++
  (if bool_decide (normal_name (protocol rule) = str "icmp") then [L4Proto (str "icmp")] else []).

Definition port_part (rule : FirewallRule) : list Match :=
  if mem (normal_name (protocol rule)) (map str ["tcp"; "udp"]%string) then
    match strip is_space (destination_port rule) with
    | [] => [L4Proto (normal_name (protocol rule))]
    | _ => [DportIn (normal_name (protocol rule)) (stripped_parts is_separator (destination_port rule))]
    end
  else [].

Definition statement (rule : FirewallRule) (f : Family) (source destination : list pystr) : Statement :=
  mkStatement (interface_part rule ++ items_part (SourceIn f) source ++ items_part (DestinationIn f) destination ++ port_part rule)
    (action rule) (_safe_comment (fr_name rule)).

Definition of_family (f : Family) (items : list pystr * list pystr) : list pystr := match f with V4 => items.1 | V6 => items.2 end.

Definition no_items (items : list pystr * list pystr) : bool := bool_decide (items.1 = []) && bool_decide (items.2 = []).

(** The statement for one family, when the rule has addresses of it on both sides. *)
Definition family_statement (rule : FirewallRule) (source destination : list pystr * list pystr) (f : Family) : list Statement :=
  let lacks items := bool_decide (of_family f items = []) in
  if (lacks source && lacks destination) || (negb (no_items source) && lacks source) || (negb (no_items destination) && lacks destination)
  then [] else [statement rule f (of_family f source) (of_family f destination)].

Definition statements (rule : FirewallRule) (groups : GroupsById) : list Statement :=
  let source := _address_values_by_family (_rule_address_value (fr_source rule) groups) in
  let destination := _address_values_by_family (_rule_address_value (destination rule) groups) in
  if no_items source && no_items destination then [statement rule V4 [] []]
  else family_statement rule source destination V4 ++ family_statement rule source destination V6.

(** An address of a rule that can be rendered: "any", or a list of addresses. *)
Definition renderable_address (groups : GroupsById) (address : pystr) : Prop :=
  let value := _rule_address_value address groups in
  value = ANY \/ (_split_address_values value <> [] /\ items_ok (_split_address_values value)).

Definition renderable_rule (groups : GroupsById) (rule : FirewallRule) : Prop :=
  renderable_address groups (fr_source rule) /\ renderable_address groups (destination rule).

(** The values by family. *)
Lemma family_values_items f items v4 v6 x :
  items_ok items ->
  x ∈ of_family f (family_values items v4 v6) <-> x ∈ of_family f (v4, v6) \/ (x ∈ items /\ version <$> ip_network x = Some f).
Proof.
  intros Hok. revert v4 v6. induction Hok as [|i items [Hi (n&Hn)] _ IH]; intros v4 v6; cbn [family_values].
  { rewrite elem_of_nil. tauto. }
  rewrite bool_decide_eq_false_2 by (intros ->; by vm_compute in Hn). rewrite Hn. cbn [fmap option_fmap option_map].
  rewrite elem_of_cons. destruct (version n) eqn:Ev; rewrite IH; destruct f; cbn [of_family fst snd]; rewrite ?append_new_elem;
    (destruct (decide (x = i)) as [->|Hne]; [rewrite Hn; cbn; rewrite Ev|]; intuition congruence).
Qed.

Lemma values_by_family_any : _address_values_by_family ANY = ([], []).
Proof.
  unfold _address_values_by_family. rewrite split_values_ascii by by repeat constructor. done.
Qed.

(** A side of a rule: what it asks of an address, by families. *)
Definition side (items : list pystr * list pystr) (f : Family) (a : Address) : bool :=
  no_items items || (bool_decide (family a = f) && in_items (of_family f items) a).

Lemma holds_items_part {A} `{EqDecision A} p (m : list A -> Match) items :
  forallb (holds p) (items_part m items) = bool_decide (items = []) || holds p (m items).
Proof. destruct items; cbn; [done|]. by rewrite andb_true_r. Qed.

Lemma no_items_family items f : no_items items = true -> of_family f items = [].
Proof. destruct items as [[] []], f; try done. Qed.

Lemma side_lacks items f a : no_items items = false -> of_family f items = [] -> side items f a = false.
Proof. intros Hn Hf. unfold side. rewrite Hn, Hf. cbn. by rewrite andb_false_r. Qed.

Lemma side_has items f a :
  (no_items items = true \/ of_family f items <> []) ->
  side items f a = bool_decide (of_family f items = []) || (bool_decide (family a = f) && in_items (of_family f items) a).
Proof.
  intros Hi. unfold side. destruct (no_items items) eqn:En.
  - by rewrite (no_items_family _ f En).
  - destruct Hi as [?|Hi]; [done|]. by rewrite (bool_decide_eq_false_2 _ Hi).
Qed.

Lemma family_statement_applies rule source destination f p :
  no_items source && no_items destination = false ->
  existsb (applies p) (family_statement rule source destination f) =
    forallb (holds p) (interface_part rule) && (side source f (saddr p) && (side destination f (daddr p) && forallb (holds p) (port_part rule))).
Proof.
  intros Hno. unfold family_statement.
  destruct (no_items source) eqn:Es, (no_items destination) eqn:Ed; try done; cbn [negb andb orb].
  all: repeat case_bool_decide; cbn [negb andb orb existsb];
    try (match goal with
         | E : no_items ?i = false, F : of_family _ ?i = [] |- _ => rewrite (side_lacks i f _ E F)
         end; cbn; by rewrite ?andb_false_r).
  all: unfold applies, statement; cbn [matches existsb]; rewrite orb_false_r, !forallb_app, !holds_items_part; cbn [holds];
    rewrite !side_has by auto; done.
Qed.

(** The side of a value is what the value asks of an address. *)
Lemma value_side groups address a :
  renderable_address groups address ->
  let value := _rule_address_value address groups in
  side (_address_values_by_family value) (family a) a = address_matches value a.
Proof.
  intros Hr value. unfold address_matches. unfold renderable_address in Hr. fold value in Hr.
  destruct Hr as [->|[Hne Hok]]; [by rewrite values_by_family_any|].
  assert (value <> ANY) as Hany.
  { intros ->. rewrite split_values_ascii in Hok by by repeat constructor. apply Forall_cons in Hok as [[_ (n&Hn)] _]. by vm_compute in Hn. }
  rewrite (bool_decide_eq_false_2 _ Hany). cbn [orb]. unfold _address_values_by_family.
  pose proof (fun f x => family_values_items f (_split_address_values value) [] [] x Hok) as Hx.
  set (items := family_values (_split_address_values value) [] []) in *. unfold side.
  replace (no_items items) with false.
  - rewrite bool_decide_eq_true_2 by done. cbn [orb andb]. apply eq_true_iff_eq. unfold in_items. rewrite !existsb_exists.
    split; intros (x&Hin&E); exists x; (split; [|done]); apply list_elem_of_In; apply list_elem_of_In in Hin.
    + apply Hx in Hin as [Hin|[Hin _]]; [|done].
      destruct (family a); by apply not_elem_of_nil in Hin.
    + apply Hx. right. split; [done|]. destruct (ip_network x) as [n|]; [|done]. unfold in_network in E.
      apply andb_true_iff in E as [E _]. apply bool_decide_eq_true in E. cbn. by rewrite E.
  - symmetry. apply not_true_iff_false. intros Hno. destruct (_split_address_values value) as [|i l] eqn:El; [done|].
    apply Forall_cons in Hok as [[_ (n&Hn)] _]. apply (not_elem_of_nil i). rewrite <- (no_items_family items (version n) Hno).
    apply Hx. right. split; [by left|]. by rewrite Hn.
Qed.

Lemma side_other items f a : family a <> f -> side items f a = no_items items.
Proof. intros Hf. unfold side. rewrite (bool_decide_eq_false_2 _ Hf). cbn. by rewrite orb_false_r. Qed.

Lemma interface_part_holds rule p :
  forallb (holds p) (interface_part rule) && forallb (holds p) (port_part rule) = interface_matches rule p && port_matches rule p.
Proof.
  unfold interface_part, port_part, interface_matches, port_matches. rewrite !forallb_app.
  set (protocol := normal_name (protocol rule)).
  rewrite !holds_items_part.
  replace (holds p ((if bool_decide (direction rule = str "output") then OifName else IifName) (strip is_space (interface_name rule))))
    with (bool_decide ((if bool_decide (direction rule = str "output") then oifname p else iifname p) = strip is_space (interface_name rule)))
    by by destruct (bool_decide (direction rule = _)).
  cbn [holds].
  rewrite <- !andb_assoc. do 2 f_equal. case_bool_decide as Hicmp.
  - rewrite Hicmp. cbn. by rewrite !andb_true_r.
  - cbn [forallb andb]. destruct (mem protocol _); [|done]. destruct (strip is_space (destination_port rule)); cbn; by rewrite ?andb_true_r.
Qed.

(** The statements of a rule apply to exactly the packets of the rule. *)
Lemma statements_meaning rule groups p :
  renderable_rule groups rule -> family (saddr p) = family (daddr p) ->
  existsb (applies p) (statements rule groups) = rule_applies groups rule p.
Proof.
  intros [Hs Hd] Hf. unfold statements, rule_applies. rewrite <- interface_part_holds.
  rewrite <- (value_side _ _ (saddr p) Hs), <- (value_side _ _ (daddr p) Hd).
  set (source := _address_values_by_family (_rule_address_value (fr_source rule) groups)).
  set (destination := _address_values_by_family (_rule_address_value (destination rule) groups)).
  destruct (no_items source && no_items destination) eqn:Eno.
  - apply andb_true_iff in Eno as [E1 E2]. unfold side. rewrite E1, E2. cbn. unfold applies, statement. cbn [matches].
    rewrite forallb_app. cbn [items_part app]. by rewrite orb_false_r, !andb_true_r.
  - rewrite existsb_app, !family_statement_applies by done. rewrite <- Hf.
    assert (forall f, f <> family (saddr p) -> side source f (saddr p) && side destination f (daddr p) = false) as Hother.
    { intros f Hne. rewrite !side_other by congruence. done. }
    destruct (family (saddr p)) eqn:Efam.
    + specialize (Hother V6 ltac:(done)). destruct (forallb (holds p) (interface_part rule)), (forallb (holds p) (port_part rule)),
        (side source V4 (saddr p)), (side destination V4 (daddr p)), (side source V6 (saddr p)), (side destination V6 (daddr p)); done.
    + specialize (Hother V4 ltac:(done)). destruct (forallb (holds p) (interface_part rule)), (forallb (holds p) (port_part rule)),
        (side source V4 (saddr p)), (side destination V4 (daddr p)), (side source V6 (saddr p)), (side destination V6 (daddr p)); done.
Qed.

(* ------------------------------------------------------------------ *)
(** ** The text of a rule *)

(** Items of one family. *)
Definition items_of (f : Family) (items : list pystr) : Prop :=
  items_ok items /\ Forall (fun i => version <$> ip_network i = Some f) items.

Lemma render_ports_set raw : _render_ports raw = print_set (stripped_parts is_separator raw).
Proof. unfold _render_ports. by destruct (stripped_parts is_separator raw) as [|a [|b l]]. Qed.

Lemma joined_value f items groups :
  items_of f items -> _rule_address_value (joined_or_any items) groups = joined_or_any items.
Proof.
  intros [Hok _]. unfold joined_or_any. destruct items as [|i items]; [apply rule_address_any|]. by apply rule_address_items.
Qed.

Lemma address_part_items f items dir groups :
  items_of f items ->
  address_part dir (_rule_address_value (joined_or_any items) groups) =
    Ok (match items with [] => [] | _ => [print_family f ++ str " " ++ dir ++ str " " ++ print_set items] end).
Proof.
  intros Hi. rewrite (joined_value f) by done. destruct Hi as [Hok Hv]. unfold address_part, joined_or_any.
  destruct items as [|i items]; [done|]. pose proof (items_ok_plain _ Hok) as Hp.
  rewrite !bool_decide_eq_false_2; [cbn [orb]| |].
  - unfold _address_expr. rewrite split_values_join by done. apply Forall_cons in Hv as [Hv _].
    destruct (ip_network i) as [n|]; [|done]. cbn in Hv. injection Hv as <-. destruct (version n), items; done.
  - intros E. apply (f_equal _split_address_values) in E. rewrite split_values_join in E by done.
    rewrite split_values_ascii in E by by repeat constructor. injection E as -> ->.
    apply Forall_cons in Hok as [[_ (n&Hn)] _]. by vm_compute in Hn.
  - intros E. apply (f_equal _split_address_values) in E. rewrite split_values_join in E by done. done.
Qed.

(** The texts of the parts of a statement. *)
Lemma print_items_part {A} (m : list A -> Match) items :
  map print_match (items_part m items) = match items with [] => [] | _ => [print_match (m items)] end.
Proof. by destruct items. Qed.

Lemma render_statement rule f src dst groups :
  items_of f src -> items_of f dst ->
  _render_rule (with_addresses rule (joined_or_any src) (joined_or_any dst)) groups =
    Ok (print_statement (statement rule f src dst)).
Proof.
  intros Hs Hd. unfold _render_rule. cbn [fr_source destination with_addresses].
  rewrite (address_part_items f src), (address_part_items f dst) by done. cbn [mbind res_bind]. f_equal.
  unfold print_statement, statement. cbn [matches verdict remark]. f_equal.
  cbn [routing_destination_interface interface_name direction protocol destination_port action fr_name with_addresses].
  rewrite render_ports_set. unfold interface_part, port_part. rewrite !map_app, !print_items_part, <- !app_assoc.
  destruct (routing_destination_interface rule), (strip is_space (interface_name rule)), (bool_decide (direction rule = str "output")),
    (bool_decide (normal_name (protocol rule) = str "icmp")), src, dst, (mem (normal_name (protocol rule)) _),
    (strip is_space (destination_port rule)); reflexivity.
Qed.

Lemma value_items groups address f :
  renderable_address groups address -> items_of f (of_family f (_address_values_by_family (_rule_address_value address groups))).
Proof.
  intros [->|[_ Hok]]; [rewrite values_by_family_any; destruct f; by repeat constructor|].
  unfold _address_values_by_family. set (value := _rule_address_value address groups) in *.
  pose proof (fun x => family_values_items f (_split_address_values value) [] [] x Hok) as Hx.
  set (items := of_family f _) in *. unfold items_ok in Hok. rewrite Forall_forall in Hok.
  split; apply Forall_forall; intros x [Hin|[Hin Hv]]%Hx; try (destruct f; by apply not_elem_of_nil in Hin); [by apply Hok|done].
Qed.

Lemma no_items_any groups address :
  renderable_address groups address -> no_items (_address_values_by_family (_rule_address_value address groups)) = true ->
  _rule_address_value address groups = ANY.
Proof.
  intros [->|[Hne Hok]] Hno; [done|]. exfalso. unfold _address_values_by_family in Hno.
  set (value := _rule_address_value address groups) in *.
  destruct (_split_address_values value) as [|i l] eqn:El; [done|]. pose proof Hok as [[_ (n&Hn)] _]%Forall_cons.
  apply (not_elem_of_nil i). rewrite <- (no_items_family _ (version n) Hno).
  apply family_values_items; [done|]. right. split; [by left|]. by rewrite Hn.
Qed.

Lemma render_rule_values rule src dst groups :
  _rule_address_value src groups = _rule_address_value (fr_source rule) groups ->
  _rule_address_value dst groups = _rule_address_value (destination rule) groups ->
  _render_rule rule groups = _render_rule (with_addresses rule src dst) groups.
Proof. intros Hs Hd. unfold _render_rule. cbn [fr_source destination with_addresses]. by rewrite Hs, Hd. Qed.

(** The variants by family. *)
Definition family_variant (rule : FirewallRule) (src dst : list pystr * list pystr) (f : Family) : list FirewallRule :=
  let lacks items := bool_decide (of_family f items = []) in
  if (lacks src && lacks dst) || (negb (no_items src) && lacks src) || (negb (no_items dst) && lacks dst)
  then [] else [with_addresses rule (joined_or_any (of_family f src)) (joined_or_any (of_family f dst))].

Lemma variants_by_family rule groups :
  _rule_family_variants rule groups =
  let src := _address_values_by_family (_rule_address_value (fr_source rule) groups) in
  let dst := _address_values_by_family (_rule_address_value (destination rule) groups) in
  if no_items src && no_items dst then [rule] else family_variant rule src dst V4 ++ family_variant rule src dst V6.
Proof.
  unfold _rule_family_variants. cbn zeta.
  destruct (_address_values_by_family (_rule_address_value (fr_source rule) groups)) as [[|a s4] [|b s6]],
    (_address_values_by_family (_rule_address_value (destination rule) groups)) as [[|c d4] [|d d6]]; reflexivity.
Qed.

Lemma render_family rule groups f src dst :
  items_of f (of_family f src) -> items_of f (of_family f dst) ->
  mapM (fun variant => _render_rule variant groups) (family_variant rule src dst f) = Ok (map print_statement (family_statement rule src dst f)).
Proof.
  intros Hs Hd. unfold family_variant, family_statement. cbn zeta. destruct (_ || _); [done|].
  cbn [mapM]. by rewrite (render_statement rule f).
Qed.

(** A rule is rendered to the text of its statements. *)
Lemma render_variants rule groups :
  renderable_rule groups rule ->
  mapM (fun variant => _render_rule variant groups) (_rule_family_variants rule groups) = Ok (map print_statement (statements rule groups)).
Proof.
  intros [Hs Hd]. rewrite variants_by_family. unfold statements. cbn zeta.
  destruct (no_items _ && no_items _) eqn:Eno.
  - apply andb_true_iff in Eno as [Es Ed]. apply no_items_any in Es, Ed; [|done..]. cbn [mapM].
    rewrite (render_rule_values rule ANY ANY) by by rewrite rule_address_any.
    by rewrite (render_statement rule V4 [] []) by by repeat constructor.
  - rewrite map_app. apply res_mapM_Ok, Forall2_app; apply res_mapM_Ok; by apply render_family; apply value_items.
Qed.
End Meaning.
