(* ===== verification/StoreProps.v ===== *)
(** The properties of the key store ([src/atlaso/app/kmip/store.py]), each with an
    instance at a concrete store where it has hypotheses. *)

From S2P Require Import Prelude Utf8 PyText Uuid Json Base64 Sha256 World Store StoreSpec StoreInv StoreOpen StoreLive StoreBind Demo.
From stdpp Require Import relations.
Open Scope Z_scope.

Section Rollback.
Context `{Aead} {laws : AeadLaws}.
Context (secrets_key : pystr) (mk K : bytes) (recovery : option bytes).

(** The files are those of [w] with the database [d], and nothing was opened. *)
Definition refused {A} (d : Db) (w : World) (r : res A) (w' : World) : Prop :=
  is_ok r = false /\ kek_file w' = kek_file w /\ database w' = Some d.

(** [_verify_store_commitment] refuses a database that the envelope does not commit to. *)
Lemma verify_refuses e d c w :
  self_read_only (self w) = false -> self_envelope (self w) = e -> conn w = d ->
  commitment e <> [] -> pending_commitment e = None ->
  _store_commitment d = Ok c -> c <> commitment e ->
  _verify_store_commitment w
    = (Raise (KeyStoreError "KMIP operational store rollback or integrity validation failed."), w).
Proof.
  intros Hro He Hc Hne Hp Hcd Hcc. unfold _verify_store_commitment, mbind, ST_bind, gets, lift.
  rewrite Hc, Hcd, Hro, He, Hp.
  rewrite !bool_decide_eq_false_2 by done. done.
Qed.

Lemma wp_initialize_refuses e d c w :
  db_ok K d -> self_read_only (self w) = false -> self_envelope (self w) = e -> database w = Some d ->
  commitment e <> [] -> pending_commitment e = None -> _store_commitment d = Ok c -> c <> commitment e ->
  wp _initialize (refused d w) w.
Proof.
  intros Hdb Hro He Hd Hne Hp Hc Hcc. unfold _initialize. apply wp_bind, wp_gets. rewrite Hro.
  assert (forall x w', kek_file w' = kek_file w -> database w' = Some d -> refused d w (@Raise unit x) w') as Hr
    by done.
  apply wp_bind. unfold _connect. apply wp_bind, wp_io; intros f; [|by apply Hr..].
  apply wp_bind, (wp_rollback _ _ d); [done|]. apply wp_bind, wp_catch, wp_bind.
  unfold execute_schema. apply wp_bind, wp_io; intros f1; cbn [is_Exception].
  2: { apply wp_bind, (wp_rollback _ _ d); [done|]. apply wp_lift. by apply Hr. }
  2: { by apply Hr. }
  apply wp_bind, wp_gets, wp_bind, wp_modify, wp_modify. cbn [set_faults set_conn database]. rewrite Hd. cbn [default from_option id].
  apply wp_bind, wp_gets. cbn [conn set_conn].
  pose proof (with_schema_ok K d Hdb) as Hws.
  apply wp_bind, (wp_schema_check K d); [by rewrite Hws|done|done|].
  intros t _. rewrite Hws. eapply wp_eq; [by apply (verify_refuses e d c)|]. cbn [is_Exception].
  apply wp_bind, (wp_rollback _ _ d); [done|]. by apply wp_lift, Hr.
Qed.

Lemma wp_init_refuses e d c w :
  custody secrets_key mk recovery -> recovery_master w = recovery -> file_holds mk e w -> database w = Some d ->
  db_ok K d -> commitment e <> [] -> pending_commitment e = None ->
  _store_commitment d = Ok c -> c <> commitment e ->
  wp (__init__ secrets_key false) (refused d w) w.
Proof.
  intros Hcu Hrec Hf Hdb Hok Hne Hp Hc Hcc.
  unfold __init__. apply wp_bind, wp_gets, wp_bind, wp_lift. cbn [andb raise_if].
  apply wp_bind, wp_gets, wp_bind, wp_gets, wp_bind, wp_lift.
  pose proof Hf as (ct&Hct&Ho). rewrite Hdb, Hct. cbn.
  apply wp_bind, wp_io; intros f; [|done..].
  apply wp_bind, (wp_load_kek secrets_key mk recovery e); [done|done|done|done|].
  intros f1. apply wp_bind, wp_modify.
  eapply wp_mono; [by eapply (wp_initialize_refuses e d c)|]. done.
Qed.
End Rollback.

(* ------------------------------------------------------------------ *)
(** ** Properties *)

Section Props.
Context `{Aead} {laws : AeadLaws}.
Context (mk K : bytes) (recovery : option bytes).
Abbreviation ready := (ready mk K recovery).
Abbreviation store_inv := (store_inv mk K recovery).

(** What creating a key in [d] gives: a new key under a fresh identifier, with the
    metadata asked for and 32 bytes of material, which its provider reads back. *)
Definition create_outcome (p : pystr) (name : option pystr) (attributes : list (pystr * pystr)) (d : Db)
    (w : World) : Prop :=
  exists m plaintext d' w',
    create_key p name attributes w = (Ok m, w') /\ created p name attributes m /\
    contents K d !! key_of m = None /\ length plaintext = 32%nat /\
    ready d' w' /\ contents K d' = <[key_of m := (m, plaintext)]> (contents K d) /\
    (get_key p (sk_key_id m) w').1 = Ok (m, plaintext).

Lemma lookup_created p name attributes m plaintext d :
  created p name attributes m -> contents K d !! key_of m = Some (m, plaintext) ->
  lookup_key K d p (sk_key_id m) = Ok (m, plaintext).
Proof.
  intros [Hp Hk _ _ _ _ _ _] Hc. unfold lookup_key. rewrite Hp, (validated_uuid_canonical _ _ Hk).
  cbn [mbind res_bind]. unfold key_of in Hc. by rewrite Hc.
Qed.

(** A mutation that returned. *)
Lemma mutated_Ok {A} d g (P : Db -> A -> Prop) a w' :
  faults w' = [] -> mutated mk K recovery d g P (Ok a) w' -> exists d', P d' a /\ ready d' w'.
Proof.
  intros Hf [[_ ?]|(d'&a'&HP&Hi&Hr)]; [done|]. destruct (Hr eq_refl) as ([= ->]&Hs&_). by exists d'.
Qed.

Lemma create_get p name attributes d w :
  ready d w -> length mk = 32%nat -> small (generation (self_envelope (self w)) + 1) ->
  is_ok (_validated_uuid p "provider_id must be a UUID.") = true ->
  is_ok (_validated_custom_attributes (json_attributes attributes)) = true -> name_ok name ->
  (forall provider, contents K d !! (provider, next_key w) = None) ->
  create_outcome p name attributes d w.
Proof.
  intros Hr Hmk Hg Hp Hat Hn Hnew.
  pose proof (live_create_key mk K recovery p name attributes d w (rd_faults _ _ _ _ _ Hr) Hmk
    (rd_inv _ _ _ _ _ Hr) (rd_settled _ _ _ _ _ Hr) Hg Hp Hat Hn Hnew) as Hl.
  eapply live_wp in Hl; [|apply (wp_create_key mk K recovery p name attributes d), Hr].
  apply live_run in Hl as (m&w'&E&Hf&_&Hm). apply mutated_Ok in Hm as (d'&(Hcr&Hnone&pt&Hpt&Hc)&Hr'); [|done].
  exists m, pt, d', w'. split_and!; try done. rewrite (get_key_exact mk K recovery _ _ d') by done. cbn [fst].
  eapply lookup_created; [done|]. by rewrite Hc, lookup_insert_eq.
Qed.

(** Create, then get: on a settled store with no fault ahead, [create_key] with valid
    arguments and a fresh identifier returns; exactly that key is added, with the metadata
    asked for; and [get_key] by the same provider returns it with its 32 bytes. *)
Theorem store_create_get p name attributes d w :
  ready d w -> length mk = 32%nat -> small (generation (self_envelope (self w)) + 1) ->
  is_ok (_validated_uuid p "provider_id must be a UUID.") = true ->
  is_ok (_validated_custom_attributes (json_attributes attributes)) = true -> name_ok name ->
  (forall provider, contents K d !! (provider, next_key w) = None) ->
  create_outcome p name attributes d w.
Proof. apply create_get. Qed.

(** A method is atomic with the effect [P]: it returns with the effect, or raises without
    any or with the whole of it; and the invariant holds of the outcome. *)
Definition atomic {A : Type} (method : M A) (P : Db -> A -> Prop) (d : Db) (w : World) : Prop :=
  exists d', service_inv mk K recovery d' (outcome (method w)) /\
    match (method w).1 with Ok a => P d' a | Raise _ => d' = d \/ exists a, P d' a end.

Lemma mutated_atomic {A : Type} (method : M A) P d g w : wp method (mutated mk K recovery d g P) w -> atomic method P d w.
Proof.
  unfold wp, atomic. destruct (method w) as [r w'] eqn:E. intros [[Hi Hr]|(d'&a&HP&Hi&Hr)]; [exists d|exists d'].
  - split; [by apply store_inv_service|]. destruct r; [done|by left].
  - split; [by apply store_inv_service|]. destruct r as [x|e]; [by destruct (Hr eq_refl) as [[= ->] _]|right; by exists a].
Qed.

(** C3. Every method is atomic under every pattern of I/O faults and power failures: it
    returns having done exactly what is asked of it, or raises having done nothing or all
    of it.  [create_key] adds one new key of 32 bytes with the metadata asked for,
    [activate_key] changes the state of the one key it names, the others change nothing and
    answer from the map of keys; and the invariant holds again, that of the files if the
    machine stopped. *)
Theorem store_calls_atomic d w : store_inv d w ->
  (forall p name attributes, atomic (create_key p name attributes) (key_created K d p name attributes) d w) /\
  (forall p k, atomic (activate_key p k) (key_activated K d p k) d w) /\
  (forall p k, atomic (get_key p k) (fun d' x => d' = d /\ lookup_key K d p k = Ok x) d w) /\
  (forall p k, atomic (get_metadata p k) (fun d' m => d' = d /\ exists plaintext, lookup_key K d p k = Ok (m, plaintext)) d w) /\
  (forall p state name limit, atomic (locate_keys p state name limit)
     (fun d' ids => d' = d /\ exists provider, _validated_uuid p "provider_id must be a UUID." = Ok provider /\ located_ids K d provider state name limit ids) d w) /\
  (forall ps, atomic (lifecycle_counts ps)
     (fun d' counts => d' = d /\ exists providers,
        Forall2 (fun p q => _validated_uuid p "provider_id must be a UUID." = Ok q) ps providers /\ counted K d providers counts) d w).
Proof.
  intros Hi. split_and!; intros; eapply mutated_atomic;
    [by apply wp_create_key|by apply wp_activate_key|by apply wp_get_key|by apply wp_get_metadata|by apply wp_locate_keys|by apply wp_lifecycle_counts].
Qed.

(** C1. Keys survive: along every run of a service, with calls, faults, stops, power
    failures at any I/O step and restarts in any order, the files stay sound and no key is
    lost or changed in its material. *)
Theorem store_persistence secrets_key s s' d :
  custody secrets_key mk recovery -> rtc (step secrets_key) s s' -> service_inv mk K recovery d s ->
  exists d', service_inv mk K recovery d' s' /\ evolves K d d'.
Proof. apply run_steps_service. Qed.

(** Reading is looking the key up: on a settled store [get_key] and [get_metadata]
    return the material and metadata stored for that provider and identifier, or the error
    of the first check that fails, and change neither the files nor the store object. *)
Theorem store_get_exact p k d w :
  ready d w ->
  get_key p k w = (lookup_key K d p k, set_conn d false w) /\
  get_metadata p k w = (fst <$> lookup_key K d p k, set_conn d false w).
Proof. intros Hr. split; [by apply (get_key_exact mk K recovery)|by apply (get_metadata_exact mk K recovery)]. Qed.

(** What activating the key [m] with material [plaintext] gives. *)
Definition activate_outcome (p k : pystr) (m : StoredKey) (plaintext : bytes) (d : Db) (w : World) : Prop :=
  exists m' d' w',
    activate_key p k w = (Ok m', w') /\ ready d' w' /\
    contents K d' = <[key_of m := (m', plaintext)]> (contents K d) /\
    (m' = m /\ sk_state m = Active \/ sk_state m = Pre_Active /\ exists at_, m' = activated m at_) /\
    (activate_key p k w').1 = Ok m'.

(** Activation: on a settled store with no fault ahead, [activate_key] of a stored key
    returns; the key is then Active with an activation time and the same material, all
    other keys are untouched, and activating it again changes nothing. *)
Theorem store_activate p k m plaintext d w :
  ready d w -> length mk = 32%nat -> small (generation (self_envelope (self w)) + 1) ->
  lookup_key K d p k = Ok (m, plaintext) -> short m -> activate_outcome p k m plaintext d w.
Proof.
  intros Hr Hmk Hg Hl Hs.
  pose proof (live_activate_key mk K recovery p k m plaintext d w Hr Hmk Hg Hl Hs) as Hlive.
  eapply live_wp in Hlive; [|apply (wp_activate_key mk K recovery p k d), Hr].
  apply live_run in Hlive as (m'&w'&E&Hf&_&Hm).
  apply mutated_Ok in Hm as (d'&(m0&pt0&Hl0&Hcase)&Hr'); [|done].
  rewrite Hl in Hl0. injection Hl0 as <- <-.
  destruct (lookup_key_Ok K d p k m plaintext (si_db _ _ _ _ _ (rd_inv _ _ _ _ _ Hr)) Hl)
    as (r&_&_&Hc&_&_&_&_&_).
  exists m', d', w'. split_and!; try done.
  - destruct Hcase as [(Ha&->&->)|(Ha&at_&->&Hct)]; [by rewrite insert_id|done].
  - destruct Hcase as [(Ha&->&->)|(Ha&at_&->&Hct)]; [by left|right; eauto].
  - apply (activate_active mk K recovery p k m' plaintext d'); [done| |].
    + unfold lookup_key in *. destruct (_validated_uuid p _) as [pr|]; [|done].
      destruct (_validated_uuid k _) as [key|]; [|done]. cbn [mbind res_bind] in *.
      destruct (contents K d !! (pr, key)) as [x|] eqn:Ex; [|done]. injection Hl as ->.
      assert (key_of m = (pr, key)) as Hk.
      { by apply (contents_keys K d (si_db _ _ _ _ _ (rd_inv _ _ _ _ _ Hr))) in Ex as [? _]. }
      destruct Hcase as [(Ha&->&->)|(Ha&at_&->&Hct)]; [by rewrite Ex|].
      change (key_of (activated m at_)) with (key_of m) in Hct. by rewrite Hct, Hk, lookup_insert_eq.
    + by destruct Hcase as [(Ha&->&->)|(Ha&at_&->&Hct)].
Qed.

(** Locating: on a settled store a valid query returns the identifiers of exactly the
    provider's own keys with the state and name asked for, in the order of creation time
    and identifier, cut off at the limit. *)
Theorem store_locate p state name limit provider d w :
  ready d w -> _validated_uuid p "provider_id must be a UUID." = Ok provider ->
  state ∈ [None; Some Pre_Active; Some Active] -> 1 <= limit <= 1024 ->
  bad_name name = false -> bind_text name = Ok tt ->
  exists ids, locate_keys p state name limit w = (Ok ids, set_conn d false w) /\
    located_ids K d provider state name limit ids.
Proof. apply (locate_keys_exact mk K recovery). Qed.

(** Counting: on a settled store [lifecycle_counts] returns, for every provider asked
    for and every provider that has a key, the numbers of its Pre-Active and Active keys
    and their total. *)
Theorem store_counts ids providers d w :
  ready d w -> Forall2 (fun p q => _validated_uuid p "provider_id must be a UUID." = Ok q) ids providers ->
  exists counts, lifecycle_counts ids w = (Ok counts, set_conn d false w) /\ counted K d providers counts.
Proof. apply (lifecycle_counts_exact mk K recovery). Qed.

(** C36. Reopening: with the right secret, sound files and no fault ahead, the constructor
    returns, finishing a transaction that was interrupted, and the store then holds the
    keys the files held. *)
Theorem store_reopen secrets_key d w :
  custody secrets_key mk recovery -> disk_ok mk K recovery d w -> faults w = [] ->
  (forall e, file_holds mk e w -> small (generation e + 1)) ->
  exists w', __init__ secrets_key false w = (Ok tt, w') /\
    ready (with_schema d) w' /\ contents K (with_schema d) = contents K d.
Proof.
  intros Hcu Hd Hf Hg. pose proof (live_init mk K recovery secrets_key d w Hcu Hd Hf Hg) as Hl.
  apply live_run in Hl as ([]&w'&E&_&Hr). exists w'. split_and!; [done|done|apply contents_with_schema].
Qed.

(** C28. Rollback is detected: when the sealed envelope is settled on the database [d], the
    constructor refuses every other sound database [d'] in its place, an older snapshot
    for one, under every pattern of faults, and leaves the files alone; provided that
    SHA-256 does not collide on the documents of these two databases. *)
Theorem store_rollback_detected secrets_key e d d' w :
  custody secrets_key mk recovery -> recovery_master w = recovery -> file_holds mk e w ->
  _store_commitment d = Ok (commitment e) -> pending_commitment e = None ->
  db_ok K d -> db_ok K d' -> d' <> d -> databases_told_apart d d' -> database w = Some d' ->
  wp (__init__ secrets_key false) (refused d' w) w.
Proof.
  intros Hcu Hrec Hf Hc Hp Hd Hd' Hne Hfree Hdb.
  destruct (commitment_total K d' Hd') as (c&Hc').
  destruct (decide (c = commitment e)) as [->|Hcc].
  - by rewrite (commitment_binding K d d' _ Hd Hd' Hfree Hc Hc') in Hne.
  - eapply (wp_init_refuses secrets_key mk K recovery e d' c); try done.
    by eapply digest_nonempty, store_commitment_digest.
Qed.

(** A new store: with no files yet, a usable secret and no fault ahead, the
    constructor returns an empty store whose master key comes from the secret. *)
Theorem store_open_new secrets_key w :
  _master_key secrets_key = Ok mk -> faults w = [] ->
  kek_file w = None -> database w = None -> recovery_master w = None ->
  exists K' w', __init__ secrets_key false w = (Ok tt, w') /\ length K' = 32%nat /\
    StoreLive.ready mk K' None (with_schema empty_db) w' /\ contents K' (with_schema empty_db) = ∅.
Proof.
  intros Hm Hf Hk Hd Hr. pose proof (live_init_fresh secrets_key mk w Hm Hf Hk Hd Hr) as Hl.
  apply live_run in Hl as ([]&w'&E&_&Hready). eexists _, w'. split_and!; [done|apply take_pad_length|done|done].
Qed.

(** The KEK envelope round-trips: an envelope the store writes can be sealed under
    every 32-byte master key and 12-byte nonce while its generation is below 2^64, and
    opening the file contents gives back exactly the key, generation, commitment and
    pending transaction. *)
Theorem envelope_roundtrip e nonce :
  length mk = 32%nat -> length nonce = 12%nat -> writable e -> small (generation e) ->
  exists contents, seal_envelope mk e nonce = Ok contents /\ open_envelope mk contents = Ok e.
Proof.
  intros Hmk Hn Hw Hg. destruct (seal_envelope_total mk e nonce Hmk Hn Hw Hg) as (ct&E).
  exists ct. split; [done|by eapply open_seal].
Qed.

(** The metadata of a key is authenticated: when a row decrypts, changing any of its
    metadata columns (to other valid text) makes decryption fail with an integrity error,
    whatever the ciphertext. *)
Theorem row_tampering_detected r r' m m' plaintext :
  _decrypt_row K r = Ok (m, plaintext) -> meta_ok m ->
  row_aad_json r' = row_aad_json r -> _metadata r' = Ok m' -> meta_ok m' -> m' <> m ->
  _decrypt_row K r' = Raise (KeyStoreError "KMIP key metadata integrity validation failed.").
Proof.
  intros E Hm Hj Em' Hm' Hne. unfold _decrypt_row in *. rewrite Em'. cbn [mbind res_bind].
  apply bind_Ok in E as (m0&Em&E). apply bind_Ok in E as (aad&Ea&E). apply bind_Ok in E as (b&Eb&E).
  apply bind_Ok in E as ([]&Eq&E). apply raise_if_Ok, negb_false_iff, bool_decide_eq_true in Eq. subst b.
  assert (m0 = m) as -> by (res_inv; done).
  destruct (canonical_aad_ok m' Hm') as [Ea' _]. rewrite Hj, Eb, Ea'. cbn [mbind res_bind].
  rewrite bool_decide_eq_false_2; [done|]. intros ->.
  by apply Hne, (canonical_aad_inj m' m _ Hm' Hm Ea').
Qed.
End Props.

(** Custom attributes are normalised: validation returns distinct supported names with
    short values in name order, is idempotent, and does not depend on the order given. *)
Theorem attributes_normalised pairs pairs' l :
  _validated_custom_attributes pairs = Ok l -> pairs ≡ₚ pairs' ->
  valid_attributes l /\ _validated_custom_attributes (json_attributes l) = Ok l /\
  _validated_custom_attributes pairs' = Ok l.
Proof.
  intros E Hp. pose proof (validated_attributes_Ok _ _ E) as Hl. split_and!; [done|by apply validated_attributes_idem|].
  unfold _validated_custom_attributes in *. apply bind_Ok in E as (?&Elen&E). apply bind_Ok in E as (n&En&E).
  injection E as <-. apply normalize_attributes_Ok in En as (new&->&->&Hnd&Hs&Hv); [|constructor].
  cbn [app] in *. symmetry in Hp. apply Permutation_map_inv in Hp as (new'&->&Hp).
  fold (json_attributes new'). apply raise_if_Ok in Elen. rewrite json_attributes_length in *.
  assert (zlen new' = zlen new) as -> by (unfold zlen; by rewrite Hp).
  rewrite Elen. cbn [raise_if mbind res_bind].
  rewrite normalize_attributes_total by (cbn [app]; by rewrite <- Hp). cbn [mbind res_bind app].
  f_equal. apply sorted_items_unique; [by rewrite <- Hp|by rewrite Hp].
Qed.

(* ------------------------------------------------------------------ *)
(** ** Read-only stores *)

Section ReadOnly.
Context `{Aead}.
Context (kf : option bytes) (db : option Db).

(** The files are [kf] and [db], the store is read-only and has no transaction open. *)
Record untouched (w : World) : Prop := {
  ut_kek : kek_file w = kf;
  ut_database : database w = db;
  ut_read_only : self_read_only (self w) = true;
  ut_transaction : in_transaction w = false
}.

Definition keeps {A} (c : M A) : Prop := forall w, untouched w -> untouched (c w).2.

Lemma keeps_bind {A B} (c : M A) (k : A -> M B) : keeps c -> (forall a, keeps (k a)) -> keeps (c ≫= k).
Proof.
  intros Hc Hk w Hw. specialize (Hc w Hw). unfold mbind, ST_bind. destruct (c w) as [[a|e] w']; [by apply Hk|done].
Qed.

Lemma keeps_catch {A} cls (c : M A) h : keeps c -> (forall e, keeps (h e)) -> keeps (catch cls c h).
Proof.
  intros Hc Hh w Hw. specialize (Hc w Hw). unfold catch. destruct (c w) as [[a|e] w']; [done|].
  destruct (cls e); [by apply Hh|done].
Qed.

Lemma keeps_lift {A} (r : res A) : keeps (lift r).
Proof. by intros w. Qed.

Lemma keeps_gets {A} (f : World -> A) : keeps (gets f).
Proof. by intros w. Qed.

Lemma keeps_ret {A} (a : A) : keeps (mret a).
Proof. by intros w. Qed.

Lemma keeps_io e : keeps (io e).
Proof. intros w []. unfold io. destruct (faults w) as [|[] ?]; by split. Qed.

Lemma keeps_urandom n : keeps (urandom n).
Proof. intros w []. by split. Qed.

Lemma keeps_now : keeps now_isoformat.
Proof. intros w []. by split. Qed.

Lemma keeps_rollback : keeps rollback.
Proof. intros w []. by split. Qed.

Lemma keeps_commit : keeps commit.
Proof. intros w Hw. unfold commit, mbind, ST_bind, gets. by rewrite (ut_transaction w Hw). Qed.

(** What depends on the store being read-only. *)
Lemma keeps_if_read_only {A} (k : bool -> M A) :
  keeps (k true) -> keeps (gets (fun w => self_read_only (self w)) ≫= k).
Proof. intros Hk w Hw. unfold mbind, ST_bind, gets. rewrite (ut_read_only w Hw). by apply Hk. Qed.

Create HintDb keeps.
#[local] Hint Resolve keeps_bind keeps_catch keeps_lift keeps_gets keeps_ret keeps_io keeps_urandom keeps_now
  keeps_rollback keeps_commit : keeps.

Lemma keeps_connect {A} (body : M A) : keeps body -> keeps (_connect body).
Proof. intros Hb. unfold _connect. eauto 10 with keeps. Qed.

Lemma keeps_verify : keeps _verify_store_commitment.
Proof.
  unfold _verify_store_commitment. apply keeps_bind; [auto with keeps|]. intros d.
  apply keeps_bind; [auto with keeps|]. intros c. apply keeps_if_read_only. auto 10 with keeps.
Qed.
#[local] Hint Resolve keeps_connect keeps_verify : keeps.

Lemma keeps_verified_row p k : keeps (verified_row p k).
Proof. unfold verified_row. auto 10 with keeps. Qed.
#[local] Hint Resolve keeps_verified_row : keeps.

Lemma keeps_insert r (k : unit -> M StoredKey) : keeps (insert_row r ≫= k).
Proof.
  intros w Hw. unfold insert_row. unfold mbind, ST_bind, lift, gets. destruct (bind_text _); [|done].
  by rewrite (ut_read_only w Hw).
Qed.

Lemma keeps_update a b c d e f g (k : Z -> M StoredKey) : keeps (update_row a b c d e f g ≫= k).
Proof. intros w Hw. unfold update_row. unfold mbind, ST_bind, lift, gets. by rewrite (ut_read_only w Hw). Qed.
#[local] Hint Resolve keeps_insert keeps_update : keeps.

Lemma keeps_uuid4 : keeps uuid4.
Proof. unfold uuid4. auto with keeps. Qed.
#[local] Hint Resolve keeps_uuid4 : keeps.

Lemma keeps_create p n a : keeps (create_key p n a).
Proof. unfold create_key. repeat first [apply keeps_insert | apply keeps_connect | apply keeps_bind; [auto with keeps|intros ?]]. Qed.

Lemma keeps_activate p k : keeps (activate_key p k).
Proof.
  unfold activate_key. apply keeps_connect, keeps_bind; [auto with keeps|]. intros [m pt].
  case_decide; [auto with keeps|].
  repeat first [apply keeps_update | apply keeps_bind; [auto with keeps|intros ?]].
Qed.

Lemma outcome_state {A} (r : res A * World) : (outcome r).2 = r.2.
Proof. done. Qed.

(** A read-only store never writes: no call changes the KEK file or the database,
    under any pattern of faults. *)
Theorem read_only_untouched c w : untouched w -> untouched (run c w).2.
Proof.
  intros Hw. destruct c; cbn [run]; rewrite outcome_state.
  - by apply keeps_create.
  - by apply keeps_activate.
  - by apply keeps_connect; [apply keeps_verified_row|].
  - apply keeps_connect; [|done]. apply keeps_bind; [auto with keeps|]. intros [m pt]. auto with keeps.
  - assert (keeps (locate_keys provider_id state name limit)) as Hk by (unfold locate_keys; auto 12 with keeps).
    by apply Hk.
  - assert (keeps (lifecycle_counts provider_ids)) as Hk by (unfold lifecycle_counts; auto 12 with keeps).
    by apply Hk.
Qed.
End ReadOnly.

(* ------------------------------------------------------------------ *)
(** ** Instances *)

Lemma store_create_get_witness :
  create_outcome demo_mk demo_kek None demo_provider demo_name demo_attributes demo_db demo_open.
Proof.
  exact (store_create_get demo_mk demo_kek None demo_provider demo_name demo_attributes demo_db demo_open
    demo_ready demo_mk_length demo_generation demo_provider_ok demo_attributes_ok demo_name_ok demo_fresh).
Defined.

(** [store_calls_atomic] at an activation that the machine stops in. *)
Lemma store_calls_atomic_witness :
  (activate_key demo_provider demo_key (set_faults [Proceed; Proceed; Crash] demo_world1)).1 = Raise PowerFailure /\
  atomic demo_mk demo_kek None (activate_key demo_provider demo_key) (key_activated demo_kek demo_db1 demo_provider demo_key)
    demo_db1 (set_faults [Proceed; Proceed; Crash] demo_world1).
Proof.
  split; [vm_compute; reflexivity|].
  destruct (store_calls_atomic demo_mk demo_kek None demo_db1 (set_faults [Proceed; Proceed; Crash] demo_world1)
    (store_inv_faults _ _ _ _ _ _ (rd_inv _ _ _ _ _ demo_ready1))) as (_&Hactivate&_).
  exact (Hactivate demo_provider demo_key).
Defined.

Lemma store_persistence_witness :
  exists d', service_inv demo_mk demo_kek None d' (false, demo_world1) /\ evolves demo_kek demo_db1 d'.
Proof.
  apply (store_persistence demo_mk demo_kek None demo_secret (true, demo_world1)).
  - exact demo_custody.
  - apply rtc_once. constructor.
  - exact (rd_inv _ _ _ _ _ demo_ready1).
Defined.

Lemma store_get_exact_witness :
  get_key demo_provider demo_key demo_world1
    = (lookup_key demo_kek demo_db1 demo_provider demo_key, set_conn demo_db1 false demo_world1) /\
  get_metadata demo_provider demo_key demo_world1
    = (fst <$> lookup_key demo_kek demo_db1 demo_provider demo_key, set_conn demo_db1 false demo_world1).
Proof. exact (store_get_exact demo_mk demo_kek None demo_provider demo_key demo_db1 demo_world1 demo_ready1). Defined.

Lemma store_activate_witness :
  activate_outcome demo_mk demo_kek None demo_provider demo_key demo_stored.1 demo_stored.2 demo_db1 demo_world1.
Proof.
  exact (store_activate demo_mk demo_kek None demo_provider demo_key demo_stored.1 demo_stored.2 demo_db1 demo_world1
    demo_ready1 demo_mk_length demo_generation1 demo_lookup demo_short).
Defined.

Lemma store_locate_witness :
  exists ids, locate_keys demo_provider (Some Pre_Active) None 10 demo_world1
      = (Ok ids, set_conn demo_db1 false demo_world1) /\
    located_ids demo_kek demo_db1 demo_provider (Some Pre_Active) None 10 ids.
Proof.
  apply (store_locate demo_mk demo_kek None).
  - exact demo_ready1.
  - vm_compute. reflexivity.
  - right. left.
  - split; discriminate.
  - reflexivity.
  - reflexivity.
Defined.

Lemma store_counts_witness :
  exists counts, lifecycle_counts [demo_provider] demo_world1 = (Ok counts, set_conn demo_db1 false demo_world1) /\
    counted demo_kek demo_db1 [demo_provider] counts.
Proof.
  apply (store_counts demo_mk demo_kek None).
  - exact demo_ready1.
  - constructor; [vm_compute; reflexivity|constructor].
Defined.

Lemma store_reopen_witness :
  exists w', __init__ demo_secret false demo_world1 = (Ok tt, w') /\
    ready demo_mk demo_kek None (with_schema demo_db1) w' /\
    contents demo_kek (with_schema demo_db1) = contents demo_kek demo_db1.
Proof.
  apply store_reopen.
  - exact demo_custody.
  - apply store_inv_disk, (rd_inv _ _ _ _ _ demo_ready1).
  - exact (rd_faults _ _ _ _ _ demo_ready1).
  - intros e He. rewrite (file_holds_inj _ _ _ _ He demo_file1). exact demo_generation1.
Defined.

(** SHA-256 does not collide on the two databases. *)
Lemma demo_told_apart : databases_told_apart demo_db1 demo_db.
Proof.
  assert (forall d x, dumps_bytes (commitment_document d) = Ok x -> _store_commitment d = Ok (sha256_hex x)) as Hc
    by (intros d x E; unfold _store_commitment; by rewrite E).
  intros x x' Hx%Hc Hx'%Hc E. exfalso. rewrite E, <- Hx' in Hx. clear -Hx. vm_compute in Hx. discriminate Hx.
Qed.

Lemma store_rollback_detected_witness :
  let w := set_database (Some demo_db) demo_world1 in
  wp (__init__ demo_secret false) (refused demo_db w) w.
Proof.
  apply (store_rollback_detected demo_mk demo_kek None demo_secret demo_envelope1 demo_db1).
  - exact demo_custody.
  - apply recovery_set_database, (ei_recovery _ _ _ _ _ (si_env _ _ _ _ _ (rd_inv _ _ _ _ _ demo_ready1))).
  - apply file_set_database, demo_file1.
  - exact demo_committed1.
  - exact demo_settled1.
  - exact (si_db _ _ _ _ _ (rd_inv _ _ _ _ _ demo_ready1)).
  - exact (si_db _ _ _ _ _ (rd_inv _ _ _ _ _ demo_ready)).
  - exact demo_db_changed.
  - exact demo_told_apart.
  - apply database_set_database.
Defined.

Lemma store_open_new_witness :
  exists K' w', __init__ demo_secret false demo_world = (Ok tt, w') /\ length K' = 32%nat /\
    ready demo_mk K' None (with_schema empty_db) w' /\ contents K' (with_schema empty_db) = ∅.
Proof. exact (store_open_new demo_mk demo_secret demo_world demo_master eq_refl eq_refl eq_refl eq_refl). Defined.

Lemma envelope_roundtrip_witness :
  exists contents, seal_envelope demo_mk (mkKekEnvelope demo_kek 0 [] None None) (take 12 demo_random) = Ok contents /\
    open_envelope demo_mk contents = Ok (mkKekEnvelope demo_kek 0 [] None None).
Proof.
  apply envelope_roundtrip.
  - exact demo_mk_length.
  - reflexivity.
  - split; [reflexivity|discriminate|by left|by left].
  - split; [discriminate|reflexivity].
Defined.

Lemma row_tampering_detected_witness :
  _decrypt_row demo_kek (forged demo_row)
    = Raise (KeyStoreError "KMIP key metadata integrity validation failed.").
Proof.
  exact (row_tampering_detected demo_kek demo_row (forged demo_row) demo_stored.1
    (activated demo_stored.1 (isoformat 0)) demo_stored.2 demo_row_decrypts demo_meta_ok (forged_aad demo_row) demo_forged
    (activated_meta_ok demo_stored.1 0 demo_meta_ok) demo_forged_differs).
Defined.

Lemma attributes_normalised_witness :
  let l := [(str "x-Component", str "vSAN"); (str "x-Vendor", str "VMware")] in
  let pairs := [(str "x-Vendor", JStr (str "VMware")); (str "x-Component", JStr (str "vSAN"))] in
  valid_attributes l /\ _validated_custom_attributes (json_attributes l) = Ok l /\
  _validated_custom_attributes [(str "x-Component", JStr (str "vSAN")); (str "x-Vendor", JStr (str "VMware"))] = Ok l.
Proof.
  intros l pairs. apply (attributes_normalised pairs).
  - vm_compute. reflexivity.
  - apply perm_swap.
Defined.

Lemma read_only_untouched_witness :
  let w := set_self (mkStore true [] [] (mkKekEnvelope [] 0 [] None None)) demo_world in
  untouched None None (run (CallCreate demo_provider None []) w).2.
Proof. intros w. apply read_only_untouched. split; reflexivity. Defined.
