(* ===== verification/RecoveryProps.v ===== *)
(** Disaster recovery: what an archive of the key store is worth.

    A store that is exported and rebuilt on another appliance, under another appliance
    secret, holds the same keys; an archive gives back the snapshot it was made of; and
    data that was not written by this program is refused. *)

From S2P Require Import Prelude Utf8 PyText Uuid Json Base64 Sha256 World Store StoreSpec StoreInv StoreOpen StoreLive.
From S2P Require Import Demo Certificates Recovery RecoveryArchive RecoveryRestore RecoverySound.
Open Scope Z_scope.

(** A passphrase of 12 to 1,024 UTF-8 bytes. *)
Definition passphrase_ok (passphrase : pystr) : Prop :=
  exists encoded, utf8_encode passphrase = Ok encoded /\ 12 <= zlen encoded <= 1024.

(** The archive of the snapshot stays below the limit. *)
Definition archivable (s : Snapshot) : Prop := zlen (dumps_compact (snapshot_json s)) <= MAX_ARCHIVE_BYTES - 128.

Section Recovery.
Context `{Aead} {laws : AeadLaws} `{X509} `{Scrypt} {scrypt_laws : ScryptLaws} `{SqlAffinity}.

Lemma archive_total s passphrase w :
  snapshot_dumpable s -> archivable s -> passphrase_ok passphrase ->
  exists archive, encrypt s passphrase w = (Ok archive, set_random (drop 28 (random w)) w).
Proof.
  intros Hd Ha (encoded&He&Hlen). unfold encrypt. rewrite (run_lift _ _ _ _ (dumps_bytes_ok _ Hd)).
  set (plaintext := map to_byte _). assert (zlen plaintext <= MAX_ARCHIVE_BYTES - 128) as Hp.
  { unfold plaintext, zlen. by rewrite length_map. }
  rewrite (run_lift _ _ _ tt) by (by rewrite (proj2 (Z.ltb_ge _ _))).
  set (salt := take_pad x00 16 (random w)).
  rewrite (run_ok _ _ _ salt (set_random (drop 16 (random w)) w)) by done.
  set (nonce := take_pad x00 12 (drop 16 (random w))).
  rewrite (run_ok _ _ _ nonce (set_random (drop 28 (random w)) w)).
  2: { unfold urandom. cbn [random set_random]. by rewrite drop_drop. }
  rewrite (run_lift _ _ _ (scrypt salt encoded)).
  2: { unfold _derive. rewrite He. cbn [mbind res_bind].
       by rewrite (proj2 (Z.leb_le 12 _)), (proj2 (Z.leb_le _ 1024)) by lia. }
  rewrite (run_lift _ _ _ tt) by (apply aead_key, scrypt_length).
  destruct (aead_encrypt_total (scrypt salt encoded) nonce plaintext AAD) as (c&Hc);
    [apply scrypt_length|apply take_pad_length|unfold MAX_ARCHIVE_BYTES in Hp; lia|done|].
  rewrite (run_lift _ _ _ c) by done. by eexists.
Qed.

Context (secrets_key : pystr) (mk : bytes) (e : _KekEnvelope) (d : Db) (file : bytes) (trust : json) (ids : list pystr).

(** A store that can be exported with [trust]: its files are at rest, the KEK file has at
    most 8 KiB, and the trust is valid and names every stored provider. *)
Record exportable (w : World) : Prop := {
  ex_offline : offline secrets_key mk e d w;
  ex_file : kek_file w = Some file;
  ex_size : zlen file <= 8192;
  ex_generation : small (generation e + 1);
  ex_trust : validate_trust trust = Ok tt;
  ex_dumpable : dumpable trust;
  ex_ids : trust_provider_ids trust = Ok ids;
  ex_covers : covers d ids
}.

Lemma export_ok passphrase w :
  exportable w -> archivable (snapshot_of mk d file trust) -> passphrase_ok passphrase ->
  exists archive w0 w1 w', export_store secrets_key trust passphrase w = (Ok archive, w') /\
    encrypt (snapshot_of mk d file trust) passphrase w0 = (Ok archive, w1) /\
    kek_file w' = kek_file w /\ database w' = database w /\ recovery_master w' = recovery_master w /\
    self_kek (self w') = [] /\ self_master_key (self w') = [].
Proof.
  intros [Ho Hf _ _ Hv Hd Hi Hc] Ha Hp. unfold export_store.
  rewrite (run_ok _ _ _ _ _ (init_offline _ _ _ _ _ Ho)). set (w0 := set_conn _ _ _).
  destruct (archive_total (snapshot_of mk d file trust) passphrase (set_conn d false w0)) as (archive&He);
    [by eapply snapshot_of_dumpable; [apply Ho|]|done|done|].
  do 4 eexists. split_and!.
  - apply catch_ok. rewrite (run_ok _ _ _ (snapshot_of mk d file trust) (set_conn d false w0)).
    2: { apply (capture_ok secrets_key mk e d trust ids file); try done. by apply offline_conn, offline_self. }
    rewrite (run_ok _ _ _ _ _ He). reflexivity.
  - exact He.
  - done.
  - done.
  - done.
  - done.
  - done.
Qed.
End Recovery.

(** Files at rest can be opened for service. *)
Lemma offline_opens `{Aead} {laws : AeadLaws} secrets_key mk e d w :
  offline secrets_key mk e d w -> small (generation e + 1) ->
  exists w', __init__ secrets_key false w = (Ok tt, w') /\ ready mk (kek e) (recovery_master w) d w'.
Proof.
  intros Ho Hg. pose proof Ho as [Hf Hcu Hdb Hj Hfile HK [Hp Hc] Hok].
  assert (with_schema d = d) as Hws by by apply (with_schema_ok (kek e)).
  destruct (live_run _ _ _ (live_init mk (kek e) (recovery_master w) secrets_key d w Hcu
    ltac:(split; rewrite ?Hws; try done; exists e; split_and!; [done|done|right; eauto]) Hf
    ltac:(intros e' He'; by rewrite (file_holds_inj mk e' e w He' Hfile))))
    as ([]&w'&E&_&Hr). exists w'. rewrite Hws in Hr. done.
Qed.

(** C6. Disaster recovery, end to end: a key store at rest is exported without changing its
    files; its archive decrypts under the passphrase; the candidate that is built from it in
    an empty directory, under any other appliance secret, opens for service, and every
    [get_key] answers there as it does on the original store. *)
Theorem recovery_restores_store `{Aead} {laws : AeadLaws} `{X509} `{Scrypt} {scrypt_laws : ScryptLaws} `{SqlAffinity}
    secrets_key mk e d file trust ids passphrase w :
  exportable secrets_key mk e d file trust ids w ->
  archivable (snapshot_of mk d file trust) -> passphrase_ok passphrase ->
  exists archive w' snapshot w0,
    export_store secrets_key trust passphrase w = (Ok archive, w') /\
    kek_file w' = kek_file w /\ database w' = database w /\ recovery_master w' = recovery_master w /\
    decrypt archive passphrase = Ok snapshot /\
    __init__ secrets_key false w = (Ok tt, w0) /\
    forall secrets_key' m0 c, _master_key secrets_key' = Ok m0 -> empty_directory c ->
      exists c' w'', build_candidate snapshot secrets_key' c = (Ok tt, c') /\
        trust_file c' = Some (map to_byte (dumps_default (sort_dicts trust))) /\
        __init__ secrets_key' false (files c') = (Ok tt, w'') /\
        ready mk (kek e) (recovery_master (files c')) d w'' /\
        forall provider key, (get_key provider key w'').1 = (get_key provider key w0).1.
Proof.
  intros Hx Ha Hp. destruct (export_ok secrets_key mk e d file trust ids passphrase w Hx Ha Hp)
    as (archive&?&?&w'&Hexport&Hencrypt&Hk&Hdb&Hr&_).
  pose proof Hx as [Ho Hf Hs Hg Hv Hd Hi Hc]. destruct (offline_opens _ _ _ _ _ Ho Hg) as (w0&Hinit0&Hready0).
  exists archive, w', (sorted_snapshot (snapshot_of mk d file trust)), w0. split_and!; try done.
  { eapply decrypt_encrypt; [|exact Hv|exact Hencrypt]. by eapply snapshot_of_dumpable; [apply Ho|]. }
  intros secrets_key' m0 c Hm0 Hempty. pose proof (of_custody _ _ _ _ _ Ho) as [Hmk _].
  pose proof (of_file _ _ _ _ _ Ho) as (file'&Hf'&Hopen). rewrite Hf in Hf'. injection Hf' as <-.
  destruct (build_candidate_ok secrets_key' mk e d file trust ids Hmk (of_kek _ _ _ _ _ Ho) (of_db _ _ _ _ _ Ho) Hopen Hs
    (of_settled _ _ _ _ _ Ho) Hv Hd Hi Hc m0 c Hm0 Hempty) as (c'&Hb&Hoff&_&Ht&_).
  destruct (offline_opens _ _ _ _ _ Hoff Hg) as (w''&Hinit&Hready). exists c', w''. split_and!; try done.
  intros provider key. by erewrite (get_key_exact _ _ _ provider key _ _ Hready), (get_key_exact _ _ _ provider key _ _ Hready0).
Qed.

(** C30. Validation is sound: whatever the snapshot contains, and whatever input and output
    do, a candidate that [build_candidate] accepts has valid public trust, the KEK file of
    the snapshot, and a database that the opened KEK envelope commits to with no
    transaction pending; every row decrypts and belongs to a provider of the trust. *)
Theorem build_candidate_sound `{Aead} `{X509} `{SqlAffinity} snapshot secrets_key c c' :
  build_candidate snapshot secrets_key c = (Ok tt, c') -> occupied c = false /\ sound_candidate snapshot (files c').
Proof. apply build_candidate_Ok. Qed.

(* ------------------------------------------------------------------ *)
(** ** Witnesses *)

Definition demo_der : bytes := [x30; x03].
Definition demo_certificate : X509Certificate :=
  mkX509 (Ok (Some false)) (Ok (Some true)) (Ok None) 0 (10 ^ 16) (str "-----BEGIN CERTIFICATE-----") demo_der
    (str "CN=vc") (str "CN=vc") 1.

#[export] Instance demo_x509 : X509 := {| load_pem_x509_certificate _ := Ok demo_certificate |}.
#[export] Instance demo_scrypt : Scrypt := {| scrypt salt password := sha256 (salt ++ password) |}.
#[export] Instance demo_scrypt_laws : ScryptLaws.
Proof. split. intros. apply sha256_length. Qed.
#[export] Instance demo_affinity : SqlAffinity :=
  {| real_text _ := None; real_integer _ := None; text_integer _ := None |}.

(** One provider with one vCenter and its certificate. *)
Definition demo_trust : json :=
  JDict [(str "providers", JList [JDict [(str "id", JStr demo_provider); (str "name", JStr (str "lab"));
                                         (str "description", JStr []); (str "enabled", JBool true)]]);
         (str "vcenters", JList [JDict [(str "id", JStr demo_other); (str "provider_id", JStr demo_provider);
                                        (str "name", JStr (str "vc")); (str "hostname", JStr (str "vc.lab"));
                                        (str "description", JStr []); (str "enabled", JBool true)]]);
         (str "certificates", JList [JDict [(str "id", JStr demo_other); (str "trusted_vcenter_id", JStr demo_other);
                                            (str "certificate_pem", JStr (str "-----BEGIN CERTIFICATE-----"));
                                            (str "fingerprint_sha256", JStr (sha256_hex demo_der))]])].

Definition demo_passphrase : pystr := str "correct horse battery".
Definition demo_target_secret : pystr := str "another appliance".
Definition demo_directory : Candidate := mkCandidate demo_world None.
Definition demo_kek_file : bytes := default [] (kek_file demo_world1).

Lemma ready_offline `{Aead} secrets_key mk K recovery d e w :
  ready mk K recovery d w -> custody secrets_key mk recovery -> file_holds mk e w -> kek e = K -> journal_file w = false ->
  pending_commitment e = None -> _store_commitment d = Ok (commitment e) -> offline secrets_key mk e d w.
Proof.
  intros [Hf Hi _] Hcu Hfile <- Hj Hp Hc. pose proof Hi as [HK He Hd Hdb].
  split; try done. by rewrite (ei_recovery _ _ _ _ _ He).
Qed.

Lemma demo_offline : offline demo_secret demo_mk demo_envelope1 demo_db1 demo_world1.
Proof.
  apply (ready_offline demo_secret demo_mk demo_kek None demo_db1 demo_envelope1 demo_world1 demo_ready1 demo_custody demo_file1).
  - vm_compute. reflexivity.
  - vm_compute. reflexivity.
  - exact demo_settled1.
  - exact demo_committed1.
Qed.

(** Texts, booleans, and containers of them can be dumped. *)
Ltac dumpable_tac :=
  repeat match goal with
  | |- dumpable (JDict _) => apply dumpable_dict; split; [by apply (bool_decide_unpack _)|]
  | |- dumpable (JList _) => apply dumpable_list
  | |- dumpable (JStr ?s) => change (Forall (fun c => is_scalar c = true) s)
  | |- dumpable (JBool _) => exact I
  | |- Forall (fun c => is_scalar c = true) _ => apply (bool_decide_unpack _); vm_compute; exact I
  | |- Forall _ [] => constructor
  | |- Forall _ (_ :: _) => apply Forall_cons; split
  | |- _ /\ _ => split; cbn [fst snd]
  end.

Lemma demo_trust_dumpable : dumpable demo_trust.
Proof. unfold demo_trust. dumpable_tac. Qed.

Lemma demo_trust_valid : validate_trust demo_trust = Ok tt.
Proof. vm_compute. reflexivity. Qed.

Lemma demo_trust_ids : trust_provider_ids demo_trust = Ok [demo_provider].
Proof. vm_compute. reflexivity. Qed.

Lemma demo_covers : covers demo_db1 [demo_provider].
Proof. unfold covers. apply (bool_decide_unpack _). vm_compute. exact I. Qed.

Lemma demo_exportable :
  exportable demo_secret demo_mk demo_envelope1 demo_db1 demo_kek_file demo_trust [demo_provider] demo_world1.
Proof.
  split.
  - exact demo_offline.
  - vm_compute. reflexivity.
  - apply Z.leb_le. vm_compute. reflexivity.
  - exact demo_generation1.
  - exact demo_trust_valid.
  - exact demo_trust_dumpable.
  - exact demo_trust_ids.
  - exact demo_covers.
Qed.

Lemma demo_archivable : archivable (snapshot_of demo_mk demo_db1 demo_kek_file demo_trust).
Proof. apply Z.leb_le. vm_compute. reflexivity. Qed.

Lemma demo_passphrase_ok : passphrase_ok demo_passphrase.
Proof. eexists. split; [vm_compute; reflexivity|]. split; apply Z.leb_le; vm_compute; reflexivity. Qed.

Lemma recovery_restores_store_witness :
  exists archive w' snapshot w0,
    export_store demo_secret demo_trust demo_passphrase demo_world1 = (Ok archive, w') /\
    decrypt archive demo_passphrase = Ok snapshot /\ __init__ demo_secret false demo_world1 = (Ok tt, w0) /\
    exists c' w'', build_candidate snapshot demo_target_secret demo_directory = (Ok tt, c') /\
      __init__ demo_target_secret false (files c') = (Ok tt, w'') /\
      (get_key demo_provider demo_key w'').1 = (get_key demo_provider demo_key w0).1.
Proof.
  destruct (recovery_restores_store demo_secret demo_mk demo_envelope1 demo_db1 demo_kek_file demo_trust [demo_provider]
    demo_passphrase demo_world1 demo_exportable demo_archivable demo_passphrase_ok)
    as (archive&w'&s&w0&H1&_&_&_&H5&H6&H7).
  exists archive, w', s, w0. split; [exact H1|]. split; [exact H5|]. split; [exact H6|].
  destruct (H7 demo_target_secret (ok_bytes (_master_key demo_target_secret)) demo_directory) as (c'&w''&B1&_&B3&_&B5).
  - vm_compute. reflexivity.
  - split; reflexivity.
  - exists c', w''. split; [exact B1|]. split; [exact B3|]. apply B5.
Defined.

Definition demo_snapshot : Snapshot := sorted_snapshot (snapshot_of demo_mk demo_db1 demo_kek_file demo_trust).
Definition demo_candidate : Candidate := (build_candidate demo_snapshot demo_target_secret demo_directory).2.

Lemma run_of_ok {S} (x : res unit * S) : is_ok x.1 = true -> x = (Ok tt, x.2).
Proof. by destruct x as [[[]|] ?]. Qed.

Lemma demo_candidate_built : is_ok (build_candidate demo_snapshot demo_target_secret demo_directory).1 = true.
Proof. vm_compute. reflexivity. Qed.

Lemma build_candidate_sound_witness :
  build_candidate demo_snapshot demo_target_secret demo_directory = (Ok tt, demo_candidate) /\
  sound_candidate demo_snapshot (files demo_candidate).
Proof.
  split; [exact (run_of_ok _ demo_candidate_built)|].
  exact (proj2 (build_candidate_sound demo_snapshot demo_target_secret demo_directory demo_candidate
    (run_of_ok _ demo_candidate_built))).
Defined.

(** A tampered archive is refused. *)
Example demo_tampered :
  match (export_store demo_secret demo_trust demo_passphrase demo_world1).1 with
  | Ok archive => decrypt (take 60 archive ++ [x00] ++ drop 61 archive) demo_passphrase
                  = Raise (RecoveryError "Recovery authentication failed; check the passphrase and archive.")
  | Raise _ => False
  end.
Proof. vm_compute. reflexivity. Qed.
