(* ===== verification/RecoveryRuntimeProps.v ===== *)
(** The import of an archive as a transaction on the appliance: whatever fails and whenever
    the machine stops, no key is lost, and the import can be completed. *)

From S2P Require Import Prelude Utf8 PyText Uuid Json Base64 Sha256 World Store StoreSpec StoreInv StoreOpen StoreLive.
From S2P Require Import Demo Certificates Recovery RecoveryArchive RecoveryRestore RecoverySound RecoverySteadfast RecoveryRuntime.
From S2P Require Import RecoveryPhases RecoveryLive RecoveryGate RecoveryProps.
Open Scope Z_scope.

Lemma sha256_hex_ascii b : Forall (fun c => 0 <= c < 128) (sha256_hex b).
Proof. eapply Forall_impl; [apply bytes_hex_lower|]. intros c Hc. apply is_lower_hex_lt in Hc. lia. Qed.

Lemma sound_candidate_same `{HA : Aead} `{HX : X509} s w w' : same_store w w' -> sound_candidate s w -> sound_candidate s w'.
Proof. intros [H1 _ H3 _] [Ht Hf Hs]. split; [done|by rewrite H1|by rewrite H1, H3]. Qed.

Section Attempts.
Context `{HA : Aead} `{HX : X509} `{HY : Scrypt} `{HS : SqlAffinity}.
Context (archive : bytes) (passphrase secrets_key : pystr) (uid gid : Z).

(** One run of the helper, in a process of its own with any faults, a machine stop included.
    The name that it may retain the active directory under is new. *)
Inductive attempt : Runtime -> Runtime -> Prop :=
| attempt_run p rt : numbers rt -> new_name (set_process p rt) ->
    attempt rt (import_archive archive passphrase secrets_key uid gid (set_process p rt)).2.

Context (snapshot : Snapshot) (sound : World -> Prop) (orig : option Target).
Context (sound_same : forall w w', same_store w w' -> sound w -> sound w').
Context (build_sound : forall c0 u c1, build_candidate snapshot secrets_key c0 = (Ok u, c1) -> sound (files c1)).
Context (Hdecrypt : decrypt archive passphrase = Ok snapshot) (Htrust : dumpable (snap_trust snapshot)).

Abbreviation Inv := (Inv (sha256_hex archive) sound orig).
Abbreviation safe_import := (safe_import (sha256_hex archive) sound sound_same orig snapshot secrets_key build_sound Htrust
  (sha256_hex_ascii archive) archive passphrase uid gid Hdecrypt eq_refl).

Lemma published_Inv c o i rt : at_published (sha256_hex archive) sound orig c o i rt -> fresh orig rt -> Inv rt.
Proof. intros Hp Hf. split; [|done]. right. exists c, o, i. by do 2 right. Qed.

Lemma attempts_Inv rt rt' : rtc attempt rt rt' -> Inv rt -> Inv rt'.
Proof.
  induction 1 as [|rt rt1 rt' Hrun _ IH]; [done|]. intros HI. apply IH. clear IH. destruct Hrun as [p rt Hn Hnew].
  assert (startable (sha256_hex archive) sound orig (set_process p rt)) as Hst.
  { split; [split; [|done]|done]. eapply Inv_quiet; [done|apply quiet_process|done]. }
  pose proof (safe_import (set_process p rt) Hst) as Hs.
  destruct (import_archive archive passphrase secrets_key uid gid (set_process p rt)) as [[trust|e] rt2]; [|done].
  destruct Hs as (_&c&o&i&Hp&Hf). by eapply published_Inv.
Qed.

Lemma Inv_start rt : orig = active rt -> pending rt = false -> fresh orig rt -> Inv rt.
Proof.
  intros -> Hp Hf. split; [left; split; [|reflexivity]|done]. by apply bool_decide_eq_false, eq_None_not_Some in Hp.
Qed.

Lemma Inv_pending rt :
  Inv rt -> if pending rt then exists c o i, under_way (sha256_hex archive) sound orig c o i rt else same_target orig (active rt).
Proof.
  intros HI. unfold pending. destruct (anchor rt !! pending_json) as [x|] eqn:E.
  - rewrite bool_decide_eq_true_2 by done. by eapply pending_under_way.
  - rewrite bool_decide_eq_false_2 by (by intros [? ?]). by apply (not_pending_resting _ _ _ _ HI E).
Qed.
End Attempts.

(** C2. Importing is crash-safe: after any number of runs, each with any pattern of faults and
    stopped anywhere, either no journal is pending and the active entry has the files it had,
    or the journal is pending and its candidate is complete and valid; then the active entry
    is the original one, or it was moved, with all its files, to the name in the journal, and
    the candidate may have taken its place. *)
Theorem import_crash_safe `{Aead} `{X509} `{Scrypt} `{SqlAffinity} archive passphrase secrets_key uid gid snapshot rt rt' :
  decrypt archive passphrase = Ok snapshot -> dumpable (snap_trust snapshot) ->
  pending rt = false -> fresh (active rt) rt ->
  rtc (attempt archive passphrase secrets_key uid gid) rt rt' ->
  if pending rt' then exists c o i, under_way (sha256_hex archive) (sound_candidate snapshot) (active rt) c o i rt'
  else same_target (active rt) (active rt').
Proof.
  intros Hd Ht Hp Hf Hrun. apply Inv_pending.
  eapply (attempts_Inv archive passphrase secrets_key uid gid snapshot); [|intros c0 u c1 E|done|done|done|].
  - intros w w'. apply sound_candidate_same.
  - by eapply build_candidate_Ok.
  - by apply Inv_start.
Qed.

(** C5. An import can always be completed: after any number of runs that failed or were
    stopped anywhere, a run in which nothing fails returns the trust of the archive, and the
    active directory opens for service, under the appliance secret of this appliance, with
    the keys of the exported store; the journal still bars the service from starting. *)
Theorem import_completes `{Aead} {laws : AeadLaws} `{X509} `{Scrypt} {scrypt_laws : ScryptLaws} `{SqlAffinity}
    secrets_key mk e d file trust ids passphrase w :
  exportable secrets_key mk e d file trust ids w ->
  archivable (snapshot_of mk d file trust) -> passphrase_ok passphrase ->
  exists archive w' w0,
    export_store secrets_key trust passphrase w = (Ok archive, w') /\
    __init__ secrets_key false w = (Ok tt, w0) /\
    forall secrets_key' m0 uid gid rt rt' p,
      _master_key secrets_key' = Ok m0 -> pending rt = false -> fresh (active rt) rt ->
      match active rt with Some (StateDir d) => empty_store secrets_key' d | Some (Foreign _ _) => False | None => True end ->
      rtc (attempt archive passphrase secrets_key' uid gid) rt rt' ->
      faults p = [] -> numbers rt' -> secure rt' -> free_names (set_process p rt') ->
      exists rt'' dir w'',
        import_archive archive passphrase secrets_key' uid gid (set_process p rt') = (Ok (sort_dicts trust), rt'') /\
        pending rt'' = true /\ active rt'' = Some (StateDir dir) /\
        __init__ secrets_key' false (clear (files (contents dir))) = (Ok tt, w'') /\
        forall provider key, (get_key provider key w'').1 = (get_key provider key w0).1.
Proof.
  intros Hx Ha Hp. destruct (export_ok secrets_key mk e d file trust ids passphrase w Hx Ha Hp)
    as (archive&?&?&w'&Hexport&Hencrypt&_).
  pose proof Hx as [Ho Hf Hs Hg Hv Hd Hi Hc]. destruct (offline_opens _ _ _ _ _ Ho Hg) as (w0&Hinit0&Hready0).
  exists archive, w', w0. split_and!; try done. intros secrets_key' m0 uid gid rt rt' p Hm0 Hpend Hfresh Hempty Hrun Hpf Hn Hsec Hfree.
  pose proof (of_custody _ _ _ _ _ Ho) as [Hmk _].
  pose proof (of_file _ _ _ _ _ Ho) as (file'&Hf'&Hopen). rewrite Hf in Hf'. injection Hf' as <-.
  set (s := restored_snapshot mk d file trust).
  assert (decrypt archive passphrase = Ok s) as Hdec
    by (eapply decrypt_encrypt; [|exact Hv|exact Hencrypt]; by eapply snapshot_of_dumpable; [apply Ho|]).
  assert (dumpable (snap_trust s)) as Hds by (by apply dumpable_sorted).
  set (sound w := offline secrets_key' mk e d (clear w)).
  assert (forall w w', same_store w w' -> sound w -> sound w') as Hsame.
  { intros w1 w2 H12. apply offline_same; [|done]. destruct H12. by split. }
  assert (forall c0 u c1, build_candidate s secrets_key' c0 = (Ok u, c1) -> sound (files c1)) as Hbs.
  { intros c0 u c1 E. by eapply build_candidate_restores; [..|exact E]; try done; apply Ho. }
  assert (Inv (sha256_hex archive) sound (active rt) (set_process p rt')) as HI.
  { eapply Inv_quiet; [done|apply quiet_process|]. eapply attempts_Inv; try done. by apply Inv_start. }
  destruct (import_ok (sha256_hex archive) sound Hsame (active rt) secrets_key' Hempty s) with
    (archive := archive) (passphrase := passphrase) (uid := uid) (gid := gid) (rt := set_process p rt')
    as (t&rt''&E&_); try done; [|apply sha256_hex_ascii|].
  { intros c Hcc. destruct (build_candidate_ok secrets_key' mk e d file trust ids Hmk (of_kek _ _ _ _ _ Ho) (of_db _ _ _ _ _ Ho)
      Hopen Hs (of_settled _ _ _ _ _ Ho) Hv Hd Hi Hc m0 c Hm0 Hcc) as (c'&Hb&Hoff&_&_&Hr). exists c'. split_and!; try done. apply Hoff. }
  pose proof (safe_import (sha256_hex archive) sound Hsame (active rt) s secrets_key' Hbs Hds (sha256_hex_ascii _) archive
    passphrase uid gid Hdec eq_refl (set_process p rt')) as Hfin. rewrite E in Hfin.
  destruct Hfin as (->&c&o&i&[Hj (dir&Hact&Hgood) _ _]&_); [by split; [|apply Hfree]|].
  destruct Hgood as (_&_&Hoff). destruct (offline_opens _ _ _ _ _ Hoff Hg) as (w''&Hinit&Hready).
  exists rt'', dir, w''. split_and!; try done.
  - destruct Hj as (data&?&?&Hj&_). unfold pending. by rewrite Hj, bool_decide_eq_true_2.
  - intros provider key. by erewrite (get_key_exact _ _ _ provider key _ _ Hready), (get_key_exact _ _ _ provider key _ _ Hready0).
Qed.

(* ------------------------------------------------------------------ *)
(** ** Witnesses *)

Definition demo_archive : bytes := ok_bytes (export_store demo_secret demo_trust demo_passphrase demo_world1).1.

(** An appliance with an empty state directory and no anchor yet. *)
Definition demo_state : Directory := mkDirectory (1, 5) empty_contents [] true (0, 0).
Definition demo_runtime : Runtime :=
  mkRuntime [mkStat 0 0x1ed; mkStat 0 0x1ed] None 0x12 ∅ (Some (StateDir demo_state)) None 1 10 demo_world.

(** A process whose machine stops at the system call after [n]. *)
Definition demo_crash (n : nat) : World := set_faults (repeat Proceed n ++ [Crash]) demo_world.

Definition demo_import (p : World) (rt : Runtime) : res json * Runtime :=
  import_archive demo_archive demo_passphrase demo_target_secret 990 990 (set_process p rt).

(** The machine stops when the active directory was moved away and the candidate is not yet
    in its place. *)
Definition demo_interrupted : Runtime := (demo_import (demo_crash 55) demo_runtime).2.

(** The next process draws other names. *)
Definition demo_retry : World := set_random (repeat x5a 64) demo_world.

Lemma demo_decrypt : decrypt demo_archive demo_passphrase = Ok demo_snapshot.
Proof. vm_compute. reflexivity. Qed.

Lemma demo_numbers : numbers demo_runtime.
Proof. split; apply Z.leb_le; vm_compute; reflexivity. Qed.

Lemma demo_runtime_fresh : fresh (active demo_runtime) demo_runtime.
Proof. intros i E _. injection E as <-. done. Qed.

Lemma demo_attempt :
  rtc (attempt demo_archive demo_passphrase demo_target_secret 990 990) demo_runtime demo_interrupted.
Proof. apply rtc_once. exact (attempt_run _ _ _ _ _ (demo_crash 55) demo_runtime demo_numbers eq_refl). Qed.

Lemma demo_interrupted_numbers : numbers demo_interrupted.
Proof. split; apply Z.leb_le; vm_compute; reflexivity. Qed.

Lemma demo_interrupted_secure : secure demo_interrupted.
Proof.
  split.
  - apply (bool_decide_unpack _). vm_compute. exact I.
  - vm_compute. split; reflexivity.
Qed.

Lemma demo_interrupted_names : free_names (set_process demo_retry demo_interrupted).
Proof. unfold free_names. split; [|split]; vm_compute; reflexivity. Qed.

Lemma import_crash_safe_witness :
  pending demo_interrupted = true /\ active demo_interrupted = None /\
  exists c o i, under_way (sha256_hex demo_archive) (sound_candidate demo_snapshot) (active demo_runtime) c o i demo_interrupted.
Proof.
  assert (pending demo_interrupted = true) as Hp by (vm_compute; reflexivity).
  split; [exact Hp|]. split; [vm_compute; reflexivity|].
  pose proof (import_crash_safe demo_archive demo_passphrase demo_target_secret 990 990 demo_snapshot demo_runtime demo_interrupted
    demo_decrypt (dumpable_sorted _ demo_trust_dumpable) eq_refl demo_runtime_fresh demo_attempt) as Hs.
  rewrite Hp in Hs. exact Hs.
Defined.

Lemma demo_archive_export archive w' :
  export_store demo_secret demo_trust demo_passphrase demo_world1 = (Ok archive, w') -> demo_archive = archive.
Proof. intros E. unfold demo_archive. rewrite E. reflexivity. Qed.

Lemma import_completes_witness :
  exists w0, __init__ demo_secret false demo_world1 = (Ok tt, w0) /\
    exists rt'' dir w'',
      import_archive demo_archive demo_passphrase demo_target_secret 990 990 (set_process demo_retry demo_interrupted)
        = (Ok (sort_dicts demo_trust), rt'') /\
      active rt'' = Some (StateDir dir) /\
      __init__ demo_target_secret false (clear (files (contents dir))) = (Ok tt, w'') /\
      (get_key demo_provider demo_key w'').1 = (get_key demo_provider demo_key w0).1.
Proof.
  destruct (import_completes demo_secret demo_mk demo_envelope1 demo_db1 demo_kek_file demo_trust [demo_provider]
    demo_passphrase demo_world1 demo_exportable demo_archivable demo_passphrase_ok) as (archive&w'&w0&H1&H2&H3).
  apply demo_archive_export in H1. destruct H1. exists w0. split; [exact H2|].
  destruct (H3 demo_target_secret (ok_bytes (_master_key demo_target_secret)) 990 990 demo_runtime demo_interrupted demo_retry)
    as (rt''&dir&w''&B1&_&B3&B4&B5).
  - vm_compute. reflexivity.
  - reflexivity.
  - exact demo_runtime_fresh.
  - left. reflexivity.
  - exact demo_attempt.
  - reflexivity.
  - exact demo_interrupted_numbers.
  - exact demo_interrupted_secure.
  - exact demo_interrupted_names.
  - exists rt'', dir, w''. split; [exact B1|]. split; [exact B3|]. split; [exact B4|]. apply B5.
Defined.

(** The import completed, with a configuration of the imported graph installed. *)
Definition demo_config : bytes :=
  map to_byte (dumps_default (JDict [(str "enabled", JBool true);
    (str "providers", JList [JDict [(str "id", JStr demo_provider);
                                    (str "client_fingerprints", JList [JStr (sha256_hex demo_der)])]])])).

Definition with_config (config : bytes) (p : World) (rt : Runtime) : Runtime :=
  mkRuntime (ancestors rt) (anchor_stat rt) (umask rt) (anchor rt) (active rt) (Some config) (device rt) (next_inode rt) p.

Definition demo_imported : Runtime := with_config demo_config demo_retry (demo_import demo_retry demo_interrupted).2.
Definition demo_authorized : Runtime := (authorize false demo_imported).2.

Lemma demo_authorize_ok : is_ok (authorize false demo_imported).1 = true.
Proof. vm_compute. reflexivity. Qed.

Lemma demo_authorize : authorize false demo_imported = (Ok tt, demo_authorized).
Proof. exact (run_of_ok _ demo_authorize_ok). Qed.

Lemma demo_imported_identity : state_identity (active demo_imported) = Some (1, 10).
Proof. vm_compute. reflexivity. Qed.


(** The second flush after the journal was moved fails. *)
Definition demo_completing : Runtime := set_process (set_faults (repeat Proceed 14 ++ [Fault]) demo_world) demo_authorized.
Definition demo_journal : bytes := default [] (file_data (anchor demo_completing !! pending_json)).

Lemma demo_completing_journal : anchor demo_completing !! pending_json = Some (File demo_journal).
Proof. vm_compute. reflexivity. Qed.

Lemma complete_keeps_gate_witness :
  is_ok (authorize true demo_completing).1 = false /\ retired demo_journal (authorize true demo_completing).
Proof.
  split; [vm_compute; reflexivity|].
  refine (proj1 (complete_keeps_gate demo_completing demo_journal demo_completing_journal _)).
  vm_compute. constructor.
Defined.

(** Without the fault the recovery ends: the journal is retired, and no gate is left. *)
Example demo_completed :
  let '(r, rt) := authorize true (set_process demo_world demo_authorized) in
  r = Ok tt /\ pending rt = false /\ (assert_startup_allowed rt).1 = Ok tt.
Proof. vm_compute. split; [|split]; reflexivity. Qed.
