(* ===== verification/ServiceProps.v ===== *)
(** End-to-end properties of the key service: the dispatcher ([protocol.py]) over the
    wrapped key store ([store.py]), on the messages a client sends, and the instances of
    the dispatcher's theorems at a concrete store. *)

From S2P Require Import Prelude Utf8 PyText Uuid Json Sha256 Ttlv World Store StoreSpec StoreInv StoreOpen StoreLive StoreBind.
From S2P Require Import Protocol ProtocolSpec ProtocolWf KeyService Demo StoreProps.
Open Scope Z_scope.

(* ------------------------------------------------------------------ *)
(** ** Client messages *)

Definition request_message (version : Z * Z) (items : list Ttlv) : Ttlv :=
  structure REQUEST_MESSAGE
    (structure REQUEST_HEADER [_version_node version; integer BATCH_COUNT (zlen items)] :: items).

(** A batch item without a correlation identifier. *)
Definition request_item (operation : Operation) (payload : list Ttlv) : Ttlv :=
  structure BATCH_ITEM [enumeration OPERATION operation; structure REQUEST_PAYLOAD payload].

Definition get_request (version : Z * Z) (key_id : pystr) : Ttlv :=
  request_message version [request_item GET [text_string UNIQUE_IDENTIFIER key_id]].

Definition create_message (version : Z * Z) (name : pystr) : Ttlv :=
  request_message version [request_item CREATE
    [enumeration OBJECT_TYPE OBJECT_TYPE_SYMMETRIC_KEY;
     structure TEMPLATE_ATTRIBUTE
       [_attribute (str "Cryptographic Algorithm") (enumeration ATTRIBUTE_VALUE CRYPTOGRAPHIC_ALGORITHM_AES);
        _attribute (str "Cryptographic Length") (integer ATTRIBUTE_VALUE 256);
        _attribute (str "Name") (structure ATTRIBUTE_VALUE
          [text_string NAME_VALUE name; enumeration NAME_TYPE NAME_TYPE_UNINTERPRETED_TEXT_STRING])]]].

Lemma supported_version version : version ∈ SUPPORTED_PROTOCOL_VERSIONS -> version = (1, 4) \/ version = (1, 1).
Proof. unfold SUPPORTED_PROTOCOL_VERSIONS. set_solver. Qed.

Section Service.
Context `{Aead} {laws : AeadLaws}.

Lemma run_lift_Ok {A B} (a : A) (k : A -> M B) w : (lift (Ok a) ≫= k) w = k a w.
Proof. done. Qed.

Lemma dispatch_single p operation payload w :
  dispatch_item p 1 [] (request_item operation payload) w =
    match _dispatch_operation p operation (structure REQUEST_PAYLOAD payload) w with
    | (Ok result, w') => (Ok (succeeded_batch operation None result), w')
    | (Raise e, w') => answer_failure operation None e w'
    end.
Proof.
  unfold dispatch_item, attempt at 1.
  replace (lift _ w) with (Ok (A := option bytes) None, w) by reflexivity.
  unfold attempt at 1. replace (lift _ w) with (Ok (A := Z) (operation_code operation), w) by (by destruct operation).
  unfold attempt.
  replace (check_batch_item 1 [] None operation) with (Ok operation) by (by destruct operation).
  rewrite run_lift_Ok.
  replace (_required_child (request_item operation payload) REQUEST_PAYLOAD)
    with (Ok (structure REQUEST_PAYLOAD payload)) by reflexivity.
  rewrite run_lift_Ok. unfold mbind, ST_bind. by destruct (_dispatch_operation _ _ _ w) as [[r|e] w'].
Qed.

(** A request with one item is answered by the outcome of its operation. *)
Lemma single_item now p version operation payload w :
  version ∈ SUPPORTED_PROTOCOL_VERSIONS ->
  dispatch now p (request_message version [request_item operation payload]) w =
    match _dispatch_operation p operation (structure REQUEST_PAYLOAD payload) w with
    | (Ok result, w') => (Ok (response_message version now [succeeded_batch operation None result]), w')
    | (Raise e, w') =>
      match batch_failure e with
      | Some (reason, message) => (Ok (response_message version now [_failed_batch operation reason message None]), w')
      | None => (Raise e, w')
      end
    end.
Proof.
  intros Hv.
  assert (request_items (request_message version [request_item operation payload])
    = Ok (version, [request_item operation payload])) as Hr.
  { destruct (supported_version version Hv) as [-> | ->]; destruct operation; reflexivity. }
  unfold dispatch. rewrite Hr, run_lift_Ok.
  replace (batch_id_counts [request_item operation payload]) with (Ok (A := list (bytes * Z)) []) by reflexivity.
  rewrite run_lift_Ok. cbn [dispatch_items]. unfold mbind, ST_bind at 1. unfold ST_bind at 1.
  change (zlen [request_item operation payload]) with 1. rewrite dispatch_single.
  destruct (_dispatch_operation _ _ _ w) as [[r|e] w']; [done|]. unfold answer_failure.
  by destruct (batch_failure e) as [[reason message]|].
Qed.

Lemma parse_name_node name t :
  1 <= zlen name <= 256 ->
  _parse_name (structure t [text_string NAME_VALUE name; enumeration NAME_TYPE NAME_TYPE_UNINTERPRETED_TEXT_STRING])
    = Ok name.
Proof.
  intros Hn. transitivity (_ ← raise_if (negb ((1 <=? zlen name) && (zlen name <=? 256)))
    (ProtocolFailure INVALID_FIELD "Name must contain 1 to 256 characters."); Ok name); [reflexivity|].
  rewrite (proj2 (Z.leb_le 1 (zlen name))), (proj2 (Z.leb_le (zlen name) 256)) by lia. reflexivity.
Qed.

(** The payload of [create_message]. *)
Lemma create_message_request name :
  1 <= zlen name <= 256 ->
  create_request (structure REQUEST_PAYLOAD
    [enumeration OBJECT_TYPE OBJECT_TYPE_SYMMETRIC_KEY;
     structure TEMPLATE_ATTRIBUTE
       [_attribute (str "Cryptographic Algorithm") (enumeration ATTRIBUTE_VALUE CRYPTOGRAPHIC_ALGORITHM_AES);
        _attribute (str "Cryptographic Length") (integer ATTRIBUTE_VALUE 256);
        _attribute (str "Name") (structure ATTRIBUTE_VALUE
          [text_string NAME_VALUE name; enumeration NAME_TYPE NAME_TYPE_UNINTERPRETED_TEXT_STRING])]])
  = Ok (Some name, []).
Proof.
  intros Hn.
  assert (forall attrs acc, parse_attributes create_names VSPHERE_CUSTOM_ATTRIBUTES
    (_attribute (str "Name") (structure ATTRIBUTE_VALUE
          [text_string NAME_VALUE name; enumeration NAME_TYPE NAME_TYPE_UNINTERPRETED_TEXT_STRING]) :: attrs) acc
    = (_ ← raise_if (mem (str "Name") acc.*1) (ProtocolFailure INVALID_FIELD "Duplicate KMIP attributes are unsupported.");
       parse_attributes create_names VSPHERE_CUSTOM_ATTRIBUTES attrs (dict_set (str "Name") (AStr name) acc))) as Hp.
  { intros attrs acc.
    assert (attribute_value (str "Name") VSPHERE_CUSTOM_ATTRIBUTES (structure ATTRIBUTE_VALUE
      [text_string NAME_VALUE name; enumeration NAME_TYPE NAME_TYPE_UNINTERPRETED_TEXT_STRING]) = Ok (AStr name)) as Hv.
    { unfold attribute_value. rewrite decide_True by done. by rewrite parse_name_node. }
    transitivity (_ ← raise_if (mem (str "Name") acc.*1)
          (ProtocolFailure INVALID_FIELD "Duplicate KMIP attributes are unsupported.");
        v ← attribute_value (str "Name") VSPHERE_CUSTOM_ATTRIBUTES (structure ATTRIBUTE_VALUE
          [text_string NAME_VALUE name; enumeration NAME_TYPE NAME_TYPE_UNINTERPRETED_TEXT_STRING]);
        parse_attributes create_names VSPHERE_CUSTOM_ATTRIBUTES attrs (dict_set (str "Name") v acc)); [reflexivity|].
    by rewrite Hv. }
  transitivity (parse_attributes create_names VSPHERE_CUSTOM_ATTRIBUTES
    [_attribute (str "Name") (structure ATTRIBUTE_VALUE
       [text_string NAME_VALUE name; enumeration NAME_TYPE NAME_TYPE_UNINTERPRETED_TEXT_STRING])]
    [(str "Cryptographic Algorithm", AInt CRYPTOGRAPHIC_ALGORITHM_AES); (str "Cryptographic Length", AInt 256)]
    ≫= create_fields); [reflexivity|].
  rewrite Hp. reflexivity.
Qed.

Context (mk K : bytes) (recovery : option bytes).
Abbreviation ready := (ready mk K recovery).

(** The success of a Get of the key [m] with material [plaintext]. *)
Definition get_answer (version : Z * Z) (now : Z) (m : StoredKey) (plaintext : bytes) : Ttlv :=
  response_message version now [succeeded_batch GET None
    [enumeration OBJECT_TYPE OBJECT_TYPE_SYMMETRIC_KEY; text_string UNIQUE_IDENTIFIER (sk_key_id m);
     key_object plaintext]].

(** The failure of an operation on a key that the provider does not have. *)
Definition not_found_answer (version : Z * Z) (now : Z) (operation : Operation) : Ttlv :=
  response_message version now [_failed_batch operation ITEM_NOT_FOUND
    "KMIP key was not found in the authenticated provider." None].

Lemma validated_uuid_Raise s l e : _validated_uuid s l = Raise e -> e = ValueError l.
Proof.
  unfold _validated_uuid. intros (e0&E&->)%rethrow_Raise. apply bind_Raise in E as [E|(?&_&?)]; [|done].
  by apply uuid_int_Raise in E as [? ->].
Qed.

Lemma lookup_key_raise d p k e :
  lookup_key K d p k = Raise e ->
  e = KeyNotFoundError "KMIP key was not found in the authenticated provider." \/ exists m, e = ValueError m.
Proof.
  unfold lookup_key. intros E. apply bind_Raise in E as [E|(p'&_&E)]; [apply validated_uuid_Raise in E; eauto|].
  apply bind_Raise in E as [E|(k'&_&E)]; [apply validated_uuid_Raise in E; eauto|].
  destruct (contents K d !! _); simplify_eq. by left.
Qed.

Lemma get_run now p version id d w :
  ready d w -> version ∈ SUPPORTED_PROTOCOL_VERSIONS -> id <> [] ->
  dispatch now p (get_request version id) w =
    (match lookup_key K d p id with
     | Ok (m, plaintext) => Ok (get_answer version now m plaintext)
     | Raise (KeyNotFoundError _) => Ok (not_found_answer version now GET)
     | Raise e => Raise e
     end, set_conn d false w).
Proof.
  intros Hr Hv Hid. unfold get_request. rewrite single_item by done.
  destruct id as [|c id]; [done|].
  assert (_dispatch_operation p GET (structure REQUEST_PAYLOAD [text_string UNIQUE_IDENTIFIER (c :: id)]) w =
    (('(metadata, plaintext) ← get_key p (c :: id);
      _ ← lift (raise_if (negb (mem (sk_state metadata) [Pre_Active; Active]))
        (ProtocolFailure INVALID_FIELD "Only Pre-Active or Active KMIP keys may be retrieved."));
      mret [enumeration OBJECT_TYPE OBJECT_TYPE_SYMMETRIC_KEY;
        text_string UNIQUE_IDENTIFIER (sk_key_id metadata);
        key_object plaintext]) : M (list Ttlv)) w) as -> by reflexivity.
  unfold mbind, ST_bind at 1. rewrite (get_key_exact mk K recovery _ _ d) by done.
  destruct (lookup_key K d p (c :: id)) as [[m pt]|e] eqn:El.
  - destruct (lookup_key_Ok K d p _ m pt (si_db _ _ _ _ _ (rd_inv _ _ _ _ _ Hr)) El) as (r&_&_&_&_&_&_&_&Hm).
    unfold ST_bind, lift. rewrite (proj2 (mem_spec _ _)); [done|]. destruct (mo_state m Hm) as [-> | ->]; set_solver.
  - destruct (lookup_key_raise d p _ e El) as [->|[msg ->]]; done.
Qed.

Definition create_answer (version : Z * Z) (now : Z) (key_id : pystr) : Ttlv :=
  response_message version now [succeeded_batch CREATE None
    [enumeration OBJECT_TYPE OBJECT_TYPE_SYMMETRIC_KEY; text_string UNIQUE_IDENTIFIER key_id]].

Lemma create_run now p version name w m w' :
  version ∈ SUPPORTED_PROTOCOL_VERSIONS -> 1 <= zlen name <= 256 ->
  create_key p (Some name) [] w = (Ok m, w') ->
  dispatch now p (create_message version name) w = (Ok (create_answer version now (sk_key_id m)), w').
Proof.
  intros Hv Hn E. unfold create_message. rewrite single_item by done.
  match goal with |- context [_dispatch_operation p CREATE ?pl w] =>
    assert (_dispatch_operation p CREATE pl w = _create p pl w) as -> by reflexivity end.
  unfold _create. rewrite create_message_request by done. rewrite run_lift_Ok.
  unfold ks_create, wrapped_key_store, mbind, ST_bind. by rewrite E.
Qed.

(** Get, end to end: on a settled store, the response to a Get request is the
    requested key of the authenticated provider with exactly the stored material; a key
    the provider does not have, including another provider's, is Item Not Found; and an
    identifier that is no UUID leaves the request unanswered (the [ValueError] of the store
    is not one of the exceptions [dispatch] answers).  Nothing is written. *)
Theorem service_get now p version id d w :
  ready d w -> version ∈ SUPPORTED_PROTOCOL_VERSIONS -> id <> [] ->
  dispatch now p (get_request version id) w =
    (match lookup_key K d p id with
     | Ok (m, plaintext) => Ok (get_answer version now m plaintext)
     | Raise (KeyNotFoundError _) => Ok (not_found_answer version now GET)
     | Raise e => Raise e
     end, set_conn d false w).
Proof. apply get_run. Qed.

(** What a client that creates a key and gets it sees. *)
Definition create_get_session (now now' : Z) (p : pystr) (version : Z * Z) (name : pystr) (w : World) : Prop :=
  exists m plaintext w', created p (Some name) [] m /\ length plaintext = 32%nat /\
    dispatch now p (create_message version name) w = (Ok (create_answer version now (sk_key_id m)), w') /\
    (dispatch now' p (get_request version (sk_key_id m)) w').1 = Ok (get_answer version now' m plaintext) /\
    forall other, is_ok (_validated_uuid other "provider_id must be a UUID.") = true ->
      _validated_uuid other "provider_id must be a UUID." <> _validated_uuid p "provider_id must be a UUID." ->
      (dispatch now' other (get_request version (sk_key_id m)) w').1 = Ok (not_found_answer version now' GET).

(** C29. Create, then Get, end to end: with no fault ahead, a Create request is answered
    with the identifier of a new key; a Get of that identifier by the same provider is
    answered with the key and its material, and by any other provider with Item Not
    Found. *)
Theorem service_create_get now now' p version name d w :
  ready d w -> length mk = 32%nat -> small (generation (self_envelope (self w)) + 1) ->
  is_ok (_validated_uuid p "provider_id must be a UUID.") = true ->
  version ∈ SUPPORTED_PROTOCOL_VERSIONS -> name_ok (Some name) ->
  (forall provider, contents K d !! (provider, next_key w) = None) ->
  create_get_session now now' p version name w.
Proof.
  intros Hr Hmk Hg Hp Hv Hn Hnew.
  destruct (create_get mk K recovery p (Some name) [] d w Hr Hmk Hg Hp eq_refl Hn Hnew)
    as (m&pt&d'&w'&E&Hcr&Hnone&Hpt&Hr'&Hc&Hget).
  assert (sk_key_id m = next_key w) as Hkey by (eapply create_key_id; done).
  assert (sk_key_id m <> []) as Hne.
  { destruct (cr_key _ _ _ _ Hcr) as (n&_&->). intros E0. apply (f_equal zlen) in E0. by rewrite uuid_str_length in E0. }
  exists m, pt, w'. split_and!; [done|done|apply create_run; [done|apply Hn|done]| |].
  - rewrite (get_run now' p version (sk_key_id m) d' w' Hr' Hv Hne). cbn [fst].
    rewrite (get_key_exact mk K recovery _ _ d') in Hget by done. cbn [fst] in Hget. by rewrite Hget.
  - intros other Ho Hdiff. rewrite (get_run now' other version (sk_key_id m) d' w' Hr' Hv Hne). cbn [fst].
    unfold lookup_key. destruct (_validated_uuid other _) as [q|] eqn:Eq; [|done]. cbn [mbind res_bind].
    rewrite (validated_uuid_canonical _ _ (cr_key _ _ _ _ Hcr)). cbn [mbind res_bind].
    rewrite Hc, lookup_insert_ne.
    + by rewrite Hkey, Hnew.
    + unfold key_of. intros E0. apply Hdiff. rewrite (cr_provider _ _ _ _ Hcr). congruence.
Qed.
End Service.

(* ------------------------------------------------------------------ *)
(** ** Behaviour at the boundary *)

(** A Create whose Name begins with the character U+0000 passes the protocol's check of
    1 to 256 characters but not the table's CHECK constraint, whose [length] stops there:
    the error of the database is not answered and the client gets no response. *)
Theorem nul_name_unanswered :
  (dispatch 0 demo_provider (create_message (1, 4) [0; 65]) demo_open).1 = Raise SqliteError.
Proof. vm_compute. reflexivity. Qed.

(** A custody file that seals another master key under the secret, with no store yet. *)
Definition custody_world : World :=
  let nonce := replicate 12 x00 in
  let sealed := ok_bytes (aes_encrypt demo_mk nonce (replicate 32 x61) RECOVERY_AAD) in
  mkWorld None (Some (nonce ++ sealed)) None false empty_db false no_self demo_random demo_clock [].

(** A store created beside a recovery custody file cannot be opened again: the
    constructor seals the new key-encryption key under the master key of the secret, and
    on the next start looks for it under the recovered master key. *)
Theorem custody_store_lost :
  is_ok (__init__ demo_secret false custody_world).1 = true /\
  (__init__ demo_secret false (__init__ demo_secret false custody_world).2).1 =
    Raise (KeyStoreError "KMIP KEK could not be opened with the configured appliance secrets key.").
Proof. vm_compute. split; reflexivity. Qed.

(* ------------------------------------------------------------------ *)
(** ** Instances *)

Lemma demo_version : (1, 4) ∈ SUPPORTED_PROTOCOL_VERSIONS.
Proof. left. Qed.

Lemma demo_holds : store_holds demo_mk demo_kek None (contents demo_kek demo_db1) demo_world1.
Proof. exists demo_db1. split; [exact (rd_inv _ _ _ _ _ demo_ready1)|reflexivity]. Qed.

Definition version_request : Ttlv := request_message (1, 4) [request_item DISCOVER_VERSIONS []].

Lemma service_get_witness :
  dispatch 0 demo_provider (get_request (1, 4) demo_key) demo_world1 =
    (match lookup_key demo_kek demo_db1 demo_provider demo_key with
     | Ok (m, plaintext) => Ok (get_answer (1, 4) 0 m plaintext)
     | Raise (KeyNotFoundError _) => Ok (not_found_answer (1, 4) 0 GET)
     | Raise e => Raise e
     end, set_conn demo_db1 false demo_world1).
Proof.
  apply (service_get demo_mk demo_kek None).
  - exact demo_ready1.
  - exact demo_version.
  - vm_compute. discriminate.
Defined.

Lemma service_create_get_witness :
  create_get_session 0 1 demo_provider (1, 4) (str "datastore") demo_open.
Proof.
  exact (service_create_get demo_mk demo_kek None 0 1 demo_provider (1, 4) (str "datastore") demo_db demo_open
    demo_ready demo_mk_length demo_generation demo_provider_ok demo_version demo_name_ok demo_fresh).
Defined.

Lemma dispatch_answers_witness :
  exists version items responses,
    request_items version_request = Ok (version, items) /\
    response_message (1, 4) 7 [succeeded_batch DISCOVER_VERSIONS None (map _version_node SUPPORTED_PROTOCOL_VERSIONS)]
      = response_message version 7 responses /\
    Forall2 answers items responses /\ 1 <= zlen responses <= MAX_BATCH_ITEMS.
Proof. apply (dispatch_answers 7 demo_provider version_request demo_world demo_world). reflexivity. Defined.

Lemma dispatch_isolation_witness :
  wp (dispatch 0 demo_provider (get_request (1, 4) demo_key))
    (served (H0 := store_laws demo_mk demo_kek None) key_material demo_provider (contents demo_kek demo_db1)) demo_world1.
Proof. apply (dispatch_isolation (H0 := store_laws demo_mk demo_kek None)). exact demo_holds. Defined.

Lemma dispatch_answered_witness :
  wp (dispatch 0 demo_provider version_request) (fun r _ =>
    match r with
    | Ok response => wf response
    | Raise e => (request_items version_request = Raise e /\ handled e) \/ unanswered foreign e
    end) demo_world1.
Proof.
  apply (dispatch_answered (H0 := store_laws demo_mk demo_kek None) foreign wrapped_store_errors
    0 demo_provider version_request (contents demo_kek demo_db1)).
  - exact demo_holds.
  - repeat constructor.
  - reflexivity.
Defined.
