(* ===== verification/ServerProps.v ===== *)
(** The properties of the server's configuration ([src/atlaso/app/kmip/server.py]):
    what [parse_config] guarantees, what it raises, and how a client certificate is mapped
    to its provider. *)

From S2P Require Import Prelude Utf8 PyText Uuid Json Sha256 IpAddress Ttlv World Store StoreSpec Protocol Server.
Open Scope Z_scope.

(** The limits of a valid configuration. *)
Record valid_limits (l : ServiceLimits) : Prop := {
  vl_request : 1024 <= max_request_bytes l <= MAX_MESSAGE_BYTES;
  vl_connections : 1 <= max_connections l <= 256;
  vl_idle : 1 <= idle_timeout_seconds l <= 300;
  vl_requests : 1 <= max_requests_per_connection l <= 1024
}.

(** A provider of a valid configuration. *)
Record valid_provider (p : Provider) : Prop := {
  vp_id : canonical_uuid (provider_id p);
  vp_name : 1 <= zlen (provider_name p) <= 120;
  vp_nonempty : client_fingerprints p <> [];
  vp_digests : Forall is_digest (client_fingerprints p)
}.

(** A valid configuration: bounds on all limits, distinct addresses and providers, and no
    client certificate with two providers. *)
Record valid_config (c : ServiceConfig) : Prop := {
  vc_limits : valid_limits (limits c);
  vc_port : 1 <= port c <= 65535;
  vc_addresses : 1 <= zlen (listen_addresses c) <= 32 /\ NoDup (listen_addresses c);
  vc_providers : Forall valid_provider (providers c);
  vc_ids : NoDup (map provider_id (providers c));
  vc_fingerprints : NoDup (concat (map client_fingerprints (providers c)))
}.

Lemma all_distinct_spec {A} `{EqDecision A} (l : list A) : negb (all_distinct l) = false <-> NoDup l.
Proof. unfold all_distinct. by rewrite negb_false_iff, bool_decide_eq_true. Qed.

Lemma between_spec a b x : negb ((a <=? x) && (x <=? b)) = false <-> a <= x <= b.
Proof. rewrite negb_false_iff, andb_true_iff, !Z.leb_le. done. Qed.

Lemma parse_limits_Ok l r : parse_limits l = Ok r -> valid_limits r.
Proof.
  unfold parse_limits. intros E. do 8 (apply bind_Ok in E as (?&_&E)).
  do 4 (let H := fresh "B" in apply bind_Ok in E as (?&H&E); apply raise_if_Ok, between_spec in H).
  injection E as <-. by split.
Qed.

Lemma parse_listen_Ok l addresses p :
  parse_listen l = Ok (addresses, p) ->
  1 <= p <= 65535 /\ 1 <= zlen addresses <= 32 /\ NoDup addresses.
Proof.
  unfold parse_listen. intros E. apply bind_Ok in E as (values&_&E).
  destruct values as [| | | | |[|v vs]|]; try done.
  apply bind_Ok in E as (?&Hl&E). apply raise_if_Ok, Z.ltb_ge in Hl.
  apply bind_Ok in E as (a&Ha&E). apply res_mapM_Ok, Forall2_length in Ha.
  apply bind_Ok in E as (?&Hd&E). apply raise_if_Ok, all_distinct_spec in Hd.
  apply bind_Ok in E as (?&_&E). apply bind_Ok in E as (?&_&E). apply bind_Ok in E as (?&Hp&E).
  apply raise_if_Ok, between_spec in Hp. injection E as <- <-. split_and!; try done; try lia.
  all: unfold zlen in *; rewrite <- Ha in *; cbn [length] in *; lia.
Qed.

Lemma fingerprint_Ok v f : _fingerprint v = Ok f -> is_digest f.
Proof.
  unfold _fingerprint. destruct v; try done. intros E. apply bind_Ok in E as (?&H&E). injection E as <-.
  apply raise_if_Ok, orb_false_iff in H as [H1 H2]. apply negb_false_iff in H1, H2. split.
  - unfold zlen in H1. lia.
  - rewrite forallb_forall in H2. apply Forall_forall. intros c Hc. apply H2. by apply list_elem_of_In.
Qed.

Section Config.
Context (certificate_der : pystr -> res bytes).

Lemma certificate_Ok p f : certificate_sha256 certificate_der p = Ok f -> is_digest f.
Proof.
  unfold certificate_sha256. intros E. apply bind_Ok in E as (d&_&E). injection E as <-.
  split; [apply sha256_hex_length|apply bytes_hex_lower].
Qed.

Lemma provider_Ok v p : _provider certificate_der v = Ok p -> valid_provider p.
Proof.
  unfold _provider. intros E. do 3 (apply bind_Ok in E as (?&_&E)).
  apply bind_Ok in E as (pid&Hid&E). apply bind_Ok in E as (?&_&E). apply bind_Ok in E as (name&Hname&E).
  apply bind_Ok in E as (?&Hlen&E). apply raise_if_Ok, orb_false_iff in Hlen as [Hne Hle].
  apply bind_Ok in E as (configured&_&E). apply bind_Ok in E as (paths&_&E).
  destruct configured as [| | | | |configured|]; try done. destruct paths as [| | | | |paths|]; try done.
  apply bind_Ok in E as (listed&Hlisted&E). apply bind_Ok in E as (certified&Hcert&E).
  apply bind_Ok in E as (?&Hf&E). apply raise_if_Ok, bool_decide_eq_false in Hf.
  apply bind_Ok in E as (?&Hd&E). injection E as <-. split; cbn.
  - destruct x1; try done. apply rethrow_Ok in Hid. apply bind_Ok in Hid as (n&Hn&Hid). injection Hid as <-.
    exists n. split; [by eapply uuid_int_Ok|done].
  - apply bool_decide_eq_false in Hne. apply Z.ltb_ge in Hle. destruct name; [done|]. rewrite zlen_cons in *.
    pose proof (zlen_nonneg name). lia.
  - unfold sorted_str. intros E. apply Hf, Permutation_nil. by rewrite <- E, merge_sort_Permutation.
  - unfold sorted_str. rewrite merge_sort_Permutation. apply Forall_app. split.
    + apply res_mapM_Ok in Hlisted. clear -Hlisted. induction Hlisted; constructor; [by eapply fingerprint_Ok|done].
    + apply res_mapM_Ok in Hcert. clear -Hcert. induction Hcert as [|a b ? ? Hab]; constructor; [|done].
      apply bind_Ok in Hab as (?&_&Hab). by eapply certificate_Ok.
Qed.

Lemma parse_providers_Ok v ps :
  parse_providers certificate_der v = Ok ps ->
  Forall valid_provider ps /\ NoDup (map provider_id ps) /\ NoDup (concat (map client_fingerprints ps)).
Proof.
  unfold parse_providers. destruct v; try done. intros E. apply bind_Ok in E as (l'&Hl&E).
  apply bind_Ok in E as (?&H1&E). apply bind_Ok in E as (?&H2&E). injection E as <-.
  apply raise_if_Ok, all_distinct_spec in H1, H2. split_and!; [|done|done].
  apply res_mapM_Ok in Hl. clear -Hl. induction Hl; constructor; [by eapply provider_Ok|done].
Qed.

Lemma parse_config_Ok document config : parse_config certificate_der document = Ok config -> valid_config config.
Proof.
  unfold parse_config. intros E. do 19 (apply bind_Ok in E as (?&_&E)).
  apply bind_Ok in E as ([addresses p]&Hlisten&E). apply bind_Ok in E as (lim&Hlim&E).
  apply bind_Ok in E as (?&_&E). apply bind_Ok in E as (ps&Hps&E). do 8 (apply bind_Ok in E as (?&_&E)).
  injection E as <-. apply parse_listen_Ok in Hlisten as (Hp&Ha&Hd). apply parse_limits_Ok in Hlim.
  apply parse_providers_Ok in Hps as (H1&H2&H3). split; cbn; done.
Qed.

(* ------------------------------------------------------------------ *)
(** ** Errors *)

(** [r] fails with a [ConfigurationError] if at all. *)
Definition fails_closed {A} (r : res A) : Prop :=
  match r with Ok _ => True | Raise e => exists msg, e = ConfigurationError msg end.

Lemma closed_bind {A B} (r : res A) (f : A -> res B) :
  fails_closed r -> (forall a, r = Ok a -> fails_closed (f a)) -> fails_closed (r ≫= f).
Proof. destruct r; cbn; auto. Qed.

Lemma closed_Ok {A} (a : A) : fails_closed (Ok a).
Proof. done. Qed.

Lemma closed_raise {A} msg : fails_closed (@Raise A (ConfigurationError msg)).
Proof. cbn. eauto. Qed.

Lemma closed_raise_if b msg : fails_closed (raise_if b (ConfigurationError msg)).
Proof. destruct b; cbn; eauto. Qed.

Lemma closed_rethrow {A} cls msg (r : res A) :
  (forall e, r = Raise e -> cls e = true) -> fails_closed (rethrow cls (ConfigurationError msg) r).
Proof. intros Hr. destruct r as [a|e]; [done|]. cbn. rewrite Hr by done. cbn. eauto. Qed.

Lemma closed_mapM {A B} (f : A -> res B) l : (forall x, fails_closed (f x)) -> fails_closed (mapM f l).
Proof.
  intros Hf. destruct (mapM f l) as [k|e] eqn:E; [done|]. apply res_mapM_Raise in E as (x&_&E).
  specialize (Hf x). by rewrite E in Hf.
Qed.

Create HintDb closed.
#[local] Hint Resolve closed_bind closed_Ok closed_raise closed_raise_if closed_mapM : closed.

Lemma exact_fields_closed v expected label : fails_closed (_exact_fields v expected label).
Proof. unfold _exact_fields. auto with closed. Qed.

Lemma exact_fields_item v expected label u k :
  _exact_fields v expected label = Ok u -> k ∈ expected -> fails_closed (item v k).
Proof.
  unfold _exact_fields. intros E%raise_if_Ok Hk. apply orb_false_iff in E as [E _].
  apply negb_false_iff, bool_decide_eq_true in E. unfold item. destruct (dict_get k v) eqn:Ek; [done|].
  apply dict_get_None in Ek. assert (k ∈ filter (fun k => k ∉ v.*1) expected) as Hin by by apply list_elem_of_filter.
  rewrite E in Hin. by apply elem_of_nil in Hin.
Qed.

Lemma as_dict_closed v msg : fails_closed (as_dict v (ConfigurationError msg)).
Proof. destruct v; cbn; eauto. Qed.

Lemma path_closed v label : fails_closed (_path v label).
Proof. destruct v; cbn [_path]; auto with closed. Qed.

Lemma integer_closed v label : fails_closed (_integer v label).
Proof. destruct v; cbn; eauto. Qed.

Lemma ip_address_raise s e : ip_address_str s = Raise e -> is_ValueError e = true.
Proof. unfold ip_address_str. intros E. by repeat case_match; simplify_eq. Qed.

Lemma listen_address_closed v : fails_closed (listen_address v).
Proof. destruct v; cbn [listen_address]; auto with closed. apply closed_rethrow, ip_address_raise. Qed.

Lemma fingerprint_closed v : fails_closed (_fingerprint v).
Proof. destruct v; cbn [_fingerprint]; auto with closed. Qed.
#[local] Hint Resolve exact_fields_closed as_dict_closed path_closed integer_closed listen_address_closed
  fingerprint_closed : closed.

Lemma parse_limits_closed l u :
  _exact_fields l [str "max_request_bytes"; str "max_connections"; str "idle_timeout_seconds";
                   str "max_requests_per_connection"] "KMIP limits fields are invalid" = Ok u ->
  fails_closed (parse_limits l).
Proof.
  intros E. unfold parse_limits.
  repeat (apply closed_bind; [first [eapply exact_fields_item; [exact E|set_solver] | auto with closed]|intros ? _]).
  auto with closed.
Qed.

Lemma parse_listen_closed l u :
  _exact_fields l [str "addresses"; str "port"] "KMIP listen fields are invalid" = Ok u ->
  fails_closed (parse_listen l).
Proof.
  intros E. unfold parse_listen. apply closed_bind; [eapply exact_fields_item; [exact E|set_solver]|]. intros v _.
  destruct v as [| | | | |[|v vs]|]; auto with closed.
  repeat (apply closed_bind; [first [eapply exact_fields_item; [exact E|set_solver] | auto with closed]|intros ? _]).
  auto with closed.
Qed.

(** Reading a certificate fails with an [OSError] or a [ValueError]. *)
Context (certificate_errors : forall p e,
  certificate_der p = Raise e -> e = OSError \/ is_ValueError e = true).

Lemma certificate_closed p : fails_closed (certificate_sha256 certificate_der p).
Proof.
  unfold certificate_sha256. apply closed_bind; [|auto with closed]. apply closed_rethrow. intros e E.
  destruct (certificate_errors p e E) as [->|He]; [done|]. by destruct e.
Qed.

Lemma provider_closed v : fails_closed (_provider certificate_der v).
Proof.
  unfold _provider. apply closed_bind; [auto with closed|]. intros d _.
  apply closed_bind; [auto with closed|]. intros u Hu.
  assert (forall k, k ∈ PROVIDER_FIELDS -> fails_closed (item d k)) as Hi by (intros; by eapply exact_fields_item).
  apply closed_bind; [apply Hi; set_solver|]. intros raw _. apply closed_bind.
  { destruct raw; auto with closed. apply closed_rethrow. intros e E.
    apply bind_Raise in E as [E|(?&_&?)]; [|done]. by apply uuid_int_Raise in E as [? ->]. }
  intros pid _. apply closed_bind; [apply Hi; set_solver|]. intros raw_name _.
  apply closed_bind; [destruct raw_name; auto with closed|]. intros name _.
  apply closed_bind; [auto with closed|]. intros _ _. apply closed_bind; [apply Hi; set_solver|]. intros configured _.
  apply closed_bind; [apply Hi; set_solver|]. intros paths _. destruct configured, paths; auto with closed.
  apply closed_bind; [auto with closed|]. intros listed _. apply closed_bind.
  { apply closed_mapM. intros x. apply closed_bind; [auto with closed|]. intros p _. apply certificate_closed. }
  intros certified _. do 2 (apply closed_bind; [auto with closed|intros _ _]). auto with closed.
Qed.

Lemma parse_providers_closed v : fails_closed (parse_providers certificate_der v).
Proof.
  destruct v; cbn [parse_providers]; auto with closed. apply closed_bind; [apply closed_mapM, provider_closed|].
  intros ps _. do 2 (apply closed_bind; [auto with closed|intros _ _]). auto with closed.
Qed.

Lemma parse_config_closed document : fails_closed (parse_config certificate_der document).
Proof.
  unfold parse_config. apply closed_bind; [auto with closed|]. intros d _.
  apply closed_bind; [auto with closed|]. intros u Hu.
  assert (forall k, k ∈ CONFIG_FIELDS -> fails_closed (item d k)) as Hi by (intros; by eapply exact_fields_item).
  apply closed_bind; [apply Hi; set_solver|]. intros ver _. do 2 (apply closed_bind; [auto with closed|intros ? _]).
  apply closed_bind; [apply Hi; set_solver|]. intros en _. apply closed_bind; [destruct en; auto with closed|]. intros enb _.
  do 4 (apply closed_bind; [apply Hi; set_solver|intros ? _]). do 4 (apply closed_bind; [auto with closed|intros ? _]).
  apply closed_bind; [auto with closed|]. intros ? Hlisten. apply closed_bind; [auto with closed|]. intros ? Htls.
  apply closed_bind; [auto with closed|]. intros ? Hstore. apply closed_bind; [auto with closed|]. intros ? Hlimits.
  apply closed_bind; [by eapply parse_listen_closed|]. intros [addresses p] _.
  apply closed_bind; [by eapply parse_limits_closed|]. intros lim _.
  apply closed_bind; [apply Hi; set_solver|]. intros pv _. apply closed_bind; [apply parse_providers_closed|]. intros ps _.
  apply closed_bind; [apply Hi; set_solver|]. intros tv _. apply closed_bind; [destruct tv; auto with closed|]. intros trace _.
  do 3 (apply closed_bind; [apply closed_bind; [by eapply exact_fields_item; [exact Htls|set_solver]|auto with closed]|intros ? _]).
  do 2 (apply closed_bind; [apply closed_bind; [by eapply exact_fields_item; [exact Hstore|set_solver]|auto with closed]|intros ? _]).
  apply closed_bind; [|auto with closed]. destruct trace; [done|]. destruct (_path _ _) eqn:E; [done|].
  pose proof (path_closed (JStr (z :: trace)) "KMIP interop trace") as Hc. by rewrite E in Hc.
Qed.

(* ------------------------------------------------------------------ *)
(** ** Identity *)

Lemma fingerprint_keys ps :
  (concat (map (fun p => map (fun f => (f, provider_id p)) (client_fingerprints p)) ps)).*1
  = concat (map client_fingerprints ps).
Proof.
  induction ps as [|p ps IH]; [done|]. cbn [map concat]. rewrite fmap_app, IH. f_equal.
  induction (client_fingerprints p) as [|f l IHl]; [done|]. cbn. by f_equal.
Qed.

Lemma fingerprint_provider c f id :
  NoDup (concat (map client_fingerprints (providers c))) ->
  dict_get f (fingerprint_providers c) = Some id <->
  exists p, p ∈ providers c /\ f ∈ client_fingerprints p /\ provider_id p = id.
Proof.
  intros Hnd. unfold fingerprint_providers. rewrite dict_of_NoDup by by rewrite fingerprint_keys.
  set (pairs := concat _).
  assert ((f, id) ∈ pairs <-> exists p, p ∈ providers c /\ f ∈ client_fingerprints p /\ provider_id p = id) as Hin.
  { unfold pairs. rewrite list_elem_of_In, in_concat. setoid_rewrite in_map_iff. split.
    - intros (l&(p&<-&Hp)&Hl). apply in_map_iff in Hl as (g&[= -> <-]&Hg). exists p.
      rewrite !list_elem_of_In. done.
    - intros (p&Hp&Hf&<-). eexists. split; [exists p; split; [done|by apply list_elem_of_In]|].
      apply in_map_iff. exists f. split; [done|by apply list_elem_of_In]. }
  rewrite <- Hin. split; [apply dict_get_In|]. intros Hi. apply dict_get_elem; [|done]. unfold pairs. by rewrite fingerprint_keys.
Qed.

(** C37. A configuration that [parse_config] accepts is valid: the port, the request size,
    the connection, idle and request limits are in their ranges, addresses and provider
    identifiers are distinct, provider identifiers are canonical UUIDs, and every client
    fingerprint is a SHA-256 digest; and a fingerprint identifies a provider exactly when
    it is listed for that one provider. *)
Theorem parse_config_valid document config :
  parse_config certificate_der document = Ok config ->
  valid_config config /\
  forall f id, dict_get f (fingerprint_providers config) = Some id <->
    exists p, p ∈ providers config /\ f ∈ client_fingerprints p /\ provider_id p = id.
Proof.
  intros E. apply parse_config_Ok in E. split; [done|]. intros f id. apply fingerprint_provider, E.
Qed.

(** Configuration fails closed: whatever JSON document it is given, [parse_config]
    returns a configuration or raises a [ConfigurationError], never a [KeyError] or
    [TypeError] of its own. *)
Theorem parse_config_fails_closed document : fails_closed (parse_config certificate_der document).
Proof. apply parse_config_closed. Qed.
End Config.

(* ------------------------------------------------------------------ *)
(** ** Instances *)

Definition demo_fingerprint : pystr := sha256_hex (map to_byte (str "client certificate")).
Definition jobj (l : list (string * json)) : json := JDict (map (fun kv => (str kv.1, kv.2)) l).
Definition demo_document : json :=
  jobj [("schema_version", JInt 1); ("enabled", JBool true);
    ("listen", jobj [("addresses", JList [JStr (str "192.0.2.10"); JStr (str "2001:DB8::1")]); ("port", JInt 5696)]);
    ("tls", jobj [("certificate_path", JStr (str "/etc/kmip/server.pem"));
                  ("private_key_path", JStr (str "/etc/kmip/server.key")); ("ca_path", JStr (str "/etc/kmip/ca.pem"))]);
    ("store", jobj [("database_path", JStr (str "/var/kmip/keys.db")); ("kek_path", JStr (str "/var/kmip/kek.json"))]);
    ("limits", jobj [("max_request_bytes", JInt 65536); ("max_connections", JInt 32);
                     ("idle_timeout_seconds", JInt 30); ("max_requests_per_connection", JInt 16)]);
    ("providers", JList [jobj [("id", JStr (str "11111111-2222-3333-4444-555555555555"));
       ("name", JStr (str "vCenter")); ("client_fingerprints", JList [JStr demo_fingerprint]);
       ("client_certificate_paths", JList [])]]);
    ("interop_trace_path", JStr [])]%string.

Definition no_certificates (path : pystr) : res bytes := Raise OSError.
Definition no_config : ServiceConfig :=
  mkConfig false [] 0 [] [] [] [] [] (mkLimits 0 0 0 0) [] None.
Definition ok_config (r : res ServiceConfig) : ServiceConfig := match r with Ok c => c | Raise _ => no_config end.
Definition demo_config : ServiceConfig := ok_config (parse_config no_certificates demo_document).

Lemma demo_config_parsed : parse_config no_certificates demo_document = Ok demo_config.
Proof. vm_compute. reflexivity. Qed.

Lemma parse_config_valid_witness :
  valid_config demo_config /\
  forall f id, dict_get f (fingerprint_providers demo_config) = Some id <->
    exists p, p ∈ providers demo_config /\ f ∈ client_fingerprints p /\ provider_id p = id.
Proof. exact (parse_config_valid no_certificates demo_document demo_config demo_config_parsed). Defined.

Lemma parse_config_fails_closed_witness :
  fails_closed (parse_config no_certificates (jobj [("schema_version"%string, JInt 1)])).
Proof.
  apply parse_config_fails_closed. intros p e E. left. unfold no_certificates in E. congruence.
Defined.
