(* ===== verification/KeyProvidersProps.v ===== *)
(** The contract between the control plane and the KMIP service: the configuration that is
    rendered for a trust graph is accepted by the service, and admits exactly the clients
    of the graph. *)

From S2P Require Import Prelude Utf8 PyText Uuid Json JsonIndent Sha256 IpAddress Ttlv World Store StoreSpec Protocol Server.
From S2P Require Import Demo ServerProps KeyProviders.
Open Scope Z_scope.

(* ------------------------------------------------------------------ *)
(** ** The graph at an instant *)

Definition valid_at (now : Z) (c : CertificateRow) : Prop :=
  match tc_not_valid_before c with Some t => t <= now | None => True end /\
  match tc_not_valid_after c with Some t => now < t | None => True end.

#[global] Instance valid_at_dec now c : Decision (valid_at now c).
Proof. unfold valid_at. destruct (tc_not_valid_before c), (tc_not_valid_after c); apply _. Defined.

(** The usable fingerprints of a provider. *)
Definition fingerprints_at (now : Z) (vcenters : list TrustedVcenter) : list pystr :=
  concat (map (fun v => map tc_fingerprint (filter (valid_at now) (vcenter_certificates v)))
            (filter (fun v => vc_enabled (vcenter_row v) = true) vcenters)).

(** The enabled providers with usable fingerprints. *)
Definition graph_at (now : Z) (providers : list KeyProvider) : list (KeyProvider * list pystr) :=
  filter (fun pf => pf.2 <> [])
    (map (fun p => (p, sorted_set (fingerprints_at now (trusted_vcenters p))))
       (filter (fun p => kp_enabled (provider_row p) = true) providers)).

(** The certificates of the graph. *)
Definition graph_certificates (providers : list KeyProvider) : list CertificateRow :=
  concat (map (fun p => concat (map vcenter_certificates (trusted_vcenters p))) providers).

(** A client is admitted for a provider: provider and vCenter are enabled, and the
    certificate with the fingerprint is valid. *)
Definition admitted (now : Z) (providers : list KeyProvider) (f p : pystr) : Prop :=
  exists provider v c, provider ∈ providers /\ kp_enabled (provider_row provider) = true /\ kp_id (provider_row provider) = p /\
    v ∈ trusted_vcenters provider /\ vc_enabled (vcenter_row v) = true /\
    c ∈ vcenter_certificates v /\ valid_at now c /\ tc_fingerprint c = f.

Lemma usable_rows_at now l n :
  (length l <= n)%nat ->
  usable_rows l (repeat now n) = (Ok (filter (valid_at now) l), repeat now (n - length l)).
Proof.
  revert n. induction l as [|c l IH]; intros n Hn; cbn [usable_rows length].
  { by rewrite Nat.sub_0_r. }
  destruct n as [|n]; cbn in Hn; [lia|]. unfold certificate_status, read_clock, mbind, ST_bind, mret, ST_ret. cbn [repeat head tail default].
  rewrite IH by lia. cbn [Nat.sub]. unfold default, id, from_option. f_equal. f_equal.
  rewrite filter_cons. destruct (decide (valid_at now c)) as [Hv|Hv]; unfold valid_at in Hv;
    destruct (tc_not_valid_before c) as [t1|], (tc_not_valid_after c) as [t2|];
    repeat match goal with |- context [?a <? ?b] => destruct (Z.ltb_spec a b) | |- context [?a <=? ?b] => destruct (Z.leb_spec a b) end;
    try done; exfalso; try lia; by apply Hv.
Qed.

Lemma enabled_fingerprints_at now vcenters n :
  (length (concat (map vcenter_certificates vcenters)) <= n)%nat ->
  exists k, (n - length (concat (map vcenter_certificates vcenters)) <= k)%nat /\
    enabled_fingerprints vcenters (repeat now n) = (Ok (fingerprints_at now vcenters), repeat now k).
Proof.
  revert n. induction vcenters as [|v l IH]; intros n Hn; cbn [enabled_fingerprints map concat] in *.
  { exists n. split; [lia|done]. }
  rewrite length_app in *. destruct (vc_enabled (vcenter_row v)) eqn:E.
  - unfold mbind, ST_bind, usable_certificates. rewrite usable_rows_at by lia.
    destruct (IH (n - length (vcenter_certificates v))%nat) as (k&Hk&->); [lia|]. exists k. split; [lia|].
    unfold fingerprints_at. by rewrite filter_cons_True by done.
  - destruct (IH n) as (k&Hk&->); [lia|]. exists k. split; [lia|]. unfold fingerprints_at. by rewrite filter_cons_False by congruence.
Qed.

Definition graph_documents (graph : list (KeyProvider * list pystr)) : list json :=
  map (fun pf => provider_document (kp_id (provider_row pf.1)) (kp_name (provider_row pf.1)) pf.2) graph.

Lemma rendered_providers_at now providers n :
  Forall (fun p => canonical_uuid (kp_id (provider_row p))) providers ->
  (length (graph_certificates providers) <= n)%nat ->
  exists k, rendered_providers providers (repeat now n) = (Ok (graph_documents (graph_at now providers)), repeat now k).
Proof.
  intros Hids. revert n. induction Hids as [|p l Hid _ IH]; intros n Hn; cbn [rendered_providers].
  { by exists n. }
  unfold graph_certificates in Hn, IH. cbn [map concat] in Hn. rewrite length_app in Hn. unfold graph_at.
  destruct (kp_enabled (provider_row p)) eqn:E; [rewrite filter_cons_True by done|rewrite filter_cons_False by congruence; apply IH; lia].
  destruct (enabled_fingerprints_at now (trusted_vcenters p) n) as (k&Hk&Ef); [lia|]. unfold mbind at 1, ST_bind at 1. rewrite Ef. cbv zeta.
  set (fs := sorted_set _). cbn [map]. destruct (IH k) as (k'&E'); [lia|]. exists k'. rewrite filter_cons. cbn [snd].
  unfold mbind, ST_bind. case_bool_decide as Hfs; rewrite ?decide_True, ?decide_False by (done || auto).
  - cbn [mret ST_ret]. rewrite E'. done.
  - destruct Hid as (m&Hm&Hid). unfold normalize_provider_id. rewrite Hid, uuid_int_str by done. cbn [mbind res_bind].
    rewrite bool_decide_eq_true_2 by done. cbn [negb raise_if mbind res_bind lift mret ST_ret]. rewrite E'. cbn. by rewrite Hid.
Qed.

(* ------------------------------------------------------------------ *)
(** ** The service reads the document *)

Lemma digest_fingerprint f : is_digest f -> _fingerprint (JStr f) = Ok f.
Proof.
  intros [Hl Hf]. assert (forall c, is_lower_hex c = true -> 48 <= c < 127 /\ c <> 58 /\ is_space c = false /\ (c < 65 \/ 90 < c)) as Hc.
  { intros c Hc. unfold is_lower_hex in Hc. unfold is_space, is_ascii_space, is_unicode_space. lia. }
  assert (casefold_hex (strip is_space (replace_empty (str ":") f)) = f) as E.
  { rewrite (replace_empty_absent 58 []); [rewrite strip_id|].
    - unfold casefold_hex. clear Hl. induction Hf as [|c f Hx _ IH]; [done|]. cbn [map concat]. rewrite IH. apply Hc in Hx.
      replace ((65 <=? c) && (c <=? 90)) with false by lia. by replace (c =? 64256) with false by lia.
    - eapply Forall_impl; [exact Hf|]. intros c Hx. by apply Hc.
    - intros Hin. rewrite Forall_forall in Hf. apply Hf, Hc in Hin. lia. }
  unfold _fingerprint. rewrite E. unfold zlen. rewrite Hl. cbn [Z.of_nat Z.eqb Pos.of_succ_nat Pos.succ Pos.eqb negb orb].
  replace (forallb is_lower_hex f) with true; [done|]. symmetry. apply forallb_forall. intros c Hx.
  rewrite Forall_forall in Hf. by apply Hf, list_elem_of_In.
Qed.

Lemma digest_fingerprints l : Forall is_digest l -> mapM _fingerprint (map JStr l) = Ok l.
Proof. induction 1 as [|f fs Hf _ IH]; [done|]. cbn [map mapM]. by rewrite digest_fingerprint, IH by done. Qed.

Lemma sort_dicts_texts l : map sort_dicts (map JStr l) = map JStr l.
Proof. by rewrite map_map. Qed.

Lemma sorted_set_Sorted l : sorted_str (sorted_set l) = sorted_set l.
Proof.
  unfold sorted_set, sorted_str. apply (StronglySorted_unique str_le); [apply StronglySorted_merge_sort; apply _..|].
  apply merge_sort_Permutation.
Qed.

Lemma sorted_set_elem l f : f ∈ sorted_set l <-> f ∈ l.
Proof. unfold sorted_set, sorted_str. rewrite merge_sort_Permutation. apply elem_of_remove_dups. Qed.

Lemma sorted_set_NoDup l : NoDup (sorted_set l).
Proof. unfold sorted_set, sorted_str. rewrite merge_sort_Permutation. apply NoDup_remove_dups. Qed.

Lemma sorted_provider {A} (a b c d : A) :
  sorted_items [(str "id", a); (str "name", b); (str "client_fingerprints", c); (str "client_certificate_paths", d)]
  = [(str "client_certificate_paths", d); (str "client_fingerprints", c); (str "id", a); (str "name", b)].
Proof. reflexivity. Qed.

(** The fields that the service reads. *)
Lemma provider_fields a b c d :
  let v := [(str "client_certificate_paths", d); (str "client_fingerprints", c); (str "id", a); (str "name", b)] in
  _exact_fields v PROVIDER_FIELDS "KMIP provider fields are invalid" = Ok tt /\
  item v (str "id") = Ok a /\ item v (str "name") = Ok b /\ item v (str "client_fingerprints") = Ok c /\
  item v (str "client_certificate_paths") = Ok d.
Proof. vm_compute. split_and!; reflexivity. Qed.

Lemma bind_ok {A B} (a : A) (k : A -> res B) : (Ok a ≫= k) = k a.
Proof. done. Qed.

Lemma raise_if_false e : raise_if false e = Ok tt.
Proof. done. Qed.

Section Accepts.
Context (certificate_der : pystr -> res bytes).

Lemma provider_reads v n name l :
  _exact_fields v PROVIDER_FIELDS "KMIP provider fields are invalid" = Ok tt ->
  item v (str "id") = Ok (JStr (uuid_str n)) -> item v (str "name") = Ok (JStr name) ->
  item v (str "client_fingerprints") = Ok (JList (map JStr l)) -> item v (str "client_certificate_paths") = Ok (JList []) ->
  0 <= n < 2 ^ 128 -> 1 <= zlen (strip is_space name) <= 120 -> Forall is_digest l -> NoDup l -> l <> [] ->
  _provider certificate_der (JDict v) = Ok (mkProvider (uuid_str n) (strip is_space name) (sorted_str l)).
Proof.
  intros H0 H1 H2 H3 H4 Hn Hname Hl Hnd Hne. unfold _provider, as_dict. rewrite bind_ok, H0, bind_ok, H1, bind_ok, uuid_int_str by done.
  rewrite bind_ok. unfold rethrow. rewrite bind_ok, H2, !bind_ok.
  rewrite (bool_decide_eq_false_2 (strip is_space name = [])) by (intros E; rewrite E in Hname; unfold zlen in Hname; cbn in Hname; lia).
  rewrite (proj2 (Z.ltb_ge 120 _)) by lia. cbn [orb]. rewrite raise_if_false, bind_ok, H3, bind_ok, H4, bind_ok, digest_fingerprints by done.
  rewrite bind_ok. cbn [mapM mret res_ret]. rewrite bind_ok, app_nil_r, (bool_decide_eq_false_2 (l = [])) by done.
  rewrite raise_if_false, bind_ok, (proj2 (all_distinct_spec _) Hnd), raise_if_false. done.
Qed.

Lemma provider_accepted id name l :
  canonical_uuid id -> 1 <= zlen (strip is_space name) <= 120 -> Forall is_digest l -> l <> [] ->
  _provider certificate_der (sort_dicts (provider_document id name (sorted_set l)))
    = Ok (mkProvider id (strip is_space name) (sorted_set l)).
Proof.
  intros (n&Hn&->) Hname Hl Hne. unfold provider_document. cbn [sort_dicts map fst snd]. rewrite sorted_provider, sort_dicts_texts.
  rewrite <- sorted_set_Sorted at 2.
  destruct (provider_fields (JStr (uuid_str n)) (JStr name) (JList (map JStr (sorted_set l))) (JList [])) as (H0&H1&H2&H3&H4).
  apply provider_reads; try done; [|apply sorted_set_NoDup|].
  - apply Forall_forall. intros f Hf. rewrite sorted_set_elem in Hf. rewrite Forall_forall in Hl. by apply Hl.
  - destruct l as [|f l]; [done|]. intros E. assert (f ∈ sorted_set (f :: l)) as Hf by (rewrite sorted_set_elem; by left).
    rewrite E in Hf. by apply not_elem_of_nil in Hf.
Qed.

Lemma parse_config_reads document enabled listen tls store limits providers addresses port lim ps cert key ca db kek :
  _exact_fields document CONFIG_FIELDS "KMIP configuration fields are invalid" = Ok tt ->
  item document (str "schema_version") = Ok (JInt 1) -> item document (str "enabled") = Ok (JBool enabled) ->
  item document (str "listen") = Ok (JDict listen) -> item document (str "tls") = Ok (JDict tls) ->
  item document (str "store") = Ok (JDict store) -> item document (str "limits") = Ok (JDict limits) ->
  item document (str "providers") = Ok (JList providers) -> item document (str "interop_trace_path") = Ok (JStr []) ->
  _exact_fields listen [str "addresses"; str "port"] "KMIP listen fields are invalid" = Ok tt ->
  _exact_fields tls [str "certificate_path"; str "private_key_path"; str "ca_path"] "KMIP TLS fields are invalid" = Ok tt ->
  _exact_fields store [str "database_path"; str "kek_path"] "KMIP store fields are invalid" = Ok tt ->
  _exact_fields limits [str "max_request_bytes"; str "max_connections"; str "idle_timeout_seconds";
                        str "max_requests_per_connection"] "KMIP limits fields are invalid" = Ok tt ->
  parse_listen listen = Ok (addresses, port) -> parse_limits limits = Ok lim ->
  parse_providers certificate_der (JList providers) = Ok ps ->
  (v ← item tls (str "certificate_path"); _path v "KMIP server certificate") = Ok cert ->
  (v ← item tls (str "private_key_path"); _path v "KMIP server private key") = Ok key ->
  (v ← item tls (str "ca_path"); _path v "KMIP CA certificate") = Ok ca ->
  (v ← item store (str "database_path"); _path v "KMIP database") = Ok db ->
  (v ← item store (str "kek_path"); _path v "KMIP KEK envelope") = Ok kek ->
  parse_config certificate_der (JDict document) = Ok (mkConfig enabled addresses port cert key ca db kek lim ps None).
Proof.
  intros H0 H1 H2 H3 H4 H5 H6 H7 H8 E1 E2 E3 E4 P1 P2 P3 Q1 Q2 Q3 Q4 Q5. unfold parse_config.
  cbn [as_dict]. rewrite bind_ok, H0, bind_ok, H1, bind_ok. cbn [_integer]. rewrite bind_ok. cbn [Z.eqb Pos.eqb negb].
  rewrite raise_if_false, bind_ok, H2, !bind_ok, H3, bind_ok, H4, bind_ok, H5, bind_ok, H6, bind_ok. cbn [as_dict].
  rewrite !bind_ok, E1, bind_ok, E2, bind_ok, E3, bind_ok, E4, bind_ok, P1, bind_ok, P2, bind_ok, H7, bind_ok, P3, bind_ok, H8, !bind_ok.
  cbv zeta. rewrite Q1, bind_ok, Q2, bind_ok, Q3, bind_ok, Q4, bind_ok, Q5, bind_ok. done.
Qed.
End Accepts.

(* ------------------------------------------------------------------ *)
(** ** Texts *)

Lemma lstrip_nonempty p s c : c ∈ s -> p c = false -> lstrip p s <> [].
Proof.
  induction s as [|x s IH]; [by intros ?%not_elem_of_nil|]. intros Hc Hp. cbn. destruct (p x) eqn:E; [|done].
  apply elem_of_cons in Hc as [-> |Hc]; [congruence|]. by apply IH.
Qed.

(** An absolute path. *)
Lemma slash_path s label : head s = Some 47 -> _path (JStr s) label = Ok s.
Proof.
  intros Hs. unfold _path. rewrite (bool_decide_eq_true_2 _ Hs), bool_decide_eq_false_2; [done|].
  destruct s as [|c s]; [done|]. injection Hs as ->. unfold strip. rewrite (lstrip_id _ (47 :: s)) by done. intros E.
  apply (f_equal (@rev Z)) in E. rewrite rev_involutive in E. revert E. apply (lstrip_nonempty _ _ 47); [|done].
  apply list_elem_of_In, in_rev. rewrite rev_involutive. by left.
Qed.

Lemma safe_scalar s : Forall (fun c => safe_char c = true) s -> scalar_text s.
Proof. intros Hs. apply ascii_scalar. eapply Forall_impl; [exact Hs|]. intros c Hc. unfold safe_char in Hc. lia. Qed.

Lemma sub_unsafe_safe b s : Forall (fun c => safe_char c = true) (sub_unsafe b s).
Proof.
  revert b. induction s as [|c s IH]; intros b; cbn; [constructor|]. destruct (safe_char c) eqn:E; [by constructor|].
  destruct b; [done|by constructor].
Qed.

Lemma hex_safe s : Forall (fun c => is_lower_hex c = true) s -> Forall (fun c => safe_char c = true) s.
Proof. intros Hs. eapply Forall_impl; [exact Hs|]. intros c. unfold is_lower_hex, safe_char. lia. Qed.

Lemma safe_name_safe value name : safe_certificate_name value = Ok name -> Forall (fun c => safe_char c = true) name.
Proof.
  unfold safe_certificate_name. set (safe := strip _ _).
  assert (Forall (fun c => safe_char c = true) safe) as Hs by (apply strip_Forall, sub_unsafe_safe).
  case_bool_decide; [intros [= <-]; by repeat constructor|]. destruct (245 <? zlen safe); [|by intros [= <-]].
  intros E. apply bind_Ok in E as (encoded&_&E). injection E as <-.
  apply Forall_app; split; [by apply Forall_take|]. constructor; [done|apply hex_safe, bytes_hex_lower].
Qed.

(** Rendered paths are absolute and plain text. *)
Definition plain_path (s : pystr) : Prop := head s = Some 47 /\ scalar_text s.

Lemma base_path s : Forall (fun c => safe_char c = true) s -> plain_path (KMS_SERVER_CERT_BASE ++ str "/" ++ s).
Proof.
  intros Hs. split; [done|]. apply Forall_app; split; [by apply (bool_decide_unpack _)|].
  apply Forall_app; split; [by apply (bool_decide_unpack _)|by apply safe_scalar].
Qed.

Lemma server_paths_plain settings fingerprint c k : server_paths settings fingerprint = Ok (c, k) -> plain_path c /\ plain_path k.
Proof.
  unfold server_paths. intros E. apply bind_Ok in E as (name&Hname&E). apply safe_name_safe in Hname.
  case_bool_decide.
  - injection E as <- <-. split; apply base_path, Forall_app; (split; [done|by repeat constructor]).
  - apply bind_Ok in E as ([[c' k'] ch]&E&E2). injection E2 as -> ->. unfold kms_server_certificate_paths in E.
    apply bind_Ok in E as (u&Hu&E). apply raise_if_Ok in Hu. apply orb_false_iff in Hu as [_ Hu]. apply negb_false_iff, andb_true_iff in Hu as [_ Hu].
    assert (Forall (fun c => safe_char c = true) fingerprint) as Hf.
    { apply hex_safe. rewrite forallb_forall in Hu. apply Forall_forall. intros x Hx. by apply Hu, list_elem_of_In. }
    apply bind_Ok in E as (name'&Hn'&E). assert (Forall (fun c => safe_char c = true) name') as Hname'.
    { destruct (179 <? zlen name); [|by injection Hn' as <-]. apply bind_Ok in Hn' as (encoded&_&Hn'). injection Hn' as <-.
      apply Forall_app; split; [by apply Forall_take|]. constructor; [done|]. apply Forall_take, hex_safe, bytes_hex_lower. }
    injection E as <- <- _. rewrite <- !app_assoc. split; apply base_path;
      repeat first [done | apply Forall_app; split | by repeat constructor | constructor; [done|]].
Qed.

Lemma ordered_unique_elem seen l x : x ∈ ordered_unique seen l -> x ∈ l.
Proof.
  revert seen. induction l as [|y l IH]; intros seen; cbn; [done|]. destruct (mem y seen); [by right; eapply IH|].
  rewrite !elem_of_cons. intros [->|Hx]; [by left|right; by eapply IH].
Qed.

Lemma split_addresses_scalar raw : scalar_text raw -> Forall scalar_text (split_addresses raw).
Proof.
  intros Hr. apply Forall_forall. intros x Hx. apply ordered_unique_elem, list_elem_of_filter in Hx as [_ Hx].
  apply list_elem_of_fmap in Hx as (p&->&Hp). apply strip_Forall. pose proof (split_where_Forall _ is_separator _ Hr) as Hall.
  rewrite Forall_forall in Hall. by apply Hall.
Qed.

Lemma rendered_addresses_scalar settings : scalar_text (kms_listen_address settings) -> Forall scalar_text (rendered_addresses settings).
Proof.
  intros Hs. unfold rendered_addresses. destruct (_ && _); [by apply split_addresses_scalar|].
  constructor; [by apply (bool_decide_unpack _)|constructor].
Qed.

(* ------------------------------------------------------------------ *)
(** ** The rendered graph *)

Lemma fingerprints_at_elem now vcenters f :
  f ∈ fingerprints_at now vcenters <->
  exists v c, v ∈ vcenters /\ vc_enabled (vcenter_row v) = true /\ c ∈ vcenter_certificates v /\ valid_at now c /\ tc_fingerprint c = f.
Proof.
  unfold fingerprints_at. rewrite list_elem_of_In, in_concat. split.
  - intros (l&Hl&Hf). apply in_map_iff in Hl as (v&<-&Hv). apply list_elem_of_In, list_elem_of_filter in Hv as [He Hv].
    apply in_map_iff in Hf as (c&<-&Hc). apply list_elem_of_In, list_elem_of_filter in Hc as [Ha Hc]. by exists v, c.
  - intros (v&c&Hv&He&Hc&Ha&<-). eexists. split; [apply in_map_iff; exists v; split; [done|]|].
    + apply list_elem_of_In, list_elem_of_filter. done.
    + apply in_map_iff. exists c. split; [done|]. by apply list_elem_of_In, list_elem_of_filter.
Qed.

Lemma graph_at_elem now providers p fs :
  (p, fs) ∈ graph_at now providers <->
  p ∈ providers /\ kp_enabled (provider_row p) = true /\ fs = sorted_set (fingerprints_at now (trusted_vcenters p)) /\ fs <> [].
Proof.
  unfold graph_at. rewrite list_elem_of_filter, list_elem_of_fmap. cbn [snd]. split.
  - intros [Hne (q&E&Hq)]. injection E as -> ->. apply list_elem_of_filter in Hq as [He Hq]. done.
  - intros (Hp&He&->&Hne). split; [done|]. exists p. split; [done|]. by apply list_elem_of_filter.
Qed.

Lemma graph_fingerprint now providers p fs f :
  (p, fs) ∈ graph_at now providers -> f ∈ fs -> exists c, c ∈ graph_certificates providers /\ tc_fingerprint c = f.
Proof.
  intros (Hp&_&->&_)%graph_at_elem Hf. rewrite sorted_set_elem, fingerprints_at_elem in Hf. destruct Hf as (v&c&Hv&_&Hc&_&<-).
  exists c. split; [|done]. unfold graph_certificates. rewrite list_elem_of_In, in_concat. eexists. split.
  - apply in_map_iff. exists p. split; [done|by apply list_elem_of_In].
  - apply in_concat. exists (vcenter_certificates v). split; [|by apply list_elem_of_In].
    apply in_map_iff. exists v. split; [done|by apply list_elem_of_In].
Qed.

Lemma graph_at_sublist now providers : (graph_at now providers).*1 `sublist_of` providers.
Proof.
  unfold graph_at. induction providers as [|p l IH]; [done|]. rewrite filter_cons. case_decide; [|by apply sublist_cons].
  cbn [map]. rewrite filter_cons. case_decide; [by apply sublist_skip|by apply sublist_cons].
Qed.

Lemma graph_at_cons now p providers :
  graph_at now (p :: providers) = graph_at now [p] ++ graph_at now providers.
Proof. unfold graph_at. rewrite !filter_cons. destruct (decide _); [|done]. cbn [map]. rewrite !filter_cons. by destruct (decide _). Qed.

Lemma graph_NoDup now providers :
  NoDup (map tc_fingerprint (graph_certificates providers)) -> NoDup (concat (map snd (graph_at now providers))).
Proof.
  induction providers as [|p l IH]; [constructor|]. unfold graph_certificates. cbn [map concat]. rewrite map_app. intros (H1&H2&H3)%NoDup_app.
  rewrite graph_at_cons, map_app, concat_app. apply NoDup_app. split; [|split; [|by apply IH]].
  - unfold graph_at. rewrite filter_cons. destruct (decide _); [|constructor]. cbn [map filter]. rewrite filter_cons.
    destruct (decide _); [|constructor]. cbn. rewrite app_nil_r. apply sorted_set_NoDup.
  - intros f Hf Hf'. assert (forall ps, f ∈ concat (map snd (graph_at now ps)) -> f ∈ map tc_fingerprint (graph_certificates ps)) as Hin.
    { intros ps Hx. apply list_elem_of_In, in_concat in Hx as (fs&Hfs&Hx). apply in_map_iff in Hfs as ([q fs']&<-&Hq).
      apply list_elem_of_In in Hq, Hx. destruct (graph_fingerprint _ _ _ _ _ Hq Hx) as (c&Hc&<-). by apply list_elem_of_fmap_2. }
    apply (H2 f); [|by apply (Hin l)]. apply Hin in Hf. unfold graph_certificates in Hf. cbn [map concat] in Hf. by rewrite app_nil_r in Hf.
Qed.

(** What the settings and the tables guarantee: addresses that can be read, and the
    constraints on identifiers, names and fingerprints. *)
Record renderable (settings : KmsSettings) (providers : list KeyProvider) (ips : list pystr) : Prop := {
  rd_listen : scalar_text (kms_listen_address settings);
  rd_ips : mapM listen_address (map JStr (rendered_addresses settings)) = Ok ips;
  rd_distinct : NoDup ips /\ zlen ips <= 32;
  rd_port : 1 <= kms_port settings <= 65535;
  rd_ids : Forall (fun p => canonical_uuid (kp_id (provider_row p))) providers;
  rd_unique : NoDup (map (fun p => kp_id (provider_row p)) providers);
  rd_names : Forall (fun p => scalar_text (kp_name (provider_row p)) /\ 1 <= zlen (strip is_space (kp_name (provider_row p))) <= 120) providers;
  rd_digests : Forall is_digest (map tc_fingerprint (graph_certificates providers));
  rd_fingerprints : NoDup (map tc_fingerprint (graph_certificates providers))
}.

Definition service_provider (pf : KeyProvider * list pystr) : Provider :=
  mkProvider (kp_id (provider_row pf.1)) (strip is_space (kp_name (provider_row pf.1))) pf.2.

Lemma sorted_config {A} (a b c d e f g h : A) :
  sorted_items [(str "schema_version", a); (str "enabled", b); (str "listen", c); (str "tls", d); (str "store", e); (str "limits", f);
    (str "providers", g); (str "interop_trace_path", h)]
  = [(str "enabled", b); (str "interop_trace_path", h); (str "limits", f); (str "listen", c); (str "providers", g);
     (str "schema_version", a); (str "store", e); (str "tls", d)].
Proof. reflexivity. Qed.

Lemma sorted_tls {A} (a b c : A) :
  sorted_items [(str "certificate_path", a); (str "private_key_path", b); (str "ca_path", c)]
  = [(str "ca_path", c); (str "certificate_path", a); (str "private_key_path", b)].
Proof. reflexivity. Qed.

Lemma config_fields (a b c d e f g h : json) :
  let v := [(str "enabled", b); (str "interop_trace_path", h); (str "limits", f); (str "listen", c); (str "providers", g);
     (str "schema_version", a); (str "store", e); (str "tls", d)] in
  _exact_fields v CONFIG_FIELDS "KMIP configuration fields are invalid" = Ok tt /\
  item v (str "schema_version") = Ok a /\ item v (str "enabled") = Ok b /\ item v (str "listen") = Ok c /\
  item v (str "tls") = Ok d /\ item v (str "store") = Ok e /\ item v (str "limits") = Ok f /\
  item v (str "providers") = Ok g /\ item v (str "interop_trace_path") = Ok h.
Proof. vm_compute. split_and!; reflexivity. Qed.

Lemma tls_fields (a b c : json) :
  let v := [(str "ca_path", c); (str "certificate_path", a); (str "private_key_path", b)] in
  _exact_fields v [str "certificate_path"; str "private_key_path"; str "ca_path"] "KMIP TLS fields are invalid" = Ok tt /\
  item v (str "certificate_path") = Ok a /\ item v (str "private_key_path") = Ok b /\ item v (str "ca_path") = Ok c.
Proof. vm_compute. split_and!; reflexivity. Qed.

Lemma listen_fields (a b : json) :
  _exact_fields [(str "addresses", a); (str "port", b)] [str "addresses"; str "port"] "KMIP listen fields are invalid" = Ok tt.
Proof. vm_compute. reflexivity. Qed.

(** The sections of the document that do not depend on the settings. *)
Definition store_section : list (pystr * json) :=
  [(str "database_path", JStr KMS_DEFAULT_DATABASE_PATH); (str "kek_path", JStr KMS_DEFAULT_KEK_PATH)].
Definition limits_section : list (pystr * json) :=
  [(str "idle_timeout_seconds", JInt 30); (str "max_connections", JInt 32); (str "max_request_bytes", JInt 1048576);
   (str "max_requests_per_connection", JInt 128)].

Lemma sorted_document enabled addresses port cert key docs :
  sort_dicts (config_document enabled addresses port cert key docs)
  = JDict [(str "enabled", JBool enabled); (str "interop_trace_path", JStr []); (str "limits", JDict limits_section);
           (str "listen", JDict [(str "addresses", JList (map JStr addresses)); (str "port", JInt port)]);
           (str "providers", JList (map sort_dicts docs)); (str "schema_version", JInt 1); (str "store", JDict store_section);
           (str "tls", JDict [(str "ca_path", JStr (str "/etc/atlaso/kmip/client-trust.pem")); (str "certificate_path", JStr cert);
                              (str "private_key_path", JStr key)])].
Proof.
  unfold config_document. cbn [sort_dicts map fst snd]. rewrite sorted_config, sorted_tls, sort_dicts_texts. reflexivity.
Qed.

Section Rendered.
Context (certificate_der : pystr -> res bytes) (settings : KmsSettings) (providers : list KeyProvider) (ips : list pystr).
Context (Hok : renderable settings providers ips) (now : Z).

Lemma graph_digests p fs : (p, fs) ∈ graph_at now providers -> Forall is_digest fs.
Proof.
  intros Hp. apply Forall_forall. intros f Hf. destruct (graph_fingerprint _ _ _ _ _ Hp Hf) as (c&Hc&<-).
  pose proof (rd_digests _ _ _ Hok) as Hd. rewrite Forall_forall in Hd. by apply Hd, list_elem_of_fmap_2.
Qed.

Lemma providers_accepted :
  parse_providers certificate_der (JList (map sort_dicts (graph_documents (graph_at now providers))))
    = Ok (map service_provider (graph_at now providers)).
Proof.
  unfold parse_providers.
  assert (mapM (_provider certificate_der) (map sort_dicts (graph_documents (graph_at now providers)))
    = Ok (map service_provider (graph_at now providers))) as ->.
  { assert (forall l, l ⊆ graph_at now providers ->
      mapM (_provider certificate_der) (map sort_dicts (graph_documents l)) = Ok (map service_provider l)) as Hl; [|by apply Hl].
    induction l as [|[p fs] l IH]; intros Hsub; [done|]. cbn [graph_documents map mapM fst snd].
    assert ((p, fs) ∈ graph_at now providers) as Hin by (apply Hsub; by left).
    pose proof (graph_digests _ _ Hin) as Hdig. pose proof Hin as (Hp&_&Hfs&Hne)%graph_at_elem.
    pose proof (rd_ids _ _ _ Hok) as Hids. pose proof (rd_names _ _ _ Hok) as Hnames. rewrite Forall_forall in Hids, Hnames.
    rewrite Hfs in Hdig, Hne |- *. rewrite provider_accepted.
    - rewrite bind_ok. fold (graph_documents l). by rewrite IH by (intros x Hx; apply Hsub; by right).
    - by apply Hids.
    - by apply Hnames.
    - apply Forall_forall. intros f Hf. rewrite <- sorted_set_elem in Hf. rewrite Forall_forall in Hdig. by apply Hdig.
    - intros E. rewrite E in Hne. done. }
  rewrite bind_ok, (proj2 (all_distinct_spec _)), raise_if_false, bind_ok, (proj2 (all_distinct_spec _)), raise_if_false; [done|..].
  2: rewrite map_map; apply (graph_NoDup now), Hok.
  - rewrite map_map. cbn. pose proof (rd_unique _ _ _ Hok) as Hu. eapply sublist_NoDup; [exact Hu|].
    rewrite <- (map_map fst (fun p => kp_id (provider_row p))). apply (fmap_sublist (fun p => kp_id (provider_row p)) _ _ (graph_at_sublist now providers)).
Qed.

Lemma listen_accepted :
  parse_listen [(str "addresses", JList (map JStr (rendered_addresses settings))); (str "port", JInt (kms_port settings))]
    = Ok (ips, kms_port settings).
Proof.
  pose proof Hok as [_ Hips [Hnd Hlen] Hport _ _ _ _ _].
  assert (rendered_addresses settings <> []) as Hne.
  { unfold rendered_addresses. destruct (_ && _) eqn:E; [|done]. apply andb_true_iff in E as [_ E].
    apply negb_true_iff, bool_decide_eq_false in E. done. }
  pose proof Hips as Hl%res_mapM_Ok%Forall2_length. unfold parse_listen, item. dict_simpl. rewrite bind_ok.
  set (l := map JStr (rendered_addresses settings)) in *. assert (l <> []) as Hne' by (unfold l; by destruct (rendered_addresses settings)).
  destruct l as [|v vs]; [done|]. rewrite (proj2 (Z.ltb_ge 32 _)) by (unfold zlen in *; lia).
  rewrite raise_if_false, bind_ok, Hips, bind_ok, (proj2 (all_distinct_spec _)), raise_if_false, !bind_ok by done.
  cbn [_integer]. rewrite bind_ok, (proj2 (between_spec 1 65535 _)), raise_if_false by done. done.
Qed.

(** The configuration that the service reads. *)
Definition service_config (cert key : pystr) : ServiceConfig :=
  mkConfig (kms_enabled settings) ips (kms_port settings) cert key (str "/etc/atlaso/kmip/client-trust.pem")
    KMS_DEFAULT_DATABASE_PATH KMS_DEFAULT_KEK_PATH (mkLimits 1048576 32 30 128) (map service_provider (graph_at now providers)) None.

Definition rendered_document (cert key : pystr) : json :=
  config_document (kms_enabled settings) (rendered_addresses settings) (kms_port settings) cert key
    (graph_documents (graph_at now providers)).

Lemma config_accepted cert key :
  plain_path cert -> plain_path key ->
  parse_config certificate_der (sort_dicts (rendered_document cert key)) = Ok (service_config cert key).
Proof.
  intros [Hc _] [Hk _]. unfold rendered_document. rewrite sorted_document.
  set (tls := [_; (str "certificate_path", _); _]). set (listen := [_; (str "port", _)]).
  destruct (config_fields (JInt 1) (JBool (kms_enabled settings)) (JDict listen) (JDict tls) (JDict store_section)
    (JDict limits_section) (JList (map sort_dicts (graph_documents (graph_at now providers)))) (JStr [])) as (F0&F1&F2&F3&F4&F5&F6&F7&F8).
  destruct (tls_fields (JStr cert) (JStr key) (JStr (str "/etc/atlaso/kmip/client-trust.pem"))) as (T0&T1&T2&T3).
  apply (parse_config_reads certificate_der _ _ listen tls store_section limits_section
    (map sort_dicts (graph_documents (graph_at now providers))) _ _ _ _ _ _ _ _ _ F0 F1 F2 F3 F4 F5 F6 F7 F8).
  - apply listen_fields.
  - exact T0.
  - vm_compute. reflexivity.
  - vm_compute. reflexivity.
  - apply listen_accepted.
  - vm_compute. reflexivity.
  - apply providers_accepted.
  - unfold tls. rewrite T1, bind_ok. by apply slash_path.
  - unfold tls. rewrite T2, bind_ok. by apply slash_path.
  - unfold tls. rewrite T3, bind_ok. by apply slash_path.
  - vm_compute. reflexivity.
  - vm_compute. reflexivity.
Qed.

Lemma texts_dumpable l : Forall scalar_text l -> dumpable (JList (map JStr l)).
Proof. intros Hl. apply dumpable_list, Forall_map. exact Hl. Qed.

Lemma small_dumpable z : 0 <= z <= 65535 -> dumpable (JInt z).
Proof.
  intros Hz. cbn [dumpable]. pose proof (digits_length 10 (Z.abs z) 5) as Hd. change (10 ^ Z.of_nat 5) with 100000 in Hd.
  unfold zlen, int_max_str_digits. lia.
Qed.

Lemma rendered_dumpable cert key : plain_path cert -> plain_path key -> dumpable (rendered_document cert key).
Proof.
  intros [_ Hc] [_ Hk]. pose proof Hok as [Hs _ _ Hport _ _ Hnames Hdig _].
  assert (Forall dumpable (graph_documents (graph_at now providers))) as Hdocs.
  { apply Forall_map, Forall_forall. intros [p fs] Hin. pose proof (graph_digests _ _ Hin) as Hfs. apply graph_at_elem in Hin as (Hp&_).
    rewrite Forall_forall in Hnames. destruct (Hnames p Hp) as [Hname _]. cbn [fst snd]. unfold provider_document.
    pose proof (rd_ids _ _ _ Hok) as Hids. rewrite Forall_forall in Hids. destruct (Hids p Hp) as (n&Hn&Hid).
    apply dumpable_dict. split; [by apply (bool_decide_unpack _)|].
    repeat (apply Forall_cons; split); [..|constructor]; (split; [by repeat constructor|]); cbn [fst snd].
    - rewrite Hid. apply ascii_scalar. eapply Forall_impl; [apply uuid_str_chars|]. intros c Hx. unfold uuid_char, is_lower_hex in Hx. lia.
    - exact Hname.
    - apply texts_dumpable. eapply Forall_impl; [exact Hfs|]. apply digest_scalar.
    - done. }
  unfold rendered_document, config_document. apply dumpable_dict. split; [by apply (bool_decide_unpack _)|].
  repeat (apply Forall_cons; split); [..|constructor]; (split; [by apply (bool_decide_unpack _)|]); cbn [fst snd]; try done.
  - apply dumpable_dict. split; [by apply (bool_decide_unpack _)|]. repeat (apply Forall_cons; split); [..|constructor];
      (split; [by repeat constructor|]); cbn [fst snd]; [apply texts_dumpable, rendered_addresses_scalar, Hs|apply small_dumpable; lia].
  - apply dumpable_dict. split; [by apply (bool_decide_unpack _)|]. repeat (apply Forall_cons; split); [..|constructor];
      (split; [by repeat constructor|]); cbn [fst snd]; [done|done|by apply (bool_decide_unpack _)].
  - apply dumpable_dict. split; [by apply (bool_decide_unpack _)|]. repeat (apply Forall_cons; split); [..|constructor];
      (split; [by repeat constructor|]); cbn [fst snd]; by apply (bool_decide_unpack _).
  - apply dumpable_dict. split; [by apply (bool_decide_unpack _)|]. repeat (apply Forall_cons; split); [..|constructor];
      (split; [by repeat constructor|]); cbn [fst snd]; apply Z.leb_le; vm_compute; reflexivity.
  - by apply dumpable_list.
  - constructor.
Qed.
End Rendered.

(** C7. The configuration contract of control plane and service: for a trust graph within
    the constraints of its tables, the configuration that [render_provider_config] writes is
    read by [load_config] of the KMIP service as the settings that were rendered, and the
    service maps a client fingerprint to a provider exactly when the graph has, at that
    instant, a valid certificate with the fingerprint for an enabled vCenter of that enabled
    provider. *)
Theorem rendered_config_served certificate_der settings providers ips now n server_fingerprint cert key :
  renderable settings providers ips -> server_paths settings server_fingerprint = Ok (cert, key) ->
  (length (graph_certificates providers) <= n)%nat ->
  exists text clock data config,
    render_provider_config settings providers server_fingerprint (repeat now n) = (Ok text, clock) /\
    utf8_encode text = Ok data /\ load_config certificate_der (Ok data) = Ok config /\
    enabled config = kms_enabled settings /\ listen_addresses config = ips /\ port config = kms_port settings /\
    certificate_path config = cert /\ private_key_path config = key /\
    forall f p, dict_get f (fingerprint_providers config) = Some p <-> admitted now providers f p.
Proof.
  intros Hok Hpaths Hn. destruct (server_paths_plain _ _ _ _ Hpaths) as [Hc Hk].
  destruct (rendered_providers_at now providers n (rd_ids _ _ _ Hok) Hn) as (k&Hrender).
  set (document := rendered_document settings providers now cert key).
  pose proof (rendered_dumpable settings providers ips Hok now cert key Hc Hk : dumpable document) as Hd.
  set (text := dumps_indent 0 document ++ [10]). exists text, (repeat now k), (map to_byte text), (service_config settings providers ips now cert key).
  assert (utf8_encode text = Ok (map to_byte text)) as Henc.
  { apply utf8_encode_ascii. apply Forall_app. split; [by apply dumps_indent_ascii|by repeat constructor]. }
  split; [|split; [done|]].
  { unfold render_provider_config. rewrite Hpaths. unfold mbind, ST_bind, lift. rewrite Hrender. done. }
  split; [|split_and!; try done].
  - unfold load_config. rewrite bind_ok. unfold utf8_decode. rewrite (utf8_decode_encode _ _ _ Henc), bind_ok.
    unfold text. rewrite loads_dumps_indent by (done || by repeat constructor). cbn [rethrow]. rewrite bind_ok.
    by apply config_accepted.
  - intros f p. rewrite fingerprint_provider.
    2: { cbn. rewrite map_map. apply (graph_NoDup now), Hok. }
    cbn [Server.providers service_config]. split.
    + intros (sp&Hsp&Hf&<-). apply list_elem_of_fmap in Hsp as ([q fs]&->&Hq). apply graph_at_elem in Hq as (Hq&He&->&_).
      cbn in Hf. rewrite sorted_set_elem, fingerprints_at_elem in Hf. destruct Hf as (v&c&Hv). by exists q, v, c.
    + intros (q&v&c&Hq&He&<-&Hv&Hve&Hcv&Ha&<-).
      assert (tc_fingerprint c ∈ sorted_set (fingerprints_at now (trusted_vcenters q))) as Hin
        by (rewrite sorted_set_elem, fingerprints_at_elem; by exists v, c).
      exists (service_provider (q, sorted_set (fingerprints_at now (trusted_vcenters q)))). split_and!; [|done|done].
      apply list_elem_of_fmap_2, graph_at_elem. split_and!; try done. intros E. rewrite E in Hin. by apply not_elem_of_nil in Hin.
Qed.

(* ------------------------------------------------------------------ *)
(** ** Instance *)

Definition demo_settings : KmsSettings := mkKmsSettings true (str "192.0.2.10, 2001:db8::1") 5696 (str "kms.lab") (str "kms server").

Definition demo_certificate_row : CertificateRow :=
  mkCertificateRow (str "c") (str "v") demo_fingerprint [] [] [] [] (Some 0) (Some 100) (str "uploaded_public").

Definition demo_graph : list KeyProvider :=
  [mkKeyProvider (mkProviderRow demo_provider (str "lab") [] true None 0)
     [mkTrustedVcenter (mkVcenterRow (str "v") demo_provider (str "vc") [] [] true) [demo_certificate_row]]].

Lemma demo_renderable : renderable demo_settings demo_graph [str "192.0.2.10"; str "2001:db8::1"].
Proof.
  split.
  - by repeat constructor.
  - vm_compute. reflexivity.
  - split; [by apply (bool_decide_unpack _)|apply Z.leb_le; reflexivity].
  - cbn. lia.
  - constructor; [|constructor]. exists 22685491133344522328127039013544875349. split; [done|reflexivity].
  - cbn. repeat constructor. apply not_elem_of_nil.
  - constructor; [|constructor]. split; [by repeat constructor|split; apply Z.leb_le; reflexivity].
  - constructor; [|constructor]. split; [apply sha256_hex_length|apply bytes_hex_lower].
  - cbn. repeat constructor. apply not_elem_of_nil.
Qed.

(** [rendered_config_served] at a provider with one vCenter, while its certificate is valid. *)
Lemma rendered_config_served_witness :
  exists text clock data config, render_provider_config demo_settings demo_graph [] (repeat 50 1) = (Ok text, clock) /\
    utf8_encode text = Ok data /\ load_config (fun _ => Raise OSError) (Ok data) = Ok config /\
    dict_get demo_fingerprint (fingerprint_providers config) = Some demo_provider.
Proof.
  destruct (rendered_config_served (fun _ => Raise OSError) demo_settings demo_graph _ 50 1 [] _ _ demo_renderable eq_refl ltac:(cbn; lia))
    as (text&clock&data&config&Hr&Hd&Hl&_&_&_&_&_&Ha).
  exists text, clock, data, config. split; [exact Hr|]. split; [exact Hd|]. split; [exact Hl|].
  apply Ha. eexists _, _, _. split; [left|]. split; [reflexivity|]. split; [reflexivity|]. split; [left|]. split; [reflexivity|].
  split; [left|]. split; [split; cbn; lia|]. reflexivity.
Defined.
