(* ===== verification/KmipRecoveryProps.v ===== *)
(** What the recovery transport of the control plane guarantees: imported trust is stored
    completely and disabled, or the tables keep what they had. *)

From S2P Require Import Prelude Utf8 PyText Uuid Json Base64 Sha256 World Store Certificates Recovery KeyProviders KeyProvidersProps KmipRecovery RecoveryProps.
Open Scope Z_scope.

(** No statement ahead fails. *)
Definition calm (s : Session) : Prop := Forall (eq false) (statement_faults s).

(** A run that writes rows: it ends with tables in [Q], or a statement failed. *)
Definition stored (s : Session) (Q : Desired -> Prop) (r : res unit) (s' : Session) : Prop :=
  begun s' = begun s /\
  match r with
  | Ok _ => Q (tables s') /\ (calm s -> calm s')
  | Raise e => e = SqliteError /\ ~ calm s
  end.

(** The rows that trust describes, disabled. *)
Definition provider_of (row : json) (p : ProviderRow) : Prop :=
  exists items, row = JDict items /\ item items (str "id") = Ok (JStr (kp_id p)) /\ item items (str "name") = Ok (JStr (kp_name p)) /\
    item items (str "description") = Ok (JStr (kp_description p)) /\ kp_enabled p = false /\ kp_applied_at p = None.
Definition vcenter_of (row : json) (v : VcenterRow) : Prop :=
  exists items, row = JDict items /\ item items (str "id") = Ok (JStr (vc_id v)) /\
    item items (str "provider_id") = Ok (JStr (vc_provider_id v)) /\ item items (str "name") = Ok (JStr (vc_name v)) /\
    item items (str "hostname") = Ok (JStr (vc_hostname v)) /\ item items (str "description") = Ok (JStr (vc_description v)) /\
    vc_enabled v = false.

Section Rows.
Context `{X509}.

Definition certificate_of (row : json) (c : CertificateRow) : Prop :=
  exists items cert, row = JDict items /\ item items (str "id") = Ok (JStr (tc_id c)) /\
    item items (str "trusted_vcenter_id") = Ok (JStr (tc_vcenter_id c)) /\ item items (str "certificate_pem") = Ok (JStr (tc_pem c)) /\
    item items (str "fingerprint_sha256") = Ok (JStr (tc_fingerprint c)) /\
    parse_public_certificate 0 (tc_pem c) false = Ok cert /\ tc_fingerprint c = fingerprint_sha256 cert /\
    tc_not_valid_before c = Some (not_valid_before cert) /\ tc_not_valid_after c = Some (not_valid_after cert).

(** The tables hold the trust, kind by kind. *)
Definition holds_trust (trust : json) (d : Desired) : Prop :=
  exists items providers vcenters certificates, trust = JDict items /\
    item items (str "providers") = Ok (JList providers) /\ Forall2 provider_of providers (provider_table d) /\
    item items (str "vcenters") = Ok (JList vcenters) /\ Forall2 vcenter_of vcenters (vcenter_table d) /\
    item items (str "certificates") = Ok (JList certificates) /\ Forall2 certificate_of certificates (certificate_table d).

(** What was seen describes the tables. *)
Record describes (seen : TrustSeen) (d : Desired) : Prop := {
  ds_providers x : x ∈ provider_ids seen <-> x ∈ map kp_id (provider_table d);
  ds_vcenters x : x ∈ vcenter_ids seen <-> x ∈ map vc_id (vcenter_table d);
  ds_certificates x : x ∈ certificate_ids seen <-> x ∈ map tc_id (certificate_table d);
  ds_fingerprints x : x ∈ seen_fingerprints seen <-> x ∈ map tc_fingerprint (certificate_table d);
  ds_names x : x ∈ seen_names seen <-> x ∈ map kp_name (provider_table d);
  ds_vcenter_names x : x ∈ vcenter_names seen <-> x ∈ map (fun v => (vc_provider_id v, vc_name v)) (vcenter_table d)
}.

(** A parse without [require_current] does not read the clock. *)
Lemma parse_any_time now now' pem : parse_public_certificate now pem false = parse_public_certificate now' pem false.
Proof. reflexivity. Qed.

(** Rules of [stored]. *)
Lemma stored_bind (m : ST Session unit) (k : unit -> ST Session unit) (P Q : Desired -> Prop) s :
  wp m (stored s P) s ->
  (forall s1, begun s1 = begun s -> P (tables s1) -> wp (k tt) (stored s1 Q) s1) ->
  wp (m ≫= k) (stored s Q) s.
Proof.
  intros Hm Hk. apply wp_bind. eapply wp_mono; [exact Hm|]. intros r s1 [Hb Hr]. destruct r as [[]|e]; [|by split].
  destruct Hr as [HP Hc]. eapply wp_mono; [by apply (Hk s1)|]. intros r s2 [Hb2 Hr2]. split; [by rewrite Hb2|].
  destruct r; [|naive_solver]. destruct Hr2. split; [done|]. auto.
Qed.

Lemma stored_impl m (P Q : Desired -> Prop) s : wp m (stored s P) s -> (forall d, P d -> Q d) -> wp m (stored s Q) s.
Proof. intros Hm HPQ. eapply wp_mono; [exact Hm|]. intros [[]|e] s1 [Hb Hr]; split; naive_solver. Qed.

(** The rows of a kind are validated and stored in step. *)
Lemma add_all_stored {R} kind (add : json -> ST Session unit) (like : json -> R -> Prop) (grow : Desired -> list R -> Desired) rows seen seen' s :
  (forall d l l', grow (grow d l) l' = grow d (l ++ l')) -> (forall d, grow d [] = d) ->
  (forall row seen seen' s, trust_row kind seen row = Ok seen' -> describes seen (tables s) ->
    wp (add row) (stored s (fun d => exists x, like row x /\ d = grow (tables s) [x] /\ describes seen' d)) s) ->
  trust_rows kind rows seen = Ok seen' -> describes seen (tables s) ->
  wp (add_all add rows) (stored s (fun d => exists l, Forall2 like rows l /\ d = grow (tables s) l /\ describes seen' d)) s.
Proof.
  intros Happ Hnil Hrow. revert seen s. induction rows as [|row rows IH]; intros seen s E Hd; cbn in E |- *.
  - injection E as <-. apply wp_ret. split; [done|]. split; [|done]. exists []. by rewrite Hnil.
  - apply bind_Ok in E as (seen1&E1&E). eapply stored_bind; [by apply (Hrow _ seen seen1)|].
    intros s1 _ (x&Hx&Ht&Hd1). eapply stored_impl; [by apply (IH seen1)|].
    intros d (l&Hl&->&Hd'). exists (x :: l). split; [by constructor|]. by rewrite Ht, Happ in *.
Qed.

Lemma stored_statement s P k :
  (forall s1, begun s1 = begun s -> tables s1 = tables s -> wp k (stored s1 P) s1) ->
  wp (_ ← statement; k) (stored s P) s.
Proof.
  intros Hk. apply (stored_bind statement (fun _ => k) (fun d => d = tables s)); [|auto].
  unfold statement, wp, stored, calm. destruct (statement_faults s) as [|[] f] eqn:E; cbn; rewrite ?E.
  - done.
  - split; [done|]. split; [done|]. by intros [[=] _]%Forall_cons.
  - split; [done|]. split; [done|]. by intros [_ Hf]%Forall_cons.
Qed.

Lemma grow_mem {A B} (f : A -> B) (l : list A) (x : A) (seen : list B) y :
  (forall y, y ∈ seen <-> y ∈ map f l) -> y ∈ f x :: seen <-> y ∈ map f (l ++ [x]).
Proof. intros Hs. rewrite map_app, elem_of_app, elem_of_cons, Hs. cbn. rewrite list_elem_of_singleton. tauto. Qed.

Lemma fresh_id {A} (f : A -> pystr) (seen : list pystr) l x :
  (forall y, y ∈ seen <-> y ∈ map f l) -> mem x seen = false -> existsb (fun q => bool_decide (f q = x)) l = false.
Proof.
  intros Hs Hm. apply not_true_iff_false. rewrite existsb_exists. intros (q&Hq&E). apply bool_decide_eq_true in E.
  apply not_true_iff_false in Hm. apply Hm. unfold mem. apply bool_decide_eq_true, Hs. subst. by apply list_elem_of_fmap_2, list_elem_of_In.
Qed.

Lemma fresh_pair (seen : list (pystr * pystr)) l x y :
  (forall z, z ∈ seen <-> z ∈ map (fun v => (vc_provider_id v, vc_name v)) l) -> mem (x, y) seen = false ->
  existsb (fun q => bool_decide (vc_provider_id q = x) && bool_decide (vc_name q = y)) l = false.
Proof.
  intros Hs Hm. apply not_true_iff_false. rewrite existsb_exists. intros (q&Hq&[<-%bool_decide_eq_true <-%bool_decide_eq_true]%andb_true_iff).
  apply not_true_iff_false in Hm. apply Hm. unfold mem. apply bool_decide_eq_true, Hs.
  apply (list_elem_of_fmap_2 (fun v => (vc_provider_id v, vc_name v))). by apply list_elem_of_In.
Qed.

Lemma known_id {A} (f : A -> pystr) (seen : list pystr) l x :
  (forall y, y ∈ seen <-> y ∈ map f l) -> mem x seen = true -> existsb (fun q => bool_decide (f q = x)) l = true.
Proof.
  intros Hs Hm. unfold mem in Hm. apply bool_decide_eq_true, Hs, list_elem_of_fmap in Hm as (q&->&Hq).
  apply existsb_exists. exists q. split; [by apply list_elem_of_In|]. by apply bool_decide_eq_true.
Qed.

Lemma existsb_or {A} (f g : A -> bool) l : existsb (fun x => f x || g x) l = existsb f l || existsb g l.
Proof. induction l as [|x l IH]; cbn; [done|]. rewrite IH. destruct (f x), (g x), (existsb f l); done. Qed.

(** What an accepted row holds. *)
Lemma as_str_Ok v e t : as_str v e = Ok t <-> v = JStr t.
Proof. destruct v; naive_solver. Qed.

Lemma trust_identity_Ok kind row seen seen' :
  trust_identity kind row seen = Ok seen' ->
  exists id, item row (str "id") = Ok (JStr id) /\ mem id (ids_of kind seen) = false /\ seen' = add_id kind id seen.
Proof.
  unfold trust_identity. intros E. apply bind_Ok in E as (v&Hv&E). apply bind_Ok in E as (id&->%as_str_Ok&E).
  apply bind_Ok in E as (n&_&E). apply bind_Ok in E as (?&Hr&E). injection E as <-.
  apply raise_if_Ok, orb_false_iff in Hr as [_ Hm]. eauto.
Qed.

Lemma trust_metadata_Ok row u :
  trust_metadata row = Ok u -> exists name d, item row (str "name") = Ok (JStr name) /\ item row (str "description") = Ok (JStr d).
Proof.
  unfold trust_metadata. intros E. apply bind_Ok in E as (e&_&E). apply bind_Ok in E as (n&Hn&E). apply bind_Ok in E as (?&Hr&E).
  apply bind_Ok in E as (d&Hd&E). apply raise_if_Ok, negb_false_iff in Hr, E.
  destruct e, n, d; try done. eauto.
Qed.

Lemma trust_provider_row row seen seen' :
  trust_row Providers seen row = Ok seen' ->
  exists items id name description, row = JDict items /\ item items (str "id") = Ok (JStr id) /\
    item items (str "name") = Ok (JStr name) /\ item items (str "description") = Ok (JStr description) /\
    mem id (provider_ids seen) = false /\ mem name (seen_names seen) = false /\
    seen' = mkSeen (id :: provider_ids seen) (vcenter_ids seen) (certificate_ids seen) (seen_fingerprints seen) (name :: seen_names seen)
              (vcenter_names seen).
Proof.
  destruct row as [| | | | | |items]; try done. unfold trust_row. intros E. apply bind_Ok in E as (?&_&E).
  apply bind_Ok in E as (seen1&(id&Hid&Hm&->)%trust_identity_Ok&E). apply bind_Ok in E as (?&(name&d&Hn&Hd)%trust_metadata_Ok&E).
  unfold trust_provider in E. rewrite Hn in E. apply bind_Ok in E as (?&[= <-]&E). apply bind_Ok in E as (?&[= <-]&E).
  apply bind_Ok in E as (?&Hr%raise_if_Ok&[= <-]). exists items, id, name, d. split_and!; done.
Qed.

Lemma trust_vcenter_row row seen seen' :
  trust_row Vcenters seen row = Ok seen' ->
  exists items id provider name hostname description, row = JDict items /\ item items (str "id") = Ok (JStr id) /\
    item items (str "provider_id") = Ok (JStr provider) /\ item items (str "name") = Ok (JStr name) /\
    item items (str "hostname") = Ok (JStr hostname) /\ item items (str "description") = Ok (JStr description) /\
    mem id (vcenter_ids seen) = false /\ mem provider (provider_ids seen) = true /\ mem (provider, name) (vcenter_names seen) = false /\
    seen' = mkSeen (provider_ids seen) (id :: vcenter_ids seen) (certificate_ids seen) (seen_fingerprints seen) (seen_names seen)
              ((provider, name) :: vcenter_names seen).
Proof.
  destruct row as [| | | | | |items]; try done. unfold trust_row. intros E. apply bind_Ok in E as (?&_&E).
  apply bind_Ok in E as (seen1&(id&Hid&Hm&->)%trust_identity_Ok&E). apply bind_Ok in E as (?&(name&d&Hn&Hd)%trust_metadata_Ok&E).
  unfold trust_vcenter in E. apply bind_Ok in E as (p&Hp&E). apply bind_Ok in E as (known&Hk&E). apply bind_Ok in E as (?&Hr%raise_if_Ok&E).
  apply bind_Ok in E as (h&Hh&E). apply bind_Ok in E as (?&Hr2%raise_if_Ok&E). apply bind_Ok in E as (provider&->%as_str_Ok&E).
  rewrite Hn in E. apply bind_Ok in E as (?&[= <-]&E). apply bind_Ok in E as (?&[= <-]&E).
  apply bind_Ok in E as (?&Hr3%raise_if_Ok&[= <-]). apply negb_false_iff in Hr as ->. injection Hk as Hk.
  apply negb_false_iff in Hr2. destruct h as [| | | |h| |]; try done. exists items, id, provider, name, h, d. split_and!; done.
Qed.

Lemma trust_certificate_row row seen seen' :
  trust_row Certificates seen row = Ok seen' ->
  exists items id vcenter pem cert, row = JDict items /\ item items (str "id") = Ok (JStr id) /\
    item items (str "trusted_vcenter_id") = Ok (JStr vcenter) /\ item items (str "certificate_pem") = Ok (JStr pem) /\
    item items (str "fingerprint_sha256") = Ok (JStr (fingerprint_sha256 cert)) /\
    parse_public_certificate 0 pem false = Ok cert /\
    mem id (certificate_ids seen) = false /\ mem vcenter (vcenter_ids seen) = true /\
    mem (fingerprint_sha256 cert) (seen_fingerprints seen) = false /\
    seen' = mkSeen (provider_ids seen) (vcenter_ids seen) (id :: certificate_ids seen) (fingerprint_sha256 cert :: seen_fingerprints seen)
              (seen_names seen) (vcenter_names seen).
Proof.
  destruct row as [| | | | | |items]; try done. unfold trust_row. intros E. apply bind_Ok in E as (?&_&E).
  apply bind_Ok in E as (seen1&(id&Hid&Hm&->)%trust_identity_Ok&E). unfold trust_certificate in E.
  apply bind_Ok in E as (v&Hv&E). apply bind_Ok in E as (known&Hk&E). apply bind_Ok in E as (?&Hr%raise_if_Ok&E).
  apply bind_Ok in E as (?&Hp&E). apply bind_Ok in E as (pem&->%as_str_Ok&E). apply bind_Ok in E as (cert&Hc&E).
  apply bind_Ok in E as (f&Hf&E). apply bind_Ok in E as (?&Hr2%raise_if_Ok&[= <-]).
  apply negb_false_iff in Hr as ->. destruct v as [| | | |v| |]; try done. injection Hk as Hk.
  apply orb_false_iff in Hr2 as [Hf1%negb_false_iff Hf2]. destruct f as [| | | |f| |]; try done.
  cbn in Hf1. unfold mem in Hf1. apply bool_decide_eq_true, list_elem_of_singleton in Hf1 as ->.
  exists items, id, v, pem, cert. split_and!; done.
Qed.

(** A row of valid trust is stored. *)
Lemma stored_now s P (k : Z -> ST Session unit) :
  (forall now s1, begun s1 = begun s -> tables s1 = tables s -> wp (k now) (stored s1 P) s1) ->
  wp (now ← session_now; k now) (stored s P) s.
Proof. intros Hk. apply wp_bind. apply (Hk _ (mkSession (begun s) (tables s) (tail (session_clock s)) (statement_faults s))); done. Qed.

Lemma stored_insert s (P : Desired -> Prop) (clash : Desired -> bool) (f : Desired -> Desired) :
  clash (tables s) = false -> P (f (tables s)) ->
  wp (_ ← statement; d ← gets tables; _ ← lift (raise_if (clash d) SqliteError); modify (set_tables (f d))) (stored s P) s.
Proof.
  intros Hc HP. apply stored_statement. intros s1 _ Ht. apply wp_bind, wp_gets, wp_bind, wp_lift. rewrite Ht, Hc.
  apply wp_modify. split; [done|]. split; [done|]. done.
Qed.

Ltac describes_tac Hs :=
  destruct Hs; constructor; intros; cbn [provider_ids vcenter_ids certificate_ids seen_fingerprints seen_names vcenter_names
    provider_table vcenter_table certificate_table];
  match goal with
  | |- _ <-> _ ∈ map ?f (_ ++ [?p]) => by apply (grow_mem f _ p)
  | _ => done
  end.

Lemma add_provider_stored row seen seen' s :
  trust_row Providers seen row = Ok seen' -> describes seen (tables s) ->
  wp (now ← session_now; p ← lift (imported_provider row now); insert_provider p)
    (stored s (fun d => exists p, provider_of row p /\
       d = mkDesired (provider_table (tables s) ++ [p]) (vcenter_table (tables s)) (certificate_table (tables s)) /\ describes seen' d)) s.
Proof.
  intros (items&id&name&description&->&Hid&Hn&Hd&Hmi&Hmn&->)%trust_provider_row Hs. apply stored_now. intros now s1 _ Ht. rewrite <- Ht in Hs |- *. clear Ht.
  apply wp_bind, wp_lift. unfold imported_provider, row_text, as_row. cbn [mbind res_bind]. rewrite Hid, Hn, Hd. cbn -[insert_provider].
  set (p := mkProviderRow id name description false None now).
  apply (stored_insert s1 _ (fun d => existsb (fun q => bool_decide (kp_id q = id) || bool_decide (kp_name q = name)) (provider_table d))
    (fun d => mkDesired (provider_table d ++ [p]) (vcenter_table d) (certificate_table d))).
  - subst p. cbn [kp_id kp_name]. rewrite existsb_or, (fresh_id kp_id _ _ _ (ds_providers _ _ Hs) Hmi). apply (fresh_id kp_name _ _ _ (ds_names _ _ Hs) Hmn).
  - exists p. split; [by exists items|]. split; [done|]. describes_tac Hs.
Qed.

Lemma add_vcenter_stored row seen seen' s :
  trust_row Vcenters seen row = Ok seen' -> describes seen (tables s) ->
  wp (v ← lift (imported_vcenter row); insert_vcenter v)
    (stored s (fun d => exists v, vcenter_of row v /\
       d = mkDesired (provider_table (tables s)) (vcenter_table (tables s) ++ [v]) (certificate_table (tables s)) /\ describes seen' d)) s.
Proof.
  intros (items&id&provider&name&hostname&description&->&Hid&Hp&Hn&Hh&Hd&Hmi&Hmp&Hmn&->)%trust_vcenter_row Hs.
  apply wp_bind, wp_lift. unfold imported_vcenter, row_text, as_row. cbn [mbind res_bind]. rewrite Hid, Hp, Hn, Hh, Hd. cbn -[insert_vcenter].
  set (v := mkVcenterRow id provider name hostname description false).
  apply (stored_insert s _ (fun d => existsb (fun q => bool_decide (vc_id q = id) ||
      (bool_decide (vc_provider_id q = provider) && bool_decide (vc_name q = name))) (vcenter_table d) ||
      negb (existsb (fun p => bool_decide (kp_id p = provider)) (provider_table d)))
    (fun d => mkDesired (provider_table d) (vcenter_table d ++ [v]) (certificate_table d))).
  - subst v. cbn [vc_id vc_name vc_provider_id]. rewrite existsb_or, (fresh_id vc_id _ _ _ (ds_vcenters _ _ Hs) Hmi), (fresh_pair _ _ _ _ (ds_vcenter_names _ _ Hs) Hmn).
    by rewrite (known_id kp_id _ _ _ (ds_providers _ _ Hs) Hmp).
  - exists v. split; [by exists items|]. split; [done|]. describes_tac Hs.
Qed.

Lemma add_certificate_stored row seen seen' s :
  trust_row Certificates seen row = Ok seen' -> describes seen (tables s) ->
  wp (now ← session_now; c ← lift (imported_certificate row now); insert_certificate c)
    (stored s (fun d => exists c, certificate_of row c /\
       d = mkDesired (provider_table (tables s)) (vcenter_table (tables s)) (certificate_table (tables s) ++ [c]) /\ describes seen' d)) s.
Proof.
  intros (items&id&vcenter&pem&cert&->&Hid&Hv&Hp&Hf&Hc&Hmi&Hmv&Hmf&->)%trust_certificate_row Hs. apply stored_now. intros now s1 _ Ht. rewrite <- Ht in Hs |- *. clear Ht.
  apply wp_bind, wp_lift. unfold imported_certificate, row_text, as_row. cbn [mbind res_bind]. rewrite Hid, Hv, Hp, Hf. cbn -[insert_certificate parse_public_certificate].
  rewrite (parse_any_time now 0), Hc. cbn -[insert_certificate parse_public_certificate].
  match goal with |- wp (insert_certificate ?x) _ _ => set (c := x) end.
  apply (stored_insert s1 _ (fun d => existsb (fun q => bool_decide (tc_id q = id) || bool_decide (tc_fingerprint q = fingerprint_sha256 cert)) (certificate_table d) ||
      negb (existsb (fun v => bool_decide (vc_id v = vcenter)) (vcenter_table d)))
    (fun d => mkDesired (provider_table d) (vcenter_table d) (certificate_table d ++ [c]))).
  - subst c. cbn [tc_id tc_fingerprint tc_vcenter_id]. rewrite existsb_or, (fresh_id tc_id _ _ _ (ds_certificates _ _ Hs) Hmi), (fresh_id tc_fingerprint _ _ _ (ds_fingerprints _ _ Hs) Hmf).
    by rewrite (known_id vc_id _ _ _ (ds_vcenters _ _ Hs) Hmv).
  - exists c. split; [by exists items, cert|]. split; [done|]. describes_tac Hs.
Qed.

(** The rows of a kind of valid trust. *)
Lemma trust_kind_rows items seen kind seen' :
  trust_kind items seen kind = Ok seen' -> exists rows, item items (trust_key kind) = Ok (JList rows) /\ trust_rows kind rows seen = Ok seen'.
Proof.
  unfold trust_kind. intros E. apply bind_Ok in E as (v&Hv&E). destruct v as [| | | | |rows|]; try done.
  apply bind_Ok in E as (?&_&E). eauto.
Qed.

Lemma trust_table_rows items key rows (k : list json -> ST Session unit) :
  item items (str key) = Ok (JList rows) -> (rows0 ← lift (trust_table (JDict items) key); k rows0) = k rows.
Proof. intros Hi. unfold trust_table. rewrite Hi. reflexivity. Qed.

Lemma persist_trust_stored trust s :
  validate_trust trust = Ok tt -> tables s = mkDesired [] [] [] -> wp (persist_trust trust) (stored s (holds_trust trust)) s.
Proof.
  intros Hv Ht. destruct trust as [| | | | | |items]; try done. unfold validate_trust in Hv.
  apply bind_Ok in Hv as (?&_&Hv). apply bind_Ok in Hv as (seen3&Hv%rethrow_Ok&_). unfold trust_body in Hv.
  apply bind_Ok in Hv as (seen1&(providers&Hp&Rp)%trust_kind_rows&Hv). apply bind_Ok in Hv as (seen2&(vcenters&Hw&Rv)%trust_kind_rows&Hv).
  apply trust_kind_rows in Hv as (certificates&Hc&Rc). unfold persist_trust.
  assert (describes (mkSeen [] [] [] [] [] []) (tables s)) as Hd by (rewrite Ht; by split).
  rewrite (trust_table_rows _ _ _ _ Hp). eapply stored_bind.
  { apply (add_all_stored Providers _ provider_of (fun d l => mkDesired (provider_table d ++ l) (vcenter_table d) (certificate_table d)) _ (mkSeen [] [] [] [] [] []) seen1 s);
      [intros; cbn; by rewrite <- app_assoc|by intros []; cbn; rewrite app_nil_r|apply add_provider_stored|exact Rp|exact Hd]. }
  intros s1 _ (lp&Hlp&E1&Hd1). rewrite Ht in E1. cbn in E1. rewrite (trust_table_rows _ _ _ _ Hw). eapply stored_bind.
  { apply (add_all_stored Vcenters _ vcenter_of (fun d l => mkDesired (provider_table d) (vcenter_table d ++ l) (certificate_table d)) _ seen1 seen2 s1);
      [intros; cbn; by rewrite <- app_assoc|by intros []; cbn; rewrite app_nil_r|apply add_vcenter_stored|exact Rv|exact Hd1]. }
  intros s2 _ (lv&Hlv&E2&Hd2). rewrite E1 in E2. cbn in E2. rewrite (trust_table_rows _ _ _ _ Hc). eapply stored_impl.
  { apply (add_all_stored Certificates _ certificate_of (fun d l => mkDesired (provider_table d) (vcenter_table d) (certificate_table d ++ l)) _ seen2 seen3 s2);
      [intros; cbn; by rewrite <- app_assoc|by intros []; cbn; rewrite app_nil_r|apply add_certificate_stored|exact Rc|exact Hd2]. }
  intros d (lc&Hlc&->&_). rewrite E2. by exists items, providers, vcenters, certificates.
Qed.

(** Imported rows are disabled. *)
Lemma holds_trust_disabled trust d : holds_trust trust d -> Forall (fun p => kp_enabled p = false) (provider_table d).
Proof.
  intros (items&providers&_&_&_&_&Hp&_). induction Hp as [|row p rows l Hrow _ IH]; constructor; [|done].
  by destruct Hrow as (?&_&_&_&_&He&_).
Qed.

Lemma disabled_admits_none d now f p :
  Forall (fun p => kp_enabled p = false) (provider_table d) -> ~ admitted now (provider_rows d) f p.
Proof.
  intros Hd (q&_&_&Hq&He&_). unfold provider_rows in Hq. apply list_elem_of_fmap in Hq as (row&->&Hrow).
  rewrite Forall_forall in Hd. rewrite merge_sort_Permutation in Hrow. cbn in He. by rewrite (Hd row Hrow) in He.
Qed.
End Rows.

(* ------------------------------------------------------------------ *)
(** ** Importing an archive *)

Section Importing.
Context `{X : X509}.

(** The request of an import, and an answer of the helper with trust. *)
Definition import_payload (archive : bytes) (passphrase : pystr) : json :=
  JDict [(str "passphrase", JStr passphrase); (str "archive", JStr (b64encode archive))].
Definition answers (helper : pystr -> json -> option pystr) (archive : bytes) (passphrase : pystr) (trust : json) : Prop :=
  exists reply response, helper (str "recovery-import") (import_payload archive passphrase) = Some reply /\
    loads reply = Ok (JDict response) /\ default JNull (dict_get (str "trust") response) = trust.

Lemma request_Ok helper action payload response :
  _request helper action payload = Ok response <-> exists reply, helper action payload = Some reply /\ loads reply = Ok (JDict response).
Proof.
  unfold _request. destruct (helper action payload) as [reply|]; [|naive_solver]. rewrite rethrow_Ok, bind_Ok. split.
  - intros (v&Hv&E). destruct v; try done. injection E as ->. eauto.
  - intros (?&[= <-]&Hl). rewrite Hl. eauto.
Qed.

(** C8.  Importing a recovery archive into the control plane either stores exactly the
    trust that the helper returned, which is valid, with every provider and vCenter
    disabled, so that no client is admitted at any time until an administrator enables it;
    or it leaves the tables as they were.  It stores the trust whenever the archive is
    within its limit, the writer lock is granted, the tables are empty, the helper returns
    valid trust and no statement fails. *)
Theorem recovery_trust_imported helper admission archive passphrase s r s' :
  tables s = begun s -> import_trust helper admission archive passphrase s = (r, s') ->
  match r with
  | Ok _ => exists trust, answers helper archive passphrase trust /\ validate_trust trust = Ok tt /\
      tables s = mkDesired [] [] [] /\ holds_trust trust (tables s') /\ forall now f p, ~ admitted now (provider_rows (tables s')) f p
  | Raise _ => tables s' = tables s
  end /\
  forall trust, zlen archive <= MAX_ARCHIVE_BYTES -> admission = true -> tables s = mkDesired [] [] [] ->
    answers helper archive passphrase trust -> validate_trust trust = Ok tt -> calm s -> r = Ok tt.
Proof.
  intros Hb. unfold import_trust, mbind, ST_bind, lift, gets. fold (import_payload archive passphrase).
  destruct (Z.ltb_spec MAX_ARCHIVE_BYTES (zlen archive)) as [Hz|Hz]; cbn [raise_if].
  { intros [= <- <-]. split; [done|]. lia. }
  unfold _admit. destruct admission; cbn [negb raise_if]; [|by intros [= <- <-]].
  case_bool_decide as He; cbn [negb raise_if]; [|intros [= <- <-]; split; [done|]; intros ? _ _ Ht; destruct He; by rewrite Ht].
  assert (tables s = mkDesired [] [] []) as Ht by (destruct (tables s) as [??? ]; cbn in He; by destruct He as (->&->&->)).
  destruct (_request _ _ _) as [response|e] eqn:Eq.
  2: { intros [= <- <-]. split; [done|]. intros ? _ _ _ (reply&response&Hh&Hl&_) _ _. exfalso.
       assert (_request helper (str "recovery-import") (import_payload archive passphrase) = Ok response) as Eq' by (apply request_Ok; eauto).
       congruence. }
  pose proof Eq as (reply&Hh&Hl)%request_Ok. set (trust := default JNull (dict_get (str "trust") response)).
  assert (forall trust', answers helper archive passphrase trust' -> trust' = trust) as Hsame.
  { intros ? (reply'&response'&Hh'&Hl'&<-). rewrite Hh in Hh'. injection Hh' as <-. rewrite Hl in Hl'. by injection Hl' as <-. }
  destruct (validate_trust trust) as [[]|e] eqn:Ev.
  2: { intros [= <- <-]. split; [done|]. intros ? _ _ _ ->%Hsame. congruence. }
  intros Er. pose proof (persist_trust_stored trust s Ev Ht) as Hp. unfold wp in Hp. unfold catch in Er.
  destruct (persist_trust trust s) as [[[]|e] s1] eqn:Ep; destruct Hp as [Hb1 Hp]; cbn [fst snd] in Hb1, Hp.
  - injection Er as <- <-. destruct Hp as [Hp _]. split; [|done]. exists trust. split; [by exists reply, response|].
    split_and!; try done. intros now f p. by apply disabled_admits_none, (holds_trust_disabled trust).
  - destruct Hp as [-> Hcalm]. cbn in Er. injection Er as <- <-. cbn. split; [by rewrite Hb1|]. intros. done.
Qed.
End Importing.

(* ------------------------------------------------------------------ *)
(** ** Instance *)

Definition demo_archive : bytes := map to_byte (str "archive").

(** A helper that returns the trust of one provider. *)
Definition demo_helper (action : pystr) (payload : json) : option pystr :=
  Some (dumps_default (JDict [(str "trust", demo_trust)])).

Definition demo_session : Session := mkSession (mkDesired [] [] []) (mkDesired [] [] []) [5; 6; 7] [].

(** [recovery_trust_imported] at a helper that returns the trust of one provider. *)
Lemma recovery_trust_imported_witness :
  exists s', import_trust (H := demo_x509) demo_helper true demo_archive demo_passphrase demo_session = (Ok tt, s') /\
    exists trust, holds_trust (H := demo_x509) trust (tables s') /\ length (certificate_table (tables s')) = 1%nat.
Proof.
  destruct (import_trust (H := demo_x509) demo_helper true demo_archive demo_passphrase demo_session) as [r s'] eqn:E.
  exists s'. pose proof E as E'. vm_compute in E'. injection E' as <- <-. split; [reflexivity|].
  destruct (recovery_trust_imported (X := demo_x509) demo_helper true demo_archive demo_passphrase demo_session _ _ eq_refl E) as [(trust&_&_&_&Ht&_) _].
  exists trust. split; [exact Ht|reflexivity].
Defined.
