(* ===== verification/ConnectionProps.v ===== *)
(** The properties of a connection ([src/atlaso/app/kmip/server.py]): framing does not
    depend on how the bytes arrive, a client is served as the provider its certificate
    belongs to and nothing else, and limits hold. *)

From S2P Require Import Prelude Utf8 PyText Uuid Json Sha256 Ttlv World Store StoreSpec StoreInv Protocol ProtocolSpec.
From S2P Require Import Server ServerProps Trace TraceWriter Diagnostics Connection KeyService Demo ServiceProps.
Open Scope Z_scope.

(* ------------------------------------------------------------------ *)
(** ** Framing *)

(** A socket that delivers the chunks [cs], none of them empty, and is then closed. *)
Definition stream (cs : list bytes) : list recv_event := map Arrived cs.
Definition chunks_ok (cs : list bytes) : Prop := Forall (fun b => b <> []) cs.

Lemma zlen_take {A} (l : list A) n : 0 <= n <= zlen l -> zlen (take (Z.to_nat n) l) = n.
Proof. unfold zlen. intros Hn. rewrite length_take. lia. Qed.

Lemma receive_loop_stream fuel size result cs :
  chunks_ok cs -> zlen result <= size -> size - zlen result <= Z.of_nat fuel ->
  let data := result ++ concat cs in
  if size <=? zlen data then
    exists cs', chunks_ok cs' /\ concat cs' = drop (Z.to_nat size) data /\
      receive_loop fuel size result (stream cs) = (Ok (take (Z.to_nat size) data), stream cs')
  else
    receive_loop fuel size result (stream cs) =
      (match data with
       | [] => Ok []
       | _ => Raise (TtlvError "KMIP connection closed during a message.")
       end, []).
Proof.
  revert result cs. induction fuel as [|f IH]; intros result cs Hcs Hr Hf data.
  - assert (zlen result = size) as Hs by lia.
    assert (Z.to_nat size = length result) as Hn by (unfold zlen in Hs; lia).
    rewrite (proj2 (Z.leb_le _ _)) by (unfold data; rewrite zlen_app; pose proof (zlen_nonneg (concat cs)); lia).
    exists cs. unfold data. rewrite Hn, drop_app_length, take_app_length. split_and!; [done|done|].
    cbn [receive_loop]. by rewrite (proj2 (Z.ltb_ge _ _)) by lia.
  - cbn [receive_loop]. destruct (Z.ltb_spec (zlen result) size) as [Hlt|Hge].
    2: { assert (Z.to_nat size = length result) as Hn by (unfold zlen in *; lia).
      rewrite (proj2 (Z.leb_le _ _)) by (unfold data; rewrite zlen_app; pose proof (zlen_nonneg (concat cs)); lia).
      exists cs. unfold data. by rewrite Hn, drop_app_length, take_app_length. }
    destruct cs as [|b cs].
    + unfold data. cbn [concat]. rewrite app_nil_r, (proj2 (Z.leb_gt _ _)) by lia. cbn. by destruct result.
    + apply Forall_cons in Hcs as [Hb Hcs]. cbn [stream map recv]. fold (stream cs).
      destruct (Z.leb_spec (zlen b) (size - zlen result)) as [Hle|Hgt].
      * destruct b as [|x b]; [done|]. unfold data. cbn [concat]. rewrite app_assoc.
        apply (IH (result ++ x :: b) cs Hcs); rewrite zlen_app; [lia|].
        pose proof (zlen_cons x b). pose proof (zlen_nonneg b). lia.
      * set (n := Z.to_nat (size - zlen result)).
        assert (0 < n < length b)%nat as Hn by (unfold n, zlen in *; lia).
        destruct (take n b) as [|x t] eqn:Et; [apply (f_equal length) in Et; rewrite length_take in Et; cbn in Et; lia|].
        rewrite <- Et. assert (zlen (result ++ take n b) = size) as Hz.
        { rewrite zlen_app. unfold zlen at 2. rewrite length_take. unfold n, zlen in *. lia. }
        rewrite (proj2 (Z.leb_le _ _)); last first.
        { unfold data. cbn [concat]. rewrite !zlen_app. pose proof (zlen_nonneg (concat cs)). lia. }
        exists (drop n b :: cs). assert (Z.to_nat size = length (result ++ take n b)) as Hs by (unfold zlen in Hz; lia).
        assert (data = (result ++ take n b) ++ drop n b ++ concat cs) as ->.
        { unfold data. cbn [concat]. by rewrite <- !app_assoc, (app_assoc (take n b)), take_drop. }
        rewrite Hs, drop_app_length, take_app_length. split_and!.
        -- constructor; [|done]. intros E. apply (f_equal length) in E. rewrite length_drop in E. cbn in E. lia.
        -- done.
        -- destruct f as [|f]; cbn [receive_loop]; by rewrite (proj2 (Z.ltb_ge _ _)) by lia.
Qed.

Lemma receive_loop_fuel fuel size result sock :
  zlen result <= size -> size - zlen result <= Z.of_nat fuel ->
  (receive_loop fuel size result sock).1 <> Raise OutOfFuel.
Proof.
  revert result sock. induction fuel as [|f IH]; intros result sock Hr Hf.
  - cbn [receive_loop]. by rewrite (proj2 (Z.ltb_ge _ _)) by lia.
  - cbn [receive_loop]. destruct (Z.ltb_spec (zlen result) size); [|done].
    destruct (recv _ sock) as [[chunk|e] sock'] eqn:E.
    + destruct chunk as [|x chunk]; [by destruct result|].
      assert (zlen (x :: chunk) <= size - zlen result) as Hc.
      { unfold recv in E. destruct sock as [|[b|] sock]; [done| |done].
        destruct (Z.leb_spec (zlen b) (size - zlen result)); simplify_eq; [done|].
        match goal with E : take _ _ = _ |- _ => rewrite <- E end. unfold zlen at 1. rewrite length_take. lia. }
      pose proof (zlen_cons x chunk). pose proof (zlen_nonneg chunk).
      apply IH; rewrite zlen_app; lia.
    + unfold recv in E. destruct sock as [|[b|] sock]; [done| |by simplify_eq].
      destruct (zlen b <=? _); done.
Qed.

(** Reading exactly [size] bytes terminates on every socket, and on a stream its result
    does not depend on how the bytes are cut into chunks: the first [size] bytes, with the
    rest left in the socket; nothing on a stream that ended before; and an error on one
    that ends within the message. *)
Theorem receive_exact_stream size cs sock :
  0 <= size -> chunks_ok cs ->
  (_receive_exact size sock).1 <> Raise OutOfFuel /\
  if size <=? zlen (concat cs) then
    exists cs', chunks_ok cs' /\ concat cs' = drop (Z.to_nat size) (concat cs) /\
      _receive_exact size (stream cs) = (Ok (take (Z.to_nat size) (concat cs)), stream cs')
  else
    _receive_exact size (stream cs) =
      (match concat cs with
       | [] => Ok []
       | _ => Raise (TtlvError "KMIP connection closed during a message.")
       end, []).
Proof.
  intros Hs Hcs. change (zlen []) with 0 in *. split.
  - apply receive_loop_fuel; change (zlen []) with 0; lia.
  - apply (receive_loop_stream (Z.to_nat size) size [] cs Hcs); change (zlen []) with 0; lia.
Qed.

Lemma receive_exact_stream_witness :
  (_receive_exact 2 [Broken]).1 <> Raise OutOfFuel /\
  if 2 <=? zlen (concat [[x01]; [x02; x03]]) then
    exists cs', chunks_ok cs' /\ concat cs' = drop (Z.to_nat 2) (concat [[x01]; [x02; x03]]) /\
      _receive_exact 2 (stream [[x01]; [x02; x03]])
        = (Ok (take (Z.to_nat 2) (concat [[x01]; [x02; x03]])), stream cs')
  else
    _receive_exact 2 (stream [[x01]; [x02; x03]]) =
      (match concat [[x01]; [x02; x03]] with
       | [] => Ok []
       | _ => Raise (TtlvError "KMIP connection closed during a message.")
       end, []).
Proof. apply receive_exact_stream; [discriminate|]. repeat constructor; discriminate. Defined.

(* ------------------------------------------------------------------ *)
(** ** Serving a connection *)

Section Serving.
Context {St : Type} `{PyRuntime} (contract : res bytes).

(** A step that leaves the store and what was sent alone. *)
Definition same (k k' : Conn St) : Prop := store k' = store k /\ sent k' = sent k.
Definition quiet {A} (c : ST (Conn St) A) : Prop := forall k, same k (c k).2.

Lemma same_trans k1 k2 k3 : same k1 k2 -> same k2 k3 -> same k1 k3.
Proof. unfold same. intuition congruence. Qed.

Lemma quiet_bind {A B} (c : ST (Conn St) A) (f : A -> ST (Conn St) B) :
  quiet c -> (forall a, quiet (f a)) -> quiet (c ≫= f).
Proof.
  intros Hc Hf k. specialize (Hc k). unfold mbind, ST_bind. destruct (c k) as [[a|e] k']; [|done].
  by eapply same_trans, Hf.
Qed.

Lemma quiet_lift {A} (r : res A) : quiet (lift r).
Proof. done. Qed.

Lemma quiet_receive n : quiet (receive n).
Proof. intros k. unfold receive. by destruct (_receive_exact n (incoming k)). Qed.

Lemma quiet_append text : quiet (append_trace text).
Proof. intros k. unfold append_trace. by destruct (trace_writes k) as [|[n|] l]. Qed.

Lemma quiet_record a b c d e f : quiet (record contract a b c d e f).
Proof.
  unfold record. do 3 (apply quiet_bind; [apply quiet_lift|intros ?]). apply quiet_bind; [done|]. intros us.
  apply quiet_bind; [apply quiet_lift|]. intros events. destruct events; [done|apply quiet_append].
Qed.

Lemma wp_quiet {A B} (c : ST (Conn St) A) (f : A -> ST (Conn St) B) (Q : res B -> Conn St -> Prop) k :
  quiet c -> (forall e k', same k k' -> Q (Raise e) k') -> (forall a k', same k k' -> wp (f a) Q k') ->
  wp (c ≫= f) Q k.
Proof.
  intros Hc He Hf. apply wp_bind. specialize (Hc k). unfold wp at 1.
  destruct (c k) as [[a|e] k']; [by apply Hf|by apply He].
Qed.

Context {store_ops : KeyStore St} {store_spec : KeyStoreLaws St}.

(** [b] is a response whose key material belongs to the provider. *)
Definition response_of (p : pystr) (c : keys) (b : bytes) : Prop :=
  exists t, Ttlv.encode t = Ok b /\ Forall (owned p c) (key_material t).

(** At most [n] responses were sent, all of them the provider's, and the store changed
    only as the provider can change it. *)
Definition served_conn {A : Type} (p : pystr) (n : nat) (c : keys) (k : Conn St) (r : res A) (k' : Conn St) : Prop :=
  exists c' responses, holds c' (store k') /\ confined p c c' /\ sent k' = sent k ++ responses /\
    (length responses <= n)%nat /\ Forall (response_of p c') responses.

Lemma served_same {A : Type} p n c k (r : res A) k' : holds c (store k) -> same k k' -> served_conn p n c k r k'.
Proof.
  intros Hs [Hst Hse]. exists c, []. rewrite Hst, app_nil_r. split_and!; [done|done|done|cbn; lia|constructor].
Qed.

Lemma response_confined p c c' b : confined p c c' -> response_of p c b -> response_of p c' b.
Proof.
  intros Hc (t&Ht&Ho). exists t. split; [done|]. eapply Forall_impl; [exact Ho|]. intros x. by apply owned_confined.
Qed.

(** Sending the encoding of a response whose material is the provider's. *)
Lemma wp_send p c c' k k' b n :
  holds c' (store k') -> confined p c c' -> sent k' = sent k -> response_of p c' b -> (0 < n)%nat ->
  wp (_ ← sendall b; mret true) (served_conn p n c k) k'.
Proof.
  intros Hs Hc Hse Hb Hn. apply wp_bind. unfold wp, sendall. destruct (sends k') as [|[] l].
  - exists c', [b]. cbn. rewrite Hse. split_and!; [done|done|done|lia|by repeat constructor].
  - exists c', [b]. cbn. rewrite Hse. split_and!; [done|done|done|lia|by repeat constructor].
  - exists c', []. cbn. rewrite Hse, app_nil_r. split_and!; [done|done|done|lia|constructor].
Qed.

(** The part of an iteration after the request was decoded. *)
Lemma wp_answer p c k k0 request (tr : bool) cid fp rb :
  holds c (store k) -> same k0 k ->
  wp (answer_request contract tr cid fp p request rb) (served_conn p 1 c k0) k.
Proof.
  intros Hs Hk0. unfold answer_request.
  assert (holds c (store k0)) as Hs0 by (destruct Hk0 as [<- _]; done).
  apply wp_bind. unfold dispatch_logged. apply wp_bind. eapply wp_eq; [reflexivity|].
  set (now := default 0 _). set (k1 := set_times _ k).
  apply wp_catch, wp_bind. unfold on_store.
  pose proof (wp_dispatch_served now p request c (store k) Hs) as Hd. unfold wp in Hd. unfold wp at 1.
  change (store k1) with (store k).
  destruct (dispatch now p request (store k)) as [r s'] eqn:Ed. cbn [fst snd] in *.
  destruct Hd as (c'&Hs'&Hc'&Hm).
  assert (forall (A : Type) (x : res A) k2, store k2 = s' -> sent k2 = sent k0 -> served_conn p 1 c k0 x k2) as Hnone.
  { intros A x k2 Hst Hse. exists c', []. rewrite Hst, Hse, app_nil_r. split_and!; [done|done|done|cbn; lia|constructor]. }
  assert (sent (set_store s' k1) = sent k0) as Hse by (destruct Hk0; done).
  destruct r as [response|e].
  - apply wp_ret. cbn beta iota.
    apply wp_quiet; [done|intros e k2 [Hst Hse2]; apply Hnone; [by rewrite Hst|by rewrite Hse2]|]. intros _ k2 [Hst2 Hse2].
    apply wp_bind, wp_lift. destruct (Ttlv.encode response) as [b|e] eqn:Eb; [|apply Hnone; [by rewrite Hst2|by rewrite Hse2]].
    apply wp_quiet; [by destruct tr; [apply quiet_record|]| |].
    + intros e k3 [Hst Hse3]; apply Hnone; [by rewrite Hst, Hst2|by rewrite Hse3, Hse2].
    + intros _ k3 [Hst3 Hse3]. eapply wp_send; [by rewrite Hst3, Hst2|done|by rewrite Hse3, Hse2| |lia].
      exists response. split; [done|]. by apply Hm.
  - destruct (is_Exception e); [|by apply Hnone].
    apply wp_bind. eapply wp_eq; [reflexivity|]. cbn beta iota.
    destruct e; try (apply wp_lift; by apply Hnone); apply wp_ret; cbn beta iota; apply wp_ret; by apply Hnone.
Qed.

Lemma wp_serve_request limits tr cid fp p c k :
  holds c (store k) -> wp (serve_request contract limits tr cid fp p) (served_conn p 1 c k) k.
Proof.
  intros Hs. unfold serve_request. apply wp_quiet; [apply quiet_receive|intros ? ? ?; by apply served_same|].
  intros header k1 Hk1. destruct header as [|h header]; [apply wp_ret; by apply served_same|].
  apply wp_bind, wp_lift. destruct (raise_if _ _); [|by apply served_same].
  apply wp_bind, wp_lift. destruct (raise_if _ _); [|by apply served_same].
  apply wp_bind, wp_lift. destruct (raise_if _ _); [|by apply served_same].
  apply wp_quiet; [apply quiet_receive|intros e k2 Hk2; apply served_same; [done|by eapply same_trans]|].
  intros body k2 Hk2. pose proof (same_trans _ _ _ Hk1 Hk2) as Hk.
  apply wp_bind, wp_lift. destruct (raise_if _ _); [|by apply served_same].
  apply wp_bind, wp_lift. destruct (Ttlv.decode _) as [request|e]; [|by apply served_same].
  apply wp_answer; [by destruct Hk as [-> _]|done].
Qed.

(** The responses of one part of a conversation, then those of the next. *)
Lemma served_conn_trans {B : Type} p n m c c1 k k1 k' responses (r : res B) :
  confined p c c1 -> sent k1 = sent k ++ responses -> (length responses <= n)%nat ->
  Forall (response_of p c1) responses ->
  served_conn p m c1 k1 r k' -> served_conn p (n + m) c k r k'.
Proof.
  intros Hc Hse Hn Hr (c2&rs&Hs2&Hc2&Hse2&Hm&Hrs). exists c2, (responses ++ rs).
  split_and!; [done|by etrans|by rewrite Hse2, Hse, app_assoc|rewrite length_app; lia|].
  apply Forall_app. split; [|done]. eapply Forall_impl; [exact Hr|]. intros b. by apply response_confined.
Qed.

Lemma wp_serve_requests limits tr cid fp p n c k :
  holds c (store k) -> wp (serve_requests contract limits tr cid fp p n) (served_conn p n c k) k.
Proof.
  revert c k. induction n as [|n IH]; intros c k Hs; cbn [serve_requests].
  { apply wp_ret. by apply served_same. }
  apply wp_bind, wp_catch. eapply wp_mono; [by apply wp_serve_request|].
  intros r k1 (c1&rs&Hs1&Hc1&Hse&Hn&Hrs).
  assert (forall x : res unit, served_conn p (S n) c k x k1) as Hstop.
  { intros x. exists c1, rs. split_and!; [done|done|done|lia|done]. }
  destruct r as [[]|e].
  - eapply wp_mono; [by apply IH|]. intros r k2 Hk2. by eapply (served_conn_trans p 1 n).
  - apply wp_ret, Hstop.
  - destruct (ends_connection e); [|apply Hstop]. apply wp_ret, wp_ret, Hstop.
Qed.

(** The provider that a handshake authenticates. *)
Definition peer_provider (config : ServiceConfig) (handshake : res (option bytes)) : option pystr :=
  match handshake with
  | Ok (Some (b :: l)) => dict_get (sha256_hex (b :: l)) (fingerprint_providers config)
  | _ => None
  end.

(** C4. A connection acts for the provider that its client certificate is configured for
    and for no other: without such a certificate nothing is read, sent or stored and at
    most the refusal is logged; with one, at most the configured number of responses is sent, every piece of key
    material in them belongs to that provider, and the keys of the other providers stay
    as they were. *)
Theorem handle_isolation config handshake c k :
  holds c (store k) ->
  wp (handle contract config handshake) (fun r k' =>
    match peer_provider config handshake with
    | None => k' = k \/ k' = set_logged (logged k ++ [UnmappedCertificate]) k
    | Some p => served_conn p (Z.to_nat (max_requests_per_connection (limits config))) c k r k'
    end) k.
Proof.
  intros Hs. unfold handle, peer_provider.
  destruct handshake as [[[|b l]|]|e]; try (apply wp_ret; by left);
    [|destruct e; (apply wp_ret || apply wp_lift); by left].
  destruct (dict_get _ _) as [p|]; [|by right].
  apply wp_bind. eapply wp_eq; [reflexivity|]. cbn beta iota. 
  eapply wp_mono; [by apply wp_serve_requests|]. intros r k' Hk'. exact Hk'.
Qed.
End Serving.

(* ------------------------------------------------------------------ *)
(** ** Requests on a stream *)

Section Stream.
Context {St : Type} `{PyRuntime} (contract : res bytes) {store_ops : KeyStore St}.
Context (limits : ServiceLimits) (tr : bool) (cid fp p : pystr).

(** A step that neither reads the socket nor depends on what it is going to deliver. *)
Definition frames {A : Type} (c : ST (Conn St) A) : Prop :=
  forall sock k, c (set_incoming sock k) = (let '(r, k') := c k in (r, set_incoming sock k')).

Lemma frames_bind {A B : Type} (c : ST (Conn St) A) (f : A -> ST (Conn St) B) :
  frames c -> (forall a, frames (f a)) -> frames (c ≫= f).
Proof.
  intros Hc Hf sock k. unfold mbind, ST_bind. rewrite Hc. destruct (c k) as [[a|e] k']; [|done]. apply Hf.
Qed.

Lemma frames_lift {A : Type} (r : res A) : frames (lift r).
Proof. done. Qed.

Lemma frames_ret {A : Type} (a : A) : frames (mret a).
Proof. done. Qed.

Lemma frames_catch {A : Type} classes (c : ST (Conn St) A) h :
  frames c -> (forall e, frames (h e)) -> frames (catch classes c h).
Proof.
  intros Hc Hh sock k. unfold catch. rewrite Hc. destruct (c k) as [[a|e] k']; [done|].
  destruct (classes e); [apply Hh|done].
Qed.

Lemma frames_on_store {A : Type} (m : ST St A) : frames (on_store m).
Proof. intros sock k. unfold on_store. cbn. by destruct (m (store k)). Qed.

Lemma frames_sendall b : frames (sendall b).
Proof. intros sock k. unfold sendall. cbn. by destruct (sends k) as [|[] l]. Qed.

Lemma frames_append text : frames (append_trace text).
Proof. intros sock k. unfold append_trace. cbn. by destruct (trace_writes k) as [|[n|] l]. Qed.

Lemma frames_record a b c d e f : frames (record contract a b c d e f).
Proof.
  unfold record. do 3 (apply frames_bind; [apply frames_lift|intros ?]). apply frames_bind; [done|]. intros us.
  apply frames_bind; [apply frames_lift|]. intros events. destruct events; [done|apply frames_append].
Qed.

Lemma frames_answer request b : frames (answer_request contract tr cid fp p request b).
Proof.
  unfold answer_request, dispatch_logged. apply frames_bind.
  { apply frames_bind; [done|]. intros now. apply frames_catch.
    - apply frames_bind; [apply frames_on_store|]. intros ?. apply frames_ret.
    - intros e. apply frames_bind; [done|]. intros _. destruct e; (apply frames_ret || apply frames_lift). }
  intros [response|]; [|apply frames_ret]. apply frames_bind; [done|]. intros _.
  apply frames_bind; [apply frames_lift|]. intros rb. apply frames_bind.
  { destruct tr; [apply frames_record|apply frames_ret]. }
  intros _. apply frames_bind; [apply frames_sendall|]. intros _. apply frames_ret.
Qed.

(** Reading the next [n] bytes of a stream that has them. *)
Lemma receive_next n cs a rest (k : Conn St) :
  chunks_ok cs -> incoming k = stream cs -> concat cs = a ++ rest -> zlen a = n ->
  exists cs', chunks_ok cs' /\ concat cs' = rest /\ receive n k = (Ok a, set_incoming (stream cs') k).
Proof.
  intros Hcs Hk Hc Hn. pose proof (zlen_nonneg a). pose proof (zlen_nonneg rest).
  pose proof (receive_loop_stream (Z.to_nat n) n [] cs Hcs) as Hl. change (zlen []) with 0 in Hl.
  specialize (Hl ltac:(lia) ltac:(lia)). cbn zeta in Hl. rewrite app_nil_l, Hc, zlen_app in Hl.
  rewrite (proj2 (Z.leb_le _ _)) in Hl by lia. destruct Hl as (cs'&Hcs'&Hrest&Hl).
  assert (Z.to_nat n = length a) as Ha by (unfold zlen in Hn; lia).
  rewrite Ha, drop_app_length in Hrest. exists cs'. split_and!; [done|done|].
  unfold receive, _receive_exact. rewrite Hk, Hl, Ha. by rewrite take_app_length.
Qed.

(** [b] is a request message that the server accepts for processing. *)
Definition request_bytes (t : Ttlv) (b : bytes) : Prop :=
  Ttlv.encode t = Ok b /\ tag t = REQUEST_MESSAGE /\ type t = STRUCTURE /\
  node_depth t <= MAX_NESTING_DEPTH /\ node_count t <= MAX_NODE_COUNT /\ zlen b <= max_request_bytes limits.

(** The header of a structure with a value of [len] bytes. *)
Definition header_of (t len : Z) : bytes :=
  to_bytes_big 3 t ++ [to_byte (type_code STRUCTURE)] ++ to_bytes_big 4 len.

Lemma header_parts t len :
  0 <= len < 2 ^ 32 ->
  take 3 (header_of t len) = to_bytes_big 3 t /\
  from_bytes_big (slice (header_of t len) 3 4) = type_code STRUCTURE /\
  from_bytes_big (slice (header_of t len) 4 8) = len /\ zlen (header_of t len) = 8.
Proof.
  intros Hlen.
  assert (length (to_bytes_big 3 t) = 3%nat) as L3 by apply length_to_bytes_big.
  assert (length (to_bytes_big 4 len) = 4%nat) as L4 by apply length_to_bytes_big.
  split_and!.
  - unfold header_of. rewrite <- L3 at 1. apply take_app_length.
  - rewrite (slice_mid _ (to_bytes_big 3 t) [to_byte (type_code STRUCTURE)] (to_bytes_big 4 len));
      [done|done|unfold zlen; lia|done].
  - rewrite (slice_mid _ (to_bytes_big 3 t ++ [to_byte (type_code STRUCTURE)]) (to_bytes_big 4 len) []).
    + rewrite from_to_bytes_big, Z.mod_small; [done|]. cbn in Hlen |- *. lia.
    + unfold header_of. by rewrite app_nil_r, <- app_assoc.
    + unfold zlen. rewrite length_app, L3. done.
    + unfold zlen. by rewrite L4.
  - unfold header_of, zlen. by rewrite !length_app, L3, L4.
Qed.

Lemma run_step {A B : Type} (c : ST (Conn St) A) (f : A -> ST (Conn St) B) k a k' :
  c k = (Ok a, k') -> (c ≫= f) k = f a k'.
Proof. intros E. unfold mbind, ST_bind. by rewrite E. Qed.

(** What [serve_request] does with a header that announces [len] bytes. *)
Lemma serve_header (t len : Z) rest cs (k : Conn St) :
  t = REQUEST_MESSAGE -> 0 <= len < 2 ^ 32 -> chunks_ok cs -> incoming k = stream cs ->
  concat cs = header_of t len ++ rest ->
  exists cs', chunks_ok cs' /\ concat cs' = rest /\
    serve_request contract limits tr cid fp p k =
      (_ ← lift (raise_if (max_request_bytes limits <? 8 + (len + padding_length (len)))
             (TtlvError "KMIP request exceeds the configured maximum size."));
       body ← receive (len + padding_length (len));
       _ ← lift (raise_if (negb (zlen body =? len + padding_length (len))) (TtlvError "KMIP request is truncated."));
       request ← lift (Ttlv.decode (header_of t len ++ body));
       answer_request contract tr cid fp p request (header_of t len ++ body)) (set_incoming (stream cs') k).
Proof.
  intros Ht Hv Hcs Hk Hc.
  destruct (header_parts t len Hv) as (H1&H2&H3&H4).
  destruct (receive_next 8 cs (header_of t len) rest k Hcs Hk Hc H4) as (cs'&Hcs'&Hc'&E).
  exists cs'. split_and!; [done|done|]. unfold serve_request.
  rewrite (run_step _ _ _ _ _ E).
  cbn beta. destruct (header_of t len) as [|x l] eqn:El; [done|].
  rewrite H1, H2, H3, Ht, bool_decide_true by done. rewrite Z.eqb_refl. reflexivity.
Qed.

Lemma serve_message t b rest cs (k : Conn St) :
  request_bytes t b -> chunks_ok cs -> incoming k = stream cs -> concat cs = b ++ rest ->
  exists cs', chunks_ok cs' /\ concat cs' = rest /\
    serve_request contract limits tr cid fp p k =
      answer_request contract tr cid fp p t b (set_incoming (stream cs') k).
Proof.
  intros (He&Ht&Hty&Hd&Hn&Hmax) Hcs Hk Hc.
  assert (Ttlv.decode b = Ok t) as Hdec.
  { apply decode_with_encoded; [done..|]. unfold MAX_NESTING_DEPTH, decode_fuel in *. lia. }
  destruct t as [t ty v0]. cbn [tag type] in Ht, Hty. subst ty. rewrite encode_eq in He. revert Ht. res_inv. intros Ht.
  match goal with E : encoded_value_with _ _ _ = Ok ?w |- _ => rename w into v end.
  match goal with E : (_ <? zlen v) = false |- _ => apply Z.ltb_ge in E; rename E into Hv end.
  assert (frame t STRUCTURE v = header_of t (zlen v) ++ (v ++ zeros (padding_length (zlen v)))) as Hf
    by (unfold frame, header_of; by rewrite <- !app_assoc).
  assert (0 <= zlen v < 2 ^ 32) as Hlen by (pose proof (zlen_nonneg v); unfold MAX_MESSAGE_BYTES in Hv; lia).
  rewrite zlen_frame in Hmax. rewrite Hf in Hc, Hdec. rewrite <- app_assoc in Hc.
  destruct (serve_header t (zlen v) _ cs k Ht Hlen Hcs Hk Hc) as (cs1&Hcs1&Hc1&->).
  pose proof (padding_length_range (zlen v) (zlen_nonneg v)).
  assert (zlen (v ++ zeros (padding_length (zlen v))) = zlen v + padding_length (zlen v)) as Hl
    by (rewrite zlen_app, zlen_zeros; lia).
  destruct (receive_next _ cs1 (v ++ zeros (padding_length (zlen v))) rest (set_incoming (stream cs1) k) Hcs1 eq_refl Hc1 Hl)
    as (cs2&Hcs2&Hc2&E).
  exists cs2. split_and!; [done|done|].
  rewrite (proj2 (Z.ltb_ge _ _)) by lia. cbn [raise_if]. unfold mbind at 1, ST_bind, lift at 1.
  unfold mbind at 1, ST_bind. rewrite E, Hl, Z.eqb_refl. cbn [negb raise_if].
  unfold mbind, ST_bind, lift. rewrite Hdec, Hf. reflexivity.
Qed.

(** A stream that ends between two requests. *)
Lemma serve_end (k : Conn St) :
  serve_request contract limits tr cid fp p (set_incoming [] k) = (Ok false, set_incoming [] k).
Proof. reflexivity. Qed.

(** The reference for the loop: the given requests answered one after the other, up to
    the first that ends the connection. *)
Fixpoint answer_all (requests : list (Ttlv * bytes)) : ST (Conn St) unit :=
  match requests with
  | [] => mret tt
  | (t, b) :: requests =>
    continue ← catch ends_connection (answer_request contract tr cid fp p t b) (fun _ => mret false);
    if (continue : bool) then answer_all requests else mret tt
  end.

Lemma serve_stream requests n cs (k : Conn St) :
  Forall (fun r => request_bytes r.1 r.2) requests -> chunks_ok cs -> concat cs = concat (map snd requests) ->
  exists sock, serve_requests contract limits tr cid fp p n (set_incoming (stream cs) k) =
    (let '(r, k') := answer_all (take n requests) k in (r, set_incoming sock k')).
Proof.
  revert n cs k. induction requests as [|[t b] requests IH]; intros n cs k Hr Hcs Hc.
  - destruct cs as [|[|x c] cs]; [|apply Forall_cons in Hcs as [? _]; done|done].
    exists []. rewrite take_nil. cbn [stream map answer_all]. destruct n as [|n]; [done|]. cbn [serve_requests].
    rewrite (run_step _ _ _ false (set_incoming [] k)); [done|]. unfold catch. by rewrite serve_end.
  - destruct n as [|n]; [by exists (stream cs)|]. apply Forall_cons in Hr as [Hb Hr]. cbn [serve_requests take answer_all].
    destruct (serve_message t b (concat (map snd requests)) cs (set_incoming (stream cs) k) Hb Hcs eq_refl Hc)
      as (cs'&Hcs'&Hc'&E).
    assert (frames (catch ends_connection (answer_request contract tr cid fp p t b) (fun _ => mret false))) as Hf.
    { apply frames_catch; [apply frames_answer|]. intros e. apply frames_ret. }
    unfold mbind, ST_bind.
    assert (catch ends_connection (serve_request contract limits tr cid fp p) (fun _ => mret false) (set_incoming (stream cs) k)
            = catch ends_connection (answer_request contract tr cid fp p t b) (fun _ => mret false)
                (set_incoming (stream cs') k)) as -> by (unfold catch; by rewrite E).
    rewrite Hf. destruct (catch _ (answer_request _ _ _ _ _ _ _) _ k) as [[[]|e] k'].
    + by apply IH.
    + by exists (stream cs').
    + by exists (stream cs').
Qed.

(** C34. Requests are served in the order they were sent, whatever the packets they arrive
    in: on a stream that carries acceptable request messages one after the other, the
    loop answers the first [n] of them, each decoded exactly, up to the first that ends
    the connection, and does nothing else. *)
Theorem requests_in_order requests n cs (k : Conn St) :
  Forall (fun r => request_bytes r.1 r.2) requests -> chunks_ok cs -> concat cs = concat (map snd requests) ->
  exists sock, serve_requests contract limits tr cid fp p n (set_incoming (stream cs) k) =
    (let '(r, k') := answer_all (take n requests) k in (r, set_incoming sock k')).
Proof. apply serve_stream. Qed.

(** A request that is announced to be longer than the configured maximum ends the
    connection before any of its body is read: nothing is sent, logged, traced or
    stored. *)
Theorem oversized_request_refused n len rest cs (k : Conn St) :
  0 <= len < 2 ^ 32 -> max_request_bytes limits < 8 + (len + padding_length len) ->
  chunks_ok cs -> concat cs = header_of REQUEST_MESSAGE len ++ rest ->
  exists cs', chunks_ok cs' /\ concat cs' = rest /\
    serve_requests contract limits tr cid fp p (S n) (set_incoming (stream cs) k)
      = (Ok tt, set_incoming (stream cs') k).
Proof.
  intros Hlen Hmax Hcs Hc.
  destruct (serve_header REQUEST_MESSAGE len rest cs (set_incoming (stream cs) k) eq_refl Hlen Hcs eq_refl Hc)
    as (cs'&Hcs'&Hc'&E).
  exists cs'. split_and!; [done|done|]. cbn [serve_requests].
  rewrite (run_step _ _ _ false (set_incoming (stream cs') k)); [done|].
  unfold catch. rewrite E, (proj2 (Z.ltb_lt _ _)) by lia. reflexivity.
Qed.
End Stream.

(* ------------------------------------------------------------------ *)
(** ** Instances *)

(** Python's text functions on ASCII. *)
Definition demo_runtime : PyRuntime := {|
  unicode_casefold c := [if (65 <=? c) && (c <=? 90) then c + 32 else c];
  unicode_isalnum c := ((48 <=? c) && (c <=? 57)) || ((65 <=? c) && (c <=? 90)) || ((97 <=? c) && (c <=? 122));
  float_eq _ _ := false;
  str_other _ := []
|}.
Definition no_contract : res bytes := Raise OSError.
Definition demo_conn (w : World) : Conn World := mkConn [] [] [] [7] [] [] [] [] [] w.
Definition demo_message : bytes := ok_bytes (Ttlv.encode version_request).
Definition demo_chunks : list bytes := [take 5 demo_message; drop 5 demo_message; demo_message].
Definition demo_requests : list (Ttlv * bytes) := [(version_request, demo_message); (version_request, demo_message)].

Lemma demo_request_bytes : request_bytes (limits demo_config) version_request demo_message.
Proof. split_and!; vm_compute; done. Qed.

Lemma requests_in_order_witness :
  exists sock, serve_requests (H := demo_runtime) no_contract (limits demo_config) false [] [] demo_provider 3
      (set_incoming (stream demo_chunks) (demo_conn demo_world)) =
    (let '(r, k') := answer_all (H := demo_runtime) no_contract false [] [] demo_provider demo_requests (demo_conn demo_world)
     in (r, set_incoming sock k')).
Proof.
  apply (requests_in_order (H := demo_runtime) no_contract (limits demo_config) false [] [] demo_provider demo_requests 3).
  - constructor; [exact demo_request_bytes|]. constructor; [exact demo_request_bytes|constructor].
  - repeat constructor; vm_compute; discriminate.
  - vm_compute. reflexivity.
Defined.

Lemma oversized_request_refused_witness :
  exists cs', chunks_ok cs' /\ concat cs' = [x01; x02] /\
    serve_requests (H := demo_runtime) no_contract (limits demo_config) false [] [] demo_provider 3
      (set_incoming (stream [header_of REQUEST_MESSAGE (2 ^ 31) ++ [x01]; [x02]]) (demo_conn demo_world))
      = (Ok tt, set_incoming (stream cs') (demo_conn demo_world)).
Proof.
  apply (oversized_request_refused (H := demo_runtime) no_contract (limits demo_config) false [] [] demo_provider 2 (2 ^ 31)).
  - lia.
  - vm_compute. reflexivity.
  - repeat constructor; vm_compute; discriminate.
  - vm_compute. reflexivity.
Defined.

Lemma conn_holds c w :
  store_holds demo_mk demo_kek None c w ->
  holds (KeyStoreLaws := store_laws demo_mk demo_kek None) c (store (demo_conn w)).
Proof. exact (fun h => h). Qed.

Lemma handle_isolation_witness :
  let handshake := Ok (Some (map to_byte (str "client certificate"))) in
  peer_provider demo_config handshake = Some demo_provider /\
  wp (handle (H := demo_runtime) no_contract demo_config handshake) (fun r k' =>
    match peer_provider demo_config handshake with
    | None => k' = demo_conn demo_world1 \/
        k' = set_logged (logged (demo_conn demo_world1) ++ [UnmappedCertificate]) (demo_conn demo_world1)
    | Some p => served_conn (store_spec := store_laws demo_mk demo_kek None) p
        (Z.to_nat (max_requests_per_connection (limits demo_config))) (contents demo_kek demo_db1)
        (demo_conn demo_world1) r k'
    end) (demo_conn demo_world1).
Proof.
  split; [vm_compute; reflexivity|].
  exact (handle_isolation (H := demo_runtime) (store_spec := store_laws demo_mk demo_kek None) no_contract demo_config
    (Ok (Some (map to_byte (str "client certificate")))) (contents demo_kek demo_db1) (demo_conn demo_world1)
    (conn_holds _ _ demo_holds)).
Defined.
