(* ===== verification/TraceProps.v ===== *)
(** The properties of the interoperability trace ([src/atlaso/app/kmip/trace.py] and the
    [InteropTraceWriter] of [src/atlaso/app/kmip/server.py]): the walks over a request
    visit every node and end, an event holds none of the request's content, and what is
    written is a trace the validator accepts. *)

From S2P Require Import Prelude Utf8 PyText Uuid Json Sha256 Ttlv World Protocol Server Trace TraceWriter Diagnostics Connection.
From S2P Require Import ProtocolSpec ServerProps Demo ServiceProps ConnectionProps.
Open Scope Z_scope.

(* ------------------------------------------------------------------ *)
(** ** Walks over a tree *)

(** The nodes of a tree as the walk reaches them: children from the last. *)
Fixpoint nodes_of (n : Ttlv) : list Ttlv :=
  n :: match n with
       | MkTtlv _ STRUCTURE (VTuple cs) =>
         (fix go cs := match cs with [] => [] | c :: cs' => go cs' ++ nodes_of c end) cs
       | _ => []
       end.

Fixpoint all_nodes (stack : list Ttlv) : list Ttlv :=
  match stack with [] => [] | n :: stack' => nodes_of n ++ all_nodes stack' end.

(** A structure whose value is a tuple, or a leaf. *)
Definition children_nodes (n : Ttlv) : list Ttlv :=
  match n with MkTtlv _ STRUCTURE (VTuple cs) => cs | _ => [] end.

(** Every structure of the tree has a tuple of children, as decoding gives it. *)
Definition shaped (n : Ttlv) : Prop :=
  match n with MkTtlv _ STRUCTURE (VTuple _) => True | MkTtlv _ ty _ => ty <> STRUCTURE end.

Lemma nodes_of_eq n : nodes_of n = n :: all_nodes (rev (children_nodes n)).
Proof.
  destruct n as [t [] [cs| | | |]]; try done. cbn [nodes_of children_nodes]. f_equal.
  induction cs as [|c cs IH]; [done|]. rewrite IH. cbn [rev].
  assert (forall a b, all_nodes (a ++ b) = all_nodes a ++ all_nodes b) as Happ.
  { induction a as [|x a IHa]; intros b; [done|]. cbn. by rewrite IHa, app_assoc. }
  rewrite Happ. cbn. by rewrite app_nil_r.
Qed.

Lemma all_nodes_app a b : all_nodes (a ++ b) = all_nodes a ++ all_nodes b.
Proof. induction a as [|x a IHa]; [done|]. cbn. by rewrite IHa, app_assoc. Qed.

(** The number of nodes on a stack. *)
Definition stack_count (stack : list Ttlv) : Z := children_count stack.

Lemma stack_count_app a b : stack_count (a ++ b) = stack_count a + stack_count b.
Proof. unfold stack_count. induction a as [|x a IH]; cbn in *; lia. Qed.

Lemma stack_count_rev l : stack_count (rev l) = stack_count l.
Proof. induction l as [|x l IH]; [done|]. cbn [rev]. rewrite stack_count_app, IH. unfold stack_count. cbn [children_count]. lia. Qed.

Lemma stack_count_nonneg l : 0 <= stack_count l.
Proof. unfold stack_count. induction l as [|x l IH]; cbn; [lia|]. pose proof (node_count_pos x). lia. Qed.

Lemma children_nodes_count n : stack_count (children_nodes n) + 1 <= node_count n.
Proof.
  assert (children_nodes n = [] \/ exists t ty cs, n = MkTtlv t ty (VTuple cs) /\ children_nodes n = cs) as Hn.
  { destruct n as [t [] [cs| | | |]]; eauto 6. }
  destruct Hn as [->|(t&ty&cs&E&->)].
  - pose proof (node_count_pos n). unfold stack_count. cbn. lia.
  - rewrite E, node_count_tuple. unfold stack_count. lia.
Qed.

(** A step of the loop that stops, or pushes the node's children. *)
Definition walks {A} (visit : A -> Ttlv -> res (visited A)) (step : A -> Ttlv -> A) : Prop :=
  forall a n, shaped n -> visit a n = Ok (Push (step a n) (children_nodes n)).

Lemma extend_shaped {A} (a : A) n : shaped n -> extend a n = Ok (Push a (children_nodes n)).
Proof. by destruct n as [t [] [cs| | | |]]; cbn; intros. Qed.

(** A walk that never stops early folds its step over all nodes, within its fuel. *)
Lemma walk_fold {A} (visit : A -> Ttlv -> res (visited A)) step fuel acc stack :
  walks visit step -> Forall shaped (all_nodes stack) -> stack_count stack <= Z.of_nat fuel ->
  walk visit fuel acc stack = Ok (fold_left step (all_nodes stack) acc).
Proof.
  intros Hv. revert acc stack. induction fuel as [|f IH]; intros acc stack Hs Hf.
  - destruct stack as [|n stack]; [done|]. unfold stack_count in Hf. cbn in Hf.
    pose proof (node_count_pos n). pose proof (stack_count_nonneg stack). unfold stack_count in *. lia.
  - destruct stack as [|n stack]; [done|]. cbn [walk all_nodes] in *.
    rewrite nodes_of_eq in Hs |- *. cbn [app] in Hs. apply Forall_cons in Hs as [Hn Hs].
    rewrite (Hv acc n Hn). cbn [mbind res_bind app fold_left]. rewrite <- all_nodes_app in Hs |- *. apply IH; [done|].
    rewrite stack_count_app, stack_count_rev. pose proof (children_nodes_count n).
    unfold stack_count in *. cbn in Hf. lia.
Qed.

Lemma traverse_fold {A} (visit : A -> Ttlv -> res (visited A)) step acc n :
  walks visit step -> Forall shaped (nodes_of n) ->
  traverse visit acc n = Ok (fold_left step (nodes_of n) acc).
Proof.
  intros Hv Hs. unfold traverse. rewrite (walk_fold _ step); [|done| |].
  - cbn [all_nodes]. by rewrite app_nil_r.
  - cbn [all_nodes]. by rewrite app_nil_r.
  - unfold stack_count. cbn. pose proof (node_count_pos n). lia.
Qed.

(** Decoded nodes are shaped, at every depth. *)
Lemma well_formed_shaped n : well_formed n = true -> Forall shaped (nodes_of n).
Proof.
  induction n as [t ty cs IH|t ty v Hv] using Ttlv_nested_ind; intros Hw.
  - rewrite well_formed_tuple in Hw. apply andb_prop in Hw as [_ Hw]. apply andb_prop in Hw as [Hty Hcs].
    apply bool_decide_eq_true in Hty. subst ty. rewrite nodes_of_eq. constructor; [done|]. cbn [children_nodes].
    rewrite forallb_forall in Hcs. rewrite Forall_forall in IH.
    assert (forall c, In c (rev cs) -> Forall shaped (nodes_of c)) as Hc.
    { intros c Hc. apply in_rev in Hc. apply IH; [by apply list_elem_of_In|by apply Hcs]. }
    clear -Hc. induction (rev cs) as [|c l IHl]; [constructor|]. cbn. apply Forall_app. split.
    + apply Hc. by left.
    + apply IHl. intros x Hx. apply Hc. by right.
  - cbn [well_formed] in Hw. apply andb_prop in Hw as [_ Hw].
    destruct v as [cs| | | |]; [by destruct (Hv cs)|..];
      (destruct ty; try done; by repeat constructor).
Qed.

(** The step of [_attribute_names]. *)
Definition name_step (names : list pystr) (n : Ttlv) : list pystr :=
  if tag n =? ATTRIBUTE_NAME then
    match value n with VStr s => if mem s names then names else names ++ [s] | _ => names end
  else names.

Lemma walks_names : walks visit_attribute_names name_step.
Proof. intros a n Hn. unfold visit_attribute_names. by rewrite extend_shaped. Qed.

(** [n] carries the attribute name [s]. *)
Definition names_attribute (s : pystr) (n : Ttlv) : Prop := tag n = ATTRIBUTE_NAME /\ value n = VStr s.

Lemma name_steps l acc :
  NoDup acc ->
  NoDup (fold_left name_step l acc) /\
  forall s, s ∈ fold_left name_step l acc <-> s ∈ acc \/ Exists (names_attribute s) l.
Proof.
  revert acc. induction l as [|n l IH]; intros acc Hnd; cbn [fold_left].
  - split; [done|]. intros s. rewrite Exists_nil. tauto.
  - assert (NoDup (name_step acc n) /\ forall s, s ∈ name_step acc n <-> s ∈ acc \/ names_attribute s n) as [Hnd' Hs'].
    { unfold name_step, names_attribute. destruct (Z.eqb_spec (tag n) ATTRIBUTE_NAME) as [E|E]; [|naive_solver].
      destruct (value n) as [| | |s0|]; try naive_solver. unfold mem. case_bool_decide as Hm; [naive_solver|].
      split.
      - apply NoDup_app. split_and!; [done| |by apply NoDup_singleton]. intros x Hx Hx0.
        apply list_elem_of_singleton in Hx0. by subst.
      - intros s. rewrite elem_of_app, list_elem_of_singleton. naive_solver. }
    destruct (IH _ Hnd') as [H1 H2]. split; [done|]. intros s. rewrite H2, Hs', Exists_cons. tauto.
Qed.

(** The loop of [_object_type]: the first hit ends it. *)
Definition is_key_type (n : Ttlv) : Prop := tag n = OBJECT_TYPE /\ value n = VInt 2.

#[global] Instance is_key_type_dec n : Decision (is_key_type n).
Proof.
  unfold is_key_type. destruct (decide (tag n = OBJECT_TYPE)) as [|]; [|right; tauto].
  destruct (value n) as [| z | | |]; try (right; naive_solver).
  destruct (decide (z = 2)) as [->|]; [left; done|right; naive_solver].
Defined.

Lemma visit_object_type_spec acc n :
  shaped n -> visit_object_type acc n =
    Ok (if decide (is_key_type n) then Return (Some (str "Symmetric Key")) else Push acc (children_nodes n)).
Proof.
  intros Hn. unfold visit_object_type. destruct (decide (is_key_type n)) as [[Ht Hv]|Hk].
  - by rewrite Ht, Hv, Z.eqb_refl.
  - destruct (Z.eqb_spec (tag n) OBJECT_TYPE) as [Ht|Ht]; [|by rewrite extend_shaped].
    destruct (value n) as [| z | | |] eqn:Ev; try (by rewrite extend_shaped). cbn [andb].
    destruct (Z.eqb_spec z 2) as [->|]; [|by rewrite extend_shaped]. by destruct Hk.
Qed.

Lemma walk_object_type fuel stack :
  Forall shaped (all_nodes stack) -> stack_count stack <= Z.of_nat fuel ->
  walk visit_object_type fuel None stack =
    Ok (if decide (Exists is_key_type (all_nodes stack)) then Some (str "Symmetric Key") else None).
Proof.
  revert stack. induction fuel as [|f IH]; intros stack Hs Hf.
  - destruct stack as [|n stack]; [done|]. unfold stack_count in Hf. cbn in Hf.
    pose proof (node_count_pos n). pose proof (stack_count_nonneg stack). unfold stack_count in *. lia.
  - destruct stack as [|n stack]; [done|]. cbn [walk all_nodes] in *. rewrite nodes_of_eq in Hs |- *.
    cbn [app] in Hs |- *. apply Forall_cons in Hs as [Hn Hs]. rewrite visit_object_type_spec by done.
    cbn [mbind res_bind]. destruct (decide (is_key_type n)) as [Hk|Hk].
    + rewrite decide_True; [done|]. by constructor.
    + rewrite <- all_nodes_app in Hs |- *. rewrite IH; [|done|].
      * f_equal. apply decide_ext. rewrite Exists_cons. tauto.
      * rewrite stack_count_app, stack_count_rev. pose proof (children_nodes_count n).
        unfold stack_count in *. cbn in Hf. lia.
Qed.

(** A walk ends within its fuel when every visit pushes the children of the node or
    nothing. *)
Lemma walk_total {A} (visit : A -> Ttlv -> res (visited A)) fuel acc stack :
  (forall a n, shaped n -> exists a' nodes, visit a n = Ok (Push a' nodes) /\ (nodes = [] \/ nodes = children_nodes n)) ->
  Forall shaped (all_nodes stack) -> stack_count stack <= Z.of_nat fuel ->
  exists r, walk visit fuel acc stack = Ok r.
Proof.
  intros Hv. revert acc stack. induction fuel as [|f IH]; intros acc stack Hs Hf.
  - destruct stack as [|n stack]; [by eexists|]. unfold stack_count in Hf. cbn in Hf.
    pose proof (node_count_pos n). pose proof (stack_count_nonneg stack). unfold stack_count in *. lia.
  - destruct stack as [|n stack]; [by eexists|]. cbn [walk all_nodes] in *. rewrite nodes_of_eq in Hs.
    cbn [app] in Hs. apply Forall_cons in Hs as [Hn Hs].
    destruct (Hv acc n Hn) as (a'&nodes&->&Hnodes). cbn [mbind res_bind].
    pose proof (children_nodes_count n). pose proof (stack_count_nonneg (children_nodes n)).
    unfold stack_count in Hf. cbn in Hf. fold (stack_count stack) in Hf.
    apply IH; destruct Hnodes as [-> | ->].
    + cbn. by apply Forall_app in Hs as [_ Hs].
    + by rewrite all_nodes_app.
    + cbn [rev app]. lia.
    + rewrite stack_count_app, stack_count_rev. lia.
Qed.

Lemma child_shaped n t required :
  shaped n -> type n = STRUCTURE ->
  (exists m, child n t required = Ok m) \/ (exists msg, child n t required = Raise (TtlvError msg)).
Proof.
  destruct n as [u ty v]. cbn [type]. intros Hn ->. destruct v as [cs| | | |]; try done.
  unfold child, children. cbn [type value]. rewrite decide_True by done. cbn [mbind res_bind].
  destruct (filter _ cs) as [|m [|m' l]]; [destruct required|..]; eauto.
Qed.

Lemma visit_parameters_total values n :
  shaped n -> exists a' nodes, visit_parameters values n = Ok (Push a' nodes) /\ (nodes = [] \/ nodes = children_nodes n).
Proof.
  intros Hn. unfold visit_parameters. destruct ((tag n =? ATTRIBUTE) && bool_decide (type n = STRUCTURE)) eqn:E.
  2: { rewrite extend_shaped by done. eauto. }
  apply andb_prop in E as [_ E]. apply bool_decide_eq_true in E.
  destruct (child_shaped n ATTRIBUTE_NAME true Hn E) as [[m ->]|[msg ->]]; [|cbn; eauto].
  destruct (child_shaped n ATTRIBUTE_VALUE true Hn E) as [[v ->]|[msg ->]]; [|cbn; eauto].
  cbn. destruct m, v; rewrite extend_shaped by done; eauto.
Qed.

(** The three walks over a decoded batch item end: [_attribute_names] gives the sorted,
    duplicate-free list of exactly the attribute names that occur at any depth,
    [_object_type] tells whether the Symmetric Key object type occurs, and
    [_cryptographic_parameters] always has a result. *)
Theorem trace_walks_exact item operation :
  well_formed item = true ->
  (exists names, _attribute_names item = Ok names /\ StronglySorted str_le names /\ NoDup names /\
     forall s, s ∈ names <-> Exists (names_attribute s) (nodes_of item)) /\
  _object_type item = Ok (if decide (Exists is_key_type (nodes_of item)) then Some (str "Symmetric Key") else None) /\
  (exists parameters, _cryptographic_parameters item operation = Ok parameters).
Proof.
  intros Hw. apply well_formed_shaped in Hw.
  assert (Forall shaped (all_nodes [item])) as Hs by (cbn; by rewrite app_nil_r).
  assert (stack_count [item] <= Z.of_nat (Z.to_nat (node_count item))) as Hf.
  { unfold stack_count. cbn. pose proof (node_count_pos item). lia. }
  split_and!.
  - destruct (name_steps (nodes_of item) [] NoDup_nil_2) as [Hnd Hin].
    exists (sorted_str (fold_left name_step (nodes_of item) [])). unfold sorted_str. split_and!.
    + unfold _attribute_names. by rewrite (traverse_fold _ name_step) by (done || apply walks_names).
    + apply (StronglySorted_merge_sort str_le).
    + by rewrite merge_sort_Permutation.
    + intros s. rewrite merge_sort_Permutation, Hin. set_solver.
  - unfold _object_type, traverse. rewrite walk_object_type by done. f_equal. apply decide_ext. cbn. by rewrite app_nil_r.
  - unfold _cryptographic_parameters. case_match; [by eexists|]. unfold traverse.
    destruct (walk_total visit_parameters (Z.to_nat (node_count item)) [] [item] visit_parameters_total Hs Hf) as [r ->].
    cbn. by eexists.
Qed.

(* ------------------------------------------------------------------ *)
(** ** Events hold no content *)

(** The fields whose numbers an event may depend on. *)
Definition TRACED_NUMBERS : list Z :=
  [tag_value OPERATION; tag_value OBJECT_TYPE; tag_value ATTRIBUTE_VALUE; tag_value RESULT_STATUS;
   tag_value RESULT_REASON].

(** The content of a field with tag [t], given how its children are hidden. *)
Definition hide_value (hidden : list Ttlv -> list Ttlv) (t : Z) (v : TtlvValue) : TtlvValue :=
  match v with
  | VTuple cs => VTuple (hidden cs)
  | VInt z => VInt (if mem t TRACED_NUMBERS then z else 0)
  | VBool b => VBool (if mem t TRACED_NUMBERS then b else false)
  | VStr s => VStr (if t =? ATTRIBUTE_NAME then s else [])
  | VBytes _ => VBytes []
  end.

(** A message with everything blanked but attribute names and those numbers. *)
Fixpoint hide (n : Ttlv) : Ttlv :=
  match n with MkTtlv t ty v => MkTtlv t ty (hide_value (map hide) t v) end.

Lemma hide_tag n : tag (hide n) = tag n.
Proof. by destruct n. Qed.

Lemma hide_type n : type (hide n) = type n.
Proof. by destruct n. Qed.

Lemma value_hide n : value (hide n) = hide_value (map hide) (tag n) (value n).
Proof. by destruct n. Qed.

Lemma hide_children n t : children (hide n) t = map hide <$> children n t.
Proof.
  unfold children. rewrite hide_type, value_hide. case_decide; [|done].
  destruct (value n) as [cs| | | |]; try done. cbn. destruct t as [t|]; [|done]. do 2 f_equal.
  induction cs as [|c cs IH]; [done|]. cbn [map]. rewrite !filter_cons, hide_tag, IH. by case_decide.
Qed.

Lemma hide_child n t required : child (hide n) t required = option_map hide <$> child n t required.
Proof.
  unfold child. rewrite hide_children. destruct (children n (Some t)) as [l|e]; [|done].
  cbn. destruct l as [|m [|m' l]]; [by destruct required|done..].
Qed.

Lemma child_tag n t required m : child n t required = Ok (Some m) -> tag m = t.
Proof.
  unfold child, children. case_decide; [|done]. destruct (value n) as [cs| | | |]; try done. cbn.
  destruct (filter _ cs) as [|m' [|m2 l]] eqn:E; [by destruct required| |done]. intros [= ->].
  assert (m ∈ [m]) as Hm by set_solver. rewrite <- E in Hm. by apply list_elem_of_filter in Hm as [? _].
Qed.

Lemma hide_count n : node_count (hide n) = node_count n.
Proof.
  induction n as [t ty cs IH|t ty v Hv] using Ttlv_nested_ind.
  - cbn [hide hide_value]. rewrite !node_count_tuple. f_equal. clear -IH.
    induction IH as [|c cs Hc _ IHc]; [done|]. cbn [map children_count]. by rewrite Hc, IHc.
  - destruct v as [cs| | | |]; [by destruct (Hv cs)|done..].
Qed.

(** The same outcome of a visit, on a tree and on the hidden tree. *)
Definition same_visit {A} (R : A -> A -> Prop) (r r' : res (visited A)) : Prop :=
  match r, r' with
  | Raise e, Raise e' => e = e'
  | Ok (Return a), Ok (Return b) => R a b
  | Ok (Push a ns), Ok (Push b ms) => R a b /\ ms = map hide ns
  | _, _ => False
  end.

Definition same_res {A} (R : A -> A -> Prop) (r r' : res A) : Prop :=
  match r, r' with Raise e, Raise e' => e = e' | Ok a, Ok b => R a b | _, _ => False end.

Lemma walk_hide {A} (R : A -> A -> Prop) visit fuel a b stack :
  (forall a b n, R a b -> same_visit R (visit a n) (visit b (hide n))) -> R a b ->
  same_res R (walk visit fuel a stack) (walk visit fuel b (map hide stack)).
Proof.
  intros Hv. revert a b stack. induction fuel as [|f IH]; intros a b stack Hab; (destruct stack as [|n stack]; [done|]); [done|].
  cbn [walk map]. specialize (Hv a b n Hab).
  destruct (visit a n) as [[a'|a' ns]|e], (visit b (hide n)) as [[b'|b' ms]|e']; try done; cbn in Hv.
  destruct Hv as [Hab' ->]. cbn [mbind res_bind]. rewrite <- map_rev, <- map_app. by apply IH.
Qed.

Lemma traverse_hide {A} (R : A -> A -> Prop) visit a b n :
  (forall a b n, R a b -> same_visit R (visit a n) (visit b (hide n))) -> R a b ->
  same_res R (traverse visit a n) (traverse visit b (hide n)).
Proof. intros Hv Hab. unfold traverse. rewrite hide_count. by apply (walk_hide R visit _ a b [n]). Qed.

Lemma extend_hide {A} (R : A -> A -> Prop) a b n : R a b -> same_visit R (extend a n) (extend b (hide n)).
Proof.
  intros Hab. unfold extend. rewrite hide_type, hide_children. case_decide; [|done].
  by destruct (children n None).
Qed.

Lemma same_res_eq {A} (r r' : res A) : same_res eq r r' -> r' = r.
Proof. destruct r, r'; cbn; try done; by intros ->. Qed.

Lemma hide_object_type n : _object_type (hide n) = _object_type n.
Proof.
  apply same_res_eq. unfold _object_type. apply traverse_hide; [|done]. clear n. intros a b n ->.
  unfold visit_object_type. rewrite hide_tag, value_hide.
  destruct (Z.eqb_spec (tag n) OBJECT_TYPE) as [E|]; [|by apply extend_hide].
  destruct (value n) as [| z | | |]; cbn [hide_value andb]; try by apply extend_hide.
  unfold mem. rewrite bool_decide_eq_true_2 by (rewrite E; set_solver). destruct (z =? 2); [done|by apply extend_hide].
Qed.

Lemma hide_attribute_names n : _attribute_names (hide n) = _attribute_names n.
Proof.
  unfold _attribute_names. f_equal. apply same_res_eq, traverse_hide; [|done]. clear n. intros a b n ->.
  unfold visit_attribute_names. rewrite hide_tag, value_hide. apply extend_hide.
  destruct (tag n =? ATTRIBUTE_NAME) eqn:E; [|done]. destruct (value n); cbn [hide_value]; [done..| |done].
  by rewrite E.
Qed.

(** The values that [_cryptographic_parameters] collects, hidden. *)
Definition hidden_values (a b : list (pystr * TtlvValue)) : Prop :=
  b = map (fun kv => (kv.1, hide_value (map hide) ATTRIBUTE_VALUE kv.2)) a.

Lemma dict_set_map {A B} (f : A -> B) k v d :
  dict_set k (f v) (map (fun kv => (kv.1, f kv.2)) d) = map (fun kv => (kv.1, f kv.2)) (dict_set k v d).
Proof. induction d as [|[k' v'] d IH]; [done|]. cbn. case_decide; cbn; [done|by rewrite IH]. Qed.

Lemma hide_parameters n operation : _cryptographic_parameters (hide n) operation = _cryptographic_parameters n operation.
Proof.
  unfold _cryptographic_parameters. case_match; [done|].
  assert (same_res hidden_values (traverse visit_parameters [] n) (traverse visit_parameters [] (hide n))) as Hv.
  { apply traverse_hide; [|done]. intros a b m ->. unfold visit_parameters. rewrite hide_tag, hide_type, !hide_child.
    destruct ((tag m =? ATTRIBUTE) && bool_decide (type m = STRUCTURE)); [|by apply extend_hide].
    destruct (child m ATTRIBUTE_NAME true) as [nm|e] eqn:En; [|by destruct e].
    destruct (child m ATTRIBUTE_VALUE true) as [v|e] eqn:Ev; [|by destruct e]. cbn [mbind res_bind fmap res_fmap].
    destruct nm as [nm|]; [|by apply extend_hide]. destruct v as [v|]; [|by apply extend_hide]. cbn [fmap option_fmap option_map].
    apply child_tag in En, Ev. apply extend_hide. rewrite !value_hide, En, Ev.
    destruct (value nm); cbn [hide_value]; try done. rewrite Z.eqb_refl. unfold hidden_values. apply dict_set_map. }
  destruct (traverse visit_parameters [] n) as [a|e], (traverse visit_parameters [] (hide n)) as [b|e']; try done; cbn in Hv; [|by subst].
  unfold hidden_values in Hv. subst b. cbn [mbind res_bind]. rewrite !dict_get_map.
  do 2 f_equal; [do 2 f_equal|]; destruct (dict_get _ a) as [[]|]; done.
Qed.

Lemma hide_operation n : _operation (hide n) = _operation n.
Proof.
  unfold _operation. rewrite hide_child. destruct (child n OPERATION false) as [[m|]|e] eqn:E; try done.
  apply child_tag in E. cbn [fmap res_fmap option_map mbind res_bind]. rewrite value_hide, E. by destruct (value m).
Qed.

Lemma hide_int m : tag m ∈ TRACED_NUMBERS -> int_value (value (hide m)) = int_value (value m).
Proof.
  intros Hm. rewrite value_hide. destruct (value m); cbn [hide_value int_value]; try done;
    unfold mem; by rewrite bool_decide_eq_true_2.
Qed.

Lemma trace_event_hide connection_id fingerprint provider version timestamp b request_item response_item :
  trace_event connection_id fingerprint provider version timestamp b (hide request_item) (hide response_item)
  = trace_event connection_id fingerprint provider version timestamp b request_item response_item.
Proof.
  unfold trace_event. rewrite hide_operation. destruct (_operation request_item) as [[name z]|e]; [|done].
  cbn [mbind res_bind]. rewrite hide_parameters, hide_object_type, hide_attribute_names.
  destruct (_cryptographic_parameters request_item name) as [[[a l] f]|e]; [|done]. cbn [mbind res_bind].
  unfold present. rewrite !hide_child.
  destruct (child response_item RESULT_STATUS true) as [[m|]|e] eqn:Em; try done.
  apply child_tag in Em. cbn [fmap res_fmap option_map mbind res_bind].
  rewrite hide_int by (rewrite Em; set_solver). destruct (int_value (value m)) as [status|]; [|done]. cbn [mbind res_bind].
  destruct (child response_item RESULT_REASON false) as [[r|]|e] eqn:Er; try done.
  apply child_tag in Er. cbn [fmap res_fmap option_map mbind res_bind option_bind].
  by rewrite hide_int by (rewrite Er; set_solver).
Qed.

(** A trace event holds no content of the messages: it is a function of the tags and
    types of their fields, the attribute names, the numbers of the operation, the object
    type, the attribute values, the result status and reason, and the digest of the request.
    Key material, identifiers, names and result texts do not influence it. *)
Theorem trace_event_redacted connection_id fingerprint provider version timestamp b request_item response_item :
  trace_event connection_id fingerprint provider version timestamp b request_item response_item
  = trace_event connection_id fingerprint provider version timestamp b (hide request_item) (hide response_item).
Proof. symmetry. apply trace_event_hide. Qed.

(* ------------------------------------------------------------------ *)
(** ** The validator *)

Section Validator.
Context `{PyRuntime}.

(** The field names of a value, at any depth. *)
Fixpoint field_names (v : json) : list pystr :=
  match v with
  | JDict items =>
    (fix go items := match items with [] => [] | (k, v) :: items => k :: field_names v ++ go items end) items
  | JList l => (fix go l := match l with [] => [] | v :: l => field_names v ++ go l end) l
  | _ => []
  end.

Lemma reject_secret_fields_Ok v :
  _reject_secret_fields v = Ok tt <-> Forall (fun k => forbidden k = false) (field_names v).
Proof.
  induction v as [|b|z|fl|s|l IH|items IH] using json_nested_ind; try (by split).
  - induction IH as [|v l Hv _ IHl]; [by split|]. cbn [_reject_secret_fields field_names] in *.
    rewrite Forall_app, <- Hv, <- IHl. destruct (_reject_secret_fields v) as [[]|e]; cbn; [tauto|]. split; [done|by intros []].
  - induction IH as [|[k v] items Hv _ IHi]; [by split|]. cbn [_reject_secret_fields field_names snd] in *.
    rewrite Forall_cons, Forall_app, <- Hv, <- IHi. destruct (forbidden k); cbn; [split; [done|by intros [? _]]|].
    destruct (_reject_secret_fields v) as [[]|e]; cbn; [tauto|]. split; [done|by intros (_&?&_)].
Qed.

(** A name of the contract. *)
Definition in_contract (contract : list (pystr * json)) (field : string) (s : pystr) : Prop :=
  exists v l, dict_get (str field) contract = Some v /\ name_list v = Some l /\ s ∈ l.

(** What an accepted event is. *)
Record event_ok (contract event : list (pystr * json)) : Prop := {
  event_fields k : k ∈ event.*1 <-> k ∈ REQUIRED_FIELDS;
  event_public : Forall (fun k => forbidden k = false) (field_names (JDict event));
  event_operation : exists s, dict_get (str "operation") event = Some (JStr s) /\ in_contract contract "candidate_operations" s;
  event_version : exists s, dict_get (str "protocol_version") event = Some (JStr s) /\ in_contract contract "protocol_versions" s;
  event_status : exists s, dict_get (str "result_status") event = Some (JStr s) /\ in_contract contract "result_statuses" s;
  event_provider : exists s, dict_get (str "provider_id") event = Some (JStr s) /\ strip is_space s <> [];
  event_attributes : exists v l, dict_get (str "attribute_names") event = Some v /\ string_list v = Some l /\
    Forall (in_contract contract "candidate_attributes") l;
  event_digests k : k ∈ [str "client_cert_sha256"; str "request_digest"] ->
    exists v, dict_get k event = Some v /\ length (py_str v) = 64%nat /\ Forall (fun c => is_lower_hex c = true) (py_str v)
}.

Lemma names_Ok contract field l s :
  Trace.names contract (str field) = Ok l -> s ∈ l -> in_contract contract field s.
Proof.
  unfold Trace.names, item. intros E Hs. destruct (dict_get (str field) contract) as [v|] eqn:Ev; [|done]. cbn in E.
  injection E as <-. destruct (name_list v) as [l|] eqn:El; cbn in Hs; [|by apply not_elem_of_nil in Hs].
  by exists v, l.
Qed.

Lemma in_names_spec v l : in_names v l = true <-> exists s, v = JStr s /\ s ∈ l.
Proof.
  unfold in_names, mem. destruct v; try naive_solver. rewrite bool_decide_eq_true. naive_solver.
Qed.

Lemma item_Ok d k v : item d k = Ok v <-> dict_get k d = Some v.
Proof. unfold item. destruct (dict_get k d); naive_solver. Qed.

Lemma sha256_field d k v t : item d k = Ok v -> _require_sha256 v = Ok t ->
  exists v, dict_get k d = Some v /\ length (py_str v) = 64%nat /\ Forall (fun c => is_lower_hex c = true) (py_str v).
Proof.
  intros Hi. apply item_Ok in Hi. unfold _require_sha256. intros E. res_inv. exists v. split; [done|].
  match goal with E : _ || _ = false |- _ => apply orb_false_elim in E as [E1 E2] end. split.
  - unfold zlen in *. lia.
  - apply negb_false_iff in E2. apply Forall_forall. intros c Hc. rewrite forallb_forall in E2. by apply E2, list_elem_of_In.
Qed.

(** A field that names something of the contract. *)
Lemma contract_field event contract k field v l :
  item event k = Ok v -> Trace.names contract (str field) = Ok l -> negb (in_names v l) = false ->
  exists s, dict_get k event = Some (JStr s) /\ in_contract contract field s.
Proof.
  intros Hi Hl Hn. apply item_Ok in Hi. apply negb_false_iff, in_names_spec in Hn as (s&->&Hs).
  exists s. split; [done|]. by eapply names_Ok.
Qed.

Lemma validate_event_ok event contract : _validate_event event contract = Ok tt -> event_ok contract event.
Proof.
  unfold _validate_event. intros E.
  apply bind_Ok in E as ([]&Hsecret&E). apply reject_secret_fields_Ok in Hsecret.
  apply bind_Ok in E as (?&Hm1&E). apply bind_Ok in E as (?&Hm2&E).
  apply raise_if_Ok, negb_false_iff, bool_decide_eq_true in Hm1, Hm2.
  pose proof (proj1 (missing_nil _ _) Hm1) as Hm1'. pose proof (proj1 (missing_nil _ _) Hm2) as Hm2'.
  apply bind_Ok in E as (?&_&E). apply bind_Ok in E as (?&_&E).
  apply bind_Ok in E as (client&Hc&E). apply bind_Ok in E as (?&Hc'&E).
  apply bind_Ok in E as (digest&Hd&E). apply bind_Ok in E as (?&Hd'&E).
  apply bind_Ok in E as (pv&Hpv&E). apply bind_Ok in E as (vs&Hvs&E). apply bind_Ok in E as (?&Hv&E). apply raise_if_Ok in Hv.
  apply bind_Ok in E as (op&Hop&E). apply bind_Ok in E as (ops&Hops&E). apply bind_Ok in E as (?&Ho&E). apply raise_if_Ok in Ho.
  do 8 (apply bind_Ok in E as (?&_&E)).
  apply bind_Ok in E as (attrs&Hattrs&E). apply bind_Ok in E as (allowed&Hallowed&E). apply bind_Ok in E as (?&Ha&E).
  apply bind_Ok in E as (st&Hst&E). apply bind_Ok in E as (sts&Hsts&E). apply bind_Ok in E as (?&Hs&E). apply raise_if_Ok in Hs.
  apply bind_Ok in E as (texts&Htexts&_).
  split.
  - intros k. split; [apply Hm2'|apply Hm1'].
  - done.
  - by eapply contract_field.
  - by eapply contract_field.
  - by eapply contract_field.
  - apply res_mapM_Ok in Htexts. do 2 (apply Forall2_cons_inv_l in Htexts as (?&?&_&Htexts&_)).
    apply Forall2_cons_inv_l in Htexts as ([]&?&Hp&_&_).
    apply bind_Ok in Hp as (v&Hp&Hb). apply item_Ok in Hp. apply raise_if_Ok in Hb. destruct v as [| | | |s| |]; try done.
    exists s. split; [done|]. by apply bool_decide_eq_false in Hb.
  - apply item_Ok in Hattrs. destruct (string_list attrs) as [l|] eqn:El; [|done]. exists attrs, l. split_and!; [done|done|].
    apply raise_if_Ok, negb_false_iff, bool_decide_eq_true in Ha. apply Forall_forall. intros s Hs'.
    eapply names_Ok; [exact Hallowed|]. by apply (proj1 (missing_nil l allowed) Ha).
  - intros k Hk. apply elem_of_cons in Hk as [->|Hk%list_elem_of_singleton]; [|subst k]; by eapply sha256_field.
Qed.

(** A line of a trace and the event on it. *)
Definition valid_line (contract : list (pystr * json)) (line : pystr) (event : list (pystr * json)) : Prop :=
  strip is_space line <> [] /\ loads line = Ok (JDict event) /\ _validate_event event contract = Ok tt.

Lemma validate_lines_Ok contract lines events :
  validate_lines contract lines = Ok events <->
  Forall2 (valid_line contract) (filter (fun l => strip is_space l <> []) lines) events.
Proof.
  revert events. induction lines as [|line lines IH]; intros events; cbn [validate_lines].
  { rewrite filter_nil. split; [intros [= <-]; constructor|]. intros Hf. by apply Forall2_nil_inv_l in Hf as ->. }
  rewrite filter_cons. case_bool_decide as Hb.
  { rewrite decide_False by tauto. apply IH. }
  rewrite decide_True by done. split.
  - intros E. apply bind_Ok in E as (v&Hv&E). apply rethrow_Ok in Hv. destruct v as [| | | | | |event]; try done.
    apply bind_Ok in E as ([]&He&E). apply bind_Ok in E as (es&Hes&E). injection E as <-.
    constructor; [by split_and!|by apply IH].
  - intros Hf. apply Forall2_cons_inv_l in Hf as (event&es&(_&Hl&He)&Hes&->). rewrite Hl. cbn [rethrow mbind res_bind].
    rewrite He. cbn [mbind res_bind]. apply IH in Hes. by rewrite Hes.
Qed.

(** The columns that a summary counts are there. *)
Lemma texts_Ok contract events field :
  Forall (fun e => event_ok contract e) events -> str field ∈ REQUIRED_FIELDS ->
  exists l, texts (str field) events = Ok l /\ length l = length events.
Proof.
  intros He Hf. unfold texts. induction He as [|e events He _ (l&El&Hl)]; [by exists []|].
  apply (event_fields _ _ He) in Hf. destruct (dict_get (str field) e) as [v|] eqn:Ev.
  - exists (py_str v :: l). split; [|cbn; by rewrite Hl]. apply res_mapM_Ok. constructor; [by rewrite (proj2 (item_Ok _ _ _) Ev)|].
    by apply res_mapM_Ok.
  - by apply dict_get_None in Ev.
Qed.

(** The counts of a [Counter] add up to the number of values. *)
Definition total_count (l : list (pystr * Z)) : Z := foldr Z.add 0 (map snd l).

Lemma total_counter values : total_count (counter values) = zlen values.
Proof.
  unfold total_count, counter. rewrite map_map. cbn [snd].
  assert (forall keys, NoDup keys -> (forall x, x ∈ values -> x ∈ keys) ->
    foldr Z.add 0 (map (fun v => zlen (filter (fun x => x = v) values)) keys) = zlen values) as Hk.
  { clear. induction values as [|x values IH]; intros keys Hnd Hin.
    - clear. induction keys as [|k keys IH]; [done|]. cbn [map foldr]. rewrite IH. done.
    - rewrite zlen_cons, <- (IH keys Hnd) by set_solver. clear IH.
      assert (x ∈ keys) as Hx by set_solver. clear Hin.
      induction keys as [|k keys IHk]; [by apply not_elem_of_nil in Hx|].
      apply NoDup_cons in Hnd as [Hk Hnd]. cbn [map foldr]. rewrite !filter_cons.
      destruct (decide (x = k)) as [->|Hne].
      + rewrite zlen_cons. assert (map (fun v => zlen (filter (fun x => x = v) (k :: values))) keys =
          map (fun v => zlen (filter (fun x => x = v) values)) keys) as ->; [|lia].
        apply map_ext_in. intros v Hv. apply list_elem_of_In in Hv. rewrite filter_cons, decide_False; [done|]. by intros ->.
      + rewrite IHk; [lia|done|set_solver]. }
  apply Hk.
  - unfold sorted_str. rewrite merge_sort_Permutation. apply NoDup_remove_dups.
  - intros x Hx. unfold sorted_str. rewrite merge_sort_Permutation. by apply elem_of_remove_dups.
Qed.

Lemma validate_trace_total default contract lines events b :
  validate_contract contract = Ok contract -> b <> [] -> lines <> [] -> Forall2 (valid_line contract) lines events ->
  exists summary, validate_trace default lines (Some contract) b = Ok summary /\
    event_count summary = zlen lines /\ total_count (operation_counts summary) = zlen lines /\
    total_count (status_counts summary) = zlen lines.
Proof.
  intros Hc Hb Hl Hv. assert (filter (fun l => strip is_space l <> []) lines = lines) as Hfl.
  { clear -Hv. induction Hv as [|l e lines events [Hl _] _ IH]; [done|]. by rewrite filter_cons, decide_True, IH. }
  assert (Forall (event_ok contract) events) as He.
  { clear -Hv. induction Hv as [|l e lines events (_&_&He) _ IH]; constructor; [by apply validate_event_ok|done]. }
  assert (zlen events = zlen lines) as Hlen by (unfold zlen; by rewrite (Forall2_length _ _ _ Hv)).
  assert (validate_lines contract lines = Ok events) as Hvl by (apply validate_lines_Ok; by rewrite Hfl).
  destruct (texts_Ok contract events "operation" He ltac:(set_solver)) as (ops&Hops&Lo).
  destruct (texts_Ok contract events "result_status" He ltac:(set_solver)) as (sts&Hsts&Ls).
  destruct (texts_Ok contract events "protocol_version" He ltac:(set_solver)) as (vs&Hvs&_).
  destruct (texts_Ok contract events "provider_id" He ltac:(set_solver)) as (ps&Hps&_).
  assert (exists v, item contract (str "contract_id") = Ok v) as [cid Hcid].
  { unfold validate_contract in Hc. apply bind_Ok in Hc as (?&Hk&_). apply raise_if_Ok, negb_false_iff in Hk.
    unfold same_keys in Hk. apply andb_prop in Hk as [Hk _]. apply bool_decide_eq_true in Hk.
    pose proof (proj1 (missing_nil _ _) Hk (str "contract_id") ltac:(set_solver)) as Hin.
    unfold item. destruct (dict_get (str "contract_id") contract) eqn:E; [by eexists|]. by apply dict_get_None in E. }
  unfold validate_trace. rewrite Hc. cbn [mbind res_bind]. rewrite Hvl. cbn [mbind res_bind].
  rewrite bool_decide_false by (intros ->; by apply Forall2_nil_inv_r in Hv). cbn [raise_if mbind res_bind].
  destruct b as [|x b]; [done|]. cbn [mbind res_bind]. rewrite Hops, Hsts, Hcid, Hvs, Hps. cbn [mbind res_bind].
  eexists. split; [reflexivity|]. cbn [event_count operation_counts status_counts]. rewrite !total_counter. unfold zlen in *. split_and!; lia.
Qed.
End Validator.

(* ------------------------------------------------------------------ *)
(** ** The trace file *)

(** Lines, each ended by a line feed. *)
Definition unlines (lines : list pystr) : pystr := concat (map (fun l => l ++ [10]) lines).

Lemma printable_linebreak c : printable c -> is_line_break c = false.
Proof. unfold printable, is_line_break. lia. Qed.

Lemma splitlines_unlines lines : Forall (Forall printable) lines -> splitlines (unlines lines) = lines.
Proof.
  unfold splitlines, unlines. induction 1 as [|l lines Hl _ IH]; [done|]. cbn [map concat]. rewrite <- app_assoc.
  assert (forall current, splitlines_from current (l ++ [10] ++ concat (map (fun l => l ++ [10]) lines))
    = (rev current ++ l) :: splitlines_from [] (concat (map (fun l => l ++ [10]) lines))) as Hg.
  { induction Hl as [|c l Hc _ IHl]; intros current.
    - cbn [app splitlines_from]. rewrite app_nil_r. by destruct (concat _).
    - cbn [app splitlines_from]. rewrite printable_linebreak, IHl by done. cbn [rev]. by rewrite <- app_assoc. }
  by rewrite Hg, IH.
Qed.

Section TraceFile.
Context {py : PyRuntime} (contract : list (pystr * json)).

(** The text of a trace file: one accepted event to a line. *)
Definition trace_file (text : pystr) : Prop :=
  exists lines events, text = unlines lines /\ Forall (Forall printable) lines /\
    Forall2 (valid_line contract) lines events.

Lemma trace_file_app text lines events :
  trace_file text -> Forall (Forall printable) lines -> Forall2 (valid_line contract) lines events ->
  trace_file (text ++ unlines lines).
Proof.
  intros (ls&es&->&Hp&Hv) Hp' Hv'. exists (ls ++ lines), (es ++ events). split_and!.
  - unfold unlines. by rewrite map_app, concat_app.
  - by apply Forall_app.
  - by apply Forall2_app.
Qed.

(** What the validator accepts is metadata only: an accepted event has exactly the
    required fields, no field at any depth whose name suggests a secret, digests that are
    digests, and an operation, protocol version, result status and attribute names that are
    all on the lists of the contract. *)
Theorem accepted_event_ok event : _validate_event event contract = Ok tt -> event_ok contract event.
Proof. apply validate_event_ok. Qed.

(** A trace file is accepted by the validator: for a valid contract, the lines of a
    nonempty trace file validate, one event to each line, and the counts of operations and
    result statuses in the summary add up to the number of events. *)
Theorem trace_file_accepted default b text :
  validate_contract contract = Ok contract -> b <> [] -> text <> [] -> trace_file text ->
  exists summary, validate_trace default (splitlines text) (Some contract) b = Ok summary /\
    event_count summary = zlen (splitlines text) /\
    total_count (operation_counts summary) = event_count summary /\
    total_count (status_counts summary) = event_count summary.
Proof.
  intros Hc Hb Ht (lines&events&->&Hp&Hv). rewrite splitlines_unlines by done.
  destruct (validate_trace_total default contract lines events b Hc Hb) as (s&Hs&H1&H2&H3);
    [by intros -> | done | exists s; split_and!; congruence].
Qed.
End TraceFile.

Section Recorded.
Context {py : PyRuntime} (source : res bytes) (contract : list (pystr * json)) (loaded : load_contract source = Ok contract).

Lemma trace_event_no_float a b c d e f request_item response_item v :
  trace_event a b c d e f request_item response_item = Ok v -> no_float v = true.
Proof.
  unfold trace_event. intros E. apply bind_Ok in E as ([name z]&_&E). apply bind_Ok in E as ([[alg len] fmt]&_&E).
  apply bind_Ok in E as (st&_&E). apply bind_Ok in E as (status&_&E). apply bind_Ok in E as (rn&_&E).
  apply bind_Ok in E as (ot&_&E). apply bind_Ok in E as (names&_&E). injection E as <-. cbn.
  assert (forallb no_float (map JStr names) = true) as ->.
  { apply forallb_forall. intros x Hx. by apply in_map_iff in Hx as (s&<-&_). }
  set (reason := _ ≫= _). destruct ot, alg, len, fmt, reason; done.
Qed.

Lemma validated_line rendered summary :
  validate_trace source [rendered] None [] = Ok summary -> exists event, valid_line contract rendered event.
Proof.
  unfold validate_trace. intros E. apply bind_Ok in E as (c&Hc&E). assert (c = contract) as -> by congruence.
  apply bind_Ok in E as (events&Hv&E). apply bind_Ok in E as (?&Hr&_). apply raise_if_Ok, bool_decide_eq_false in Hr.
  apply validate_lines_Ok in Hv. rewrite filter_cons, filter_nil in Hv. destruct (decide _).
  - apply Forall2_cons_inv_l in Hv as (event&?&He&_&_). by exists event.
  - by apply Forall2_nil_inv_l in Hv.
Qed.

Lemma trace_lines_valid a b c d e f request_items response_items lines :
  trace_lines a b c d e f source request_items response_items = Ok lines ->
  exists events, Forall (Forall printable) lines /\ Forall2 (valid_line contract) lines events.
Proof.
  revert response_items lines. induction request_items as [|q qs IH]; intros [|r rs] lines E; cbn [trace_lines] in E; try done.
  - injection E as <-. exists []. split; constructor.
  - apply bind_Ok in E as (v&Hv&E). destruct (validate_trace _ _ _ _) as [summary|x] eqn:Es; [|destruct x; try done; by eapply IH].
    apply bind_Ok in E as (ls&Hls&E). injection E as <-. destruct (IH _ _ Hls) as (es&Hp&Hv').
    apply validated_line in Es as [event He]. exists (event :: es). split; constructor; try done.
    by eapply dumps_printable, trace_event_no_float.
Qed.

Context {St : Type} {store_ops : KeyStore St}.

(** The trace file is whole and the next writes of it succeed. *)
Definition traced (k : Conn St) : Prop :=
  Forall (fun x => x = None) (trace_writes k) /\ trace_file contract (trace_text k).

Definition keeps_trace {A : Type} (c : ST (Conn St) A) : Prop := forall k, traced k -> traced (c k).2.

Lemma trace_bind {A B : Type} (c : ST (Conn St) A) (f : A -> ST (Conn St) B) :
  keeps_trace c -> (forall a, keeps_trace (f a)) -> keeps_trace (c ≫= f).
Proof.
  intros Hc Hf k Hk. specialize (Hc k Hk). unfold mbind, ST_bind. destruct (c k) as [[a|e] k']; [by apply Hf|done].
Qed.

Lemma trace_catch {A : Type} classes (c : ST (Conn St) A) h :
  keeps_trace c -> (forall e, keeps_trace (h e)) -> keeps_trace (catch classes c h).
Proof.
  intros Hc Hh k Hk. specialize (Hc k Hk). unfold catch. destruct (c k) as [[a|e] k']; [done|].
  destruct (classes e); [by apply Hh|done].
Qed.

Lemma trace_lift {A : Type} (r : res A) : keeps_trace (lift r).
Proof. by intros k. Qed.

Lemma trace_ret {A : Type} (a : A) : keeps_trace (mret a).
Proof. by intros k. Qed.

Lemma trace_receive n : keeps_trace (receive n).
Proof. intros k Hk. unfold receive. by destruct (_receive_exact n (incoming k)). Qed.

Lemma trace_send b : keeps_trace (sendall b).
Proof. intros k Hk. unfold sendall. by destruct (sends k) as [|[] l]. Qed.

Lemma trace_store {A : Type} (m : ST St A) : keeps_trace (on_store m).
Proof. intros k Hk. unfold on_store. by destruct (m (store k)). Qed.

Lemma trace_append lines events :
  Forall (Forall printable) lines -> Forall2 (valid_line contract) lines events -> keeps_trace (append_trace (unlines lines)).
Proof.
  intros Hp Hv k [Hw Ht]. unfold append_trace, traced. destruct (trace_writes k) as [|x l].
  - cbn. split; [done|by eapply trace_file_app].
  - apply Forall_cons in Hw as [-> Hw]. cbn. split; [done|by eapply trace_file_app].
Qed.

Lemma trace_record a b c d e f : keeps_trace (record source a b c d e f).
Proof.
  unfold record. do 3 (apply trace_bind; [apply trace_lift|intros ?]). apply trace_bind; [by intros k|]. intros us.
  intros k Hk. unfold mbind, ST_bind, lift.
  match goal with |- context [trace_lines ?a ?b ?c ?d ?e ?f source ?q ?r] =>
    destruct (trace_lines a b c d e f source q r) as [events|x] eqn:E end; [|done].
  apply trace_lines_valid in E as (es&Hp&Hv). destruct events as [|l events]; [done|].
  by apply (trace_append (l :: events) es).
Qed.

Lemma trace_answer tr cid fp p request b : keeps_trace (answer_request source tr cid fp p request b).
Proof.
  unfold answer_request, dispatch_logged. apply trace_bind.
  { apply trace_bind; [by intros k|]. intros now. apply trace_catch.
    - apply trace_bind; [apply trace_store|]. intros ?. apply trace_ret.
    - intros e. apply trace_bind; [by intros k|]. intros _. destruct e; (apply trace_ret || apply trace_lift). }
  intros [response|]; [|apply trace_ret]. apply trace_bind; [by intros k|]. intros _.
  apply trace_bind; [apply trace_lift|]. intros rb. apply trace_bind.
  { destruct tr; [apply trace_record|apply trace_ret]. }
  intros _. apply trace_bind; [apply trace_send|]. intros _. apply trace_ret.
Qed.

Lemma trace_serve limits tr cid fp p : keeps_trace (serve_request source limits tr cid fp p).
Proof.
  unfold serve_request. apply trace_bind; [apply trace_receive|]. intros [|h header]; [apply trace_ret|].
  do 3 (apply trace_bind; [apply trace_lift|intros _]). apply trace_bind; [apply trace_receive|]. intros body.
  apply trace_bind; [apply trace_lift|intros _]. apply trace_bind; [apply trace_lift|]. intros request. apply trace_answer.
Qed.

Lemma trace_serve_requests limits tr cid fp p n : keeps_trace (serve_requests source limits tr cid fp p n).
Proof.
  induction n as [|n IH]; cbn [serve_requests]; [apply trace_ret|]. apply trace_bind.
  - apply trace_catch; [apply trace_serve|]. intros e. apply trace_ret.
  - intros []; [done|apply trace_ret].
Qed.

(** C40. Whatever a client sends, a connection leaves the trace file a valid trace: as long
    as writing it succeeds, every line that [handle] appends is one printable line with one
    event that the validator accepts. *)
Theorem connection_trace_valid config handshake (k : Conn St) :
  traced k -> traced (handle source config handshake k).2.
Proof.
  intros Hk. unfold handle. destruct handshake as [[[|b l]|]|e]; try done; [|by destruct e].
  destruct (dict_get _ _) as [p|]; [|done]. by apply (trace_bind new_connection_id); [intros k'|intros cid; apply trace_serve_requests|].
Qed.
End Recorded.

(* ------------------------------------------------------------------ *)
(** ** Instances *)

Definition jstrs (l : list string) : json := JList (map (fun s => JStr (str s)) l).

(** The fields of [contracts/vcf_9_1.json] that the validator reads. *)
Definition vcf_contract : json := jobj
  [("schema_version", JInt 1); ("contract_id", JStr (str "atlaso-vcf-9.1-kmip-candidate-v1"));
   ("target", jobj [("product", JStr (str "VMware Cloud Foundation")); ("version", JStr (str "9.1"))]);
   ("status", JStr (str "candidate-unverified")); ("promotion_gate", JStr (str "issue #172"));
   ("transport", jobj [("port", JInt 5696); ("encoding", JStr (str "TTLV")); ("tls_minimum", JStr (str "TLSv1.2"));
                       ("mutual_tls_required", JBool true)]);
   ("protocol_versions", jstrs ["1.1"; "1.4"]); ("objects", jstrs ["Symmetric Key"]);
   ("algorithms", jobj [("AES", jobj [("lengths", JList [JInt 256]); ("key_format_types", jstrs ["Raw"])])]);
   ("candidate_operations", jstrs ["Discover Versions"; "Query"; "Create"; "Activate"; "Get"; "Get Attribute List";
                                   "Get Attributes"; "Locate"]);
   ("candidate_attributes", jstrs ["Activation Date"; "Cryptographic Algorithm"; "Cryptographic Length";
      "Cryptographic Usage Mask"; "Name"; "Object Type"; "State"; "Unique Identifier"; "x-Component"; "x-Identifier";
      "x-Product"; "x-Product_Version"; "x-Vendor"]);
   ("result_statuses", jstrs ["Success"; "Operation Failed"]);
   ("result_reasons", jstrs ["Item Not Found"; "Invalid Message"; "Operation Not Supported"; "Missing Data";
      "Invalid Field"; "Key Format Type Not Supported"; "Cryptographic Failure"; "Permission Denied"; "General Failure"]);
   ("explicitly_unsupported", jobj []); ("sources", JList [])]%string.

Definition vcf_bytes : bytes := ok_bytes (dumps_bytes vcf_contract).
Definition ok_contract (r : res (list (pystr * json))) : list (pystr * json) := match r with Ok c => c | Raise _ => [] end.
Definition demo_contract : list (pystr * json) := ok_contract (load_contract (H := demo_runtime) (Ok vcf_bytes)).

Lemma demo_contract_loaded : load_contract (H := demo_runtime) (Ok vcf_bytes) = Ok demo_contract.
Proof. vm_compute. reflexivity. Qed.

(** A connection with tracing on that serves the requests of [sock]. *)
Definition traced_conn (sock : list recv_event) : Conn World := mkConn sock [] [] [7] [1700000000000000] [] [] [] [] demo_world.
Definition serve_traced (tr : bool) (b : bytes) : res unit * Conn World :=
  serve_requests (H := demo_runtime) (Ok vcf_bytes) (limits demo_config) tr (str "connection") demo_fingerprint demo_provider 2
    (traced_conn [Arrived b]).

Definition demo_text : pystr := trace_text (serve_traced true demo_message).2.

Example demo_text_line : length (splitlines demo_text) = 1%nat.
Proof. vm_compute. reflexivity. Qed.

(** A batch item that repeats its operation. *)
Definition repeated_request : Ttlv :=
  request_message (1, 4)
    [structure BATCH_ITEM [enumeration OPERATION 24; enumeration OPERATION 24; structure REQUEST_PAYLOAD []]].
Definition repeated_bytes : bytes := ok_bytes (Ttlv.encode repeated_request).

(** Tracing changes what a client sees: a batch item that repeats its Operation is
    answered with a failure when tracing is off; with tracing on the answer, already
    computed, is not sent, because the writer reads the item again, raises and ends the
    connection. *)
Theorem tracing_drops_response :
  length (sent (serve_traced false repeated_bytes).2) = 1%nat /\
  sent (serve_traced true repeated_bytes).2 = [] /\ (serve_traced true repeated_bytes).1 = Ok tt.
Proof. vm_compute. split_and!; reflexivity. Qed.

Definition demo_item : Ttlv :=
  request_item CREATE [_attribute (str "Name") (byte_string ATTRIBUTE_VALUE [x01]); enumeration OBJECT_TYPE 2].

Lemma trace_walks_exact_witness :
  (exists names, _attribute_names demo_item = Ok names /\ StronglySorted str_le names /\ NoDup names /\
     forall s, s ∈ names <-> Exists (names_attribute s) (nodes_of demo_item)) /\
  _object_type demo_item = Ok (if decide (Exists is_key_type (nodes_of demo_item)) then Some (str "Symmetric Key") else None) /\
  (exists parameters, _cryptographic_parameters demo_item (str "Create") = Ok parameters).
Proof. apply trace_walks_exact. reflexivity. Defined.

Definition event_of (r : res json) : list (pystr * json) := match r with Ok (JDict e) => e | _ => [] end.
Definition demo_line : pystr := concat (take 1 (splitlines demo_text)).
Definition demo_event : list (pystr * json) := event_of (loads demo_line).

Lemma demo_event_valid : _validate_event (H := demo_runtime) demo_event demo_contract = Ok tt.
Proof. vm_compute. reflexivity. Qed.

Lemma accepted_event_ok_witness : event_ok (H := demo_runtime) demo_contract demo_event.
Proof. exact (accepted_event_ok demo_contract demo_event demo_event_valid). Defined.

Lemma demo_trace_file : trace_file (py := demo_runtime) demo_contract demo_text.
Proof.
  exists [demo_line], [demo_event]. split_and!.
  - vm_compute. reflexivity.
  - constructor; [|constructor]. apply printable_all. vm_compute. reflexivity.
  - constructor; [|constructor]. split_and!; [vm_compute; discriminate|vm_compute; reflexivity|exact demo_event_valid].
Qed.

Lemma trace_file_accepted_witness :
  exists summary, validate_trace (H := demo_runtime) no_contract (splitlines demo_text) (Some demo_contract) vcf_bytes = Ok summary /\
    event_count summary = zlen (splitlines demo_text) /\
    total_count (operation_counts summary) = event_count summary /\
    total_count (status_counts summary) = event_count summary.
Proof.
  apply trace_file_accepted.
  - vm_compute. reflexivity.
  - vm_compute. discriminate.
  - vm_compute. discriminate.
  - exact demo_trace_file.
Defined.

(** The configuration with a trace path. *)
Definition traced_config : ServiceConfig :=
  let c := demo_config in
  mkConfig (enabled c) (listen_addresses c) (port c) (certificate_path c) (private_key_path c) (ca_path c)
    (database_path c) (kek_path c) (limits c) (providers c) (Some (str "/var/lib/atlaso/trace.jsonl")).

Lemma connection_trace_valid_witness :
  let k := traced_conn [Arrived demo_message; Arrived repeated_bytes] in
  let handshake := Ok (Some (map to_byte (str "client certificate"))) in
  traced (py := demo_runtime) demo_contract k /\
  traced (py := demo_runtime) demo_contract (handle (H := demo_runtime) (Ok vcf_bytes) traced_config handshake k).2.
Proof.
  assert (traced (py := demo_runtime) demo_contract (traced_conn [Arrived demo_message; Arrived repeated_bytes])) as Hk.
  { split; [constructor|]. exists [], []. split_and!; constructor. }
  split; [exact Hk|].
  exact (connection_trace_valid (Ok vcf_bytes) demo_contract demo_contract_loaded traced_config
    (Ok (Some (map to_byte (str "client certificate")))) (traced_conn [Arrived demo_message; Arrived repeated_bytes]) Hk).
Defined.
