(* ===== verification/FirewallProps.v ===== *)
(** A validated firewall state is rendered, and the rendered chains decide as the rules say. *)

From S2P Require Import Prelude PyText Json IpAddress Networks Trace SourceGroups SourceGroupsProps Firewall Nftables FirewallText.
From S2P Require Import FirewallMeaning.
Open Scope Z_scope.

Section Chains.
Context `{PyRuntime} `{PyCase} {laws : PyCaseLaws}.

(* ------------------------------------------------------------------ *)
(** ** The statements of a chain *)

(** An automatic denial of an interface to itself, which leaves managed translations alone. *)
Definition spares_dnat (rule : FirewallRule) : bool :=
  bool_decide (routing_policy_phase rule = str "deny") &&
  bool_decide (interface_name rule = routing_destination_interface rule) &&
  has_prefix (str "routing-default-deny-ipv") (fr_name rule).

Definition guarded (m : Match) (s : Statement) : Statement := mkStatement (m :: matches s) (verdict s) (remark s).

Definition prelude_statements (groups : GroupsById) (rule : FirewallRule) : list Statement :=
  if spares_dnat rule then concat (map (fun s => [guarded CtNotDnat s; guarded CtUnmarked s]) (statements rule groups))
  else statements rule groups.

Definition in_chain (chain : pystr) (rule : FirewallRule) : bool := fr_enabled rule && bool_decide (direction rule = chain).
Definition prelude_rules (chain : pystr) (effective : list FirewallRule) : list FirewallRule :=
  sort_by_priority (List.filter in_prelude (List.filter (in_chain chain) effective)).
Definition other_rules (chain : pystr) (effective : list FirewallRule) : list FirewallRule :=
  sort_by_priority (List.filter (fun item => negb (in_prelude item)) (List.filter (in_chain chain) effective)).

Definition accept_statement (m : list Match) (comment : string) : Statement := mkStatement m (str "accept") (str comment).

Definition loopback_statements (settings : FirewallSettings) (chain : pystr) : list Statement :=
  if bool_decide (chain = str "input") && allow_loopback settings then [accept_statement [IifName (str "lo")] "Atlaso loopback"] else [].

(** What comes between the prelude and the other rules. *)
Definition middle_statements (settings : FirewallSettings) (replace_service : bool) (cidr chain : pystr) : list Statement :=
  (if allow_established settings then [accept_statement [CtEstablished] "Atlaso established traffic"] else []) ++
  (if bool_decide (chain = str "input") && negb replace_service
   then [accept_statement [SourceIn V4 [cidr]; DportIn (str "tcp") (map str ["22"; "80"; "443"]%string)] "Atlaso management access"] else []) ++
  (if allow_icmp settings
   then [accept_statement [L4Proto (str "icmp")] "Atlaso ICMP diagnostics";
         accept_statement [L4Proto (str "58")] "Atlaso IPv6 ICMP diagnostics"] else []).

Definition chain_statements (settings : FirewallSettings) (effective : list FirewallRule) (groups : GroupsById)
    (replace_service : bool) (cidr chain : pystr) : list Statement :=
  loopback_statements settings chain ++
  concat (map (prelude_statements groups) (prelude_rules chain effective)) ++
  middle_statements settings replace_service cidr chain ++
  concat (map (fun rule => statements rule groups) (other_rules chain effective)).

(** The text of a chain. *)
Definition print_chain (settings : FirewallSettings) (chain policy : pystr) (body : list Statement) : list pystr :=
  [str "  chain " ++ chain ++ str " {";
   str "    type filter hook " ++ chain ++ str " priority filter; policy " ++ policy ++ str ";"] ++
  map (fun s => str "    " ++ print_statement s) body ++
  (if log_dropped settings && bool_decide (policy = str "drop")
   then [str "    log prefix " ++ quoted (str "atlaso " ++ chain ++ str " drop: ") ++ str " flags all counter"] else []) ++
  [str "  }"].

(* ------------------------------------------------------------------ *)
(** ** The decision of the rules *)

(** Whether a rule of the prelude speaks about a packet. *)
Definition prelude_applies (groups : GroupsById) (p : Packet) (rule : FirewallRule) : bool :=
  rule_applies groups rule p &&
  (negb (spares_dnat rule) || negb (ct_dnat p) || negb (Z.land (ct_mark p) 0xff000000 =? 0xa7000000)).

Definition first_action (applies : FirewallRule -> bool) (rules : list FirewallRule) (otherwise : pystr) : pystr :=
  match List.find applies rules with Some rule => action rule | None => otherwise end.

Definition decision (settings : FirewallSettings) (effective : list FirewallRule) (groups : GroupsById)
    (replace_service : bool) (cidr chain policy : pystr) (p : Packet) : pystr :=
  if bool_decide (chain = str "input") && allow_loopback settings && bool_decide (iifname p = str "lo") then str "accept" else
  first_action (prelude_applies groups p) (prelude_rules chain effective)
    (if (allow_established settings && ct_established p) ||
        (bool_decide (chain = str "input") && negb replace_service && bool_decide (family (saddr p) = V4) && in_items [cidr] (saddr p) &&
         (l4proto p =? 6) && mem (dport p) [22; 80; 443]) ||
        (allow_icmp settings && mem (l4proto p) [1; 58])
     then str "accept"
     else first_action (fun rule => rule_applies groups rule p) (other_rules chain effective) policy).

Lemma insert_elem rule l x : x ∈ insert_by_priority rule l <-> x = rule \/ x ∈ l.
Proof. induction l as [|y l IH]; cbn; [set_solver|]. destruct (_ <=? _); rewrite ?elem_of_cons, ?IH, ?elem_of_cons; tauto. Qed.

Lemma sort_elem l x : x ∈ sort_by_priority l <-> x ∈ l.
Proof. induction l as [|y l IH]; cbn; [done|]. rewrite insert_elem, IH, elem_of_cons. tauto. Qed.

Lemma sorted_renderable groups (q : FirewallRule -> bool) l :
  Forall (renderable_rule groups) l -> Forall (renderable_rule groups) (sort_by_priority (List.filter q l)).
Proof.
  rewrite !Forall_forall. intros Hl x Hx. rewrite sort_elem in Hx. apply Hl. apply list_elem_of_In in Hx. apply filter_In in Hx as [Hx _].
  by apply list_elem_of_In.
Qed.

Lemma statements_verdict rule groups : Forall (fun s => verdict s = action rule) (statements rule groups).
Proof.
  unfold statements. cbn zeta. destruct (_ && _); [by repeat constructor|].
  apply Forall_app. split; unfold family_statement; cbn zeta; destruct (_ || _); by repeat constructor.
Qed.

Lemma decide_rules groups p l policy :
  Forall (renderable_rule groups) l -> family (saddr p) = family (daddr p) ->
  decide_chain (concat (map (fun rule => statements rule groups) l)) policy p =
    first_action (fun rule => rule_applies groups rule p) l policy.
Proof.
  intros Hl Hf. induction Hl as [|rule l Hr _ IH]; [done|]. cbn [map concat]. rewrite decide_chain_app, IH.
  rewrite (decide_chain_same _ (action rule)) by apply statements_verdict. rewrite statements_meaning by done.
  unfold first_action. cbn [List.find]. by destruct (rule_applies groups rule p).
Qed.

Lemma prelude_statements_verdict rule groups : Forall (fun s => verdict s = action rule) (prelude_statements groups rule).
Proof.
  unfold prelude_statements. pose proof (statements_verdict rule groups) as Hv. destruct (spares_dnat rule); [|done].
  induction Hv as [|s l Hs _ IH]; cbn; [done|]. by repeat constructor.
Qed.

Lemma prelude_statements_meaning rule groups p :
  renderable_rule groups rule -> family (saddr p) = family (daddr p) ->
  existsb (applies p) (prelude_statements groups rule) = prelude_applies groups p rule.
Proof.
  intros Hr Hf. unfold prelude_statements, prelude_applies. rewrite <- statements_meaning by done.
  destruct (spares_dnat rule); cbn [negb orb]; [|by rewrite andb_true_r].
  induction (statements rule groups) as [|s l IH]; [done|]. cbn [map concat app existsb]. rewrite IH.
  unfold applies, guarded. cbn [matches forallb holds].
  destruct (forallb (holds p) (matches s)), (existsb _ l), (ct_dnat p), (Z.land (ct_mark p) 0xff000000 =? 0xa7000000); done.
Qed.

Lemma decide_prelude groups p l policy :
  Forall (renderable_rule groups) l -> family (saddr p) = family (daddr p) ->
  decide_chain (concat (map (prelude_statements groups) l)) policy p = first_action (prelude_applies groups p) l policy.
Proof.
  intros Hl Hf. induction Hl as [|rule l Hr _ IH]; [done|]. cbn [map concat]. rewrite decide_chain_app, IH.
  rewrite (decide_chain_same _ (action rule)) by apply prelude_statements_verdict. rewrite prelude_statements_meaning by done.
  unfold first_action. cbn [List.find]. by destruct (prelude_applies groups p rule).
Qed.

Lemma mem_eqb (x : Z) l : mem x l = existsb (Z.eqb x) l.
Proof.
  apply eq_true_iff_eq. unfold mem. rewrite bool_decide_eq_true, existsb_exists. setoid_rewrite Z.eqb_eq.
  setoid_rewrite <- list_elem_of_In. naive_solver.
Qed.

Lemma management_ports port : in_ports (map str ["22"; "80"; "443"]%string) port = mem port [22; 80; 443].
Proof. by rewrite mem_eqb. Qed.

Lemma decide_middle settings replace_service cidr chain policy p :
  decide_chain (middle_statements settings replace_service cidr chain) policy p =
  if (allow_established settings && ct_established p) ||
     (bool_decide (chain = str "input") && negb replace_service && bool_decide (family (saddr p) = V4) && in_items [cidr] (saddr p) &&
      (l4proto p =? 6) && mem (dport p) [22; 80; 443]) ||
     (allow_icmp settings && mem (l4proto p) [1; 58])
  then str "accept" else policy.
Proof.
  rewrite (decide_chain_same _ (str "accept")).
  2: { unfold middle_statements. destruct (allow_established settings), (_ && negb replace_service), (allow_icmp settings); by repeat constructor. }
  match goal with |- (if ?a then _ else _) = (if ?b then _ else _) => enough (a = b) as -> by done end.
  unfold middle_statements. rewrite !existsb_app, <- orb_assoc. f_equal.
  { destruct (allow_established settings); cbn; [|done]. by rewrite andb_true_r, orb_false_r. }
  f_equal.
  - destruct (_ && negb replace_service); [|done]. unfold accept_statement, applies. cbn [existsb matches forallb].
    rewrite andb_true_r, orb_false_r, <- management_ports. cbn [holds]. by rewrite !andb_assoc.
  - destruct (allow_icmp settings); [|done]. rewrite mem_eqb. unfold accept_statement, applies. cbn [existsb matches forallb holds].
    change (l4_number (str "icmp")) with 1. change (l4_number (str "58")) with 58. cbn [andb]. by rewrite !andb_true_r.
Qed.

(** The chain decides as the rules say. *)
Lemma chain_decides settings effective groups replace_service cidr chain policy p :
  Forall (renderable_rule groups) (List.filter (in_chain chain) effective) -> family (saddr p) = family (daddr p) ->
  decide_chain (chain_statements settings effective groups replace_service cidr chain) policy p =
    decision settings effective groups replace_service cidr chain policy p.
Proof.
  intros Hr Hf. unfold chain_statements, decision. rewrite !decide_chain_app, decide_prelude, decide_middle, decide_rules by (done || by apply sorted_renderable).
  unfold loopback_statements. destruct (_ && allow_loopback settings); [|done].
  cbn [decide_chain accept_statement verdict]. unfold applies. cbn [matches accept_statement forallb holds].
  by destruct (bool_decide (iifname p = str "lo")).
Qed.

(* ------------------------------------------------------------------ *)
(** ** The text *)

Lemma print_guarded m s : print_statement (guarded m s) = print_match m ++ str " " ++ print_statement s.
Proof. unfold print_statement, guarded. cbn [matches verdict remark map app]. by destruct (map print_match (matches s)). Qed.

Lemma bind_mapM {A B C} (f : A -> res B) (g : B -> C) l k :
  mapM f l = Ok k -> mapM (fun x => y ← f x; Ok (g y)) l = Ok (map g k).
Proof.
  rewrite !res_mapM_Ok. intros Hk. induction Hk as [|x y l k Hx _ IH]; constructor; [by rewrite Hx|done].
Qed.

Lemma rule_lines_text groups rule :
  renderable_rule groups rule ->
  rule_lines groups rule = Ok (map (fun s => str "    " ++ print_statement s) (statements rule groups)).
Proof.
  intros Hr. unfold rule_lines. rewrite (bind_mapM _ (fun t => str "    " ++ t) _ _ (render_variants rule groups Hr)). by rewrite map_map.
Qed.

Lemma prelude_lines_text groups rule :
  renderable_rule groups rule ->
  prelude_lines groups rule = Ok (map (fun s => str "    " ++ print_statement s) (prelude_statements groups rule)).
Proof.
  intros Hr. unfold prelude_lines, prelude_statements. fold (spares_dnat rule).
  rewrite (bind_mapM _ (fun t => if spares_dnat rule
    then [str "    ct status & dnat == 0 " ++ t; str "    ct mark & 0xff000000 != 0xa7000000 " ++ t] else [str "    " ++ t])
    _ _ (render_variants rule groups Hr)).
  cbn [mbind res_bind]. f_equal. rewrite map_map. destruct (spares_dnat rule).
  - induction (statements rule groups) as [|s l IH]; [done|]. cbn [map concat app]. rewrite IH, !print_guarded. done.
  - induction (statements rule groups) as [|s l IH]; [done|]. cbn [map concat app]. by rewrite IH.
Qed.

Lemma mapM_concat {A B} (f : A -> res (list pystr)) (g : A -> list B) (h : B -> pystr) l :
  Forall (fun x => f x = Ok (map h (g x))) l -> exists k, mapM f l = Ok k /\ concat k = map h (concat (map g l)).
Proof.
  intros Hl. exists (map (fun x => map h (g x)) l). split.
  - apply res_mapM_Ok. induction Hl; by constructor.
  - clear. induction l as [|x l IH]; [done|]. cbn. by rewrite map_app, IH.
Qed.

Lemma chain_text settings effective groups replace_service cidr chain policy :
  Forall (renderable_rule groups) (List.filter (in_chain chain) effective) ->
  chain_lines settings effective groups replace_service cidr chain policy =
    Ok (print_chain settings chain policy (chain_statements settings effective groups replace_service cidr chain)).
Proof.
  intros Hr. unfold chain_lines.
  change (List.filter (fun item => fr_enabled item && bool_decide (direction item = chain)) effective) with (List.filter (in_chain chain) effective).
  fold (prelude_rules chain effective). fold (other_rules chain effective).
  destruct (mapM_concat (prelude_lines groups) (prelude_statements groups) (fun s => str "    " ++ print_statement s) (prelude_rules chain effective))
    as (prelude&->&Ep).
  { eapply Forall_impl; [by apply sorted_renderable|]. apply prelude_lines_text. }
  destruct (mapM_concat (rule_lines groups) (fun rule => statements rule groups) (fun s => str "    " ++ print_statement s) (other_rules chain effective))
    as (rest&->&Er).
  { eapply Forall_impl; [by apply sorted_renderable|]. apply rule_lines_text. }
  cbn [mbind res_bind]. rewrite Ep, Er. f_equal. unfold print_chain, chain_statements, loopback_statements, middle_statements.
  rewrite !map_app, <- !app_assoc. f_equal.
  destruct (bool_decide (chain = str "input")), (allow_loopback settings), replace_service, (allow_established settings), (allow_icmp settings);
    reflexivity.
Qed.

(** The text of a table with the three chains. *)
Definition print_table (settings : FirewallSettings) (chains : pystr -> list Statement) : pystr :=
  join_with [10]
    ([str "# Managed by Atlaso. Local changes may be overwritten."; str "# nftables firewall state for Photon OS appliance images.";
      str "flush ruleset"; str "table inet atlaso {"] ++
     print_chain settings (str "input") (default_input_policy settings) (chains (str "input")) ++
     print_chain settings (str "forward") (default_forward_policy settings) (chains (str "forward")) ++
     print_chain settings (str "output") (default_output_policy settings) (chains (str "output")) ++ [str "}"]) ++ [10].

(** The address of a rule as an operator writes it: an ASCII text that is "any", or a list
    with at least one item and without "any". *)
Definition proper_address (groups : GroupsById) (address : pystr) : Prop :=
  let value := _rule_address_value address groups in
  ascii (strip is_space address) /\ ascii value /\
  (value = ANY \/ (_split_address_values value <> [] /\ ANY ∉ _split_address_values value)).

Lemma target_index value groups :
  _source_group_reference_target value groups (_source_group_name_index groups) = _source_group_reference_target value groups [].
Proof. unfold _source_group_reference_target. by destruct (_source_group_name_index groups). Qed.

Lemma addresses_renderable groups address :
  proper_address groups address -> let value := _rule_address_value address groups in
  _split_address_values value = [ANY] \/ (ANY ∉ _split_address_values value) /\ addresses value -> renderable_address groups address.
Proof.
  intros (_&Ha&Hp) value Hv. unfold renderable_address. fold value in Ha, Hp |- *. destruct Hp as [->|[Hne Hany]]; [by left|].
  right. split; [done|]. destruct Hv as [Hv|[_ Hv]]; [rewrite Hv in Hany; exfalso; apply Hany; by left|].
  pose proof (split_values_plain value Ha) as Hpl. unfold addresses, items_ok in *. rewrite Forall_forall in *. intros i Hi. split; auto.
Qed.

Lemma validated_renderable groups label address :
  proper_address groups address -> _validate_rule_address_value label address groups (_source_group_name_index groups) = [] ->
  renderable_address groups address.
Proof.
  intros Hp Hv. pose proof Hp as (Hs&_&_). unfold _validate_rule_address_value in Hv.
  destruct (strip is_space address) as [|c t] eqn:Es.
  { left. unfold _rule_address_value. by rewrite Es. }
  apply addresses_renderable; [done|]. unfold _rule_address_value. rewrite Es. rewrite target_index in Hv.
  destruct (_source_group_reference_target (c :: t) groups []) as [|d target].
  - destruct (_looks_like_source_group_reference (c :: t)); [done|]. apply validate_address_value_nil in Hv.
    unfold addresses in *. by rewrite split_values_lower.
  - by apply validate_address_value_nil in Hv.
Qed.

Lemma validate_rules_renderable rules groups seen :
  validate_rules rules groups seen = Ok [] ->
  Forall (fun rule => proper_address (groups_by_id groups) (fr_source rule) /\ proper_address (groups_by_id groups) (destination rule)) rules ->
  Forall (renderable_rule (groups_by_id groups)) rules.
Proof.
  intros Hv Hp. revert seen Hv. induction Hp as [|rule rules [Hps Hpd] _ IH]; intros seen Hv; constructor; cbn [validate_rules] in Hv;
    apply bind_Ok in Hv as (errors&He&Hv); apply bind_Ok in Hv as (rest&Hrest&Hv); injection Hv as Hv;
    apply app_nil in Hv as [_ Hv]; apply app_nil in Hv as [-> ->]; [|by eapply IH].
  unfold validate_firewall_rule in He. apply bind_Ok in He as (ports&_&He). injection He as He.
  do 5 (apply app_nil in He as [_ He]). apply app_nil in He as [H1 He]. apply app_nil in He as [H2 _].
  split; eapply validated_renderable; done.
Qed.

Lemma chain_rules_renderable groups chain effective :
  Forall (renderable_rule groups) effective -> Forall (renderable_rule groups) (List.filter (in_chain chain) effective).
Proof.
  rewrite !Forall_forall. intros Hl x Hx. apply Hl. apply list_elem_of_In in Hx. apply filter_In in Hx as [Hx _]. by apply list_elem_of_In.
Qed.

Lemma firewall_rendered settings rules generated groups replace management_cidr settings_cidr :
  let cidr := match management_cidr with [] => settings_cidr | _ => management_cidr end in
  let by_id := groups_by_id groups in
  let effective := effective_firewall_rules rules generated replace in
  validate_firewall_state settings rules generated groups replace = Ok [] -> fs_enabled settings = true ->
  replace_service replace = true \/ is_Some (ip_network cidr) ->
  Forall (fun rule => proper_address by_id (fr_source rule) /\ proper_address by_id (destination rule)) effective ->
  let chains := chain_statements settings effective by_id (replace_service replace) cidr in
  render_nftables_config settings rules generated groups replace management_cidr settings_cidr = Ok (print_table settings chains) /\
  forall p chain policy, family (saddr p) = family (daddr p) ->
    decide_chain (chains chain) policy p = decision settings effective by_id (replace_service replace) cidr chain policy p.
Proof.
  intros cidr by_id effective Hv He Hcidr Hp chains. unfold validate_firewall_state in Hv.
  apply bind_Ok in Hv as (errors&Hrules&Hv). injection Hv as Hv. apply app_nil in Hv as [_ Hv]. apply app_nil in Hv as [_ ->].
  pose proof (validate_rules_renderable _ _ _ Hrules Hp) as Hr. fold by_id in Hr. split.
  - unfold render_nftables_config. rewrite He. cbn [negb]. fold cidr by_id effective.
    replace (negb (replace_service replace) && negb (bool_decide (is_Some (ip_network cidr)))) with false.
    2: { destruct Hcidr as [->|Hc]; [done|]. rewrite (bool_decide_eq_true_2 _ Hc). by rewrite andb_false_r. }
    cbn [raise_if mbind res_bind]. rewrite !chain_text by by apply chain_rules_renderable. done.
  - intros p chain policy Hf. apply chain_decides; [by apply chain_rules_renderable|done].
Qed.

(** C14.  A firewall state without validation errors, whose addresses are ASCII texts that
    are "any" or lists of addresses, is rendered; the text is that of a table whose three
    chains decide on every packet as the rules say: loopback first, then the denials of
    routing in the order of their priorities, then established traffic, management and
    ICMP, then the other rules in the order of their priorities, then the policy.  A rule
    with addresses of both families decides on packets of both. *)
Theorem rendered_firewall_decides settings rules generated groups replace management_cidr settings_cidr :
  let cidr := match management_cidr with [] => settings_cidr | _ => management_cidr end in
  let by_id := groups_by_id groups in
  let effective := effective_firewall_rules rules generated replace in
  validate_firewall_state settings rules generated groups replace = Ok [] -> fs_enabled settings = true ->
  replace_service replace = true \/ is_Some (ip_network cidr) ->
  Forall (fun rule => proper_address by_id (fr_source rule) /\ proper_address by_id (destination rule)) effective ->
  let chains := chain_statements settings effective by_id (replace_service replace) cidr in
  render_nftables_config settings rules generated groups replace management_cidr settings_cidr = Ok (print_table settings chains) /\
  forall p chain policy, family (saddr p) = family (daddr p) ->
    decide_chain (chains chain) policy p = decision settings effective by_id (replace_service replace) cidr chain policy p.
Proof. apply firewall_rendered. Qed.
End Chains.

(* ------------------------------------------------------------------ *)
(** ** Instances *)

Definition sample_settings : FirewallSettings :=
  mkFirewallSettings true (str "drop") (str "drop") (str "accept") true true true false.

Definition sample_rule (source ports : pystr) : FirewallRule :=
  mkFirewallRule [] [] (str "web") (str "input") (str "accept") (str "tcp") source ANY ports (str "eth1") 100 true None.

(** A request for port 443 from the network of a group, by IPv6. *)
Definition sample_packet : Packet :=
  mkPacket (str "eth1") [] (mkAddress V6 (0x20010db8 * 2 ^ 96 + 7)) (mkAddress V6 9) 6 443 false false 0.

Abbreviation sample_render := (@render_nftables_config plain_runtime ascii_case sample_settings).
Abbreviation web_rule := (sample_rule (str "group:lab") (str "80, 440-450")).

(** A decidable fact, by computation. *)
Ltac computed := apply (bool_decide_unpack _); vm_compute; exact I.

(** [rendered_firewall_decides] at a rule for a group with addresses of both families. *)
Lemma rendered_firewall_decides_witness :
  is_ok (sample_render [web_rule] [] sample_groups (mkReplace false false false) [] (str "192.0.2.0/24")) = true /\
  decide_chain (@chain_statements plain_runtime ascii_case sample_settings [web_rule] (@groups_by_id plain_runtime sample_groups) false
    (str "192.0.2.0/24") (str "input")) (str "drop") sample_packet = str "accept".
Proof.
  destruct (@rendered_firewall_decides plain_runtime ascii_case ascii_case_laws sample_settings [web_rule] [] sample_groups
    (mkReplace false false false) [] (str "192.0.2.0/24")) as [Hr Hd].
  - vm_compute. reflexivity.
  - reflexivity.
  - right. eexists. vm_compute. reflexivity.
  - constructor; [|constructor]. split; (split; [computed|split; [computed|]]).
    + right. split; [vm_compute; discriminate|computed].
    + left. vm_compute. reflexivity.
  - split.
    + cbv zeta in Hr. rewrite Hr. reflexivity.
    + cbv zeta in Hd. specialize (Hd sample_packet (str "input") (str "drop") eq_refl).
      change (effective_firewall_rules [web_rule] [] (mkReplace false false false)) with [web_rule] in Hd.
      etransitivity; [exact Hd|]. vm_compute. reflexivity.
Defined.

(** Validation accepts a Source Group that lists "any" with a separator, and a rule for
    it, but rendering that state raises a ValueError: the whole firewall cannot be applied. *)
Theorem accepted_any_list_unrendered :
  let groups := [sample_group "all" ["any,"]%string] in
  let rule := sample_rule (str "group:all") (str "443") in
  @validate_firewall_source_groups plain_runtime ascii_case groups = [] /\
  @validate_firewall_state plain_runtime ascii_case sample_settings [rule] [] groups (mkReplace false false false) = Ok [] /\
  sample_render [rule] [] groups (mkReplace false false false) [] (str "192.0.2.0/24")
    = Raise (ValueError "does not appear to be an IPv4 or IPv6 network").
Proof. vm_compute. done. Qed.

(** A port with a superscript digit, which [isdigit] accepts and [int] does not, makes the
    validation raise instead of reporting an error. *)
Example superscript_port_raises :
  @validate_firewall_rule plain_runtime ascii_case (sample_rule ANY [0xb2]) [] false = Raise (ValueError "").
Proof. vm_compute. reflexivity. Qed.

(** A list of ports that is a separator is accepted, and rendered to a match without a port,
    which nftables refuses. *)
Example separator_port_rendered :
  @validate_firewall_rule plain_runtime ascii_case (sample_rule ANY (str ",")) [] false = Ok [] /\
  @_render_rule plain_runtime ascii_case (sample_rule ANY (str ",")) [] =
    Ok (str "iifname " ++ quoted (str "eth1") ++ str " tcp dport  accept comment " ++ quoted (str "web")).
Proof. vm_compute. split; reflexivity. Qed.
