(* ===== verification/RoutingRules.v ===== *)
(** The generated forwarding rules: the networks of the interfaces are read back from their
    texts, what a generated rule speaks about, and which rules are generated for which
    interfaces and permissions. *)

From S2P Require Import Prelude Utf8 PyText Json Sha256 IpAddress Networks IpRoundtrip Trace SourceGroups SourceGroupsProps Firewall.
From S2P Require Import Nftables FirewallText FirewallMeaning FirewallProps FirewallRouting.
Open Scope Z_scope.

(* ------------------------------------------------------------------ *)
(** ** Texts of networks *)

(** A character of a network without a scope: a digit, a small letter, a dot, a slash or a
    colon. *)
Definition network_char (c : Z) : Prop := 46 <= c <= 58 \/ 97 <= c <= 102.

Lemma network_chars_plain s : Forall network_char s -> s <> [] -> plain s.
Proof.
  intros Hs Hne. split; [| | | |done].
  - eapply Forall_impl; [exact Hs|]. unfold network_char. intros c Hc. cbn. lia.
  - induction Hs as [|c s Hc Hs IH]; [done|]. cbn. f_equal.
    + unfold network_char in Hc. unfold ascii_lower. destruct ((65 <=? c) && (c <=? 90)) eqn:E; [lia|done].
    + destruct s; [done|]. by apply IH.
  - eapply Forall_impl; [exact Hs|]. unfold network_char, is_entry_separator. intros c Hc. lia.
  - apply strip_id. eapply Forall_impl; [exact Hs|]. unfold network_char. intros c Hc. apply visible_not_space. lia.
Qed.

Lemma decimal_network_chars s : decimal_text s = true -> Forall network_char s.
Proof.
  intros [_ Hs]%andb_true_iff. apply Forall_forall. intros c Hc%list_elem_of_In. rewrite forallb_forall in Hs. specialize (Hs c Hc).
  unfold is_digit in Hs. unfold network_char. lia.
Qed.

Lemma avoiding_network_chars s : (forall c, c < 46 \/ 58 < c < 97 \/ 102 < c -> c ∉ s) -> Forall network_char s.
Proof.
  intros Hs. apply Forall_forall. intros c Hc. destruct (decide (46 <= c <= 58 \/ 97 <= c <= 102)) as [|Hn]; [done|].
  exfalso. apply (Hs c); [lia|done].
Qed.

Lemma ipv4_network_chars n : 0 <= n < 2 ^ 32 -> Forall network_char (ipv4_str n).
Proof. intros Hn. apply avoiding_network_chars. intros c Hc. apply ipv4_str_avoids; [done|lia|lia]. Qed.

Lemma ipv6_network_chars n : 0 <= n < 2 ^ 128 -> Forall network_char (ipv6_str n).
Proof.
  intros Hn. unfold ipv6_str. destruct (n / 2 ^ 32 =? 0xffff).
  - rewrite !Forall_app. split_and!; [|change (str ":") with [58]; constructor; [left; lia|constructor]|apply ipv4_network_chars, Z.mod_pos_bound; lia].
    apply avoiding_network_chars. intros c Hc. apply ipv6_hex_avoids; lia.
  - apply avoiding_network_chars. intros c Hc. apply ipv6_hex_avoids; lia.
Qed.

Lemma network_str_plain n : network_wf n -> scope_id n = [] -> plain (network_str n).
Proof.
  intros (Hn&Hp&_) Hs. apply network_chars_plain.
  - unfold network_str. rewrite Hs, app_nil_r. rewrite !Forall_app. split_and!.
    + destruct (version n); [by apply ipv4_network_chars|by apply ipv6_network_chars].
    + change (str "/") with [47]. constructor; [left; lia|constructor].
    + apply decimal_network_chars. by apply (prefix_text (version n)).
  - unfold network_str. change (str "/") with [47]. by intros [_ [=]]%app_nil.
Qed.

(** A text that is read as a network, with and without host bits allowed. *)
Definition network_text (s : pystr) : Prop := plain s /\ exists n, ip_network s = Some n /\ ip_network_strict s = Some n.

Lemma network_str_text n : network_wf n -> scope_id n = [] -> network_text (network_str n).
Proof. intros Hn Hs. split; [by apply network_str_plain|]. exists n. split; [by apply ip_network_str|by apply ip_network_strict_str]. Qed.

Lemma everywhere_network f : ip_network (everywhere f) = Some (mkNetwork f 0 0 []).
Proof. destruct f; vm_compute; reflexivity. Qed.

Lemma everywhere_text f : network_text (everywhere f).
Proof.
  split; [apply network_chars_plain; [apply (Forall_impl (fun c => 46 <= c <= 58)); [by destruct f; apply (bool_decide_unpack _)|by left]|by destruct f]|].
  rewrite everywhere_network. destruct f; eexists; split; vm_compute; reflexivity.
Qed.

(** An address is in the network of all addresses of its family. *)
Lemma in_everywhere a : 0 <= value a < 2 ^ width (family a) -> in_items [everywhere (family a)] a = true.
Proof.
  intros Ha. destruct a as [f v]. cbn [family value] in Ha |- *. assert (masked f 0 v = 0) as Hm.
  { unfold masked. rewrite Z.sub_0_r, Z.shiftr_div_pow2, Z.div_small by (destruct f; cbn in *; lia). apply Z.shiftl_0_l. }
  unfold in_items. cbn [existsb]. rewrite orb_false_r. rewrite everywhere_network. unfold in_network. cbn [family value version prefixlen network_address].
  by rewrite bool_decide_eq_true_2, Hm.
Qed.

(* ------------------------------------------------------------------ *)
(** ** Versions of networks *)

Definition ver (s : pystr) : Family := match ip_network_strict s with Some n => version n | None => V4 end.

Lemma versions_ok l : Forall network_text l -> mapM version_of l = Ok (map ver l).
Proof.
  intros Hl. apply res_mapM_Ok. induction Hl as [|s l (_&n&_&Hn) _ IH]; cbn [map]; constructor; [|done].
  unfold version_of, ver. by rewrite Hn.
Qed.

Lemma networks_where_ok p l : Forall network_text l -> networks_where p l = Ok (List.filter (fun s => p (ver s)) l).
Proof.
  intros Hl. unfold networks_where. rewrite versions_ok by done. cbn [mbind res_bind]. f_equal. clear Hl.
  induction l as [|s l IH]; [done|]. cbn. destruct (p (ver s)); cbn; by rewrite IH.
Qed.

Definition common (source destination : list pystr) : list Family :=
  List.filter (fun f => mem f (map ver source) && mem f (map ver destination)) [V4; V6].

Lemma common_ok source destination :
  Forall network_text source -> Forall network_text destination -> _common_routing_networks source destination = Ok (common source destination).
Proof. intros Hs Hd. unfold _common_routing_networks. by rewrite !versions_ok. Qed.

Lemma common_elem f source destination : f ∈ common source destination <-> (f ∈ map ver source) /\ (f ∈ map ver destination).
Proof.
  unfold common. rewrite list_elem_of_In, filter_In, andb_true_iff. unfold mem. rewrite !bool_decide_eq_true.
  split; [tauto|]. intros Hf. split; [|done]. destruct f; cbn; auto.
Qed.

Lemma in_items_elem l a : in_items l a = true <-> exists s n, (s ∈ l) /\ ip_network s = Some n /\ in_network a n = true.
Proof.
  unfold in_items. rewrite existsb_exists. split.
  - intros (s&Hs&Hn). destruct (ip_network s) as [n|] eqn:E; [|done]. exists s, n. by rewrite list_elem_of_In.
  - intros (s&n&Hs&Hn&Ha). exists s. rewrite Hn. by rewrite <- list_elem_of_In.
Qed.

Lemma text_ver s n a : network_text s -> ip_network s = Some n -> in_network a n = true -> ver s = family a.
Proof.
  intros (_&m&Hm&Hs) Hn [Ha%bool_decide_eq_true _]%andb_true_iff. rewrite Hm in Hn. injection Hn as ->. unfold ver. by rewrite Hs.
Qed.

Lemma in_items_ver l a : Forall network_text l -> in_items l a = true -> family a ∈ map ver l.
Proof.
  rewrite in_items_elem, Forall_forall. intros Hl (s&n&Hs&Hn&Ha). rewrite <- (text_ver s n a) by auto. by apply list_elem_of_fmap_2.
Qed.

(** The networks of some families hold the addresses of these families. *)
Lemma in_items_families (q : Family -> bool) l a :
  Forall network_text l -> in_items (List.filter (fun s => q (ver s)) l) a = q (family a) && in_items l a.
Proof.
  intros Hl. apply Bool.eq_iff_eq_true. rewrite andb_true_iff, !in_items_elem. rewrite Forall_forall in Hl. split.
  - intros (s&n&Hs&Hn&Ha). rewrite list_elem_of_In, filter_In, <- list_elem_of_In in Hs. destruct Hs as [Hs Hq].
    rewrite (text_ver s n a) in Hq by auto. split; [done|]. by exists s, n.
  - intros (Hq&s&n&Hs&Hn&Ha). exists s, n. rewrite list_elem_of_In, filter_In, <- list_elem_of_In. by rewrite (text_ver s n a) by auto.
Qed.

Lemma in_items_common source destination a b :
  Forall network_text source -> Forall network_text destination -> family a = family b ->
  let kept := List.filter (fun s => mem (ver s) (common source destination)) in
  in_items (kept source) a && in_items (kept destination) b = in_items source a && in_items destination b.
Proof.
  intros Hs Hd Hf kept. subst kept. cbn beta. rewrite !(in_items_families (fun f => mem f (common source destination))) by done. rewrite Hf.
  destruct (mem (family b) (common source destination)) eqn:E; cbn [andb]; [done|]. symmetry. apply not_true_is_false.
  intros [Ha Hb]%andb_true_iff. apply bool_decide_eq_false in E. apply E, common_elem.
  split; [rewrite <- Hf|]; by apply in_items_ver.
Qed.

Lemma kept_nonempty source destination l :
  common source destination <> [] -> l = source \/ l = destination -> List.filter (fun s => mem (ver s) (common source destination)) l <> [].
Proof.
  intros Hc Hl En. assert (exists f, f ∈ common source destination) as (f&Hf) by (destruct (common source destination); [done|eexists; by left]).
  pose proof (proj1 (common_elem _ _ _) Hf) as Hv. assert (f ∈ map ver l) as (s&->&Hs)%list_elem_of_fmap by (destruct Hl as [-> | ->]; tauto).
  eapply not_elem_of_nil. rewrite <- En. rewrite list_elem_of_In, filter_In, <- list_elem_of_In. split; [exact Hs|]. by apply bool_decide_eq_true.
Qed.

Section Routing.
Context `{PyRuntime} `{PyCase} {laws : PyCaseLaws}.

(* ------------------------------------------------------------------ *)
(** ** The generated rules *)

(** The rule that [_routing_firewall_rule] makes of networks. *)
Definition made (name action source_interface : pystr) (source destination : list pystr) (priority : Z)
    (description destination_interface policy_phase : pystr) : FirewallRule :=
  let kept := List.filter (fun s => mem (ver s) (common source destination)) in
  mkFirewallRule destination_interface
    (if bool_decide (description = ATLASO_MANAGEMENT_ISOLATION_RULE_MARKER) then str "isolation" else policy_phase)
    name (str "forward") action (str "any") (join_with [10] (kept source)) (join_with [10] (kept destination)) []
    source_interface priority true (Some description).

Lemma routing_rule_ok name action si source destination priority description di phase :
  Forall network_text source -> Forall network_text destination ->
  _routing_firewall_rule name action si source destination priority description di phase
    = Ok (made name action si source destination priority description di phase).
Proof. intros Hs Hd. unfold _routing_firewall_rule. rewrite common_ok by done. cbn [mbind res_bind]. by rewrite !networks_where_ok. Qed.

(** The steps of a computation that returned. *)
Ltac bind_all :=
  repeat match goal with
         | H : mbind _ _ = Ok _ |- _ => apply bind_Ok in H as (?&?&?)
         | H : _routing_firewall_rule _ _ _ _ _ _ _ _ _ = Ok _ |- _ => rewrite routing_rule_ok in H by done; injection H as <-
         | H : Ok _ = Ok _ |- _ => injection H as <-
         end.

Lemma texts_items_ok l : Forall network_text l -> items_ok l.
Proof. intros Hl. eapply Forall_impl; [exact Hl|]. intros s (Hp&n&Hn&_). split; [done|by eexists]. Qed.

Lemma filter_texts (q : pystr -> bool) l : Forall network_text l -> Forall network_text (List.filter q l).
Proof. rewrite !Forall_forall. intros Hl s. rewrite list_elem_of_In, filter_In, <- list_elem_of_In. intros [Hs _]. auto. Qed.

Lemma joined_matches groups l a :
  Forall network_text l -> l <> [] -> address_matches (_rule_address_value (join_with [10] l) groups) a = in_items l a.
Proof.
  intros Hl Hne. pose proof (texts_items_ok l Hl) as Hok. rewrite rule_address_items by done. unfold address_matches.
  pose proof (split_values_join l (items_ok_plain _ Hok)) as Hsp. rewrite Hsp. rewrite bool_decide_eq_false_2; [done|].
  intros E. rewrite E in Hsp. assert (_split_address_values ANY = [ANY]) as Ha.
  { unfold _split_address_values. change (_split_source_group_entry_values ANY) with [ANY]. unfold map. by rewrite lower_any. }
  rewrite Ha in Hsp. subst l. apply Forall_cons in Hl as [(_&n&Hn&_) _]. by vm_compute in Hn.
Qed.

(** What a generated rule speaks about. *)
Lemma made_applies groups p name action si src dst priority description di phase :
  Forall network_text src -> Forall network_text dst -> common src dst <> [] ->
  family (saddr p) = family (daddr p) ->
  rule_applies groups (made name action si src dst priority description di phase) p =
  (bool_decide (di = []) || bool_decide (oifname p = di)) &&
  (bool_decide (strip is_space si = []) || bool_decide (iifname p = strip is_space si)) &&
  (in_items src (saddr p) && in_items dst (daddr p)).
Proof.
  intros Hs Hd Hc Hf. unfold rule_applies, made. cbn [fr_source destination].
  rewrite !joined_matches by first [by apply filter_texts|by eapply kept_nonempty; [done|auto]].
  rewrite <- andb_assoc, in_items_common by done. unfold interface_matches, port_matches.
  cbn [routing_destination_interface interface_name direction protocol destination_port].
  assert (normal_name (str "any") = ANY) as -> by apply lower_any.
  change (bool_decide (ANY = str "icmp")) with false. change (mem ANY (map str ["tcp"; "udp"]%string)) with false. cbn [andb].
  change (bool_decide (str "forward" = str "output")) with false. by rewrite andb_true_r.
Qed.

(* ------------------------------------------------------------------ *)
(** ** Targets *)

(** An address is in the network of one of the given interface addresses. *)
Definition cidrs_hold (cidrs : list (option pystr)) (a : Address) : Prop :=
  exists cidr n, (Some cidr ∈ cidrs) /\ ip_network cidr = Some n /\ in_network a n = true.

(** An address is on the network of the interface or VLAN [name], which is in use and has
    the role [role]. *)
Inductive connected (interfaces : list PhysicalInterface) (vlans : list VlanInterface) (name role : pystr) (a : Address) : Prop :=
| connected_interface i :
    i ∈ interfaces -> pi_oper_state i <> str "missing" -> normalize_interface_mode (pi_mode i) <> str "trunk" ->
    pi_name i = name -> normalize_interface_role (pi_role i) = role -> cidrs_hold [pi_ip_cidr i; pi_ipv6_cidr i] a ->
    connected interfaces vlans name role a
| connected_vlan v :
    v ∈ vlans -> vi_enabled v = true -> vi_name v = name -> normalize_interface_role (vi_role v) = role ->
    cidrs_hold [vi_ip_cidr v; vi_ipv6_cidr v] a -> connected interfaces vlans name role a.

(** Interface addresses have no scope. *)
Definition unscoped (cidr : option pystr) : Prop := match cidr with Some s => 37 ∉ s | None => True end.
Definition unscoped_all (interfaces : list PhysicalInterface) (vlans : list VlanInterface) : Prop :=
  Forall (fun i => unscoped (pi_ip_cidr i) /\ unscoped (pi_ipv6_cidr i)) interfaces /\
  Forall (fun v => unscoped (vi_ip_cidr v) /\ unscoped (vi_ipv6_cidr v)) vlans.

Lemma ip_network_unscoped s n : ip_network s = Some n -> 37 ∉ s -> scope_id n = [].
Proof.
  assert (forall f, network_of false f s = Some n -> 37 ∉ s -> scope_id n = []) as Hf.
  { intros f Hn Hs. unfold network_of in Hn. pose proof (split_on_chars 47 s) as Hch.
    destruct (match split_on 47 s with [a] => Some (a, None) | [a; m] => Some (a, Some m) | _ => None end) as [[a mask]|] eqn:E; [|done].
    assert (37 ∉ a) as Ha by (intros Ha; apply Hs; apply (Hch a); [|done]; destruct (split_on 47 s) as [|? [|? [|]]]; try done; injection E as <- _; by left).
    cbn [mbind option_bind] in Hn. destruct (address_of f a) as [[m scope]|] eqn:Em; [|done]. cbn [mbind option_bind] in Hn.
    assert (scope = []) as ->.
    { destruct f; cbn in Em; [destruct (ipv4_int a); [by injection Em|done]|]. unfold ipv6_scoped in Em. rewrite split_on_none in Em by done.
      destruct (ipv6_int a); [by injection Em|done]. }
    destruct (match mask with Some m => make_netmask f m | None => Some (width f) end); [|done]. cbn [mbind option_bind] in Hn.
    destruct (_ =? _); by injection Hn as <-. }
  unfold ip_network. destruct (network_of false V4 s) as [m|] eqn:E; [|apply Hf]. intros [= ->]. by apply (Hf V4).
Qed.

Lemma network_str_nonempty n : network_str n <> [].
Proof. unfold network_str. change (str "/") with [47]. by intros [_ [=]]%app_nil. Qed.

Lemma network_from_cidr_eq value : _network_from_cidr value = from_option network_str [] (value ≫= ip_network).
Proof. by destruct value as [[|c t]|]. Qed.

Lemma add_network_elem acc v s : s ∈ add_network acc v <-> (s ∈ acc) \/ exists n, (v ≫= ip_network) = Some n /\ s = network_str n.
Proof.
  unfold add_network. rewrite network_from_cidr_eq. destruct (v ≫= ip_network) as [n|]; cbn [from_option].
  - pose proof (network_str_nonempty n) as Hn. destruct (network_str n) as [|c t] eqn:E; [done|]. rewrite append_new_elem.
    split; [intros [| ->]; [by left|right; eauto]|]. intros [|(m&[= <-]&->)]; [by left|by right].
  - split; [by left|]. by intros [|(m&[=]&_)].
Qed.

Lemma networks_from_cidrs_elem values s :
  s ∈ _networks_from_cidrs values <-> exists v n, (v ∈ values) /\ (v ≫= ip_network) = Some n /\ s = network_str n.
Proof.
  unfold _networks_from_cidrs. enough (forall acc, s ∈ fold_left add_network values acc <-> (s ∈ acc) \/
    exists v n, (v ∈ values) /\ (v ≫= ip_network) = Some n /\ s = network_str n) as Hg.
  { rewrite Hg. split; [intros [Hn%not_elem_of_nil|]; done|auto]. }
  induction values as [|v values IH]; intros acc; cbn [fold_left].
  - split; [auto|]. intros [|(v&n&Hc%not_elem_of_nil&_)]; done.
  - rewrite IH, add_network_elem. split.
    + intros [[|(n&Hn)]|(w&n&Hw&Hn)]; [by left|right..]; [exists v, n; split; [by left|done]|exists w, n; split; [by right|done]].
    + intros [|(w&n&[->|Hw]%elem_of_cons&Hn)]; eauto 10.
Qed.

Lemma networks_from_cidrs_spec values : Forall unscoped values ->
  Forall network_text (_networks_from_cidrs values) /\
  forall a, in_items (_networks_from_cidrs values) a = true <-> cidrs_hold values a.
Proof.
  intros Hu. assert (forall v n, v ∈ values -> (v ≫= ip_network) = Some n -> network_wf n /\ scope_id n = []) as Hn.
  { intros v n Hv Hn. destruct v as [cidr|]; [|done]. cbn [mbind option_bind] in Hn. split; [by apply (ip_network_wf cidr)|].
    apply (ip_network_unscoped cidr); [done|]. rewrite Forall_forall in Hu. by apply (Hu (Some cidr)). }
  split.
  - apply Forall_forall. intros s (v&n&Hv&Hvn&->)%networks_from_cidrs_elem. destruct (Hn v n Hv Hvn). by apply network_str_text.
  - intros a. rewrite in_items_elem. split.
    + intros (s&m&(v&n&Hv&Hvn&->)%networks_from_cidrs_elem&Hm&Ha). destruct (Hn v n Hv Hvn). rewrite ip_network_str in Hm by done.
      injection Hm as ->. destruct v as [cidr|]; [|done]. by exists cidr, m.
    + intros (cidr&n&Hc&Hcn&Ha). destruct (Hn (Some cidr) n Hc Hcn). exists (network_str n), n. rewrite networks_from_cidrs_elem.
      split; [by exists (Some cidr), n|]. by rewrite ip_network_str.
Qed.

Lemma target_spec name role ip_cidr ipv6_cidr t : unscoped ip_cidr -> unscoped ipv6_cidr -> t ∈ target name role ip_cidr ipv6_cidr ->
  t_name t = name /\ t_role t = normalize_interface_role role /\ Forall network_text (networks t) /\ networks t <> [] /\
  forall a, in_items (networks t) a = true <-> cidrs_hold [ip_cidr; ipv6_cidr] a.
Proof.
  intros H4 H6. unfold target. pose proof (networks_from_cidrs_spec [ip_cidr; ipv6_cidr] ltac:(by repeat constructor)) as [Hf Hh].
  destruct (_networks_from_cidrs _) as [|s l] eqn:E; [by intros ?%not_elem_of_nil|]. intros ->%list_elem_of_singleton. done.
Qed.

Lemma target_exists name role ip_cidr ipv6_cidr a : unscoped ip_cidr -> unscoped ipv6_cidr -> cidrs_hold [ip_cidr; ipv6_cidr] a ->
  exists t, t ∈ target name role ip_cidr ipv6_cidr.
Proof.
  intros H4 H6 Ha. unfold target. pose proof (networks_from_cidrs_spec [ip_cidr; ipv6_cidr] ltac:(by repeat constructor)) as [_ Hh].
  destruct (_networks_from_cidrs _) as [|s l]; [|eexists; by left]. by apply Hh in Ha.
Qed.

(** A target that was made of an interface or a VLAN. *)
Record target_ok (t : Target) : Prop := { to_texts : Forall network_text (networks t); to_nonempty : networks t <> [] }.

Lemma targets_ok interfaces vlans t : unscoped_all interfaces vlans -> t ∈ routing_firewall_targets interfaces vlans -> target_ok t.
Proof.
  intros [Hi Hv]. rewrite Forall_forall in Hi. rewrite Forall_forall in Hv. unfold routing_firewall_targets. rewrite elem_of_app, !list_elem_of_In, !in_concat.
  intros [(l&Hl&Ht)|(l&Hl&Ht)]; apply in_map_iff in Hl as (x&<-&Hx); rewrite <- list_elem_of_In in Hx; rewrite <- list_elem_of_In in Ht.
  - unfold interface_target in Ht. destruct (_ || _); [by apply not_elem_of_nil in Ht|]. destruct (Hi x Hx).
    apply target_spec in Ht as (_&_&Ht&Hne&_); by try constructor.
  - unfold vlan_target in Ht. destruct (vi_enabled x); [|by apply not_elem_of_nil in Ht]. destruct (Hv x Hx).
    apply target_spec in Ht as (_&_&Ht&Hne&_); by try constructor.
Qed.

Lemma connected_target interfaces vlans name role a : unscoped_all interfaces vlans ->
  connected interfaces vlans name role a <->
  exists t, (t ∈ routing_firewall_targets interfaces vlans) /\ t_name t = name /\ t_role t = role /\ in_items (networks t) a = true.
Proof.
  intros [Hi Hv]. rewrite Forall_forall in Hi. rewrite Forall_forall in Hv. unfold routing_firewall_targets. split.
  - intros [i Hin Ho Hm Hn Hr Ha|v Hin He Hn Hr Ha].
    + destruct (Hi i Hin) as [H4 H6]. destruct (target_exists (pi_name i) (pi_role i) _ _ a H4 H6 Ha) as (t&Ht).
      pose proof (target_spec _ _ _ _ _ H4 H6 Ht) as (En&Er&_&_&Hh). exists t. rewrite <- Hn, <- Hr, <- En, <- Er. split_and!; [|done..|by apply Hh].
      rewrite elem_of_app, !list_elem_of_In, in_concat. left. exists (interface_target i). rewrite in_map_iff. split; [exists i; by rewrite <- list_elem_of_In|].
      unfold interface_target. rewrite !bool_decide_eq_false_2 by done. by rewrite <- list_elem_of_In.
    + destruct (Hv v Hin) as [H4 H6]. destruct (target_exists (vi_name v) (vi_role v) _ _ a H4 H6 Ha) as (t&Ht).
      pose proof (target_spec _ _ _ _ _ H4 H6 Ht) as (En&Er&_&_&Hh). exists t. rewrite <- Hn, <- Hr, <- En, <- Er. split_and!; [|done..|by apply Hh].
      rewrite elem_of_app, !list_elem_of_In, !in_concat. right. exists (vlan_target v). rewrite in_map_iff. split; [exists v; by rewrite <- list_elem_of_In|].
      unfold vlan_target. rewrite He. by rewrite <- list_elem_of_In.
  - intros (t&Ht&<-&<-&Ha). rewrite elem_of_app, !list_elem_of_In, !in_concat in Ht.
    destruct Ht as [(l&Hl&Ht)|(l&Hl&Ht)]; apply in_map_iff in Hl as (x&<-&Hx); rewrite <- list_elem_of_In in Hx; rewrite <- list_elem_of_In in Ht.
    + unfold interface_target in Ht. destruct (bool_decide_reflect (pi_oper_state x = str "missing")); [by apply not_elem_of_nil in Ht|].
      destruct (bool_decide_reflect (normalize_interface_mode (pi_mode x) = str "trunk")); [by apply not_elem_of_nil in Ht|].
      destruct (Hi x Hx). apply target_spec in Ht as (->&->&_&_&Hh); [|done..]. eapply connected_interface; [done..|by apply Hh].
    + unfold vlan_target in Ht. destruct (vi_enabled x) eqn:He; [|by apply not_elem_of_nil in Ht]. destruct (Hv x Hx).
      apply target_spec in Ht as (->&->&_&_&Hh); [|done..]. eapply connected_vlan; [done..|by apply Hh].
Qed.

(* ------------------------------------------------------------------ *)
(** ** Which rules are generated *)

Lemma res_concat_elem {A B} (f : A -> res (list B)) l k x :
  res_concat f l = Ok k -> x ∈ k <-> exists y ys, (y ∈ l) /\ f y = Ok ys /\ (x ∈ ys).
Proof.
  unfold res_concat. intros (ll&Hll&[= <-])%bind_Ok. apply res_mapM_Ok in Hll. induction Hll as [|y ys l ll Hy _ IH]; cbn [concat].
  - split; [by intros ?%not_elem_of_nil|]. by intros (y&ys&?%not_elem_of_nil&_).
  - rewrite elem_of_app, IH. split.
    + intros [Hx|(z&zs&Hz&Hzs)]; [exists y, ys; split; [by left|done]|exists z, zs; split; [by right|done]].
    + intros (z&zs&[->|Hz]%elem_of_cons&Hzs&Hx); [rewrite Hy in Hzs; injection Hzs as ->; by left|right; eauto].
Qed.

Lemma res_concat_has {A B} (f : A -> res (list B)) l k y :
  res_concat f l = Ok k -> y ∈ l -> exists ys, f y = Ok ys /\ forall x, x ∈ ys -> x ∈ k.
Proof.
  intros Hk Hy. pose proof Hk as Hk'. unfold res_concat in Hk'. apply bind_Ok in Hk' as (ll&Hll&_). apply res_mapM_Ok in Hll.
  apply list_elem_of_lookup in Hy as (i&Hi). destruct (Forall2_lookup_l _ _ _ _ _ Hll Hi) as (ys&_&Hf). exists ys. split; [done|].
  intros x Hx. apply (res_concat_elem _ _ _ _ Hk). exists y, ys. split; [by eapply list_elem_of_lookup_2|done].
Qed.

(** The rule that keeps [source] from reaching [destination], one of them being a management
    target. *)
Definition isolates (source destination : Target) (x : FirewallRule) : Prop :=
  exists name, x = made name (str "drop") (t_name source) (networks source) (networks destination) (-100)
    ATLASO_MANAGEMENT_ISOLATION_RULE_MARKER [] [].

Lemma common_sym source destination : common source destination = [] <-> common destination source = [].
Proof.
  assert (forall a b, common a b = [] -> common b a = []) as Hs; [|split; apply Hs].
  intros a b E. destruct (common b a) as [|f l] eqn:E'; [done|]. assert (f ∈ common b a) as Hf by (rewrite E'; by left).
  apply common_elem in Hf as [Ha Hb]. exfalso. apply (not_elem_of_nil f). rewrite <- E. by apply common_elem.
Qed.

Lemma isolation_pair_spec lab management k : target_ok lab -> target_ok management -> isolation_pair lab management = Ok k ->
  (common (networks lab) (networks management) = [] /\ k = []) \/
  (common (networks lab) (networks management) <> [] /\ exists x y, k = [x; y] /\ isolates lab management x /\ isolates management lab y).
Proof.
  intros [Hl _] [Hm _]. unfold isolation_pair. rewrite common_ok by done. cbn [mbind res_bind].
  destruct (common (networks lab) (networks management)); intros Hk; [injection Hk as <-; by left|]. right. split; [done|].
  bind_all. eexists _, _. split; [done|]. split; by eexists.
Qed.

(** The rule from one route-role target to another. *)
Definition routes (source destination : Target) (x : FirewallRule) : Prop :=
  exists name, x = made name (str "accept") (t_name source) (networks source) (networks destination) 30
    (ATLASO_ROUTING_FIREWALL_RULE_MARKER ++ str " from route-role networks.") (t_name destination) (str "automatic").

Lemma route_pair_spec source destination k : target_ok source -> target_ok destination -> route_pair source destination = Ok k ->
  ((t_name source = t_name destination \/ common (networks source) (networks destination) = []) /\ k = []) \/
  (t_name source <> t_name destination /\ common (networks source) (networks destination) <> [] /\
   exists x, k = [x] /\ routes source destination x).
Proof.
  intros [Hs _] [Hd _]. unfold route_pair. destruct (bool_decide_reflect (t_name source = t_name destination)); [intros [= <-]; left; auto|].
  rewrite common_ok by done. cbn [mbind res_bind].
  destruct (common (networks source) (networks destination)); intros Hk; [injection Hk as <-; left; auto|]. right. do 2 (split; [done|]).
  bind_all. eexists. split; [done|]. by eexists.
Qed.

(** The networks of a family, zero being both. *)
Definition family_networks (family : Z) (l : list pystr) : list pystr :=
  if family =? 0 then l else List.filter (fun s => family_number (ver s) =? family) l.

Lemma family_networks_ok family l : Forall network_text l ->
  networks_of_family family l = Ok (family_networks family l) /\ Forall network_text (family_networks family l).
Proof.
  intros Hl. unfold networks_of_family, family_networks. destruct (family =? 0); [done|].
  split; [by rewrite networks_where_ok|by apply filter_texts].
Qed.

(** The networks an explicit rule between two targets is about. *)
Definition reached_networks (family : Z) (source destination : Target) : list pystr :=
  if bool_decide (t_name source = t_name destination) then map everywhere (map ver (family_networks family (networks source)))
  else family_networks family (networks destination).

Lemma reached_texts family source destination : target_ok destination -> Forall network_text (reached_networks family source destination).
Proof.
  intros [Hd _]. unfold reached_networks. destruct (bool_decide _); [|by apply family_networks_ok].
  apply Forall_map, Forall_forall. intros f _. apply everywhere_text.
Qed.

(** The rule for an explicit permission. *)
Definition grants (rule : RoutingRule) (source destination : Target) (x : FirewallRule) : Prop :=
  exists name description, has_prefix (str "routing-default-deny-ipv") name = false /\
    description <> ATLASO_MANAGEMENT_ISOLATION_RULE_MARKER /\
    x = made name (if bool_decide (rule_policy rule = str "deny") then str "drop" else str "accept") (t_name source)
      (family_networks (rule_family rule) (networks source)) (reached_networks (rule_family rule) source destination)
      (rr_priority rule) description (t_name destination) (rule_policy rule).

Lemma explicit_description name : ATLASO_ROUTING_FIREWALL_RULE_MARKER ++ str " from explicit routing rule " ++ name ++ str "." <> ATLASO_MANAGEMENT_ISOLATION_RULE_MARKER.
Proof. intros E. apply (f_equal (take 20)) in E. vm_compute in E. discriminate E. Qed.

(** The names of explicit rules are not those of automatic denials. *)
Lemma explicit_name_digit id rest : has_prefix (str "routing-default-deny-ipv") (str "routing-" ++ dump_int id ++ rest) = false.
Proof.
  assert (exists c t, dump_int id = c :: t /\ c <> 100) as (c&t&->&Hc).
  { unfold dump_int. destruct (id <? 0); [by eexists _, _|]. pose proof (digits_nonempty 10 id) as Hn.
    pose proof (digits_range 10 id ltac:(lia)) as Hr. destruct (digits 10 id) as [|d l]; [done|]. apply Forall_cons in Hr as [Hd _].
    eexists _, _. split; [done|lia]. }
  apply bool_decide_eq_false. intros E. apply (f_equal (fun s => s !! 8%nat)) in E. vm_compute in E. by injection E.
Qed.

Lemma explicit_name_hash b rest : has_prefix (str "routing-default-deny-ipv") (str "routing-" ++ take 12 (sha256_hex b) ++ rest) = false.
Proof.
  pose proof (sha256_hex_length b) as Hl. pose proof (bytes_hex_lower (sha256 b)) as Hf. fold (sha256_hex b) in Hf.
  destruct (sha256_hex b) as [|c0 [|c1 [|c2 [|c3 [|c4 s]]]]]; try discriminate Hl.
  apply bool_decide_eq_false. intros E. apply (f_equal (fun s => s !! 12%nat)) in E. cbn in E. injection E as ->.
  rewrite !Forall_cons in Hf. destruct Hf as (_&_&_&_&Hc&_). vm_compute in Hc. discriminate Hc.
Qed.

Lemma reached_ok family source destination : Forall network_text (family_networks family (networks source)) ->
  (if bool_decide (t_name source = t_name destination)
   then versions ← mapM version_of (family_networks family (networks source)); Ok (map everywhere versions)
   else Ok (family_networks family (networks destination)))
  = Ok (reached_networks family source destination).
Proof. intros Hs. unfold reached_networks. destruct (bool_decide _); [by rewrite versions_ok|done]. Qed.

Lemma explicit_pair_spec rule source destination allowed k : target_ok source -> target_ok destination ->
  explicit_pair rule (rule_policy rule) (rule_family rule) source destination = Ok (allowed, k) ->
  let c := common (family_networks (rule_family rule) (networks source)) (reached_networks (rule_family rule) source destination) in
  ((c = [] \/ rule_policy rule = str "automatic") /\ allowed = [] /\ k = []) \/
  (c <> [] /\ rule_policy rule <> str "automatic" /\
   allowed = (if bool_decide (rule_policy rule = str "allow") then map (fun f => (t_name source, t_name destination, f)) c else []) /\
   exists x, k = [x] /\ grants rule source destination x).
Proof.
  intros Hs Hd. pose proof (reached_texts (rule_family rule) source destination Hd) as Hr. unfold explicit_pair.
  destruct (family_networks_ok (rule_family rule) (networks source) (to_texts _ Hs)) as [-> Hsf].
  destruct (family_networks_ok (rule_family rule) (networks destination) (to_texts _ Hd)) as [-> Hdf]. cbn [mbind res_bind].
  rewrite reached_ok by done.
  cbn [mbind res_bind]. rewrite common_ok by done. cbn [mbind res_bind].
  destruct (common _ _) as [|f c]; intros Hk; [injection Hk as <- <-; left; auto|].
  destruct (bool_decide_reflect (rule_policy rule = str "automatic")); [injection Hk as <- <-; left; auto|]. right.
  do 2 (split; [done|]). apply bind_Ok in Hk as (identity&Hi&Hk). rewrite routing_rule_ok in Hk by done. cbn [mbind res_bind] in Hk.
  injection Hk as <- <-. split; [done|]. eexists. split; [done|]. eexists _, _. split; [|split; [apply explicit_description|done]].
  destruct (rr_id rule) as [id|]; [injection Hi as <-; apply explicit_name_digit|].
  apply bind_Ok in Hi as (b&_&Hi). injection Hi as <-. apply explicit_name_hash.
Qed.

(** The automatic denial of one version. *)
Definition of_version (f : Family) (l : list pystr) : list pystr := List.filter (fun s => bool_decide (ver s = f)) l.
Definition denied_networks (f : Family) (source destination : Target) : list pystr :=
  if bool_decide (t_name source = t_name destination) then [everywhere f] else of_version f (networks destination).
Definition denies (f : Family) (source destination : Target) (x : FirewallRule) : Prop :=
  exists name, x = made name (str "drop") (t_name source) (of_version f (networks source)) (denied_networks f source destination) 30
    (ATLASO_ROUTING_FIREWALL_RULE_MARKER ++ str " from automatic Access isolation.") (t_name destination) (str "deny").

Lemma default_deny_spec allowed source destination f k : target_ok source -> target_ok destination ->
  default_deny allowed source destination f = Ok k ->
  ((((t_name source, t_name destination, f) ∈ allowed) \/ of_version f (networks source) = [] \/ denied_networks f source destination = []) /\ k = []) \/
  (((t_name source, t_name destination, f) ∉ allowed) /\ of_version f (networks source) <> [] /\ denied_networks f source destination <> [] /\
   exists x, k = [x] /\ denies f source destination x).
Proof.
  intros [Hs _] [Hd _]. unfold default_deny, mem. destruct (bool_decide_reflect ((t_name source, t_name destination, f) ∈ allowed)); [intros [= <-]; left; auto|].
  rewrite !networks_where_ok by done. cbn [mbind res_bind]. fold (of_version f (networks source)) (of_version f (networks destination)).
  fold (denied_networks f source destination).
  assert (Forall network_text (of_version f (networks source))) as Hsf by by apply filter_texts.
  assert (Forall network_text (denied_networks f source destination)) as Hdf.
  { unfold denied_networks. destruct (bool_decide _); [constructor; [apply everywhere_text|done]|by apply filter_texts]. }
  unfold denies. destruct (of_version f (networks source)) as [|a sn]; [intros [= <-]; left; auto|].
  destruct (denied_networks f source destination) as [|b dn]; [intros [= <-]; left; auto|].
  intros Hk. bind_all. right. split_and!; [done..|]. eexists. split; [done|]. by eexists.
Qed.

Lemma dict_of_elem {A} (l : list (pystr * A)) k v : dict_get k (dict_of l) = Some v -> (k, v) ∈ l.
Proof.
  unfold dict_of. enough (forall d, dict_get k (fold_left (fun d '(k, v) => dict_set k v d) l d) = Some v -> dict_get k d = Some v \/ (k, v) ∈ l) as Hg.
  { intros [|]%Hg; done. }
  induction l as [|[k' v'] l IH]; intros d; cbn [fold_left]; [auto|]. intros [E|]%IH; [|right; by right].
  rewrite dict_get_set in E. destruct (decide (k' = k)) as [->|]; [|by left]. injection E as ->. right. by left.
Qed.

(** The target of a name. *)
Definition by_name (targets : list Target) : list (pystr * Target) := dict_of (map (fun t => (t_name t, t)) targets).

Section Managed.
Context (interfaces : list PhysicalInterface) (vlans : list VlanInterface) (routing_rules : list RoutingRule) (routing_enabled : bool).
Context (managed : list FirewallRule).
Context (Hscope : unscoped_all interfaces vlans).
Context (Hmanaged : managed_routing_firewall_rules interfaces vlans routing_rules routing_enabled = Ok managed).

Let T := routing_firewall_targets interfaces vlans.

Definition in_force (rule : RoutingRule) (source destination : Target) : Prop :=
  (rule ∈ routing_rules) /\ rr_enabled rule = true /\ (rule_policy rule ∈ map str ["automatic"; "allow"; "deny"]%string) /\
  dict_get (rr_source_interface rule) (by_name T) = Some source /\
  dict_get (rr_destination_interface rule) (by_name T) = Some destination /\ has_permissions source = true /\ has_permissions destination = true /\
  common (family_networks (rule_family rule) (networks source)) (reached_networks (rule_family rule) source destination) <> [].

Definition allowed_pair (A B : pystr) (f : Family) : Prop :=
  exists rule source destination, in_force rule source destination /\ rule_policy rule = str "allow" /\
    t_name source = A /\ t_name destination = B /\
    f ∈ common (family_networks (rule_family rule) (networks source)) (reached_networks (rule_family rule) source destination).

(** Where a generated rule comes from. *)
Inductive origin (x : FirewallRule) : Prop :=
| origin_isolation source destination :
    source ∈ T -> destination ∈ T -> is_role "management" source <> is_role "management" destination ->
    common (networks source) (networks destination) <> [] -> isolates source destination x -> origin x
| origin_route source destination :
    routing_enabled = true -> source ∈ T -> destination ∈ T -> is_role "route" source = true -> is_role "route" destination = true ->
    t_name source <> t_name destination -> common (networks source) (networks destination) <> [] -> routes source destination x -> origin x
| origin_explicit rule source destination :
    routing_enabled = true -> in_force rule source destination -> rule_policy rule <> str "automatic" ->
    grants rule source destination x -> origin x
| origin_deny f source destination :
    routing_enabled = true -> source ∈ T -> destination ∈ T -> has_permissions source = true -> has_permissions destination = true ->
    t_name source = t_name destination \/ is_role "route" source && is_role "route" destination = false ->
    ~ allowed_pair (t_name source) (t_name destination) f ->
    of_version f (networks source) <> [] -> denied_networks f source destination <> [] -> denies f source destination x -> origin x.

Lemma T_ok t : t ∈ T -> target_ok t.
Proof. by apply targets_ok. Qed.

Lemma by_name_elem name t : dict_get name (by_name T) = Some t -> (t ∈ T) /\ t_name t = name.
Proof. intros (t'&[= -> ->]&Ht)%dict_of_elem%list_elem_of_fmap. done. Qed.

Lemma by_name_get t : NoDup (map t_name T) -> t ∈ T -> dict_get (t_name t) (by_name T) = Some t.
Proof.
  intros Hn Ht. assert ((map (fun t => (t_name t, t)) T).*1 = map t_name T) as E by (rewrite <- list_fmap_compose; done).
  unfold by_name. rewrite dict_of_NoDup by by rewrite E. apply dict_get_elem; [by rewrite E|]. apply list_elem_of_fmap. by exists t.
Qed.

Lemma explicit_rule_spec rule allowed k : rule ∈ routing_rules -> explicit_rule (by_name T) rule = Ok (allowed, k) ->
  (allowed = [] /\ k = [] /\ forall source destination, in_force rule source destination -> rule_policy rule = str "automatic") \/
  exists source destination, in_force rule source destination /\ rule_policy rule <> str "automatic" /\
    allowed = (if bool_decide (rule_policy rule = str "allow")
               then map (fun f => (t_name source, t_name destination, f))
                      (common (family_networks (rule_family rule) (networks source)) (reached_networks (rule_family rule) source destination))
               else []) /\
    exists x, k = [x] /\ grants rule source destination x.
Proof.
  intros Hr. unfold explicit_rule. destruct (rr_enabled rule) eqn:He; cbn [negb].
  2: { intros [= <- <-]. left. do 2 (split; [done|]). intros s d (_&He'&_). congruence. }
  intros (u&Hv&Hk)%bind_Ok. apply raise_if_Ok, orb_false_iff, proj1, negb_false_iff, bool_decide_eq_true in Hv. destruct (dict_get (rr_source_interface rule) (by_name T)) as [source|] eqn:Es.
  2: { injection Hk as <- <-. left. do 2 (split; [done|]). intros s d (_&_&_&Hs&_). congruence. }
  destruct (dict_get (rr_destination_interface rule) (by_name T)) as [destination|] eqn:Ed.
  2: { injection Hk as <- <-. left. do 2 (split; [done|]). intros s d (_&_&_&_&Hd&_). congruence. }
  destruct (has_permissions source && has_permissions destination) eqn:Hp.
  2: { injection Hk as <- <-. left. do 2 (split; [done|]). intros s d (_&_&_&Hs&Hd&Hs'&Hd'&_). rewrite Hs in Es. rewrite Hd in Ed. simplify_eq.
       by rewrite Hs', Hd' in Hp. }
  apply andb_true_iff in Hp as [Hps Hpd]. destruct (by_name_elem _ _ Es) as [Hs _]. destruct (by_name_elem _ _ Ed) as [Hd _].
  apply explicit_pair_spec in Hk as [([Hc|Ha]&->&->)|(Hc&Ha&Hal&Hx)]; [..|by apply T_ok|by apply T_ok].
  - left. do 2 (split; [done|]). intros s d (_&_&_&Hs'&Hd'&_&_&Hc'). rewrite Hs' in Es. rewrite Hd' in Ed. by simplify_eq.
  - left. by do 2 (split; [done|]).
  - right. exists source, destination. by split_and!.
Qed.

Let lab := List.filter (fun t => negb (is_role "management" t)) T.

(** The parts of the result. *)
Lemma managed_parts : exists isolation,
  isolation_rules lab (List.filter (is_role "management") T) = Ok isolation /\
  if routing_enabled then exists routes explicit denials,
    route_rules (List.filter (is_role "route") lab) = Ok routes /\
    mapM (explicit_rule (by_name T)) routing_rules = Ok explicit /\
    res_concat (fun source => res_concat (default_denies (concat (map fst explicit)) source) (List.filter has_permissions lab))
      (List.filter has_permissions lab) = Ok denials /\
    managed = isolation ++ routes ++ concat (map snd explicit) ++ denials
  else managed = isolation.
Proof.
  unfold managed_routing_firewall_rules in Hmanaged. fold T in Hmanaged. fold lab in Hmanaged. fold (by_name T) in Hmanaged.
  apply bind_Ok in Hmanaged as (isolation&Hi&Hk). exists isolation. split; [done|]. destruct routing_enabled; cbn [negb] in Hk; [|by injection Hk].
  apply bind_Ok in Hk as (rs&Hr&Hk). apply bind_Ok in Hk as (ex&He&Hk). apply bind_Ok in Hk as (ds&Hd&Hk). injection Hk as <-.
  by exists rs, ex, ds.
Qed.

Lemma allowed_elem explicit A B f : mapM (explicit_rule (by_name T)) routing_rules = Ok explicit ->
  (A, B, f) ∈ concat (map fst explicit) <-> allowed_pair A B f.
Proof.
  intros He%res_mapM_Ok. rewrite list_elem_of_In, in_concat. split.
  - intros (l&Hl&Hp). apply in_map_iff in Hl as ([allowed k]&<-&Hl). rewrite <- list_elem_of_In in Hl. cbn [fst] in Hp.
    apply list_elem_of_lookup in Hl as (i&Hi). destruct (Forall2_lookup_r _ _ _ _ _ He Hi) as (rule&Hrule&Hr).
    apply list_elem_of_lookup_2 in Hrule. apply explicit_rule_spec in Hr as [(->&_)|(s&d&Hf&_&->&_)]; [done| |done].
    destruct (bool_decide_reflect (rule_policy rule = str "allow")); [|done]. apply in_map_iff in Hp as (g&[= <- <- <-]&Hg).
    exists rule, s, d. rewrite list_elem_of_In. by split_and!.
  - intros (rule&s&d&Hf&Ha&<-&<-&Hc). assert (rule ∈ routing_rules) as Hin by apply Hf.
    apply list_elem_of_lookup in Hin as (i&Hi). destruct (Forall2_lookup_l _ _ _ _ _ He Hi) as ([allowed k]&Hk&Hr).
    exists allowed. split; [apply in_map_iff; exists (allowed, k); split; [done|]; rewrite <- list_elem_of_In; by eapply list_elem_of_lookup_2|].
    apply list_elem_of_lookup_2 in Hi. apply explicit_rule_spec in Hr as [(_&_&Hauto)|(s'&d'&Hf'&_&->&_)]; [| |done].
    + apply Hauto in Hf. rewrite Ha in Hf. discriminate Hf.
    + rewrite bool_decide_eq_true_2 by done. apply in_map_iff. exists f. destruct Hf as (_&_&_&E1&E2&_), Hf' as (_&_&_&E1'&E2'&_).
      rewrite E1 in E1'. rewrite E2 in E2'. simplify_eq. by rewrite <- list_elem_of_In.
Qed.

Lemma managed_origin x : x ∈ managed -> origin x.
Proof.
  destruct managed_parts as (isolation&Hi&Hm). intros Hx.
  assert (x ∈ isolation -> origin x) as Hiso.
  { rewrite (res_concat_elem _ _ _ _ Hi). intros (l&ks&Hl&Hks&Hxk). apply filter_elem in Hl as [Hl Hl'].
    apply (res_concat_elem _ _ _ _ Hks) in Hxk as (m&k&Hmm&Hk&Hxk). apply filter_elem in Hmm as [Hmt Hm'].
    apply isolation_pair_spec in Hk as [(_&->)|(Hc&y&z&->&Hy&Hz)]; [by apply not_elem_of_nil in Hxk| |by apply T_ok..].
    rewrite !elem_of_cons in Hxk. destruct (is_role "management" l) eqn:El; [done|].
    destruct Hxk as [->|[->|Hn]]; [..|by apply not_elem_of_nil in Hn].
    - eapply (origin_isolation _ l m); try done. congruence.
    - eapply (origin_isolation _ m l); try done; [congruence|]. by rewrite common_sym. }
  destruct routing_enabled eqn:Een; [|subst; auto]. destruct Hm as (rs&ex&ds&Hr&He&Hd&->).
  rewrite !elem_of_app in Hx. destruct Hx as [|[Hx|[Hx|Hx]]]; [by apply Hiso|..].
  - apply (res_concat_elem _ _ _ _ Hr) in Hx as (a&ks&Ha&Hks&Hxk). apply (res_concat_elem _ _ _ _ Hks) in Hxk as (b&k&Hb&Hk&Hxk).
    apply filter_elem in Ha as [[Ha _]%filter_elem Hra]. apply filter_elem in Hb as [[Hb _]%filter_elem Hrb].
    apply route_pair_spec in Hk as [(_&->)|(Hn&Hc&y&->&Hy)]; [by apply not_elem_of_nil in Hxk| |by apply T_ok..].
    apply list_elem_of_singleton in Hxk as ->. by apply (origin_route _ a b).
  - rewrite list_elem_of_In, in_concat in Hx. destruct Hx as (l&Hl&Hp). apply in_map_iff in Hl as ([allowed k]&<-&Hl). rewrite <- list_elem_of_In in Hl.
    apply res_mapM_Ok in He. apply list_elem_of_lookup in Hl as (i&Hl). destruct (Forall2_lookup_r _ _ _ _ _ He Hl) as (rule&Hrule&Hrr).
    apply list_elem_of_lookup_2 in Hrule. apply explicit_rule_spec in Hrr as [(_&->&_)|(s'&d'&Hf&Ha&_&y&->&Hy)]; [done| |done].
    rewrite <- list_elem_of_In in Hp. apply list_elem_of_singleton in Hp as ->. by apply (origin_explicit _ rule s' d').
  - apply (res_concat_elem _ _ _ _ Hd) in Hx as (a&ks&Ha&Hks&Hxk). apply (res_concat_elem _ _ _ _ Hks) in Hxk as (b&k&Hb&Hk&Hxk).
    apply filter_elem in Ha as [[Ha _]%filter_elem Hra]. apply filter_elem in Hb as [[Hb _]%filter_elem Hrb].
    unfold default_denies in Hk. destruct (_ && _) eqn:Hboth; [injection Hk as <-; by apply not_elem_of_nil in Hxk|].
    apply (res_concat_elem _ _ _ _ Hk) in Hxk as (f&k'&_&Hf&Hxk).
    apply default_deny_spec in Hf as [(_&->)|(Hna&Hsn&Hdn&y&->&Hy)]; [by apply not_elem_of_nil in Hxk| |by apply T_ok..].
    apply list_elem_of_singleton in Hxk as ->. apply (origin_deny _ f a b); try done; [|by rewrite <- (allowed_elem ex)].
    destruct (bool_decide_reflect (t_name a = t_name b)); [by left|by right].
Qed.

Lemma isolation_generated source destination :
  source ∈ T -> destination ∈ T -> is_role "management" source <> is_role "management" destination ->
  common (networks source) (networks destination) <> [] -> exists x, (x ∈ managed) /\ isolates source destination x.
Proof.
  intros Hs Hd Hr Hc. destruct managed_parts as (isolation&Hi&Hm).
  assert (forall x, x ∈ isolation -> x ∈ managed) as Hsub.
  { intros x Hx. destruct routing_enabled; [destruct Hm as (rs&ex&ds&_&_&_&->); rewrite elem_of_app; by left|by subst]. }
  assert (forall l m, l ∈ T -> m ∈ T -> is_role "management" l = false -> is_role "management" m = true -> common (networks l) (networks m) <> [] ->
    exists x y, (x ∈ isolation) /\ (y ∈ isolation) /\ isolates l m x /\ isolates m l y) as Hp.
  { intros l m Hl Hmt El Em Hlm. destruct (res_concat_has _ _ _ l Hi) as (ks&Hks&Hin); [apply filter_elem; by rewrite El|].
    destruct (res_concat_has _ _ _ m Hks) as (k&Hk&Hink); [by apply filter_elem|].
    apply isolation_pair_spec in Hk as [(E&_)|(_&x&y&->&Hx&Hy)]; [done| |by apply T_ok..].
    exists x, y. split_and!; [apply Hin, Hink; by left|apply Hin, Hink; by right; left|done..]. }
  destruct (is_role "management" source) eqn:Es, (is_role "management" destination) eqn:Ed; try done.
  - destruct (Hp destination source Hd Hs Ed Es) as (x&y&_&Hy&_&Hi'); [by rewrite common_sym|]. eauto.
  - destruct (Hp source destination Hs Hd Es Ed Hc) as (x&y&Hx&_&Hi'&_). eauto.
Qed.

Lemma permission_lab t : has_permissions t = true -> is_role "management" t = false.
Proof. unfold has_permissions, is_role. intros [->%bool_decide_eq_true| ->%bool_decide_eq_true]%orb_true_iff; reflexivity. Qed.

Lemma route_permission t : is_role "route" t = true -> has_permissions t = true.
Proof. unfold has_permissions. by intros ->. Qed.

Lemma permission_elem t : t ∈ T -> has_permissions t = true -> t ∈ List.filter has_permissions lab.
Proof. intros Ht Hp. apply filter_elem. split; [|done]. apply filter_elem. split; [done|]. by rewrite permission_lab. Qed.

Lemma route_generated source destination : routing_enabled = true ->
  source ∈ T -> destination ∈ T -> is_role "route" source = true -> is_role "route" destination = true ->
  t_name source <> t_name destination -> common (networks source) (networks destination) <> [] ->
  exists x, (x ∈ managed) /\ routes source destination x.
Proof.
  intros Hen Hs Hd Hrs Hrd Hn Hc. destruct managed_parts as (isolation&_&Hm). rewrite Hen in Hm. destruct Hm as (rs&ex&ds&Hr&_&_&->).
  assert (forall t, t ∈ T -> is_role "route" t = true -> t ∈ List.filter (is_role "route") lab) as Hl.
  { intros t Ht Hrt. apply filter_elem. split; [|done]. apply filter_elem. split; [done|]. by rewrite permission_lab by by apply route_permission. }
  destruct (res_concat_has _ _ _ source Hr (Hl _ Hs Hrs)) as (ks&Hks&Hin). destruct (res_concat_has _ _ _ destination Hks (Hl _ Hd Hrd)) as (k&Hk&Hink).
  apply route_pair_spec in Hk as [([?|?]&_)|(_&_&x&->&Hx)]; [done|done| |by apply T_ok|by apply T_ok].
  exists x. split; [|done]. rewrite !elem_of_app. right. left. apply Hin, Hink. by left.
Qed.

Lemma grant_generated rule source destination : routing_enabled = true -> in_force rule source destination ->
  rule_policy rule <> str "automatic" -> exists x, (x ∈ managed) /\ grants rule source destination x.
Proof.
  intros Hen Hf Hp. destruct managed_parts as (isolation&_&Hm). rewrite Hen in Hm. destruct Hm as (rs&ex&ds&_&He&_&->).
  assert (rule ∈ routing_rules) as Hin by apply Hf. pose proof He as Hall. apply res_mapM_Ok in Hall. apply list_elem_of_lookup in Hin as (i&Hi).
  destruct (Forall2_lookup_l _ _ _ _ _ Hall Hi) as ([allowed k]&Hk&Hr). apply list_elem_of_lookup_2 in Hi.
  apply explicit_rule_spec in Hr as [(_&_&Hauto)|(s'&d'&Hf'&_&_&x&->&Hx)]; [by apply Hauto in Hf| |done].
  destruct Hf as (_&_&_&E1&E2&_), Hf' as (_&_&_&E1'&E2'&_). rewrite E1 in E1'. rewrite E2 in E2'. simplify_eq.
  exists x. split; [|done]. rewrite !elem_of_app. right. right. left. rewrite list_elem_of_In, in_concat. exists [x]. split; [|by left].
  apply in_map_iff. exists (allowed, [x]). split; [done|]. rewrite <- list_elem_of_In. by eapply list_elem_of_lookup_2.
Qed.

Lemma deny_generated f source destination : routing_enabled = true ->
  source ∈ T -> destination ∈ T -> has_permissions source = true -> has_permissions destination = true ->
  t_name source = t_name destination \/ is_role "route" source && is_role "route" destination = false ->
  ~ allowed_pair (t_name source) (t_name destination) f ->
  of_version f (networks source) <> [] -> denied_networks f source destination <> [] ->
  exists x, (x ∈ managed) /\ denies f source destination x.
Proof.
  intros Hen Hs Hd Hps Hpd Hr Hna Hsn Hdn. destruct managed_parts as (isolation&_&Hm). rewrite Hen in Hm. destruct Hm as (rs&ex&ds&_&He&Hds&->).
  destruct (res_concat_has _ _ _ source Hds (permission_elem _ Hs Hps)) as (ks&Hks&Hin).
  destruct (res_concat_has _ _ _ destination Hks (permission_elem _ Hd Hpd)) as (k&Hk&Hink). unfold default_denies in Hk.
  replace (negb (bool_decide (t_name source = t_name destination)) && (is_role "route" source && is_role "route" destination)) with false in Hk.
  2: { destruct Hr as [E|E]; [by rewrite (bool_decide_eq_true_2 _ E)|by rewrite E, andb_false_r]. }
  destruct (res_concat_has _ _ _ f Hk) as (k'&Hk'&Hinf); [destruct f; set_solver|].
  apply default_deny_spec in Hk' as [([Ha|[?|?]]&_)|(_&_&_&x&->&Hx)]; [|done|done| |by apply T_ok|by apply T_ok].
  - exfalso. apply Hna. by apply (allowed_elem ex).
  - exists x. split; [|done]. rewrite !elem_of_app. do 3 right. apply Hin, Hink, Hinf. by left.
Qed.
End Managed.

(* ------------------------------------------------------------------ *)
(** ** Generating never fails but on invalid permissions *)

(** A computation that returns. *)
Definition returns {A} (r : res A) : Prop := exists x, r = Ok x.

Lemma returns_mapM {A B} (f : A -> res B) l : (forall x, x ∈ l -> returns (f x)) -> returns (mapM f l).
Proof.
  intros Hf. destruct (mapM f l) as [k|e] eqn:E; [by exists k|]. apply res_mapM_Raise in E as (x&Hx&Hr). destruct (Hf x Hx) as (y&Hy).
  congruence.
Qed.

Lemma returns_concat {A B} (f : A -> res (list B)) l : (forall x, x ∈ l -> returns (f x)) -> returns (res_concat f l).
Proof. intros Hf. unfold res_concat. destruct (returns_mapM f l Hf) as (k&->). by eexists. Qed.

Definition scalar_text (s : pystr) : Prop := Forall (fun c => is_scalar c = true) s.

Lemma ascii_scalar_text s : Forall (fun c => 0 <= c < 128) s -> scalar_text s.
Proof. intros Hs. eapply Forall_impl; [exact Hs|]. unfold is_scalar. intros c Hc. cbn. lia. Qed.

Lemma plain_text_scalar s : scalar_text s -> scalar_text ([34] ++ concat (map escape_plain s) ++ [34]).
Proof.
  intros Hs. apply Forall_app. split; [by repeat constructor|]. apply Forall_app. split; [|by repeat constructor].
  induction Hs as [|c s Hc _ IH]; cbn [map concat]; [constructor|]. apply Forall_app. split; [|done].
  unfold escape_plain. destruct (_ && _); [by repeat constructor|]. apply ascii_scalar_text, escape_char_ascii.
Qed.

Lemma generated_name_returns prefix source destination family : scalar_text source -> scalar_text destination ->
  returns (_routing_generated_name prefix source destination family).
Proof.
  intros Hs Hd. unfold _routing_generated_name. assert (scalar_text (identity_text source destination family)) as Hi.
  { unfold identity_text. apply plain_text_scalar in Hs, Hd. pose proof (ascii_scalar_text _ (dump_int_ascii family)).
    unfold scalar_text in *. cbv zeta. rewrite !Forall_app in Hs, Hd. rewrite !Forall_app. split_and!; try apply Hs; try apply Hd; try done; try (apply (bool_decide_unpack _); vm_compute; exact I). }
  apply utf8_encode_ok in Hi as (b&->). by eexists.
Qed.

Section Total.
Context (interfaces : list PhysicalInterface) (vlans : list VlanInterface) (routing_rules : list RoutingRule).
Context (Hscope : unscoped_all interfaces vlans).
Context (Hnames : Forall scalar_text (map pi_name interfaces ++ map vi_name vlans)) (Hrules : Forall (fun rule => scalar_text (rr_name rule)) routing_rules).

Let T := routing_firewall_targets interfaces vlans.

Lemma names_sublist {A} (f : A -> list Target) (name : A -> pystr) l :
  (forall x, map t_name (f x) = [] \/ map t_name (f x) = [name x]) -> sublist (map t_name (concat (map f l))) (map name l).
Proof.
  intros Hf. induction l as [|x l IH]; cbn [map concat]; [done|]. rewrite map_app.
  destruct (Hf x) as [-> | ->]; cbn [app]; by constructor.
Qed.

Lemma target_names : sublist (map t_name T) (map pi_name interfaces ++ map vi_name vlans).
Proof.
  unfold T, routing_firewall_targets. rewrite map_app. apply sublist_app; apply names_sublist.
  - intros i. unfold interface_target. destruct (_ || _); [by left|]. unfold target. destruct (_networks_from_cidrs _); [by left|by right].
  - intros v. unfold vlan_target. destruct (vi_enabled v); [|by left]. unfold target. destruct (_networks_from_cidrs _); [by left|by right].
Qed.

(** A target that makes no rule fail. *)
Definition sound_target (t : Target) : Prop := Forall network_text (networks t) /\ scalar_text (t_name t).

Lemma targets_sound t : t ∈ T -> sound_target t.
Proof.
  intros Ht. split; [by apply to_texts, (targets_ok interfaces vlans)|]. rewrite Forall_forall in Hnames. apply Hnames.
  eapply elem_of_sublist; [by apply list_elem_of_fmap_2|apply target_names].
Qed.

Lemma isolation_returns lab management : sound_target lab -> sound_target management -> returns (isolation_pair lab management).
Proof.
  intros [Hl Hln] [Hm Hmn]. unfold isolation_pair. rewrite common_ok by done. cbn [mbind res_bind]. destruct (common _ _); [by eexists|].
  destruct (generated_name_returns (str "isolate") _ _ 0 Hln Hmn) as (n1&->). cbn [mbind res_bind]. rewrite routing_rule_ok by done. cbn [mbind res_bind].
  destruct (generated_name_returns (str "isolate") _ _ 0 Hmn Hln) as (n2&->). cbn [mbind res_bind]. rewrite routing_rule_ok by done. by eexists.
Qed.

Lemma route_returns source destination : sound_target source -> sound_target destination -> returns (route_pair source destination).
Proof.
  intros [Hl Hln] [Hm Hmn]. unfold route_pair. destruct (bool_decide _); [by eexists|]. rewrite common_ok by done. cbn [mbind res_bind].
  destruct (common _ _); [by eexists|]. destruct (generated_name_returns (str "route") _ _ 0 Hln Hmn) as (n1&->). cbn [mbind res_bind].
  rewrite routing_rule_ok by done. by eexists.
Qed.

Lemma deny_returns allowed source destination f : sound_target source -> sound_target destination -> returns (default_deny allowed source destination f).
Proof.
  intros [Hl Hln] [Hm Hmn]. unfold default_deny. destruct (mem _ _); [by eexists|]. rewrite !networks_where_ok by done. cbn [mbind res_bind].
  fold (of_version f (networks source)) (of_version f (networks destination)). fold (denied_networks f source destination).
  assert (Forall network_text (of_version f (networks source))) as Hsf by by apply filter_texts.
  assert (Forall network_text (denied_networks f source destination)) as Hdf.
  { unfold denied_networks. destruct (bool_decide _); [constructor; [apply everywhere_text|done]|by apply filter_texts]. }
  destruct (of_version f (networks source)); [by eexists|]. destruct (denied_networks f source destination); [by eexists|].
  unfold _routing_default_deny_name. edestruct generated_name_returns as (n&->); [exact Hln|exact Hmn|]. cbn [mbind res_bind].
  rewrite routing_rule_ok by done. by eexists.
Qed.

Lemma denies_return allowed source destination : sound_target source -> sound_target destination -> returns (default_denies allowed source destination).
Proof. intros Hs Hd. unfold default_denies. destruct (_ && _); [by eexists|]. apply returns_concat. intros f _. by apply deny_returns. Qed.

Lemma explicit_returns rule source destination : rule ∈ routing_rules -> sound_target source -> sound_target destination ->
  returns (explicit_pair rule (rule_policy rule) (rule_family rule) source destination).
Proof.
  intros Hr [Hs _] [Hd Hdn]. assert (Forall network_text (reached_networks (rule_family rule) source destination)) as Hrt.
  { unfold reached_networks. destruct (bool_decide _); [|by apply family_networks_ok]. apply Forall_map, Forall_forall. intros f _. apply everywhere_text. }
  unfold explicit_pair.
  destruct (family_networks_ok (rule_family rule) (networks source) Hs) as [-> Hsf].
  destruct (family_networks_ok (rule_family rule) (networks destination) Hd) as [-> Hdf]. cbn [mbind res_bind].
  rewrite reached_ok by done. cbn [mbind res_bind]. rewrite common_ok by done. cbn [mbind res_bind].
  destruct (common _ _); [by eexists|]. destruct (bool_decide _); [by eexists|].
  assert (returns (match rr_id rule with Some id => Ok (dump_int id) | None => encoded ← utf8_encode (rr_name rule); Ok (take 12 (sha256_hex encoded)) end)) as (i&->).
  { destruct (rr_id rule); [by eexists|]. rewrite Forall_forall in Hrules. pose proof (Hrules rule Hr) as Hn. apply utf8_encode_ok in Hn as (b&->). by eexists. }
  cbn [mbind res_bind]. rewrite routing_rule_ok by done. by eexists.
Qed.

(** An enabled rule with an unknown policy or family. *)
Definition invalid_permission (rule : RoutingRule) : bool :=
  rr_enabled rule && (negb (mem (rule_policy rule) (map str ["automatic"; "allow"; "deny"]%string)) || negb (mem (rule_family rule) [0; 4; 6])).

Definition invalid_error : exn := ValueError "Invalid routing permission policy or family.".

Lemma explicit_rule_returns rule : rule ∈ routing_rules ->
  if invalid_permission rule then explicit_rule (by_name T) rule = Raise invalid_error else returns (explicit_rule (by_name T) rule).
Proof.
  intros Hr. unfold invalid_permission, explicit_rule. destruct (rr_enabled rule); [|by eexists]. cbn [negb andb].
  destruct (_ || _); [done|]. cbn [raise_if mbind res_bind].
  destruct (dict_get (rr_source_interface rule) (by_name T)) as [s|] eqn:Es; [|by eexists].
  destruct (dict_get (rr_destination_interface rule) (by_name T)) as [d|] eqn:Ed; [|by eexists].
  destruct (_ && _); [|by eexists]. apply by_name_elem in Es as [Es _], Ed as [Ed _].
  apply explicit_returns; [done|by apply targets_sound..].
Qed.

Lemma explicit_rules_return l : (forall rule, rule ∈ l -> rule ∈ routing_rules) ->
  if existsb invalid_permission l then mapM (explicit_rule (by_name T)) l = Raise invalid_error else returns (mapM (explicit_rule (by_name T)) l).
Proof.
  induction l as [|rule l IH]; intros Hl; [by eexists|]. cbn [existsb]. pose proof (explicit_rule_returns rule (Hl _ ltac:(by left))) as Hr.
  specialize (IH ltac:(intros r Hin; apply Hl; by right)).
  change (mapM (explicit_rule (by_name T)) (rule :: l)) with (y ← explicit_rule (by_name T) rule; k ← mapM (explicit_rule (by_name T)) l; mret (y :: k)).
  destruct (invalid_permission rule); cbn [orb]; [by rewrite Hr|]. destruct Hr as (y&->). cbn [mbind res_bind].
  destruct (existsb invalid_permission l); [by rewrite IH|]. destruct IH as (k&->). by eexists.
Qed.

Lemma filtered_sound (q : Target -> bool) (q' : Target -> bool) t : t ∈ List.filter q (List.filter q' T) -> sound_target t.
Proof. intros [[Ht _]%filter_elem _]%filter_elem. by apply targets_sound. Qed.

Lemma managed_returns routing_enabled :
  if routing_enabled && existsb invalid_permission routing_rules
  then managed_routing_firewall_rules interfaces vlans routing_rules routing_enabled = Raise invalid_error
  else returns (managed_routing_firewall_rules interfaces vlans routing_rules routing_enabled).
Proof.
  unfold managed_routing_firewall_rules. fold T. fold (by_name T).
  edestruct (returns_concat (fun lab => res_concat (isolation_pair lab) (List.filter (is_role "management") T))
    (List.filter (fun t => negb (is_role "management" t)) T)) as (isolation&Hi).
  { intros l [Hl _]%filter_elem. apply returns_concat. intros m [Hm _]%filter_elem. apply isolation_returns; by apply targets_sound. }
  unfold isolation_rules. rewrite Hi. cbn [mbind res_bind]. destruct routing_enabled; cbn [negb andb]; [|by eexists]. unfold route_rules.
  edestruct (returns_concat (fun source => res_concat (route_pair source) (List.filter (is_role "route") (List.filter (fun t => negb (is_role "management" t)) T))))
    as (rs&->).
  { intros a Ha. apply returns_concat. intros b Hb. apply route_returns; by eapply filtered_sound. }
  cbn [mbind res_bind]. pose proof (explicit_rules_return routing_rules (fun _ Hr => Hr)) as He.
  destruct (existsb invalid_permission routing_rules); [by rewrite He|]. destruct He as (ex&->). cbn [mbind res_bind].
  edestruct (returns_concat (fun source => res_concat (default_denies (concat (map fst ex)) source)
    (List.filter has_permissions (List.filter (fun t => negb (is_role "management" t)) T)))) as (ds&->); [|by eexists].
  intros a Ha. apply returns_concat. intros b Hb. apply denies_return; by eapply filtered_sound.
Qed.
End Total.
End Routing.
