(* ===== verification/FirewallRoutingProps.v ===== *)
(** Forwarding in the rendered firewall: management networks cannot be reached from the lab
    or reach it, and lab networks reach each other exactly as far as the routing permissions
    and the roles of the interfaces say. *)

From S2P Require Import Prelude Utf8 PyText Json Sha256 IpAddress Networks IpRoundtrip Trace SourceGroups SourceGroupsProps Firewall.
From S2P Require Import Nftables FirewallText FirewallMeaning FirewallProps FirewallRouting RoutingRules.
Open Scope Z_scope.

Section Forwarding.
Context `{PyRuntime} `{PyCase} {laws : PyCaseLaws}.

(* ------------------------------------------------------------------ *)
(** ** Generated rules in the chain *)

Lemma effective_sub rules generated replace x : x ∈ effective_firewall_rules rules generated replace -> (x ∈ rules) \/ (x ∈ generated).
Proof.
  unfold effective_firewall_rules. destruct (_ && _); [by left|]. rewrite elem_of_app, filter_elem. tauto.
Qed.

Lemma effective_generated rules generated replace x : x ∈ generated -> x ∈ effective_firewall_rules rules generated replace.
Proof. intros Hx. unfold effective_firewall_rules. destruct generated as [|y l]; [by apply not_elem_of_nil in Hx|]. rewrite bool_decide_eq_false_2 by done. cbn [andb]. rewrite elem_of_app. by right. Qed.

Lemma made_in_prelude name action si src dst priority description di phase :
  in_prelude (made name action si src dst priority description di phase) =
  bool_decide (description = ATLASO_MANAGEMENT_ISOLATION_RULE_MARKER) || mem phase (map str ["deny"; "isolation"]%string).
Proof. unfold in_prelude, made. cbn [routing_policy_phase]. by destruct (bool_decide (description = ATLASO_MANAGEMENT_ISOLATION_RULE_MARKER)). Qed.

(** The addresses of generated rules are proper. *)
Lemma texts_proper groups l : Forall network_text l -> l <> [] -> proper_address groups (join_with [10] l).
Proof.
  intros Hl Hne. pose proof (texts_items_ok l Hl) as Hok. pose proof (items_ok_plain _ Hok) as Hp. unfold proper_address.
  rewrite rule_address_items by done. rewrite split_values_join by done.
  assert (ascii (join_with [10] l)) as Ha by (apply join_Forall; [by repeat constructor|]; eapply Forall_impl; [exact Hp|]; by intros i []).
  split_and!; [by apply strip_Forall|done|]. right. split; [done|]. intros Hany. rewrite Forall_forall in Hl. apply Hl in Hany as (_&n&Hn&_).
  by vm_compute in Hn.
Qed.

Lemma made_proper groups name action si src dst priority description di phase :
  Forall network_text src -> Forall network_text dst -> common src dst <> [] ->
  let x := made name action si src dst priority description di phase in
  proper_address groups (fr_source x) /\ proper_address groups (destination x).
Proof.
  intros Hs Hd Hc x. split; apply texts_proper; by first [apply filter_texts|eapply kept_nonempty; auto].
Qed.

Section State.
Context (interfaces : list PhysicalInterface) (vlans : list VlanInterface) (routing_rules : list RoutingRule) (routing_enabled : bool).
Context (managed : list FirewallRule).
Context (Hscope : unscoped_all interfaces vlans).
Context (Hmanaged : managed_routing_firewall_rules interfaces vlans routing_rules routing_enabled = Ok managed).

Let T := routing_firewall_targets interfaces vlans.
Abbreviation origin := (origin interfaces vlans routing_rules routing_enabled).
Abbreviation in_force := (in_force interfaces vlans routing_rules).

(** Rules of the prelude drop, and the others accept. *)
Lemma origin_action x : origin x ->
  fr_enabled x = true /\ direction x = str "forward" /\ action x = (if in_prelude x then str "drop" else str "accept").
Proof.
  intros [s d _ _ _ _ (name&->)|s d _ _ _ _ _ _ _ (name&->)|rule s d _ Hf Ha (name&description&_&Hdesc&->)|f s d _ _ _ _ _ _ _ _ _ (name&->)];
    split; try done; split; try done.
  rewrite made_in_prelude, (bool_decide_eq_false_2 _ Hdesc). cbn [orb]. destruct Hf as (_&_&Hp&_).
  cbn [map] in Hp. rewrite !elem_of_cons in Hp. destruct Hp as [E|[E|[E|E]]]; [..|by apply not_elem_of_nil in E]; unfold made; cbn [action]; rewrite E; reflexivity.
Qed.

Context (settings : FirewallSettings) (rules others : list FirewallRule) (groups : GroupsById) (replace : Replace) (cidr : pystr).
Let effective := effective_firewall_rules rules (others ++ managed) replace.
Context (Htransient : Forall (fun rule => routing_policy_phase rule = []) (rules ++ others)).

Lemma effective_prelude x : x ∈ effective -> in_prelude x = true -> x ∈ managed.
Proof.
  intros Hx Hp. apply effective_sub in Hx. rewrite elem_of_app in Hx. destruct Hx as [Hx|[Hx|Hx]]; [..|done];
    rewrite Forall_forall in Htransient; assert (routing_policy_phase x = []) as E by (apply Htransient; rewrite elem_of_app; auto);
    unfold in_prelude in Hp; by rewrite E in Hp.
Qed.

Lemma prelude_elem x : x ∈ prelude_rules (str "forward") effective <-> (x ∈ effective) /\ in_chain (str "forward") x = true /\ in_prelude x = true.
Proof. unfold prelude_rules. rewrite sort_elem, !filter_elem. tauto. Qed.

Lemma others_elem x : x ∈ other_rules (str "forward") effective <-> (x ∈ effective) /\ in_chain (str "forward") x = true /\ in_prelude x = false.
Proof. unfold other_rules. rewrite sort_elem, !filter_elem, negb_true_iff. tauto. Qed.

Lemma origin_chain x : origin x -> in_chain (str "forward") x = true.
Proof. intros (He&Hd&_)%origin_action. unfold in_chain. by rewrite He, Hd. Qed.

Lemma first_action_all (q : FirewallRule -> bool) l v otherwise :
  (forall x, x ∈ l -> q x = true -> action x = v) -> (exists x, (x ∈ l) /\ q x = true) -> first_action q l otherwise = v.
Proof.
  intros Hv (x&Hx&Hq). unfold first_action. destruct (List.find q l) as [y|] eqn:E.
  - apply find_some in E as [Hy Hqy]. apply Hv; [by rewrite list_elem_of_In|done].
  - rewrite list_elem_of_In in Hx. by rewrite (find_none _ _ E x Hx) in Hq.
Qed.

(** A packet that a generated rule of the prelude speaks about is dropped. *)
Lemma prelude_drops x policy p : x ∈ managed -> in_prelude x = true -> prelude_applies groups p x = true ->
  decision settings effective groups (replace_service replace) cidr (str "forward") policy p = str "drop".
Proof.
  intros Hx Hp Ha. unfold decision. change (bool_decide (str "forward" = str "input")) with false. cbn [andb].
  apply first_action_all.
  - intros y [Hy [_ Hpy]]%prelude_elem _. pose proof (effective_prelude y Hy Hpy) as Hm. apply (managed_origin _ _ _ _ _ Hscope Hmanaged) in Hm.
    apply origin_action in Hm as (_&_&->). by rewrite Hpy.
  - exists x. split; [|done]. apply prelude_elem. split_and!; [|by apply origin_chain, (managed_origin _ _ _ _ _ Hscope Hmanaged)|done].
    apply effective_generated. rewrite elem_of_app. by right.
Qed.

(** Without one, the established connections, ICMP and the other rules decide. *)
Lemma others_accept policy p :
  (forall x, x ∈ managed -> in_prelude x = true -> rule_applies groups x p = false) ->
  (forall x, x ∈ rules ++ others -> in_chain (str "forward") x = true -> rule_applies groups x p = false) ->
  (exists x, (x ∈ managed) /\ in_prelude x = false /\ rule_applies groups x p = true) ->
  decision settings effective groups (replace_service replace) cidr (str "forward") policy p = str "accept".
Proof.
  intros Hpre Hops (x&Hx&Hpx&Hax). unfold decision. change (bool_decide (str "forward" = str "input")) with false. cbn [andb].
  unfold first_action at 1. destruct (List.find _ (prelude_rules _ _)) as [y|] eqn:E.
  { apply find_some in E as [Hy Hay]. rewrite <- list_elem_of_In in Hy. apply prelude_elem in Hy as (Hy&_&Hpy).
    unfold prelude_applies in Hay. rewrite (Hpre y (effective_prelude y Hy Hpy) Hpy) in Hay. done. }
  destruct (_ || _); [done|]. apply first_action_all.
  - intros y (Hy&Hc&Hpy)%others_elem Ha. apply effective_sub in Hy. rewrite elem_of_app in Hy.
    assert (y ∈ managed) as Hm.
    { destruct Hy as [Hy|[Hy|Hy]]; [..|done]; rewrite Hops in Ha; try done; rewrite elem_of_app; auto. }
    apply (managed_origin _ _ _ _ _ Hscope Hmanaged), origin_action in Hm as (_&_&->). by rewrite Hpy.
  - exists x. split; [|done]. apply others_elem. split_and!; [|by apply origin_chain, (managed_origin _ _ _ _ _ Hscope Hmanaged)|done].
    apply effective_generated. rewrite elem_of_app. by right.
Qed.

Lemma of_version_texts f t : t ∈ T -> Forall network_text (of_version f (networks t)).
Proof. intros Ht. apply filter_texts, to_texts. by apply (T_ok _ _ Hscope). Qed.

Lemma denied_texts f source destination : destination ∈ T -> Forall network_text (denied_networks f source destination).
Proof.
  intros Hd. unfold denied_networks. destruct (bool_decide _); [constructor; [apply everywhere_text|done]|by apply of_version_texts].
Qed.

Lemma ver_everywhere f : ver (everywhere f) = f.
Proof. destruct f; vm_compute; reflexivity. Qed.

Lemma denied_ver f source destination s : s ∈ denied_networks f source destination -> ver s = f.
Proof.
  unfold denied_networks. destruct (bool_decide _).
  - rewrite list_elem_of_singleton. intros ->. apply ver_everywhere.
  - intros [_ Hv%bool_decide_eq_true]%filter_elem. done.
Qed.

Lemma denied_common f source destination :
  of_version f (networks source) <> [] -> denied_networks f source destination <> [] ->
  common (of_version f (networks source)) (denied_networks f source destination) <> [].
Proof.
  intros Hs Hd E. apply (not_elem_of_nil f). rewrite <- E, common_elem. split; apply list_elem_of_fmap.
  - destruct (of_version f (networks source)) as [|a l] eqn:Ea; [done|]. exists a. split; [|by left].
    assert (a ∈ of_version f (networks source)) as [_ Hv%bool_decide_eq_true]%filter_elem by (rewrite Ea; by left). done.
  - destruct (denied_networks f source destination) as [|a l] eqn:Ea; [done|]. exists a. split; [|by left].
    symmetry. apply (denied_ver f source destination). rewrite Ea. by left.
Qed.

Lemma in_force_targets rule source destination : in_force rule source destination ->
  (source ∈ T) /\ (destination ∈ T) /\ t_name source = rr_source_interface rule /\ t_name destination = rr_destination_interface rule.
Proof. intros (_&_&_&Hs%by_name_elem&Hd%by_name_elem&_). tauto. Qed.

Lemma origin_proper x : origin x -> proper_address groups (fr_source x) /\ proper_address groups (destination x).
Proof.
  intros [s d Hs Hd _ Hc (name&->)|s d _ Hs Hd _ _ _ Hc (name&->)|rule s d _ Hf _ (name&description&_&_&->)|f s d _ Hs Hd _ _ _ _ Hsn Hdn (name&->)];
    apply made_proper; try by apply to_texts, (T_ok _ _ Hscope).
  - done.
  - done.
  - apply family_networks_ok, to_texts, (T_ok _ _ Hscope), (in_force_targets _ _ _ Hf).
  - apply reached_texts, (T_ok _ _ Hscope), (in_force_targets _ _ _ Hf).
  - apply Hf.
  - by apply of_version_texts.
  - by apply denied_texts.
  - by apply denied_common.
Qed.

(** Between a management network and another one nothing is forwarded. *)
Lemma isolation_drops source destination policy p :
  source ∈ T -> destination ∈ T -> is_role "management" source <> is_role "management" destination ->
  family (saddr p) = family (daddr p) -> iifname p = strip is_space (t_name source) ->
  in_items (networks source) (saddr p) = true -> in_items (networks destination) (daddr p) = true ->
  decision settings effective groups (replace_service replace) cidr (str "forward") policy p = str "drop".
Proof.
  intros Hs Hd Hr Hf Hi Hin Hout. pose proof (to_texts _ (T_ok _ _ Hscope _ Hs)) as Hst. pose proof (to_texts _ (T_ok _ _ Hscope _ Hd)) as Hdt.
  assert (common (networks source) (networks destination) <> []) as Hc.
  { intros E. apply (not_elem_of_nil (family (daddr p))). rewrite <- E, common_elem. split; [rewrite <- Hf|]; by apply in_items_ver. }
  destruct (isolation_generated _ _ _ _ _ Hscope Hmanaged source destination Hs Hd Hr Hc) as (x&Hx&name&->).
  eapply prelude_drops; [exact Hx|by rewrite made_in_prelude|]. unfold prelude_applies.
  rewrite made_applies by done. rewrite Hin, Hout, Hi. rewrite (bool_decide_eq_true_2 (strip is_space (t_name source) = strip is_space (t_name source))) by done.
  by rewrite orb_true_r.
Qed.

(* ------------------------------------------------------------------ *)
(** ** Permissions *)

Context (Hnames : NoDup (map pi_name interfaces ++ map vi_name vlans)).
Context (Htidy : Forall (fun name => strip is_space name = name /\ name <> []) (map pi_name interfaces ++ map vi_name vlans)).

Lemma target_names_NoDup : NoDup (map t_name T).
Proof. eapply sublist_NoDup; [exact Hnames|apply target_names]. Qed.

Lemma target_tidy t : t ∈ T -> strip is_space (t_name t) = t_name t /\ t_name t <> [].
Proof.
  intros Ht. rewrite Forall_forall in Htidy. apply Htidy. eapply elem_of_sublist; [by apply list_elem_of_fmap_2|apply target_names].
Qed.

Lemma target_unique t u : t ∈ T -> u ∈ T -> t_name t = t_name u -> t = u.
Proof.
  intros Ht Hu E. pose proof (by_name_get _ _ t target_names_NoDup Ht) as Hg. rewrite E in Hg.
  rewrite (by_name_get _ _ u target_names_NoDup Hu) in Hg. by injection Hg.
Qed.

(** An enabled rule with a policy covers a direction of a pair of interfaces in a family. *)
Definition permits (policy : string) (A B : pystr) (f : Family) : Prop :=
  exists rule, (rule ∈ routing_rules) /\ rr_enabled rule = true /\ rule_policy rule = str policy /\
    rr_source_interface rule = A /\ rr_destination_interface rule = B /\ (rule_family rule = 0 \/ rule_family rule = family_number f).

Lemma family_networks_items fam l a : Forall network_text l ->
  in_items (family_networks fam l) a = ((fam =? 0) || (family_number (family a) =? fam)) && in_items l a.
Proof.
  intros Hl. unfold family_networks. destruct (fam =? 0); [done|]. by rewrite (in_items_families (fun f => family_number f =? fam)).
Qed.

Lemma of_version_items g l a : Forall network_text l -> in_items (of_version g l) a = bool_decide (family a = g) && in_items l a.
Proof. pose proof (in_items_families (fun h : Family => bool_decide (h = g)) l a) as E. exact E. Qed.

Lemma covers fam f : (fam =? 0) || (family_number f =? fam) = true <-> fam = 0 \/ fam = family_number f.
Proof. rewrite orb_true_iff, !Z.eqb_eq. intuition congruence. Qed.

(** A packet from [source] to [destination], which leaves through the interface it came
    from when both are the same. *)
Record crosses (source destination : Target) (p : Packet) : Prop := {
  cr_source : source ∈ T;
  cr_destination : destination ∈ T;
  cr_permission_source : has_permissions source = true;
  cr_permission_destination : has_permissions destination = true;
  cr_families : family (saddr p) = family (daddr p);
  cr_iif : iifname p = t_name source;
  cr_oif : oifname p = t_name destination;
  cr_saddr : in_items (networks source) (saddr p) = true;
  cr_range : 0 <= value (daddr p) < 2 ^ width (family (daddr p));
  cr_daddr : t_name source <> t_name destination -> in_items (networks destination) (daddr p) = true
}.

Section Crossing.
Context (source destination : Target) (p : Packet) (Hp : crosses source destination p).
Let f := family (saddr p).

Lemma source_texts : Forall network_text (networks source).
Proof. apply to_texts, (T_ok _ _ Hscope), (cr_source _ _ _ Hp). Qed.
Lemma destination_texts : Forall network_text (networks destination).
Proof. apply to_texts, (T_ok _ _ Hscope), (cr_destination _ _ _ Hp). Qed.

Lemma crossing_family fam : fam = 0 \/ fam = family_number f ->
  in_items (family_networks fam (networks source)) (saddr p) = true /\
  in_items (reached_networks fam source destination) (daddr p) = true.
Proof.
  intros Hf. assert (in_items (family_networks fam (networks source)) (saddr p) = true) as Hs.
  { rewrite family_networks_items by apply source_texts. rewrite (cr_saddr _ _ _ Hp), andb_true_r. by apply covers. }
  split; [done|]. unfold reached_networks. destruct (bool_decide_reflect (t_name source = t_name destination)) as [E|E].
  - pose proof (in_everywhere (daddr p) (cr_range _ _ _ Hp)) as He. rewrite in_items_elem in He. destruct He as (s&n&->%list_elem_of_singleton&Hn&Ha).
    rewrite in_items_elem. exists (everywhere (family (daddr p))), n. split; [|done]. apply list_elem_of_fmap_2.
    rewrite <- (cr_families _ _ _ Hp). apply in_items_ver; [apply family_networks_ok, source_texts|done].
  - rewrite family_networks_items by apply destination_texts. rewrite (cr_daddr _ _ _ Hp E), andb_true_r. rewrite <- (cr_families _ _ _ Hp). by apply covers.
Qed.

Lemma crossing_common fam : fam = 0 \/ fam = family_number f ->
  f ∈ common (family_networks fam (networks source)) (reached_networks fam source destination).
Proof.
  intros [Hs Hd]%crossing_family. apply common_elem. split; [apply in_items_ver; [apply family_networks_ok, source_texts|done]|].
  unfold f. rewrite (cr_families _ _ _ Hp). apply in_items_ver; [|done]. apply reached_texts, (T_ok _ _ Hscope), (cr_destination _ _ _ Hp).
Qed.

Lemma permits_in_force policy : permits policy (t_name source) (t_name destination) f ->
  str policy ∈ map str ["automatic"; "allow"; "deny"]%string ->
  exists rule, in_force rule source destination /\ rule_policy rule = str policy /\ (rule_family rule = 0 \/ rule_family rule = family_number f).
Proof.
  intros (rule&Hr&He&Hpol&Es&Ed&Hf) Hv. exists rule. split; [|done]. unfold RoutingRules.in_force. rewrite Es, Ed, Hpol.
  rewrite !by_name_get by first [apply target_names_NoDup|apply Hp]. split_and!; try done; try apply Hp.
  intros E. pose proof (crossing_common _ Hf) as Hc. rewrite E in Hc. by apply not_elem_of_nil in Hc.
Qed.

Lemma in_force_permits rule : in_force rule source destination -> rule_family rule = 0 \/ rule_family rule = family_number f ->
  forall policy, rule_policy rule = str policy -> permits policy (t_name source) (t_name destination) f.
Proof.
  intros Hi Hf policy Hpol. pose proof (in_force_targets _ _ _ Hi) as (_&_&Es&Ed). destruct Hi as (Hr&He&_). by exists rule.
Qed.

Lemma allowed_permits : allowed_pair interfaces vlans routing_rules (t_name source) (t_name destination) f <->
  permits "allow" (t_name source) (t_name destination) f.
Proof.
  split.
  - intros (rule&s&d&Hi&Hpol&Es&Ed&Hc). pose proof (in_force_targets _ _ _ Hi) as (Hs&Hd&En&En').
    apply (target_unique s source) in Es; [|done|apply Hp]. apply (target_unique d destination) in Ed; [|done|apply Hp]. subst s d.
    eapply in_force_permits; [done| |done]. apply common_elem in Hc as [Hc _]. apply list_elem_of_fmap in Hc as (s&Ef&Hs').
    unfold family_networks in Hs'. destruct (Z.eqb_spec (rule_family rule) 0) as [|_]; [by left|right].
    apply filter_elem in Hs' as [_ Hs'%Z.eqb_eq]. congruence.
  - intros Ha. destruct (permits_in_force _ Ha) as (rule&Hi&Hpol&Hf); [by right; left|].
    exists rule, source, destination. split_and!; try done. by apply crossing_common.
Qed.

Context (Henabled : routing_enabled = true).

(** A generated rule from [source] to [destination] speaks about the packet when its networks
    hold the addresses. *)
Lemma crossing_applies name action src dst priority description phase :
  Forall network_text src -> Forall network_text dst -> in_items src (saddr p) = true -> in_items dst (daddr p) = true ->
  rule_applies groups (made name action (t_name source) src dst priority description (t_name destination) phase) p = true.
Proof.
  intros Hs Hd Hin Hout. destruct (target_tidy source (cr_source _ _ _ Hp)) as [Et _].
  rewrite made_applies; [|done|done| |apply Hp].
  - rewrite Hin, Hout, Et, (cr_iif _ _ _ Hp), (cr_oif _ _ _ Hp).
    rewrite (bool_decide_eq_true_2 (t_name source = t_name source)), (bool_decide_eq_true_2 (t_name destination = t_name destination)) by done.
    by rewrite !orb_true_r.
  - intros E. apply (not_elem_of_nil f). rewrite <- E, common_elem. split; [by apply in_items_ver|].
    unfold f. rewrite (cr_families _ _ _ Hp). by apply in_items_ver.
Qed.

Lemma explicit_drops policy : permits "deny" (t_name source) (t_name destination) f ->
  decision settings effective groups (replace_service replace) cidr (str "forward") policy p = str "drop".
Proof.
  intros Hd. destruct (permits_in_force _ Hd) as (rule&Hi&Hpol&Hf); [by right; right; left|].
  destruct (grant_generated _ _ _ _ _ Hscope Hmanaged rule source destination Henabled Hi) as (x&Hx&name&description&Hname&Hdesc&->); [by rewrite Hpol|].
  destruct (crossing_family _ Hf) as [Hin Hout]. eapply prelude_drops; [exact Hx| |].
  - rewrite made_in_prelude, Hpol. by rewrite orb_true_r.
  - unfold prelude_applies. rewrite crossing_applies; [|apply family_networks_ok, source_texts|by apply reached_texts, (T_ok _ _ Hscope), (cr_destination _ _ _ Hp)|done..].
    unfold spares_dnat, made. cbn [fr_name]. by rewrite Hname, andb_false_r.
Qed.

(** A managed translation of addresses. *)
Definition managed_dnat : bool := ct_dnat p && (Z.land (ct_mark p) 0xff000000 =? 0xa7000000).

Lemma default_drops policy : ~ permits "allow" (t_name source) (t_name destination) f ->
  t_name source = t_name destination \/ is_role "route" source && is_role "route" destination = false ->
  (t_name source = t_name destination -> managed_dnat = false) ->
  decision settings effective groups (replace_service replace) cidr (str "forward") policy p = str "drop".
Proof.
  intros Hna Hr Hdnat. rewrite <- allowed_permits in Hna.
  assert (in_items (of_version f (networks source)) (saddr p) = true) as Hin.
  { rewrite of_version_items by apply source_texts. by rewrite bool_decide_eq_true_2, (cr_saddr _ _ _ Hp). }
  assert (in_items (denied_networks f source destination) (daddr p) = true) as Hout.
  { unfold denied_networks, f. rewrite (cr_families _ _ _ Hp). destruct (bool_decide_reflect (t_name source = t_name destination)) as [E|E].
    - apply in_everywhere, Hp.
    - rewrite of_version_items by apply destination_texts.
      by rewrite bool_decide_eq_true_2, (cr_daddr _ _ _ Hp E). }
  destruct (deny_generated _ _ _ _ _ Hscope Hmanaged f source destination Henabled) as (x&Hx&name&->); try apply Hp; try done.
  { by intros E; rewrite E in Hin. } { by intros E; rewrite E in Hout. }
  eapply prelude_drops; [exact Hx|by rewrite made_in_prelude, orb_true_r|]. unfold prelude_applies.
  rewrite crossing_applies; [|by apply of_version_texts, Hp|by apply denied_texts, Hp|done..]. cbn [andb].
  destruct (bool_decide_reflect (t_name source = t_name destination)) as [E|E].
  - specialize (Hdnat E). unfold managed_dnat in Hdnat. destruct (ct_dnat p); cbn in *; [|by rewrite orb_true_r]. by rewrite Hdnat, orb_true_r.
  - unfold spares_dnat, made. cbn [interface_name routing_destination_interface]. rewrite (bool_decide_eq_false_2 (t_name source = t_name destination)) by done.
    by rewrite andb_false_r.
Qed.

(** What the interfaces of a rule that speaks about the packet are. *)
Lemma applies_names name action si src dst priority description di phase :
  Forall network_text src -> Forall network_text dst -> common src dst <> [] ->
  rule_applies groups (made name action si src dst priority description di phase) p = true ->
  (strip is_space si = si -> si <> [] -> si = t_name source) /\ (di <> [] -> di = t_name destination) /\
  in_items src (saddr p) = true /\ in_items dst (daddr p) = true.
Proof.
  intros Hs Hd Hc. rewrite made_applies by (done || apply Hp). rewrite (cr_iif _ _ _ Hp), (cr_oif _ _ _ Hp).
  intros [[Hdi Hsi]%andb_true_iff [Hin Hout]%andb_true_iff]%andb_true_iff. split_and!; [| |done..].
  - intros E Hne. rewrite E in Hsi. apply orb_true_iff in Hsi as [?%bool_decide_eq_true|?%bool_decide_eq_true]; done.
  - intros Hne. apply orb_true_iff in Hdi as [?%bool_decide_eq_true|?%bool_decide_eq_true]; done.
Qed.

Lemma applies_targets s d name action src dst priority description phase : s ∈ T -> d ∈ T ->
  Forall network_text src -> Forall network_text dst -> common src dst <> [] ->
  rule_applies groups (made name action (t_name s) src dst priority description (t_name d) phase) p = true ->
  s = source /\ d = destination /\ in_items src (saddr p) = true.
Proof.
  intros Hs Hd Hst Hdt Hc (Es&Ed&Hin&_)%applies_names; [|done..]. destruct (target_tidy s Hs) as [Et Hne]. destruct (target_tidy d Hd) as [_ Hned].
  split_and!; [..|done]; apply target_unique; auto; apply Hp.
Qed.

Lemma crossing_accepts policy :
  ~ permits "deny" (t_name source) (t_name destination) f ->
  permits "allow" (t_name source) (t_name destination) f \/
    (t_name source <> t_name destination /\ is_role "route" source && is_role "route" destination = true) ->
  (forall t, t ∈ T -> is_role "management" t = true -> in_items (networks t) (daddr p) = false) ->
  (forall x, x ∈ rules ++ others -> in_chain (str "forward") x = true -> rule_applies groups x p = false) ->
  decision settings effective groups (replace_service replace) cidr (str "forward") policy p = str "accept".
Proof.
  intros Hnd Hallow Hman Hops. apply others_accept; [|done|].
  - intros x Hx Hpx. apply not_true_is_false. intros Ha. apply (managed_origin _ _ _ _ _ Hscope Hmanaged) in Hx.
    destruct Hx as [s d Hs Hd Hr Hc (name&->)|s d _ _ _ _ _ _ _ (name&->)|rule s d _ Hf Hpol (name&description&_&Hdesc&->)|g s d _ Hs Hd _ _ Hr Hnal Hsn Hdn (name&->)].
    + apply applies_names in Ha as (Es&_&_&Hout); [|by apply to_texts, (T_ok _ _ Hscope)|by apply to_texts, (T_ok _ _ Hscope)|done].
      destruct (target_tidy s Hs) as [Et Hne]. assert (s = source) as -> by (apply target_unique; auto; apply Hp).
      rewrite (permission_lab source) in Hr by apply Hp. destruct (is_role "management" d) eqn:Ed; [|done]. by rewrite (Hman d Hd Ed) in Hout.
    + by rewrite made_in_prelude in Hpx.
    + pose proof (in_force_targets _ _ _ Hf) as (Hs&Hd&_). apply applies_targets in Ha as (->&->&Hin); try done;
        [|apply family_networks_ok, to_texts, (T_ok _ _ Hscope), Hs|apply reached_texts, (T_ok _ _ Hscope), Hd|apply Hf].
      rewrite family_networks_items in Hin by apply source_texts. apply andb_true_iff in Hin as [Hin%covers _].
      rewrite made_in_prelude, (bool_decide_eq_false_2 _ Hdesc) in Hpx. apply bool_decide_eq_true in Hpx. cbn [map] in Hpx.
      rewrite !elem_of_cons in Hpx. destruct Hpx as [E|[E|E]]; [| |by apply not_elem_of_nil in E].
      * apply Hnd. by apply (in_force_permits rule).
      * destruct Hf as (_&_&Hv&_). rewrite E in Hv. apply (bool_decide_eq_true_2 _) in Hv. discriminate Hv.
    + apply applies_targets in Ha as (->&->&Hin); try done; [|by apply of_version_texts|by apply denied_texts|by apply denied_common].
      rewrite of_version_items in Hin by apply source_texts. apply andb_true_iff in Hin as [Hg%bool_decide_eq_true _]. subst g.
      destruct Hallow as [Hal|[Hn Hrr]]; [apply Hnal; by apply allowed_permits|]. destruct Hr; congruence.
  - destruct Hallow as [Hal|[Hn Hrr]].
    + destruct (permits_in_force _ Hal) as (rule&Hi&Hpol&Hf); [by right; left|].
      destruct (grant_generated _ _ _ _ _ Hscope Hmanaged rule source destination Henabled Hi) as (x&Hx&name&description&Hname&Hdesc&->); [by rewrite Hpol|].
      destruct (crossing_family _ Hf) as [Hin Hout]. eexists. split; [exact Hx|]. split.
      * rewrite made_in_prelude, Hpol. by rewrite (bool_decide_eq_false_2 _ Hdesc).
      * apply crossing_applies; [apply family_networks_ok, source_texts|by apply reached_texts, (T_ok _ _ Hscope), (cr_destination _ _ _ Hp)|done..].
    + apply andb_true_iff in Hrr as [Hrs Hrd].
      destruct (route_generated _ _ _ _ _ Hscope Hmanaged source destination Henabled) as (x&Hx&name&->); try apply Hp; try done.
      { intros E. apply (not_elem_of_nil f). rewrite <- E, common_elem. split; [apply in_items_ver; [apply source_texts|apply Hp]|].
        unfold f. rewrite (cr_families _ _ _ Hp). apply in_items_ver; [apply destination_texts|by apply Hp]. }
      eexists. split; [exact Hx|]. split; [by rewrite made_in_prelude|].
      apply crossing_applies; [apply source_texts|apply destination_texts|apply Hp|by apply Hp].
Qed.
End Crossing.
End State.

(** The generated forwarding rules are always computed, whatever the interfaces and
    VLANs are, unless routing is enabled and an enabled permission has an unknown policy or
    family, which raises the ValueError that says so; names have no lone surrogates. *)
Theorem routing_rules_computed interfaces vlans routing_rules routing_enabled :
  unscoped_all interfaces vlans -> Forall scalar_text (map pi_name interfaces ++ map vi_name vlans) ->
  Forall (fun rule => scalar_text (rr_name rule)) routing_rules ->
  if routing_enabled && existsb invalid_permission routing_rules
  then managed_routing_firewall_rules interfaces vlans routing_rules routing_enabled
       = Raise (ValueError "Invalid routing permission policy or family.")
  else exists managed, managed_routing_firewall_rules interfaces vlans routing_rules routing_enabled = Ok managed.
Proof. intros Hs Hn Hr. exact (managed_returns interfaces vlans routing_rules Hs Hn Hr routing_enabled). Qed.

(* ------------------------------------------------------------------ *)
(** ** Forwarding in the rendered firewall *)

Section Rendered.
Context (settings : FirewallSettings) (rules others : list FirewallRule) (groups : list Group) (replace : Replace).
Context (management_cidr settings_cidr : pystr).
Context (interfaces : list PhysicalInterface) (vlans : list VlanInterface) (routing_rules : list RoutingRule) (routing_enabled : bool).
Context (managed : list FirewallRule).

Let cidr := match management_cidr with [] => settings_cidr | _ => management_cidr end.
Let chains := chain_statements settings (effective_firewall_rules rules (others ++ managed) replace) (groups_by_id groups) (replace_service replace) cidr.

(** A valid state of the firewall with the generated forwarding rules: the rules of the
    operator and those generated for services have no routing phase, which is not stored. *)
Record forwarding : Prop := {
  fw_generated : managed_routing_firewall_rules interfaces vlans routing_rules routing_enabled = Ok managed;
  fw_valid : validate_firewall_state settings rules (others ++ managed) groups replace = Ok [];
  fw_enabled : fs_enabled settings = true;
  fw_cidr : replace_service replace = true \/ is_Some (ip_network cidr);
  fw_proper : Forall (fun rule => proper_address (groups_by_id groups) (fr_source rule) /\
                                  proper_address (groups_by_id groups) (destination rule)) (rules ++ others);
  fw_transient : Forall (fun rule => routing_policy_phase rule = []) (rules ++ others);
  fw_unscoped : unscoped_all interfaces vlans
}.

Lemma forwarding_rendered : forwarding ->
  render_nftables_config settings rules (others ++ managed) groups replace management_cidr settings_cidr = Ok (print_table settings chains) /\
  forall p policy, family (saddr p) = family (daddr p) ->
    decide_chain (chains (str "forward")) policy p =
    decision settings (effective_firewall_rules rules (others ++ managed) replace) (groups_by_id groups) (replace_service replace) cidr
      (str "forward") policy p.
Proof.
  intros Hf. destruct (firewall_rendered settings rules (others ++ managed) groups replace management_cidr settings_cidr) as [Hr Hd];
    [by destruct Hf..| |].
  - apply Forall_forall. intros x Hx. apply effective_sub in Hx. rewrite elem_of_app in Hx. destruct Hf as [Hg _ _ _ Hp _ Hu].
    rewrite Forall_forall in Hp. destruct Hx as [Hx|[Hx|Hx]]; [apply Hp; rewrite elem_of_app; auto..|].
    apply (managed_origin _ _ _ _ _ Hu Hg) in Hx. by eapply origin_proper.
  - split; [exact Hr|]. intros p policy Hfam. by apply Hd.
Qed.

(** C9.  In the rendered firewall nothing is forwarded between a management network and any
    other network of the appliance, in either direction: whatever rules and permissions the
    operator wrote, a packet that arrives at an interface from its network, with a
    destination on the network of another one, is dropped when exactly one of the two
    interfaces has the management role. *)
Theorem management_isolated source source_role destination destination_role p policy :
  forwarding -> family (saddr p) = family (daddr p) ->
  connected interfaces vlans source source_role (saddr p) -> connected interfaces vlans destination destination_role (daddr p) ->
  (source_role = str "management" /\ destination_role <> str "management") \/
  (source_role <> str "management" /\ destination_role = str "management") ->
  iifname p = strip is_space source ->
  render_nftables_config settings rules (others ++ managed) groups replace management_cidr settings_cidr = Ok (print_table settings chains) /\
  decide_chain (chains (str "forward")) policy p = str "drop".
Proof.
  intros Hf Hfam Hs Hd Hr Hi. destruct (forwarding_rendered Hf) as [Hren Hdec]. split; [done|]. rewrite Hdec by done.
  apply connected_target in Hs as (s&Hs&En&Er&Hin); [|apply Hf]. apply connected_target in Hd as (d&Hd&_&Er'&Hout); [|apply Hf].
  rewrite <- En in Hi. eapply (isolation_drops interfaces vlans routing_rules routing_enabled) with (source := s) (destination := d); try done; try apply Hf.
  unfold is_role. rewrite Er, Er'. destruct Hr as [[-> Hr]|[Hr ->]]; rewrite (bool_decide_eq_false_2 _ Hr); done.
Qed.

Definition permission_role (role : pystr) : Prop := role = str "route" \/ role = str "access".

Lemma lab_routing source source_role destination destination_role p policy :
  forwarding -> routing_enabled = true ->
  NoDup (map pi_name interfaces ++ map vi_name vlans) ->
  Forall (fun name => strip is_space name = name /\ name <> []) (map pi_name interfaces ++ map vi_name vlans) ->
  family (saddr p) = family (daddr p) -> 0 <= value (daddr p) < 2 ^ width (family (daddr p)) ->
  connected interfaces vlans source source_role (saddr p) -> permission_role source_role -> permission_role destination_role ->
  (source <> destination -> connected interfaces vlans destination destination_role (daddr p)) ->
  (source = destination -> destination_role = source_role) ->
  iifname p = source -> oifname p = destination ->
  let permitted policy := permits routing_rules policy source destination (family (saddr p)) in
  let both_route := source_role = str "route" /\ destination_role = str "route" /\ source <> destination in
  let decided := decide_chain (chains (str "forward")) policy p in
  (permitted "deny"%string -> decided = str "drop") /\
  (~ permitted "allow"%string -> ~ both_route -> (source = destination -> managed_dnat p = false) -> decided = str "drop") /\
  (~ permitted "deny"%string -> permitted "allow"%string \/ both_route ->
   (forall name, ~ connected interfaces vlans name (str "management") (daddr p)) ->
   (forall rule, rule ∈ rules ++ others -> in_chain (str "forward") rule = true -> rule_applies (groups_by_id groups) rule p = false) ->
   decided = str "accept").
Proof.
  intros Hf Hen Hnames Htidy Hfam Hrange Hs Hps Hpd Hd Hsame Hi Ho permitted both_route decided.
  destruct (forwarding_rendered Hf) as [_ Hdec]. unfold decided. rewrite Hdec by done.
  pose proof (fw_unscoped Hf) as Hu. apply connected_target in Hs as (s&Hs&En&Er&Hin); [|done].
  assert (exists d, (d ∈ routing_firewall_targets interfaces vlans) /\ t_name d = destination /\ t_role d = destination_role /\
    (t_name s <> t_name d -> in_items (networks d) (daddr p) = true)) as (d&Hdt&End&Erd&Hout).
  { destruct (decide (source = destination)) as [E|E].
    - exists s. split_and!; [done|congruence|by rewrite Hsame|done].
    - apply connected_target in Hd as (d&Hd&End&Erd&Hout); [|done|done]. by exists d. }
  assert (crosses interfaces vlans s d p) as Hc.
  { split; try done; try congruence; unfold has_permissions, is_role; rewrite ?Er, ?Erd.
    - by destruct Hps as [-> | ->].
    - by destruct Hpd as [-> | ->]. }
  assert (is_role "route" s && is_role "route" d = true <-> source_role = str "route" /\ destination_role = str "route") as Hrr.
  { unfold is_role. by rewrite andb_true_iff, !bool_decide_eq_true, Er, Erd. }
  subst permitted both_route. cbn beta. rewrite <- En, <- End. split_and!.
  - intros Hdeny. eapply explicit_drops; try apply Hf; done.
  - intros Hna Hnr Hdn. eapply default_drops; try apply Hf; try done.
    destruct (decide (t_name s = t_name d)); [by left|right]. apply not_true_is_false. rewrite Hrr. tauto.
  - intros Hnd Hal Hman Hops. eapply crossing_accepts; try apply Hf; try done.
    + destruct Hal as [|Hal]; [by left|right]. rewrite Hrr. tauto.
    + intros t Ht Hm. apply not_true_is_false. intros Ha. apply (Hman (t_name t)). apply connected_target; [done|].
      exists t. apply bool_decide_eq_true in Hm. done.
Qed.

(** C10.  With routing enabled, the rendered firewall forwards between the lab networks
    exactly as permitted: from an interface to another one of them, or back through the same
    one, a packet is dropped when an enabled rule denies the direction in its family,
    whatever other rules allow; it is dropped when no enabled rule allows it, unless both
    interfaces have the role route and are not the same (on the same interface a managed
    translation is spared); in the other cases it is accepted, unless a forward rule of the
    operator or of a service speaks about it or its destination is on a management
    network. *)
Theorem lab_routing_decided source source_role destination destination_role p policy :
  forwarding -> routing_enabled = true ->
  NoDup (map pi_name interfaces ++ map vi_name vlans) ->
  Forall (fun name => strip is_space name = name /\ name <> []) (map pi_name interfaces ++ map vi_name vlans) ->
  family (saddr p) = family (daddr p) -> 0 <= value (daddr p) < 2 ^ width (family (daddr p)) ->
  connected interfaces vlans source source_role (saddr p) -> permission_role source_role -> permission_role destination_role ->
  (source <> destination -> connected interfaces vlans destination destination_role (daddr p)) ->
  (source = destination -> destination_role = source_role) ->
  iifname p = source -> oifname p = destination ->
  let permitted policy := permits routing_rules policy source destination (family (saddr p)) in
  let both_route := source_role = str "route" /\ destination_role = str "route" /\ source <> destination in
  let decided := decide_chain (chains (str "forward")) policy p in
  (permitted "deny"%string -> decided = str "drop") /\
  (~ permitted "allow"%string -> ~ both_route -> (source = destination -> managed_dnat p = false) -> decided = str "drop") /\
  (~ permitted "deny"%string -> permitted "allow"%string \/ both_route ->
   (forall name, ~ connected interfaces vlans name (str "management") (daddr p)) ->
   (forall rule, rule ∈ rules ++ others -> in_chain (str "forward") rule = true -> rule_applies (groups_by_id groups) rule p = false) ->
   decided = str "accept").
Proof. apply lab_routing. Qed.
End Rendered.
End Forwarding.

(* ------------------------------------------------------------------ *)
(** ** Instances *)

#[local] Existing Instance plain_runtime.
#[local] Existing Instance ascii_case.
#[local] Existing Instance ascii_case_laws.

Definition sample_interface (name role ip_cidr : string) (ipv6_cidr : option string) : PhysicalInterface :=
  mkPhysicalInterface (str name) (str "up") (str "access") (str role) (Some (str ip_cidr)) (str <$> ipv6_cidr).
Definition sample_interfaces : list PhysicalInterface :=
  [sample_interface "eth0" "management" "192.0.2.1/24" (Some "2001:db8::1/64"%string); sample_interface "eth1" "access" "10.1.0.1/24" None;
   sample_interface "eth2" "route" "10.2.0.1/24" None].
Definition sample_permissions : list RoutingRule :=
  [mkRoutingRule (Some 1) (str "build to lab") true (str "eth1") (str "eth2") (Some (str "allow")) (Some 0) 100 None;
   mkRoutingRule (Some 2) (str "lab to build") true (str "eth2") (str "eth1") (Some (str "deny")) (Some 4) 100 None].
Definition sample_managed : list FirewallRule :=
  match managed_routing_firewall_rules sample_interfaces [] sample_permissions true with Ok l => l | Raise _ => [] end.
Definition forward_packet (iif oif : string) (source destination : Z) : Packet :=
  mkPacket (str iif) (str oif) (mkAddress V4 source) (mkAddress V4 destination) 6 443 false false 0.
Definition sample_chains : pystr -> list Statement :=
  chain_statements sample_settings (effective_firewall_rules [] ([] ++ sample_managed) (mkReplace false false true)) (groups_by_id []) true (str "192.0.2.0/24").

Lemma sample_forwarding : forwarding sample_settings [] [] [] (mkReplace false false true) [] (str "192.0.2.0/24") sample_interfaces []
  sample_permissions true sample_managed.
Proof.
  split; [vm_compute; reflexivity..|by left|by constructor|by constructor|].
  split; [|by constructor]. repeat constructor; apply (bool_decide_unpack _); vm_compute; exact I.
Qed.

Lemma sample_connected name role ip_cidr ipv6_cidr a n : sample_interface name role ip_cidr ipv6_cidr ∈ sample_interfaces ->
  ip_network (str ip_cidr) = Some n -> in_network a n = true ->
  connected sample_interfaces [] (str name) (normalize_interface_role (str role)) a.
Proof.
  intros Hi Hn Ha. eapply connected_interface; [exact Hi|vm_compute; discriminate|vm_compute; discriminate|done|done|].
  exists (str ip_cidr), n. split; [by left|done].
Qed.

(** [management_isolated] at a packet from the access network to the management network. *)
Lemma management_isolated_witness :
  decide_chain (sample_chains (str "forward")) (str "accept") (forward_packet "eth1" "eth0" 0x0a010007 0xc0000205) = str "drop".
Proof.
  refine (proj2 (management_isolated sample_settings [] [] [] (mkReplace false false true) [] (str "192.0.2.0/24") sample_interfaces []
    sample_permissions true sample_managed (str "eth1") (str "access") (str "eth0") (str "management") _ _ sample_forwarding _ _ _ _ _)).
  - reflexivity.
  - apply (sample_connected "eth1" "access" "10.1.0.1/24" None) with (n := mkNetwork V4 0x0a010000 24 []); [by right; left|vm_compute; reflexivity..].
  - apply (sample_connected "eth0" "management" "192.0.2.1/24" (Some "2001:db8::1/64"%string)) with (n := mkNetwork V4 0xc0000200 24 []);
      [by left|vm_compute; reflexivity..].
  - right. split; [vm_compute; discriminate|reflexivity].
  - vm_compute. reflexivity.
Defined.

(** [lab_routing_decided] at a packet that a permission allows and at one of the way back,
    which is denied. *)
Lemma lab_routing_decided_witness :
  decide_chain (sample_chains (str "forward")) (str "drop") (forward_packet "eth1" "eth2" 0x0a010007 0x0a020005) = str "accept" /\
  decide_chain (sample_chains (str "forward")) (str "accept") (forward_packet "eth2" "eth1" 0x0a020005 0x0a010007) = str "drop".
Proof.
  assert (NoDup (map pi_name sample_interfaces ++ map vi_name [])) as Hnames by (apply (bool_decide_unpack _); vm_compute; exact I).
  assert (Forall (fun name => strip is_space name = name /\ name <> []) (map pi_name sample_interfaces ++ map vi_name [])) as Htidy
    by (apply (bool_decide_unpack _); vm_compute; exact I).
  pose proof (fun (i o : string) s d (role role' : string) policy Hd Hcs Hcd Hrs Hrd (Hne : str i <> str o) =>
    lab_routing_decided sample_settings [] [] [] (mkReplace false false true) [] (str "192.0.2.0/24") sample_interfaces []
      sample_permissions true sample_managed (str i) (str role) (str o) (str role') (forward_packet i o s d) policy sample_forwarding
      eq_refl Hnames Htidy eq_refl Hd Hcs Hrs Hrd (fun _ => Hcd) (fun E => False_ind _ (Hne E)) eq_refl eq_refl) as Hall.
  assert (connected sample_interfaces [] (str "eth1") (str "access") (mkAddress V4 0x0a010007)) as H1.
  { apply (sample_connected "eth1" "access" "10.1.0.1/24" None) with (n := mkNetwork V4 0x0a010000 24 []); [by right; left|vm_compute; reflexivity..]. }
  assert (connected sample_interfaces [] (str "eth2") (str "route") (mkAddress V4 0x0a020005)) as H2.
  { apply (sample_connected "eth2" "route" "10.2.0.1/24" None) with (n := mkNetwork V4 0x0a020000 24 []); [by right; right; left|vm_compute; reflexivity..]. }
  split.
  - destruct (Hall "eth1" "eth2" 0x0a010007 0x0a020005 "access" "route" (str "drop"))%string as (_&_&Haccept);
      [cbn; lia|exact H1|exact H2|by right|by left|vm_compute; discriminate|]. apply Haccept; clear Haccept.
    + intros (rule&Hr&_&Hp&Hs&_). unfold sample_permissions in Hr. rewrite !elem_of_cons in Hr. destruct Hr as [->|[->|Hr]]; [discriminate Hp|discriminate Hs|by apply not_elem_of_nil in Hr].
    + left. eexists. split; [by left|]. split_and!; [reflexivity..|by left].
    + intros name [i Hi _ _ _ Hr (cidr&n&Hc&Hn&Ha)|v Hv%not_elem_of_nil]; [|done].
      unfold sample_interfaces in Hi. rewrite !elem_of_cons in Hi. destruct Hi as [->|[->|[->|Hi]]]; [|discriminate Hr..|by apply not_elem_of_nil in Hi].
      cbn in Hc. rewrite !elem_of_cons in Hc. destruct Hc as [[= ->]|[[= ->]|Hc]]; [..|by apply not_elem_of_nil in Hc];
        vm_compute in Hn; injection Hn as <-; discriminate Ha.
    + intros rule Hr. by apply not_elem_of_nil in Hr.
  - destruct (Hall "eth2" "eth1" 0x0a020005 0x0a010007 "route" "access" (str "accept"))%string as (Hdrop&_);
      [cbn; lia|exact H2|exact H1|by left|by right|vm_compute; discriminate|]. apply Hdrop.
    eexists. split; [by right; left|]. split_and!; [reflexivity..|by right].
Defined.

(** [routing_rules_computed] at the sample permissions. *)
Lemma routing_rules_computed_witness :
  exists managed, managed_routing_firewall_rules sample_interfaces [] sample_permissions true = Ok managed.
Proof.
  refine (routing_rules_computed sample_interfaces [] sample_permissions true _ _ _).
  - apply sample_forwarding.
  - repeat constructor.
  - repeat constructor.
Defined.
