(* ===== verification/SourceGroupClients.v ===== *)
(** The clients that a Source Group admits: those in the networks that it reaches along
    references, or all of them when it reaches "any"; and that the source of a rule that is
    made from the group matches exactly these. *)

From S2P Require Import Prelude Utf8 PyText Json Sha256 IpAddress Networks Trace SourceGroups SourceGroupsProps Firewall.
From S2P Require Import Nftables FirewallText FirewallMeaning FirewallProps.
Open Scope Z_scope.

(* ------------------------------------------------------------------ *)
(** ** Stripped texts *)

Lemma strip_cons p h t : p h = false -> exists t', strip p (h :: t) = h :: t'.
Proof.
  intros Hh. unfold strip. cbn [lstrip]. rewrite Hh. cbn [rev]. rewrite lstrip_snoc, rev_app_distr by done. by eexists.
Qed.

Definition stripped (x : pystr) : Prop := x <> [] /\ strip is_space x = x.

Lemma stripped_ends x : stripped x -> exists h t c l, x = h :: t /\ is_space h = false /\ rev x = c :: l /\ is_space c = false.
Proof.
  intros [Hne Hs]. pose proof (strip_last is_space x) as Hl. rewrite Hs in Hl. destruct x as [|h t] eqn:E; [done|]. rewrite <- E in *.
  assert (is_space h = false) as Hh.
  { destruct (is_space h) eqn:Eh; [|done]. exfalso. assert (length (strip is_space x) <= length t)%nat as Hlen.
    { subst x. unfold strip. cbn [lstrip]. rewrite Eh, length_rev. destruct (lstrip_suffix is_space (rev (lstrip is_space t))) as (a&Ha).
      apply (f_equal length) in Ha. destruct (lstrip_suffix is_space t) as (b&Hb). apply (f_equal length) in Hb. rewrite length_app in *.
      rewrite length_rev in Ha. lia. }
    rewrite Hs in Hlen. subst x. cbn in Hlen. lia. }
  destruct (rev x) as [|c l] eqn:Er; [|by exists h, t, c, l]. exfalso. subst x. apply (f_equal length) in Er. rewrite length_rev in Er. discriminate Er.
Qed.

Lemma join_stripped l : l <> [] -> Forall stripped l -> stripped (join_with [10] l).
Proof.
  intros Hne Hl. assert (exists h t c k, join_with [10] l = h :: t /\ is_space h = false /\ rev (join_with [10] l) = c :: k /\ is_space c = false)
    as (h&t&c&k&E&Hh&Er&Hc).
  { induction Hl as [|x l Hx Hl IH]; [done|]. destruct (stripped_ends x Hx) as (h&t&c&k&Ex&Hh&Er&Hc). destruct l as [|y l]; [by exists h, t, c, k|].
    destruct (IH ltac:(done)) as (h'&t'&c'&k'&Ey&_&Er'&Hc'). change (join_with [10] (x :: y :: l)) with (x ++ [10] ++ join_with [10] (y :: l)).
    rewrite !rev_app_distr, Er'. subst x. cbn. by eexists h, _, c', _. }
  split; [by rewrite E|]. apply strip_ends; [by rewrite E|by rewrite Er].
Qed.

Section Clients.
Context `{PyRuntime} `{PyCase} {laws : PyCaseLaws}.

(** The first item of a list begins as the list does. *)
Lemma first_item x h t : x = h :: t -> ascii x -> is_space h = false -> is_entry_separator h = false ->
  exists t', (ascii_lower h :: t') ∈ _split_address_values x.
Proof.
  intros -> Ha Hh Hs. assert (exists y ys, split_where is_entry_separator (h :: t) = (h :: y) :: ys) as (y&ys&E).
  { cbn [split_where]. rewrite Hs. destruct (split_where is_entry_separator t) as [|y ys]; by eexists _, _. }
  destruct (strip_cons is_space h y Hh) as (t'&Et). exists (map ascii_lower t'). rewrite split_values_ascii by done.
  apply list_elem_of_fmap. exists (h :: t'). split; [done|]. unfold stripped_parts. rewrite E. cbn [map]. rewrite Et.
  apply list_elem_of_filter. split; [done|by left].
Qed.

(** A list of addresses does not look like a reference. *)
Lemma valid_no_reference x h t : x = h :: t -> ascii x -> is_space h = false -> valid_values x -> ascii_lower h <> 64 /\ ascii_lower h <> 103.
Proof.
  intros E Ha Hh Hv. destruct (is_entry_separator h) eqn:Hs.
  { unfold is_entry_separator in Hs. apply orb_true_iff in Hs. unfold ascii_lower. destruct Hs as [Hs|Hs]; apply Z.eqb_eq in Hs as ->; done. }
  destruct (first_item x h t E Ha Hh Hs) as (t'&Hi). unfold valid_values in Hv. rewrite Forall_forall in Hv.
  destruct (Hv _ Hi) as [Hany|(n&Hn)]; [injection Hany as -> _; done|]. apply ip_network_head in Hn as (c&l&[= -> _]&Hc).
  apply address_char_range in Hc as (_&H1&H2). done.
Qed.

Lemma no_target groups x : stripped x -> ascii x -> valid_values x -> _source_group_reference_target x groups [] = [].
Proof.
  intros Hx Ha Hv. destruct (stripped_ends x Hx) as (h&t&_&_&E&Hh&_). destruct Hx as [_ Hs].
  destruct (valid_no_reference x h t E Ha Hh Hv) as [H1 H2]. unfold _source_group_reference_target. rewrite Hs, (lower_ascii x Ha), E. cbn [map].
  unfold has_prefix. rewrite bool_decide_eq_false_2; [rewrite bool_decide_eq_false_2; [done|]|]; cbn; intros [= Hc].
  - apply H1. subst h. done.
  - by apply H2.
Qed.

(* ------------------------------------------------------------------ *)
(** ** What a group admits *)

(** A group admits an address: it reaches "any", or an entry with a network of the address. *)
Definition admits (groups : GroupsById) (g : Group) (a : Address) : Prop :=
  reaches_any groups g \/
  exists x item n, reaches groups g x /\ item ∈ _split_address_values x /\ ip_network item = Some n /\ in_network a n = true.

Lemma entry_nonempty g e : e ∈ _source_group_entries g [ANY] -> e <> [].
Proof.
  unfold _source_group_entries. intros (v&->&Hv)%list_elem_of_fmap.
  assert (strip is_space v <> []) as Hs.
  { assert (forall w l, w ∈ filter (fun s => s <> []) (map (strip is_space) l) -> strip is_space w <> []) as Hp.
    { intros w l [Hw (y&->&_)%list_elem_of_fmap]%list_elem_of_filter. by rewrite strip_strip. }
    destruct (entry_values (raw_entries g)) as [|w l] eqn:E; [apply list_elem_of_singleton in Hv as ->; done|]. rewrite <- E in Hv.
    destruct (raw_entries g) as [| | | |s|vs|]; cbn [entry_values] in Hv; try (by apply not_elem_of_nil in Hv).
    - by apply Hp in Hv.
    - rewrite <- (map_map py_str (strip is_space)) in Hv. by apply Hp in Hv. }
  unfold normalize_entry. case_bool_decide; [done|]. by destruct (has_prefix _ _).
Qed.

Lemma reaches_stripped groups g x : reaches groups g x -> stripped x.
Proof.
  induction 1 as [g x e He _ ->|g x t _ _ IH]; [|done]. pose proof (strip_entry g e He) as Hs. split; rewrite Hs; [by apply (entry_nonempty g)|done].
Qed.

Lemma reaches_any_text groups g x : reaches groups g x -> py_lower x = ANY -> reaches_any groups g.
Proof.
  induction 1 as [g x e He _ ->|g x t Ht _ IH]; intros Hx; [by apply (any_here groups g e)|]. apply (any_there groups g t); auto.
Qed.

Lemma join_one l x : join_with [10] l = x -> l <> [] -> (10 ∉ x) -> l = [x].
Proof.
  intros <- Hne Hn. destruct l as [|y [|z l]]; [done|done|]. exfalso. apply Hn.
  change (join_with [10] (y :: z :: l)) with (y ++ [10] ++ join_with [10] (z :: l)). rewrite !elem_of_app. right. left. by left.
Qed.

Section Source.
Context (groups : list Group).
Context (Hvalid : validate_firewall_source_groups groups = []) (Hnamed : Forall named groups).
Context (Hids : NoDup (map (fun g => group_field g "id") groups)).

(** The source of a rule that is made from a group matches the addresses it admits. *)
Lemma group_source_admits id g a :
  dict_get id (groups_by_id groups) = Some g -> ascii (strip is_space (source_group_to_rule_source g (groups_by_id groups))) ->
  address_matches (_rule_address_value (source_group_to_rule_source g (groups_by_id groups)) (groups_by_id groups)) a = true <->
  admits (groups_by_id groups) g a.
Proof.
  intros Hg. unfold source_group_to_rule_source, admits. destruct (validated_expands groups Hvalid Hnamed Hids id g Hg) as [[Hany ->]|(Hna&Hne&_&Hx)].
  { intros _. change (join_with [10] [ANY]) with ANY. rewrite rule_address_any. split; [by left|done]. }
  set (r := _expand_source_group_entries g (groups_by_id groups)) in *. destruct r as [|x0 r0] eqn:Er; [done|]. rewrite <- Er in *. clear Er x0 r0.
  assert (Forall (reaches (groups_by_id groups) g) r) as Hr by (apply Forall_forall; intros x; apply Hx).
  assert (stripped (join_with [10] r)) as Hs.
  { apply join_stripped; [done|]. eapply Forall_impl; [exact Hr|]. intros x. apply reaches_stripped. }
  rewrite (proj2 Hs). intros Ha.
  assert (valid_values (join_with [10] r)) as Hv.
  { unfold valid_values. rewrite split_address_values_join. apply Forall_forall. intros item (x&Hxr&Hi)%concat_map_elem.
    pose proof (reaches_valid groups Hvalid Hnamed Hids g x (stored_group groups Hids id g Hg) (proj1 (Hx x) Hxr)) as Hvx.
    unfold valid_values in Hvx. rewrite Forall_forall in Hvx. by apply Hvx. }
  assert (_rule_address_value (join_with [10] r) (groups_by_id groups) = py_lower (join_with [10] r)) as ->.
  { pose proof (no_target (groups_by_id groups) _ Hs Ha Hv) as Ht. unfold _rule_address_value. destruct Hs as [Hne' ->].
    destruct (join_with [10] r); [done|]. by rewrite Ht. }
  unfold address_matches. rewrite split_values_lower, split_address_values_join by done.
  rewrite orb_true_iff, bool_decide_eq_true. unfold in_items. rewrite existsb_exists. split.
  - intros [Eany|(item&Hi&E)].
    + exfalso. apply Hna. assert (r = [join_with [10] r]) as E1.
      { apply (join_one r); [done|done|]. intros Hin. rewrite (lower_ascii _ Ha) in Eany.
        assert (ascii_lower 10 ∈ ANY) as Hten by (rewrite <- Eany; by apply (list_elem_of_fmap_2 ascii_lower)). by revert Hten; apply (bool_decide_unpack _). }
      apply (reaches_any_text _ g (join_with [10] r)); [|done]. apply Hx. rewrite E1 at 2. by left.
    + right. apply list_elem_of_In, concat_map_elem in Hi as (x&Hxr&Hi). destruct (ip_network item) as [n|] eqn:En; [|done].
      exists x, item, n. split_and!; try done. by apply Hx.
  - intros [Hany|(x&item&n&Hxr&Hi&En&E)]; [done|]. right. exists item. rewrite En. split; [|done]. apply list_elem_of_In, concat_map_elem.
    exists x. split; [by apply Hx|done].
Qed.
End Source.
End Clients.
