(* ===== verification/FirewallServicesProps.v ===== *)
(** Which services the rendered firewall opens: a new connection to the appliance is accepted
    exactly when an enabled service listens for it and its Source Group admits the client. *)

From S2P Require Import Prelude Utf8 PyText Json Sha256 IpAddress Networks Trace KeyProviders SourceGroups SourceGroupsProps Firewall.
From S2P Require Import Nftables FirewallText FirewallMeaning FirewallProps FirewallRouting RoutingRules FirewallRoutingProps FirewallServices SourceGroupClients.
Open Scope Z_scope.

Lemma enumerate_elem {A B} (f : Z -> A -> list B) start l y : y ∈ enumerate f start l <-> exists i x, l !! i = Some x /\ y ∈ f (start + Z.of_nat i) x.
Proof.
  revert start. induction l as [|x l IH]; intros start; cbn [enumerate].
  - split; [by intros ?%not_elem_of_nil|]. by intros (i&x&[=]&_).
  - rewrite elem_of_app, IH. split.
    + intros [Hy|(i&z&Hi&Hz)]; [exists O, x; by rewrite Z.add_0_r|]. exists (S i), z. split; [done|].
      by replace (start + Z.of_nat (S i)) with (start + 1 + Z.of_nat i) by lia.
    + intros ([|i]&z&Hi&Hz); [injection Hi as ->; left; by rewrite Z.add_0_r in Hz|]. right. exists i, z. split; [done|].
      by replace (start + 1 + Z.of_nat i) with (start + Z.of_nat (S i)) by lia.
Qed.

Lemma enumerate_all {A B} (P : B -> Prop) (f : Z -> A -> list B) start l :
  (forall i x y, x ∈ l -> y ∈ f i x -> P y) -> forall y, y ∈ enumerate f start l -> P y.
Proof. intros Hf y (i&x&Hx&Hy)%enumerate_elem. apply (Hf (start + Z.of_nat i) x); [by eapply list_elem_of_lookup_2|done]. Qed.

Lemma enumerate_has {A B} (Q : B -> Prop) (f : Z -> A -> list B) start l x :
  x ∈ l -> (forall i, exists y, (y ∈ f i x) /\ Q y) -> exists y, (y ∈ enumerate f start l) /\ Q y.
Proof.
  intros (i&Hi)%list_elem_of_lookup Hf. destruct (Hf (start + Z.of_nat i)) as (y&Hy&HQ). exists y. split; [|done].
  apply enumerate_elem. by exists i, x.
Qed.

Lemma stripped_part p s i : i ∈ stripped_parts p s -> strip is_space i = i.
Proof. intros [_ (x&->&_)%list_elem_of_fmap]%list_elem_of_filter. apply strip_strip. Qed.

Lemma ordered_unique_iff l x : x ∈ ordered_unique [] l <-> x ∈ l.
Proof.
  enough (forall seen, x ∈ ordered_unique seen l <-> (x ∈ l) /\ (x ∉ seen)) as Hg by (rewrite Hg; set_solver).
  induction l as [|y l IH]; intros seen; cbn [ordered_unique]; [set_solver|]. unfold mem. case_bool_decide; rewrite ?elem_of_cons, ?IH; [set_solver|].
  destruct (decide (x = y)); set_solver.
Qed.

Section Exposure.
Context `{PyRuntime} `{PyCase} {laws : PyCaseLaws} `{PyUpper}.
Context (state : ServiceState).

Abbreviation by_id := (groups_by_id (source_groups state)).

(** The Source Group that is assigned to a rule: its own assignment, for the management UI
    of an interface else the one of the management UI, else the built-in group. *)
Inductive assigned_to (rule_name : pystr) : pystr -> Prop :=
| assigned_itself id : dict_get rule_name (source_group_assignments state) = Some id -> assigned_to rule_name id
| assigned_management_ui id :
    dict_get rule_name (source_group_assignments state) = None -> has_prefix (str "management-ui-") rule_name = true ->
    dict_get (str "management-ui") (source_group_assignments state) = Some id -> assigned_to rule_name id
| assigned_default :
    dict_get rule_name (source_group_assignments state) = None ->
    (has_prefix (str "management-ui-") rule_name = true -> dict_get (str "management-ui") (source_group_assignments state) = None) ->
    assigned_to rule_name FIREWALL_ANY_SOURCE_GROUP_ID.

(** The clients of a service: all of them, those of the Source Group that is assigned to a
    rule, or those in the networks of a text. *)
Inductive Clients : Type := Everyone | ClientsOf (rule_name : pystr) | ClientsIn (source : pystr).

(** A client is admitted; the built-in group takes the place of one that was deleted, and
    everyone is admitted where it is missing too. *)
Inductive admitted (a : Address) : Clients -> Prop :=
| admitted_everyone : admitted a Everyone
| admitted_in source : address_matches (_rule_address_value source by_id) a = true -> admitted a (ClientsIn source)
| admitted_group rule_name id g : assigned_to rule_name id -> dict_get id by_id = Some g -> admits by_id g a -> admitted a (ClientsOf rule_name)
| admitted_fallback rule_name id g :
    assigned_to rule_name id -> dict_get id by_id = None -> dict_get FIREWALL_ANY_SOURCE_GROUP_ID by_id = Some g -> admits by_id g a ->
    admitted a (ClientsOf rule_name)
| admitted_missing rule_name id :
    assigned_to rule_name id -> dict_get id by_id = None -> dict_get FIREWALL_ANY_SOURCE_GROUP_ID by_id = None -> admitted a (ClientsOf rule_name).

(** A service that listens on its port on each of its interfaces. *)
Definition listens (settings : ListenerSettings) (interface : pystr) : Prop :=
  listener_enabled settings = true /\ interface ∈ split_interfaces (listen_interface settings).

(** The interfaces of the public service directory. *)
Definition public_interface (interface : pystr) : Prop :=
  (ca_enabled (ca_settings state) = true /\ (interface ∈ ca_interfaces state)) \/ listens (vcf_depot_settings state) interface \/
  listens (vcf_registry_settings state) interface \/ (pxe_enabled state = true /\ (interface ∈ pxe_interfaces state)).

(** The services: [serves interface protocol ports clients] when an enabled service listens on
    the ports of the interface for the clients. *)
Inductive serves : pystr -> string -> pystr -> Clients -> Prop :=
| serves_console i : default (str "eth0") (management_interface state) = i -> i <> [] ->
    serves i "tcp" (str "22,80,443") (ClientsOf (str "mgmt-console"))
| serves_management_ui i : i ∈ access_management_ui_interfaces state -> i ∈ (interface_networks state).*1 ->
    serves i "tcp" (str "22,80,443") (ClientsOf (str "management-ui-" ++ i))
| serves_terminal i : i ∈ web_terminal_interfaces state -> i <> str "eth0" ->
    serves i "tcp" (str "443") (ClientsOf (str "web-terminal-" ++ i))
| serves_dns i protocol : dns_enabled (dns_settings state) = true -> i ∈ stripped_parts is_separator (dns_listen_interface (dns_settings state)) ->
    protocol = "tcp"%string \/ protocol = "udp"%string ->
    serves i protocol (str "53") (ClientsOf (_slug i ++ str "-dns-" ++ str protocol))
| serves_dhcp scope : dhcp_enabled state = true -> scope ∈ dhcp_scopes state -> scope_enabled scope = true ->
    serves (scope_interface_name scope) "udp" (if bool_decide (dhcp_scope_address_family scope = str "ipv6") then str "547" else str "67") Everyone
| serves_ca i : ca_enabled (ca_settings state) = true -> i ∈ ca_interfaces state -> serves i "tcp" (str "80,443") (ClientsOf (str "ca-portal"))
| serves_kms i : listens (kms_settings state) i -> serves i "tcp" (dump_int (listener_port (kms_settings state))) (ClientsOf (str "kms-kmip"))
| serves_ldaps settings i : ldap_settings state = Some settings -> ldap_service_enabled settings = true -> ldaps_enabled settings = true ->
    i ∈ split_interfaces (ldap_listen_interface settings) -> serves i "tcp" (dump_int (ldaps_port settings)) (ClientsOf (str "ldap-ldaps-" ++ i))
| serves_ldap settings i : ldap_settings state = Some settings -> ldap_service_enabled settings = true -> ldap_enabled settings = true ->
    i ∈ split_interfaces (ldap_listen_interface settings) -> serves i "tcp" (dump_int (ldap_port settings)) (ClientsOf (str "ldap-plaintext-" ++ i))
| serves_oidc settings i : oidc_settings state = Some settings -> listens settings i ->
    serves i "tcp" (dump_int (listener_port settings)) (ClientsOf (str "oidc-" ++ i))
| serves_ntp i : ntp_enabled (ntp_settings state) = true -> i ∈ split_interfaces (ntp_listen_interface (ntp_settings state)) ->
    serves i "udp" (dump_int (ntp_port (ntp_settings state))) (ClientsOf (str "ntpd-" ++ i))
| serves_nts i : ntp_enabled (ntp_settings state) = true -> nts_server_enabled (ntp_settings state) = true ->
    i ∈ split_interfaces (ntp_listen_interface (ntp_settings state)) ->
    serves i "tcp" (dump_int (if nts_ke_port (ntp_settings state) =? 0 then 4460 else nts_ke_port (ntp_settings state))) (ClientsOf (str "ntpd-nts-" ++ i))
| serves_backup i : listens (vcf_backup_settings state) i ->
    serves i "tcp" (dump_int (listener_port (vcf_backup_settings state))) (ClientsOf (str "vcf-backups-sftp"))
| serves_public i : public_interface i -> i <> [] -> i ∈ (interface_networks state).*1 -> serves i "tcp" (str "80") (ClientsOf (str "public-services"))
| serves_depot i : listens (vcf_depot_settings state) i ->
    serves i "tcp" (dump_int (listener_port (vcf_depot_settings state))) (ClientsOf (str "vcf-offline-depot"))
| serves_registry i : listens (vcf_registry_settings state) i ->
    serves i "tcp" (dump_int (listener_port (vcf_registry_settings state))) (ClientsOf (str "vcf-private-registry"))
| serves_tftp i : pxe_enabled state = true -> i ∈ pxe_interfaces state -> serves i "udp" (str "69") (ClientsOf (str "esxi-pxe-tftp"))
| serves_pxe i : pxe_enabled state = true -> i ∈ pxe_interfaces state ->
    serves i "tcp" (pxe_text state "http_port" (str "8080")) (ClientsOf (str "esxi-pxe-http"))
| serves_storage spec : spec ∈ esx_storage_rules state -> serves (sr_interface_name spec) "tcp" (sr_ports spec) (ClientsIn (sr_source spec)).

(** The source of the rule of a service. *)
Definition source_text (clients : Clients) : pystr :=
  match clients with
  | Everyone => ANY
  | ClientsOf rule_name => _managed_rule_source rule_name by_id (source_group_assignments state)
  | ClientsIn source => source
  end.

(** A rule opens a service. *)
Definition opens (x : FirewallRule) (interface : pystr) (protocol : string) (ports : pystr) (clients : Clients) : Prop :=
  exists name priority description,
    x = mkFirewallRule [] [] name (str "input") (str "accept") (str protocol) (source_text clients) ANY ports (strip is_space interface) priority true description.

Lemma interface_rule_opens prefix key service protocol ports base index i :
  opens (interface_rule state prefix key service protocol ports base index i) i protocol ports
    (ClientsOf (match key with Some k => str k | None => str prefix ++ i end)).
Proof. by eexists _, _, _. Qed.

(** Every generated rule opens a service. *)
Definition sound (l : list FirewallRule) : Prop :=
  forall x, x ∈ l -> exists i protocol ports source, serves i protocol ports source /\ opens x i protocol ports source.

Lemma sound_app l k : sound l -> sound k -> sound (l ++ k).
Proof. intros Hl Hk x [Hx|Hx]%elem_of_app; auto. Qed.

Lemma sound_nil : sound [].
Proof. by intros x ?%not_elem_of_nil. Qed.

Lemma sound_rule prefix key service protocol ports base index i :
  serves i protocol ports (ClientsOf (match key with Some k => str k | None => str prefix ++ i end)) ->
  sound [interface_rule state prefix key service protocol ports base index i].
Proof. intros Hs x ->%list_elem_of_singleton. eexists _, _, _, _. split; [exact Hs|apply interface_rule_opens]. Qed.

Lemma sound_enumerate {A} (f : Z -> A -> list FirewallRule) start l :
  (forall index i, i ∈ l -> sound (f index i)) -> sound (enumerate f start l).
Proof. intros Hf. unfold sound. eapply enumerate_all. intros index i x Hi Hx. by apply (Hf index i). Qed.

Lemma sound_listener prefix key service base settings :
  (forall i, listens settings i -> serves i "tcp" (dump_int (listener_port settings)) (ClientsOf (match key with Some k => str k | None => str prefix ++ i end))) ->
  sound (listener_rules state prefix key service "tcp" base settings).
Proof.
  intros Hs. unfold listener_rules. destruct (listener_enabled settings) eqn:E; [|apply sound_nil].
  apply sound_enumerate. intros index i Hi. by apply sound_rule, Hs.
Qed.

Lemma known_interface_spec i : known_interface state i = true <-> i ∈ (interface_networks state).*1.
Proof. apply bool_decide_eq_true. Qed.

Lemma public_spec i : i ∈ _ordered_unique (public_service_interfaces state) <-> public_interface i /\ i <> [].
Proof.
  unfold _ordered_unique. rewrite ordered_unique_iff, filter_elem, negb_true_iff, bool_decide_eq_false.
  unfold public_service_interfaces, public_interface, listens. rewrite !elem_of_app.
  destruct (ca_enabled _), (listener_enabled (vcf_depot_settings state)), (listener_enabled (vcf_registry_settings state)), (pxe_enabled state);
    pose proof (not_elem_of_nil i); intuition congruence.
Qed.

Lemma services_sound : sound (managed_service_firewall_rules state).
Proof.
  unfold managed_service_firewall_rules. cbv zeta. repeat apply sound_app.
  - unfold console_rules. destruct (default (str "eth0") (management_interface state)) as [|c t] eqn:E; [apply sound_nil|].
    intros x ->%list_elem_of_singleton. eexists _, _, _, _. split; [by apply serves_console|]. by eexists _, _, _.
  - apply sound_enumerate. intros index i Hi. destruct (known_interface state i) eqn:Ek; [|apply sound_nil].
    apply sound_rule, serves_management_ui; [done|by apply known_interface_spec].
  - apply sound_enumerate. intros index i Hi. destruct (bool_decide_reflect (i = str "eth0")); [apply sound_nil|]. by apply sound_rule, serves_terminal.
  - unfold dns_firewall_rules. destruct (dns_enabled _) eqn:E; [|apply sound_nil]. apply sound_enumerate. intros index i Hi x Hx.
    rewrite !elem_of_cons in Hx. destruct Hx as [->|[->|Hx]]; [..|by apply not_elem_of_nil in Hx].
    + eexists _, _, _, _. split; [apply (serves_dns i "tcp"); auto|]. eexists _, _, _. unfold dns_rule. by rewrite (stripped_part _ _ _ Hi).
    + eexists _, _, _, _. split; [apply (serves_dns i "udp"); auto|]. eexists _, _, _. unfold dns_rule. by rewrite (stripped_part _ _ _ Hi).
  - unfold dhcp_firewall_rules. destruct (dhcp_enabled state) eqn:E; [|apply sound_nil]. apply sound_enumerate.
    intros index scope [Hs He]%filter_elem x ->%list_elem_of_singleton. eexists _, _, _, _. split; [by apply (serves_dhcp scope)|]. by eexists _, _, _.
  - unfold ca_rules. destruct (ca_enabled _) eqn:E; [|apply sound_nil]. apply sound_enumerate. intros index i Hi. by apply sound_rule, serves_ca.
  - apply sound_listener. intros i. apply serves_kms.
  - unfold ldap_rules. destruct (ldap_settings state) as [settings|] eqn:E; [|apply sound_nil]. destruct (ldap_service_enabled settings) eqn:Ee; [|apply sound_nil].
    apply sound_enumerate. intros index i Hi. apply sound_app.
    + destruct (ldaps_enabled settings) eqn:El; [|apply sound_nil]. by apply sound_rule, serves_ldaps.
    + destruct (ldap_enabled settings) eqn:El; [|apply sound_nil]. by apply sound_rule, serves_ldap.
  - unfold oidc_rules. destruct (oidc_settings state) as [settings|] eqn:E; [|apply sound_nil]. apply sound_listener. intros i. by apply serves_oidc.
  - unfold ntp_rules. destruct (ntp_enabled _) eqn:E; [|apply sound_nil]. apply sound_enumerate. intros index i Hi.
    apply (sound_app [_]); [by apply sound_rule, serves_ntp|]. destruct (nts_server_enabled _) eqn:En; [|apply sound_nil]. by apply sound_rule, serves_nts.
  - apply sound_listener. intros i. apply serves_backup.
  - apply sound_enumerate. intros index i [Hp Hne]%public_spec. destruct (known_interface state i) eqn:Ek; [|apply sound_nil].
    apply sound_rule, serves_public; [done|done|by apply known_interface_spec].
  - apply sound_listener. intros i. apply serves_depot.
  - apply sound_listener. intros i. apply serves_registry.
  - unfold pxe_rules. destruct (pxe_enabled state) eqn:E; [|apply sound_nil]. apply sound_enumerate. intros index i Hi.
    apply (sound_app [_]); [by apply sound_rule, serves_tftp|by apply sound_rule, serves_pxe].
  - apply sound_enumerate. intros index spec Hs x ->%list_elem_of_singleton. eexists _, _, _, _. split; [by apply serves_storage|]. by eexists _, _, _.
Qed.

(** Every service has its rule. *)
Definition opened (l : list FirewallRule) (i : pystr) (protocol : string) (ports : pystr) (source : Clients) : Prop :=
  exists x, (x ∈ l) /\ opens x i protocol ports source.

Lemma opened_left l k i protocol ports source : opened l i protocol ports source -> opened (l ++ k) i protocol ports source.
Proof. intros (x&Hx&Ho). exists x. rewrite elem_of_app. auto. Qed.

Lemma opened_right l k i protocol ports source : opened k i protocol ports source -> opened (l ++ k) i protocol ports source.
Proof. intros (x&Hx&Ho). exists x. rewrite elem_of_app. auto. Qed.

Lemma opened_enumerate {A} (f : Z -> A -> list FirewallRule) start l a i protocol ports source :
  a ∈ l -> (forall index, opened (f index a) i protocol ports source) -> opened (enumerate f start l) i protocol ports source.
Proof. intros Ha Hf. by apply (enumerate_has _ f start l a). Qed.

Lemma opened_rule prefix key service protocol ports base index i :
  opened [interface_rule state prefix key service protocol ports base index i] i protocol ports
    (ClientsOf (match key with Some k => str k | None => str prefix ++ i end)).
Proof. eexists. split; [by left|apply interface_rule_opens]. Qed.

Lemma opened_listener prefix key service base settings i : listens settings i ->
  opened (listener_rules state prefix key service "tcp" base settings) i "tcp" (dump_int (listener_port settings))
    (ClientsOf (match key with Some k => str k | None => str prefix ++ i end)).
Proof. intros [He Hi]. unfold listener_rules. rewrite He. apply (opened_enumerate _ _ _ i); [done|]. intros index. apply opened_rule. Qed.

(** The part of the list after [n] others. *)
Local Tactic Notation "part" integer(n) := apply opened_left; do n apply opened_right; try apply opened_left.

Lemma services_complete i protocol ports source : serves i protocol ports source -> opened (managed_service_firewall_rules state) i protocol ports source.
Proof.
  unfold managed_service_firewall_rules. cbv zeta.
  intros [j E Hne|j Hj Hk|j Hj Hne|j pr E Hj Hpr|scope E Hs He|j E Hj|j Hj|settings j E He Hl Hj|settings j E He Hl Hj|settings j E Hj|j E Hj|j E En Hj
    |j Hj|j Hj Hne Hk|j Hj|j Hj|j E Hj|j E Hj|spec Hs].
  - part 0. unfold console_rules. destruct (default (str "eth0") (management_interface state)) as [|c t]; [congruence|]. subst j.
    eexists. split; [by left|]. by eexists _, _, _.
  - part 1. apply (opened_enumerate _ _ _ j); [done|]. intros index. rewrite (proj2 (known_interface_spec j)) by done. apply opened_rule.
  - part 2. apply (opened_enumerate _ _ _ j); [done|]. intros index. rewrite bool_decide_eq_false_2 by done. apply opened_rule.
  - part 3. unfold dns_firewall_rules. rewrite E. apply (opened_enumerate _ _ _ j); [done|]. intros index.
    destruct Hpr as [-> | ->]; [eexists; split; [by left|]|eexists; split; [by right; left|]];
      eexists _, _, _; unfold dns_rule; by rewrite (stripped_part _ _ _ Hj).
  - part 4. unfold dhcp_firewall_rules. rewrite E. apply (opened_enumerate _ _ _ scope); [by apply filter_elem|]. intros index.
    eexists. split; [by left|]. by eexists _, _, _.
  - part 5. unfold ca_rules. rewrite E. apply (opened_enumerate _ _ _ j); [done|]. intros index. apply opened_rule.
  - part 6. by apply opened_listener.
  - part 7. unfold ldap_rules. rewrite E, He, Hl. apply (opened_enumerate _ _ _ j); [done|]. intros index. apply opened_left, opened_rule.
  - part 7. unfold ldap_rules. rewrite E, He, Hl. apply (opened_enumerate _ _ _ j); [done|]. intros index. apply opened_right, opened_rule.
  - part 8. unfold oidc_rules. rewrite E. by apply opened_listener.
  - part 9. unfold ntp_rules. rewrite E. apply (opened_enumerate _ _ _ j); [done|]. intros index. apply (opened_left [_]), opened_rule.
  - part 9. unfold ntp_rules. rewrite E, En. apply (opened_enumerate _ _ _ j); [done|]. intros index. apply (opened_right [_]), opened_rule.
  - part 10. by apply opened_listener.
  - part 11. apply (opened_enumerate _ _ _ j); [by apply public_spec|]. intros index. rewrite (proj2 (known_interface_spec j)) by done. apply opened_rule.
  - part 12. by apply opened_listener.
  - part 13. by apply opened_listener.
  - part 14. unfold pxe_rules. rewrite E. apply (opened_enumerate _ _ _ j); [done|]. intros index. apply (opened_left [_]), opened_rule.
  - part 14. unfold pxe_rules. rewrite E. apply (opened_enumerate _ _ _ j); [done|]. intros index. apply (opened_right [_]), opened_rule.
  - apply opened_right. apply (opened_enumerate _ _ _ spec); [done|]. intros index. eexists. split; [by left|]. by eexists _, _, _.
Qed.

(* ------------------------------------------------------------------ *)
(** ** The decision on new connections *)

(** A packet is for a service: it arrives on its interface, for one of its ports, from a
    client that is admitted.  A blank interface stands for all of them. *)
Definition for_service (p : Packet) : Prop :=
  exists i protocol ports clients, serves i protocol ports clients /\
    (strip is_space i = [] \/ iifname p = strip is_space i) /\ l4proto p = l4_number (str protocol) /\
    (strip is_space ports = [] \/ in_ports (stripped_parts is_separator ports) (dport p) = true) /\
    admitted (saddr p) clients.

Lemma serves_protocol i protocol ports source : serves i protocol ports source -> protocol = "tcp"%string \/ protocol = "udp"%string.
Proof. destruct 1; auto. Qed.

Lemma opens_applies groups p x i pr ports source :
  pr = "tcp"%string \/ pr = "udp"%string -> opens x i pr ports source ->
  rule_applies groups x p = true <->
  (strip is_space i = [] \/ iifname p = strip is_space i) /\ l4proto p = l4_number (str pr) /\
  (strip is_space ports = [] \/ in_ports (stripped_parts is_separator ports) (dport p) = true) /\
  address_matches (_rule_address_value (source_text source) groups) (saddr p) = true.
Proof.
  intros Hpr (name&priority&description&->). unfold rule_applies, interface_matches, port_matches.
  cbn [routing_destination_interface interface_name direction protocol destination_port fr_source destination].
  rewrite strip_strip, rule_address_any. change (address_matches ANY (daddr p)) with true.
  change (bool_decide (str "input" = str "output")) with false. change (bool_decide ([] = [])) with true. cbn [orb andb].
  assert (normal_name (str pr) = str pr) as -> by (destruct Hpr as [-> | ->]; unfold normal_name; apply lower_ascii; by repeat constructor).
  assert (bool_decide (str pr = str "icmp") = false) as -> by by destruct Hpr as [-> | ->].
  assert (mem (str pr) (map str ["tcp"; "udp"]%string) = true) as -> by by destruct Hpr as [-> | ->].
  rewrite !andb_true_iff, !orb_true_iff, !bool_decide_eq_true, Z.eqb_eq. tauto.
Qed.

(** [managed_rule_source_group_id] finds the assigned group. *)
Lemma assigned_id rule_name id : assigned_to rule_name id <-> managed_rule_source_group_id rule_name (source_group_assignments state) = id.
Proof.
  unfold managed_rule_source_group_id. split.
  - intros [id' ->|id' -> -> ->|E Hd]; [done|done|]. rewrite E. destruct (has_prefix _ rule_name); [by rewrite Hd|by rewrite E].
  - intros <-. destruct (dict_get rule_name _) as [id'|] eqn:E; [by apply assigned_itself|]. destruct (has_prefix _ rule_name) eqn:Ep.
    + destruct (dict_get (str "management-ui") _) as [id'|] eqn:Em; [by apply assigned_management_ui|by apply assigned_default].
    + rewrite E. apply assigned_default; [done|]. by rewrite Ep.
Qed.

Section Groups.
Context (Hvalid : validate_firewall_source_groups (source_groups state) = []) (Hnamed : Forall named (source_groups state)).
Context (Hids : NoDup (map (fun g => group_field g "id") (source_groups state))).

Lemma stored_nonempty id g : dict_get id by_id = Some g -> g <> [].
Proof.
  intros Hg%(stored_group _ Hids). rewrite Forall_forall in Hnamed. destruct (Hnamed g Hg) as (name&Hn&_). intros ->. done.
Qed.

(** The source of a service's rule matches the clients that are admitted. *)
Lemma admitted_source a clients : ascii (strip is_space (source_text clients)) ->
  address_matches (_rule_address_value (source_text clients) by_id) a = true <-> admitted a clients.
Proof.
  destruct clients as [|rule_name|source]; cbn [source_text]; intros Ha.
  - rewrite rule_address_any. split; [by constructor|done].
  - unfold _managed_rule_source in *. pose proof (proj2 (assigned_id rule_name _) eq_refl) as Hid.
    assert (forall id, assigned_to rule_name id -> id = managed_rule_source_group_id rule_name (source_group_assignments state)) as Hun
      by (by intros id ->%assigned_id).
    set (id := managed_rule_source_group_id rule_name (source_group_assignments state)) in *.
    destruct (dict_get id by_id) as [[|kv g]|] eqn:Eg; [by apply stored_nonempty in Eg| |].
    + rewrite (group_source_admits _ Hvalid Hnamed Hids id) by done. split; [by apply (admitted_group a rule_name id)|].
      intros Hadm. inversion Hadm as [| |? id' g' Hid' Eg' ?|? id' g' Hid' Eg' ? ?|? id' Hid' Eg' ?]; subst; apply Hun in Hid' as ->; congruence.
    + destruct (dict_get FIREWALL_ANY_SOURCE_GROUP_ID by_id) as [[|kv g]|] eqn:Ed; [by apply stored_nonempty in Ed| |].
      * rewrite (group_source_admits _ Hvalid Hnamed Hids FIREWALL_ANY_SOURCE_GROUP_ID) by done. split; [by apply (admitted_fallback a rule_name id)|].
        intros Hadm. inversion Hadm as [| |? id' g' Hid' Eg' ?|? id' g' Hid' Eg' ? ?|? id' Hid' Eg' ?]; subst; apply Hun in Hid' as ->; congruence.
      * rewrite rule_address_any. split; [by intros _; apply (admitted_missing a rule_name id)|done].
  - split; [by constructor|by inversion 1].
Qed.

Lemma for_service_rule p : (forall x, x ∈ managed_service_firewall_rules state -> ascii (strip is_space (fr_source x))) ->
  for_service p <-> exists x, (x ∈ managed_service_firewall_rules state) /\ rule_applies by_id x p = true.
Proof.
  intros Hascii. assert (forall x i protocol ports clients, x ∈ managed_service_firewall_rules state -> opens x i protocol ports clients ->
    ascii (strip is_space (source_text clients))) as Hopens.
  { intros x i protocol ports clients Hx%Hascii (name&priority&description&->). exact Hx. }
  split.
  - intros (i&protocol&ports&clients&Hs&Q1&Q2&Q3&Hadm). destruct (services_complete _ _ _ _ Hs) as (x&Hx&Ho). exists x. split; [done|].
    apply (opens_applies by_id p x i protocol ports clients); [by eapply serves_protocol|done|]. split_and!; try done. apply admitted_source; [by eapply Hopens|done].
  - intros (x&Hx&Ha). destruct (services_sound x Hx) as (i&protocol&ports&clients&Hs&Ho). exists i, protocol, ports, clients. split; [done|].
    destruct (proj1 (opens_applies by_id p x i protocol ports clients (serves_protocol _ _ _ _ Hs) Ho) Ha) as (Q1&Q2&Q3&Hadm). split_and!; try done.
    apply admitted_source; [by eapply Hopens|done].
Qed.

Lemma for_service_decided p : (forall x, x ∈ managed_service_firewall_rules state -> ascii (strip is_space (fr_source x))) ->
  for_service p \/ ~ for_service p.
Proof.
  intros Hascii. rewrite (for_service_rule p Hascii).
  destruct (existsb (fun x => rule_applies by_id x p) (managed_service_firewall_rules state)) eqn:E; [left|right].
  - apply existsb_exists in E as (x&Hx&Ha). exists x. by rewrite list_elem_of_In.
  - intros (x&Hx&Ha). apply not_true_iff_false in E. apply E, existsb_exists. exists x. by rewrite <- list_elem_of_In.
Qed.

Lemma service_rule_shape x : x ∈ managed_service_firewall_rules state ->
  action x = str "accept" /\ in_chain (str "input") x = true /\ in_prelude x = false.
Proof. intros (i&protocol&ports&source&_&name&priority&description&->)%services_sound. done. Qed.

Lemma services_decide settings rules rest replace cidr policy p :
  let effective := effective_firewall_rules rules (managed_service_firewall_rules state ++ rest) replace in
  replace_service replace = true -> ct_established p = false -> mem (l4proto p) [1; 58] = false -> iifname p <> str "lo" ->
  (forall x, x ∈ rules ++ rest -> in_chain (str "input") x = true -> rule_applies by_id x p = false) ->
  (forall x, x ∈ managed_service_firewall_rules state -> ascii (strip is_space (fr_source x))) ->
  (for_service p -> decision settings effective by_id (replace_service replace) cidr (str "input") policy p = str "accept") /\
  (~ for_service p -> decision settings effective by_id (replace_service replace) cidr (str "input") policy p = policy).
Proof.
  intros effective Hr Hest Hicmp Hlo Hops Hascii. unfold decision. rewrite Hr, Hest, Hicmp, (bool_decide_eq_false_2 _ Hlo). cbn [negb]. rewrite !andb_false_r. cbn [orb andb].
  assert (forall x, x ∈ effective -> in_chain (str "input") x = true -> rule_applies by_id x p = true -> x ∈ managed_service_firewall_rules state) as Heff.
  { intros x Hx Hc Ha. apply effective_sub in Hx. rewrite elem_of_app in Hx. destruct Hx as [Hx|[Hx|Hx]]; [|done|];
      rewrite Hops in Ha; try done; rewrite elem_of_app; auto. }
  assert (first_action (prelude_applies by_id p) (prelude_rules (str "input") effective) = fun otherwise => otherwise) as Hpre.
  { unfold first_action. destruct (List.find _ _) as [x|] eqn:E; [|done]. exfalso. apply find_some in E as [Hx Ha].
    rewrite <- list_elem_of_In in Hx. unfold prelude_rules in Hx. rewrite sort_elem, !filter_elem in Hx. destruct Hx as [[Hx Hc] Hp].
    apply andb_true_iff in Ha as [Ha _]. apply Heff, service_rule_shape in Hx as (_&_&Hpx); [congruence|done|done]. }
  rewrite Hpre. split.
  - intros (x&Hx&Ha)%for_service_rule; [|done]. apply first_action_all.
    + intros y Hy Hay. unfold other_rules in Hy. rewrite sort_elem, !filter_elem in Hy. destruct Hy as [[Hy Hc] _].
      by apply Heff, service_rule_shape in Hy as (->&_).
    + exists x. split; [|done]. unfold other_rules. rewrite sort_elem, !filter_elem, negb_true_iff. apply service_rule_shape in Hx as Hsh.
      split_and!; [|apply Hsh..]. apply effective_generated. rewrite elem_of_app. by left.
  - intros Hn. unfold first_action. destruct (List.find _ _) as [x|] eqn:E; [|done]. exfalso. apply find_some in E as [Hx Ha].
    rewrite <- list_elem_of_In in Hx. unfold other_rules in Hx. rewrite sort_elem, !filter_elem in Hx. destruct Hx as [[Hx Hc] _].
    apply Hn, for_service_rule; [done|]. exists x. split; [by apply Heff|done].
Qed.

(** C11.  In the rendered firewall, whose input policy is the one of the settings, a new
    connection to the appliance is accepted exactly when it is for an enabled service, or
    when the policy accepts everything: it arrives on an interface that the service listens
    on, for its protocol and port, from a client that the service admits, which is one in a
    network that the Source Group assigned to the service reaches (everyone, if it reaches
    "any").  This is about valid firewall states with replaced service rules, and about
    packets other than ICMP, not from the loopback interface, and which no other rule of the
    input chain is about. *)
Theorem services_exposed settings rules rest replace management_cidr settings_cidr p :
  let cidr := match management_cidr with [] => settings_cidr | _ => management_cidr end in
  let generated := managed_service_firewall_rules state ++ rest in
  let effective := effective_firewall_rules rules generated replace in
  let chains := chain_statements settings effective by_id (replace_service replace) cidr in
  validate_firewall_state settings rules generated (source_groups state) replace = Ok [] -> fs_enabled settings = true ->
  replace_service replace = true ->
  Forall (fun rule => proper_address by_id (fr_source rule) /\ proper_address by_id (destination rule)) effective ->
  family (saddr p) = family (daddr p) -> ct_established p = false -> mem (l4proto p) [1; 58] = false -> iifname p <> str "lo" ->
  (forall rule, rule ∈ rules ++ rest -> in_chain (str "input") rule = true -> rule_applies by_id rule p = false) ->
  render_nftables_config settings rules generated (source_groups state) replace management_cidr settings_cidr = Ok (print_table settings chains) /\
  (decide_chain (chains (str "input")) (default_input_policy settings) p = str "accept" <->
   for_service p \/ default_input_policy settings = str "accept").
Proof.
  intros cidr generated effective chains Hv He Hr Hp Hfam Hest Hicmp Hlo Hops.
  destruct (firewall_rendered settings rules generated (source_groups state) replace management_cidr settings_cidr) as [Hren Hdec];
    [done|done|by left|done|]. split; [exact Hren|]. fold cidr effective chains in Hdec. rewrite Hdec by done.
  assert (forall x, x ∈ managed_service_firewall_rules state -> ascii (strip is_space (fr_source x))) as Hascii.
  { intros x Hx. rewrite Forall_forall in Hp. apply (Hp x), effective_generated, elem_of_app. by left. }
  destruct (services_decide settings rules rest replace cidr (default_input_policy settings) p Hr Hest Hicmp Hlo Hops Hascii) as [Hyes Hno].
  unfold effective, generated. destruct (for_service_decided p Hascii) as [Hs|Hs]; [rewrite (Hyes Hs)|rewrite (Hno Hs)]; tauto.
Qed.
End Groups.
End Exposure.

(* ------------------------------------------------------------------ *)
(** ** Instances *)

#[local] Existing Instance plain_runtime.
#[local] Existing Instance ascii_case.
#[local] Existing Instance ascii_case_laws.

Definition plain_upper : PyUpper := {| py_upper s := s |}.
#[local] Existing Instance plain_upper.

(** The key service on one interface, for the clients of a Source Group. *)
Definition no_listener : ListenerSettings := mkListenerSettings false [] 0.
Definition sample_state : ServiceState :=
  mkServiceState (mkDnsSettings false []) false [] (mkCaSettings false []) None (mkListenerSettings true (str "eth1") 5696)
    (mkNtpSettings false [] 123 false 4460) no_listener no_listener no_listener [] [(str "eth1", [str "10.1.0.0/24"])] sample_groups
    [(str "kms-kmip", str "lab")] [] None None [] (Some []) [].
Definition service_packet (source port : Z) : Packet :=
  mkPacket (str "eth1") [] (mkAddress V4 source) (mkAddress V4 0x0a010001) 6 port false false 0.
Definition service_chains : pystr -> list Statement :=
  chain_statements sample_settings (effective_firewall_rules [] (managed_service_firewall_rules sample_state ++ []) (mkReplace false false true))
    (groups_by_id sample_groups) true (str "192.0.2.0/24").

(** [services_exposed] at a client in a network that the Source Group of the key service
    reaches, and at one outside. *)
Lemma services_exposed_witness :
  decide_chain (service_chains (str "input")) (str "drop") (service_packet 0x0a010007 5696) = str "accept" /\
  ~ for_service sample_state (service_packet 0xc6336407 5696).
Proof.
  assert (forall source, decide_chain (service_chains (str "input")) (str "drop") (service_packet source 5696) = str "accept" <->
    for_service sample_state (service_packet source 5696) \/ str "drop" = str "accept") as Hexposed.
  { intros source. refine (proj2 (services_exposed sample_state _ _ _ sample_settings [] [] (mkReplace false false true) [] (str "192.0.2.0/24")
      (service_packet source 5696) _ _ _ _ _ _ _ _ _)).
    - vm_compute. reflexivity.
    - repeat constructor; eexists; (split; [vm_compute; reflexivity|vm_compute; discriminate]).
    - computed.
    - vm_compute. reflexivity.
    - reflexivity.
    - reflexivity.
    - constructor; [|constructor]. split; (split; [computed|split; [computed|]]).
      + right. split; [vm_compute; discriminate|computed].
      + left. vm_compute. reflexivity.
    - reflexivity.
    - reflexivity.
    - reflexivity.
    - vm_compute. discriminate.
    - intros rule Hr. by apply not_elem_of_nil in Hr. }
  split.
  - apply Hexposed. left. exists (str "eth1"), "tcp"%string, (dump_int 5696), (ClientsOf (str "kms-kmip")).
    split; [apply (serves_kms sample_state (str "eth1")); split; [reflexivity|computed]|].
    split; [right; vm_compute; reflexivity|]. split; [reflexivity|]. split; [right; vm_compute; reflexivity|].
    apply (admitted_group sample_state _ _ (str "lab") lab_group); [apply assigned_itself; vm_compute; reflexivity|vm_compute; reflexivity|].
    right. eexists (str "10.0.0.0/8"), (str "10.0.0.0/8"), _. split_and!; [|computed|vm_compute; reflexivity|vm_compute; reflexivity].
    apply (there _ _ _ (str "dc")).
    + exists (str "group:dc"). split_and!; [computed|vm_compute; reflexivity|vm_compute; discriminate].
    + apply (here _ _ _ (str "10.0.0.0/8")); [computed|vm_compute; reflexivity|vm_compute; reflexivity].
  - intros Hs. assert (decide_chain (service_chains (str "input")) (str "drop") (service_packet 0xc6336407 5696) = str "drop") as E by (vm_compute; reflexivity).
    rewrite (proj2 (Hexposed 0xc6336407) (or_introl Hs)) in E. discriminate E.
Defined.

(** Two DHCP scopes whose names have the same slug get rules of one name, which validation
    reports as duplicated. *)
Example scope_slugs_collide :
  let scope name := mkDhcpScope (str name) (str "ipv4") (str "eth1") (str "10.1.0.1") true in
  let rules := dhcp_firewall_rules true [scope "Lab A"%string; scope "lab-a"%string] in
  validate_firewall_state sample_settings [] rules [] (mkReplace false false true) = Ok [str "Firewall rule lab-a-dns-dhcp is duplicated."].
Proof. vm_compute. reflexivity. Qed.
