(* ===== verification/RoutingPermissionsProps.v ===== *)
(** What the rows of routing permissions show is what the rendered firewall does. *)

From S2P Require Import Prelude Utf8 PyText Json Sha256 IpAddress Networks IpRoundtrip Trace SourceGroups SourceGroupsProps Firewall.
From S2P Require Import Nftables FirewallText FirewallMeaning FirewallProps FirewallRouting RoutingRules FirewallRoutingProps RoutingPermissions.
Open Scope Z_scope.

(* ------------------------------------------------------------------ *)
(** ** Addresses and networks of interfaces *)

Lemma ipv4_str_nonempty n : ipv4_str n <> [].
Proof. intros E. pose proof (ipv4_str_dot n) as Hd. rewrite E in Hd. by apply not_elem_of_nil in Hd. Qed.

Lemma interface_of_network f s :
  match interface_of f s with Some text => text <> [] /\ is_Some (network_of false f s) | None => network_of false f s = None end.
Proof.
  unfold interface_of, network_of. pose proof (split_on_no 47 s) as Hno.
  destruct (match split_on 47 s with [a] => Some (a, None) | [a; m] => Some (a, Some m) | _ => None end) as [[a mask]|] eqn:E; [|done].
  assert (47 ∉ a) as Ha by (destruct (split_on 47 s) as [|? [|? [|]]]; try done; injection E as <- _; apply Hno; by left).
  cbn [mbind option_bind]. destruct (address_of f a) as [[n scope]|] eqn:En; [|done]. cbn [mbind option_bind].
  destruct (match mask with Some m => make_netmask f m | None => Some (width f) end); [|done]. cbn [mbind option_bind].
  split; [|by destruct (_ =? _); eexists]. destruct f; [apply ipv4_str_nonempty|]. apply address_of_spec in En as [Hn _]; [|done].
  intros E'. pose proof (ipv6_str_colon n Hn) as Hc. rewrite E' in Hc. by apply not_elem_of_nil in Hc.
Qed.

Lemma configured_address_network cidr : _configured_address cidr = [] <-> (cidr ≫= ip_network) = None.
Proof.
  destruct cidr as [[|c t]|]; [done| |done]. unfold _configured_address, ip_interface_ip. cbn [mbind option_bind].
  unfold ip_network. pose proof (interface_of_network V4 (c :: t)) as H4. pose proof (interface_of_network V6 (c :: t)) as H6.
  destruct (interface_of V4 (c :: t)) as [s|]; cbn [default].
  - destruct H4 as [Hs (n&->)]. done.
  - rewrite H4. destruct (interface_of V6 (c :: t)) as [s|]; cbn [default]; [|by rewrite H6]. destruct H6 as [Hs (n&->)]. done.
Qed.

Section Rows.
Context `{PyRuntime} `{PyCase} {laws : PyCaseLaws}.

Lemma cidr_networks_spec family value s : s ∈ cidr_networks family (default [] value) <->
  exists n, (value ≫= ip_network) = Some n /\ s = network_str n /\ (family = 0 \/ family = family_number (version n)).
Proof.
  destruct value as [[|c t]|]; cbn [default]; [| |split; [by intros ?%not_elem_of_nil|by intros (n&[=]&_)]].
  { split; [by intros ?%not_elem_of_nil|]. intros (n&Hn&_). by vm_compute in Hn. }
  unfold cidr_networks. cbn [mbind option_bind id]. destruct (ip_network (c :: t)) as [n|].
  - destruct ((family =? 0) || (family_number (version n) =? family)) eqn:E.
    + rewrite list_elem_of_singleton. apply covers in E. split; [intros ->; by exists n|]. by intros (m&[= <-]&->&_).
    + split; [by intros ?%not_elem_of_nil|]. intros (m&[= <-]&_&Hf). apply covers in Hf. congruence.
  - split; [by intros ?%not_elem_of_nil|]. by intros (n&[=]&_).
Qed.

(** The two views of a target. *)
Definition same_target (t : Target) (u : PermissionTarget) : Prop :=
  t_name t = pt_name u /\ t_role t = pt_role u /\ forall family s, s ∈ target_networks u family <-> s ∈ family_networks family (networks t).

Lemma ver_network_str n : network_wf n -> ver (network_str n) = version n.
Proof. intros Hn. unfold ver. by rewrite ip_network_strict_str. Qed.

Lemma family_networks_elem family l s : s ∈ family_networks family l <-> (s ∈ l) /\ (family = 0 \/ family = family_number (ver s)).
Proof.
  unfold family_networks. destruct (Z.eqb_spec family 0) as [->|Hf]; [naive_solver|]. rewrite filter_elem, Z.eqb_eq. naive_solver.
Qed.

Lemma target_networks_spec ip_cidr ipv6_cidr u : pt_ip_cidr u = default [] ip_cidr -> pt_ipv6_cidr u = default [] ipv6_cidr ->
  forall family s, s ∈ target_networks u family <-> s ∈ family_networks family (_networks_from_cidrs [ip_cidr; ipv6_cidr]).
Proof.
  intros E4 E6 family s. unfold target_networks. rewrite E4, E6, elem_of_app, !cidr_networks_spec, family_networks_elem, networks_from_cidrs_elem. split.
  - intros [(n&Hn&->&Hf)|(n&Hn&->&Hf)]; (split; [eexists _, n; split; [|done]|rewrite ver_network_str; [done|]]);
      try (by left); try (by right; left); [destruct ip_cidr; [|done]|destruct ipv6_cidr; [|done]]; by eapply ip_network_wf.
  - intros [(v&n&Hv&Hn&->) Hf]. rewrite ver_network_str in Hf by (destruct v; [|done]; by eapply ip_network_wf).
    rewrite !elem_of_cons in Hv. destruct Hv as [->|[->|Hv]]; [left|right|by apply not_elem_of_nil in Hv]; by exists n.
Qed.

Lemma networks_nil ip_cidr ipv6_cidr : _networks_from_cidrs [ip_cidr; ipv6_cidr] = [] <->
  List.filter (fun address => negb (bool_decide (address = []))) (map _configured_address [ip_cidr; ipv6_cidr]) = [].
Proof.
  assert (_networks_from_cidrs [ip_cidr; ipv6_cidr] = [] <-> (ip_cidr ≫= ip_network) = None /\ (ipv6_cidr ≫= ip_network) = None) as ->.
  { split.
    - intros E. assert (forall v n, v ∈ [ip_cidr; ipv6_cidr] -> (v ≫= ip_network) = Some n -> False) as Hn.
      { intros v n Hv Hn. assert (network_str n ∈ _networks_from_cidrs [ip_cidr; ipv6_cidr]) as Hin by (apply networks_from_cidrs_elem; eauto).
        rewrite E in Hin. by apply not_elem_of_nil in Hin. }
      split; [destruct (ip_cidr ≫= ip_network) as [n|] eqn:En|destruct (ipv6_cidr ≫= ip_network) as [n|] eqn:En]; [|done| |done];
        exfalso; eapply Hn; [|exact En| |exact En]; [by left|by right; left].
    - intros [E4 E6]. unfold _networks_from_cidrs. cbn [fold_left]. unfold add_network. rewrite !network_from_cidr_eq, E4, E6. done. }
  rewrite <- !configured_address_network. cbn [map List.filter].
  destruct (bool_decide_reflect (_configured_address ip_cidr = [])), (bool_decide_reflect (_configured_address ipv6_cidr = [])); cbn; intuition congruence.
Qed.

Lemma target_match name role ip_cidr ipv6_cidr :
  Forall2 same_target (target name role ip_cidr ipv6_cidr) (permission_target name role ip_cidr ipv6_cidr).
Proof.
  unfold target, permission_target. pose proof (networks_nil ip_cidr ipv6_cidr) as Hn.
  destruct (_networks_from_cidrs [ip_cidr; ipv6_cidr]) as [|s l] eqn:E.
  - rewrite (proj1 Hn eq_refl). constructor.
  - destruct (List.filter _ _) as [|a addresses]; [by discriminate (proj2 Hn eq_refl)|]. constructor; [|constructor]. split; [done|]. split; [done|].
    cbn [networks]. rewrite <- E. by apply target_networks_spec.
Qed.

Lemma Forall2_concat_map {A B C} (P : B -> C -> Prop) (f : A -> list B) (g : A -> list C) l :
  (forall x, Forall2 P (f x) (g x)) -> Forall2 P (concat (map f l)) (concat (map g l)).
Proof. intros Hf. induction l as [|x l IH]; cbn; [constructor|by apply Forall2_app]. Qed.

Lemma targets_match interfaces vlans : Forall2 same_target (routing_firewall_targets interfaces vlans) (routing_permission_targets interfaces vlans).
Proof.
  unfold routing_firewall_targets, routing_permission_targets. apply Forall2_app; apply Forall2_concat_map.
  - intros i. unfold interface_target, interface_permission_target. destruct (_ || _); [constructor|apply target_match].
  - intros v. unfold vlan_target, vlan_permission_target. destruct (vi_enabled v); [apply target_match|constructor].
Qed.

Section State.
Context (interfaces : list PhysicalInterface) (vlans : list VlanInterface) (routing_rules : list RoutingRule).
Context (Hnames : NoDup (map pi_name interfaces ++ map vi_name vlans)).
Let T := routing_firewall_targets interfaces vlans.
Let PT := routing_permission_targets interfaces vlans.

Lemma permission_names : map pt_name PT = map t_name T.
Proof. pose proof (targets_match interfaces vlans) as Hm. fold T PT in Hm. induction Hm as [|t u l k (E&_) _ IH]; cbn; [done|]. by rewrite IH, E. Qed.

Lemma permission_pairs : NoDup (map (fun t => (pt_name t, t)) PT).*1.
Proof. rewrite <- list_fmap_compose. change (NoDup (map pt_name PT)). rewrite permission_names. by apply (target_names_NoDup _ _ Hnames). Qed.

Lemma permission_lookup t : t ∈ T -> exists u, dict_get (t_name t) (targets_by_name PT) = Some u /\ same_target t u.
Proof.
  intros Ht. pose proof (targets_match interfaces vlans) as Hm. fold T PT in Hm. apply list_elem_of_lookup in Ht as (i&Hi).
  destruct (Forall2_lookup_l _ _ _ _ _ Hm Hi) as (u&Hu&Hs). exists u. split; [|done].
  unfold targets_by_name. rewrite dict_of_NoDup by apply permission_pairs. destruct Hs as [-> _]. apply dict_get_elem; [apply permission_pairs|].
  apply list_elem_of_fmap. exists u. split; [done|]. by eapply list_elem_of_lookup_2.
Qed.

(** Every enabled permission is valid. *)
Context (Hvalid : Forall (fun rule => rr_enabled rule = true -> validate_routing_permission rule PT [] = Ok []) routing_rules).

Lemma active_permits active A B f policy : active_policies PT routing_rules = Ok active ->
  (A, B, family_number f, str policy) ∈ active <-> permits routing_rules policy A B f.
Proof.
  intros Ha. rewrite (res_concat_elem _ _ _ _ Ha). unfold permits. split.
  - intros (rule&l&Hr&Hl&Hin). unfold active_policy in Hl. destruct (rr_enabled rule) eqn:He; cbn [negb] in Hl; [|injection Hl as <-; by apply not_elem_of_nil in Hin].
    rewrite Forall_forall in Hvalid. rewrite (Hvalid rule Hr He) in Hl. injection Hl as <-. exists rule. split; [done|]. split; [done|].
    apply list_elem_of_fmap in Hin as (v&[= -> -> -> ->]&Hv). split_and!; [done..|]. unfold routing_family, rule_family in *.
    destruct (default 0 (rr_ip_family rule) =? 0) eqn:E; [left; by apply Z.eqb_eq|right; by apply list_elem_of_singleton in Hv].
  - intros (rule&Hr&He&Hp&<-&<-&Hf). exists rule. rewrite Forall_forall in Hvalid. unfold active_policy. rewrite He, (Hvalid rule Hr He). cbn [negb mbind res_bind].
    eexists. split; [done|]. split; [done|]. apply list_elem_of_fmap. exists (family_number f). unfold routing_policy. unfold rule_policy in Hp. rewrite Hp. split; [done|].
    unfold routing_family, rule_family in *. destruct (Z.eqb_spec (default 0 (rr_ip_family rule)) 0) as [E|E]; [destruct f; cbn; set_solver|].
    destruct Hf as [Hf|Hf]; [done|]. rewrite Hf. by left.
Qed.

Lemma row_action rows row f action : routing_permission_rows PT routing_rules true = Ok rows -> row ∈ rows ->
  (f, action) ∈ family_effective_actions row ->
  exists active, active_policies PT routing_rules = Ok active /\
    let A := row_source_interface (row_candidate row) in let B := row_destination_interface (row_candidate row) in
    action = family_action active A B (dict_get A (targets_by_name PT)) (dict_get B (targets_by_name PT)) f.
Proof.
  intros Hrows Hrow Ha. unfold routing_permission_rows in Hrows. apply bind_Ok in Hrows as (active&Hac&Hrows). exists active. split; [done|].
  apply res_mapM_Ok in Hrows. apply list_elem_of_lookup in Hrow as (i&Hi). destruct (Forall2_lookup_r _ _ _ _ _ Hrows Hi) as (c&_&Hc).
  unfold permission_row in Hc. apply bind_Ok in Hc as (dn&_&Hc). apply bind_Ok in Hc as (common&_&Hc). injection Hc as <-.
  cbn [family_effective_actions row_candidate] in *. by apply list_elem_of_fmap in Ha as (g&[= -> ->]&_).
Qed.

Lemma family_action_cases active A B source destination f :
  let action := family_action active A B source destination f in
  action = str "explicit deny" \/ action = str "explicit allow" \/ action = str "automatic allow" \/ action = str "automatic deny".
Proof. cbv zeta. unfold family_action. by repeat case_match; auto. Qed.

(** What an action says about the permissions. *)
Lemma action_meaning active A B f s d : active_policies PT routing_rules = Ok active -> s ∈ T -> d ∈ T -> t_name s = A -> t_name d = B ->
  let action := family_action active A B (dict_get A (targets_by_name PT)) (dict_get B (targets_by_name PT)) f in
  let both_route := t_role s = str "route" /\ t_role d = str "route" /\ A <> B in
  (action = str "explicit deny" <-> permits routing_rules "deny" A B f) /\
  (action = str "explicit allow" -> ~ permits routing_rules "deny" A B f /\ permits routing_rules "allow" A B f) /\
  (action = str "automatic allow" -> ~ permits routing_rules "deny" A B f /\ both_route) /\
  (action = str "automatic deny" -> ~ permits routing_rules "allow" A B f /\ ~ both_route).
Proof.
  intros Ha Hs Hd <- <-. cbv zeta. destruct (permission_lookup s Hs) as (u&Hu&_&Hur&_). destruct (permission_lookup d Hd) as (v&Hv&_&Hvr&_).
  rewrite Hu, Hv, Hur, Hvr. rewrite <- !(active_permits active) by done. unfold family_action, mem. cbn [fmap option_fmap option_map].
  destruct (bool_decide_reflect ((t_name s, t_name d, family_number f, str "deny") ∈ active)); [split_and!; [done|discriminate..]|].
  destruct (bool_decide_reflect ((t_name s, t_name d, family_number f, str "allow") ∈ active)); [split_and!; [split; [discriminate|done]|done|discriminate..]|].
  destruct (bool_decide_reflect (t_name s = t_name d)), (bool_decide_reflect (Some (pt_role u) = Some (str "route"))),
    (bool_decide_reflect (Some (pt_role v) = Some (str "route"))); cbn [negb andb];
    (split_and!; [split; [discriminate|done]|discriminate| |]); try discriminate; intros _; intuition congruence.
Qed.

(** The rows are computed. *)
Context (Hscope : unscoped_all interfaces vlans).

Lemma permission_texts name u family : dict_get name (targets_by_name PT) = Some u -> Forall network_text (target_networks u family).
Proof.
  intros Hu. apply dict_get_In in Hu. unfold targets_by_name in Hu. rewrite dict_of_NoDup in Hu by apply permission_pairs.
  apply list_elem_of_fmap in Hu as (w&[= _ ->]&Hw). pose proof (targets_match interfaces vlans) as Hm. fold T PT in Hm.
  apply list_elem_of_lookup in Hw as (i&Hi). destruct (Forall2_lookup_r _ _ _ _ _ Hm Hi) as (t&Ht&_&_&Hs).
  apply Forall_forall. intros s Hin. apply Hs, family_networks_elem in Hin as [Hin _]. revert s Hin. apply Forall_forall, to_texts, (T_ok _ _ Hscope).
  by eapply list_elem_of_lookup_2.
Qed.

Lemma rows_computed : exists rows, routing_permission_rows PT routing_rules true = Ok rows.
Proof.
  unfold routing_permission_rows. destruct (active_policies PT routing_rules) as [active|e] eqn:Ha.
  - cbn [mbind res_bind]. destruct (mapM _ _) as [rows|e] eqn:Hr; [by eexists|]. apply res_mapM_Raise in Hr as (row&_&Hr). unfold permission_row in Hr.
    set (at_ name := match dict_get name (targets_by_name PT) with Some t => target_networks t (row_ip_family row) | None => [] end).
    assert (forall name, Forall network_text (at_ name)) as Hat.
    { intros name. unfold at_. destruct (dict_get name (targets_by_name PT)) eqn:E; [by eapply permission_texts|constructor]. }
    fold (at_ (row_source_interface row)) in Hr. fold (at_ (row_destination_interface row)) in Hr. unfold common_versions in Hr.
    destruct (bool_decide _).
    + rewrite versions_ok in Hr by apply Hat. cbn [mbind res_bind] in Hr. rewrite common_ok in Hr; [done|apply Hat|].
      apply Forall_map, Forall_forall. intros f _. apply everywhere_text.
    + cbn [mbind res_bind] in Hr. rewrite common_ok in Hr; [done|apply Hat..].
  - unfold active_policies, res_concat in Ha. destruct (mapM _ _) as [|e'] eqn:Hr; [done|]. apply res_mapM_Raise in Hr as (rule&Hin&Hr).
    rewrite Forall_forall in Hvalid. unfold active_policy in Hr. destruct (rr_enabled rule) eqn:E; [|done]. by rewrite (Hvalid rule Hin E) in Hr.
Qed.
End State.

(* ------------------------------------------------------------------ *)
(** ** Rows and packets *)

Section Enforced.
Context (settings : FirewallSettings) (rules others : list FirewallRule) (groups : list Group) (replace : Replace).
Context (management_cidr settings_cidr : pystr).
Context (interfaces : list PhysicalInterface) (vlans : list VlanInterface) (routing_rules : list RoutingRule) (managed : list FirewallRule).

Let cidr := match management_cidr with [] => settings_cidr | _ => management_cidr end.
Let chains := chain_statements settings (effective_firewall_rules rules (others ++ managed) replace) (groups_by_id groups) (replace_service replace) cidr.
Let PT := routing_permission_targets interfaces vlans.

(** A packet that goes the way a row describes, between interfaces that may have permissions. *)
Record travels (row : Row) (p : Packet) (source_role destination_role : pystr) : Prop := {
  tr_families : family (saddr p) = family (daddr p);
  tr_range : 0 <= value (daddr p) < 2 ^ width (family (daddr p));
  tr_iif : iifname p = row_source_interface (row_candidate row);
  tr_oif : oifname p = row_destination_interface (row_candidate row);
  tr_source : connected interfaces vlans (iifname p) source_role (saddr p);
  tr_destination : iifname p <> oifname p -> connected interfaces vlans (oifname p) destination_role (daddr p);
  tr_same : iifname p = oifname p -> destination_role = source_role;
  tr_source_role : permission_role source_role;
  tr_destination_role : permission_role destination_role
}.

(** C12.  The actions that the rows of routing permissions show are those of the rendered
    firewall.  With routing enabled and enabled permissions that are valid, the rows are
    computed; a packet that goes the way a row describes, in a family for which the row
    shows an action, is dropped when the action is a denial (on one interface a managed
    translation is spared by an automatic one), and accepted when it is an allowance,
    unless a forward rule of the operator or of a service speaks about it or its destination
    is on a management network. *)
Theorem displayed_permissions_enforced :
  forwarding settings rules others groups replace management_cidr settings_cidr interfaces vlans routing_rules true managed ->
  NoDup (map pi_name interfaces ++ map vi_name vlans) ->
  Forall (fun name => strip is_space name = name /\ name <> []) (map pi_name interfaces ++ map vi_name vlans) ->
  Forall (fun rule => rr_enabled rule = true -> validate_routing_permission rule PT [] = Ok []) routing_rules ->
  exists rows, routing_permission_rows PT routing_rules true = Ok rows /\
  forall row action p source_role destination_role policy,
    row ∈ rows -> (family (saddr p), action) ∈ family_effective_actions row -> travels row p source_role destination_role ->
    let decided := decide_chain (chains (str "forward")) policy p in
    (action = str "explicit deny" /\ decided = str "drop") \/
    (action = str "automatic deny" /\ ((iifname p = oifname p -> managed_dnat p = false) -> decided = str "drop")) \/
    ((action = str "explicit allow" \/ action = str "automatic allow") /\
     ((forall name, ~ connected interfaces vlans name (str "management") (daddr p)) ->
      (forall rule, rule ∈ rules ++ others -> in_chain (str "forward") rule = true -> rule_applies (groups_by_id groups) rule p = false) ->
      decided = str "accept")).
Proof.
  intros Hf Hnames Htidy Hvalid. pose proof (fw_unscoped _ _ _ _ _ _ _ _ _ _ _ _ Hf) as Hu.
  edestruct rows_computed as (rows&Hrows); [exact Hnames|exact Hvalid|exact Hu|]. exists rows. split; [exact Hrows|].
  intros row action p sr dr policy Hrow Ha Ht decided. destruct Ht as [Hfam Hrange Hi Ho Hs Hd Hsame Hps Hpd].
  edestruct lab_routing as (Hdeny&Hdefault&Hallow); [exact Hf|done|exact Hnames|exact Htidy|exact Hfam|exact Hrange|exact Hs|exact Hps|exact Hpd
    |exact Hd|exact Hsame|done|done|].
  edestruct row_action as (active&Hac&->); [exact Hrows|exact Hrow|exact Ha|].
  apply connected_target in Hs as (s&Hs&Es&Ers&_); [|done].
  assert (exists d, (d ∈ routing_firewall_targets interfaces vlans) /\ t_name d = oifname p /\ t_role d = dr) as (d&Hdt&Ed&Erd).
  { destruct (decide (iifname p = oifname p)) as [E|E]; [exists s; split_and!; [done|congruence|by rewrite Hsame]|].
    apply connected_target in Hd as (d&?&?&?&_); [|done|done]. by exists d. }
  edestruct action_meaning as (Hm1&Hm2&Hm3&Hm4); [exact Hnames|exact Hvalid|exact Hac|exact Hs|exact Hdt|exact Es|exact Ed|].
  cbv zeta. rewrite <- Hi, <- Ho. rewrite Ers, Erd in Hm3, Hm4.
  destruct (family_action_cases active (iifname p) (oifname p) (dict_get (iifname p) (targets_by_name PT))
    (dict_get (oifname p) (targets_by_name PT)) (family (saddr p))) as [E|[E|[E|E]]].
  - left. split; [exact E|]. apply Hdeny, Hm1, E.
  - right; right. split; [by left|]. intros Hman Hops. destruct (Hm2 E) as [Hn Hy]. apply Hallow; [done|by left|done..].
  - right; right. split; [by right|]. intros Hman Hops. destruct (Hm3 E) as [Hn Hy]. apply Hallow; [done|by right|done..].
  - right; left. split; [exact E|]. destruct (Hm4 E) as [Hn Hy]. by apply Hdefault.
Qed.
End Enforced.
End Rows.

(* ------------------------------------------------------------------ *)
(** ** Instances *)

#[local] Existing Instance plain_runtime.
#[local] Existing Instance ascii_case.
#[local] Existing Instance ascii_case_laws.

Definition sample_rows : list Row :=
  match routing_permission_rows (routing_permission_targets sample_interfaces []) sample_permissions true with Ok rows => rows | Raise _ => [] end.

(** [displayed_permissions_enforced] at the row of the denied direction. *)
Lemma displayed_permissions_enforced_witness :
  exists row, (row ∈ sample_rows) /\ ((V4, str "explicit deny") ∈ family_effective_actions row) /\
  decide_chain (sample_chains (str "forward")) (str "accept") (forward_packet "eth2" "eth1" 0x0a020005 0x0a010007) = str "drop".
Proof.
  destruct (displayed_permissions_enforced sample_settings [] [] [] (mkReplace false false true) [] (str "192.0.2.0/24") sample_interfaces []
    sample_permissions sample_managed sample_forwarding) as (rows&Hrows&Hall).
  1-2: apply (bool_decide_unpack _); vm_compute; exact I.
  { repeat constructor; intros _; vm_compute; reflexivity. }
  assert (sample_rows = rows) as E by (unfold sample_rows; by rewrite Hrows).
  destruct (sample_rows !! 1%nat) as [row|] eqn:Hi; [|by vm_compute in Hi].
  assert ((V4, str "explicit deny") ∈ family_effective_actions row) as Ha by (vm_compute in Hi; injection Hi as <-; by left).
  exists row. split; [by eapply list_elem_of_lookup_2|]. split; [exact Ha|].
  destruct (Hall row (str "explicit deny") (forward_packet "eth2" "eth1" 0x0a020005 0x0a010007) (str "route") (str "access") (str "accept"))
    as [[_ Hd]|[[E' _]|[[E'|E'] _]]]; [rewrite <- E; by eapply list_elem_of_lookup_2|exact Ha| |exact Hd|discriminate E'..].
  split; [done|cbn; lia|vm_compute in Hi; by injection Hi as <-..| | |discriminate|by left|by right].
  - apply (sample_connected "eth2" "route" "10.2.0.1/24" None) with (n := mkNetwork V4 0x0a020000 24 []); [by right; right; left|vm_compute; reflexivity..].
  - intros _. apply (sample_connected "eth1" "access" "10.1.0.1/24" None) with (n := mkNetwork V4 0x0a010000 24 []); [by right; left|vm_compute; reflexivity..].
Defined.
