(* ===== verification/RoutingAppliedProps.v ===== *)
(** Routing permissions that are shown as applied: the recorded fingerprint determines the
    forwarding rules, and with them the text of the firewall. *)

From S2P Require Import Prelude Utf8 PyText Json Sha256 IpAddress Networks IpRoundtrip Trace SourceGroups SourceGroupsProps Firewall.
From S2P Require Import Nftables FirewallText FirewallMeaning FirewallProps FirewallRouting RoutingRules FirewallRoutingProps RoutingPermissions.
Open Scope Z_scope.

(* ------------------------------------------------------------------ *)
(** ** Rules without their descriptions *)

Definition undescribed (rule : FirewallRule) : FirewallRule :=
  mkFirewallRule (routing_destination_interface rule) (routing_policy_phase rule) (fr_name rule) (direction rule) (action rule)
    (protocol rule) (fr_source rule) (destination rule) (destination_port rule) (interface_name rule) (priority rule) (fr_enabled rule) None.

Lemma filter_undescribed (p : FirewallRule -> bool) l : (forall x, p (undescribed x) = p x) ->
  List.filter p (map undescribed l) = map undescribed (List.filter p l).
Proof. intros E. induction l as [|x l IH]; cbn; [done|]. rewrite E. destruct (p x); cbn; by rewrite IH. Qed.

Lemma mapM_map {A B C} (f : A -> B) (g : A -> res C) (h : B -> res C) l : (forall x, h (f x) = g x) -> mapM h (map f l) = mapM g l.
Proof. intros E. induction l as [|x l IH]; cbn; [done|]. by rewrite E, IH. Qed.

Lemma sort_undescribed l : map undescribed (sort_by_priority l) = sort_by_priority (map undescribed l).
Proof.
  assert (forall x l, map undescribed (insert_by_priority x l) = insert_by_priority (undescribed x) (map undescribed l)) as Hi.
  { intros x k. induction k as [|y k IH]; cbn; [done|]. destruct (_ <=? _); cbn; [done|]. by rewrite IH. }
  unfold sort_by_priority. induction l as [|x l IH]; cbn; [done|]. by rewrite Hi, IH.
Qed.

Section Applied.
Context `{PyRuntime} `{PyCase} {laws : PyCaseLaws}.

Lemma variants_undescribed groups rule : _rule_family_variants (undescribed rule) groups = map undescribed (_rule_family_variants rule groups).
Proof.
  unfold _rule_family_variants. cbn [undescribed fr_source destination]. destruct (_address_values_by_family _) as [s4 s6].
  destruct (_address_values_by_family _) as [d4 d6]. destruct (_ && _); [done|]. rewrite map_app. f_equal; by destruct (_ || _).
Qed.

Lemma rule_lines_undescribed groups rule : rule_lines groups (undescribed rule) = rule_lines groups rule.
Proof. unfold rule_lines. rewrite variants_undescribed. by apply mapM_map. Qed.

Lemma prelude_lines_undescribed groups rule : prelude_lines groups (undescribed rule) = prelude_lines groups rule.
Proof. unfold prelude_lines. rewrite variants_undescribed. f_equal. by apply mapM_map. Qed.

(** A chain does not depend on descriptions. *)
Lemma chain_lines_undescribed settings l groups replace cidr chain policy :
  chain_lines settings (map undescribed l) groups replace cidr chain policy = chain_lines settings l groups replace cidr chain policy.
Proof.
  unfold chain_lines. rewrite !filter_undescribed by done. rewrite <- !sort_undescribed.
  rewrite (mapM_map undescribed (prelude_lines groups) (prelude_lines groups)) by apply prelude_lines_undescribed.
  by rewrite (mapM_map undescribed (rule_lines groups) (rule_lines groups)) by apply rule_lines_undescribed.
Qed.

Lemma effective_undescribed rules others l k replace : map undescribed l = map undescribed k ->
  map undescribed (effective_firewall_rules rules (others ++ l) replace) = map undescribed (effective_firewall_rules rules (others ++ k) replace).
Proof.
  intros E. assert (length l = length k) as El by (rewrite <- (length_map undescribed l), <- (length_map undescribed k); by f_equal).
  unfold effective_firewall_rules. rewrite !length_app, El. destruct (_ && _); [done|]. by rewrite !map_app, E.
Qed.

Lemma rendered_undescribed settings rules others l k groups replace cidr settings_cidr : map undescribed l = map undescribed k ->
  render_nftables_config settings rules (others ++ l) groups replace cidr settings_cidr =
  render_nftables_config settings rules (others ++ k) groups replace cidr settings_cidr.
Proof.
  intros E. unfold render_nftables_config. destruct (negb (fs_enabled settings)); [done|].
  assert (forall c policy,
    chain_lines settings (effective_firewall_rules rules (others ++ l) replace) (groups_by_id groups) (replace_service replace)
      (match cidr with [] => settings_cidr | _ => cidr end) c policy =
    chain_lines settings (effective_firewall_rules rules (others ++ k) replace) (groups_by_id groups) (replace_service replace)
      (match cidr with [] => settings_cidr | _ => cidr end) c policy) as Ec.
  { intros c policy. rewrite <- chain_lines_undescribed, (effective_undescribed _ _ _ _ _ E). apply chain_lines_undescribed. }
  cbv zeta. by rewrite !Ec.
Qed.

(* ------------------------------------------------------------------ *)
(** ** Fingerprints *)

Definition policy_document (db : RoutingState) (rows : list Row) (generated : list FirewallRule) : list (pystr * json) :=
  [(str "routing_enabled", JBool (rs_routing_enabled db)); (str "rows", JList (map row_json rows));
   (str "targets", JList (map target_json (routing_firewall_targets (rs_interfaces db) (rs_vlans db))));
   (str "generated_firewall", JList (map generated_json generated))].

Lemma fingerprint_document db policy : fingerprint_policy db = Ok policy ->
  exists rows generated, managed_rules db = Ok generated /\ policy = JDict (policy_document db rows generated).
Proof.
  unfold fingerprint_policy. intros (rows&_&Hp)%bind_Ok. apply bind_Ok in Hp as (generated&Hg&[= <-]). by exists rows, generated.
Qed.

(** SHA-256 tells the texts of two policies apart. *)
Definition policies_told_apart (policy policy' : json) : Prop :=
  forall b b', utf8_encode (dumps_default policy) = Ok b -> utf8_encode (dumps_default policy') = Ok b' -> collision_free b b'.

(** Documents with the same fingerprint have the same entries. *)
Lemma fingerprint_binds db db' policy policy' f :
  fingerprint_policy db = Ok policy -> fingerprint_policy db' = Ok policy' -> dumpable policy -> dumpable policy' ->
  policies_told_apart policy policy' -> routing_permission_fingerprint db = Ok f -> routing_permission_fingerprint db' = Ok f ->
  sort_dicts policy = sort_dicts policy'.
Proof.
  intros Hp Hp' Hd Hd' Hfree E E'. unfold routing_permission_fingerprint in *. rewrite Hp in E. rewrite Hp' in E'. cbn [mbind res_bind] in *.
  apply bind_Ok in E as (b&Eb&[= Ef]). apply bind_Ok in E' as (b'&Eb'&[= Ef']). assert (b = b') as <- by (apply (Hfree b b' Eb Eb'); congruence).
  apply (utf8_decode_encode false) in Eb. apply (utf8_decode_encode false) in Eb'. rewrite Eb in Eb'. injection Eb' as Eb'.
  pose proof (loads_dumps_default _ Hd) as L. pose proof (loads_dumps_default _ Hd') as L'. rewrite Eb' in L. congruence.
Qed.

(** The fields of a generated rule that are not hashed are the same for all of them. *)
Definition forward_any (x : FirewallRule) : Prop :=
  direction x = str "forward" /\ protocol x = str "any" /\ destination_port x = [] /\ fr_enabled x = true.

Lemma managed_forward_any db generated : unscoped_all (rs_interfaces db) (rs_vlans db) -> managed_rules db = Ok generated -> Forall forward_any generated.
Proof.
  intros Hu Hg. apply Forall_forall. intros x Hx. apply (managed_origin _ _ _ _ _ Hu Hg) in Hx.
  destruct Hx as [? ? _ _ _ _ (name&->)|? ? _ _ _ _ _ _ _ (name&->)|? ? ? _ _ _ (name&description&_&_&->)|? ? ? _ _ _ _ _ _ _ _ _ (name&->)]; done.
Qed.

Lemma generated_same l k : Forall forward_any l -> Forall forward_any k ->
  map sort_dicts (map generated_json l) = map sort_dicts (map generated_json k) -> map undescribed l = map undescribed k.
Proof.
  intros Hl. revert k. induction Hl as [|x l (H1&H2&H3&H4) _ IH]; intros [|y k] Hk E; try done. apply Forall_cons in Hk as [(K1&K2&K3&K4) Hk].
  cbn [map] in E |- *. injection E as. f_equal; [unfold undescribed; f_equal; congruence|by apply IH].
Qed.

(** The setting records a fingerprint for a unit. *)
Definition records (setting f unit_ : pystr) : Prop :=
  exists baselines baseline, loads setting = Ok (JDict baselines) /\ dict_get unit_ baselines = Some (JDict baseline) /\
    dict_get (str "routing_permission_fingerprint") baseline = Some (JStr f).

Lemma applied_records setting db f : routing_permission_fingerprint db = Ok f ->
  routing_permission_apply_state (Some setting) db = Ok (str "applied") <-> records setting f (str "wan") /\ records setting f (str "firewall").
Proof.
  intros Hf. unfold routing_permission_apply_state, records. change (default _ (Some setting)) with setting. destruct (loads setting) as [v|e].
  - rewrite Hf. cbn [mbind res_bind]. destruct v as [| | | | | |items]; try (split; [discriminate|by intros [(?&?&[=]&_) _]]).
    assert (forall u, unit_applied items f u = true <-> exists baseline, dict_get u items = Some (JDict baseline) /\
      dict_get (str "routing_permission_fingerprint") baseline = Some (JStr f)) as Hu.
    { intros u. unfold unit_applied. split.
      - destruct (dict_get u items) as [[| | | | | |b]|]; try discriminate. destruct (dict_get _ b) as [[| | | |r| |]|] eqn:E; try discriminate.
        intros ->%bool_decide_eq_true. by exists b.
      - intros (b&->&->). by apply bool_decide_eq_true. }
    cbn [map forallb]. rewrite andb_true_r. destruct (_ && _) eqn:E.
    + apply andb_true_iff in E as [(b&Hb&Hb')%Hu (c&Hc&Hc')%Hu]. split; [|done]. intros _. split; [by exists items, b|by exists items, c].
    + split; [discriminate|]. intros [(?&b&[= <-]&Hb&Hb') (?&c&[= <-]&Hc&Hc')]. apply andb_false_iff in E.
      destruct E as [E|E]; apply not_true_iff_false in E; destruct E; apply Hu; eauto.
  - split; [by destruct (is_ValueError e)|]. by intros [(?&?&[=]&_) _].
Qed.

End Applied.

(* ------------------------------------------------------------------ *)
(** ** Instances *)

Fixpoint dumpable_check (v : json) : bool :=
  match v with
  | JNull | JBool _ => true
  | JInt z => zlen (digits 10 (Z.abs z)) <=? int_max_str_digits
  | JFloat _ => false
  | JStr s => forallb is_scalar s
  | JList l => forallb dumpable_check l
  | JDict items => bool_decide (NoDup items.*1) && forallb (fun kv => forallb is_scalar kv.1 && dumpable_check kv.2) items
  end.

Lemma dumpable_checked v : dumpable_check v = true -> dumpable v.
Proof.
  induction v as [|b|z|fl|s|l IH|items IH] using json_nested_ind; cbn [dumpable_check]; intros Hv; try done.
  - by apply Z.leb_le.
  - apply Forall_forall. intros c Hc. rewrite forallb_forall in Hv. by apply Hv, list_elem_of_In.
  - apply dumpable_list, Forall_forall. intros x Hx. rewrite forallb_forall in Hv. rewrite Forall_forall in IH. apply IH; [done|]. by apply Hv, list_elem_of_In.
  - apply andb_true_iff in Hv as [Hn%bool_decide_eq_true Hv]. apply dumpable_dict. split; [done|]. apply Forall_forall. intros kv Hx.
    rewrite forallb_forall in Hv. rewrite Forall_forall in IH. specialize (Hv kv (proj1 (list_elem_of_In _ _) Hx)).
    apply andb_true_iff in Hv as [Hs Hd]. split; [|by apply IH]. apply Forall_forall. intros c Hc. rewrite forallb_forall in Hs. by apply Hs, list_elem_of_In.
Qed.

#[local] Existing Instance plain_runtime.
#[local] Existing Instance ascii_case.
#[local] Existing Instance ascii_case_laws.

Definition state_before : RoutingState := mkRoutingState sample_interfaces [] sample_permissions true.
(** The links have gone down since. *)
Definition state_after : RoutingState :=
  mkRoutingState (map (fun i => mkPhysicalInterface (pi_name i) (str "down") (pi_mode i) (pi_role i) (pi_ip_cidr i) (pi_ipv6_cidr i)) sample_interfaces)
    [] sample_permissions true.
Definition sample_policy : json := match fingerprint_policy state_before with Ok policy => policy | Raise _ => JNull end.
Definition sample_fingerprint : pystr := match routing_permission_fingerprint state_before with Ok f => f | Raise _ => [] end.
Definition sample_baselines : pystr :=
  let unit_ name := (str name, JDict [(str "routing_permission_fingerprint", JStr sample_fingerprint)]) in
  dumps_default (JDict [unit_ "wan"%string; unit_ "firewall"%string]).

