(* ===== verification/ChunkUploads.v ===== *)
(** [services/chunk_uploads.py]: upload sessions of browsers, which send a file in chunks and
    hand it over once it is complete.

    The lock serialises the methods, so each is one computation.  A session refers to an open
    file: a buffer in memory for small files, an anonymous file on the depot volume for
    others.  Only operations of the latter fail; [disk] tells how each ends, and an exhausted
    list means that nothing fails.  A write that fails may have stored the first part of its
    data.  [time.monotonic] is a clock that advances by the next of [ticks] at each reading,
    in any unit that divides a second ([SECOND]). *)

From S2P Require Import Prelude Utf8 PyText Json Sha256.
Open Scope Z_scope.

Definition SECOND : Z := 1000000000.
Definition CHUNK_BYTES : Z := 8 * 1024 ^ 2.
Definition SESSION_SECONDS : Z := 30 * 60 * SECOND.

(** An open file. *)
Record File : Type := mkFile {
  on_disk : bool;
  content : bytes;
  position : Z
}.

(** [class UploadSession], without the publication that the caller attaches. *)
Record UploadSession : Type := mkUploadSession {
  owner : pystr;
  target : pystr;
  field : pystr;
  filename : pystr;
  size : Z;
  file : File;
  expires : Z;
  offset : Z;
  claimed : bool
}.

(** The staging directory on the depot volume. *)
Record Volume : Type := mkVolume {
  has_symlink : bool;
  parent_is_dir : bool;
  root_mode : Z;
  free_bytes : Z
}.

(** How an operation on the disk ends; a write that fails has stored some of its bytes. *)
Inductive outcome : Type :=
| Done
| Fails (stored : nat).

(** [class UploadStore] with its environment. *)
Record Uploads : Type := mkUploads {
  sessions : list (pystr * UploadSession);
  timer : bool;
  now : Z;
  ticks : list Z;
  volume : Volume;
  disk : list outcome
}.

Definition set_sessions (l : list (pystr * UploadSession)) (w : Uploads) : Uploads :=
  mkUploads l (timer w) (now w) (ticks w) (volume w) (disk w).
Definition set_timer (t : bool) (w : Uploads) : Uploads :=
  mkUploads (sessions w) t (now w) (ticks w) (volume w) (disk w).

Definition set_file (f : File) (s : UploadSession) : UploadSession :=
  mkUploadSession (owner s) (target s) (field s) (filename s) (size s) f (expires s) (offset s) (claimed s).
Definition set_expires (t : Z) (s : UploadSession) : UploadSession :=
  mkUploadSession (owner s) (target s) (field s) (filename s) (size s) (file s) t (offset s) (claimed s).
Definition set_offset (n : Z) (s : UploadSession) : UploadSession :=
  mkUploadSession (owner s) (target s) (field s) (filename s) (size s) (file s) (expires s) n (claimed s).
Definition set_claimed (s : UploadSession) : UploadSession :=
  mkUploadSession (owner s) (target s) (field s) (filename s) (size s) (file s) (expires s) (offset s) true.

Abbreviation UP := (ST Uploads).

(** [time.monotonic()]. *)
Definition monotonic : UP Z := fun w =>
  let t := now w + Z.max 0 (match ticks w with d :: _ => d | [] => 0 end) in
  (Ok t, mkUploads (sessions w) (timer w) t (tail (ticks w)) (volume w) (disk w)).

(** How the next operation on the disk ends. *)
Definition next_outcome : UP outcome := fun w =>
  match disk w with
  | o :: l => (Ok o, mkUploads (sessions w) (timer w) (now w) (ticks w) (volume w) l)
  | [] => (Ok Done, w)
  end.

Definition raise {A} (e : exn) : UP A := lift (Raise e).
Definition raise_when (b : bool) (e : exn) : UP unit := lift (raise_if b e).

(** A step on the volume: it happens or raises [OSError]. *)
Definition volume_step : UP unit :=
  o ← next_outcome; match o with Done => mret tt | Fails _ => raise OSError end.

(* ------------------------------------------------------------------ *)
(** ** Open files *)

(** The object of a session is shared between the dictionary and the code that looked it up:
    a change is a change in the dictionary. *)
Definition with_session (key : pystr) (f : UploadSession -> UploadSession) (l : list (pystr * UploadSession)) :
    list (pystr * UploadSession) :=
  map (fun kv => if bool_decide (kv.1 = key) then (kv.1, f kv.2) else kv) l.
Definition change (key : pystr) (f : UploadSession -> UploadSession) : UP unit :=
  modify (fun w => set_sessions (with_session key f (sessions w)) w).
Definition change_file (key : pystr) (f : File -> File) : UP unit := change key (fun s => set_file (f (file s)) s).

Definition the_session (key : pystr) : UP UploadSession := fun w =>
  match dict_get key (sessions w) with Some s => (Ok s, w) | None => (Raise KeyError, w) end.

(** How an operation on the file of a session ends. *)
Definition file_outcome (key : pystr) : UP outcome :=
  s ← the_session key; if on_disk (file s) then next_outcome else mret Done.
Definition file_step (key : pystr) : UP unit :=
  o ← file_outcome key; match o with Done => mret tt | Fails _ => raise OSError end.

(** [file.seek(n)]. *)
Definition seek (key : pystr) (n : Z) : UP unit :=
  _ ← file_step key; change_file key (fun f => mkFile (on_disk f) (content f) n).

(** [file.read(n)]. *)
Definition read (key : pystr) (n : Z) : UP bytes :=
  _ ← file_step key;
  s ← the_session key;
  let data := slice (content (file s)) (position (file s)) (position (file s) + n) in
  _ ← change_file key (fun f => mkFile (on_disk f) (content f) (position f + zlen data));
  mret data.

(** [data] at [position] of a file; a gap is filled with zeros. *)
Definition overwrite (b : bytes) (position : Z) (data : bytes) : bytes :=
  let n := Z.to_nat position in
  take n b ++ replicate (n - length b) x00 ++ data ++ drop (n + length data) b.

Definition put (data : bytes) (f : File) : File :=
  mkFile (on_disk f) (overwrite (content f) (position f) data) (position f + zlen data).

(** [file.write(data)]. *)
Definition write (key : pystr) (data : bytes) : UP unit :=
  o ← file_outcome key;
  match o with
  | Done => change_file key (put data)
  | Fails stored => _ ← change_file key (put (take stored data)); raise OSError
  end.

(** [file.flush()]; what was written stays with the file object when it fails. *)
Definition flush (key : pystr) : UP unit := file_step key.

(** [file.truncate(n)] for an [n] up to the length. *)
Definition truncate (key : pystr) (n : Z) : UP unit :=
  _ ← file_step key; change_file key (fun f => mkFile (on_disk f) (take (Z.to_nat n) (content f)) (position f)).

(* ------------------------------------------------------------------ *)
(** ** The store *)

Definition is_OSError (e : exn) : bool := match e with OSError => true | _ => false end.

Definition total (l : list Z) : Z := foldr Z.add 0 l.

(** [_schedule]. *)
Definition _schedule : UP unit := modify (set_timer true).

(** [release]. *)
Definition dict_pop (key : pystr) (l : list (pystr * UploadSession)) : list (pystr * UploadSession) :=
  List.filter (fun kv => negb (bool_decide (kv.1 = key))) l.
Definition close_file (f : File) : UP unit :=
  o ← (if on_disk f then next_outcome else mret Done);
  match o with Done => mret tt | Fails _ => raise OSError end.
Definition release_one (key : pystr) : UP unit :=
  found ← gets (fun w => dict_get key (sessions w));
  match found with
  | None => mret tt
  | Some session =>
    _ ← modify (fun w => set_sessions (dict_pop key (sessions w)) w);
    catch is_OSError (close_file (file session)) (fun _ => mret tt)
  end.
Fixpoint release (keys : list pystr) : UP unit :=
  match keys with
  | [] => mret tt
  | key :: keys => _ ← release_one key; release keys
  end.

(** The keys that [_sweep] releases; the clock is read for every session that is not claimed. *)
Fixpoint expired_keys (l : list (pystr * UploadSession)) : UP (list pystr) :=
  match l with
  | [] => mret []
  | (key, session) :: l =>
    gone ← (if claimed session then mret false else t ← monotonic; mret (expires session <=? t));
    rest ← expired_keys l;
    mret (if (gone : bool) then key :: rest else rest)
  end.

(** [_sweep]; neither of its steps raises. *)
Definition _sweep : UP unit :=
  _ ← modify (set_timer false);
  l ← gets sessions;
  keys ← expired_keys l;
  _ ← release keys;
  left ← gets sessions;
  match left with [] => mret tt | _ => _schedule end.

(** [close]. *)
Definition close : UP unit :=
  _ ← modify (set_timer false);
  l ← gets sessions;
  release l.*1.

(** The file of a new session. *)
Definition open_file (size : Z) : UP File :=
  if size <=? 16 * 1024 ^ 2 then mret (mkFile false [] 0) else
  v ← gets volume;
  _ ← raise_when (has_symlink v) (UploadError 503 "Upload staging is unavailable.");
  _ ← raise_when (negb (parent_is_dir v)) (UploadError 503 "The upload storage volume is unavailable.");
  _ ← volume_step;
  _ ← volume_step;
  _ ← raise_when (negb (Z.land (root_mode v) 0x12 =? 0)) (UploadError 503 "Upload staging permissions are unsafe.");
  reserved ← gets (fun w => total (map (fun kv => ChunkUploads.size kv.2) (sessions w)));
  _ ← volume_step;
  _ ← raise_when (free_bytes v <? (reserved + size) * 2 + 64 * 1024 ^ 2) (UploadError 507 "Insufficient free space for upload and validation.");
  _ ← volume_step;
  mret (mkFile true [] 0).

(** [create]; [key] is the token that is drawn. *)
Definition create (key owner target field filename : pystr) (size : Z) : UP pystr :=
  l ← gets sessions;
  _ ← raise_when ((16 <=? zlen l) ||
                  (4 <=? zlen (List.filter (fun kv => bool_decide (ChunkUploads.owner kv.2 = owner)) l)) ||
                  (32 * 1024 ^ 3 <? total (map (fun kv => ChunkUploads.size kv.2) l) + size))
        (UploadError 429 "Upload capacity is busy. Finish or cancel another upload first.");
  handle ← open_file size;
  t ← monotonic;
  _ ← modify (fun w => set_sessions (dict_set key (mkUploadSession owner target field filename size handle (t + SESSION_SECONDS) 0 false)
                                       (sessions w)) w);
  _ ← _schedule;
  mret key.

Definition unavailable : exn := UploadError 404 "Upload expired or is unavailable. Select the file again.".

(** [get]. *)
Definition get (key owner : pystr) : UP UploadSession :=
  found ← gets (fun w => dict_get key (sessions w));
  match found with
  | None => raise unavailable
  | Some session =>
    if claimed session || negb (bool_decide (ChunkUploads.owner session = owner)) then raise unavailable else
    t ← monotonic;
    if expires session <=? t then raise unavailable else mret session
  end.

(** [append]. *)
Definition append (key owner : pystr) (offset : Z) (data : bytes) (digest : pystr) : UP Z :=
  session ← get key owner;
  _ ← raise_when (bool_decide (data = []) || (CHUNK_BYTES <? zlen data) || negb (bool_decide (sha256_hex data = digest)))
        (UploadError 400 "Invalid upload chunk or checksum.");
  _ ← raise_when ((offset <? 0) || (size session <? offset + zlen data)) (UploadError 413 "Chunk exceeds the declared file size.");
  let conflict := UploadError 409 "Upload offset conflict." in
  _ ← (if offset <? ChunkUploads.offset session then
         _ ← seek key offset;
         if ChunkUploads.offset session <? offset + zlen data then raise conflict else
         stored ← read key (zlen data);
         raise_when (negb (bool_decide (stored = data))) conflict
       else if offset =? ChunkUploads.offset session then
         _ ← seek key offset;
         _ ← catch is_OSError (_ ← write key data; flush key) (fun exc => _ ← truncate key offset; raise exc);
         change key (fun s => set_offset (ChunkUploads.offset s + zlen data) s)
       else raise conflict);
  t ← monotonic;
  _ ← change key (set_expires (t + SESSION_SECONDS));
  session ← the_session key;
  mret (ChunkUploads.offset session).

(** [claim]; the sessions are returned by their keys. *)
Fixpoint get_all (keys : list pystr) (owner : pystr) : UP (list UploadSession) :=
  match keys with
  | [] => mret []
  | key :: keys => s ← get key owner; rest ← get_all keys owner; mret (s :: rest)
  end.
Fixpoint claim_all (keys : list pystr) : UP unit :=
  match keys with
  | [] => mret tt
  | key :: keys => _ ← change key set_claimed; _ ← seek key 0; claim_all keys
  end.
Definition claim (keys : list pystr) (owner target : pystr) : UP (list pystr) :=
  _ ← raise_when (negb (all_distinct keys)) (UploadError 400 "Duplicate upload session.");
  sessions ← get_all keys owner;
  _ ← raise_when (existsb (fun s => negb (bool_decide (ChunkUploads.target s = target)) || negb (offset s =? size s)) sessions)
        (UploadError 409 "Upload is incomplete or belongs to another form.");
  _ ← claim_all keys;
  mret keys.

(** [cancel]. *)
Definition cancel (key owner : pystr) : UP unit :=
  session ← get key owner;
  _ ← modify (fun w => set_sessions (dict_pop key (sessions w)) w);
  close_file (file session).
