(* ===== verification/ChunkUploadsSteps.v ===== *)
(** What each method of the upload store does, under every pattern of faults: rules for the
    steps on one session, what is kept of its file, and the effect on the dictionary. *)

From S2P Require Import Prelude Utf8 PyText Json Sha256 ChunkUploads.
Open Scope Z_scope.

(* ------------------------------------------------------------------ *)
(** ** The dictionary of sessions *)

Lemma with_session_keys key f l : (with_session key f l).*1 = l.*1.
Proof. induction l as [|[k s] l IH]; [done|]. cbn. f_equal; [by destruct (bool_decide _)|exact IH]. Qed.

Lemma with_session_cons key f k s l :
  with_session key f ((k, s) :: l) = (k, if bool_decide (k = key) then f s else s) :: with_session key f l.
Proof. unfold with_session at 1. cbn [map fst snd]. by destruct (bool_decide (k = key)). Qed.

Lemma with_session_comp key f g l : with_session key f (with_session key g l) = with_session key (fun s => f (g s)) l.
Proof.
  induction l as [|[k s] l IH]; [done|]. rewrite !with_session_cons, IH. by destruct (bool_decide (k = key)).
Qed.

Lemma with_session_get key f l k : dict_get k (with_session key f l) = (if decide (k = key) then f else id) <$> dict_get k l.
Proof.
  induction l as [|[x s] l IH]; [done|]. rewrite with_session_cons. cbn [dict_get]. rewrite IH. destruct (decide (x = k)) as [->|]; [|done]. cbn.
  by case_decide; [rewrite bool_decide_eq_true_2|rewrite bool_decide_eq_false_2].
Qed.

Lemma with_session_other key f l : key ∉ l.*1 -> with_session key f l = l.
Proof.
  induction l as [|[k s] l IH]; [done|]. intros [Hk Hl]%not_elem_of_cons. rewrite with_session_cons, IH by done.
  by rewrite bool_decide_eq_false_2.
Qed.

Lemma with_session_same key s l : NoDup l.*1 -> dict_get key l = Some s -> with_session key (fun _ => s) l = l.
Proof.
  induction l as [|[k x] l IH]; [done|]. intros [Hk Hl]%NoDup_cons. rewrite with_session_cons. cbn [dict_get]. case_decide as E.
  - subst k. intros [= ->]. by rewrite with_session_other, bool_decide_eq_true_2.
  - intros Hg. by rewrite IH, bool_decide_eq_false_2.
Qed.

Lemma dict_pop_get key l k : dict_get k (dict_pop key l) = if decide (k = key) then None else dict_get k l.
Proof.
  unfold dict_pop. induction l as [|[x s] l IH]; cbn; [by case_decide|]. destruct (bool_decide_reflect (x = key)) as [->|Hne]; cbn.
  - rewrite IH. by repeat case_decide.
  - rewrite IH. repeat case_decide; congruence.
Qed.

Lemma dict_pop_absent key l : key ∉ l.*1 -> dict_pop key l = l.
Proof.
  induction l as [|[k s] l IH]; [done|]. intros [Hk Hl]%not_elem_of_cons. unfold dict_pop in *. cbn. rewrite bool_decide_eq_false_2 by (by intros ->).
  cbn. by rewrite IH.
Qed.

(* ------------------------------------------------------------------ *)
(** ** Steps on one session *)

(** From [w0] nothing but the session [key], the clock and the disk has changed, and the
    session is [s] now. *)
Record only (w0 : Uploads) (key : pystr) (s : UploadSession) (w : Uploads) : Prop := {
  on_sessions : sessions w = with_session key (fun _ => s) (sessions w0);
  on_timer : timer w = timer w0;
  on_volume : volume w = volume w0;
  on_now : now w0 <= now w;
  on_disk_left : disk w0 = [] -> disk w = []
}.

Section Steps.
Context (w0 : Uploads) (key : pystr) (s0 : UploadSession) (Hget : dict_get key (sessions w0) = Some s0).

Lemma only_get s w : only w0 key s w -> dict_get key (sessions w) = Some s.
Proof. intros Ho. by rewrite (on_sessions _ _ _ _ Ho), with_session_get, Hget, decide_True. Qed.

Lemma wp_monotonic s w Q : only w0 key s w -> (forall t w', only w0 key s w' -> now w' = t -> now w <= t -> Q (Ok t) w') -> wp monotonic Q w.
Proof. intros Ho HQ. apply HQ; [|done|cbn; lia]. destruct Ho. split; cbn; try done. lia. Qed.

Lemma wp_the_session s w Q : only w0 key s w -> Q (Ok s) w -> wp (the_session key) Q w.
Proof. intros Ho HQ. unfold wp, the_session. by rewrite (only_get s w Ho). Qed.

Lemma wp_change s w f Q : only w0 key s w -> (forall w', only w0 key (f s) w' -> now w' = now w -> Q (Ok tt) w') -> wp (change key f) Q w.
Proof.
  intros Ho HQ. apply HQ; [|done]. destruct Ho as [Hs Ht Hv Hn Hd]. split; cbn; try done. by rewrite Hs, with_session_comp.
Qed.

Lemma wp_file_step s w Q : only w0 key s w ->
  (forall w', only w0 key s w' -> now w' = now w -> Q (Ok tt) w') ->
  (forall w', only w0 key s w' -> now w' = now w -> disk w0 <> [] -> on_disk (file s) = true -> Q (Raise OSError) w') ->
  wp (file_step key) Q w.
Proof.
  intros Ho HQ HR. unfold file_step, file_outcome. apply wp_bind, wp_bind, (wp_the_session s w); [done|].
  destruct (on_disk (file s)) eqn:Ed; [|by apply wp_ret, wp_ret, HQ]. unfold wp, next_outcome.
  destruct (disk w) as [|o l] eqn:El; cbn; [by apply HQ|].
  assert (disk w0 <> []) as Hd by (intros E; by rewrite (on_disk_left _ _ _ _ Ho E) in El).
  destruct o; cbn; [apply HQ|apply HR]; try done; destruct Ho; split; cbn; done.
Qed.

Lemma wp_seek s w n Q : only w0 key s w ->
  (forall w', only w0 key (set_file (mkFile (on_disk (file s)) (content (file s)) n) s) w' -> now w' = now w -> Q (Ok tt) w') ->
  (forall w', only w0 key s w' -> disk w0 <> [] -> Q (Raise OSError) w') -> wp (seek key n) Q w.
Proof.
  intros Ho HQ HR. unfold seek. apply wp_bind, (wp_file_step s w); [done| |by intros w' Hw' _ Hd _; apply HR].
  intros w' Hw' En. unfold change_file. apply (wp_change s w'); [done|]. intros w'' Hw'' En'. apply HQ; [done|congruence].
Qed.

Lemma wp_read s w n Q : only w0 key s w ->
  (forall w', let data := slice (content (file s)) (position (file s)) (position (file s) + n) in
     only w0 key (set_file (mkFile (on_disk (file s)) (content (file s)) (position (file s) + zlen data)) s) w' -> now w' = now w -> Q (Ok data) w') ->
  (forall w', only w0 key s w' -> disk w0 <> [] -> Q (Raise OSError) w') -> wp (read key n) Q w.
Proof.
  intros Ho HQ HR. unfold read. apply wp_bind, (wp_file_step s w); [done| |by intros w' Hw' _ Hd _; apply HR].
  intros w' Hw' En. apply wp_bind, (wp_the_session s w'); [done|]. apply wp_bind. unfold change_file. apply (wp_change s w'); [done|].
  intros w'' Hw'' En'. apply wp_ret, HQ; [done|congruence].
Qed.

Lemma wp_truncate s w n Q : only w0 key s w ->
  (forall w', only w0 key (set_file (mkFile (on_disk (file s)) (take (Z.to_nat n) (content (file s))) (position (file s))) s) w' -> now w' = now w -> Q (Ok tt) w') ->
  (forall w', only w0 key s w' -> disk w0 <> [] -> Q (Raise OSError) w') -> wp (truncate key n) Q w.
Proof.
  intros Ho HQ HR. unfold truncate. apply wp_bind, (wp_file_step s w); [done| |by intros w' Hw' _ Hd _; apply HR].
  intros w' Hw' En. unfold change_file. apply (wp_change s w'); [done|]. intros w'' Hw'' En'. apply HQ; [done|congruence].
Qed.

Lemma wp_write s w data Q : only w0 key s w ->
  (forall w', only w0 key (set_file (put data (file s)) s) w' -> now w' = now w -> Q (Ok tt) w') ->
  (forall stored w', only w0 key (set_file (put (take stored data) (file s)) s) w' -> disk w0 <> [] -> Q (Raise OSError) w') -> wp (write key data) Q w.
Proof.
  intros Ho HQ HR. unfold write, file_outcome. apply wp_bind, wp_bind, (wp_the_session s w); [done|]. unfold change_file.
  destruct (on_disk (file s)) eqn:Ed; [|by apply wp_ret, (wp_change s w)]. unfold wp at 1, next_outcome.
  destruct (disk w) as [|o l] eqn:El; cbn [fst snd]; [by apply (wp_change s w)|].
  assert (disk w0 <> []) as Hd by (intros E; by rewrite (on_disk_left _ _ _ _ Ho E) in El).
  set (w1 := mkUploads _ _ _ _ _ _). assert (only w0 key s w1) as H1 by (destruct Ho; split; cbn; done).
  destruct o as [|stored]; cbn [fst snd]; [by apply (wp_change s w1)|].
  apply wp_bind, (wp_change s w1); [done|]. intros w' Hw' _. by apply (HR stored).
Qed.
End Steps.

(** Nothing but the clock has changed. *)
Record quiet (w w' : Uploads) : Prop := {
  qu_sessions : sessions w' = sessions w;
  qu_timer : timer w' = timer w;
  qu_volume : volume w' = volume w;
  qu_now : now w <= now w';
  qu_disk : disk w = [] -> disk w' = []
}.

Lemma quiet_refl w : quiet w w.
Proof. by split. Qed.

Lemma quiet_trans w1 w2 w3 : quiet w1 w2 -> quiet w2 w3 -> quiet w1 w3.
Proof. intros [H1 H2 H3 H4 H5] [K1 K2 K3 K4 K5]. split; try congruence; [lia|auto]. Qed.

Lemma quiet_monotonic w : quiet w (monotonic w).2.
Proof. split; cbn; try done; lia. Qed.

Lemma quiet_only w w' key s : NoDup (sessions w).*1 -> dict_get key (sessions w) = Some s -> quiet w w' -> only w key s w'.
Proof. intros Hn Hs [H1 H2 H3 H4 H5]. split; try done. by rewrite with_session_same. Qed.

(** What [get] lets through: a session of the owner that is not claimed and has not expired. *)
Definition open_session (w : Uploads) (key own : pystr) (s : UploadSession) : Prop :=
  dict_get key (sessions w) = Some s /\ owner s = own /\ claimed s = false.

Lemma wp_get key own w Q :
  (forall s w', open_session w key own s -> quiet w w' -> now w' < expires s -> Q (Ok s) w') ->
  (forall w', quiet w w' -> (forall s, open_session w key own s -> expires s <= now w') -> Q (Raise unavailable) w') -> wp (get key own) Q w.
Proof.
  intros HQ HR. unfold get. apply wp_bind, wp_gets.
  destruct (dict_get key (sessions w)) as [s|] eqn:Hs; [|apply HR; [apply quiet_refl|]; intros s' (E&_); congruence].
  destruct (claimed s) eqn:Hc; cbn [orb]; [apply HR; [apply quiet_refl|]; intros s' (E&_&E'); congruence|].
  destruct (bool_decide_reflect (owner s = own)) as [Ho|]; cbn [negb]; [|apply HR; [apply quiet_refl|]; intros s' (E&E'&_); congruence].
  apply wp_bind. unfold wp at 1. pose proof (quiet_monotonic w) as Hq. cbn [fst snd monotonic] in Hq |- *.
  set (t := now w + _) in *. destruct (Z.leb_spec (expires s) t); [|by apply wp_ret, HQ].
  apply HR; [done|]. intros s' (E&_). rewrite Hs in E. by injection E as <-.
Qed.

(* ------------------------------------------------------------------ *)
(** ** Files *)

Lemma overwrite_within b n data : 0 <= n <= zlen b -> overwrite b n data = take (Z.to_nat n) b ++ data ++ drop (Z.to_nat n + length data) b.
Proof. intros Hn. unfold overwrite. replace (Z.to_nat n - length b)%nat with O by (unfold zlen in Hn; lia). done. Qed.

Lemma overwrite_length b n data : 0 <= n <= zlen b -> zlen (overwrite b n data) = Z.max (zlen b) (n + zlen data).
Proof. intros Hn. rewrite overwrite_within by done. unfold zlen in *. rewrite !length_app, length_take, length_drop. lia. Qed.

Lemma overwrite_before b n data : 0 <= n <= zlen b -> take (Z.to_nat n) (overwrite b n data) = take (Z.to_nat n) b.
Proof.
  intros Hn. rewrite overwrite_within by done. rewrite take_app_le by (rewrite length_take; unfold zlen in Hn; lia).
  by rewrite take_take, Nat.min_id.
Qed.

Lemma overwrite_through b n data : 0 <= n <= zlen b ->
  take (Z.to_nat (n + zlen data)) (overwrite b n data) = take (Z.to_nat n) b ++ data.
Proof.
  intros Hn. rewrite overwrite_within by done. rewrite app_assoc. apply take_app_length'. rewrite length_app, length_take. unfold zlen in *. lia.
Qed.

(** The bytes that were acknowledged. *)
Definition held (s : UploadSession) : bytes := take (Z.to_nat (offset s)) (content (file s)).

Record session_ok (s : UploadSession) : Prop := {
  so_offset : 0 <= offset s <= zlen (content (file s));
  so_size : zlen (content (file s)) <= size s
}.

Lemma held_length s : session_ok s -> zlen (held s) = offset s.
Proof. intros [Ho _]. unfold held, zlen in *. rewrite length_take. lia. Qed.

Lemma held_slice s n k : 0 <= n -> n <= k <= offset s -> slice (held s) n k = slice (content (file s)) n k.
Proof.
  intros Hn Hk. unfold held, slice. rewrite skipn_firstn_comm, take_take. f_equal. lia.
Qed.

(** [s'] is [s] with another file, expiry or offset. *)
Record same (s s' : UploadSession) : Prop := {
  sa_owner : owner s' = owner s;
  sa_target : target s' = target s;
  sa_field : field s' = field s;
  sa_filename : filename s' = filename s;
  sa_size : size s' = size s;
  sa_claimed : claimed s' = claimed s
}.

(** A session that keeps what was acknowledged. *)
Definition keeps (s s' : UploadSession) : Prop := same s s' /\ session_ok s' /\ offset s' = offset s /\ held s' = held s.

Lemma keeps_refl s : session_ok s -> keeps s s.
Proof. intros Hok. split; [by split|]. by split_and!. Qed.

Lemma keeps_trans s1 s2 s3 : keeps s1 s2 -> keeps s2 s3 -> keeps s1 s3.
Proof. intros ([]&_&?&?) ([]&Hok&?&?). split; [split; congruence|]. split_and!; [done|congruence..]. Qed.

Lemma keeps_seek s n : session_ok s -> keeps s (set_file (mkFile (on_disk (file s)) (content (file s)) n) s).
Proof. intros [H1 H2]. split; [by split|]. split_and!; [by split|done..]. Qed.

Lemma keeps_expires s t : session_ok s -> keeps s (set_expires t s).
Proof. intros [H1 H2]. split; [by split|]. split_and!; [by split|done..]. Qed.

(** A write at the offset keeps what was acknowledged, whatever part of it was stored. *)
Lemma keeps_put s data : session_ok s -> position (file s) = offset s -> offset s + zlen data <= size s ->
  keeps s (set_file (put data (file s)) s).
Proof.
  intros [H1 H2] Hp Hd. unfold put. rewrite Hp. pose proof (overwrite_length (content (file s)) (offset s) data H1) as El. unfold zlen in *. split; [by split|]. split_and!.
  - split; cbn; unfold zlen; lia.
  - done.
  - unfold held. cbn. by apply overwrite_before.
Qed.

Lemma keeps_truncate s : session_ok s ->
  keeps s (set_file (mkFile (on_disk (file s)) (take (Z.to_nat (offset s)) (content (file s))) (position (file s))) s).
Proof.
  intros [H1 H2]. split; [by split|]. unfold zlen in *. split_and!; [|done|].
  - split; cbn; unfold zlen; rewrite length_take; lia.
  - unfold held. cbn. by rewrite take_take, Nat.min_id.
Qed.

(* ------------------------------------------------------------------ *)
(** ** Chunks *)

(** A chunk that was acknowledged: it extends what is held, or repeats a part of it. *)
Definition accepted (s s' : UploadSession) (off : Z) (data : bytes) : Prop :=
  same s s' /\ session_ok s' /\
  ((off = offset s /\ held s' = held s ++ data) \/
   (0 <= off /\ off + zlen data <= offset s /\ slice (held s) off (off + zlen data) = data /\ held s' = held s)).

(** What a chunk is answered when the disk works. *)
Definition append_reply (s : UploadSession) (off : Z) (data : bytes) (digest : pystr) : res Z :=
  if bool_decide (data = []) || (CHUNK_BYTES <? zlen data) || negb (bool_decide (sha256_hex data = digest))
  then Raise (UploadError 400 "Invalid upload chunk or checksum.")
  else if (off <? 0) || (size s <? off + zlen data) then Raise (UploadError 413 "Chunk exceeds the declared file size.")
  else if off =? offset s then Ok (offset s + zlen data)
  else if (off + zlen data <=? offset s) && bool_decide (slice (held s) off (off + zlen data) = data) then Ok (offset s)
  else Raise (UploadError 409 "Upload offset conflict.").

Definition append_post (w : Uploads) (key own : pystr) (off : Z) (data : bytes) (digest : pystr) (r : res Z) (w' : Uploads) : Prop :=
  (r = Raise unavailable /\ quiet w w' /\ forall s, open_session w key own s -> expires s <= now w') \/
  exists s s', open_session w key own s /\ only w key s' w' /\
    match r with
    | Ok n => accepted s s' off data /\ n = offset s' /\ append_reply s off data digest = Ok n
    | Raise e => keeps s s' /\ (append_reply s off data digest = Raise e \/ (e = OSError /\ disk w <> []))
    end.

Section Append.
Context (w : Uploads) (key own : pystr) (s : UploadSession) (Hopen : open_session w key own s).
Context (off : Z) (data : bytes) (digest : pystr).
Let Hs : dict_get key (sessions w) = Some s := proj1 Hopen.
Let Q := append_post w key own off data digest.

Lemma append_raises e s' w' : only w key s' w' -> keeps s s' -> append_reply s off data digest = Raise e -> Q (Raise e) w'.
Proof. intros Ho Hk Hr. right. exists s, s'. split_and!; try done. by left. Qed.

Lemma append_fails s' w' : only w key s' w' -> keeps s s' -> disk w <> [] -> Q (Raise OSError) w'.
Proof. intros Ho Hk Hd. right. exists s, s'. split_and!; try done. by right. Qed.

(** The end of a successful call. *)
Lemma append_returns s' w' : only w key s' w' -> accepted s s' off data -> append_reply s off data digest = Ok (offset s') ->
  wp (t ← monotonic; _ ← change key (set_expires (t + SESSION_SECONDS)); session ← the_session key; mret (offset session)) Q w'.
Proof.
  intros Ho Ha Hr. apply wp_bind, (wp_monotonic w key s' w'); [done|]. intros t w1 H1 _ _.
  apply wp_bind, (wp_change w key s' w1); [done|]. intros w2 H2 _. apply wp_bind. eapply (wp_the_session w key s Hs); [exact H2|]. apply wp_ret.
  right. exists s, (set_expires (t + SESSION_SECONDS) s'). split_and!; try done. destruct Ha as ([]&[]&Ha). split; [by split|]. split; [by split|done].
Qed.

(** The chunk passed the checks. *)
Context (Hplain : bool_decide (data = []) || (CHUNK_BYTES <? zlen data) || negb (bool_decide (sha256_hex data = digest)) = false).
Context (Hrange : (off <? 0) || (size s <? off + zlen data) = false).

Lemma checked_reply : append_reply s off data digest =
  if off =? offset s then Ok (offset s + zlen data)
  else if (off + zlen data <=? offset s) && bool_decide (slice (held s) off (off + zlen data) = data) then Ok (offset s)
  else Raise (UploadError 409 "Upload offset conflict.").
Proof. unfold append_reply. by rewrite Hplain, Hrange. Qed.

Lemma checked_range : 0 <= off /\ off + zlen data <= size s.
Proof. apply orb_false_iff in Hrange as [?%Z.ltb_ge ?%Z.ltb_ge]. done. Qed.

Definition append_middle (r : res unit) (w' : Uploads) : Prop :=
  match r with
  | Ok _ => exists s', only w key s' w' /\ accepted s s' off data /\ append_reply s off data digest = Ok (offset s')
  | Raise e => Q (Raise e) w'
  end.

(** A chunk that was sent before. *)
Lemma append_repeats w1 : session_ok s -> only w key s w1 -> off < offset s ->
  wp (_ ← seek key off;
      if offset s <? off + zlen data then raise (UploadError 409 "Upload offset conflict.") else
      stored ← read key (zlen data);
      raise_when (negb (bool_decide (stored = data))) (UploadError 409 "Upload offset conflict.")) append_middle w1.
Proof.
  intros Hok H1 Hoff. pose proof (zlen_nonneg data). pose proof checked_range as [Hr _]. pose proof checked_reply as Hrep.
  destruct (Z.eqb_spec off (offset s)); [lia|].
  apply wp_bind, (wp_seek w key s Hs s w1); [done| |intros; eapply append_fails; [done|by apply keeps_refl|done]].
  intros w2 H2 _. pose proof (keeps_seek s off Hok) as Hk. destruct (Z.ltb_spec (offset s) (off + zlen data)).
  { apply wp_lift. eapply append_raises; [done..|]. rewrite Hrep. by destruct (Z.leb_spec (off + zlen data) (offset s)); [lia|]. }
  apply wp_bind. eapply (wp_read w key s Hs); [exact H2| |by intros; eapply append_fails].
  cbn [file set_file content position on_disk]. intros w3 H3 _. apply wp_lift.
  pose proof (keeps_seek s (off + zlen (slice (content (file s)) off (off + zlen data))) Hok) as Hk'.
  rewrite held_slice in Hrep by lia. rewrite (proj2 (Z.leb_le _ _)) in Hrep by done. cbn [andb] in Hrep.
  destruct (bool_decide_reflect (slice (content (file s)) off (off + zlen data) = data)) as [E|]; [|by eapply append_raises].
  eexists. split; [exact H3|]. destruct Hk' as (Hsame&Hok'&Eo&Hh). split; [|exact Hrep]. split_and!; [done|done|]. right.
  split_and!; [lia|done| |exact Hh]. rewrite held_slice by lia. exact E.
Qed.

(** The next chunk. *)
Lemma append_extends w1 : session_ok s -> only w key s w1 -> off = offset s ->
  wp (_ ← seek key off;
      _ ← catch is_OSError (_ ← write key data; flush key) (fun exc => _ ← truncate key off; raise exc);
      change key (fun s => set_offset (offset s + zlen data) s)) append_middle w1.
Proof.
  intros Hok H1 Hoff. pose proof checked_range as [_ Hsize]. pose proof checked_reply as Hrep. rewrite (proj2 (Z.eqb_eq _ _) Hoff) in Hrep.
  apply wp_bind, (wp_seek w key s Hs s w1); [done| |intros; eapply append_fails; [done|by apply keeps_refl|done]].
  intros w2 H2 _. pose proof (keeps_seek s off Hok) as Hk. set (s2 := set_file _ s) in *. destruct Hk as (Hsame&Hok2&Eo&Hh).
  assert (forall d, zlen d <= zlen data -> keeps s (set_file (put d (file s2)) s2)) as Hput.
  { intros d Hd. apply (keeps_trans s s2); [done|]. apply keeps_put; [done|cbn; lia|]. cbn. lia. }
  assert (forall d w' (P : res unit -> Uploads -> Prop), zlen d <= zlen data -> only w key (set_file (put d (file s2)) s2) w' -> disk w <> [] ->
    (forall e w', Q (Raise e) w' -> P (Raise e) w') -> wp (_ ← truncate key off; raise OSError) P w') as Htr.
  { intros d w' P Hd Hw' Hdisk HP. apply wp_bind. eapply (wp_truncate w key s Hs); [exact Hw'| |intros; eapply HP, append_fails; [done|by apply Hput|done]].
    intros w4 H4 _. apply wp_lift. eapply HP, append_fails; [exact H4| |done]. apply (keeps_trans _ _ _ (Hput d Hd)).
    replace off with (offset (set_file (put d (file s2)) s2)) by (cbn; lia). apply keeps_truncate. by apply Hput. }
  apply wp_bind, wp_catch, wp_bind. eapply (wp_write w key s Hs); [exact H2| |].
  - intros w3 H3 _. unfold flush. eapply (wp_file_step w key s Hs); [exact H3| |intros w4 H4 _ Hd _; by eapply (Htr data)].
    intros w4 H4 _. eapply wp_change; [exact H4|]. intros w5 H5 _. eexists. split; [exact H5|]. split; [|exact Hrep].
    destruct (Hput data) as ([]&[Ho' Hz']&_&_); [lia|]. cbn in *. destruct Hok as [Hso Hsz].
    rewrite <- Hoff in Hso. pose proof (overwrite_length (content (file s)) off data Hso) as El. pose proof (zlen_nonneg data).
    split; [by split|]. split; [split; cbn; lia|]. left. split; [done|]. unfold held. cbn. rewrite <- Hoff. by apply overwrite_through.
  - intros stored w3 H3 Hd. cbn [is_OSError]. eapply (Htr (take stored data)); [|exact H3|done|done]. unfold zlen. rewrite length_take. lia.
Qed.
End Append.

Lemma append_spec w key own off data digest : NoDup (sessions w).*1 -> Forall (fun kv => session_ok kv.2) (sessions w) ->
  wp (append key own off data digest) (append_post w key own off data digest) w.
Proof.
  intros Hn Hok. unfold append. apply wp_bind, wp_get; [|by left].
  intros s w1 Hopen Hq _. assert (session_ok s) as Hs.
  { rewrite Forall_forall in Hok. apply (Hok (key, s)). by apply dict_get_In, Hopen. }
  assert (only w key s w1) as Ho by (apply quiet_only; try done; apply Hopen).
  assert (forall e, append_reply s off data digest = Raise e -> append_post w key own off data digest (Raise e) w1) as Hraise.
  { intros e He. eapply append_raises; [exact Hopen|done|by apply keeps_refl|done]. }
  apply wp_bind, wp_lift. destruct (_ || _) eqn:E1; cbn [raise_if]; [apply Hraise; unfold append_reply; by rewrite E1|].
  apply wp_bind, wp_lift. destruct (_ || _) eqn:E2 in |- *; cbn [raise_if]; [apply Hraise; unfold append_reply; by rewrite E1, E2|].
  apply wp_bind. pose proof (zlen_nonneg data) as Hz.
  destruct (Z.ltb_spec off (offset s)).
  - eapply wp_mono; [by apply (append_repeats w key own s Hopen off data digest)|]. intros [u|x] w2; [|done]. intros (s'&H2&Ha&Hr). by eapply append_returns.
  - destruct (Z.eqb_spec off (offset s)) as [E3|E3].
    + eapply wp_mono; [by apply (append_extends w key own s Hopen off data digest)|]. intros [u|x] w2; [|done]. intros (s'&H2&Ha&Hr). by eapply append_returns.
    + apply wp_lift, Hraise. rewrite checked_reply by done. rewrite (proj2 (Z.eqb_neq _ _) E3).
      assert (bool_decide (data = []) = false) as Hd by (by destruct (bool_decide (data = []))). apply bool_decide_eq_false in Hd.
      assert (0 < zlen data) by (destruct data; [done|rewrite zlen_cons; pose proof (zlen_nonneg data); lia]).
      by rewrite (proj2 (Z.leb_gt _ _)) by lia.
Qed.

(* ------------------------------------------------------------------ *)
(** ** The other methods *)

(** The sessions stay in place, each changed as [R] says. *)
Definition evolves (R : pystr -> UploadSession -> UploadSession -> Prop) (l l' : list (pystr * UploadSession)) : Prop :=
  Forall2 (fun kv kv' => kv'.1 = kv.1 /\ R kv.1 kv.2 kv'.2) l l'.

Lemma evolves_keys R l l' : evolves R l l' -> l'.*1 = l.*1.
Proof. induction 1 as [|[k s] [k' s'] l l' [E _] _ IH]; cbn in *; congruence. Qed.

Lemma evolves_mono (R R' : pystr -> UploadSession -> UploadSession -> Prop) l l' :
  (forall k s s', R k s s' -> R' k s s') -> evolves R l l' -> evolves R' l l'.
Proof. intros HR Hl. eapply Forall2_impl; [exact Hl|]. naive_solver. Qed.

Lemma evolves_refl (R : pystr -> UploadSession -> UploadSession -> Prop) l : (forall k s, (k, s) ∈ l -> R k s s) -> evolves R l l.
Proof.
  intros HR. induction l as [|[k s] l IH]; constructor; [split; [done|apply HR; by left]|]. apply IH. intros. apply HR. by right.
Qed.

Lemma evolves_trans (R1 R2 R3 : pystr -> UploadSession -> UploadSession -> Prop) l1 l2 l3 :
  (forall k s1 s2 s3, R1 k s1 s2 -> R2 k s2 s3 -> R3 k s1 s3) -> evolves R1 l1 l2 -> evolves R2 l2 l3 -> evolves R3 l1 l3.
Proof.
  intros HR H1. revert l3. induction H1 as [|[k s] [k' s'] l l' [E H] _ IH]; intros l3 H3; inversion H3 as [|? [k'' s''] ? ? [E' H'] H3']; subst; constructor.
  - cbn in *. subst. split; [done|by eapply HR].
  - by apply IH.
Qed.

Lemma evolves_get R l l' k s : evolves R l l' -> dict_get k l = Some s -> exists s', dict_get k l' = Some s' /\ R k s s'.
Proof.
  induction 1 as [|[x s1] [x' s1'] l l' [E H] _ IH]; cbn in *; [done|]. subst x'. case_decide; [|done].
  intros [= <-]. subst. by exists s1'.
Qed.

Lemma evolves_get_back R l l' k s' : evolves R l l' -> dict_get k l' = Some s' -> exists s, dict_get k l = Some s /\ R k s s'.
Proof.
  induction 1 as [|[x s1] [x' s1'] l l' [E H] _ IH]; cbn in *; [done|]. subst x'. case_decide; [|done].
  intros [= <-]. subst. by exists s1.
Qed.

Definition replaced (key : pystr) (s s' : UploadSession) (k : pystr) (x x' : UploadSession) : Prop :=
  (k = key /\ x = s /\ x' = s') \/ (k <> key /\ x' = x).

Lemma with_session_evolves key s s' l : NoDup l.*1 -> dict_get key l = Some s -> evolves (replaced key s s') l (with_session key (fun _ => s') l).
Proof.
  induction l as [|[k x] l IH]; [done|]. intros [Hk Hl]%NoDup_cons. rewrite with_session_cons. cbn [dict_get]. case_decide as E.
  - intros [= ->]. subst k. rewrite with_session_other, bool_decide_eq_true_2 by done. constructor; [split; [done|by left]|].
    apply (evolves_refl (replaced key s s')). intros k y Hy. right. split; [|done]. intros ->. apply Hk. apply (list_elem_of_fmap_2 fst) in Hy. exact Hy.
  - intros Hg. rewrite bool_decide_eq_false_2 by done. constructor; [split; [done|by right]|by apply IH].
Qed.

(** The sessions without some keys. *)
Definition without (keys : list pystr) (l : list (pystr * UploadSession)) : list (pystr * UploadSession) :=
  List.filter (fun kv => negb (mem kv.1 keys)) l.

Lemma without_nil l : without [] l = l.
Proof. induction l as [|kv l IH]; [done|]. cbn. f_equal. exact IH. Qed.

Lemma without_cons key keys l : without keys (dict_pop key l) = without (key :: keys) l.
Proof.
  unfold without, dict_pop. induction l as [|[k s] l IH]; cbn; [done|]. unfold mem in *.
  destruct (bool_decide_reflect (k = key)) as [->|Hne]; cbn.
  - rewrite bool_decide_eq_true_2 by (by left). cbn. exact IH.
  - rewrite IH. assert (bool_decide (k ∈ key :: keys) = bool_decide (k ∈ keys)) as -> by (apply bool_decide_ext; rewrite elem_of_cons; tauto). done.
Qed.

Lemma without_get keys l k : dict_get k (without keys l) = if decide (k ∈ keys) then None else dict_get k l.
Proof.
  unfold without, mem. induction l as [|[x s] l IH]; cbn; [by case_decide|]. destruct (bool_decide_reflect (x ∈ keys)); cbn; rewrite IH;
    repeat case_decide; congruence.
Qed.

Lemma without_all l keys : (forall k, k ∈ l.*1 -> k ∈ keys) -> without keys l = [].
Proof.
  unfold without, mem. induction l as [|[k s] l IH]; [done|]. intros Hk. cbn. rewrite bool_decide_eq_true_2 by (apply Hk; by left).
  apply IH. intros. apply Hk. by right.
Qed.

(** The rest of the state around a change of the sessions. *)
Record around (w w' : Uploads) : Prop := {
  ar_timer : timer w' = timer w;
  ar_volume : volume w' = volume w;
  ar_now : now w <= now w';
  ar_disk : disk w = [] -> disk w' = []
}.

Lemma around_refl w : around w w.
Proof. by split. Qed.
Lemma around_trans w1 w2 w3 : around w1 w2 -> around w2 w3 -> around w1 w3.
Proof. intros [H2 H3 H4 H5] [K2 K3 K4 K5]. split; try congruence; [lia|auto]. Qed.
Lemma quiet_around w w' : quiet w w' -> around w w'.
Proof. intros []. by split. Qed.
Lemma only_around w key s w' : only w key s w' -> around w w'.
Proof. intros []. by split. Qed.

Lemma wp_close_file f w Q : (forall w', quiet w w' -> Q (Ok tt) w') -> (forall w', quiet w w' -> disk w <> [] -> Q (Raise OSError) w') -> wp (close_file f) Q w.
Proof.
  intros HQ HR. unfold close_file. destruct (on_disk f); [|by apply HQ, quiet_refl]. apply wp_bind. unfold wp at 1, next_outcome.
  destruct (disk w) as [|[|n] l] eqn:E; cbn; [by apply HQ, quiet_refl|apply HQ|apply HR; [|done]]; split; cbn; try done; by rewrite E.
Qed.

Lemma wp_release keys w Q : (forall w', sessions w' = without keys (sessions w) -> around w w' -> Q (Ok tt) w') -> wp (release keys) Q w.
Proof.
  revert w Q. induction keys as [|key keys IH]; intros w Q HQ; cbn [release].
  { apply HQ; [by rewrite without_nil|apply around_refl]. }
  apply wp_bind. unfold release_one. apply wp_bind, wp_gets.
  assert (forall w1, sessions w1 = dict_pop key (sessions w) -> around w w1 -> wp (release keys) Q w1) as Hrest.
  { intros w1 E1 H1. apply IH. intros w2 E2 H2. apply HQ; [by rewrite E2, E1, without_cons|by eapply around_trans]. }
  destruct (dict_get key (sessions w)) as [s|] eqn:Hs.
  - apply wp_bind, wp_modify, wp_catch, wp_close_file; intros w1 [E1 E2 E3 E4 E5]; cbn in *; [|intros _]; apply Hrest; try done; by split.
  - apply wp_ret, Hrest; [|apply around_refl]. symmetry. by apply dict_pop_absent, dict_get_None.
Qed.

(** The keys that a sweep finds expired. *)
Lemma wp_expired_keys l w Q :
  (forall keys w', quiet w w' -> (forall k s, (k, s) ∈ l -> claimed s = false -> expires s <= now w -> k ∈ keys) ->
     (forall k, k ∈ keys -> exists s, ((k, s) ∈ l) /\ claimed s = false /\ expires s <= now w') -> Q (Ok keys) w') ->
  wp (expired_keys l) Q w.
Proof.
  revert w Q. induction l as [|[k s] l IH]; intros w Q HQ; cbn [expired_keys].
  { apply wp_ret, HQ; [apply quiet_refl|by intros ? ? ?%not_elem_of_nil|by intros ? ?%not_elem_of_nil]. }
  apply wp_bind.
  assert (forall (gone : bool) w1, quiet w w1 -> (gone = true -> claimed s = false /\ expires s <= now w1) ->
    (claimed s = false -> expires s <= now w -> gone = true) ->
    wp (rest ← expired_keys l; mret (if gone then k :: rest else rest)) Q w1) as Hrest.
  { intros gone w1 H1 Hg Hg'. apply wp_bind, IH. intros keys w2 H2 Hin Hout. apply wp_ret, HQ; [by eapply quiet_trans|..].
    - intros k' s' Hk Hc He. apply elem_of_cons in Hk as [[= -> ->]|Hk]; [rewrite Hg' by done; by left|].
      pose proof (qu_now _ _ H1). destruct gone; [right|]; eapply Hin; try done; lia.
    - intros k' Hk. pose proof (qu_now _ _ H2). destruct gone; [apply elem_of_cons in Hk as [->|Hk]|].
      + exists s. destruct Hg as [? ?]; [done|]. split_and!; [by left|done|lia].
      + destruct (Hout k' Hk) as (s'&?&?&?). exists s'. split_and!; [by right|done..].
      + destruct (Hout k' Hk) as (s'&?&?&?). exists s'. split_and!; [by right|done..]. }
  destruct (claimed s) eqn:Hc; [apply wp_ret, (Hrest false); [apply quiet_refl|done|done]|].
  apply wp_bind. unfold wp at 1. pose proof (quiet_monotonic w) as Hq. cbn [fst snd monotonic] in Hq |- *. set (t := now w + _) in *. apply wp_ret, (Hrest (expires s <=? t)); [done|..].
  - intros E%Z.leb_le. split; [done|]. exact E.
  - intros _ He. apply Z.leb_le. subst t. lia.
Qed.

Lemma wp_sweep w Q :
  (forall keys w', sessions w' = without keys (sessions w) -> now w <= now w' -> timer w' = bool_decide (sessions w' <> []) ->
     (forall k s, (k, s) ∈ sessions w -> claimed s = false -> expires s <= now w -> k ∈ keys) ->
     (forall k, k ∈ keys -> exists s, ((k, s) ∈ sessions w) /\ claimed s = false /\ expires s <= now w') -> Q (Ok tt) w') ->
  wp _sweep Q w.
Proof.
  intros HQ. unfold _sweep. apply wp_bind, wp_modify, wp_bind, wp_gets, wp_bind, wp_expired_keys. intros keys w1 [E1 E2 _ E4 _] Hin Hout.
  apply wp_bind, wp_release. intros w2 E6 [F1 _ F3 _]. apply wp_bind, wp_gets. cbn in *.
  assert (expires_bound : forall k, k ∈ keys -> exists s, ((k, s) ∈ sessions w) /\ claimed s = false /\ expires s <= now w2).
  { intros k (s&?&?&?)%Hout. exists s. split_and!; [done..|lia]. }
  destruct (sessions w2) as [|kv l] eqn:E; [apply wp_ret, (HQ keys)|apply wp_modify, (HQ keys)]; cbn; try done; try congruence; try lia.
  - rewrite E, bool_decide_eq_false_2 by (by intros ?). congruence.
  - by rewrite E, bool_decide_eq_true_2.
Qed.

Lemma wp_close w Q : (forall w', sessions w' = [] -> timer w' = false -> now w <= now w' -> Q (Ok tt) w') -> wp close Q w.
Proof.
  intros HQ. unfold close. apply wp_bind, wp_modify, wp_bind, wp_gets, wp_release. intros w1 E1 [F1 _ F3 _]. cbn in *. apply HQ; [|done..].
  rewrite E1. by apply without_all.
Qed.

Lemma wp_cancel key own w Q :
  (forall s w' r, open_session w key own s -> sessions w' = dict_pop key (sessions w) -> around w w' -> r = Ok tt \/ r = Raise OSError -> Q r w') ->
  (forall w', quiet w w' -> Q (Raise unavailable) w') -> wp (cancel key own) Q w.
Proof.
  intros HQ HR. unfold cancel. apply wp_bind, wp_get; [|by intros; apply HR]. intros s w1 Hs [E1 E2 E3 E4 E5] _.
  apply wp_bind, wp_modify, wp_close_file; intros w2 [F1 F2 F3 F4 F5]; cbn in *; [|intros _]; apply (HQ s); try done;
    try (by rewrite F1, E1); try (split; try congruence; [lia|auto]); auto.
Qed.

(** A new session. *)
Definition fresh_session (own tgt fld name : pystr) (n : Z) (s : UploadSession) : Prop :=
  owner s = own /\ target s = tgt /\ field s = fld /\ filename s = name /\ size s = n /\ offset s = 0 /\ content (file s) = [] /\ claimed s = false.

Definition has_room (own : pystr) (n : Z) (l : list (pystr * UploadSession)) : Prop :=
  zlen l < 16 /\ zlen (List.filter (fun kv => bool_decide (owner kv.2 = own)) l) < 4 /\ total (map (fun kv => size kv.2) l) + n <= 32 * 1024 ^ 3.

Lemma wp_volume_step w Q : (forall w', quiet w w' -> Q (Ok tt) w') -> (forall w', quiet w w' -> Q (Raise OSError) w') -> wp volume_step Q w.
Proof.
  intros HQ HR. unfold volume_step. apply wp_bind. unfold wp at 1, next_outcome.
  destruct (disk w) as [|[|n] l] eqn:E; cbn; [by apply HQ, quiet_refl|apply HQ|apply HR]; split; cbn; try done; by rewrite E.
Qed.

Lemma wp_open_file n w Q :
  (forall f w', quiet w w' -> content f = [] -> Q (Ok f) w') -> (forall e w', quiet w w' -> Q (Raise e) w') -> wp (open_file n) Q w.
Proof.
  intros HQ HR. unfold open_file. destruct (n <=? _); [apply wp_ret, HQ; [apply quiet_refl|done]|].
  apply wp_bind, wp_gets. generalize (volume w). intros v.
  assert (forall b e w1 k, quiet w w1 -> (forall w2, quiet w w2 -> wp k Q w2) -> wp (_ ← raise_when b e; k) Q w1) as Hraise.
  { intros b e w2 k Hw Hk. apply wp_bind, wp_lift. destruct b; cbn; [by apply HR|by apply Hk]. }
  assert (forall w1 k, quiet w w1 -> (forall w2, quiet w w2 -> wp k Q w2) -> wp (_ ← volume_step; k) Q w1) as Hstep.
  { intros w2 k Hw Hk. apply wp_bind, wp_volume_step; intros w3 H3; [apply Hk|apply HR]; by eapply quiet_trans. }
  apply Hraise; [apply quiet_refl|]. intros w1 Hq.
  repeat first [apply Hraise; [done|intros ? ?]|apply Hstep; [done|intros ? ?]|apply wp_bind, wp_gets].
  by apply wp_ret, HQ.
Qed.

Lemma wp_create key own tgt fld name n w Q :
  (forall s w', has_room own n (sessions w) -> fresh_session own tgt fld name n s -> sessions w' = dict_set key s (sessions w) -> timer w' = true ->
     now w <= now w' -> expires s = now w' + SESSION_SECONDS -> Q (Ok key) w') ->
  (forall e w', quiet w w' -> Q (Raise e) w') -> wp (create key own tgt fld name n) Q w.
Proof.
  intros HQ HR. unfold create. apply wp_bind, wp_gets, wp_bind, wp_lift. destruct (_ || _) eqn:E; cbn [raise_if]; [by apply HR, quiet_refl|].
  apply orb_false_iff in E as [[E1%Z.leb_gt E2%Z.leb_gt]%orb_false_iff E3%Z.ltb_ge].
  apply wp_bind, wp_open_file; [|done]. intros f w1 [F1 F2 F3 F4 F5] Hf.
  apply wp_bind. unfold wp at 1. cbn [fst snd monotonic]. apply wp_bind, wp_modify, wp_bind, wp_modify, wp_ret. eapply HQ; cbn; try done; try lia; try (by rewrite F1); [by split_and!|done].
Qed.

(** A session that was claimed. *)
Record taken (s s' : UploadSession) : Prop := {
  ta_owner : owner s' = owner s;
  ta_target : target s' = target s;
  ta_field : field s' = field s;
  ta_filename : filename s' = filename s;
  ta_size : size s' = size s;
  ta_offset : offset s' = offset s;
  ta_content : content (file s') = content (file s);
  ta_claimed : claimed s' = true
}.

Lemma wp_get_all keys own w Q :
  (forall l w', quiet w w' -> Forall2 (fun k s => open_session w k own s) keys l -> Q (Ok l) w') -> (forall w', quiet w w' -> Q (Raise unavailable) w') ->
  wp (get_all keys own) Q w.
Proof.
  assert (forall w0, quiet w0 w -> (forall l w', quiet w0 w' -> Forall2 (fun k s => open_session w0 k own s) keys l -> Q (Ok l) w') ->
    (forall w', quiet w0 w' -> Q (Raise unavailable) w') -> wp (get_all keys own) Q w) as Hall; [|apply Hall, quiet_refl].
  revert w Q. induction keys as [|key keys IH]; intros w Q w0 H0 HQ HR; cbn [get_all]; [by apply wp_ret, HQ|].
  apply wp_bind, wp_get; [|intros w1 H1 _; apply HR; by eapply quiet_trans]. intros s w1 Hs H1 _.
  apply wp_bind, (IH _ _ w0); [by eapply quiet_trans| |done].
  intros l w2 H2 Hl. apply wp_ret, HQ; [done|]. constructor; [|done]. unfold open_session in *. by rewrite <- (qu_sessions _ _ H0).
Qed.

Definition claims (keys : list pystr) (k : pystr) (s s' : UploadSession) : Prop :=
  ((k ∈ keys) /\ taken s s' /\ position (file s') = 0) \/ ((k ∉ keys) /\ s' = s).
Definition partly_claims (keys : list pystr) (k : pystr) (s s' : UploadSession) : Prop := s' = s \/ ((k ∈ keys) /\ taken s s').

Lemma wp_claim_all keys w Q : NoDup (sessions w).*1 -> NoDup keys -> Forall (fun k => k ∈ (sessions w).*1) keys ->
  (forall w', evolves (claims keys) (sessions w) (sessions w') -> around w w' -> Q (Ok tt) w') ->
  (forall w', evolves (partly_claims keys) (sessions w) (sessions w') -> around w w' -> disk w <> [] -> Q (Raise OSError) w') ->
  wp (claim_all keys) Q w.
Proof.
  revert w Q. induction keys as [|key keys IH]; intros w Q Hn Hk Hin HQ HR; cbn [claim_all].
  { apply wp_ret, HQ; [|apply around_refl]. apply evolves_refl. intros k s _. right. split; [apply not_elem_of_nil|done]. }
  apply NoDup_cons in Hk as [Hkey Hk]. apply Forall_cons in Hin as [Hpresent Hin].
  destruct (dict_get key (sessions w)) as [s|] eqn:Hs; [|by apply dict_get_None in Hs].
  apply wp_bind, (wp_change w key s w); [by apply quiet_only, quiet_refl|]. intros w1 H1 _.
  apply wp_bind. eapply (wp_seek w key s Hs); [exact H1| |].
  - cbn. set (s2 := set_file _ _). intros w2 H2 _. pose proof (only_around _ _ _ _ H2) as Ha.
    assert (taken s s2 /\ position (file s2) = 0) as [Ht Hp] by (split; [by split|done]).
    pose proof (with_session_evolves key s s2 _ Hn Hs) as He. rewrite <- (on_sessions _ _ _ _ H2) in He.
    assert ((sessions w2).*1 = (sessions w).*1) as Ek by (by eapply evolves_keys).
    apply IH; [by rewrite Ek|done|by rewrite Ek|..].
    + intros w3 H3 Ha3. apply HQ; [|by eapply around_trans]. eapply evolves_trans; [|exact He|exact H3].
      intros k x y z [(->&->&->)|[Hne ->]] [(Hin'&Hz)|[Hout ->]]; [done|left; split; [by left|done]|left; split; [by right|done]|].
      right. split; [by rewrite not_elem_of_cons|done].
    + intros w3 H3 Ha3 Hd. apply HR; [|by eapply around_trans|intros E; apply Hd; by apply Ha]. eapply evolves_trans; [|exact He|exact H3].
      intros k x y z [(->&->&->)|[Hne ->]] [->|[Hin' Ht']]; [right; split; [by left|done]|done|by left|right; split; [by right|done]].
  - intros w2 H2 Hd. apply HR; [|by eapply only_around|done]. pose proof (with_session_evolves key s (set_claimed s) _ Hn Hs) as He.
    rewrite (on_sessions _ _ _ _ H2). eapply evolves_mono; [|exact He]. intros k x y [(->&->&->)|[_ ->]]; [|by left]. right. split; [by left|by split].
Qed.

Lemma wp_claim keys own tgt w Q : NoDup (sessions w).*1 ->
  (forall w', Forall (fun k => exists s, open_session w k own s /\ target s = tgt /\ offset s = size s) keys -> NoDup keys ->
     evolves (claims keys) (sessions w) (sessions w') -> around w w' -> Q (Ok keys) w') ->
  (forall e w', quiet w w' -> Q (Raise e) w') ->
  (forall w', Forall (fun k => exists s, open_session w k own s) keys ->
     evolves (partly_claims keys) (sessions w) (sessions w') -> around w w' -> disk w <> [] -> Q (Raise OSError) w') ->
  wp (claim keys own tgt) Q w.
Proof.
  intros Hn HQ HR HF. unfold claim. apply wp_bind, wp_lift. destruct (all_distinct keys) eqn:Hd; cbn [negb raise_if]; [|apply HR, quiet_refl].
  apply bool_decide_eq_true in Hd. apply wp_bind, wp_get_all; [|by intros; apply HR]. intros l w1 H1 Hl. apply wp_bind, wp_lift.
  destruct (existsb _ l) eqn:E; cbn [raise_if]; [by apply HR|].
  assert (Forall (fun k => exists s, open_session w k own s /\ target s = tgt /\ offset s = size s) keys) as Hall.
  { apply Forall_forall. intros k Hk. apply list_elem_of_lookup in Hk as (i&Hi). destruct (Forall2_lookup_l _ _ _ _ _ Hl Hi) as (s&Hi'&Hs).
    exists s. split; [done|]. assert (existsb (fun s => negb (bool_decide (target s = tgt)) || negb (offset s =? size s)) [s] = false) as Es.
    { apply not_true_iff_false. intros Ht. apply not_true_iff_false in E. apply E. apply existsb_exists. exists s.
      split; [apply list_elem_of_In; by eapply list_elem_of_lookup_2|]. cbn in Ht. by rewrite orb_false_r in Ht. }
    cbn in Es. rewrite orb_false_r in Es. apply orb_false_iff in Es as [E1%negb_false_iff%bool_decide_eq_true E2%negb_false_iff%Z.eqb_eq]. done. }
  pose proof (qu_sessions _ _ H1) as Es. pose proof (quiet_around _ _ H1) as Ha.
  apply wp_bind, wp_claim_all; [by rewrite Es|done| | |].
  - rewrite Es. eapply Forall_impl; [exact Hall|]. intros k (s&[Hs _]&_). apply dict_get_In in Hs. by apply (list_elem_of_fmap_2 fst) in Hs.
  - intros w2 H2 Ha2. apply wp_ret, HQ; [done|done|by rewrite <- Es|by eapply around_trans].
  - intros w2 H2 Ha2 Hd2. apply HF; [|by rewrite <- Es|by eapply around_trans|intros E'; apply Hd2; by apply Ha].
    eapply Forall_impl; [exact Hall|]. intros k (s&Hs&_). by exists s.
Qed.
