(* ===== verification/ChunkUploadsProps.v ===== *)
(** Upload sessions along every run: capacity is bounded, a file that is handed over is the
    one that was sent, sessions are isolated from each other, and abandoned ones are
    released. *)

From S2P Require Import Prelude Utf8 PyText Json Sha256 ChunkUploads ChunkUploadsSteps.
Open Scope Z_scope.

(* ------------------------------------------------------------------ *)
(** ** Runs *)

(** The calls of the endpoints and of the timer. *)
Inductive call : Type :=
| Create (key own tgt fld name : pystr) (n : Z)
| Append (key own : pystr) (off : Z) (data : bytes) (digest : pystr)
| Claim (keys : list pystr) (own tgt : pystr)
| Release (keys : list pystr)
| Cancel (key own : pystr)
| Sweep
| Close.

Inductive reply : Type :=
| Key (key : pystr)
| Offset (n : Z)
| Keys (keys : list pystr)
| Nothing.

Definition perform (c : call) : UP reply :=
  match c with
  | Create key own tgt fld name n => k ← create key own tgt fld name n; mret (Key k)
  | Append key own off data digest => n ← append key own off data digest; mret (Offset n)
  | Claim keys own tgt => l ← claim keys own tgt; mret (Keys l)
  | Release keys => _ ← release keys; mret Nothing
  | Cancel key own => _ ← cancel key own; mret Nothing
  | Sweep => _ ← _sweep; mret Nothing
  | Close => _ ← close; mret Nothing
  end.

Abbreviation Trace := (list (call * res reply)).

Definition created (tr : Trace) : list pystr :=
  concat (map (fun cr => match cr.1 with Create key _ _ _ _ _ => [key] | _ => [] end) tr).

(** What the endpoints check, and that a random key is new. *)
Definition admissible (tr : Trace) (c : call) : Prop :=
  match c with Create key _ _ _ _ n => 0 < n /\ key ∉ created tr | _ => True end.

(** Calls in any order, and anything else that happens to the clock, the volume and the disk. *)
Inductive run : Trace -> Uploads -> Prop :=
| run_start w : sessions w = [] -> run [] w
| run_call tr w c r w' : run tr w -> admissible tr c -> perform c w = (r, w') -> run (tr ++ [(c, r)]) w'
| run_world tr w w' : run tr w -> sessions w' = sessions w -> timer w' = timer w -> run tr w'.

(** The chunks of a session that were acknowledged, with their offsets. *)
Definition acks (key : pystr) (tr : Trace) : list (Z * bytes) :=
  concat (map (fun cr => match cr with
                         | (Append k _ off data _, Ok _) => if bool_decide (k = key) then [(off, data)] else []
                         | _ => []
                         end) tr).

(** The file that the chunks make. *)
Definition assemble (chunks : list (Z * bytes)) : bytes :=
  fold_left (fun acc od => if od.1 =? zlen acc then acc ++ od.2 else acc) chunks [].

(* ------------------------------------------------------------------ *)
(** ** The invariant *)

Definition owned (o : pystr) (l : list (pystr * UploadSession)) : Z := zlen (List.filter (fun kv => bool_decide (owner kv.2 = o)) l).
Definition reserved (l : list (pystr * UploadSession)) : Z := total (map (fun kv => size kv.2) l).

Record within_capacity (l : list (pystr * UploadSession)) : Prop := {
  wc_sessions : zlen l <= 16;
  wc_owned : forall o, owned o l <= 4;
  wc_reserved : reserved l <= 32 * 1024 ^ 3
}.

Record store_ok (w : Uploads) : Prop := {
  st_keys : NoDup (sessions w).*1;
  st_capacity : within_capacity (sessions w);
  st_sessions : Forall (fun kv => session_ok kv.2) (sessions w);
  st_timer : sessions w <> [] -> timer w = true
}.

Lemma owned_cons o k s l : owned o ((k, s) :: l) = (if bool_decide (owner s = o) then 1 else 0) + owned o l.
Proof. unfold owned. cbn. destruct (bool_decide _); [by rewrite zlen_cons|done]. Qed.
Lemma reserved_cons k s l : reserved ((k, s) :: l) = size s + reserved l.
Proof. done. Qed.
Lemma without_step keys k s l : without keys ((k, s) :: l) = if mem k keys then without keys l else (k, s) :: without keys l.
Proof. unfold without. cbn. by destruct (mem k keys). Qed.

Lemma without_keys keys l : sublist (without keys l).*1 l.*1.
Proof. induction l as [|[k s] l IH]; [constructor|]. rewrite without_step. destruct (mem k keys); by constructor. Qed.

Lemma evolves_capacity R l l' : (forall k s s', R k s s' -> owner s' = owner s /\ size s' = size s) -> evolves R l l' ->
  zlen l' = zlen l /\ (forall o, owned o l' = owned o l) /\ reserved l' = reserved l.
Proof.
  intros HR He. induction He as [|[k s] [k' s'] l l' [E H] _ (IH1&IH2&IH3)]; [done|]. cbn in E, H. subst k'. destruct (HR _ _ _ H) as [Eo Es].
  split_and!; [rewrite !zlen_cons; lia|intros o; rewrite !owned_cons, Eo, IH2; lia|rewrite !reserved_cons; lia].
Qed.

Lemma without_capacity keys l : Forall (fun kv => 0 <= size kv.2) l -> within_capacity l -> within_capacity (without keys l).
Proof.
  intros Hs [H1 H2 H3].
  assert (zlen (without keys l) <= zlen l /\ (forall o, owned o (without keys l) <= owned o l) /\ reserved (without keys l) <= reserved l) as (L1&L2&L3).
  { clear H1 H2 H3. induction Hs as [|[k s] l Hs _ (IH1&IH2&IH3)]; [done|]. cbn in Hs. rewrite without_step.
    split_and!; [|intros o; specialize (IH2 o)|]; destruct (mem k keys); rewrite ?zlen_cons, ?owned_cons, ?reserved_cons; try lia; destruct (bool_decide _); lia. }
  split; [lia|intros o; specialize (L2 o); specialize (H2 o); lia|lia].
Qed.

Lemma set_capacity key own n l s : key ∉ l.*1 -> within_capacity l -> has_room own n l -> owner s = own -> size s = n -> within_capacity (dict_set key s l).
Proof.
  intros Hk [H1 H2 H3] (R1&R2&R3) <- <-. rewrite dict_set_absent by done. split.
  - rewrite zlen_app. unfold zlen in *. cbn. lia.
  - intros o. specialize (H2 o). unfold owned in *. rewrite List.filter_app, zlen_app. cbn. destruct (bool_decide_reflect (owner s = o)) as [<-|]; unfold zlen in *; cbn; lia.
  - unfold reserved, total in *. rewrite map_app, foldr_app. cbn. assert (forall m l, foldr Z.add m l = foldr Z.add 0 l + m) as E.
    { intros m k. induction k; cbn; lia. } rewrite E. lia.
Qed.

Lemma evolves_looked_up R l l' : NoDup l.*1 -> evolves R l l' -> evolves (fun k s s' => dict_get k l = Some s /\ R k s s') l l'.
Proof.
  intros Hn He. assert (forall k s, (k, s) ∈ l -> dict_get k l = Some s) as Hl by (intros; by apply dict_get_elem).
  revert Hl. generalize l at 2 3. intros l0 Hl. induction He as [|[k s] [k' s'] l l' [E H] _ IH]; [constructor|]. constructor.
  - split; [done|]. split; [|done]. apply Hl. by left.
  - apply NoDup_cons in Hn as [_ Hn]. apply IH; [done|]. intros. apply Hl. by right.
Qed.

(** The uploads that were handed over. *)
Definition handed (tr : Trace) : list pystr :=
  concat (map (fun cr => match cr with (Claim keys _ _, Ok _) => keys | _ => [] end) tr).

(** The sessions hold what was acknowledged and are those that were created; those of uploads
    that were handed over are claimed. *)
Record inv (tr : Trace) (w : Uploads) : Prop := {
  in_ok : store_ok w;
  in_held : forall k s, dict_get k (sessions w) = Some s -> held s = assemble (acks k tr) /\
    exists r, (Create k (owner s) (target s) (field s) (filename s) (size s), Ok r) ∈ tr;
  in_acks : forall k, k ∉ created tr -> acks k tr = [];
  in_handed : forall k, k ∈ handed tr -> k ∈ created tr /\ forall s, dict_get k (sessions w) = Some s -> claimed s = true
}.

Lemma acks_app key tr tr' : acks key (tr ++ tr') = acks key tr ++ acks key tr'.
Proof. unfold acks. by rewrite map_app, concat_app. Qed.
Lemma created_app tr tr' : created (tr ++ tr') = created tr ++ created tr'.
Proof. unfold created. by rewrite map_app, concat_app. Qed.

Lemma handed_app tr tr' : handed (tr ++ tr') = handed tr ++ handed tr'.
Proof. unfold handed. by rewrite map_app, concat_app. Qed.
Lemma handed_raise c e : handed [(c, Raise e)] = [].
Proof. by destruct c. Qed.

Lemma in_created tr key own tgt fld name n r : (Create key own tgt fld name n, r) ∈ tr -> key ∈ created tr.
Proof. intros Hin. unfold created. apply concat_map_elem. eexists. split; [exact Hin|]. by left. Qed.

Lemma assemble_app l off data : assemble (l ++ [(off, data)]) = if off =? zlen (assemble l) then assemble l ++ data else assemble l.
Proof. unfold assemble. by rewrite fold_left_app. Qed.

Lemma sizes_ok w : store_ok w -> Forall (fun kv => 0 <= size kv.2) (sessions w).
Proof. intros Hok. eapply Forall_impl; [apply Hok|]. intros [k s] [H1 H2]. cbn in *. pose proof (zlen_nonneg (content (file s))). lia. Qed.

(** Preservation when sessions change in place. *)
Lemma inv_evolves R tr w c r w' : inv tr w -> evolves R (sessions w) (sessions w') -> timer w' = timer w -> created [(c, r)] = [] ->
  (forall k, k ∉ created tr -> acks k [(c, r)] = []) ->
  (forall k, k ∈ handed [(c, r)] -> k ∈ created tr /\ forall s s', R k s s' -> claimed s' = true) ->
  (forall k s s', dict_get k (sessions w) = Some s -> session_ok s -> R k s s' -> owner s' = owner s /\ target s' = target s /\ field s' = field s /\
     filename s' = filename s /\ size s' = size s /\ session_ok s' /\ held s' = assemble (acks k tr ++ acks k [(c, r)]) /\ (claimed s = true -> claimed s' = true)) ->
  inv (tr ++ [(c, r)]) w'.
Proof.
  intros [Hok Hheld Hacks Hhand] He Ht Hc Hnew Hhanded HR. pose proof (evolves_keys _ _ _ He) as Ek.
  assert (forall k s, dict_get k (sessions w) = Some s -> session_ok s) as Hsok.
  { intros k s Hs%dict_get_In. pose proof (st_sessions _ Hok) as Hf. rewrite Forall_forall in Hf. by apply (Hf (k, s)). }
  pose proof (evolves_looked_up _ _ _ (st_keys _ Hok) He) as He'.
  destruct (evolves_capacity _ _ _ (fun k s s' H => let '(conj H1 H2) := H in
    let '(conj E1 (conj _ (conj _ (conj _ (conj E2 _))))) := HR k s s' H1 (Hsok k s H1) H2 in conj E1 E2) He') as (C1&C2&C3).
  split.
  - split; [rewrite Ek; apply Hok| | |].
    + destruct (st_capacity _ Hok). split; [lia|intros o; rewrite C2; done|lia].
    + apply Forall_forall. intros [k s'] Hin. apply dict_get_elem in Hin; [|rewrite Ek; apply Hok].
      destruct (evolves_get_back _ _ _ _ _ He' Hin) as (s&_&Hs&Hr). by apply (HR k s s' Hs (Hsok k s Hs) Hr).
    + intros Hne. rewrite Ht. apply Hok. intros E. apply Hne. rewrite E in He. by inversion He.
  - intros k s' Hs'. destruct (evolves_get_back _ _ _ _ _ He' Hs') as (s&_&Hs&Hr).
    destruct (HR k s s' Hs (Hsok k s Hs) Hr) as (E1&E2&E3&E4&E5&_&Eh&_). rewrite acks_app. split; [done|].
    destruct (Hheld k s Hs) as (_&r'&Hin). exists r'. rewrite E1, E2, E3, E4, E5, elem_of_app. by left.
  - intros k. rewrite created_app, Hc, app_nil_r, acks_app. intros Hk. by rewrite Hacks, Hnew.
  - intros k. rewrite created_app, Hc, app_nil_r, handed_app, elem_of_app. intros [[Hk Hcl]%Hhand|[Hk Hcl]%Hhanded]; (split; [done|]);
      intros s' Hs'; destruct (evolves_get_back _ _ _ _ _ He' Hs') as (s&_&Hs&Hr); [apply (HR k s s' Hs (Hsok k s Hs) Hr); by apply Hcl|by eapply Hcl].
Qed.

(** Preservation when sessions are dropped. *)
Lemma inv_without tr w c r w' keys : inv tr w -> sessions w' = without keys (sessions w) -> (sessions w' <> [] -> timer w = true -> timer w' = true) ->
  created [(c, r)] = [] -> (forall k, acks k [(c, r)] = []) -> handed [(c, r)] = [] -> inv (tr ++ [(c, r)]) w'.
Proof.
  intros [Hok Hheld Hacks Hhand] Es Ht Hc Hnew Hno. split.
  - assert (forall kv, kv ∈ sessions w' -> kv ∈ sessions w) as Hsub by (intros kv; rewrite Es; unfold without; rewrite filter_elem; tauto).
    split; [| | |].
    + rewrite Es. eapply sublist_NoDup; [apply Hok|apply without_keys].
    + rewrite Es. apply without_capacity; [by apply sizes_ok|apply Hok].
    + apply Forall_forall. intros kv Hin%Hsub. pose proof (st_sessions _ Hok) as Hf. rewrite Forall_forall in Hf. by apply Hf.
    + intros Hne. apply Ht; [done|]. apply Hok. intros E. apply Hne. by rewrite Es, E.
  - intros k s. rewrite Es, without_get. case_decide; [done|]. intros Hs. rewrite acks_app, Hnew, app_nil_r.
    destruct (Hheld k s Hs) as (E&r'&Hin). split; [done|]. exists r'. rewrite elem_of_app. by left.
  - intros k. rewrite created_app, Hc, app_nil_r, acks_app, Hnew, app_nil_r. apply Hacks.
  - intros k. rewrite created_app, Hc, handed_app, Hno, !app_nil_r. intros [Hk Hcl]%Hhand. split; [done|]. intros s.
    rewrite Es, without_get. case_decide; [done|]. apply Hcl.
Qed.

Lemma inv_same tr w c r w' : inv tr w -> sessions w' = sessions w -> timer w' = timer w -> created [(c, r)] = [] -> (forall k, acks k [(c, r)] = []) ->
  handed [(c, r)] = [] -> inv (tr ++ [(c, r)]) w'.
Proof. intros Hi Es Et Hc Ha Hh. apply (inv_without tr w c r w' []); [done|by rewrite without_nil|by rewrite Et|done..]. Qed.

Lemma reply_nonempty s off data digest n : append_reply s off data digest = Ok n -> data <> [].
Proof. intros E ->. discriminate E. Qed.

Lemma inv_append tr w key own off data digest : inv tr w ->
  wp (perform (Append key own off data digest)) (fun r w' => inv (tr ++ [(Append key own off data digest, r)]) w') w.
Proof.
  intros Hi. pose proof (in_ok _ _ Hi) as Hok. cbn [perform]. apply wp_bind. eapply wp_mono; [apply append_spec; apply Hok|].
  intros r w' [(->&Hq&_)|(s&s'&Hopen&Ho&Hr)]; [by apply (inv_same tr w); try apply Hq|]. destruct Hopen as (Hs&_).
  pose proof (with_session_evolves key s s' _ (st_keys _ Hok) Hs) as He. rewrite <- (on_sessions _ _ _ _ Ho) in He.
  destruct (in_held _ _ Hi key s Hs) as (Hh&r'&Hcr). apply in_created in Hcr.
  assert (session_ok s) as Hsok. { pose proof (st_sessions _ Hok) as Hf. rewrite Forall_forall in Hf. by apply (Hf (key, s)), dict_get_In. }
  destruct r as [n|e].
  - destruct Hr as ((Hsame&Hok'&Hacc)&->&Hrep%reply_nonempty). apply wp_ret. eapply (inv_evolves _ tr w); [done|exact He|apply Ho|done| |by intros k ?%elem_of_nil|].
    + intros k Hk. unfold acks. cbn. by rewrite bool_decide_eq_false_2 by (by intros ->).
    + intros k x x' Hx Hxok [(->&->&->)|[Hne ->]].
      * destruct Hsame. split_and!; try done; [|congruence]. unfold acks at 2. cbn. rewrite bool_decide_eq_true_2 by done. cbn [app]. rewrite assemble_app, <- Hh, held_length by done.
        pose proof (zlen_nonneg data). destruct Hacc as [[-> E]|(E1&E2&E3&E4)]; [by rewrite Z.eqb_refl|].
        destruct (Z.eqb_spec off (offset s)) as [E5|]; [|done].
        exfalso. destruct data as [|b d]; [done|]. rewrite zlen_cons in E2. pose proof (zlen_nonneg d). lia.
      * split_and!; try done. unfold acks at 2. cbn. rewrite bool_decide_eq_false_2 by (by intros ->). cbn [app]. rewrite app_nil_r. by apply Hi.
  - clear Hok. destruct Hr as ((Hsame&Hok'&_&Hh')&_). eapply (inv_evolves _ tr w); [done|exact He|apply Ho|done|done|by intros k ?%elem_of_nil|].
    intros k x x' Hx Hxok [(->&->&->)|[Hne ->]]; [destruct Hsame|]; (split_and!; try done); try congruence; unfold acks at 2; cbn; rewrite app_nil_r; [by rewrite Hh'|by apply Hi].
Qed.

Lemma inv_create tr w key own tgt fld name n : inv tr w -> 0 < n -> key ∉ created tr ->
  wp (perform (Create key own tgt fld name n)) (fun r w' => inv (tr ++ [(Create key own tgt fld name n, r)]) w') w.
Proof.
  intros Hi Hn Hk. pose proof Hi as [Hok Hheld Hacks Hhand]. cbn [perform]. apply wp_bind.
  assert (forall r, created [(Create key own tgt fld name n, r)] = [key]) as Hc by done.
  assert (forall r k, k ∉ created (tr ++ [(Create key own tgt fld name n, r)]) -> acks k (tr ++ [(Create key own tgt fld name n, r)]) = []) as Hacks'.
  { intros r k. rewrite created_app, acks_app, not_elem_of_app. intros [Hk' _]. by rewrite Hacks. }
  assert (forall r w', (forall k, k <> key -> dict_get k (sessions w') = dict_get k (sessions w)) ->
    forall k, k ∈ handed (tr ++ [(Create key own tgt fld name n, r)]) ->
    k ∈ created (tr ++ [(Create key own tgt fld name n, r)]) /\ forall s, dict_get k (sessions w') = Some s -> claimed s = true) as Hhand'.
  { intros r w' Hsame k. rewrite handed_app, created_app. unfold handed at 2. cbn [map concat]. rewrite app_nil_r. intros [Hc' Hcl]%Hhand.
    split; [rewrite elem_of_app; by left|]. by rewrite Hsame by (by intros ->). }
  assert (key ∉ (sessions w).*1) as Hnew.
  { intros Hin. apply Hk. destruct (dict_get key (sessions w)) as [s|] eqn:Hs; [|by apply dict_get_None in Hs].
    destruct (Hheld key s Hs) as (_&r&Hcr). by eapply in_created. }
  apply wp_create.
  - intros s w' Hroom (E1&E2&E3&E4&E5&E6&E7&E8) Es Ht _ _. apply wp_ret. split; [|intros k x|apply Hacks'|apply Hhand'; intros k Hne; by rewrite Es, dict_get_set, decide_False].
    + split; [rewrite Es; apply dict_set_NoDup, Hok| | |done].
      * rewrite Es. by eapply set_capacity; try apply Hok.
      * rewrite Es, dict_set_absent by done. apply Forall_app. split; [apply Hok|]. constructor; [|done]. cbn [snd]. split; rewrite E7, ?E6, ?E5; unfold zlen; cbn [length]; lia.
    + rewrite Es, dict_get_set, acks_app. unfold acks at 2. cbn [map concat]. rewrite app_nil_r. case_decide as E.
      * subst k. intros [= <-]. rewrite Hacks by done. split; [unfold held; by rewrite E7, take_nil|]. eexists. rewrite elem_of_app. right.
        rewrite E1, E2, E3, E4, E5. by left.
      * intros Hs. destruct (Hheld k x Hs) as (E9&r&Hin). split; [done|]. exists r. rewrite elem_of_app. by left.
  - intros e w' Hq. split; [|intros k x|apply Hacks'|apply Hhand'; intros k _; by rewrite (qu_sessions _ _ Hq)].
    + destruct Hq as [F1 F2 F3 F4]. split; rewrite ?F1, ?F2; apply Hok.
    + rewrite (qu_sessions _ _ Hq), acks_app. unfold acks at 2. cbn [map concat]. rewrite app_nil_r. intros Hs.
      destruct (Hheld k x Hs) as (E9&r&Hin). split; [done|]. exists r. rewrite elem_of_app. by left.
Qed.

Lemma taken_ok s s' : session_ok s -> taken s s' -> session_ok s' /\ held s' = held s.
Proof. intros [H1 H2] [_ _ _ _ E5 E6 E7 _]. split; [split; rewrite ?E5, ?E6, E7; done|]. unfold held. by rewrite E6, E7. Qed.

Lemma inv_claim tr w keys own tgt : inv tr w -> wp (perform (Claim keys own tgt)) (fun r w' => inv (tr ++ [(Claim keys own tgt, r)]) w') w.
Proof.
  intros Hi. pose proof (in_ok _ _ Hi) as Hok. cbn [perform].
  assert (forall R r w', (forall k s s', R k s s' -> partly_claims keys k s s') -> evolves R (sessions w) (sessions w') -> around w w' ->
    (forall k, k ∈ handed [(Claim keys own tgt, r)] -> k ∈ created tr /\ forall s s', R k s s' -> claimed s' = true) ->
    inv (tr ++ [(Claim keys own tgt, r)]) w') as Hpartly.
  { intros R r w' HR He Ha Hh. apply (inv_evolves _ tr w _ _ _ Hi He); [apply Ha|done|done|exact Hh|]. intros k s s' Hs Hsok Hp%HR. unfold acks at 2.
    cbn [map concat]. rewrite app_nil_r, <- (proj1 (in_held _ _ Hi k s Hs)). destruct Hp as [->|[_ Ht]]; [by split_and!|].
    destruct (taken_ok _ _ Hsok Ht). destruct Ht. by split_and!. }
  apply wp_bind, wp_claim; [apply Hok|..].
  - intros w' Hall _ He Ha. apply wp_ret. eapply Hpartly; [|exact He|done|].
    + intros k s s' [(H1&H2&_)|[_ ->]]; [by right|by left].
    + unfold handed. cbn [map concat]. rewrite app_nil_r. intros k Hk. rewrite Forall_forall in Hall. destruct (Hall k Hk) as (s&(Hs&_)&_). split.
      * destruct (in_held _ _ Hi k s Hs) as (_&a&Hin). by eapply in_created.
      * by intros x x' [(_&[]&_)|[Hn _]].
  - intros e w' Hq. by apply (inv_same tr w); try apply Hq.
  - intros w' _ He Ha _. eapply Hpartly; [|exact He|done|by intros k ?%elem_of_nil]. done.
Qed.

(** Every call preserves the invariant, whatever the disk does. *)
Lemma inv_perform tr w c : inv tr w -> admissible tr c -> wp (perform c) (fun r w' => inv (tr ++ [(c, r)]) w') w.
Proof.
  intros Hi Hadm. destruct c as [key own tgt fld name n|key own off data digest|keys own tgt|keys|key own| |].
  - destruct Hadm. by apply inv_create.
  - by apply inv_append.
  - by apply inv_claim.
  - apply wp_bind, wp_release. intros w' Es Ha. apply wp_ret. eapply inv_without; [done|exact Es|by rewrite (ar_timer _ _ Ha)|done..].
  - apply wp_bind, wp_cancel; [|intros w' Hq; by apply (inv_same tr w); try apply Hq].
    intros s w' r _ Es Ha Hr. rewrite <- (without_nil (dict_pop _ _)), without_cons in Es.
    destruct Hr as [->| ->]; [apply wp_ret|]; (eapply inv_without; [done|exact Es|by rewrite (ar_timer _ _ Ha)|done..]).
  - apply wp_bind, wp_sweep. intros keys w' Es _ Ht _ _. apply wp_ret. eapply inv_without; [done|exact Es| |done..].
    intros Hne _. by rewrite Ht, bool_decide_eq_true_2.
  - apply wp_bind, wp_close. intros w' Es _ _. apply wp_ret. apply (inv_without tr w _ _ _ (sessions w).*1); [done| |by rewrite Es|done..].
    rewrite Es. symmetry. by apply without_all.
Qed.

Lemma run_inv tr w : run tr w -> inv tr w.
Proof.
  induction 1 as [w Es|tr w c r w' _ IH Hadm Hp|tr w w' _ IH Es Et].
  - split; [|by rewrite Es|done|by intros k ?%elem_of_nil]. split; rewrite Es; [constructor|split; cbn; try done; lia|done|done].
  - by apply (wp_run _ _ _ _ _ (inv_perform _ _ _ IH Hadm) Hp).
  - destruct IH as [Hok Hheld Hacks Hhand]. split; [|by rewrite Es|done|by rewrite Es]. destruct Hok. split; rewrite ?Es, ?Et; done.
Qed.

(* ------------------------------------------------------------------ *)
(** ** Theorems *)

(** C23.  Capacity: along every run of calls, with any failures of the disk, there are at most
    16 sessions, four of one owner and 32 GiB of declared bytes; no session holds more than
    it declared, its acknowledged offset lies within its file, and the timer that expires
    sessions is set while there are any. *)
Theorem upload_capacity_bounded tr w : run tr w ->
  zlen (sessions w) <= 16 /\ (forall o, owned o (sessions w) <= 4) /\ reserved (sessions w) <= 32 * 1024 ^ 3 /\
  (forall key s, dict_get key (sessions w) = Some s -> 0 <= offset s <= zlen (content (file s)) /\ zlen (content (file s)) <= size s) /\
  (sessions w <> [] -> timer w = true).
Proof.
  intros Hr. apply run_inv in Hr as [[Hk [H1 H2 H3] Hs Ht] _ _ _]. split_and!; try done. intros key s Hg%dict_get_In.
  rewrite Forall_forall in Hs. destruct (Hs _ Hg) as [Ho Hz]. cbn in *. lia.
Qed.

Lemma take_step (F : bytes) n d : slice F (Z.of_nat n) (Z.of_nat n + zlen d) = d -> take n F ++ d = take (n + length d) F.
Proof.
  intros E. rewrite <- E at 1. unfold slice. rewrite Nat2Z.id. replace (Z.to_nat _) with (length d) by (unfold zlen; lia).
  by rewrite take_take_drop.
Qed.

(** Chunks of a file make a part of it from its start. *)
Lemma assemble_honest F l : (forall off data, (off, data) ∈ l -> slice F off (off + zlen data) = data) -> assemble l = take (length (assemble l)) F.
Proof.
  induction l as [|[off data] l IH] using rev_ind; intros Hl; [done|].
  assert (assemble l = take (length (assemble l)) F) as IH' by (apply IH; intros; apply Hl; rewrite elem_of_app; by left).
  rewrite assemble_app. destruct (Z.eqb_spec off (zlen (assemble l))) as [E|]; [|done]. rewrite length_app, <- take_step, <- IH'; [done|].
  rewrite <- (Hl off data) at 2 by (rewrite elem_of_app; right; by left). subst off. done.
Qed.

(** C20.  Integrity: whatever calls were made before, by anyone, and whatever the disk did, a
    file that [claim] hands over was created by the claiming owner for this form, is read
    from its start, has the declared size and consists of the acknowledged chunks of its
    session, each at its offset; so it is the file of a client whose chunks are parts of
    it.  It is handed over once: no earlier claim that returned had it, nor has the claim
    it twice. *)
Theorem uploads_intact tr w keys own tgt r w' : run tr w -> claim keys own tgt w = (Ok r, w') ->
  r = keys /\ NoDup keys /\ (forall key, key ∈ keys -> key ∉ handed tr) /\ forall key, key ∈ keys -> exists s, dict_get key (sessions w') = Some s /\ claimed s = true /\ position (file s) = 0 /\
    (exists answer, (Create key own tgt (field s) (filename s) (size s), Ok answer) ∈ tr) /\
    zlen (content (file s)) = size s /\ content (file s) = assemble (acks key tr) /\
    forall F, zlen F = size s -> (forall off data, (off, data) ∈ acks key tr -> slice F off (off + zlen data) = data) -> content (file s) = F.
Proof.
  intros Hr Hc. apply run_inv in Hr as [Hok Hheld _ Hhand].
  refine (wp_run _ (fun r w' => match r with Ok r => r = keys /\ _ | Raise _ => True end) _ _ _ _ Hc).
  apply wp_claim; [apply Hok| |done|done]. intros w1 Hall Hdup He _. rewrite Forall_forall in Hall. split_and!; [done|done| |].
  { intros key Hk [_ Hcl]%Hhand. destruct (Hall key Hk) as (s&(Hs&_&Hun)&_). rewrite (Hcl s Hs) in Hun. discriminate Hun. }
  intros key Hk. destruct (Hall key Hk) as (s&(Hs&Ho&_)&Ht&Hsize).
  destruct (evolves_get _ _ _ _ _ He Hs) as (s'&Hs'&[(_&[T1 T2 T3 T4 T5 T6 T7 T8]&Hp)|[Hn _]]); [|done]. exists s'. rewrite T3, T4, T5, T7.
  destruct (Hheld key s Hs) as (Hh&answer&Hin). rewrite Ho, Ht in Hin.
  assert (session_ok s) as [Hso Hsz]. { pose proof (st_sessions _ Hok) as Hf. rewrite Forall_forall in Hf. by apply (Hf (key, s)), dict_get_In. }
  assert (content (file s) = assemble (acks key tr)) as Ec.
  { rewrite <- Hh. unfold held. symmetry. apply take_ge. unfold zlen in *. lia. }
  split_and!; try done; [by exists answer|lia|]. intros F HF Hhonest. rewrite Ec, (assemble_honest F) by done. apply take_ge. rewrite <- Ec. unfold zlen in *. lia.
Qed.

(** The caller of a call, and the keys that a call gives up. *)
Definition caller (c : call) : option pystr :=
  match c with Create _ own _ _ _ _ | Append _ own _ _ _ | Claim _ own _ | Cancel _ own => Some own | _ => None end.
Definition gives_up (c : call) (key : pystr) : Prop := match c with Release keys => key ∈ keys | Close => True | _ => False end.

(** C22.  Isolation: a session is not changed by a call of another owner, and once it is
    claimed it is not changed by any call (no chunk, second claim, cancellation or expiry)
    until it is released. *)
Theorem uploads_isolated tr w c r w' key s : run tr w -> admissible tr c -> perform c w = (r, w') ->
  dict_get key (sessions w) = Some s -> ~ gives_up c key ->
  claimed s = true \/ (exists own, caller c = Some own /\ own <> owner s) -> dict_get key (sessions w') = Some s.
Proof.
  intros Hr Hadm Hp Hs Hg Hcase. apply run_inv in Hr as [Hok Hheld _ _].
  assert (forall k own x, open_session w k own x -> caller c = Some own -> k <> key) as Hne.
  { intros k own x (Hx&Ho&Hcl) Hown ->. rewrite Hs in Hx. injection Hx as <-. destruct Hcase as [Hcase|(o&Ho'&Hne)]; congruence. }
  refine (wp_run _ (fun _ w' => dict_get key (sessions w') = Some s) _ _ _ _ Hp).
  destruct c as [k own tgt fld name n|k own off data digest|keys own tgt|keys|k own| |]; cbn [perform caller] in *; apply wp_bind.
  - apply wp_create; [|by intros e w1 Hq; rewrite (qu_sessions _ _ Hq)]. intros x w1 _ _ Es _ _ _. apply wp_ret. rewrite Es, dict_get_set, decide_False; [done|].
    intros ->. destruct Hadm as [_ Hadm]. apply Hadm. destruct (Hheld key s Hs) as (_&a&Hin). by eapply in_created.
  - assert (forall r1 w1, append_post w k own off data digest r1 w1 -> dict_get key (sessions w1) = Some s) as Hkeep.
    { intros r1 w1 [(_&Hq&_)|(x&x'&Hx&Ho&_)]; [by rewrite (qu_sessions _ _ Hq)|]. rewrite (on_sessions _ _ _ _ Ho), with_session_get, Hs, decide_False; [done|].
      intros <-. by eapply Hne. }
    eapply wp_mono; [apply append_spec; apply Hok|]. intros [m|e] w1 Hpost; [apply wp_ret|]; by eapply Hkeep.
  - assert (forall w1, Forall (fun k => exists x, open_session w k own x) keys -> evolves (partly_claims keys) (sessions w) (sessions w1) ->
      dict_get key (sessions w1) = Some s) as Hclaim.
    { intros w1 Hall He. destruct (evolves_get _ _ _ _ _ He Hs) as (s'&Hs'&[->|[Hk _]]); [done|]. rewrite Forall_forall in Hall.
      destruct (Hall key Hk) as (x&Hx). by destruct (Hne key own x). }
    apply wp_claim; [apply Hok| |by intros e w1 Hq; rewrite (qu_sessions _ _ Hq)|by intros w1 Hall He _ _; apply Hclaim].
    intros w1 Hall _ He _. apply wp_ret, Hclaim.
    + eapply Forall_impl; [exact Hall|]. intros k (x&Hx&_). by exists x.
    + eapply evolves_mono; [|exact He]. intros k x x' [(Hk&Ht&_)|[_ ->]]; [by right|by left].
  - apply wp_release. intros w1 Es _. apply wp_ret. rewrite Es, without_get, decide_False; done.
  - apply wp_cancel; [|by intros w1 Hq; rewrite (qu_sessions _ _ Hq)]. intros x w1 r1 Hx Es _ Hr1.
    assert (dict_get key (sessions w1) = Some s) as Hkeep. { rewrite Es, dict_pop_get, decide_False; [done|]. symmetry. by eapply Hne. }
    by destruct Hr1 as [->| ->].
  - apply wp_sweep. intros keys w1 Es _ _ _ Hout. apply wp_ret. rewrite Es, without_get, decide_False; [done|]. intros Hin.
    destruct (Hout key Hin) as (x&Hx&Hcl&_). apply dict_get_elem in Hx; [|apply Hok]. rewrite Hs in Hx. injection Hx as <-.
    destruct Hcase as [?|(o&?&_)]; congruence.
  - done.
Qed.

(** Chunks are answered exactly: while the disk works, a chunk for an open session is
    refused with 400 when it is empty, too long or does not have its checksum, with 413 when
    it would exceed the declared size, and with 409 when it neither continues the
    acknowledged bytes nor repeats some of them; otherwise it is acknowledged with the new
    offset.  Without an open session the answer is 404 and nothing changes. *)
Theorem chunks_answered tr w key own off data digest r w' : run tr w -> disk w = [] -> append key own off data digest w = (r, w') ->
  (r = Raise unavailable /\ sessions w' = sessions w /\ forall s, open_session w key own s -> expires s <= now w') \/
  (exists s, open_session w key own s /\ held s = assemble (acks key tr) /\ r = append_reply s off data digest).
Proof.
  intros Hr Hd Ha. apply run_inv in Hr as [Hok Hheld _ _].
  destruct (wp_run _ _ _ _ _ (append_spec w key own off data digest (st_keys _ Hok) (st_sessions _ Hok)) Ha) as [(->&Hq&Hexp)|(s&s'&Hs&Ho&Hpost)].
  - left. split; [done|]. split; [apply Hq|done].
  - right. exists s. split; [done|]. split; [apply Hheld, Hs|]. destruct r as [n|e]; [by destruct Hpost as (_&_&->)|].
    by destruct Hpost as (_&[->|[_ Hd']]).
Qed.

(** C24.  Abandoned uploads are released: a sweep returns, drops every session that is not
    claimed and had expired, keeps every session that is claimed or has not expired, and
    leaves the timer set exactly while sessions remain. *)
Theorem abandoned_uploads_released tr w r w' : run tr w -> _sweep w = (r, w') ->
  r = Ok tt /\
  (forall key s, dict_get key (sessions w) = Some s -> claimed s = false -> expires s <= now w -> dict_get key (sessions w') = None) /\
  (forall key s, dict_get key (sessions w) = Some s -> claimed s = true \/ now w' < expires s -> dict_get key (sessions w') = Some s) /\
  (timer w' = true <-> sessions w' <> []).
Proof.
  intros Hr Hs. apply run_inv in Hr as [Hok _ _ _]. pattern r, w'. refine (wp_run _ _ _ _ _ _ Hs). apply wp_sweep. intros keys w1 Es Hn Ht Hin Hout. split_and!.
  - done.
  - intros key s Hk Hc He. rewrite Es, without_get, decide_True; [done|]. eapply Hin; [by apply dict_get_In|done..].
  - intros key s Hk Hcase. rewrite Es, without_get, decide_False; [done|]. intros (x&Hx&Hcl&He)%Hout. apply dict_get_elem in Hx; [|apply Hok].
    rewrite Hk in Hx. injection Hx as <-. destruct Hcase; [congruence|lia].
  - rewrite Ht. apply bool_decide_eq_true.
Qed.

(* ------------------------------------------------------------------ *)
(** ** Instances *)

Fixpoint execute (tr : Trace) (w : Uploads) (calls : list call) : Trace * Uploads :=
  match calls with
  | [] => (tr, w)
  | c :: calls => execute (tr ++ [(c, (perform c w).1)]) (perform c w).2 calls
  end.
Fixpoint all_admissible (tr : Trace) (w : Uploads) (calls : list call) : Prop :=
  match calls with
  | [] => True
  | c :: calls => admissible tr c /\ all_admissible (tr ++ [(c, (perform c w).1)]) (perform c w).2 calls
  end.

Lemma execute_run tr w calls : run tr w -> all_admissible tr w calls -> run (execute tr w calls).1 (execute tr w calls).2.
Proof.
  revert tr w. induction calls as [|c calls IH]; intros tr w Hr Ha; [done|]. destruct Ha as [Ha Hs]. cbn [execute]. apply IH; [|done].
  eapply run_call; [exact Hr|done|]. by destruct (perform c w).
Qed.

Definition text (s : string) : bytes := map to_byte (str s).
Definition demo_start : Uploads := mkUploads [] false 0 [] (mkVolume false true 0x1c0 (2 ^ 40)) [].
Definition demo_key : pystr := str "a1".
Definition demo_chunk (off : Z) (s : string) : call := Append demo_key (str "alice") off (text s) (sha256_hex (text s)).
Definition demo_calls : list call :=
  [Create demo_key (str "alice") (str "/upload") (str "file") (str "notes.txt") 6; demo_chunk 0 "abc"; demo_chunk 0 "ab"; demo_chunk 3 "def"].
Definition demo_trace : Trace := (execute [] demo_start demo_calls).1.
Definition demo_uploads : Uploads := (execute [] demo_start demo_calls).2.

Lemma demo_run : run demo_trace demo_uploads.
Proof.
  apply execute_run; [by apply run_start|]. cbn [all_admissible demo_calls admissible]. split_and!; try done.
  apply (bool_decide_unpack _). vm_compute. exact I.
Qed.

(** [upload_capacity_bounded] after a finished upload. *)
Lemma upload_capacity_bounded_witness : zlen (sessions demo_uploads) = 1 /\ zlen (sessions demo_uploads) <= 16 /\ timer demo_uploads = true.
Proof.
  destruct (upload_capacity_bounded demo_trace demo_uploads demo_run) as (H1&_&_&_&Ht).
  split; [vm_compute; reflexivity|]. split; [exact H1|]. apply Ht. vm_compute. discriminate.
Defined.

(** [uploads_intact] at two chunks and a retry. *)
Lemma uploads_intact_witness : exists w' s, claim [demo_key] (str "alice") (str "/upload") demo_uploads = (Ok [demo_key], w') /\
  dict_get demo_key (sessions w') = Some s /\ content (file s) = text "abcdef".
Proof.
  destruct (claim [demo_key] (str "alice") (str "/upload") demo_uploads) as [[r|e] w'] eqn:E; [|vm_compute in E; discriminate E].
  destruct (uploads_intact demo_trace demo_uploads [demo_key] (str "alice") (str "/upload") r w' demo_run E) as (->&_&_&Hall).
  destruct (Hall demo_key) as (s&Hs&_&_&_&_&Hc&_); [by left|]. exists w', s. split; [reflexivity|]. split; [exact Hs|]. rewrite Hc. vm_compute. reflexivity.
Defined.

(** [uploads_isolated] at a chunk of another owner. *)
Lemma uploads_isolated_witness : exists s, dict_get demo_key (sessions demo_uploads) = Some s /\
  dict_get demo_key (sessions (perform (Append demo_key (str "bob") 0 (text "x") []) demo_uploads).2) = Some s.
Proof.
  destruct (dict_get demo_key (sessions demo_uploads)) as [s|] eqn:E; [|vm_compute in E; discriminate E]. exists s. split; [reflexivity|].
  eapply (uploads_isolated demo_trace demo_uploads (Append demo_key (str "bob") 0 (text "x") [])); [exact demo_run|exact I|apply surjective_pairing|exact E|tauto|].
  right. exists (str "bob"). split; [reflexivity|]. vm_compute in E. injection E as <-. vm_compute. discriminate.
Defined.

(** [chunks_answered] at a chunk beyond the declared size. *)
Lemma chunks_answered_witness : exists w', append demo_key (str "alice") 6 (text "x") (sha256_hex (text "x")) demo_uploads =
  (Raise (UploadError 413 "Chunk exceeds the declared file size."), w').
Proof.
  destruct (append demo_key (str "alice") 6 (text "x") (sha256_hex (text "x")) demo_uploads) as [r w'] eqn:E.
  destruct (chunks_answered demo_trace demo_uploads _ _ _ _ _ _ _ demo_run eq_refl E) as [(_&_&He)|(s&Hs&_&->)].
  - destruct (dict_get demo_key (sessions demo_uploads)) as [s|] eqn:Es; [|vm_compute in Es; discriminate Es].
    assert (open_session demo_uploads demo_key (str "alice") s) as Ho.
    { split; [exact Es|]. vm_compute in Es. injection Es as <-. vm_compute. split; reflexivity. }
    specialize (He s Ho). vm_compute in E. injection E as _ <-. vm_compute in Es. injection Es as <-. vm_compute in He. by destruct He.
  - exists w'. f_equal. destruct Hs as [Hs _]. vm_compute in Hs. injection Hs as <-. vm_compute. reflexivity.
Defined.

(** [abandoned_uploads_released] half an hour later. *)
Definition demo_later : Uploads := mkUploads (sessions demo_uploads) (timer demo_uploads) SESSION_SECONDS [] (volume demo_uploads) [].
Lemma demo_later_run : run demo_trace demo_later.
Proof. apply (run_world demo_trace demo_uploads); [apply demo_run|done|done]. Qed.

Lemma abandoned_uploads_released_witness : dict_get demo_key (sessions (_sweep demo_later).2) = None.
Proof.
  destruct (abandoned_uploads_released demo_trace demo_later (_sweep demo_later).1 (_sweep demo_later).2 demo_later_run) as (_&Hgone&_&_).
  { apply surjective_pairing. }
  destruct (dict_get demo_key (sessions demo_later)) as [s|] eqn:Es; [|vm_compute in Es; discriminate Es].
  assert (claimed s = false /\ expires s <= now demo_later) as [Hc He].
  { vm_compute in Es. injection Es as <-. vm_compute. split; [reflexivity|discriminate]. }
  exact (Hgone demo_key s Es Hc He).
Defined.
