(* ===== verification/TrafficPublishing.v ===== *)
(** [services/traffic_publishing.py]: source translation (NAT): the interfaces it may use, the
    validation of rules and the configuration rendered for the privileged helper, and the
    setting that enables it, with its migration. *)

From S2P Require Import Prelude Utf8 PyText Json Sha256 IpAddress Networks Trace SourceGroups Firewall FirewallRouting.
Open Scope Z_scope.

(* ------------------------------------------------------------------ *)
(** ** Data *)

(** The columns of [class PhysicalInterface] and [class VlanInterface] that translation reads. *)
Record NatInterface : Type := mkNatInterface {
  ni_name : pystr;
  ni_mac_address : pystr;
  ni_admin_state : pystr;
  ni_oper_state : pystr;
  ni_mode : pystr;
  ni_role : pystr;
  ni_ip_cidr : option pystr;
  ni_ipv6_cidr : option pystr
}.
Record NatVlan : Type := mkNatVlan {
  nv_name : pystr;
  nv_parent_interface : pystr;
  nv_enabled : bool;
  nv_role : pystr;
  nv_ip_cidr : option pystr;
  nv_ipv6_cidr : option pystr
}.

(** The dictionaries of [nat_targets]; [routing_domain], [route_allowed] and [nat_allowed] are
    constants, and the label is left out. *)
Record NatTarget : Type := mkNatTarget {
  nt_name : pystr;
  nt_kind : pystr;
  nt_role : pystr;
  nt_physical_interface : pystr;
  nt_physical_mac : pystr;
  nt_ip_cidr : pystr;
  nt_ipv6_cidr : pystr;
  nt_families : list Z
}.

(** [class NatRule]; the inbound interfaces are a JSON column. *)
Record NatRule : Type := mkNatRule {
  nr_name : pystr;
  nr_enabled : bool;
  nr_source : pystr;
  nr_inbound_interfaces : json;
  nr_ip_family : option Z;
  nr_outbound_interface : pystr;
  nr_translation_mode : pystr;
  nr_translated_address : pystr;
  nr_masquerade : option bool;
  nr_priority : Z
}.

Record TrafficPublishingSettings : Type := mkTrafficPublishingSettings { nat_enabled : bool; routing_enabled : bool }.
Definition effective_nat_enabled (s : TrafficPublishingSettings) : bool := nat_enabled s && routing_enabled s.
Definition suspended (s : TrafficPublishingSettings) : bool := nat_enabled s && negb (routing_enabled s).

(* ------------------------------------------------------------------ *)
(** ** Addresses *)

(** [ip_address(s)]: the address and its scope; [None] is [ValueError]. *)
Definition ip_address (s : pystr) : option (Address * pystr) :=
  if mem 47 s then None else
  match address_of V4 s with
  | Some (n, _) => Some (mkAddress V4 n, [])
  | None => '(n, scope) ← address_of V6 s; Some (mkAddress V6 n, scope)
  end.

(** [ip_interface(s)]: the address without its scope, and the network. *)
Definition interface_at (f : Family) (s : pystr) : option (Address * Network) :=
  '(address, mask) ← match split_on 47 s with
                     | [a] => Some (a, None)
                     | [a; m] => Some (a, Some m)
                     | _ => None
                     end;
  '(n, _) ← address_of f address;
  network ← network_of false f s;
  Some (mkAddress f n, network).
Definition ip_interface (s : pystr) : option (Address * Network) :=
  match interface_at V4 s with Some x => Some x | None => interface_at V6 s end.

(** [re.fullmatch(r"[A-Za-z0-9_.:-]{1,80}", name)]. *)
Definition is_canonical_char (c : Z) : bool :=
  ((65 <=? c) && (c <=? 90)) || ((97 <=? c) && (c <=? 122)) || is_digit c || mem c [95; 46; 58; 45].
Definition is_canonical_name (name : pystr) : bool := (1 <=? zlen name) && (zlen name <=? 80) && forallb is_canonical_char name.

(** [re.fullmatch(r"(?:[0-9a-fA-F]{2}:){5}[0-9a-fA-F]{2}", mac)]. *)
Definition is_mac (mac : pystr) : bool :=
  let octets := split_on 58 mac in
  bool_decide (length octets = 6%nat) && forallb (fun o => (zlen o =? 2) && forallb (fun c => bool_decide (is_Some (hex_value c))) o) octets.

(** [sorted(l, key=...)], which is stable, for the order of the keys. *)
Fixpoint insert_by {A} (le : A -> A -> bool) (x : A) (l : list A) : list A :=
  match l with
  | [] => [x]
  | y :: l => if le x y then x :: y :: l else y :: insert_by le x l
  end.
Definition sort_by {A} (le : A -> A -> bool) (l : list A) : list A := foldr (insert_by le) [] l.
Definition str_leb (a b : pystr) : bool := match str_compare a b with Gt => false | _ => true end.

(* ------------------------------------------------------------------ *)
(** ** The enabling setting *)

Definition NAT_ENABLED_SETTING_KEY : pystr := str "traffic_publishing.nat_enabled".
Definition LEGACY_NAT_ENABLED_SETTING_KEY : pystr := str "routes_wan.nat_enabled".
Definition ROUTING_ENABLED_SETTING_KEY : pystr := str "routes_wan.routing_enabled".

Section Publishing.
Context `{PyRuntime} `{PyCase}.

Definition is_true_text (value : pystr) : bool := mem (py_lower value) (map str ["true"; "1"; "on"; "yes"]%string).

(** [ensure_traffic_publishing_settings] on the table of settings; [enabled_rule] tells
    whether an enabled NAT rule exists. *)
Definition ensure_traffic_publishing_settings (settings : list (pystr * pystr)) (enabled_rule force_disabled : bool) :
    TrafficPublishingSettings * list (pystr * pystr) :=
  let legacy := dict_get LEGACY_NAT_ENABLED_SETTING_KEY settings in
  let value := match dict_get NAT_ENABLED_SETTING_KEY settings with
               | Some value => value
               | None => match legacy with
                         | Some value => value
                         | None => if negb force_disabled && enabled_rule then str "true" else str "false"
                         end
               end in
  let value := if force_disabled then str "false" else value in
  let saved := List.filter (fun kv => negb (bool_decide (kv.1 = LEGACY_NAT_ENABLED_SETTING_KEY))) (dict_set NAT_ENABLED_SETTING_KEY value settings) in
  (mkTrafficPublishingSettings (is_true_text value)
     (match dict_get ROUTING_ENABLED_SETTING_KEY settings with Some routing => is_true_text routing | None => false end), saved).

(** [save_traffic_publishing_settings]. *)
Definition save_traffic_publishing_settings (settings : list (pystr * pystr)) (enabled_rule nat : bool) :
    TrafficPublishingSettings * list (pystr * pystr) :=
  let '(_, saved) := ensure_traffic_publishing_settings settings enabled_rule false in
  ensure_traffic_publishing_settings (dict_set NAT_ENABLED_SETTING_KEY (if nat then str "true" else str "false") saved) enabled_rule false.

(* ------------------------------------------------------------------ *)
(** ** Targets *)

Definition interface_family (family : Z) (cidr : option pystr) : list Z :=
  match ip_interface (default [] cidr) with
  | Some (a, _) => if family_number (Networks.family a) =? family then [family] else []
  | None => []
  end.

(** The target of one interface or VLAN. *)
Definition nat_target (is_vlan enabled : bool) (name role : pystr) (parent : option NatInterface) (ip_cidr ipv6_cidr : option pystr) : list NatTarget :=
  match parent with
  | None => []
  | Some parent =>
    if negb (bool_decide (ni_admin_state parent = str "up")) || bool_decide (ni_oper_state parent = str "missing") then []
    else if negb (mem role (map str ["access"; "route"]%string)) then []
    else if negb (bool_decide (normalize_interface_mode (ni_mode parent) = (if is_vlan then str "trunk" else str "access"))) then []
    else if is_vlan && negb enabled then []
    else match interface_family 4 ip_cidr ++ interface_family 6 ipv6_cidr with
         | [] => []
         | families => [mkNatTarget name (if is_vlan then str "vlan" else str "physical") role (ni_name parent) (ni_mac_address parent)
                          (default [] ip_cidr) (default [] ipv6_cidr) families]
         end
  end.

Definition target_le (a b : NatTarget) : bool :=
  match str_compare (nt_name a) (nt_name b) with Lt => true | Eq => str_leb (nt_kind a) (nt_kind b) | Gt => false end.

(** [nat_targets]. *)
Definition nat_targets (interfaces : list NatInterface) (vlans : list NatVlan) : list NatTarget :=
  let parents := dict_of (map (fun i => (ni_name i, i)) interfaces) in
  sort_by target_le
    (concat (map (fun i => nat_target false true (ni_name i) (ni_role i) (Some i) (ni_ip_cidr i) (ni_ipv6_cidr i)) interfaces) ++
     concat (map (fun v => nat_target true (nv_enabled v) (nv_name v) (nv_role v) (dict_get (nv_parent_interface v) parents)
                             (nv_ip_cidr v) (nv_ipv6_cidr v)) vlans)).

(* ------------------------------------------------------------------ *)
(** ** Rules *)

(** [resolved_nat_source]. *)
Definition resolved_nat_source (source : pystr) (source_groups : list Group) : res pystr :=
  if has_prefix FIREWALL_SOURCE_GROUP_REFERENCE_PREFIX (py_lower source) then
    let groups := groups_by_id source_groups in
    match dict_get (strip is_space (drop (length FIREWALL_SOURCE_GROUP_REFERENCE_PREFIX) source)) groups with
    | Some group => Ok (source_group_to_rule_source group groups)
    | None => Raise (ValueError "NAT source references a Source Group that does not exist.")
    end
  else Ok (strip is_space source).

(** [rule.inbound_interfaces or []], when it is a list of canonical names. *)
Definition inbound_names (rule : NatRule) : option (list pystr) :=
  match (if truthy (nr_inbound_interfaces rule) then nr_inbound_interfaces rule else JList []) with
  | JList l => mapM (fun v => match v with JStr s => if is_canonical_name s then Some s else None | _ => None end) l
  | _ => None
  end.

Definition version_name (family : Z) : pystr := str "IPv" ++ dump_int family.

(** The check of the source of a rule. *)
Definition nat_source_ok (rule : NatRule) (family : Z) (source_groups : list Group) : bool :=
  match resolved_nat_source (nr_source rule) source_groups with
  | Raise _ => false
  | Ok [] => false
  | Ok source =>
    bool_decide (py_lower source = ANY) ||
    match stripped_parts is_entry_separator source with
    | [] => false
    | values => forallb (fun value => match ip_network value with Some n => family_number (version n) =? family | None => false end) values
    end
  end.

(** The check of a fixed translated address. *)
Definition translated_ok (rule : NatRule) (family : Z) (active : bool) (eligible : list (pystr * NatTarget)) : bool :=
  match ip_address (nr_translated_address rule) with
  | None => false
  | Some (translated, scope) =>
    (family_number (Networks.family translated) =? family) &&
    (negb active ||
     match dict_get (nr_outbound_interface rule) eligible with
     | None => false
     | Some t =>
       match ip_interface (if family =? 4 then nt_ip_cidr t else nt_ipv6_cidr t) with
       | Some (assigned, _) => bool_decide (family_number (Networks.family translated) = family_number (Networks.family assigned)) &&
                               (value translated =? value assigned) && bool_decide (scope = [])
       | None => false
       end
     end)
  end.

(** [validate_nat_rule]. *)
Definition validate_nat_rule (rule : NatRule) (targets : list NatTarget) (source_groups : list Group) (creating allow_legacy : bool) : list pystr :=
  let family := default 4 (nr_ip_family rule) in
  let mode := match nr_translation_mode rule with [] => str "masquerade" | mode => mode end in
  let masquerade := bool_decide (mode = str "masquerade") in
  let snat := bool_decide (mode = str "snat") in
  match inbound_names rule with
  | None => [str "NAT inbound interfaces must be canonical interface/VLAN names."]
  | Some inbound =>
    let outbound := nr_outbound_interface rule in
    let active := creating || nr_enabled rule in
    let eligible := dict_of (map (fun t => (nt_name t, t)) (List.filter (fun t => mem family (nt_families t)) targets)) in
    (if mem family [4; 6] then [] else [str "NAT IP family must be IPv4 or IPv6."]) ++
    (if masquerade || snat then [] else [str "Choose interface-address masquerade or fixed SNAT."]) ++
    (if nr_enabled rule && masquerade && bool_decide (nr_masquerade rule = Some false)
     then [str "Legacy non-masquerade NAT requires explicit translation review."] else []) ++
    (if (128 <? zlen inbound) || negb (all_distinct inbound)
     then [str "NAT inbound interfaces must be unique and contain at most 128 targets."] else []) ++
    (if is_canonical_name outbound then [] else [str "Select a canonical outbound interface name."]) ++
    (if mem outbound inbound then [str "NAT inbound and outbound interfaces must be different."] else []) ++
    (if active && bool_decide (inbound = []) && negb allow_legacy
     then [str "Select at least one inbound interface or VLAN; legacy NAT rules require explicit review."] else []) ++
    (if active then
       concat (map (fun name => match dict_get name eligible with
                                | Some _ => []
                                | None => [str "NAT target " ++ name ++ str " is unavailable; select an enabled non-management " ++
                                           version_name family ++ str " interface or VLAN."]
                                end) (inbound ++ [outbound]))
     else []) ++
    (if nat_source_ok rule family source_groups then []
     else [str "NAT source is invalid; select a valid Source Group or " ++ version_name family ++ str " addresses or CIDRs."]) ++
    (if snat then
       if translated_ok rule family active eligible then []
       else [str "Fixed SNAT requires a valid same-family address assigned to the selected egress interface."]
     else if bool_decide (nr_translated_address rule = []) then []
     else [str "Interface-address masquerade cannot specify a fixed translated address."]) ++
    (if nr_priority rule <? 0 then [str "NAT priority cannot be negative."] else [])
  end.

(* ------------------------------------------------------------------ *)
(** ** The configuration of the helper *)

Definition bool_text (b : bool) : pystr := if b then str "true" else str "false".
Definition invalid_identity : exn := ValueError "NAT physical identity is invalid.".

(** The lines of a target. *)
Definition target_lines (t : NatTarget) : res (list pystr) :=
  _ ← raise_if (negb (is_canonical_name (nt_name t)) || negb (is_canonical_name (nt_physical_interface t))) invalid_identity;
  _ ← raise_if (negb (bool_decide (nt_physical_mac t = [])) && negb (is_mac (nt_physical_mac t))) invalid_identity;
  Ok ((str "target=" ++ nt_name t) ::
      map (fun kv => str "  " ++ kv.1 ++ str "=" ++ kv.2)
        [(str "kind", nt_kind t); (str "role", nt_role t); (str "routing_domain", str "lab"); (str "nat_allowed", str "true");
         (str "route_allowed", str "true"); (str "nat_physical_interface", nt_physical_interface t); (str "nat_physical_mac", nt_physical_mac t);
         (str "ip_cidr", nt_ip_cidr t); (str "ipv6_cidr", nt_ipv6_cidr t)]).

(** [s.replace(chr(a), ...)] for one character. *)
Definition replace_char (a : Z) (b : pystr) (s : pystr) : pystr := concat (map (fun c => if c =? a then b else [c]) s).

(** The lines of a rule. *)
Definition nat_rule_lines (source_groups : list Group) (rule : NatRule) : res (list pystr) :=
  match inbound_names rule with
  | None => Raise (ValueError "NAT inbound interfaces must be canonical interface/VLAN names.")
  | Some inbound =>
    let resolved := match resolved_nat_source (nr_source rule) source_groups with Ok s => s | Raise _ => str "invalid" end in
    Ok ((str "nat=" ++ replace_char 13 (str " ") (replace_char 10 (str " ") (nr_name rule))) ::
        map (fun kv => str "  " ++ kv.1 ++ str "=" ++ replace_char 13 [] (replace_char 10 (str ",") kv.2))
          [(str "enabled", bool_text (nr_enabled rule));
           (str "ip_family", dump_int (match nr_ip_family rule with Some 0 | None => 4 | Some f => f end));
           (str "masquerade", bool_text (negb (bool_decide (nr_masquerade rule = Some false))));
           (str "source", nr_source rule); (str "source_resolved", resolved);
           (str "inbound_interfaces", join_with (str ",") inbound); (str "outbound_interface", nr_outbound_interface rule);
           (str "translation_mode", match nr_translation_mode rule with [] => str "masquerade" | mode => mode end);
           (str "translated_address", nr_translated_address rule); (str "priority", dump_int (nr_priority rule))])
  end.

Definition nat_rule_le (a b : NatRule) : bool :=
  (nr_priority a <? nr_priority b) || ((nr_priority a =? nr_priority b) && str_leb (nr_name a) (nr_name b)).

(** [render_nat_config]. *)
Definition render_nat_config (rules : list NatRule) (targets : list NatTarget) (source_groups : list Group) (settings : TrafficPublishingSettings) : res pystr :=
  target_part ← mapM target_lines targets;
  rule_part ← mapM (nat_rule_lines source_groups) (sort_by nat_rule_le rules);
  Ok (join_with [10]
        ([str "# Managed by Atlaso Traffic Publishing."; str "[feature_settings]"; str "routing_enabled=" ++ bool_text (routing_enabled settings);
          str "nat_enabled=" ++ bool_text (nat_enabled settings); str "wan_simulation_enabled=false"; []; str "[targets]"] ++
         concat target_part ++ [[]; str "[nat_rules]"] ++ concat rule_part ++ [[]])).
End Publishing.
