(* ===== verification/TrafficPublishingProps.v ===== *)
(** Source translation: the interfaces it may use are those of the lab that are in use, an
    accepted rule translates between such interfaces only, and the enabling setting has one
    owner after its migration. *)

From S2P Require Import Prelude Utf8 PyText Json Sha256 IpAddress Networks Trace KeyProviders SourceGroups SourceGroupsProps Firewall FirewallRouting RoutingRules FirewallServices TrafficPublishing.
Open Scope Z_scope.

(* ------------------------------------------------------------------ *)
(** ** Targets *)

Lemma insert_by_perm {A} (le : A -> A -> bool) x l : insert_by le x l ≡ₚ x :: l.
Proof. induction l as [|y l IH]; cbn; [done|]. destruct (le x y); [done|]. rewrite IH. apply Permutation_swap. Qed.
Lemma sort_by_perm {A} (le : A -> A -> bool) l : sort_by le l ≡ₚ l.
Proof. induction l as [|x l IH]; cbn; [done|]. rewrite insert_by_perm. by f_equiv. Qed.

Section Lab.
Context {PC : PyCase}.

(** An interface of the lab that is in use. *)
Definition lab_port (is_vlan : bool) (parent : NatInterface) (role : pystr) : Prop :=
  ni_admin_state parent = str "up" /\ ni_oper_state parent <> str "missing" /\ (role = str "access" \/ role = str "route") /\
  normalize_interface_mode (ni_mode parent) = (if is_vlan then str "trunk" else str "access").

(** The text is that of an interface with the address. *)
Definition cidr_of (a : Address) (cidr : option pystr) : Prop := exists n, ip_interface (default [] cidr) = Some (a, n).

(** A lab interface or VLAN in use has the address. *)
Definition lab_address (interfaces : list NatInterface) (vlans : list NatVlan) (name : pystr) (family : Z) (a : Address) : Prop :=
  (exists i, i ∈ interfaces /\ ni_name i = name /\ lab_port false i (ni_role i) /\
     cidr_of a (if family =? 4 then ni_ip_cidr i else ni_ipv6_cidr i)) \/
  (exists v parent, v ∈ vlans /\ parent ∈ interfaces /\ nv_name v = name /\ nv_parent_interface v = ni_name parent /\
     nv_enabled v = true /\ lab_port true parent (nv_role v) /\ cidr_of a (if family =? 4 then nv_ip_cidr v else nv_ipv6_cidr v)).

Lemma nat_target_elem is_vlan enabled name role parent ip_cidr ipv6_cidr t :
  t ∈ nat_target is_vlan enabled name role parent ip_cidr ipv6_cidr ->
  exists p, parent = Some p /\ lab_port is_vlan p role /\ (is_vlan = true -> enabled = true) /\
    nt_name t = name /\ nt_ip_cidr t = default [] ip_cidr /\ nt_ipv6_cidr t = default [] ipv6_cidr /\
    nt_families t = interface_family 4 ip_cidr ++ interface_family 6 ipv6_cidr.
Proof.
  unfold nat_target. destruct parent as [p|]; [|by intros Ht%elem_of_nil].
  destruct (_ || _) eqn:E1; [by intros Ht%elem_of_nil|]. destruct (negb (mem role _)) eqn:E2; [by intros Ht%elem_of_nil|].
  destruct (negb (bool_decide (normalize_interface_mode _ = _))) eqn:E3; [by intros Ht%elem_of_nil|].
  destruct (is_vlan && negb enabled) eqn:E4; [by intros Ht%elem_of_nil|].
  destruct (_ ++ _) as [|x l] eqn:Ef; [by intros Ht%elem_of_nil|]. intros [-> |Ht%elem_of_nil]%elem_of_cons; [|done].
  apply orb_false_iff in E1 as [E1%negb_false_iff%bool_decide_eq_true E5%bool_decide_eq_false].
  apply negb_false_iff, bool_decide_eq_true in E2, E3. exists p. split; [done|]. split; [|split; [by destruct is_vlan, enabled|done]].
  split_and!; try done. cbn [map] in E2. apply elem_of_cons in E2 as [->|E2]; [by left|]. apply elem_of_cons in E2 as [->|E2]; [by right|by apply elem_of_nil in E2].
Qed.

Lemma targets_lab interfaces vlans nt family a :
  nt ∈ nat_targets interfaces vlans ->
  (exists n, ip_interface (if family =? 4 then nt_ip_cidr nt else nt_ipv6_cidr nt) = Some (a, n)) -> lab_address interfaces vlans (nt_name nt) family a.
Proof.
  unfold nat_targets. rewrite (sort_by_perm target_le). rewrite elem_of_app, !concat_map_elem. intros [(i&Hi&Ht)|(v&Hv&Ht)] Ha.
  - left. apply nat_target_elem in Ht as (p&[= <-]&Hp&_&Hn&E4&E6&_). exists i. split_and!; try done. unfold cidr_of. rewrite E4, E6 in Ha. by destruct (family =? 4).
  - right. apply nat_target_elem in Ht as (p&Hp&Hl&He&Hn&E4&E6&_). apply dict_of_elem in Hp. apply list_elem_of_fmap in Hp as (q&[= Eq ->]&Hq).
    exists v, q. split_and!; try done; [by apply He|]. unfold cidr_of. rewrite E4, E6 in Ha. by destruct (family =? 4).
Qed.


(** A target of a family has an address of it. *)
Lemma target_family interfaces vlans nt family :
  nt ∈ nat_targets interfaces vlans -> family ∈ nt_families nt ->
  exists a, family_number (Networks.family a) = family /\ lab_address interfaces vlans (nt_name nt) family a.
Proof.
  intros Hin Hf. assert (exists a n, family_number (Networks.family a) = family /\
    ip_interface (if family =? 4 then nt_ip_cidr nt else nt_ipv6_cidr nt) = Some (a, n)) as (a&n&Ha&Hn); [|exists a; split; [done|]; apply targets_lab; eauto].
  assert (exists c4 c6, nt_ip_cidr nt = default [] c4 /\ nt_ipv6_cidr nt = default [] c6 /\ nt_families nt = interface_family 4 c4 ++ interface_family 6 c6) as (c4&c6&E4&E6&Ef).
  { unfold nat_targets in Hin. rewrite (sort_by_perm target_le), elem_of_app, !concat_map_elem in Hin.
    destruct Hin as [(x&_&Ht)|(x&_&Ht)]; apply nat_target_elem in Ht as (p&_&_&_&_&E4&E6&Ef); eauto. }
  rewrite Ef, elem_of_app in Hf. rewrite E4, E6. unfold interface_family in Hf.
  destruct Hf as [Hf|Hf]; destruct (ip_interface (default [] _)) as [[a n]|] eqn:E; try (by apply elem_of_nil in Hf);
    destruct (_ =? _) eqn:En; try (by apply elem_of_nil in Hf); apply elem_of_cons in Hf as [->|Hf]; try (by apply elem_of_nil in Hf);
    exists a, n; apply Z.eqb_eq in En; cbn; done.
Qed.
End Lab.

(* ------------------------------------------------------------------ *)
(** ** Rules *)

Section Rules.
Context {RT : PyRuntime} {PC : PyCase}.

(** Every value of a source is a network of the family, unless the source is any. *)
Definition source_of_family (source : pystr) (groups : list Group) (family : Z) : Prop :=
  exists resolved, resolved_nat_source source groups = Ok resolved /\
    (py_lower resolved = ANY \/
     stripped_parts is_entry_separator resolved <> [] /\
     forall v, v ∈ stripped_parts is_entry_separator resolved -> exists n, ip_network v = Some n /\ family_number (version n) = family).

Lemma nat_source_family rule family groups : nat_source_ok rule family groups = true -> source_of_family (nr_source rule) groups family.
Proof.
  unfold nat_source_ok. destruct (resolved_nat_source (nr_source rule) groups) as [[|c s]|] eqn:E; [done| |done]. intros Hs. exists (c :: s). split; [done|].
  apply orb_true_iff in Hs as [Hs%bool_decide_eq_true|Hs]; [by left|right].
  destruct (stripped_parts is_entry_separator (c :: s)) as [|v l] eqn:Ep; [done|]. split; [done|]. intros x Hx. rewrite forallb_forall in Hs.
  specialize (Hs x (proj1 (list_elem_of_In _ _) Hx)). destruct (ip_network x) as [n|]; [|done]. exists n. by apply Z.eqb_eq in Hs.
Qed.

Lemma eligible_lab interfaces vlans family name t :
  dict_get name (dict_of (map (fun t => (nt_name t, t)) (List.filter (fun t => mem family (nt_families t)) (nat_targets interfaces vlans)))) = Some t ->
  nt_name t = name /\ (t ∈ nat_targets interfaces vlans) /\ family ∈ nt_families t.
Proof.
  intros E%dict_of_elem. apply list_elem_of_fmap in E as (t'&[= -> ->]&Ht). apply filter_elem in Ht as [Ht Hf]. by apply bool_decide_eq_true in Hf.
Qed.

Lemma app_nil_iff {A} (l k : list A) : l ++ k = [] <-> l = [] /\ k = [].
Proof. by rewrite app_nil. Qed.

(** C19.  An enabled NAT rule that is accepted translates within the lab only: it has one to 128
    distinct inbound interfaces, other than the outbound one; each of them and the outbound
    one is an interface or VLAN of the lab in use that has an address of the rule's family,
    so that no management network is translated from or to; a fixed translated address is
    that of the outbound interface; and the source is any or of the rule's family. *)
Theorem accepted_nat_rule_in_lab rule interfaces vlans groups creating :
  validate_nat_rule rule (nat_targets interfaces vlans) groups creating false = [] -> nr_enabled rule = true ->
  exists inbound, inbound_names rule = Some inbound /\ inbound <> [] /\ NoDup inbound /\ zlen inbound <= 128 /\ (nr_outbound_interface rule ∉ inbound) /\
  (default 4 (nr_ip_family rule) = 4 \/ default 4 (nr_ip_family rule) = 6) /\
  (forall name, name ∈ inbound ++ [nr_outbound_interface rule] ->
     exists a, family_number (Networks.family a) = default 4 (nr_ip_family rule) /\ lab_address interfaces vlans name (default 4 (nr_ip_family rule)) a) /\
  (nr_translation_mode rule = str "snat" ->
     exists a, ip_address (nr_translated_address rule) = Some (a, []) /\ family_number (Networks.family a) = default 4 (nr_ip_family rule) /\
       lab_address interfaces vlans (nr_outbound_interface rule) (default 4 (nr_ip_family rule)) a) /\
  source_of_family (nr_source rule) groups (default 4 (nr_ip_family rule)).
Proof.
  unfold validate_nat_rule. set (family := default 4 (nr_ip_family rule)). intros E He. destruct (inbound_names rule) as [inbound|] eqn:Ei; [|done].
  rewrite He, orb_true_r in E. cbn [andb] in E. rewrite !app_nil_iff in E. destruct E as (E1&_&_&E4&_&E6&E7&E8&E9&E10&_).
  exists inbound. split; [done|]. destruct (mem family [4; 6]) eqn:Ef; [|done]. apply bool_decide_eq_true in Ef. rewrite !elem_of_cons, elem_of_nil in Ef.
  destruct (_ || negb (all_distinct inbound)) eqn:Ed; [done|]. apply orb_false_iff in Ed as [Ed1%Z.ltb_ge Ed2%negb_false_iff%bool_decide_eq_true].
  destruct (mem (nr_outbound_interface rule) inbound) eqn:Eo; [done|]. apply bool_decide_eq_false in Eo.
  destruct (nat_source_ok rule family groups) eqn:Es; [|done]. apply nat_source_family in Es.
  assert (forall name, name ∈ inbound ++ [nr_outbound_interface rule] -> exists t,
    dict_get name (dict_of (map (fun t => (nt_name t, t)) (List.filter (fun t => mem family (nt_families t)) (nat_targets interfaces vlans)))) = Some t) as Hel.
  { intros name Hn. destruct (dict_get name _) as [t|] eqn:Et; [by exists t|]. exfalso.
    eassert (_ ∈ concat _) as Hin; [|rewrite E8 in Hin; by apply elem_of_nil in Hin]. apply concat_map_elem. exists name. split; [exact Hn|]. rewrite Et. by left. }
  split_and!; try done.
  - intros ->. done.
  - tauto.
  - intros name Hn. destruct (Hel name Hn) as [t Ht]. apply eligible_lab in Ht as (<-&Hin&Hf). by apply target_family.
  - intros Hm. rewrite Hm in E10. cbn [bool_decide] in E10.
    destruct (translated_ok rule family true _) eqn:Et; [|exfalso; revert E10; rewrite bool_decide_true by done; done].
    unfold translated_ok in Et. destruct (ip_address (nr_translated_address rule)) as [[a scope]|]; [|done]. apply andb_true_iff in Et as [Ea%Z.eqb_eq Et]. cbn [negb orb] in Et.
    destruct (dict_get (nr_outbound_interface rule) _) as [t|] eqn:Ed; [|done]. apply eligible_lab in Ed as (Hn&Hin&Hf).
    destruct (ip_interface _) as [[b n]|] eqn:Eb; [|done]. apply andb_true_iff in Et as [Et Esc%bool_decide_eq_true]. apply andb_true_iff in Et as [Et1%bool_decide_eq_true Et2%Z.eqb_eq].
    exists a. subst scope. split; [done|]. split; [done|]. rewrite <- Hn. apply targets_lab; [done|]. exists n. rewrite Eb.
    destruct a as [[] x], b as [[] y]; cbn in *; congruence.
Qed.
End Rules.

(* ------------------------------------------------------------------ *)
(** ** The enabling setting *)

Lemma dict_set_same {A} k (v : A) d : dict_get k d = Some v -> dict_set k v d = d.
Proof.
  induction d as [|[k' v'] d IH]; [done|]. cbn [dict_get dict_set]. destruct (decide (k' = k)) as [->|Hne]; [by intros [= ->]|]. intros E. by rewrite IH.
Qed.

Definition drop_key {A} (key : pystr) (d : list (pystr * A)) : list (pystr * A) := List.filter (fun kv => negb (bool_decide (kv.1 = key))) d.

Lemma dict_get_drop {A} k key (d : list (pystr * A)) : dict_get k (drop_key key d) = if decide (k = key) then None else dict_get k d.
Proof.
  unfold drop_key. induction d as [|[k' v] d IH]; cbn [List.filter dict_get]; [by destruct (decide _)|]. cbn [fst].
  destruct (decide (k' = key)) as [->|Hne].
  - rewrite bool_decide_true by done. cbn [negb]. rewrite IH. repeat case_decide; congruence.
  - rewrite bool_decide_false by done. cbn [negb dict_get]. rewrite IH. repeat case_decide; congruence.
Qed.

Lemma drop_key_absent {A} key (d : list (pystr * A)) : dict_get key d = None -> drop_key key d = d.
Proof.
  unfold drop_key. induction d as [|[k v] d IH]; [done|]. cbn [dict_get List.filter fst]. destruct (decide (k = key)) as [|Hne]; [done|]. intros E.
  rewrite bool_decide_false by congruence. cbn [negb]. by rewrite IH.
Qed.

Section Setting.
Context {PC : PyCase}.

(** The text that is in force. *)
Definition nat_intent (settings : list (pystr * pystr)) (enabled_rule force_disabled : bool) : pystr :=
  if force_disabled then str "false" else
  match dict_get NAT_ENABLED_SETTING_KEY settings with
  | Some value => value
  | None => default (if enabled_rule then str "true" else str "false") (dict_get LEGACY_NAT_ENABLED_SETTING_KEY settings)
  end.

Lemma ensure_is settings enabled_rule force :
  ensure_traffic_publishing_settings settings enabled_rule force =
  (mkTrafficPublishingSettings (is_true_text (nat_intent settings enabled_rule force))
     (match dict_get ROUTING_ENABLED_SETTING_KEY settings with Some routing => is_true_text routing | None => false end),
   drop_key LEGACY_NAT_ENABLED_SETTING_KEY (dict_set NAT_ENABLED_SETTING_KEY (nat_intent settings enabled_rule force) settings)).
Proof.
  unfold ensure_traffic_publishing_settings, nat_intent, drop_key. destruct force; [done|]. cbn [negb andb].
  destruct (dict_get NAT_ENABLED_SETTING_KEY settings); [done|]. by destruct (dict_get LEGACY_NAT_ENABLED_SETTING_KEY settings).
Qed.

(** The setting that enables NAT is migrated once: after a call the canonical key holds the
    intent (the canonical value, else the legacy one, else whether a rule is enabled; off
    when the factory default is forced), the legacy key is gone and every other setting is
    as before; a further call, whatever rules there are by then, returns the same and
    changes nothing; and saving a choice makes it the intent. *)
Theorem nat_setting_migrated {laws : PyCaseLaws} settings enabled_rule force result saved :
  ensure_traffic_publishing_settings settings enabled_rule force = (result, saved) ->
  dict_get NAT_ENABLED_SETTING_KEY saved = Some (nat_intent settings enabled_rule force) /\
  nat_enabled result = is_true_text (nat_intent settings enabled_rule force) /\
  dict_get LEGACY_NAT_ENABLED_SETTING_KEY saved = None /\
  (forall key, key <> NAT_ENABLED_SETTING_KEY -> key <> LEGACY_NAT_ENABLED_SETTING_KEY -> dict_get key saved = dict_get key settings) /\
  (forall later, ensure_traffic_publishing_settings saved later false = (result, saved)) /\
  (forall later choice, nat_enabled (save_traffic_publishing_settings saved later choice).1 = choice).
Proof.
  rewrite ensure_is. intros [= <- <-]. set (intent := nat_intent settings enabled_rule force). set (saved := drop_key _ _).
  assert (dict_get NAT_ENABLED_SETTING_KEY saved = Some intent) as Hn.
  { unfold saved. rewrite dict_get_drop, decide_False by (by vm_compute). by rewrite dict_get_set, decide_True. }
  assert (dict_get LEGACY_NAT_ENABLED_SETTING_KEY saved = None) as Hl by (unfold saved; by rewrite dict_get_drop, decide_True).
  assert (forall key, key <> NAT_ENABLED_SETTING_KEY -> key <> LEGACY_NAT_ENABLED_SETTING_KEY -> dict_get key saved = dict_get key settings) as Ho.
  { intros key H1 H2. unfold saved. rewrite dict_get_drop, decide_False by done. rewrite dict_get_set, decide_False by congruence. done. }
  assert (forall later, ensure_traffic_publishing_settings saved later false =
    (mkTrafficPublishingSettings (is_true_text intent) (match dict_get ROUTING_ENABLED_SETTING_KEY settings with Some r => is_true_text r | None => false end), saved)) as Hagain.
  { intros later. rewrite ensure_is. unfold nat_intent. rewrite Hn, (Ho ROUTING_ENABLED_SETTING_KEY) by (by vm_compute). by rewrite dict_set_same, drop_key_absent. }
  split_and!; try done. intros later choice. unfold save_traffic_publishing_settings. rewrite Hagain, ensure_is. cbn [fst nat_enabled]. unfold nat_intent.
  rewrite dict_get_set, decide_True by done. unfold is_true_text. rewrite py_lower_ascii by (destruct choice; apply (bool_decide_unpack _); vm_compute; exact I).
  by destruct choice; vm_compute.
Qed.
End Setting.

(* ------------------------------------------------------------------ *)
(** ** Instances *)

(** [nat_setting_migrated] at a legacy setting. *)
Lemma nat_setting_migrated_witness :
  dict_get NAT_ENABLED_SETTING_KEY (ensure_traffic_publishing_settings (H0 := ascii_case) [(LEGACY_NAT_ENABLED_SETTING_KEY, str "on")] false false).2 = Some (str "on") /\
  nat_enabled (ensure_traffic_publishing_settings (H0 := ascii_case) [(LEGACY_NAT_ENABLED_SETTING_KEY, str "on")] false false).1 = true.
Proof.
  destruct (nat_setting_migrated (laws := ascii_case_laws) _ _ _ _ _
    (surjective_pairing (ensure_traffic_publishing_settings (H0 := ascii_case) [(LEGACY_NAT_ENABLED_SETTING_KEY, str "on")] false false))) as (H1&H2&_).
  split; [rewrite H1; vm_compute; reflexivity|rewrite H2; vm_compute; reflexivity].
Defined.

(** [accepted_nat_rule_in_lab] at a rule between two interfaces. *)
Definition nat_interface (name cidr : string) : NatInterface :=
  mkNatInterface (str name) [] (str "up") (str "up") (str "access") (str "route") (Some (str cidr)) None.
Definition demo_interfaces : list NatInterface := [nat_interface "eth1" "10.0.1.1/24"; nat_interface "eth2" "10.0.2.1/24"].
Definition demo_rule : NatRule :=
  mkNatRule (str "out") true (str "10.0.1.0/24") (JList [JStr (str "eth1")]) (Some 4) (str "eth2") (str "snat") (str "10.0.2.1") None 100.
Definition plain_runtime : PyRuntime := {| unicode_casefold c := [c]; unicode_isalnum _ := false; float_eq _ _ := false; str_other _ := [] |}.
Lemma accepted_nat_rule_in_lab_witness : exists a, ip_address (nr_translated_address demo_rule) = Some (a, []) /\
  lab_address (PC := ascii_case) demo_interfaces [] (str "eth2") 4 a.
Proof.
  destruct (accepted_nat_rule_in_lab (RT := plain_runtime) (PC := ascii_case) demo_rule demo_interfaces [] [] true) as (inbound&_&_&_&_&_&_&_&Hs&_).
  - vm_compute. reflexivity.
  - reflexivity.
  - destruct (Hs eq_refl) as (a&H1&_&H2). exists a. split; [exact H1|exact H2].
Defined.
