(* ===== verification/PortForwarding.v ===== *)
(** [services/port_forwarding.py] with [port_forward_schemas.py]: destination translation
    (port forwards), its validation against the state of the appliance, the transactions
    that save it, the records rendered for the privileged helper and the status shown.

    - [Tables] is the desired state that the functions read and write, [Session] a database
      session on it whose statements may fail.  The identifier of a new row is the choice of
      the database ([new_ids]); the primary key and the unique name are enforced.
    - The validation of a text by pydantic is the class [Pydantic]: it trims white space and
      refuses what is no Unicode text.
    - The privileged helper is a parameter: what [port_forward_status] answers. *)

From S2P Require Import Prelude Utf8 PyText Json Sha256 IpAddress Networks Trace KeyProviders SourceGroups Firewall FirewallRouting FirewallServices TrafficPublishing.
Open Scope Z_scope.

Definition MAX_PORT_FORWARDS : Z := 256.
Definition MAX_MAPPED_PORTS : Z := 65535.

(* ------------------------------------------------------------------ *)
(** ** Data *)

(** The fields of a request, without the acknowledgement, which is not saved. *)
Record Fields : Type := mkFields {
  pf_name : pystr;
  pf_description : pystr;
  pf_priority : Z;
  pf_enabled : bool;
  pf_ip_family : Z;
  pf_ingress_interface : pystr;
  pf_listener_address : pystr;
  pf_protocol : pystr;
  pf_external_port_start : Z;
  pf_external_port_end : Z;
  pf_target_address : pystr;
  pf_target_port_start : Z;
  pf_target_port_end : Z;
  pf_source : pystr;
  pf_reply_mode : pystr
}.

(** [class PortForward], without its time stamps; a candidate may have no identifier. *)
Record PortForward : Type := mkPortForward {
  pf_id : option Z;
  pf_fields : Fields;
  pf_restore_review_required : bool
}.

Definition set_enabled (b : bool) (f : Fields) : Fields :=
  mkFields (pf_name f) (pf_description f) (pf_priority f) b (pf_ip_family f) (pf_ingress_interface f) (pf_listener_address f) (pf_protocol f)
    (pf_external_port_start f) (pf_external_port_end f) (pf_target_address f) (pf_target_port_start f) (pf_target_port_end f) (pf_source f)
    (pf_reply_mode f).
Definition set_addresses (listener target : pystr) (f : Fields) : Fields :=
  mkFields (pf_name f) (pf_description f) (pf_priority f) (pf_enabled f) (pf_ip_family f) (pf_ingress_interface f) listener (pf_protocol f)
    (pf_external_port_start f) (pf_external_port_end f) target (pf_target_port_start f) (pf_target_port_end f) (pf_source f) (pf_reply_mode f).

Record ListenerClaim : Type := mkListenerClaim {
  claim_interface : pystr;
  claim_address : pystr;
  claim_protocol : pystr;
  claim_start : Z;
  claim_end : Z;
  claim_owner : pystr;
  claim_scheme : pystr
}.

(* ------------------------------------------------------------------ *)
(** ** Requests *)

(** A text field of a pydantic model: the trimmed text, [None] for one that is refused. *)
Class Pydantic : Type := { pydantic_str : pystr -> option pystr }.

(** [validate_firewall_description]: the number of UTF-16 code units. *)
Definition utf16_units (s : pystr) : Z := foldr (fun c n => (if 0xFFFF <? c then 2 else 1) + n) 0 s.

Definition in_range (a b x : Z) : bool := (a <=? x) && (x <=? b).
Definition is_port (x : Z) : bool := in_range 1 65535 x.

Definition validation_error : exn := ValueError "validation error".

Section Requests.
Context `{Pydantic}.

(** A text with bounds on its length. *)
Definition text_field (a b : Z) (s : pystr) : res pystr :=
  match pydantic_str s with
  | Some t => if in_range a b (zlen t) then Ok t else Raise validation_error
  | None => Raise validation_error
  end.

Definition description_field (s : pystr) : res pystr :=
  match pydantic_str s with
  | Some t => if utf16_units t <=? 1000 then Ok t else Raise validation_error
  | None => Raise validation_error
  end.

Definition interface_field (s : pystr) : res pystr :=
  match pydantic_str s with
  | Some t => if is_canonical_name t then Ok t else Raise validation_error
  | None => Raise validation_error
  end.

(** [validate_mapping]. *)
Definition validate_mapping (f : Fields) (acknowledge_source_loss : bool) : res unit :=
  let external := pf_external_port_end f - pf_external_port_start f in
  let target := pf_target_port_end f - pf_target_port_start f in
  _ ← raise_if ((external <? 0) || (target <? 0) || negb (external =? target)) validation_error;
  raise_if (bool_decide (pf_reply_mode f = str "masquerade") && negb acknowledge_source_loss) validation_error.

(** [PortForwardCreate(...)]: the fields of the model, or [ValidationError]. *)
Definition PortForwardCreate (f : Fields) (acknowledge_source_loss : bool) : res Fields :=
  name ← text_field 1 120 (pf_name f);
  description ← description_field (pf_description f);
  ingress ← interface_field (pf_ingress_interface f);
  listener ← text_field 2 45 (pf_listener_address f);
  target ← text_field 2 45 (pf_target_address f);
  source ← text_field 1 4096 (pf_source f);
  _ ← raise_if (negb (in_range 0 2147483647 (pf_priority f))) validation_error;
  _ ← raise_if (negb (mem (pf_ip_family f) [4; 6])) validation_error;
  _ ← raise_if (negb (mem (pf_protocol f) (map str ["tcp"; "udp"]%string))) validation_error;
  _ ← raise_if (negb (is_port (pf_external_port_start f) && is_port (pf_external_port_end f) &&
                      is_port (pf_target_port_start f) && is_port (pf_target_port_end f))) validation_error;
  _ ← raise_if (negb (mem (pf_reply_mode f) (map str ["preserve"; "masquerade"]%string))) validation_error;
  let fields := mkFields name description (pf_priority f) (pf_enabled f) (pf_ip_family f) ingress listener (pf_protocol f)
                  (pf_external_port_start f) (pf_external_port_end f) target (pf_target_port_start f) (pf_target_port_end f) source
                  (pf_reply_mode f) in
  _ ← validate_mapping fields acknowledge_source_loss;
  Ok fields.
End Requests.

(* ------------------------------------------------------------------ *)
(** ** Addresses *)

Definition within (a : Z) (f : Family) (base prefix : Z) : bool := masked f prefix a =? base.

(** The special-purpose ranges of [ipaddress]: loopback, link-local, multicast, unspecified,
    reserved, and IPv4-mapped addresses. *)
Definition RESERVED_V6 : list (Z * Z) :=
  map (fun '(hextet, prefix) => (Z.shiftl hextet 112, prefix))
    [(0, 8); (0x100, 8); (0x200, 7); (0x400, 6); (0x800, 5); (0x1000, 4); (0x4000, 3); (0x6000, 3); (0x8000, 3); (0xA000, 3); (0xC000, 3);
     (0xE000, 4); (0xF000, 5); (0xF800, 6); (0xFE00, 9)].
Definition is_special (a : Address) : bool :=
  let n := value a in
  match Networks.family a with
  | V4 => within n V4 0x7F000000 8 || within n V4 0xA9FE0000 16 || within n V4 0xE0000000 4 || (n =? 0) || within n V4 0xF0000000 4
  | V6 => (n =? 1) || within n V6 (Z.shiftl 0xFE80 112) 10 || within n V6 (Z.shiftl 0xFF00 112) 8 || (n =? 0) ||
          existsb (fun r => within n V6 r.1 r.2) RESERVED_V6 || (n / 2 ^ 32 =? 0xffff)
  end.

Definition address_text (a : Address) : pystr := match Networks.family a with V4 => ipv4_str (value a) | V6 => ipv6_str (value a) end.

(** [unicast_address]; [None] is [ValueError].  An address with a scope has a percent sign. *)
Definition unicast_address (text : pystr) (family : Z) : option Address :=
  '(a, _) ← ip_address text;
  if negb (family_number (Networks.family a) =? family) || mem 37 text || is_special a then None else Some a.

(* ------------------------------------------------------------------ *)
(** ** The desired state *)

(** The settings rows of the services with a listener: the columns that reserve ports; a
    column that a class does not have is not read. *)
Inductive Model : Type :=
| KmsSettings | LdapSettings | OidcProviderSettings | NtpSettings | VcfBackupSettings | VcfOfflineDepotSettings
| VcfPrivateRegistrySettings | CaSettings.
#[global] Instance Model_eq_dec : EqDecision Model. Proof. solve_decision. Defined.
Record ServiceSettings : Type := mkServiceSettings {
  model : Model;
  ss_enabled : bool;
  ss_listen_interface : pystr;
  ss_listen_address : pystr;
  ss_port : Z;
  ss_ldap_port : Z;
  ss_ldaps_enabled : bool;
  ss_ldap_enabled : bool;
  ss_nts_ke_port : Z;
  ss_nts_server_enabled : bool
}.
(** The Network Boot settings, and the columns of [class ReverseProxy]. *)
Record Pxe : Type := mkPxe { pxe_on : bool; pxe_listen_address : pystr; pxe_listen_interface : pystr; pxe_http_port : Z }.
Record ReverseProxy : Type := mkReverseProxy {
  rp_enabled : bool;
  rp_port : Z;
  rp_redirect_http : bool;
  rp_redirect_port : Z;
  rp_listeners : list (pystr * pystr)
}.
(** [class AuditEvent]. *)
Record AuditEvent : Type := mkAuditEvent { ae_actor : pystr; ae_action : pystr; ae_resource_id : pystr }.

Record Tables : Type := mkTables {
  forwards : list PortForward;
  audit : list AuditEvent;
  physical_interfaces : list NatInterface;
  vlan_interfaces : list NatVlan;
  source_group_setting : option pystr;
  routing_setting : option pystr;
  service_settings : list ServiceSettings;
  network_boot : Pxe;
  reverse_proxies : list ReverseProxy
}.
Definition set_forwards (l : list PortForward) (t : Tables) : Tables :=
  mkTables l (audit t) (physical_interfaces t) (vlan_interfaces t) (source_group_setting t) (routing_setting t) (service_settings t)
    (network_boot t) (reverse_proxies t).
Definition add_audit (e : AuditEvent) (t : Tables) : Tables :=
  mkTables (forwards t) (audit t ++ [e]) (physical_interfaces t) (vlan_interfaces t) (source_group_setting t) (routing_setting t)
    (service_settings t) (network_boot t) (reverse_proxies t).

(* ------------------------------------------------------------------ *)
(** ** Listeners of the appliance *)

(** [re.split(r"[,\s]+", s)] without empty names. *)
Definition interface_names (s : pystr) : list pystr :=
  List.filter (fun x => negb (bool_decide (x = []))) (split_where (fun c => (c =? 44) || is_space c) s).

(** [split_addresses]. *)
Definition split_addresses (raw : pystr) : list pystr := ordered_unique [] (stripped_parts is_separator raw).

(** [[str(ip_address(address)) for address in split_addresses(raw)] or [STAR]]. *)
Definition STAR : pystr := str "*".
Definition listen_addresses (raw : pystr) : res (list pystr) :=
  l ← mapM ip_address_str (split_addresses raw);
  Ok (match l with [] => [STAR] | _ => l end).

Definition port_claim (interface address protocol : pystr) (port : Z) (owner scheme : string) : ListenerClaim :=
  mkListenerClaim interface address protocol port port (str owner) (str scheme).

(** The service ports: the class, the column and the protocol. *)
Inductive PortField : Type := FPort | FLdapPort | FNtsKePort.
Definition port_of (field : PortField) (row : ServiceSettings) : Z :=
  match field with FPort => ss_port row | FLdapPort => ss_ldap_port row | FNtsKePort => ss_nts_ke_port row end.
Definition specs : list (Model * PortField * pystr) :=
  [(KmsSettings, FPort, str "tcp"); (LdapSettings, FPort, str "tcp"); (LdapSettings, FLdapPort, str "tcp"); (OidcProviderSettings, FPort, str "tcp");
   (NtpSettings, FPort, str "udp"); (NtpSettings, FNtsKePort, str "tcp"); (VcfBackupSettings, FPort, str "tcp");
   (VcfOfflineDepotSettings, FPort, str "tcp"); (VcfPrivateRegistrySettings, FPort, str "tcp")].
Definition field_on (field : PortField) (row : ServiceSettings) : bool :=
  match model row, field with
  | LdapSettings, FPort => ss_ldaps_enabled row
  | LdapSettings, _ => ss_ldap_enabled row
  | NtpSettings, FNtsKePort => ss_nts_server_enabled row
  | _, _ => true
  end.
Definition spec_claims (settings : list ServiceSettings) (spec : Model * PortField * pystr) : res (list ListenerClaim) :=
  let '(m, field, protocol) := spec in
  match List.find (fun row => bool_decide (model row = m)) settings with
  | None => Ok []
  | Some row =>
    if negb (ss_enabled row) || negb (field_on field row) then Ok [] else
    addresses ← listen_addresses (ss_listen_address row);
    let shared_nginx := bool_decide (m = OidcProviderSettings) || bool_decide (m = VcfOfflineDepotSettings) in
    Ok (concat (map (fun name => map (fun address =>
          port_claim name address protocol (port_of field row) (if shared_nginx then "nginx" else "exclusive") (if shared_nginx then "https" else ""))
          addresses) (interface_names (ss_listen_interface row))))
  end.

(** The standard ports of the browser. *)
Definition browser_claims (row : ServiceSettings) : res (list ListenerClaim) :=
  if negb (ss_enabled row) || negb (mem (model row) [CaSettings; VcfOfflineDepotSettings; VcfPrivateRegistrySettings]) then Ok [] else
  let browser_ports := (80, "http"%string) :: (if bool_decide (model row = CaSettings) then [(443, "https"%string)] else []) in
  addresses ← listen_addresses (ss_listen_address row);
  Ok (concat (map (fun name => concat (map (fun address =>
        map (fun ps => port_claim name address (str "tcp") ps.1 "nginx" ps.2) browser_ports) addresses))
      (interface_names (ss_listen_interface row)))).

Definition pxe_claims (pxe : Pxe) : res (list ListenerClaim) :=
  if negb (pxe_on pxe) then Ok [] else
  addresses ← listen_addresses (pxe_listen_address pxe);
  Ok (concat (map (fun name => concat (map (fun address =>
        map (fun port => port_claim name address (str "tcp") port "nginx" "http") [80; pxe_http_port pxe]) addresses))
      (interface_names (pxe_listen_interface pxe)))).

Definition standing_claims : list ListenerClaim :=
  map (fun port => port_claim STAR STAR (str "udp") port "exclusive" "") [53; 67; 68; 69; 111; 547] ++
  map (fun port => port_claim STAR STAR (str "tcp") port "exclusive" "") [53; 111; 2049; 20048].

(** [listener_claims_for_settings]; the ports of Network Boot are a set, whose order does not
    matter. *)
Definition listener_claims_for_settings (settings : list ServiceSettings) (pxe : Pxe) : res (list ListenerClaim) :=
  services ← mapM (spec_claims settings) specs;
  browsers ← mapM browser_claims settings;
  boot ← pxe_claims pxe;
  Ok ([port_claim STAR STAR (str "tcp") 22 "exclusive" ""; port_claim STAR STAR (str "tcp") 80 "nginx" "http";
       port_claim STAR STAR (str "tcp") 443 "nginx" "https"] ++ concat services ++ concat browsers ++ standing_claims ++ boot).

(** [listener_claims]. *)
Definition proxy_claims (proxy : ReverseProxy) : list ListenerClaim :=
  if negb (rp_enabled proxy) then [] else
  let ports := rp_port proxy :: (if rp_redirect_http proxy then [rp_redirect_port proxy] else []) in
  concat (map (fun l => map (fun port => port_claim l.1 l.2 (str "tcp") port "exclusive" "") ports) (rp_listeners proxy)).
Definition listener_claims (t : Tables) : res (list ListenerClaim) :=
  claims ← listener_claims_for_settings (service_settings t) (network_boot t);
  Ok (claims ++ concat (map proxy_claims (reverse_proxies t))).

(* ------------------------------------------------------------------ *)
(** ** Validation *)

Record Context : Type := mkContext {
  ctx_targets : list NatTarget;
  ctx_interfaces : list (pystr * (option pystr * option pystr));
  ctx_groups : list Group;
  ctx_claims : list ListenerClaim
}.

Definition as_physical (i : NatInterface) : PhysicalInterface :=
  mkPhysicalInterface (ni_name i) (ni_oper_state i) (ni_mode i) (ni_role i) (ni_ip_cidr i) (ni_ipv6_cidr i).
Definition as_vlan (v : NatVlan) : VlanInterface :=
  mkVlanInterface (nv_name v) (nv_enabled v) (nv_role v) (nv_ip_cidr v) (nv_ipv6_cidr v).

(** The messages of [validate_port_forward]. *)
Definition review_fields : string := "Review the name, family, source boundary, unicast addresses, protocol and equal-length port mapping.".
Definition not_canonical : string := "Port-forward listener and target addresses must use canonical IP notation.".
Definition not_assigned : string := "Select an exact assigned listener on an enabled same-family access or route interface or VLAN.".
Definition own_address : string := "A port-forward target cannot be an Atlaso appliance address.".
Definition management_target : string := "Dedicated management networks cannot be port-forward targets.".
Definition subnet_address : string := "Listener and target addresses cannot be subnet network or broadcast addresses.".
Definition listener_collision : string := "The external mapping collides with an Atlaso-owned service or protocol listener.".
Definition forward_overlap : string := "Enabled port forwards cannot overlap on the same family, listener, protocol and external ports.".
Definition too_many_ports : string := "Enabled port forwards may map at most 65535 external ports in total.".

(** The last address of a network. *)
Definition broadcast_address (n : Network) : Z := network_address n + (2 ^ (width (version n) - prefixlen n) - 1).

(** The errors that one address of an interface causes. *)
Definition assigned_errors (family : Z) (listener target : Address) (role : pystr) (cidr : option pystr) : list string :=
  match ip_interface (default [] cidr) with
  | None => []
  | Some (assigned, network) =>
    (if bool_decide (Networks.family target = Networks.family assigned) && (value target =? value assigned) then [own_address] else []) ++
    (if negb (family_number (Networks.family assigned) =? family) then [] else
     (if bool_decide (role = str "management") && in_network target network then [management_target] else []) ++
     (if bool_decide (Networks.family assigned = V4) && (prefixlen network <? 31) &&
         (mem (value listener) [network_address network; broadcast_address network] ||
          mem (value target) [network_address network; broadcast_address network])
      then [subnet_address] else []))
  end.

Definition overlaps (a b c d : Z) : bool := (a <=? d) && (c <=? b).

(** The claim is for the listener of the rule. *)
Definition claim_collides (f : Fields) (listener : pystr) (c : ListenerClaim) : bool :=
  mem (claim_interface c) [STAR; pf_ingress_interface f] &&
  (mem (claim_address c) [STAR; str "::"; listener] || (bool_decide (claim_address c = str "0.0.0.0") && (pf_ip_family f =? 4))) &&
  bool_decide (claim_protocol c = pf_protocol f) &&
  overlaps (pf_external_port_start f) (pf_external_port_end f) (claim_start c) (claim_end c).

(** The two translate a packet in common. *)
Definition forwards_overlap (f : Fields) (listener : pystr) (peer : Fields) : bool :=
  (pf_ip_family peer =? pf_ip_family f) && bool_decide (pf_listener_address peer = listener) &&
  bool_decide (pf_protocol peer = pf_protocol f) &&
  overlaps (pf_external_port_start peer) (pf_external_port_end peer) (pf_external_port_start f) (pf_external_port_end f).

Definition same_id (rule peer : PortForward) : bool := bool_decide (pf_id peer = pf_id rule) && bool_decide (is_Some (pf_id rule)).
Definition mapped_ports (f : Fields) : Z := pf_external_port_end f - pf_external_port_start f + 1.
Definition sum (l : list Z) : Z := foldr Z.add 0 l.

Section Forwards.
Context `{PyRuntime} `{PyCase} `{Pydantic}.

(** [source_networks]; [resolved_nat_source] is in [TrafficPublishing]. *)
Definition source_networks (source : pystr) (family : Z) (groups : list Group) : res (list pystr) :=
  resolved ← resolved_nat_source source groups;
  if bool_decide (py_lower resolved = ANY) then Ok [] else
  let values := stripped_parts is_entry_separator resolved in
  _ ← raise_if (bool_decide (values = []) || (128 <? zlen values)) (ValueError "Choose Any or at most 128 same-family source networks.");
  networks ← mapM (fun v => match ip_network v with Some n => Ok n | None => Raise (ValueError "not a network") end) values;
  _ ← raise_if (existsb (fun n => negb (family_number (version n) =? family)) networks)
        (ValueError "Every Source Group member or source CIDR must match the rule's IP family.");
  Ok (sorted_str (ordered_unique [] (map network_str networks))).

(** [validation_context]. *)
Definition source_groups_of (t : Tables) : res (list Group) :=
  state ← firewall_source_group_state (default [] (source_group_setting t))
            (firewall_interface_networks (map as_physical (physical_interfaces t)) (map as_vlan (vlan_interfaces t)));
  Ok (gs_groups state).
Definition validation_context (t : Tables) : res Context :=
  groups ← source_groups_of t;
  claims ← listener_claims t;
  Ok (mkContext (nat_targets (physical_interfaces t) (vlan_interfaces t))
        (map (fun i => (ni_role i, (ni_ip_cidr i, ni_ipv6_cidr i))) (physical_interfaces t) ++
         map (fun v => (nv_role v, (nv_ip_cidr v, nv_ipv6_cidr v))) (vlan_interfaces t))
        groups claims).

(** The first part of [validate_port_forward]: the listener, the target and whether both are
    canonical; [None] is [ValueError]. *)
Definition validated_addresses (f : Fields) (groups : list Group) : option (Address * Address * bool) :=
  match PortForwardCreate f true with
  | Raise _ => None
  | Ok _ =>
    listener ← unicast_address (pf_listener_address f) (pf_ip_family f);
    target ← unicast_address (pf_target_address f) (pf_ip_family f);
    match source_networks (pf_source f) (pf_ip_family f) groups with
    | Ok _ => Some (listener, target, bool_decide (address_text listener = pf_listener_address f) && bool_decide (address_text target = pf_target_address f))
    | Raise _ => None
    end
  end.

(** The listener is the address of the ingress interface; the text of an address that does
    not parse raises [ValueError]. *)
Definition listener_assigned (f : Fields) (listener : Address) (targets : list NatTarget) : res bool :=
  match dict_get (pf_ingress_interface f) (dict_of (map (fun t => (nt_name t, t)) targets)) with
  | None => Ok false
  | Some t =>
    match (if pf_ip_family f =? 4 then nt_ip_cidr t else nt_ipv6_cidr t) with
    | [] => Ok false
    | cidr => match ip_interface cidr with
              | Some (a, _) => Ok (bool_decide (Networks.family a = Networks.family listener) && (value a =? value listener))
              | None => Raise (ValueError "not an interface")
              end
    end
  end.

(** [dict.fromkeys(errors)]. *)
Fixpoint distinct_errors (seen l : list string) : list string :=
  match l with
  | [] => []
  | e :: l => if mem e seen then distinct_errors seen l else e :: distinct_errors (e :: seen) l
  end.

(** [validate_port_forward]. *)
Definition validate_port_forward (rule : PortForward) (peers : list PortForward) (context : Context) (require_binding : bool) : res (list string) :=
  let f := pf_fields rule in
  match validated_addresses f (ctx_groups context) with
  | None => Ok [review_fields]
  | Some (listener, target, canonical) =>
    assigned ← (if require_binding then listener_assigned f listener (ctx_targets context) else Ok true);
    Ok (distinct_errors []
      ((if canonical then [] else [not_canonical]) ++
       (if assigned : bool then [] else [not_assigned]) ++
       concat (map (fun '(role, (ip_cidr, ipv6_cidr)) =>
                      assigned_errors (pf_ip_family f) listener target role ip_cidr ++ assigned_errors (pf_ip_family f) listener target role ipv6_cidr)
                 (ctx_interfaces context)) ++
       (if existsb (claim_collides f (address_text listener)) (ctx_claims context) then [listener_collision] else []) ++
       (if existsb (fun peer => negb (same_id rule peer) && pf_enabled (pf_fields peer) && pf_enabled f &&
                                forwards_overlap f (address_text listener) (pf_fields peer)) peers
        then [forward_overlap] else []) ++
       (if pf_enabled f &&
           (MAX_MAPPED_PORTS <? mapped_ports f +
              sum (map (fun peer => mapped_ports (pf_fields peer))
                (List.filter (fun peer => pf_enabled (pf_fields peer) && (bool_decide (pf_id rule = None) || negb (bool_decide (pf_id peer = pf_id rule)))) peers)))
        then [too_many_ports] else [])))
  end.

(* ------------------------------------------------------------------ *)
(** ** Transactions *)

(** A session: the tables that are committed, those of its transaction, the identifiers that
    the database gives to new rows and the failures of statements ahead. *)
Record Session : Type := mkSession {
  committed : Tables;
  tables : Tables;
  new_ids : list Z;
  statement_faults : list bool
}.
Definition set_tables (t : Tables) (s : Session) : Session := mkSession (committed s) t (new_ids s) (statement_faults s).

(** One statement, which may fail. *)
Definition statement : ST Session unit := fun s =>
  match statement_faults s with
  | true :: l => (Raise SqliteError, mkSession (committed s) (tables s) (new_ids s) l)
  | false :: l => (Ok tt, mkSession (committed s) (tables s) (new_ids s) l)
  | [] => (Ok tt, s)
  end.
Definition select {A} (f : Tables -> A) : ST Session A := _ ← statement; gets (fun s => f (tables s)).
Definition new_id : ST Session Z := fun s =>
  (Ok (default 0 (head (new_ids s))), mkSession (committed s) (tables s) (tail (new_ids s)) (statement_faults s)).

Definition commit : ST Session unit := _ ← statement; modify (fun s => mkSession (tables s) (tables s) (new_ids s) (statement_faults s)).
Definition rollback : ST Session unit := modify (fun s => set_tables (committed s) s).

(** [acquire_network_objects_write_lock]. *)
Definition acquire_network_objects_write_lock : ST Session unit := statement.

Definition has_id (rule_id : Z) (r : PortForward) : bool := bool_decide (pf_id r = Some rule_id).
Definition has_name (name : pystr) (r : PortForward) : bool := bool_decide (pf_name (pf_fields r) = name).
Definition find_forward (rule_id : Z) (t : Tables) : option PortForward := List.find (has_id rule_id) (forwards t).

(** [INSERT] and [UPDATE] with the constraints of the table. *)
Definition insert_forward (f : Fields) : ST Session Z :=
  _ ← statement;
  rule_id ← new_id;
  l ← gets (fun s => forwards (tables s));
  _ ← lift (raise_if (existsb (fun r => has_id rule_id r || has_name (pf_name f) r) l) IntegrityError);
  _ ← modify (fun s => set_tables (set_forwards (l ++ [mkPortForward (Some rule_id) f false]) (tables s)) s);
  mret rule_id.
Definition update_forward (rule_id : Z) (f : Fields) : ST Session Z :=
  _ ← statement;
  l ← gets (fun s => forwards (tables s));
  _ ← lift (raise_if (existsb (fun r => negb (has_id rule_id r) && has_name (pf_name f) r) l) IntegrityError);
  _ ← modify (fun s => set_tables (set_forwards (map (fun r => if has_id rule_id r then mkPortForward (Some rule_id) f false else r) l) (tables s)) s);
  mret rule_id.
Definition insert_audit (actor action : pystr) (rule_id : Z) : ST Session unit :=
  _ ← statement; modify (fun s => set_tables (add_audit (mkAuditEvent actor action (dump_int rule_id)) (tables s)) s).

(** The body of the [try] of [save_port_forward]. *)
Definition save_body (payload : Fields) (actor : pystr) (rule_id : option Z) : ST Session PortForward :=
  peers ← select forwards;
  current ← match rule_id with Some i => select (find_forward i) | None => mret None end;
  _ ← lift (raise_if (bool_decide (is_Some rule_id) && bool_decide (current = None)) LookupError);
  _ ← lift (raise_if (bool_decide (current = None) && (MAX_PORT_FORWARDS <=? zlen peers)) (ValueError "At most 256 port forwards may be saved."));
  listener ← lift (ip_address_str (pf_listener_address payload));
  target ← lift (ip_address_str (pf_target_address payload));
  let values := set_addresses listener target payload in
  context ← select validation_context;
  context ← lift context;
  errors ← lift (validate_port_forward (mkPortForward rule_id values false) peers context true);
  _ ← lift (raise_if (negb (bool_decide (errors = []))) (ValueError (String.concat " " errors)));
  saved_id ← match rule_id with None => insert_forward values | Some i => update_forward i values end;
  _ ← lift (raise_if (negb (in_range 1 0xFFFFFF saved_id))
              (ValueError "Port-forward identity capacity is exhausted; contact the appliance maintainer."));
  _ ← insert_audit actor (match rule_id with None => str "create_port_forward" | Some _ => str "update_port_forward" end) saved_id;
  _ ← commit;
  mret (mkPortForward (Some saved_id) values false).

Definition is_IntegrityError (e : exn) : bool := match e with IntegrityError => true | _ => false end.

(** [save_port_forward]. *)
Definition save_port_forward (payload : Fields) (actor : pystr) (rule_id : option Z) : ST Session PortForward :=
  _ ← acquire_network_objects_write_lock;
  catch is_Exception (save_body payload actor rule_id)
    (fun exc => _ ← rollback;
                lift (Raise (if is_IntegrityError exc then ValueError "A port forward with that name already exists." else exc))).

(** [delete_port_forward]. *)
Definition delete_port_forward (rule_id : Z) (actor : pystr) : ST Session unit :=
  _ ← acquire_network_objects_write_lock;
  catch is_Exception
    (row ← select (find_forward rule_id);
     _ ← lift (raise_if (bool_decide (row = None)) LookupError);
     _ ← statement;
     _ ← modify (fun s => set_tables (set_forwards (List.filter (fun r => negb (has_id rule_id r)) (forwards (tables s))) (tables s)) s);
     _ ← insert_audit actor (str "delete_port_forward") rule_id;
     commit)
    (fun exc => _ ← rollback; lift (Raise exc)).

(** [set_port_forward_enabled]. *)
Definition set_port_forward_enabled (rule_id : Z) (enabled : bool) (actor : pystr) : ST Session PortForward :=
  _ ← acquire_network_objects_write_lock;
  row ← select (find_forward rule_id);
  match row with
  | None => _ ← rollback; lift (Raise LookupError)
  | Some row =>
    catch is_Exception
      (payload ← lift (PortForwardCreate (set_enabled enabled (pf_fields row)) true);
       save_port_forward payload actor (Some rule_id))
      (fun exc => _ ← rollback; lift (Raise exc))
  end.

(* ------------------------------------------------------------------ *)
(** ** The records of the helper *)

(** A record: the fields, the identifier and the networks of the source. *)
Definition forward_record (r : PortForward) (networks : list pystr) : json :=
  let f := pf_fields r in
  JDict [(str "name", JStr (pf_name f)); (str "description", JStr (pf_description f)); (str "priority", JInt (pf_priority f));
         (str "enabled", JBool (pf_enabled f)); (str "ip_family", JInt (pf_ip_family f)); (str "ingress_interface", JStr (pf_ingress_interface f));
         (str "listener_address", JStr (pf_listener_address f)); (str "protocol", JStr (pf_protocol f));
         (str "external_port_start", JInt (pf_external_port_start f)); (str "external_port_end", JInt (pf_external_port_end f));
         (str "target_address", JStr (pf_target_address f)); (str "target_port_start", JInt (pf_target_port_start f));
         (str "target_port_end", JInt (pf_target_port_end f)); (str "source", JStr (pf_source f)); (str "reply_mode", JStr (pf_reply_mode f));
         (str "id", match pf_id r with Some i => JInt i | None => JNull end); (str "source_networks", JList (map JStr networks))].
Definition rendered_record (groups : list Group) (r : PortForward) : res json :=
  match source_networks (pf_source (pf_fields r)) (pf_ip_family (pf_fields r)) groups with
  | Ok networks => Ok (forward_record r networks)
  | Raise e => if pf_enabled (pf_fields r) then Raise e else Ok (forward_record r [])
  end.

Definition id_or_0 (r : PortForward) : Z := default 0 (pf_id r).
Definition forward_le (a b : PortForward) : bool :=
  (pf_priority (pf_fields a) <? pf_priority (pf_fields b)) ||
  ((pf_priority (pf_fields a) =? pf_priority (pf_fields b)) && (id_or_0 a <=? id_or_0 b)).

(** [render_port_forward_records]; a source raises [ValueError] only. *)
Definition records_header : pystr := [10] ++ str "[port_forwards]" ++ [10] ++ str "json=".
Definition render_port_forward_records (rules : list PortForward) (groups : list Group) : res pystr :=
  records ← mapM (rendered_record groups) (sort_by forward_le rules);
  Ok (records_header ++ dumps_compact (JList records) ++ [10]).

(** [row.get("enabled") is not False], for a dictionary. *)
Definition maybe_enabled (row : json) : bool :=
  match row with
  | JDict row => match dict_get (str "enabled") row with Some (JBool false) => false | _ => true end
  | _ => true
  end.

(** The loop of [snapshot_has_port_forwards]. *)
Definition OFF : list pystr := map str ["false"; "0"; "no"; "off"]%string.
Fixpoint snapshot_lines (active feature_settings routing_enabled : bool) (lines : list pystr) : bool :=
  match lines with
  | [] => active
  | line :: lines =>
    let line := strip is_space line in
    if has_prefix (str "[") line then
      if active then true
      else snapshot_lines (bool_decide (line = str "[port_forwards]")) (bool_decide (line = str "[feature_settings]")) routing_enabled lines
    else if feature_settings && has_prefix (str "routing_enabled=") line then
      snapshot_lines active feature_settings (negb (mem (py_lower (strip is_space (drop 16 line))) OFF)) lines
    else if active && has_prefix (str "json=") line then
      match loads (drop 5 line) with
      | Ok (JList records) => routing_enabled && existsb maybe_enabled records
      | Ok _ | Raise _ => true
      end
    else snapshot_lines active feature_settings routing_enabled lines
  end.

(** [snapshot_has_port_forwards]. *)
Definition snapshot_has_port_forwards (preview : pystr) : bool := snapshot_lines false false true (splitlines preview).

(** What the helper answers: the return code and the output; [None] is [OSError]. *)
Definition helper_answer : Type := option (Z * pystr).

(** [runtime_has_port_forwards]. *)
Definition runtime_has_port_forwards (answer : helper_answer) : res bool :=
  let unknown := Raise (ValueError "Cannot verify applied forwarding intent; restore helper readiness before submitting appliance changes.") in
  match answer with
  | Some (returncode, stdout) =>
    if (returncode =? 0) && (zlen stdout <=? 2000000) then
      match loads stdout with
      | Ok (JDict d) => match dict_get (str "runtime_has_port_forwards") d with Some (JBool b) => Ok b | _ => unknown end
      | _ => unknown
      end
    else unknown
  | None => unknown
  end.

(* ------------------------------------------------------------------ *)
(** ** Admission in the firewall *)

(** [re.search(r"^table inet atlaso\s*\{", s, re.MULTILINE)]. *)
Definition opens_table (s : pystr) : bool :=
  has_prefix (str "table inet atlaso") s && has_prefix (str "{") (lstrip is_space (drop 17 s)).
Fixpoint has_table (line_start : bool) (s : pystr) : bool :=
  (line_start && opens_table s) ||
  match s with [] => false | c :: s => has_table (c =? 10) s end.

Definition rstrip (s : pystr) : pystr := rev (lstrip is_space (rev s)).

(** [hex(0xa7000000 | rule.id)]. *)
Definition forward_mark (rule_id : Z) : Z := Z.lor 0xa7000000 rule_id.
Definition ports_text (a b : Z) : pystr := if a =? b then dump_int a else dump_int a ++ str "-" ++ dump_int b.

(** The two rules of a forward. *)
Definition admission_line (r : PortForward) (sources : list pystr) (reply : bool) : pystr :=
  let f := pf_fields r in
  let family := if pf_ip_family f =? 4 then str "ip" else str "ip6" in
  let source := match sources with
                | [] => []
                | _ => str "ct original " ++ family ++ str " saddr { " ++ join_with (str ", ") sources ++ str " } "
                end in
  str "add rule inet atlaso forward ct mark 0x" ++ hex_str (forward_mark (id_or_0 r)) ++ str " ct status dnat ct direction " ++
  (if reply then str "reply oifname " else str "original iifname ") ++ dump_str (pf_ingress_interface f) ++
  str " ct original " ++ family ++ str " daddr " ++ pf_listener_address f ++ str " " ++ source ++
  str "meta l4proto " ++ pf_protocol f ++ str " ct original proto-dst " ++ ports_text (pf_external_port_start f) (pf_external_port_end f) ++
  str " accept comment " ++ [34] ++ str "Atlaso port forward " ++ dump_int (id_or_0 r) ++ [34].

(** The row of a forward in the list of firewall rules. *)
Definition admission_row (r : PortForward) (sources : list pystr) : json :=
  let f := pf_fields r in
  let ports := ports_text (pf_external_port_start f) (pf_external_port_end f) in
  JDict [(str "id", JStr (str "port-forward:" ++ dump_int (id_or_0 r))); (str "name", JStr (str "Port forward: " ++ pf_name f));
         (str "managed_state", JStr (str "generated")); (str "managed_status", JStr (str "generated")); (str "source_group_id", JStr []);
         (str "source_group_name", JStr (pf_source f)); (str "source_group_sources", JStr (join_with (str ", ") sources));
         (str "direction", JStr (str "forward")); (str "action", JStr (str "accept")); (str "protocol", JStr (pf_protocol f));
         (str "destination_port", JStr ports); (str "interface_name", JStr (pf_ingress_interface f)); (str "priority", JInt (pf_priority f));
         (str "enabled", JBool true);
         (str "description", JStr (str "Port forward #" ++ dump_int (id_or_0 r) ++ str ": IPv" ++ dump_int (pf_ip_family f) ++ str " " ++
            pf_listener_address f ++ str ":" ++ ports ++ str " to " ++ pf_target_address f ++ str ":" ++ dump_int (pf_target_port_start f) ++
            str "-" ++ dump_int (pf_target_port_end f) ++ str "; reply mode " ++ pf_reply_mode f ++ str ". Edit this resource in Traffic Publishing."))].

(** [port_forward_firewall_projection], of rows that are saved and so have identifiers. *)
Definition port_forward_firewall_projection (firewall : pystr) (rules : list PortForward) (groups : list Group) (routing_enabled : bool) :
    res (pystr * list json) :=
  let active := List.filter (fun r => pf_enabled (pf_fields r) && routing_enabled) rules in
  let table := if negb (bool_decide (active = [])) && negb (has_table true firewall)
               then [str "table inet atlaso {"; str "  chain forward {"; str "    type filter hook forward priority filter; policy accept;";
                     str "  }"; str "}"]
               else [] in
  parts ← mapM (fun r => sources ← source_networks (pf_source (pf_fields r)) (pf_ip_family (pf_fields r)) groups;
                         Ok ([admission_line r sources false; admission_line r sources true], admission_row r sources))
            (sort_by forward_le active);
  if bool_decide (active = []) then Ok (firewall, []) else
  Ok (join_with [10] ([rstrip firewall; str "# BEGIN ATLASO PORT FORWARD ADMISSION"] ++ table ++ concat (map fst parts) ++
                      [str "# END ATLASO PORT FORWARD ADMISSION"]) ++ [10], map snd parts).

(* ------------------------------------------------------------------ *)
(** ** Status *)

Record PortForwardStatus : Type := mkPortForwardStatus {
  st_id : option Z;
  st_state : pystr;
  st_packets : option Z;
  st_bytes : option Z;
  st_detail : pystr
}.

(** [s.split(sep, 1)[1]]. *)
Fixpoint after (sep s : pystr) : option pystr :=
  if has_prefix sep s then Some (drop (length sep) s) else match s with [] => None | _ :: s => after sep s end.

(** The fingerprint of the record of a rule; the empty text when there is none. *)
Definition record_fingerprint (r : PortForward) (groups : list Group) : pystr :=
  match render_port_forward_records [r] groups with
  | Raise _ => []
  | Ok text =>
    match after (str "json=") text with
    | None => []
    | Some serialized =>
      match loads serialized with
      | Ok (JList (record :: _)) => match utf8_encode (dumps_compact record) with Ok b => sha256_hex b | Raise _ => [] end
      | _ => []
      end
    end
  end.

Definition text_at (runtime : list (pystr * json)) (key : string) : option pystr :=
  match dict_get (str key) runtime with Some (JStr s) => Some s | _ => None end.
Definition counter (runtime : list (pystr * json)) (key : string) : option Z :=
  match dict_get (str key) runtime with Some (JInt n) => if 0 <=? n then Some n else None | _ => None end.

(** The observed rows by identifier; a later row replaces an earlier one. *)
Fixpoint observed_row (rule_id : Z) (rows : list json) : option (list (pystr * json)) :=
  match rows with
  | [] => None
  | JDict row :: rows =>
    match observed_row rule_id rows with
    | Some r => Some r
    | None => match dict_get (str "id") row with Some (JInt i) => if i =? rule_id then Some row else None | _ => None end
    end
  | _ :: rows => observed_row rule_id rows
  end.

Definition warning_details : list (pystr * pystr) :=
  [(str "target_route_missing", str "The target has no usable lab route. Review Routing & WAN and the target network; translation remains applied.");
   (str "target_neighbor_failed", str "The target or its next-hop neighbor failed resolution. Check its address, power, and network connection; translation remains applied.");
   (str "target_observation_unavailable", str "Target path observations are unavailable. Review appliance runtime readiness and test from a selected client.")].

(** A status without counters. *)
Definition uncounted (r : PortForward) (state detail : string) : PortForwardStatus :=
  mkPortForwardStatus (pf_id r) (str state) None None (str detail).

(** The status of one rule. *)
Definition rule_status (groups : list Group) (routing_enabled available : bool) (rows : list json) (r : PortForward) : PortForwardStatus :=
  let runtime := rule_id ← pf_id r; observed_row rule_id rows in
  let enabled := pf_enabled (pf_fields r) in
  let pending := uncounted r "pending" "Desired intent differs from the applied snapshot; submit appliance changes." in
  if negb available then uncounted r "degraded" "Applied translation observations are unavailable; review runtime readiness."
  else match runtime with
  | None =>
    if negb enabled then uncounted r "disabled" "This rule is disabled and has no applied translation."
    else if negb routing_enabled then uncounted r "suspended" "Routing is disabled; this rule remains saved without active translation."
    else pending
  | Some runtime =>
    if negb (enabled && routing_enabled) then pending else
    let fingerprint := record_fingerprint r groups in
    if bool_decide (fingerprint = []) || negb (bool_decide (text_at runtime "snapshot_hash" = Some fingerprint)) then pending else
    let packets := counter runtime "packets" in
    let octets := counter runtime "bytes" in
    let valid_counters := bool_decide (is_Some packets) && bool_decide (is_Some octets) in
    let counted state detail := mkPortForwardStatus (pf_id r) state (if valid_counters then packets else None)
                                  (if valid_counters then octets else None) detail in
    if valid_counters && bool_decide (text_at runtime "state" = Some (str "applied"))
    then counted (str "applied") (str "Applied translation matches current intent.")
    else counted (str "degraded") (default (str "Applied translation needs runtime or target-readiness review.")
           (dict_get (match dict_get (str "warning") runtime with Some v => if truthy v then py_str v else [] | None => [] end) warning_details))
  end.

(** [port_forward_status]. *)
Definition port_forward_status (rules : list PortForward) (groups : list Group) (routing_enabled : bool) (observation : list (pystr * json)) :
    list PortForwardStatus :=
  let '(available, rows) :=
    match default (JList []) (dict_get (str "rules") observation) with
    | JList rows => if zlen rows <=? MAX_PORT_FORWARDS
                    then (match dict_get (str "available") observation with Some (JBool b) => b | _ => false end, rows) else (false, [])
    | _ => (false, [])
    end in
  map (rule_status groups routing_enabled available rows) (take (Z.to_nat MAX_PORT_FORWARDS) rules).

(** [observe_port_forwards], which reads the rules by priority and name. *)
Definition name_le (a b : PortForward) : bool :=
  (pf_priority (pf_fields a) <? pf_priority (pf_fields b)) ||
  ((pf_priority (pf_fields a) =? pf_priority (pf_fields b)) && str_leb (pf_name (pf_fields a)) (pf_name (pf_fields b))).
Definition observe_port_forwards (answer : Z * pystr) (t : Tables) : res (list PortForwardStatus) :=
  let '(returncode, stdout) := answer in
  let nothing := [(str "available", JBool false); (str "rules", JList [])] in
  let observation := if (returncode =? 0) && (zlen stdout <=? 2000000)
                     then match loads stdout with Ok (JDict parsed) => parsed | _ => nothing end
                     else nothing in
  context ← validation_context t;
  Ok (port_forward_status (take (Z.to_nat MAX_PORT_FORWARDS) (sort_by name_le (forwards t))) (ctx_groups context)
        (match routing_setting t with Some v => is_true_text v | None => false end) observation).
End Forwards.
