(* ===== verification/PortForwardingSteps.v ===== *)
(** What the transactions of [PortForwarding] do: a call that raises has changed nothing, and
    one that returns has committed one accepted row. *)

From S2P Require Import Prelude Utf8 PyText Json Sha256 IpAddress Networks Trace KeyProviders SourceGroups Firewall FirewallRouting FirewallServices TrafficPublishing PortForwarding.
Open Scope Z_scope.

(* ------------------------------------------------------------------ *)
(** ** Steps of a session *)

(** A postcondition that allows every failure that left the committed tables as they were. *)
Definition fails_clean {A} (c : Tables) (Q : res A -> Session -> Prop) : Prop := forall e s, committed s = c -> Q (Raise e) s.

Section Steps.
Context {A B : Type} (c : Tables) (Q : res B -> Session -> Prop) (HQ : fails_clean c Q).

Lemma wp_statement_bind (k : unit -> ST Session B) s :
  committed s = c ->
  (forall s', committed s' = committed s -> tables s' = tables s -> new_ids s' = new_ids s -> wp (k tt) Q s') ->
  wp (statement ≫= k) Q s.
Proof.
  intros Hc Hk. apply wp_bind. unfold wp, statement. destruct (statement_faults s) as [|[] l]; cbn.
  - by apply Hk.
  - by apply HQ.
  - by apply Hk.
Qed.

Lemma wp_select_bind (f : Tables -> A) (k : A -> ST Session B) s :
  committed s = c ->
  (forall s', committed s' = committed s -> tables s' = tables s -> new_ids s' = new_ids s -> wp (k (f (tables s))) Q s') ->
  wp (select f ≫= k) Q s.
Proof.
  intros Hc Hk. apply wp_bind, wp_bind. unfold wp, statement. destruct (statement_faults s) as [|[] l]; cbn.
  - by apply Hk.
  - by apply HQ.
  - by apply Hk.
Qed.

Lemma wp_lift_bind (r : res A) (k : A -> ST Session B) s :
  committed s = c -> (forall a, r = Ok a -> wp (k a) Q s) -> wp (lift r ≫= k) Q s.
Proof. intros Hc Hk. apply wp_bind, wp_lift. destruct r; [by apply Hk|by apply HQ]. Qed.
End Steps.

(* ------------------------------------------------------------------ *)
(** ** Validation *)

Lemma distinct_errors_nil seen l : (forall e, e ∈ seen -> False) -> distinct_errors seen l = [] -> l = [].
Proof.
  intros Hs. destruct l as [|e l]; [done|]. cbn. unfold mem. rewrite bool_decide_false; [done|]. intros He. eapply Hs. exact He.
Qed.

(** Injectivity without reducing what is returned. *)
Lemma Ok_inj {A} (x y : A) : Ok x = Ok y -> x = y.
Proof. congruence. Qed.

Lemma if_nil {A} (b : bool) (x : A) : (if b then [x] else []) = [] <-> b = false.
Proof. by destruct b. Qed.
Lemma if_not_nil {A} (b : bool) (x : A) : (if b then [] else [x]) = [] <-> b = true.
Proof. by destruct b. Qed.

Section Validation.
Context {RT : PyRuntime} {PC : PyCase} {PD : Pydantic}.

(** A candidate without errors. *)
Record accepted (rule_id : option Z) (f : Fields) (peers : list PortForward) (ctx : Context) (listener target : Address) : Prop := {
  acc_request : exists g, PortForwardCreate f true = Ok g;
  acc_listener : unicast_address (pf_listener_address f) (pf_ip_family f) = Some listener;
  acc_target : unicast_address (pf_target_address f) (pf_ip_family f) = Some target;
  acc_listener_text : address_text listener = pf_listener_address f;
  acc_target_text : address_text target = pf_target_address f;
  acc_source : exists networks, source_networks (pf_source f) (pf_ip_family f) (ctx_groups ctx) = Ok networks;
  acc_assigned : listener_assigned f listener (ctx_targets ctx) = Ok true;
  acc_interfaces role ip_cidr ipv6_cidr : (role, (ip_cidr, ipv6_cidr)) ∈ ctx_interfaces ctx ->
    assigned_errors (pf_ip_family f) listener target role ip_cidr = [] /\ assigned_errors (pf_ip_family f) listener target role ipv6_cidr = [];
  acc_claims c : c ∈ ctx_claims ctx -> claim_collides f (pf_listener_address f) c = false;
  acc_peers peer : peer ∈ peers -> (pf_id peer = rule_id -> rule_id = None) -> pf_enabled (pf_fields peer) = true -> pf_enabled f = true ->
    forwards_overlap f (pf_listener_address f) (pf_fields peer) = false;
  acc_total : pf_enabled f = true ->
    mapped_ports f + sum (map (fun peer => mapped_ports (pf_fields peer))
      (List.filter (fun peer => pf_enabled (pf_fields peer) && (bool_decide (rule_id = None) || negb (bool_decide (pf_id peer = rule_id)))) peers))
    <= MAX_MAPPED_PORTS
}.

Lemma validated_addresses_Some f groups listener target canonical :
  validated_addresses f groups = Some (listener, target, canonical) ->
  (exists g, PortForwardCreate f true = Ok g) /\
  unicast_address (pf_listener_address f) (pf_ip_family f) = Some listener /\
  unicast_address (pf_target_address f) (pf_ip_family f) = Some target /\
  (exists networks, source_networks (pf_source f) (pf_ip_family f) groups = Ok networks) /\
  (canonical = true -> address_text listener = pf_listener_address f /\ address_text target = pf_target_address f).
Proof.
  unfold validated_addresses. destruct (PortForwardCreate f true) as [g|]; [|done].
  destruct (unicast_address (pf_listener_address f) (pf_ip_family f)) as [a|]; [|done]. cbn.
  destruct (unicast_address (pf_target_address f) (pf_ip_family f)) as [b|]; [|done]. cbn.
  destruct (source_networks (pf_source f) (pf_ip_family f) groups) as [l|]; [|done]. intros [= <- <- <-].
  split_and!; eauto. intros [E1 E2]%andb_true_iff. by apply bool_decide_eq_true in E1, E2.
Qed.

Lemma validate_accepted rule peers ctx :
  validate_port_forward rule peers ctx true = Ok [] -> exists listener target, accepted (pf_id rule) (pf_fields rule) peers ctx listener target.
Proof.
  unfold validate_port_forward. destruct (validated_addresses (pf_fields rule) (ctx_groups ctx)) as [[[a b] canonical]|] eqn:E; [|done].
  apply validated_addresses_Some in E as (H1&H2&H3&H4&H5). intros H6. apply bind_Ok in H6 as (assigned&Ha&[= H6]).
  apply distinct_errors_nil in H6; [|intros e He; by apply elem_of_nil in He].
  rewrite !app_nil, !if_nil, !if_not_nil in H6. destruct H6 as (->&->&Hi&Hc&Hp&Ht). destruct (H5 eq_refl) as [Ea Eb]. rewrite Ea in Hc, Hp.
  exists a, b. split; try done.
  - intros role c4 c6 Hin. rewrite concat_map_nil in Hi. specialize (Hi _ Hin). cbn in Hi. by apply app_nil in Hi.
  - intros c Hin. destruct (claim_collides _ _ c) eqn:E; [|done]. enough (existsb (claim_collides (pf_fields rule) (pf_listener_address (pf_fields rule))) (ctx_claims ctx) = true) by congruence.
    apply existsb_exists. exists c. split; [by apply list_elem_of_In|done].
  - intros peer Hin Hid H7 H8. destruct (forwards_overlap _ _ _) eqn:E; [|done].
    match type of Hp with existsb ?q ?l = false => enough (existsb q l = true) by congruence end.
    apply existsb_exists. exists peer. split; [by apply list_elem_of_In|]. rewrite H7, H8, E. unfold same_id. cbn.
    destruct (decide (pf_id peer = pf_id rule)) as [E'|E'].
    + rewrite (Hid E'). rewrite (bool_decide_false (is_Some None)) by (intros [? ?]; done). by rewrite andb_false_r.
    + by rewrite bool_decide_false.
  - intros H7. rewrite H7 in Ht. cbn in Ht. apply Z.ltb_ge in Ht. exact Ht.
Qed.

(* ------------------------------------------------------------------ *)
(** ** Saving *)

(** The table with a row added or replaced. *)
Definition put_row (rule_id : option Z) (row : PortForward) (l : list PortForward) : list PortForward :=
  match rule_id with
  | None => l ++ [row]
  | Some i => map (fun r => if has_id i r then row else r) l
  end.

(** The row that a table admits. *)
Definition row_fits (rule_id : option Z) (row : PortForward) (l : list PortForward) : Prop :=
  match rule_id with
  | None => zlen l < MAX_PORT_FORWARDS /\ forall r, r ∈ l -> pf_id r <> pf_id row /\ pf_name (pf_fields r) <> pf_name (pf_fields row)
  | Some i => pf_id row = Some i /\ (exists r, r ∈ l /\ pf_id r = Some i) /\
              forall r, r ∈ l -> pf_id r <> Some i -> pf_name (pf_fields r) <> pf_name (pf_fields row)
  end.

Definition save_action (rule_id : option Z) : pystr :=
  match rule_id with None => str "create_port_forward" | Some _ => str "update_port_forward" end.

(** What a save that returns [row] has done to the tables [t]. *)
Definition saves (payload : Fields) (actor : pystr) (rule_id : option Z) (t : Tables) (row : PortForward) (t' : Tables) : Prop :=
  exists i listener target ctx,
    pf_id row = Some i /\ 1 <= i <= 0xFFFFFF /\
    pf_fields row = set_addresses (pf_listener_address (pf_fields row)) (pf_target_address (pf_fields row)) payload /\
    ip_address_str (pf_listener_address payload) = Ok (pf_listener_address (pf_fields row)) /\
    ip_address_str (pf_target_address payload) = Ok (pf_target_address (pf_fields row)) /\
    pf_restore_review_required row = false /\
    validation_context t = Ok ctx /\
    accepted rule_id (pf_fields row) (forwards t) ctx listener target /\
    row_fits rule_id row (forwards t) /\
    t' = add_audit (mkAuditEvent actor (save_action rule_id) (dump_int i)) (set_forwards (put_row rule_id row (forwards t)) t).

Lemma has_id_true i r : has_id i r = true <-> pf_id r = Some i.
Proof. apply bool_decide_eq_true. Qed.
Lemma has_id_false i r : has_id i r = false <-> pf_id r <> Some i.
Proof. apply bool_decide_eq_false. Qed.

Lemma existsb_false {A} (q : A -> bool) l : existsb q l = false <-> forall x, x ∈ l -> q x = false.
Proof.
  split.
  - intros E x Hx. destruct (q x) eqn:Eq; [|done]. rewrite <- E. symmetry. apply existsb_exists. exists x. by rewrite <- list_elem_of_In.
  - intros Hall. destruct (existsb q l) eqn:E; [|done]. apply existsb_exists in E as (x&Hx%list_elem_of_In&Eq). by rewrite Hall in Eq.
Qed.

Lemma insert_forward_wp (Q : res Z -> Session -> Prop) f s :
  fails_clean (committed s) Q ->
  (forall i s', committed s' = committed s ->
     (forall r, r ∈ forwards (tables s) -> pf_id r <> Some i /\ pf_name (pf_fields r) <> pf_name f) ->
     tables s' = set_forwards (forwards (tables s) ++ [mkPortForward (Some i) f false]) (tables s) -> Q (Ok i) s') ->
  wp (insert_forward f) Q s.
Proof.
  intros HQ HOk. unfold insert_forward. eapply wp_statement_bind; [exact HQ|done|]. intros s1 Hc Ht Hn.
  apply wp_bind. unfold new_id, wp at 1. cbn [fst snd]. apply wp_bind, wp_gets. cbn [tables].
  eapply wp_lift_bind; [exact HQ|exact Hc|]. intros u E. apply raise_if_Ok in E. rewrite existsb_false, Ht in E.
  apply wp_bind, wp_modify, wp_ret, HOk; [exact Hc| |cbn; by rewrite Ht].
  intros r Hr. specialize (E r Hr). apply orb_false_iff in E as [E1 E2]. apply has_id_false in E1. by apply bool_decide_eq_false in E2.
Qed.

Lemma update_forward_wp (Q : res Z -> Session -> Prop) i f s :
  fails_clean (committed s) Q ->
  (forall s', committed s' = committed s ->
     (forall r, r ∈ forwards (tables s) -> pf_id r <> Some i -> pf_name (pf_fields r) <> pf_name f) ->
     tables s' = set_forwards (map (fun r => if has_id i r then mkPortForward (Some i) f false else r) (forwards (tables s))) (tables s) ->
     Q (Ok i) s') ->
  wp (update_forward i f) Q s.
Proof.
  intros HQ HOk. unfold update_forward. eapply wp_statement_bind; [exact HQ|done|]. intros s1 Hc Ht Hn.
  apply wp_bind, wp_gets. eapply wp_lift_bind; [exact HQ|exact Hc|]. intros u E. apply raise_if_Ok in E. rewrite existsb_false, Ht in E.
  apply wp_bind, wp_modify, wp_ret, HOk; [exact Hc| |cbn; by rewrite Ht].
  intros r Hr Hi. specialize (E r Hr). apply has_id_false in Hi. rewrite Hi in E. by apply bool_decide_eq_false in E.
Qed.

Lemma current_wp (rule_id : option Z) s :
  wp (match rule_id with Some i => select (find_forward i) | None => mret None end)
     (fun r s' => match r with
                  | Ok o => committed s' = committed s /\ tables s' = tables s /\ o = (i ← rule_id; find_forward i (tables s))
                  | Raise _ => committed s' = committed s
                  end) s.
Proof.
  destruct rule_id as [i|]; [|done].
  unfold select. eapply wp_statement_bind; [by intros e w|done|]. intros s2 Hc2 Ht2 _. apply wp_gets. by rewrite Hc2, Ht2.
Qed.

Lemma put_wp (rule_id : option Z) values s :
  (forall i, rule_id = Some i -> find_forward i (tables s) <> None) -> (rule_id = None -> zlen (forwards (tables s)) < MAX_PORT_FORWARDS) ->
  wp (match rule_id with None => insert_forward values | Some i => update_forward i values end)
     (fun r s' => match r with
                  | Ok i => committed s' = committed s /\ row_fits rule_id (mkPortForward (Some i) values false) (forwards (tables s)) /\
                            tables s' = set_forwards (put_row rule_id (mkPortForward (Some i) values false) (forwards (tables s))) (tables s)
                  | Raise _ => committed s' = committed s
                  end) s.
Proof.
  intros Hcur Hlen. destruct rule_id as [i|].
  - apply update_forward_wp; [by intros e w Hw; rewrite Hw|]. intros s4 Hc4 Hn Ht4. split; [done|]. split; [|exact Ht4].
    split; [done|]. split; [|exact Hn]. specialize (Hcur i eq_refl). unfold find_forward in Hcur.
    destruct (List.find (has_id i) (forwards (tables s))) as [r|] eqn:Ef; [|done].
    apply List.find_some in Ef as [Hin Hid]. exists r. rewrite list_elem_of_In, <- has_id_true. done.
  - apply insert_forward_wp; [by intros e w Hw; rewrite Hw|]. intros i s4 Hc4 Hn Ht4. split; [done|]. split; [|exact Ht4]. split; [by apply Hlen|exact Hn].
Qed.

Lemma save_body_spec payload actor rule_id s :
  wp (save_body payload actor rule_id)
     (fun r s' => match r with
                  | Ok row => saves payload actor rule_id (tables s) row (committed s') /\ tables s' = committed s'
                  | Raise _ => committed s' = committed s
                  end) s.
Proof.
  set (Q := fun (r : res PortForward) s' => _). assert (fails_clean (committed s) Q) as HQ by (by intros e s').
  unfold save_body. eapply wp_select_bind; [exact HQ|done|]. intros s1 Hc1 Ht1 _.
  apply wp_bind. eapply wp_mono; [apply current_wp|]. intros [o|e] s2; [|intros Hc; apply HQ; congruence]. intros (Hc2&Ht2&->).
  rewrite Ht1 in Ht2. rewrite Hc1 in Hc2. rewrite Ht1.
  eapply wp_lift_bind; [exact HQ|exact Hc2|]. intros u1 E1. apply raise_if_Ok in E1.
  eapply wp_lift_bind; [exact HQ|exact Hc2|]. intros u2 E2. apply raise_if_Ok in E2.
  eapply wp_lift_bind; [exact HQ|exact Hc2|]. intros lt Elt. eapply wp_lift_bind; [exact HQ|exact Hc2|]. intros tt' Ett.
  eapply wp_select_bind; [exact HQ|exact Hc2|]. intros s3 Hc3 Ht3 _. rewrite Ht2 in Ht3 |- *. rewrite Hc2 in Hc3.
  eapply wp_lift_bind; [exact HQ|exact Hc3|]. intros ctx Ectx. eapply wp_lift_bind; [exact HQ|exact Hc3|]. intros errors Eerr.
  eapply wp_lift_bind; [exact HQ|exact Hc3|]. intros u3 E3. apply raise_if_Ok, negb_false_iff, bool_decide_eq_true in E3. subst errors.
  apply validate_accepted in Eerr as (a&b&Hacc). cbn [pf_id pf_fields] in Hacc.
  apply wp_bind. eapply wp_mono; [apply put_wp|].
  { intros i -> Hf. cbn in E1. rewrite Ht3 in Hf. by rewrite Hf in E1. }
  { intros ->. cbn in E2. rewrite Ht3. by apply Z.leb_gt in E2. }
  intros [i|e] s4; [|intros Hc; apply HQ; congruence]. rewrite Hc3, Ht3. intros (Hc4&Hfit&Ht4).
  eapply wp_lift_bind; [exact HQ|exact Hc4|]. intros u4 E4. apply raise_if_Ok, negb_false_iff in E4. unfold in_range in E4.
  apply wp_bind. unfold insert_audit. eapply wp_statement_bind with (c := committed s); [by intros e w Hw; apply HQ|exact Hc4|].
  intros s5 Hc5 Ht5 _. apply wp_modify. apply wp_bind. unfold commit.
  eapply wp_statement_bind with (c := committed s); [by intros e w Hw; apply HQ|cbn; congruence|].
  intros s6 Hc6 Ht6 _. apply wp_modify, wp_ret. cbn in Ht6. unfold Q. cbn [committed tables]. split; [|done].
  exists i, a, b, ctx. cbn [pf_id pf_fields pf_restore_review_required]. split_and!; try done; try lia. rewrite Ht6, Ht5, Ht4. by destruct rule_id.
Qed.

(** A call that raises leaves the committed tables as they were, and the session without
    changes of its own. *)
Definition clean (c : Tables) (e : exn) (s : Session) : Prop := committed s = c /\ (is_Exception e = true -> tables s = c).

Lemma wp_lock {A} (Q : res A -> Session -> Prop) (k : unit -> ST Session A) s :
  tables s = committed s -> (forall e s', clean (committed s) e s' -> Q (Raise e) s') ->
  (forall s', committed s' = committed s -> tables s' = committed s -> wp (k tt) Q s') ->
  wp (acquire_network_objects_write_lock ≫= k) Q s.
Proof.
  intros Hs HQ Hk. apply wp_bind. unfold wp at 1, acquire_network_objects_write_lock, statement.
  destruct (statement_faults s) as [|[] l]; cbn; [by apply Hk|by apply HQ|by apply Hk].
Qed.

(** [except Exception: db.rollback(); raise]. *)
Lemma wp_rolled_back {A} (Q : res A -> Session -> Prop) (body : ST Session A) (g : exn -> exn) c s :
  (forall e s', clean c e s' -> Q (Raise e) s') ->
  wp body (fun r s' => match r with Ok a => Q (Ok a) s' | Raise _ => committed s' = c end) s ->
  wp (catch is_Exception body (fun exc => _ ← rollback; lift (Raise (g exc)))) Q s.
Proof.
  intros HQ Hb. apply wp_catch. eapply wp_mono; [exact Hb|]. intros [a|e] s' Hs'; [done|].
  destruct (is_Exception e) eqn:E; [|apply HQ; split; [done|by rewrite E]].
  apply wp_bind, wp_modify, wp_lift, HQ. by split.
Qed.

(** [save_port_forward]. *)
Lemma save_spec payload actor rule_id s :
  tables s = committed s ->
  wp (save_port_forward payload actor rule_id)
     (fun r s' => match r with
                  | Ok row => saves payload actor rule_id (committed s) row (committed s') /\ tables s' = committed s'
                  | Raise e => clean (committed s) e s'
                  end) s.
Proof.
  intros Hs. unfold save_port_forward. apply wp_lock; [done|done|]. intros s1 Hc1 Ht1. rewrite <- Ht1.
  apply (wp_rolled_back _ _ (fun exc => if is_IntegrityError exc then _ else exc) (tables s1)); [done|].
  eapply wp_mono; [apply save_body_spec|]. cbn. intros [row|e] w; [done|]. intros Hw. congruence.
Qed.

(** [delete_port_forward]. *)
Definition deletes (rule_id : Z) (actor : pystr) (t t' : Tables) : Prop :=
  (exists r, r ∈ forwards t /\ pf_id r = Some rule_id) /\
  t' = add_audit (mkAuditEvent actor (str "delete_port_forward") (dump_int rule_id))
         (set_forwards (List.filter (fun r => negb (has_id rule_id r)) (forwards t)) t).

Lemma delete_spec rule_id actor s :
  tables s = committed s ->
  wp (delete_port_forward rule_id actor)
     (fun r s' => match r with
                  | Ok _ => deletes rule_id actor (committed s) (committed s') /\ tables s' = committed s'
                  | Raise e => clean (committed s) e s'
                  end) s.
Proof.
  intros Hs. unfold delete_port_forward. apply wp_lock; [done|done|]. intros s1 Hc1 Ht1. rewrite <- Ht1.
  apply (wp_rolled_back _ _ (fun exc => exc) (tables s1)); [done|]. set (Q := fun (r : res unit) s' => _).
  assert (fails_clean (tables s1) Q) as HQ by (by intros e s').
  eapply wp_select_bind; [exact HQ|congruence|]. intros s2 Hc2 Ht2 _. eapply wp_lift_bind; [exact HQ|congruence|]. intros u1 E1.
  apply raise_if_Ok, bool_decide_eq_false in E1.
  eapply wp_statement_bind; [exact HQ|congruence|]. intros s3 Hc3 Ht3 _. apply wp_bind, wp_modify.
  apply wp_bind. unfold insert_audit. eapply wp_statement_bind with (c := tables s1); [by intros e w Hw; apply HQ|cbn; congruence|].
  intros s4 Hc4 Ht4 _. apply wp_modify. unfold commit. eapply wp_statement_bind with (c := tables s1); [by intros e w Hw; apply HQ|cbn in *; congruence|].
  intros s5 Hc5 Ht5 _. apply wp_modify. unfold Q. cbn in *. split; [|done]. split.
  - unfold find_forward in E1. destruct (List.find (has_id rule_id) (forwards (tables s1))) as [r|] eqn:Ef; [|done].
    apply List.find_some in Ef as [Hin Hid]. exists r. rewrite list_elem_of_In, <- has_id_true. done.
  - by rewrite Ht5, Ht4, Ht3, Ht2.
Qed.

(** [set_port_forward_enabled]. *)
Lemma enable_spec rule_id enabled actor s :
  tables s = committed s ->
  wp (set_port_forward_enabled rule_id enabled actor)
     (fun r s' => match r with
                  | Ok row => (exists old payload, old ∈ forwards (committed s) /\ pf_id old = Some rule_id /\
                                 PortForwardCreate (set_enabled enabled (pf_fields old)) true = Ok payload /\
                                 saves payload actor (Some rule_id) (committed s) row (committed s')) /\ tables s' = committed s'
                  | Raise e => clean (committed s) e s'
                  end) s.
Proof.
  intros Hs. unfold set_port_forward_enabled. apply wp_lock; [done|done|]. intros s1 Hc1 Ht1. rewrite <- Ht1.
  eapply wp_bind, wp_bind. unfold wp at 1, statement. set (Q := fun (r : res PortForward) s' => _).
  assert (forall s2, committed s2 = tables s1 -> tables s2 = tables s1 ->
    wp (match find_forward rule_id (tables s1) with
        | None => _ ← rollback; lift (Raise LookupError)
        | Some row => catch is_Exception (payload ← lift (PortForwardCreate (set_enabled enabled (pf_fields row)) true);
                        save_port_forward payload actor (Some rule_id)) (fun exc => _ ← rollback; lift (Raise exc))
        end) Q s2) as Hk.
  { intros s2 Hc2 Ht2. unfold find_forward. destruct (List.find (has_id rule_id) (forwards (tables s1))) as [old|] eqn:Ef; [|by split].
    apply List.find_some in Ef as [Hin Hid]. apply list_elem_of_In in Hin. apply has_id_true in Hid.
    apply (wp_rolled_back _ _ (fun exc => exc) (tables s1)); [done|].
    apply wp_bind, wp_lift. destruct (PortForwardCreate _ true) as [payload|e] eqn:Ep; [|done].
    eapply wp_mono; [apply save_spec; congruence|]. rewrite Hc2. intros [row|e] w; [|by intros [? ?]].
    intros [Hsaves Hw]. split; [|done]. eauto 10. }
  destruct (statement_faults s1) as [|[] l]; cbn; [apply Hk; congruence| |apply Hk; cbn; congruence]. split; cbn; congruence.
Qed.
End Validation.
