(* ===== verification/PortForwardingProps.v ===== *)
(** Port forwards: the invariant of the table along all runs, what an accepted forward may
    translate, and when a forward is shown as applied. *)

From S2P Require Import Prelude Utf8 PyText Json Sha256 IpAddress Networks IpRoundtrip Trace KeyProviders SourceGroups Firewall FirewallRouting RoutingRules FirewallServices TrafficPublishing TrafficPublishingProps PortForwarding PortForwardingSteps.
Open Scope Z_scope.

(* ------------------------------------------------------------------ *)
(** ** The table *)

(** The ports that enabled rows map. *)
Definition enabled_ports (r : PortForward) : Z := if pf_enabled (pf_fields r) then mapped_ports (pf_fields r) else 0.
Definition mapped_total (l : list PortForward) : Z := sum (map enabled_ports l).

Definition ports_ok (f : Fields) : Prop :=
  1 <= pf_external_port_start f <= pf_external_port_end f /\ pf_external_port_end f <= 65535 /\
  1 <= pf_target_port_start f <= pf_target_port_end f /\ pf_target_port_end f <= 65535 /\
  pf_external_port_end f - pf_external_port_start f = pf_target_port_end f - pf_target_port_start f.

Definition row_ok (r : PortForward) : Prop := (exists i, pf_id r = Some i /\ 1 <= i <= 0xFFFFFF) /\ ports_ok (pf_fields r).

Definition clash (r r' : PortForward) : bool :=
  pf_enabled (pf_fields r) && pf_enabled (pf_fields r') && forwards_overlap (pf_fields r) (pf_listener_address (pf_fields r)) (pf_fields r').

(** The invariant. *)
Record table_ok (l : list PortForward) : Prop := {
  ok_ids : NoDup (map pf_id l);
  ok_names : NoDup (map (fun r => pf_name (pf_fields r)) l);
  ok_count : zlen l <= MAX_PORT_FORWARDS;
  ok_rows r : r ∈ l -> row_ok r;
  ok_clash r r' : r ∈ l -> r' ∈ l -> pf_id r <> pf_id r' -> clash r r' = false;
  ok_total : mapped_total l <= MAX_MAPPED_PORTS
}.

Lemma overlaps_sym a b c d : overlaps a b c d = overlaps c d a b.
Proof. unfold overlaps. apply andb_comm. Qed.

Lemma clash_sym r r' : clash r r' = clash r' r.
Proof.
  unfold clash, forwards_overlap. rewrite (andb_comm (pf_enabled (pf_fields r))), overlaps_sym, Z.eqb_sym.
  rewrite (bool_decide_ext (pf_listener_address (pf_fields r') = _) (pf_listener_address (pf_fields r) = pf_listener_address (pf_fields r'))) by done.
  by rewrite (bool_decide_ext (pf_protocol (pf_fields r') = _) (pf_protocol (pf_fields r) = pf_protocol (pf_fields r'))).
Qed.

Lemma enabled_ports_nonneg r : row_ok r -> 0 <= enabled_ports r.
Proof. intros [_ H]. unfold enabled_ports, mapped_ports, ports_ok in *. destruct (pf_enabled _); lia. Qed.

Lemma sum_app l k : sum (l ++ k) = sum l + sum k.
Proof. induction l as [|x l IH]; cbn; [done|]. unfold sum in *. cbn. rewrite IH. lia. Qed.

Lemma total_filter q l : (forall r, r ∈ l -> row_ok r) -> mapped_total (List.filter q l) <= mapped_total l.
Proof.
  unfold mapped_total, sum. induction l as [|r l IH]; intros Hl; [done|].
  assert (0 <= enabled_ports r) by (apply enabled_ports_nonneg, Hl; by left).
  assert (forall r, r ∈ l -> row_ok r) as Hl' by (intros r' Hr'; apply Hl; by right). specialize (IH Hl'). cbn [List.filter]. destruct (q r); cbn [map foldr]; lia.
Qed.

(** The sum that the validator computes is the total of the other rows. *)
Lemma peers_total (q : PortForward -> bool) l :
  sum (map (fun r => mapped_ports (pf_fields r)) (List.filter (fun r => pf_enabled (pf_fields r) && q r) l)) = mapped_total (List.filter q l).
Proof.
  unfold mapped_total. induction l as [|r l IH]; [done|]. cbn [List.filter].
  destruct (pf_enabled (pf_fields r)) eqn:E, (q r) eqn:Eq; cbn [andb map]; unfold sum in *; cbn [foldr]; rewrite ?IH; unfold enabled_ports; rewrite ?E; lia.
Qed.

(** Replacing the row of an identifier. *)
Lemma total_put i row l :
  NoDup (map pf_id l) -> (exists r, r ∈ l /\ pf_id r = Some i) ->
  mapped_total (put_row (Some i) row l) = enabled_ports row + mapped_total (List.filter (fun r => negb (has_id i r)) l).
Proof.
  unfold mapped_total. cbn [put_row]. induction l as [|r l IH]; intros Hnd (r0&Hin&Hid); [by apply elem_of_nil in Hin|].
  cbn in Hnd. apply NoDup_cons in Hnd as [Hni Hnd]. cbn [map List.filter]. destruct (has_id i r) eqn:E; cbn [negb].
  - apply has_id_true in E. assert (forall r', r' ∈ l -> has_id i r' = false) as Hno.
    { intros r' Hr'. apply has_id_false. intros Hr. apply Hni. rewrite E, <- Hr. by apply list_elem_of_fmap_2. }
    assert (map (fun r => if has_id i r then row else r) l = l) as ->.
    { rewrite <- (map_id l) at 2. apply map_ext_in. intros x Hx%list_elem_of_In. by rewrite Hno. }
    assert (List.filter (fun r => negb (has_id i r)) l = l) as ->; [|done].
    clear -Hno. induction l as [|x l IH]; cbn; [done|]. rewrite Hno by (by left). cbn. f_equal. apply IH. intros r' Hr'. apply Hno. by right.
  - cbn [map]. unfold sum in *. cbn [foldr]. rewrite IH; [lia|done|]. apply elem_of_cons in Hin as [->|Hin]; [|eauto].
    apply has_id_true in Hid. congruence.
Qed.

Lemma NoDup_map_same {A B} (g : A -> B) l x y : NoDup (map g l) -> x ∈ l -> y ∈ l -> g x = g y -> x = y.
Proof.
  induction l as [|z l IH]; cbn; intros Hnd Hx Hy E; [by apply elem_of_nil in Hx|]. apply NoDup_cons in Hnd as [Hz Hnd].
  apply elem_of_cons in Hx as [Hx|Hx], Hy as [Hy|Hy]; try subst x; try subst y; try done.
  - exfalso. apply Hz. rewrite E. by apply list_elem_of_fmap_2.
  - exfalso. apply Hz. rewrite <- E. by apply list_elem_of_fmap_2.
  - by apply IH.
Qed.

Lemma NoDup_map_filter {A B} (g : A -> B) (q : A -> bool) l : NoDup (map g l) -> NoDup (map g (List.filter q l)).
Proof.
  induction l as [|x l IH]; cbn; [done|]. intros [Hx Hl]%NoDup_cons. destruct (q x); cbn; [|by apply IH].
  apply NoDup_cons. split; [|by apply IH]. intros (y&Ey&Hy)%list_elem_of_fmap. apply Hx. rewrite Ey. apply (list_elem_of_fmap_2 g). by apply filter_elem in Hy as [? _].
Qed.

(** Rows of a table after a row was put. *)
Lemma put_elem rule_id row l r : r ∈ put_row rule_id row l -> r = row \/ (r ∈ l /\ (forall i, rule_id = Some i -> pf_id r <> Some i)).
Proof.
  destruct rule_id as [i|]; cbn.
  - intros (x&->&Hx)%list_elem_of_fmap. destruct (has_id i x) eqn:E; [by left|]. right. split; [done|]. intros j [= <-]. by apply has_id_false.
  - rewrite elem_of_app, list_elem_of_singleton. intros [Hr|Hr]; [right; by split|by left].
Qed.

Lemma put_ids row l rule_id :
  row_fits rule_id row l -> map pf_id (put_row rule_id row l) = match rule_id with None => map pf_id l ++ [pf_id row] | Some _ => map pf_id l end.
Proof.
  destruct rule_id as [i|]; cbn; [|by rewrite map_app]. intros (Hid&_&_). rewrite map_map. apply map_ext. intros r.
  destruct (has_id i r) eqn:E; [|done]. apply has_id_true in E. congruence.
Qed.

Lemma put_names row l rule_id :
  NoDup (map pf_id l) -> row_fits rule_id row l -> NoDup (map (fun r => pf_name (pf_fields r)) l) ->
  NoDup (map (fun r => pf_name (pf_fields r)) (put_row rule_id row l)).
Proof.
  intros Hids Hfit Hnd. destruct rule_id as [i|]; cbn in *.
  - destruct Hfit as (Hid&_&Hn). induction l as [|r l IH]; cbn in *; [constructor|].
    apply NoDup_cons in Hids as [Hi Hids], Hnd as [Hr Hnd].
    assert (forall r0, r0 ∈ l -> pf_id r0 <> Some i -> pf_name (pf_fields r0) <> pf_name (pf_fields row)) as Hn'.
    { intros r0 Hr0. apply Hn. by right. }
    apply NoDup_cons. split; [|by apply IH]. intros (x&Ex&(y&->&Hy)%list_elem_of_fmap)%list_elem_of_fmap.
    destruct (has_id i r) eqn:E, (has_id i y) eqn:Ey.
    + apply has_id_true in E, Ey. apply Hi. rewrite E, <- Ey. by apply list_elem_of_fmap_2.
    + apply has_id_false in Ey. by apply (Hn' y Hy Ey).
    + apply has_id_false in E. apply (Hn r); [by left|done|done].
    + apply Hr. rewrite Ex. by apply (list_elem_of_fmap_2 (fun r => pf_name (pf_fields r))).
  - destruct Hfit as [_ Hn]. rewrite map_app. apply NoDup_app. split_and!; [done| |apply NoDup_singleton].
    intros x (r&->&Hr)%list_elem_of_fmap [Ex|Hx]%elem_of_cons; [|by apply elem_of_nil in Hx]. by apply (Hn r Hr).
Qed.

Section Runs.
Context {RT : PyRuntime} {PC : PyCase} {PD : Pydantic}.

(** What an accepted request says about its ports. *)
Lemma create_ports f acknowledged g : PortForwardCreate f acknowledged = Ok g -> ports_ok f.
Proof.
  unfold PortForwardCreate, validate_mapping. intros E. repeat (apply bind_Ok in E as (?&?&E)). res_inv.
  repeat match goal with H : negb _ = false |- _ => apply negb_false_iff in H end.
  repeat match goal with H : _ && _ = true |- _ => apply andb_true_iff in H as [? ?] end.
  repeat match goal with H : _ || _ = false |- _ => apply orb_false_iff in H as [? ?] end.
  unfold is_port, in_range, ports_ok in *. cbn in *.
  repeat match goal with H : negb _ = false |- _ => apply negb_false_iff in H end. lia.
Qed.

Lemma accepted_total rule_id f peers ctx listener target :
  accepted rule_id f peers ctx listener target -> pf_enabled f = true ->
  mapped_ports f + mapped_total (List.filter (fun r => match rule_id with None => true | Some i => negb (has_id i r) end) peers) <= MAX_MAPPED_PORTS.
Proof.
  intros Hacc He. pose proof (acc_total _ _ _ _ _ _ Hacc He) as Ht. rewrite peers_total in Ht.
  erewrite (filter_ext _ (fun r => bool_decide (rule_id = None) || negb (bool_decide (pf_id r = rule_id)))); [exact Ht|].
  intros r. unfold has_id. by destruct rule_id as [i|].
Qed.

(** Putting an accepted row preserves the invariant. *)
Lemma put_ok rule_id row l ctx listener target :
  table_ok l -> row_fits rule_id row l -> row_ok row -> accepted rule_id (pf_fields row) l ctx listener target -> table_ok (put_row rule_id row l).
Proof.
  intros Hl Hfit Hrow Hacc.
  assert (forall r, r ∈ l -> (forall i, rule_id = Some i -> pf_id r <> Some i) -> clash row r = false) as Hnew.
  { intros r Hr Hi. unfold clash. destruct (pf_enabled (pf_fields row)) eqn:E1; [|done]. destruct (pf_enabled (pf_fields r)) eqn:E2; [|done]. cbn.
    apply (acc_peers _ _ _ _ _ _ Hacc); try done. intros E. destruct rule_id as [i|]; [|done]. exfalso. by apply (Hi i). }
  split.
  - rewrite put_ids by done. destruct rule_id as [i|]; [apply Hl|]. apply NoDup_app. split_and!; [apply Hl| |apply NoDup_singleton].
    intros x (r&->&Hr)%list_elem_of_fmap [Ex|Hx]%elem_of_cons; [|by apply elem_of_nil in Hx]. exact (proj1 (proj2 Hfit r Hr) Ex).
  - apply put_names; [apply Hl|done|apply Hl].
  - destruct rule_id as [i|]; cbn; [unfold zlen; rewrite length_map; apply Hl|]. rewrite zlen_app. destruct Hfit as [Hlen _].
    change (zlen [row]) with 1. lia.
  - intros r [->|[Hr _]]%put_elem; [done|by apply (ok_rows l Hl)].
  - intros r r' Hr Hr' Hne. apply put_elem in Hr as [->|[Hr Hi]], Hr' as [->|[Hr' Hi']]; [done|by apply Hnew| |by apply (ok_clash l Hl)].
    rewrite clash_sym. by apply Hnew.
  - pose proof (accepted_total _ _ _ _ _ _ Hacc) as Ht. pose proof (ok_total l Hl) as Hold. unfold enabled_ports in *. destruct rule_id as [i|].
    + destruct Hfit as (_&Hex&_). rewrite total_put by (try apply Hl; done). unfold enabled_ports.
      pose proof (total_filter (fun r => negb (has_id i r)) l (ok_rows l Hl)). destruct (pf_enabled (pf_fields row)); [by apply Ht|lia].
    + unfold put_row, mapped_total. rewrite map_app, sum_app. cbn. unfold enabled_ports at 2. unfold mapped_total in Hold, Ht.
      assert (forall (k : list PortForward), List.filter (fun _ => true) k = k) as Hid.
      { intros k. induction k as [|x k IH]; cbn; [done|]. by rewrite IH. }
      rewrite Hid in Ht. destruct (pf_enabled (pf_fields row)); [specialize (Ht eq_refl)|]; lia.
Qed.

Lemma filter_ok q l : table_ok l -> table_ok (List.filter q l).
Proof.
  intros Hl. split.
  - apply NoDup_map_filter, Hl.
  - apply NoDup_map_filter, Hl.
  - pose proof (ok_count l Hl) as Hc. unfold zlen in *. pose proof (List.filter_length_le q l). lia.
  - intros r [Hr _]%filter_elem. by apply (ok_rows l Hl).
  - intros r r' [Hr _]%filter_elem [Hr' _]%filter_elem. by apply (ok_clash l Hl).
  - etransitivity; [apply total_filter, (ok_rows l Hl)|apply Hl].
Qed.

Lemma saves_ok payload actor rule_id t row t' :
  saves payload actor rule_id t row t' -> table_ok (forwards t) -> table_ok (forwards t').
Proof.
  intros (i&a&b&ctx&Hid&Hi&Hf&_&_&_&_&Hacc&Hfit&->) Ht. cbn. eapply put_ok; [done|done| |exact Hacc].
  split; [by exists i|]. destruct (acc_request _ _ _ _ _ _ Hacc) as [g Hg]. by apply create_ports in Hg.
Qed.

(** The calls on port forwards. *)
Inductive call : Type :=
| Save (request : Fields) (acknowledged : bool) (rule_id : option Z) (actor : pystr)
| Delete (rule_id : Z) (actor : pystr)
| Enable (rule_id : Z) (enabled : bool) (actor : pystr).
Definition perform (c : call) : ST Session unit :=
  match c with
  | Save request acknowledged rule_id actor =>
    payload ← lift (PortForwardCreate request acknowledged); _ ← save_port_forward payload actor rule_id; mret tt
  | Delete rule_id actor => delete_port_forward rule_id actor
  | Enable rule_id enabled actor => _ ← set_port_forward_enabled rule_id enabled actor; mret tt
  end.

(** Runs: sessions are opened on the committed tables, other components change the other
    tables, and calls are made, with any failures of statements. *)
Inductive run : Session -> Prop :=
| run_start s : forwards (committed s) = [] -> tables s = committed s -> run s
| run_session s s' : run s -> forwards (committed s') = forwards (committed s) -> tables s' = committed s' -> run s'
| run_call s c r s' : run s -> tables s = committed s -> perform c s = (r, s') -> run s'.

Lemma perform_ok c s r s' :
  tables s = committed s -> perform c s = (r, s') -> table_ok (forwards (committed s)) -> table_ok (forwards (committed s')).
Proof.
  intros Hs E Ht. apply (wp_run (perform c) (fun _ w => table_ok (forwards (committed w))) s r s'); [|exact E]. clear E.
  destruct c as [request acknowledged rule_id actor|rule_id actor|rule_id enabled actor]; cbn.
  - apply wp_bind, wp_lift. destruct (PortForwardCreate request acknowledged) as [payload|]; [|done].
    apply wp_bind. eapply wp_mono; [by apply save_spec|]. cbn. intros [row|e] w; [intros [Hw _]; by eapply saves_ok|intros [-> _]; done].
  - eapply wp_mono; [by apply delete_spec|]. cbn. intros [row|e] w; [|intros [-> _]; done]. intros [[_ ->] _]. cbn. by apply filter_ok.
  - apply wp_bind. eapply wp_mono; [by apply enable_spec|]. cbn. intros [row|e] w; [|intros [-> _]; done].
    intros [(old&payload&_&_&_&Hw) _]. by eapply saves_ok.
Qed.

Lemma run_table_ok s : run s -> table_ok (forwards (committed s)).
Proof.
  induction 1 as [s Hf _|s s' _ IH Hf _|s c r s' _ IH Hs E]; [|by rewrite Hf|by eapply perform_ok].
  rewrite Hf. split; cbn; try (intros ? Hr; by apply elem_of_nil in Hr); try apply NoDup_nil_2; try done.
  intros r r' Hr. by apply elem_of_nil in Hr.
Qed.

(* ------------------------------------------------------------------ *)
(** ** Packets *)

(** The forward translates packets to a port of an address. *)
Definition translates (r : PortForward) (family : Z) (address protocol : pystr) (port : Z) : Prop :=
  pf_enabled (pf_fields r) = true /\ pf_ip_family (pf_fields r) = family /\ pf_listener_address (pf_fields r) = address /\
  pf_protocol (pf_fields r) = protocol /\ pf_external_port_start (pf_fields r) <= port <= pf_external_port_end (pf_fields r).

(** The port that it goes to. *)
Definition translated_port (r : PortForward) (port : Z) : Z :=
  pf_target_port_start (pf_fields r) + (port - pf_external_port_start (pf_fields r)).

Lemma translates_clash r r' family address protocol port :
  translates r family address protocol port -> translates r' family address protocol port -> clash r r' = true.
Proof.
  intros (E1&E2&E3&E4&E5) (F1&F2&F3&F4&F5). unfold clash, forwards_overlap, overlaps. rewrite E1, F1, E2, F2, E3, F3, E4, F4.
  rewrite Z.eqb_refl, !bool_decide_true by done. cbn. apply andb_true_iff. lia.
Qed.

Lemma mark_sum i : 1 <= i <= 0xFFFFFF -> forward_mark i = 0xa7000000 + i.
Proof.
  intros Hi. unfold forward_mark. symmetry. apply Z.add_nocarry_lor, Z.bits_inj'. intros n Hn. rewrite Z.land_spec, Z.bits_0.
  change 0xa7000000 with (Z.shiftl 0xa7 24). rewrite Z.shiftl_spec by done.
  destruct (Z_lt_ge_dec n 24); [by rewrite Z.testbit_neg_r by lia|].
  rewrite <- (Z.mod_small i (2 ^ 24)) by lia. rewrite Z.mod_pow2_bits_high by lia. apply andb_false_r.
Qed.

(** C15.  Port forwards are unambiguous: along every run of saves, deletions and switches, with
    any failures of the database and whatever other components change, there are at most
    256 rows with distinct names, which map at most 65535 ports; a packet is translated by
    at most one of them, to a port of its target range at the offset of the external port;
    and the connection marks of the rows are distinct and in the range of Atlaso. *)
Theorem port_forwards_unambiguous s :
  run s ->
  zlen (forwards (committed s)) <= 256 /\
  NoDup (map (fun r => pf_name (pf_fields r)) (forwards (committed s))) /\
  mapped_total (forwards (committed s)) <= 65535 /\
  (forall r r' family address protocol port, r ∈ forwards (committed s) -> r' ∈ forwards (committed s) ->
     translates r family address protocol port -> translates r' family address protocol port -> r = r') /\
  (forall r family address protocol port, r ∈ forwards (committed s) -> translates r family address protocol port ->
     1 <= pf_target_port_start (pf_fields r) <= translated_port r port /\ translated_port r port <= pf_target_port_end (pf_fields r) <= 65535) /\
  (forall r r', r ∈ forwards (committed s) -> r' ∈ forwards (committed s) -> forward_mark (id_or_0 r) = forward_mark (id_or_0 r') -> r = r') /\
  (forall r, r ∈ forwards (committed s) -> 0xa7000000 < forward_mark (id_or_0 r) < 0xa8000000).
Proof.
  intros Hl%run_table_ok. split_and!; [apply Hl|apply Hl|apply Hl| | | |].
  - intros r r' family address protocol port Hr Hr' H1 H2. apply (NoDup_map_same pf_id (forwards (committed s))); [apply Hl|done|done|].
    destruct (decide (pf_id r = pf_id r')) as [|Hne]; [done|]. pose proof (ok_clash _ Hl r r' Hr Hr' Hne) as Hc.
    by rewrite (translates_clash _ _ _ _ _ _ H1 H2) in Hc.
  - intros r family address protocol port Hr (_&_&_&_&Hp). destruct (ok_rows _ Hl r Hr) as [_ Hok]. unfold ports_ok, translated_port in *. lia.
  - intros r r' Hr Hr' E. apply (NoDup_map_same pf_id (forwards (committed s))); [apply Hl|done|done|].
    destruct (ok_rows _ Hl r Hr) as [(i&Ei&Hi) _], (ok_rows _ Hl r' Hr') as [(j&Ej&Hj) _]. unfold id_or_0 in E. rewrite Ei, Ej in E |- *. cbn in E.
    rewrite !mark_sum in E by lia. f_equal. lia.
  - intros r Hr. destruct (ok_rows _ Hl r Hr) as [(i&Ei&Hi) _]. unfold id_or_0. rewrite Ei. cbn. rewrite mark_sum by lia. lia.
Qed.

(* ------------------------------------------------------------------ *)
(** ** Listeners and targets *)

Lemma assigned_lab t f a :
  listener_assigned f a (nat_targets (physical_interfaces t) (vlan_interfaces t)) = Ok true -> lab_address (physical_interfaces t) (vlan_interfaces t) (pf_ingress_interface f) (pf_ip_family f) a.
Proof.
  unfold listener_assigned. destruct (dict_get _ _) as [nt|] eqn:E; [|done]. apply dict_of_elem in E.
  apply list_elem_of_fmap in E as (nt'&[= -> ->]&Hin). intros Ha. apply (targets_lab _ _ nt' (pf_ip_family f) a Hin).
  destruct (if pf_ip_family f =? 4 then _ else _) as [|c cidr]; [done|]. destruct (ip_interface (c :: cidr)) as [[b n]|]; [|done].
  exists n. injection Ha as Ha. apply andb_true_iff in Ha as [E1%bool_decide_eq_true E2%Z.eqb_eq]. destruct a, b. cbn in *. by subst.
Qed.

Lemma ip_interface_version s a n : ip_interface s = Some (a, n) -> version n = Networks.family a.
Proof.
  assert (forall f, interface_at f s = Some (a, n) -> version n = Networks.family a) as Hf.
  { intros f. unfold interface_at. destruct (match split_on 47 s with [x] => _ | _ => _ end) as [[address mask]|]; [|done]. cbn.
    destruct (address_of f address) as [[v z]|]; [|done]. cbn. destruct (network_of false f s) as [m|] eqn:E; [|done]. cbn. intros [= <- <-].
    by apply network_of_wf in E as [_ ->]. }
  unfold ip_interface. destruct (interface_at V4 s) as [x|] eqn:E; [intros [= ->]; by apply (Hf V4)|apply (Hf V6)].
Qed.

(** The addresses of an interface are no targets, and its networks are none when it is a
    management interface. *)
Lemma assigned_errors_nil family listener target role cidr a n :
  assigned_errors family listener target role cidr = [] -> family_number (Networks.family target) = family ->
  ip_interface (default [] cidr) = Some (a, n) ->
  a <> target /\ (role = str "management" -> in_network target n = false).
Proof.
  unfold assigned_errors. intros E Hf Hi. pose proof (ip_interface_version _ _ _ Hi) as Hv. rewrite Hi in E.
  apply app_nil in E as [E1 E2]. rewrite if_nil in E1. split.
  - intros ->. by rewrite bool_decide_true, Z.eqb_refl in E1.
  - intros ->. destruct (in_network target n) eqn:Ein; [|done]. exfalso. assert (Networks.family target = version n) as Et.
    { unfold in_network in Ein. by apply andb_true_iff in Ein as [Ein%bool_decide_eq_true _]. }
    rewrite <- Hf, Et, Hv, Z.eqb_refl in E2. cbn [negb] in E2. apply app_nil in E2 as [E2 _]. by rewrite bool_decide_true in E2.
Qed.

Lemma unicast_family text family a : unicast_address text family = Some a -> family_number (Networks.family a) = family /\ is_special a = false.
Proof.
  unfold unicast_address. destruct (ip_address text) as [[b scope]|]; [|done]. cbn.
  destruct (_ || _) eqn:E; [done|]. intros [= <-]. apply orb_false_iff in E as [E E3]. apply orb_false_iff in E as [E%negb_false_iff%Z.eqb_eq _]. done.
Qed.

(** The ports of the appliance itself: its console, front doors, DNS, DHCP, and boot and
    storage protocols. *)
Definition reserved_ports (protocol : pystr) : list Z :=
  if bool_decide (protocol = str "tcp") then [22; 80; 443; 53; 111; 2049; 20048] else [53; 67; 68; 69; 111; 547].

Lemma standing_claim protocol port claims settings pxe :
  listener_claims_for_settings settings pxe = Ok claims -> protocol = str "tcp" \/ protocol = str "udp" -> port ∈ reserved_ports protocol ->
  exists owner scheme, port_claim STAR STAR protocol port owner scheme ∈ claims.
Proof.
  unfold listener_claims_for_settings. intros E Hp Hport. apply bind_Ok in E as (l1&_&E). apply bind_Ok in E as (l2&_&E). apply bind_Ok in E as (l3&_&E). apply Ok_inj in E. subst claims.
  unfold reserved_ports in Hport. destruct Hp as [->| ->].
  - rewrite bool_decide_true in Hport by done. rewrite !elem_of_cons in Hport.
    destruct Hport as [->|[->|[->|Hport]]]; [exists "exclusive"%string, ""%string; by left|exists "nginx"%string, "http"%string; right; by left|
      exists "nginx"%string, "https"%string; right; right; by left|].
    exists "exclusive"%string, ""%string. unfold standing_claims. rewrite !elem_of_app. do 3 right. left. right.
    apply list_elem_of_fmap. exists port. split; [done|]. rewrite !elem_of_cons. tauto.
  - rewrite bool_decide_false in Hport by done. exists "exclusive"%string, ""%string. unfold standing_claims. rewrite !elem_of_app. do 3 right. left. left.
    apply list_elem_of_fmap. by exists port.
Qed.

Lemma claims_free t claims f listener :
  listener_claims t = Ok claims -> (forall c, c ∈ claims -> claim_collides f listener c = false) -> pf_protocol f = str "tcp" \/ pf_protocol f = str "udp" ->
  forall port, pf_external_port_start f <= port <= pf_external_port_end f -> port ∉ reserved_ports (pf_protocol f).
Proof.
  unfold listener_claims. intros E Hall Hp port Hport Hin. apply bind_Ok in E as (l&El&[= <-]).
  destruct (standing_claim _ _ _ _ _ El Hp Hin) as (owner&scheme&Hc). specialize (Hall _ (proj2 (elem_of_app _ _ _) (or_introl Hc))).
  unfold claim_collides, overlaps in Hall. cbn in Hall. unfold mem in Hall.
  rewrite !(bool_decide_true (STAR ∈ _)), (bool_decide_true (pf_protocol f = pf_protocol f)) in Hall by (try done; by left).
  cbn in Hall. apply andb_false_iff in Hall. lia.
Qed.

Lemma create_literals f acknowledged g :
  PortForwardCreate f acknowledged = Ok g -> (pf_protocol f = str "tcp" \/ pf_protocol f = str "udp") /\ (pf_ip_family f = 4 \/ pf_ip_family f = 6).
Proof.
  unfold PortForwardCreate. intros E. do 8 (apply bind_Ok in E as (?&?&E)). res_inv.
  repeat match goal with H : negb (mem _ _) = false |- _ => apply negb_false_iff, bool_decide_eq_true in H; cbn [map] in H; rewrite !elem_of_cons, elem_of_nil in H end.
  tauto.
Qed.

(** C16.  An accepted port forward is safe: a save that raises has changed nothing, and one that
    returns has added or replaced one row and written one audit event.  The row listens on
    an ordinary address of an enabled lab interface or VLAN; its target is an ordinary
    address of the same family, no address of the appliance and in no management network;
    it takes no port of the appliance's own protocols, and none that a service or a proxy
    listens on at its address; and its source is a boundary of its family. *)
Theorem saved_forward_safe payload actor rule_id s r s' :
  tables s = committed s -> save_port_forward payload actor rule_id s = (r, s') ->
  match r with
  | Raise _ => committed s' = committed s
  | Ok row =>
    exists i listener target claims groups networks, pf_id row = Some i /\
    committed s' = add_audit (mkAuditEvent actor (save_action rule_id) (dump_int i))
                     (set_forwards (put_row rule_id row (forwards (committed s))) (committed s)) /\
    address_text listener = pf_listener_address (pf_fields row) /\ address_text target = pf_target_address (pf_fields row) /\
    family_number (Networks.family listener) = pf_ip_family (pf_fields row) /\ family_number (Networks.family target) = pf_ip_family (pf_fields row) /\
    is_special listener = false /\ is_special target = false /\
    lab_address (physical_interfaces (committed s)) (vlan_interfaces (committed s)) (pf_ingress_interface (pf_fields row)) (pf_ip_family (pf_fields row)) listener /\
    (forall interface cidr a n, interface ∈ physical_interfaces (committed s) -> cidr = ni_ip_cidr interface \/ cidr = ni_ipv6_cidr interface ->
       ip_interface (default [] cidr) = Some (a, n) ->
       a <> target /\ (ni_role interface = str "management" -> in_network target n = false)) /\
    (forall vlan cidr a n, vlan ∈ vlan_interfaces (committed s) -> cidr = nv_ip_cidr vlan \/ cidr = nv_ipv6_cidr vlan ->
       ip_interface (default [] cidr) = Some (a, n) ->
       a <> target /\ (nv_role vlan = str "management" -> in_network target n = false)) /\
    (forall port, pf_external_port_start (pf_fields row) <= port <= pf_external_port_end (pf_fields row) ->
       port ∉ reserved_ports (pf_protocol (pf_fields row))) /\
    listener_claims (committed s) = Ok claims /\
    (forall c, c ∈ claims -> claim_collides (pf_fields row) (pf_listener_address (pf_fields row)) c = false) /\
    source_groups_of (committed s) = Ok groups /\
    source_networks (pf_source (pf_fields row)) (pf_ip_family (pf_fields row)) groups = Ok networks
  end.
Proof.
  intros Hs E. pose proof (wp_run _ _ _ _ _ (save_spec payload actor rule_id s Hs) E) as Hr. destruct r as [row|e]; [|apply Hr].
  destruct Hr as [(i&listener&target&ctx&Hid&_&_&_&_&_&Hctx&Hacc&_&Hc) _]. unfold validation_context in Hctx.
  apply bind_Ok in Hctx as (groups&Hg&Hctx). apply bind_Ok in Hctx as (claims&Hcl&[= <-]).
  destruct (acc_source _ _ _ _ _ _ Hacc) as [networks Hn]. destruct (acc_request _ _ _ _ _ _ Hacc) as [g [Hp _]%create_literals].
  pose proof (unicast_family _ _ _ (acc_listener _ _ _ _ _ _ Hacc)) as [Hfl Hsl]. pose proof (unicast_family _ _ _ (acc_target _ _ _ _ _ _ Hacc)) as [Hft Hst].
  pose proof (acc_claims _ _ _ _ _ _ Hacc) as Hclaims. pose proof (acc_interfaces _ _ _ _ _ _ Hacc) as Hi. cbn in Hclaims, Hi, Hn.
  exists i, listener, target, claims, groups, networks. split_and!; try done; try apply Hacc.
  - apply assigned_lab. apply (acc_assigned _ _ _ _ _ _ Hacc).
  - intros interface cidr a n Hin Hcidr Ha. destruct (Hi (ni_role interface) (ni_ip_cidr interface) (ni_ipv6_cidr interface)) as [H4 H6].
    { apply elem_of_app. left. by apply (list_elem_of_fmap_2 (fun i => (ni_role i, (ni_ip_cidr i, ni_ipv6_cidr i)))). }
    destruct Hcidr as [->| ->]; [exact (assigned_errors_nil _ _ _ _ _ _ _ H4 Hft Ha)|exact (assigned_errors_nil _ _ _ _ _ _ _ H6 Hft Ha)].
  - intros vlan cidr a n Hin Hcidr Ha. destruct (Hi (nv_role vlan) (nv_ip_cidr vlan) (nv_ipv6_cidr vlan)) as [H4 H6].
    { apply elem_of_app. right. by apply (list_elem_of_fmap_2 (fun v => (nv_role v, (nv_ip_cidr v, nv_ipv6_cidr v)))). }
    destruct Hcidr as [->| ->]; [exact (assigned_errors_nil _ _ _ _ _ _ _ H4 Hft Ha)|exact (assigned_errors_nil _ _ _ _ _ _ _ H6 Hft Ha)].
  - by eapply claims_free.
Qed.
End Runs.

(* ------------------------------------------------------------------ *)
(** ** Instances *)

Definition demo_runtime : PyRuntime := {| unicode_casefold c := [c]; unicode_isalnum _ := false; float_eq _ _ := false; str_other _ := [] |}.
Definition demo_pydantic : Pydantic := {| pydantic_str s := Some (strip is_space s) |}.
Definition demo_case : PyCase := {| py_lower s := s |}.
#[local] Existing Instances demo_runtime demo_pydantic demo_case.

Definition demo_interface (name role cidr : string) : NatInterface :=
  mkNatInterface (str name) [] (str "up") (str "up") (str "access") (str role) (Some (str cidr)) None.
Definition demo_tables : Tables :=
  mkTables [] [] [demo_interface "eth0" "management" "192.168.0.1/24"; demo_interface "eth1" "access" "10.0.1.1/24"] [] None (Some (str "true")) []
    (mkPxe false [] [] 80) [].
Definition demo_session : Session := mkSession demo_tables demo_tables [1; 2] [].
Definition demo_fields (name target : string) (port : Z) : Fields :=
  mkFields (str name) [] 100 true 4 (str "eth1") (str "10.0.1.1") (str "tcp") port (port + 9) (str target) 5000 5009 (str "any") (str "preserve").
Definition demo_call (name target : string) (port : Z) : call := Save (demo_fields name target port) false None (str "admin").
Definition demo_first : Session := (perform (demo_call " web " "10.0.1.50" 8000) demo_session).2.
Definition demo_second : Session := (perform (demo_call "ssh" "10.0.1.51" 8010) demo_first).2.

Lemma forwards_demo_run : run demo_second.
Proof.
  eapply (run_call demo_first); [eapply (run_call demo_session); [by apply run_start|vm_compute; reflexivity|apply surjective_pairing]|vm_compute; reflexivity|apply surjective_pairing].
Qed.

(** [port_forwards_unambiguous] after two saves. *)
Lemma port_forwards_unambiguous_witness :
  map (fun r => (pf_id r, pf_name (pf_fields r))) (forwards (committed demo_second)) = [(Some 1, str "web"); (Some 2, str "ssh")] /\
  mapped_total (forwards (committed demo_second)) <= 65535 /\ zlen (forwards (committed demo_second)) <= 256.
Proof.
  destruct (port_forwards_unambiguous demo_second forwards_demo_run) as (H1&_&H2&_). split; [vm_compute; reflexivity|]. split; [exact H2|exact H1].
Defined.

(** [saved_forward_safe] at a forward, and at one whose target is in the management network. *)
Lemma saved_forward_safe_witness : exists row s', save_port_forward (demo_fields "web" "10.0.1.50" 8000) (str "admin") None demo_session = (Ok row, s') /\
  pf_id row = Some 1 /\ (forall port, pf_external_port_start (pf_fields row) <= port <= pf_external_port_end (pf_fields row) ->
       port ∉ reserved_ports (pf_protocol (pf_fields row))).
Proof.
  destruct (save_port_forward (demo_fields "web" "10.0.1.50" 8000) (str "admin") None demo_session) as [[row|e] s'] eqn:E; [|vm_compute in E; discriminate E].
  exists row, s'. split; [reflexivity|]. pose proof (saved_forward_safe _ _ _ demo_session _ _ eq_refl E) as Hs.
  destruct Hs as (i&_&_&_&_&_&_&_&_&_&_&_&_&_&_&_&_&Hports&_). split; [|exact Hports]. vm_compute in E. injection E as <- _. reflexivity.
Defined.

(** A target in the management network is refused. *)
Example management_target_refused :
  (save_port_forward (demo_fields "web" "192.168.0.7" 8000) (str "admin") None demo_session).1 = Raise (ValueError management_target).
Proof. vm_compute. reflexivity. Qed.
