(* ===== verification/PortForwardingAppliedProps.v ===== *)
(** The applied snapshot of traffic publishing: what it says about port forwards is found
    again, and a forward that is shown as applied is the one that was applied. *)

From S2P Require Import Prelude Utf8 PyText Json Sha256 IpAddress Networks Trace KeyProviders SourceGroups SourceGroupsProps Firewall FirewallRouting FirewallServices RoutingAppliedProps TrafficPublishing TrafficPublishingProps PortForwarding PortForwardingSteps PortForwardingProps.
Open Scope Z_scope.

(* ------------------------------------------------------------------ *)
(** ** Lines *)

Definition plain (s : pystr) : Prop := Forall (fun c => is_line_break c = false) s.

Lemma splitlines_line l rest : plain l -> splitlines (l ++ 10 :: rest) = l :: splitlines rest.
Proof.
  intros Hl. unfold splitlines. assert (forall current, splitlines_from current (l ++ 10 :: rest) = (rev current ++ l) :: splitlines_from [] rest) as Hg; [|apply Hg].
  induction Hl as [|c l Hc _ IH]; intros current; cbn [app splitlines_from].
  - rewrite app_nil_r. by destruct rest.
  - rewrite Hc, IH. cbn [rev]. by rewrite <- app_assoc.
Qed.

Lemma splitlines_lines lines rest : Forall plain lines -> splitlines (concat (map (fun l => l ++ [10]) lines) ++ rest) = lines ++ splitlines rest.
Proof.
  induction 1 as [|l lines Hl _ IH]; cbn; [done|]. rewrite <- !app_assoc. cbn. by rewrite splitlines_line, IH.
Qed.

Lemma join_lines lines : join_with [10] (lines ++ [[]]) = concat (map (fun l => l ++ [10]) lines).
Proof.
  induction lines as [|l lines IH]; [done|]. cbn [app]. rewrite join_with_cons by (by destruct lines). cbn [map concat]. by rewrite IH, app_assoc.
Qed.

Lemma lstrip_spaces p w s : Forall (fun c => p c = true) w -> lstrip p (w ++ s) = lstrip p s.
Proof. induction 1 as [|c w Hc _ IH]; cbn; [done|]. by rewrite Hc. Qed.

(** A line that opens no section. *)
Definition quiet (l : pystr) : Prop := plain l /\ has_prefix (str "[") (strip is_space l) = false.

Lemma strip_open p w c t : Forall (fun c => p c = true) w -> p c = false -> exists t', strip p (w ++ c :: t) = c :: t'.
Proof.
  intros Hw Hc. unfold strip. rewrite lstrip_spaces by done. cbn [lstrip]. rewrite Hc. cbn [rev]. rewrite lstrip_snoc by done. rewrite rev_app_distr. cbn. eauto.
Qed.

Lemma quiet_line w c t : plain (w ++ c :: t) -> Forall (fun c => is_space c = true) w -> is_space c = false -> c <> 91 -> quiet (w ++ c :: t).
Proof.
  intros Hp Hw Hc H91. split; [done|]. destruct (strip_open is_space w c t Hw Hc) as [t' ->]. unfold has_prefix. apply bool_decide_false. by intros [= E].
Qed.

Lemma plain_app a b : plain (a ++ b) <-> plain a /\ plain b.
Proof. apply Forall_app. Qed.

Lemma plain_join sep l : plain sep -> Forall plain l -> plain (join_with sep l).
Proof. apply join_with_Forall. Qed.

(** A text whose only line breaks are those of the terminal. *)
Definition soft (s : pystr) : Prop := Forall (fun c => is_line_break c = true -> c = 10 \/ c = 13) s.
Lemma plain_soft s : plain s -> soft s.
Proof. intros Hs. eapply Forall_impl; [exact Hs|]. cbn. intros c Hc. by rewrite Hc. Qed.

Lemma replaced_plain a b s : plain a -> plain b -> soft s -> plain (replace_char 13 b (replace_char 10 a s)).
Proof.
  intros Ha Hb Hs. unfold replace_char. assert (forall (g : Z -> pystr) l, (forall x, x ∈ l -> plain (g x)) -> plain (concat (map g l))) as Hcat.
  { intros g l Hg. induction l as [|x l IH]; cbn; [constructor|]. apply plain_app. split; [apply Hg; by left|]. apply IH. intros y Hy. apply Hg. by right. }
  apply Hcat. intros x Hx. apply concat_map_elem in Hx as (y&Hy&Hx). unfold soft in Hs. rewrite Forall_forall in Hs.
  destruct (Z.eqb_spec y 10) as [->|Hy10].
  - unfold plain in Ha. rewrite Forall_forall in Ha. specialize (Ha x Hx). destruct (Z.eqb_spec x 13) as [->|]; [done|]. by repeat constructor.
  - apply elem_of_cons in Hx as [->|Hx]; [|by apply elem_of_nil in Hx]. destruct (Z.eqb_spec y 13) as [->|Hy13]; [done|].
    constructor; [|constructor]. destruct (is_line_break y) eqn:E; [|done]. destruct (Hs y Hy E); lia.
Qed.

Lemma printable_plain s : Forall printable s -> plain s.
Proof. intros Hs. eapply Forall_impl; [exact Hs|]. unfold printable. cbn. intros c Hc. unfold is_line_break. lia. Qed.

(* ------------------------------------------------------------------ *)
(** ** JSON on one line *)

(** Decide a property of the characters of a literal. *)
Ltac text_decide := apply (bool_decide_unpack _); vm_compute; exact I.

(** Sorting the keys again changes nothing. *)
Lemma sort_dicts_twice v : dumpable v -> sort_dicts (sort_dicts v) = sort_dicts v /\ dumpable (sort_dicts v).
Proof.
  induction v as [|b|z|fl|s|l IH|items IH] using json_nested_ind; intros Hv; try done.
  - apply dumpable_list in Hv. rewrite Forall_forall in IH, Hv. cbn [sort_dicts]. rewrite map_map. split.
    + f_equal. apply map_ext_in. intros x Hx%list_elem_of_In. apply (IH x Hx (Hv x Hx)).
    + apply dumpable_list, Forall_forall. intros x (y&->&Hy)%list_elem_of_fmap. apply (IH y Hy (Hv y Hy)).
  - pose proof Hv as [Hnd Hd]%dumpable_dict. rewrite Forall_forall in IH, Hd. rewrite sort_dicts_dict by done.
    set (sorted := map (fun kv => (kv.1, sort_dicts kv.2)) (sorted_items items)).
    assert (NoDup sorted.*1) as Hs by (unfold sorted; rewrite map_keys, sorted_items_perm; done). split.
    + rewrite sort_dicts_dict by done. f_equal. unfold sorted. rewrite (sorted_items_map sort_dicts) by (by rewrite sorted_items_perm). rewrite map_map.
      rewrite (sorted_items_unique (sorted_items items) items) by (try apply sorted_items_perm; by rewrite sorted_items_perm).
      apply map_ext_in. intros kv Hkv%list_elem_of_In. rewrite sorted_items_perm in Hkv. cbn. f_equal. apply (IH kv Hkv (proj2 (Hd kv Hkv))).
    + apply dumpable_dict. split; [done|]. apply Forall_forall. intros kv Hkv. unfold sorted in Hkv. apply list_elem_of_fmap in Hkv as (x&->&Hx).
      rewrite sorted_items_perm in Hx. split; [apply (Hd x Hx)|apply (IH x Hx (proj2 (Hd x Hx)))].
Qed.

Lemma records_line records :
  let line := str "json=" ++ dumps_compact (JList records) in strip is_space line = line.
Proof.
  cbn zeta. unfold dumps_compact. cbn [dumps]. apply strip_ends; [done|]. rewrite !rev_app_distr. done.
Qed.

(* ------------------------------------------------------------------ *)
(** ** The configuration of source translation *)

(** The texts of targets and rules have no line breaks other than the ones that rendering
    replaces. *)
Definition target_plain (t : NatTarget) : Prop :=
  Forall plain [nt_kind t; nt_role t; nt_ip_cidr t; nt_ipv6_cidr t].

Lemma canonical_plain s : is_canonical_name s = true -> plain s.
Proof.
  unfold is_canonical_name. intros [_ E]%andb_true_iff. rewrite forallb_forall in E. apply Forall_forall. intros c Hc%list_elem_of_In.
  specialize (E c Hc). unfold is_canonical_char, is_digit, mem in E. unfold is_line_break.
  destruct (bool_decide (c ∈ [95; 46; 58; 45])) eqn:Ec; [|lia]. apply bool_decide_eq_true in Ec. rewrite !elem_of_cons, elem_of_nil in Ec. lia.
Qed.

Lemma split_plain c s : is_line_break c = false -> Forall plain (split_on c s) -> plain s.
Proof.
  intros Hc. induction s as [|x s IH]; intros Hs; [constructor|]. cbn in Hs. destruct (x =? c) eqn:E.
  - apply Z.eqb_eq in E as ->. constructor; [done|]. apply IH. by inversion Hs.
  - destruct (split_on c s) as [|y l].
    + apply Forall_cons in Hs as [Hs _]. apply Forall_cons in Hs as [Hx _]. constructor; [done|]. apply IH. constructor.
    + apply Forall_cons in Hs as [Hs Hl]. apply Forall_cons in Hs as [Hx Hy]. constructor; [done|]. apply IH. by constructor.
Qed.

Lemma mac_plain s : is_mac s = true -> plain s.
Proof.
  unfold is_mac. intros [_ E]%andb_true_iff. apply (split_plain 58); [done|]. apply Forall_forall. intros o Ho. rewrite forallb_forall in E.
  specialize (E o (proj1 (list_elem_of_In _ _) Ho)). apply andb_true_iff in E as [_ E]. rewrite forallb_forall in E. apply Forall_forall. intros c Hc%list_elem_of_In.
  specialize (E c Hc). apply bool_decide_eq_true in E as [d Hd]. unfold hex_value in Hd. unfold is_line_break. repeat case_match; try done; lia.
Qed.

Section Snapshot.
Context {RT : PyRuntime} {PC : PyCase} {laws : PyCaseLaws}.

Definition rule_soft (groups : list Group) (r : NatRule) : Prop :=
  Forall soft [nr_name r; nr_source r; nr_outbound_interface r; nr_translation_mode r; nr_translated_address r] /\
  forall resolved, resolved_nat_source (nr_source r) groups = Ok resolved -> soft resolved.

(** A key of the configuration. *)
Definition key_ok (k : pystr) : bool :=
  match k with c :: _ => negb (is_space c) && negb (c =? 91) && forallb (fun c => negb (is_line_break c)) k | [] => false end.

Lemma key_line w k v : Forall (fun c => is_space c = true /\ is_line_break c = false) w -> key_ok k = true -> plain v -> quiet (w ++ k ++ str "=" ++ v).
Proof.
  intros Hw Hk Hv. destruct k as [|c k]; [done|]. unfold key_ok in Hk. apply andb_true_iff in Hk as [Hk Hp]. apply andb_true_iff in Hk as [Hs H91].
  rewrite forallb_forall in Hp. change ((c :: k) ++ str "=" ++ v) with (c :: k ++ str "=" ++ v). apply quiet_line.
  - rewrite plain_app. split; [eapply Forall_impl; [exact Hw|]; cbn; tauto|]. change (c :: k ++ str "=" ++ v) with ((c :: k) ++ str "=" ++ v).
    rewrite !plain_app. split; [|split; [text_decide|done]]. apply Forall_forall. intros x Hx%list_elem_of_In. by apply negb_true_iff, Hp.
  - eapply Forall_impl; [exact Hw|]. cbn. tauto.
  - by apply negb_true_iff.
  - by apply Z.eqb_neq, negb_true_iff.
Qed.

Lemma spaces_ok : Forall (fun c => is_space c = true /\ is_line_break c = false) (str "  ").
Proof. text_decide. Qed.

Lemma key_lines (g : pystr -> pystr) (l : list (pystr * pystr)) :
  forallb key_ok l.*1 = true -> Forall (fun v => plain (g v)) l.*2 -> Forall quiet (map (fun kv => str "  " ++ kv.1 ++ str "=" ++ g kv.2) l).
Proof.
  induction l as [|[k v] l IH]; intros Hk Hv; [constructor|]. cbn in Hk. apply andb_true_iff in Hk as [Hk Hl].
  cbn [fmap list_fmap] in Hv. apply Forall_cons in Hv as [Hv Hvl]. constructor; [apply key_line; [apply spaces_ok|done|exact Hv]|by apply IH].
Qed.

Lemma target_lines_quiet t lines : target_plain t -> target_lines t = Ok lines -> Forall quiet lines.
Proof.
  intros Hp E. unfold target_lines in E. apply bind_Ok in E as (u1&E1&E). apply bind_Ok in E as (u2&E2&E). apply Ok_inj in E. subst lines.
  apply raise_if_Ok in E1, E2. apply orb_false_iff in E1 as [E1%negb_false_iff%canonical_plain E3%negb_false_iff%canonical_plain].
  assert (plain (nt_physical_mac t)) as Hmac.
  { apply andb_false_iff in E2 as [E2%negb_false_iff%bool_decide_eq_true|E2%negb_false_iff%mac_plain]; [rewrite E2; constructor|done]. }
  unfold target_plain in Hp. rewrite !Forall_cons in Hp. destruct Hp as (Hk&Hr&H4&H6&_). constructor.
  - apply (key_line [] (str "target") (nt_name t)); [constructor|vm_compute; reflexivity|done].
  - apply (key_lines (fun v => v)); [vm_compute; reflexivity|]. cbn [fmap list_fmap snd]. repeat (constructor; [first [assumption|text_decide]|]). constructor.
Qed.

Lemma rule_lines_quiet groups r lines : rule_soft groups r -> nat_rule_lines groups r = Ok lines -> Forall quiet lines.
Proof.
  intros [Hs Hres] E. unfold nat_rule_lines in E. destruct (inbound_names r) as [inbound|] eqn:Ei; [|done].
  apply Ok_inj in E. subst lines.
  rewrite !Forall_cons in Hs. destruct Hs as (Hn&Hsrc&Hout&Hmode&Htr&_). constructor.
  - apply (key_line [] (str "nat")); [constructor|vm_compute; reflexivity|]. by apply replaced_plain; [text_decide|text_decide|].
  - apply (key_lines (fun v => replace_char 13 [] (replace_char 10 (str ",") v))); [vm_compute; reflexivity|].
    assert (forall v, soft v -> plain (replace_char 13 [] (replace_char 10 (str ",") v))) as Hv.
    { intros v. apply replaced_plain; [text_decide|constructor]. }
    assert (forall b, soft (bool_text b)) as Hb by (intros []; apply plain_soft; text_decide).
    assert (forall z, soft (dump_int z)) as Hi by (intros z; apply plain_soft, printable_plain, dump_int_printable).
    cbn [fmap list_fmap snd]. repeat (constructor; [apply Hv|]); try apply Hb; try apply Hi; try done.
    + destruct (resolved_nat_source (nr_source r) groups) as [x|]; [by apply Hres|apply plain_soft; text_decide].
    + apply plain_soft, plain_join; [text_decide|]. unfold inbound_names in Ei. destruct (if truthy _ then _ else _) as [| | | | |l|]; try done.
      apply mapM_Some in Ei. apply Forall_forall. intros x Hx. apply list_elem_of_lookup in Hx as [k Hk].
      destruct (Forall2_lookup_r _ _ _ _ _ Ei Hk) as (j&_&Hj). destruct j; try done. destruct (is_canonical_name s) eqn:Ec; [|done]. injection Hj as <-. by apply canonical_plain.
    + destruct (nr_translation_mode r); [apply plain_soft; text_decide|done].
Qed.

(* ------------------------------------------------------------------ *)
(** ** The snapshot *)

Lemma snapshot_quiet re lines rest :
  Forall quiet lines -> snapshot_lines false false re (lines ++ rest) = snapshot_lines false false re rest.
Proof. induction 1 as [|l lines [_ Hl] _ IH]; [done|]. cbn [app snapshot_lines]. by rewrite Hl. Qed.

(** Lines of the first sections. *)
Lemma section_line l fs re lines :
  has_prefix (str "[") (strip is_space l) = true -> strip is_space l <> str "[port_forwards]" ->
  snapshot_lines false fs re (l :: lines) = snapshot_lines false (bool_decide (strip is_space l = str "[feature_settings]")) re lines.
Proof. intros E Hne. cbn [snapshot_lines]. by rewrite E, (bool_decide_false (strip is_space l = str "[port_forwards]")). Qed.

Lemma other_line l fs re lines :
  has_prefix (str "[") (strip is_space l) = false -> has_prefix (str "routing_enabled=") (strip is_space l) = false ->
  snapshot_lines false fs re (l :: lines) = snapshot_lines false fs re lines.
Proof. intros E1 E2. cbn [snapshot_lines]. by rewrite E1, E2, andb_false_r. Qed.

Lemma routing_line b re lines :
  snapshot_lines false true re ((str "routing_enabled=" ++ bool_text b) :: lines) = snapshot_lines false true b lines.
Proof.
  cbn [snapshot_lines]. replace (strip is_space (str "routing_enabled=" ++ bool_text b)) with (str "routing_enabled=" ++ bool_text b) by (by destruct b; vm_compute).
  replace (has_prefix (str "[") (str "routing_enabled=" ++ bool_text b)) with false by (by destruct b; vm_compute).
  replace (has_prefix (str "routing_enabled=") (str "routing_enabled=" ++ bool_text b)) with true by (by destruct b; vm_compute). cbn [andb].
  replace (strip is_space (drop 16 (str "routing_enabled=" ++ bool_text b))) with (bool_text b) by (by destruct b; vm_compute).
  rewrite py_lower_ascii by (destruct b; text_decide). f_equal. by destruct b; vm_compute.
Qed.

Definition nat_header (settings : TrafficPublishingSettings) : list pystr :=
  [str "# Managed by Atlaso Traffic Publishing."; str "[feature_settings]"; str "routing_enabled=" ++ bool_text (TrafficPublishing.routing_enabled settings);
   str "nat_enabled=" ++ bool_text (nat_enabled settings); str "wan_simulation_enabled=false"; []; str "[targets]"].

Lemma header_snapshot settings lines :
  snapshot_lines false false true (nat_header settings ++ lines) = snapshot_lines false false (TrafficPublishing.routing_enabled settings) lines.
Proof.
  unfold nat_header. cbn [app]. rewrite other_line, section_line, (bool_decide_true (strip is_space (str "[feature_settings]") = _)), routing_line by (by vm_compute).
  rewrite other_line by (by destruct (nat_enabled settings); vm_compute). rewrite !other_line, section_line by (by vm_compute).
  by rewrite bool_decide_false by (by vm_compute).
Qed.

Lemma quiet_plain l : Forall quiet l -> Forall plain l.
Proof. intros Hl. eapply Forall_impl; [exact Hl|]. by intros ? [? _]. Qed.

Lemma nat_snapshot rules targets groups settings text rest :
  Forall target_plain targets -> Forall (rule_soft groups) rules -> render_nat_config rules targets groups settings = Ok text ->
  snapshot_has_port_forwards (text ++ rest) = snapshot_lines false false (TrafficPublishing.routing_enabled settings) (splitlines rest).
Proof.
  intros Ht Hr E. unfold render_nat_config in E. apply bind_Ok in E as (tp&Htp&E). apply bind_Ok in E as (rp&Hrp&E). apply Ok_inj in E.
  apply res_mapM_Ok in Htp, Hrp.
  assert (Forall quiet (concat tp)) as Hqt.
  { apply Forall_concat, Forall_forall. intros ls Hls. apply list_elem_of_lookup in Hls as [k Hk]. destruct (Forall2_lookup_r _ _ _ _ _ Htp Hk) as (t&Hin&Et).
    eapply target_lines_quiet; [|exact Et]. rewrite Forall_forall in Ht. apply Ht. by apply list_elem_of_lookup_2 in Hin. }
  assert (Forall quiet (concat rp)) as Hqr.
  { apply Forall_concat, Forall_forall. intros ls Hls. apply list_elem_of_lookup in Hls as [k Hk]. destruct (Forall2_lookup_r _ _ _ _ _ Hrp Hk) as (x&Hin&Ex).
    eapply rule_lines_quiet; [|exact Ex]. rewrite Forall_forall in Hr. apply Hr. rewrite <- (sort_by_perm nat_rule_le rules). by apply list_elem_of_lookup_2 in Hin. }
  subst text. fold (nat_header settings).
  rewrite (app_assoc [[]; str "[nat_rules]"]), (app_assoc (concat tp)), (app_assoc (nat_header settings)), join_lines. unfold snapshot_has_port_forwards.
  rewrite splitlines_lines.
  - rewrite <- !app_assoc, header_snapshot, snapshot_quiet by done. cbn [app]. rewrite other_line, section_line, bool_decide_false by (by vm_compute).
    by rewrite snapshot_quiet.
  - repeat (apply Forall_app; split); try (by apply quiet_plain); [|repeat constructor; text_decide].
    unfold nat_header. repeat (constructor; [first [text_decide|by destruct (TrafficPublishing.routing_enabled settings); text_decide|by destruct (nat_enabled settings); text_decide]|]). constructor.
Qed.

(** The records say which forwards are enabled. *)
Lemma record_enabled r networks : maybe_enabled (sort_dicts (forward_record r networks)) = pf_enabled (pf_fields r).
Proof.
  unfold maybe_enabled. destruct (sort_dicts (forward_record r networks)) as [| | | | | |items] eqn:E; try done.
  unfold forward_record in E. pose proof (fun Hn => dict_get_sort_dicts _ _ (str "enabled") Hn E) as Hg.
  rewrite Hg by text_decide. clear. by destruct (pf_enabled (pf_fields r)).
Qed.

Lemma rendered_record_enabled groups r v : rendered_record groups r = Ok v -> maybe_enabled (sort_dicts v) = pf_enabled (pf_fields r).
Proof.
  unfold rendered_record. destruct (source_networks _ _ _); [intros [= <-]; apply record_enabled|].
  destruct (pf_enabled (pf_fields r)) eqn:E; [done|]. intros [= <-]. by rewrite record_enabled.
Qed.

Lemma existsb_perm {A} (q : A -> bool) l l' : l ≡ₚ l' -> existsb q l = existsb q l'.
Proof.
  intros Hp. apply eq_true_iff_eq. rewrite !existsb_exists. by split; intros (x&Hx%list_elem_of_In&Hq); exists x; rewrite <- list_elem_of_In; rewrite ?Hp in *.
Qed.

Lemma records_enabled groups rules records :
  mapM (rendered_record groups) rules = Ok records -> existsb maybe_enabled (map sort_dicts records) = existsb (fun r => pf_enabled (pf_fields r)) rules.
Proof.
  intros E%res_mapM_Ok. induction E as [|r v rules records Hv _ IH]; cbn; [done|]. by rewrite (rendered_record_enabled _ _ _ Hv), IH.
Qed.

Lemma records_snapshot forwards groups text re :
  render_port_forward_records forwards groups = Ok text ->
  (forall r v, r ∈ forwards -> rendered_record groups r = Ok v -> dumpable v) ->
  snapshot_lines false false re (splitlines text) = re && existsb (fun r => pf_enabled (pf_fields r)) forwards.
Proof.
  intros E Hd. unfold render_port_forward_records in E. apply bind_Ok in E as (records&Hr&E). apply Ok_inj in E. subst text.
  assert (dumpable (JList records)) as Hj.
  { apply dumpable_list, Forall_forall. intros v Hv. apply res_mapM_Ok in Hr. apply list_elem_of_lookup in Hv as [k Hk].
    destruct (Forall2_lookup_r _ _ _ _ _ Hr Hk) as (r&Hin&Er). apply (Hd r v); [|done]. rewrite <- (sort_by_perm forward_le forwards). by apply list_elem_of_lookup_2 in Hin. }
  replace (records_header ++ dumps_compact (JList records) ++ [10]) with
    (concat (map (fun l => l ++ [10]) [[]; str "[port_forwards]"; str "json=" ++ dumps_compact (JList records)]) ++ []).
  2:{ unfold records_header. cbn [map concat]. rewrite !app_nil_r, <- !app_assoc. done. }
  rewrite splitlines_lines.
  - cbn [app splitlines]. rewrite other_line by (by vm_compute). cbn [snapshot_lines]. rewrite records_line.
    change (strip is_space (str "[port_forwards]")) with (str "[port_forwards]"). change (has_prefix (str "[") (str "[port_forwards]")) with true. cbn [andb].
    rewrite (bool_decide_true (str "[port_forwards]" = _)), (bool_decide_false (str "[port_forwards]" = _)) by (by vm_compute).
    change (has_prefix (str "[") (str "json=" ++ dumps_compact (JList records))) with false. cbn [andb].
    replace (has_prefix (str "json=") (str "json=" ++ dumps_compact (JList records))) with true by done.
    change (drop 5 (str "json=" ++ dumps_compact (JList records))) with (dumps_compact (JList records)). rewrite loads_dumps_compact by done.
    cbn [sort_dicts]. rewrite (records_enabled _ _ _ Hr). f_equal. apply existsb_perm, sort_by_perm.
  - do 2 (constructor; [text_decide|]). constructor; [|constructor]. apply plain_app. split; [text_decide|]. by apply printable_plain, dumps_printable, dumpable_no_float.
Qed.

(** C18.  What a snapshot says about port forwards is found again: in the configuration rendered
    from NAT rules and port forwards, [snapshot_has_port_forwards] answers whether routing
    is enabled and some forward is, so that a later submission pairs the firewall with it
    exactly then; provided the texts of the NAT rules and targets have no line breaks other
    than newlines and returns. *)
Theorem snapshot_forwards_found rules targets groups settings forwards nat_text forward_text :
  Forall target_plain targets -> Forall (rule_soft groups) rules ->
  (forall r v, r ∈ forwards -> rendered_record groups r = Ok v -> dumpable v) ->
  render_nat_config rules targets groups settings = Ok nat_text ->
  render_port_forward_records forwards groups = Ok forward_text ->
  snapshot_has_port_forwards (nat_text ++ forward_text) = TrafficPublishing.routing_enabled settings && existsb (fun r => pf_enabled (pf_fields r)) forwards.
Proof. intros Ht Hr Hd En Ef. rewrite (nat_snapshot _ _ _ _ _ _ Ht Hr En). by apply (records_snapshot _ groups). Qed.

(* ------------------------------------------------------------------ *)
(** ** Status *)

(** The fingerprint of a rule is that of its record. *)
Lemma record_fingerprint_of r groups v :
  rendered_record groups r = Ok v -> dumpable v -> record_fingerprint r groups = sha256_hex (map to_byte (dumps_compact (sort_dicts v))).
Proof.
  intros Hv Hd. unfold record_fingerprint, render_port_forward_records. cbn [sort_by foldr insert_by mapM]. rewrite Hv. cbn [mbind res_bind mret res_ret].
  assert (forall t, after (str "json=") (records_header ++ t) = Some t) as Ha by (by intros t).
  rewrite Ha. change (dumps_compact (JList [v]) ++ [10]) with (dumps_compact (JList [v]) ++ [10]).
  rewrite loads_dumps_line by (by apply dumpable_list; constructor). cbn [sort_dicts map]. pose proof (dumps_bytes_ok (sort_dicts v)) as Hb.
  unfold dumps_bytes in Hb. rewrite Hb; [done|]. by apply sort_dicts_twice.
Qed.

Lemma to_byte_map_inj s t : Forall (fun x => 0 <= x < 128) s -> Forall (fun x => 0 <= x < 128) t -> map to_byte s = map to_byte t -> s = t.
Proof.
  intros Hs. revert t. induction Hs as [|x s Hx _ IH]; intros [|y t] Ht E; try done. cbn in E. injection E as E1 E2. apply Forall_cons in Ht as [Hy Ht].
  f_equal; [|by apply IH]. apply (f_equal byte_val) in E1. rewrite !byte_val_to_byte, !Z.mod_small in E1 by lia. done.
Qed.

(** SHA-256 tells the texts of two records apart; then rules with one fingerprint have the
    same record. *)
Definition records_told_apart (v v' : json) : Prop :=
  collision_free (map to_byte (dumps_compact (sort_dicts v))) (map to_byte (dumps_compact (sort_dicts v'))).
Lemma fingerprint_determines r r' groups groups' v v' :
  rendered_record groups r = Ok v -> rendered_record groups' r' = Ok v' -> dumpable v -> dumpable v' -> records_told_apart v v' ->
  record_fingerprint r groups = record_fingerprint r' groups' -> sort_dicts v = sort_dicts v'.
Proof.
  intros Hv Hv' Hd Hd' Hfree E. rewrite (record_fingerprint_of _ _ _ Hv Hd), (record_fingerprint_of _ _ _ Hv' Hd') in E.
  destruct (sort_dicts_twice v Hd) as [E1 D1], (sort_dicts_twice v' Hd') as [E2 D2].
  apply Hfree, to_byte_map_inj in E; [|by apply dumps_compact_ascii..].
  pose proof (loads_dumps_compact _ D1) as L1. pose proof (loads_dumps_compact _ D2) as L2. rewrite E, L2 in L1. congruence.
Qed.

(** The networks of a rendered rule. *)
Definition rendered_networks (groups : list Group) (r : PortForward) : list pystr :=
  match source_networks (pf_source (pf_fields r)) (pf_ip_family (pf_fields r)) groups with Ok networks => networks | Raise _ => [] end.
Lemma rendered_record_is groups r v : rendered_record groups r = Ok v -> v = forward_record r (rendered_networks groups r).
Proof. unfold rendered_record, rendered_networks. destruct (source_networks _ _ _); [by intros [= <-]|]. destruct (pf_enabled _); [done|]. by intros [= <-]. Qed.

Lemma sort_texts n : map sort_dicts (map JStr n) = map JStr n.
Proof. rewrite map_map. done. Qed.
Lemma texts_inj n n' : map JStr n = map JStr n' -> n = n'.
Proof. revert n'. induction n as [|x n IH]; intros [|y n'] E; try done. cbn in E. injection E as -> E. by rewrite (IH _ E). Qed.

(** Read an entry of two records that dump alike. *)
Ltac record_entry Hk k := let H := fresh "Ek" in pose proof (Hk (str k)) as H; vm_compute in H; injection H as H.

Lemma record_same r r' n n' : sort_dicts (forward_record r n) = sort_dicts (forward_record r' n') -> pf_id r = pf_id r' /\ pf_fields r = pf_fields r' /\ n = n'.
Proof.
  intros E. unfold forward_record in E.
  eassert (forall k, _) as Hk; [intros k; refine (dump_entries _ _ k _ _ E); by apply (bool_decide_unpack _)|]. clear E.
  assert (Some (JList (map sort_dicts (map JStr n))) = Some (JList (map sort_dicts (map JStr n')))) as En by exact (Hk (str "source_networks")).
  rewrite !sort_texts in En. injection En as En%texts_inj.
  assert (pf_id r = pf_id r') as Eid by (pose proof (Hk (str "id")) as Ei; vm_compute in Ei; destruct r as [[i|] ? ?], r' as [[i'|] ? ?]; cbn; congruence).
  split; [done|]. split; [|done]. destruct r as [? f ?], r' as [? g ?]. cbn [pf_fields] in *.
  record_entry Hk "name"%string. record_entry Hk "description"%string. record_entry Hk "priority"%string. record_entry Hk "enabled"%string.
  record_entry Hk "ip_family"%string. record_entry Hk "ingress_interface"%string. record_entry Hk "listener_address"%string. record_entry Hk "protocol"%string.
  record_entry Hk "external_port_start"%string. record_entry Hk "external_port_end"%string. record_entry Hk "target_address"%string.
  record_entry Hk "target_port_start"%string. record_entry Hk "target_port_end"%string. record_entry Hk "source"%string. record_entry Hk "reply_mode"%string.
  clear Hk Eid En. destruct f, g. cbn in *. subst. reflexivity.
Qed.

(** The helper observed the rule as applied, with the fingerprint. *)
Definition observed_applied (observation : list (pystr * json)) (rule_id : Z) (fingerprint : pystr) : Prop :=
  exists rows row, dict_get (str "available") observation = Some (JBool true) /\ dict_get (str "rules") observation = Some (JList rows) /\
    observed_row rule_id rows = Some row /\ text_at row "snapshot_hash" = Some fingerprint /\ text_at row "state" = Some (str "applied").

Lemma rule_status_applied groups routing available rows r :
  st_state (rule_status groups routing available rows r) = str "applied" ->
  available = true /\ pf_enabled (pf_fields r) = true /\ routing = true /\ record_fingerprint r groups <> [] /\
  exists i row, pf_id r = Some i /\ observed_row i rows = Some row /\ text_at row "snapshot_hash" = Some (record_fingerprint r groups) /\
    text_at row "state" = Some (str "applied").
Proof.
  unfold rule_status. destruct available; [|done]. cbn [negb]. destruct (pf_id r) as [i|]; cbn [mbind option_bind]; [|by destruct (pf_enabled (pf_fields r)), routing].
  destruct (observed_row i rows) as [row|] eqn:Er; [|by destruct (pf_enabled (pf_fields r)), routing].
  destruct (pf_enabled (pf_fields r) && routing) eqn:Een; [|done]. apply andb_true_iff in Een as [He Hr]. cbn [negb].
  destruct (bool_decide (record_fingerprint r groups = []) || _) eqn:Ef; [done|]. apply orb_false_iff in Ef as [Ef%bool_decide_eq_false Eh%negb_false_iff%bool_decide_eq_true].
  destruct (_ && bool_decide (text_at row "state" = Some (str "applied"))) eqn:Es; [|done].
  apply andb_true_iff in Es as [_ Es%bool_decide_eq_true]. intros _. split_and!; try done. by exists i, row.
Qed.

(** C17.  A port forward that is shown as applied is in force: it is enabled, routing is on, and
    the helper reports it as applied with the fingerprint of its present record; and when
    that is the fingerprint of a rule and of Source Groups of an earlier time, the rule has
    not changed in any field since, and its source still resolves to the same networks;
    provided that SHA-256 does not collide on the texts of the two records. *)
Theorem applied_forward_in_force rules groups routing observation status :
  status ∈ port_forward_status rules groups routing observation -> st_state status = str "applied" ->
  exists r i, r ∈ rules /\ pf_id r = Some i /\ st_id status = Some i /\ pf_enabled (pf_fields r) = true /\ routing = true /\
    observed_applied observation i (record_fingerprint r groups) /\
    forall earlier earlier_groups v v', rendered_record groups r = Ok v -> rendered_record earlier_groups earlier = Ok v' -> dumpable v -> dumpable v' ->
      records_told_apart v v' -> observed_applied observation i (record_fingerprint earlier earlier_groups) ->
      pf_id earlier = Some i /\ pf_fields earlier = pf_fields r /\ rendered_networks earlier_groups earlier = rendered_networks groups r.
Proof.
  intros Hin Hst. unfold port_forward_status in Hin.
  assert (exists available rows, (available = true -> dict_get (str "available") observation = Some (JBool true) /\
            (dict_get (str "rules") observation = Some (JList rows) \/ rows = [])) /\
          status ∈ map (rule_status groups routing available rows) (take (Z.to_nat MAX_PORT_FORWARDS) rules)) as (available&rows&Hav&Hmap).
  { destruct (dict_get (str "rules") observation) as [v|] eqn:Ev; cbn [default from_option id] in Hin.
    - destruct v as [| | | | |rows|]; try (exists false, []; by split). destruct (zlen rows <=? MAX_PORT_FORWARDS); [|exists false, []; by split].
      eexists _, rows. split; [|exact Hin]. intros Ha. split; [|by left]. destruct (dict_get (str "available") observation) as [[|[]| | | | |]|]; done.
    - eexists _, []. split; [|exact Hin]. intros Ha. split; [|by right]. destruct (dict_get (str "available") observation) as [[|[]| | | | |]|]; done. }
  apply list_elem_of_fmap in Hmap as (r&->&Hr). destruct (rule_status_applied _ _ _ _ _ Hst) as (->&He&Hro&Hne&i&row&Hid&Hrow&Hh&Hs).
  destruct (Hav eq_refl) as [Ha [Hrows| ->]]; [|done].
  exists r, i. split_and!; try done.
  - apply elem_of_take in Hr as (k&Hk&_). by apply list_elem_of_lookup_2 in Hk.
  - unfold rule_status. rewrite Hid. cbn [negb mbind option_bind]. rewrite Hrow. repeat case_match; done.
  - by exists rows, row.
  - intros earlier earlier_groups v v' Hv Hv' Hd Hd' Hfree (rows'&row'&_&Hrows'&Hrow'&Hh'&_). rewrite Hrows in Hrows'. injection Hrows' as <-.
    rewrite Hrow in Hrow'. injection Hrow' as <-. rewrite Hh in Hh'. injection Hh' as Hh'.
    pose proof (fingerprint_determines _ _ _ _ _ _ Hv Hv' Hd Hd' Hfree Hh') as E.
    apply rendered_record_is in Hv as ->, Hv' as ->. apply record_same in E as (E1&E2&E3). split_and!; congruence.
Qed.
End Snapshot.

(* ------------------------------------------------------------------ *)
(** ** Instances *)

#[local] Existing Instances demo_runtime demo_pydantic ascii_case.

Definition demo_nat_rule (name : pystr) : NatRule :=
  mkNatRule name true (str "any") (JList [JStr (str "eth1")]) (Some 4) (str "eth2") (str "masquerade") [] (Some true) 100.
Definition demo_settings : TrafficPublishingSettings := mkTrafficPublishingSettings true true.
Definition demo_targets : list NatTarget :=
  [mkNatTarget (str "eth1") (str "physical") (str "access") (str "eth1") [] (str "10.0.1.1/24") [] [4]].
Definition demo_forward : PortForward := mkPortForward (Some 1) (demo_fields "web" "10.0.1.50" 8000) false.

Lemma demo_dumpable v : rendered_record [] demo_forward = Ok v -> dumpable v.
Proof.
  intros E. apply dumpable_checked. vm_compute in E. injection E as <-. vm_compute. reflexivity.
Qed.

(** [snapshot_forwards_found] at an enabled forward. *)
Lemma snapshot_forwards_found_witness : exists nat_text forward_text,
  render_nat_config [demo_nat_rule (str "out")] demo_targets [] demo_settings = Ok nat_text /\
  render_port_forward_records [demo_forward] [] = Ok forward_text /\ snapshot_has_port_forwards (nat_text ++ forward_text) = true.
Proof.
  destruct (render_nat_config [demo_nat_rule (str "out")] demo_targets [] demo_settings) as [nat_text|] eqn:En; [|vm_compute in En; discriminate En].
  destruct (render_port_forward_records [demo_forward] []) as [forward_text|] eqn:Ef; [|vm_compute in Ef; discriminate Ef].
  exists nat_text, forward_text. split; [reflexivity|]. split; [reflexivity|].
  rewrite (snapshot_forwards_found (laws := ascii_case_laws) [demo_nat_rule (str "out")] demo_targets [] demo_settings [demo_forward] nat_text forward_text);
    [reflexivity| | | |exact En|exact Ef].
  - apply Forall_singleton. unfold target_plain. repeat (apply Forall_cons; split; [text_decide|]). constructor.
  - apply Forall_singleton. split.
    + repeat (apply Forall_cons; split; [apply plain_soft; text_decide|]). constructor.
    + intros x E. vm_compute in E. injection E as <-. apply plain_soft. text_decide.
  - intros r v Hr. apply elem_of_cons in Hr as [->|Hr]; [apply demo_dumpable|by apply elem_of_nil in Hr].
Defined.

(** The applied snapshot is misread when the name of a NAT rule has another line break: U+2028
    ends a line for [splitlines], and the rest of the name is taken for a setting. *)
Example separator_hides_forwards : exists nat_text forward_text,
  render_nat_config [demo_nat_rule (str "x" ++ [0x2028] ++ str "[feature_settings]" ++ [0x2028] ++ str "routing_enabled=false")] demo_targets [] demo_settings = Ok nat_text /\
  render_port_forward_records [demo_forward] [] = Ok forward_text /\ snapshot_has_port_forwards (nat_text ++ forward_text) = false.
Proof. eexists _, _. split; [vm_compute; reflexivity|]. split; [vm_compute; reflexivity|]. vm_compute. reflexivity. Qed.

(** [applied_forward_in_force] at an observation of the helper. *)
Definition demo_observation : list (pystr * json) :=
  [(str "available", JBool true);
   (str "rules", JList [JDict [(str "id", JInt 1); (str "state", JStr (str "applied")); (str "packets", JInt 3); (str "bytes", JInt 180);
                               (str "snapshot_hash", JStr (record_fingerprint demo_forward []))]])].
Lemma applied_forward_in_force_witness :
  map st_state (port_forward_status [demo_forward] [] true demo_observation) = [str "applied"] /\
  observed_applied demo_observation 1 (record_fingerprint demo_forward []).
Proof.
  assert (map st_state (port_forward_status [demo_forward] [] true demo_observation) = [str "applied"]) as Hm by (vm_compute; reflexivity).
  split; [exact Hm|]. destruct (port_forward_status [demo_forward] [] true demo_observation) as [|status l] eqn:E; [discriminate Hm|].
  injection Hm as Es _. destruct (applied_forward_in_force [demo_forward] [] true demo_observation status) as (r&i&Hr&Hi&_&_&_&Ho&_).
  - rewrite E. left.
  - exact Es.
  - apply elem_of_cons in Hr as [->|Hr]; [|exfalso; clear -Hr; inversion Hr]. change (pf_id demo_forward) with (Some 1) in Hi. injection Hi as <-. exact Ho.
Defined.
