(* ===== verification/UploadPublication.v ===== *)
(** [services/upload_publication.py]: the publication of an uploaded file at its destination,
    bound to the revision of the destination that the operator agreed to overwrite.

    [Disk] is the file system: names of inodes, their data, and the failures of system calls
    ahead; a call that fails has no effect, and an exhausted list means that nothing fails.
    [symlinked] lists the paths below a symbolic link.  The lock serialises publications, and
    nothing else changes the names meanwhile.  What the caller does between publishing and
    cleaning up is the argument [body]. *)

From S2P Require Import Prelude ChunkUploads.
From stdpp Require Import gmap.
Open Scope Z_scope.

Record Inode : Type := mkInode {
  regular : bool;
  device : Z;
  data : bytes;
  mtime : Z;
  ctime : Z
}.
Record Disk : Type := mkDisk {
  names : gmap pystr nat;
  inodes : gmap nat Inode;
  symlinked : list pystr;
  clock : Z;
  faults : list bool
}.
Definition set_names (n : gmap pystr nat) (d : Disk) : Disk := mkDisk n (inodes d) (symlinked d) (clock d) (faults d).

(** The device, inode, size and time stamps of a file. *)
Abbreviation Revision := (Z * nat * Z * Z * Z)%type.

(** A system call that may fail. *)
Definition syscall : ST Disk unit := fun d =>
  match faults d with
  | true :: l => (Raise OSError, mkDisk (names d) (inodes d) (symlinked d) (clock d) l)
  | false :: l => (Ok tt, mkDisk (names d) (inodes d) (symlinked d) (clock d) l)
  | [] => (Ok tt, d)
  end.

(** The time stamp of the inode changes with its names. *)
Definition touch (i : nat) (d : Disk) : Disk :=
  mkDisk (names d) (alter (fun n => mkInode (regular n) (device n) (data n) (mtime n) (clock d)) i (inodes d)) (symlinked d) (clock d + 1) (faults d).

(** [path.lstat()], [None] when there is no file. *)
Definition lstat (path : pystr) : ST Disk (option (nat * Inode)) :=
  _ ← syscall; gets (fun d => i ← names d !! path; n ← inodes d !! i; Some (i, n)).

(** [os.link(source, target)]. *)
Definition link (source target : pystr) : ST Disk unit :=
  _ ← syscall;
  d ← gets id;
  match names d !! source with
  | None => lift (Raise OSError)
  | Some i => if bool_decide (is_Some (names d !! target)) then lift (Raise FileExistsError)
              else modify (fun d => touch i (set_names (<[target := i]> (names d)) d))
  end.

(** [os.replace(source, target)]; two names of one file stay as they are. *)
Definition replace (source target : pystr) : ST Disk unit :=
  _ ← syscall;
  d ← gets id;
  match names d !! source with
  | None => lift (Raise OSError)
  | Some i => if bool_decide (names d !! target = Some i) then mret tt
              else modify (fun d => touch i (set_names (<[target := i]> (delete source (names d))) d))
  end.

(** [path.unlink(missing_ok)]. *)
Definition unlink (path : pystr) (missing_ok : bool) : ST Disk unit :=
  _ ← syscall;
  d ← gets id;
  match names d !! path with
  | None => if missing_ok then mret tt else lift (Raise OSError)
  | Some i => modify (fun d => touch i (set_names (delete path (names d)) d))
  end.

(** [isinstance(exc, OSError)]. *)
Definition is_os_error (e : exn) : bool := match e with OSError | FileExistsError => true | _ => false end.
Definition is_FileExistsError (e : exn) : bool := match e with FileExistsError => true | _ => false end.

(** [path.exists()], which answers that there is none when it cannot tell, and
    [os.path.samefile(a, b)], which raises. *)
Definition path_exists (path : pystr) : ST Disk bool :=
  catch is_os_error (_ ← syscall; gets (fun d => bool_decide (is_Some (names d !! path)))) (fun _ => mret false).
Definition samefile (a b : pystr) : ST Disk bool :=
  _ ← syscall;
  _ ← syscall;
  d ← gets id;
  match names d !! a, names d !! b with
  | Some i, Some j => mret (bool_decide (i = j))
  | _, _ => lift (Raise OSError)
  end.

(* ------------------------------------------------------------------ *)
(** ** Publication *)

(** [revision]. *)
Definition revision (path : pystr) : ST Disk (option Revision) :=
  d ← gets id;
  _ ← lift (raise_if (mem path (symlinked d)) OSError);
  value ← lstat path;
  match value with
  | None => mret None
  | Some (i, n) => _ ← lift (raise_if (negb (regular n)) OSError); mret (Some (device n, i, zlen (data n), mtime n, ctime n))
  end.

(** [cleanup_private_upload]. *)
Definition cleanup_private_upload (path : pystr) : ST Disk unit := catch is_os_error (unlink path true) (fun _ => mret tt).

(** [try: c finally: f], for an [f] that does not raise. *)
Definition finally {A} (c : ST Disk A) (f : ST Disk unit) : ST Disk A := fun d =>
  let '(r, d') := c d in (r, (f d').2).

(** [class UploadPublication]. *)
Record UploadPublication : Type := mkUploadPublication { path : pystr; expected : option Revision }.

(** [revision[:4]]. *)
Definition content_revision (r : Revision) : Z * nat * Z * Z := let '(dev, ino, size, m, _) := r in (dev, ino, size, m).

(** The names of the links beside the staged file. *)
Definition backup_of (staged : pystr) : pystr := staged ++ str ".previous".
Definition replacement_of (staged : pystr) : pystr := staged ++ str ".publish".

(** Putting the file in place. *)
Definition place (p : UploadPublication) (staged destination : pystr) : ST Disk unit :=
  match expected p with
  | None => catch is_FileExistsError (link staged destination) (fun _ => lift (Raise PublicationConflict))
  | Some approved =>
    _ ← link destination (backup_of staged);
    current ← revision destination;
    _ ← lift (raise_if (match current with None => true | Some c => negb (bool_decide (content_revision c = content_revision approved)) end)
                PublicationConflict);
    _ ← link staged (replacement_of staged);
    replace (replacement_of staged) destination
  end.

(** Taking it back when the caller fails. *)
Definition restore (p : UploadPublication) (staged destination : pystr) : ST Disk unit :=
  there ← path_exists destination;
  if there : bool then
    same ← samefile staged destination;
    if same : bool then
      match expected p with None => unlink destination false | Some _ => replace (backup_of staged) destination end
    else mret tt
  else mret tt.

(** [publish]; the paths are absolute. *)
Definition publish (p : UploadPublication) (staged destination : pystr) (defer_cleanup : bool) (body : ST Disk unit) : ST Disk unit :=
  observed ← (if bool_decide (destination = path p) then revision destination else lift (Raise PublicationConflict));
  _ ← lift (raise_if (negb (bool_decide (observed = expected p))) PublicationConflict);
  finally
    (_ ← place p staged destination;
     catch (fun _ => true) body (fun exc => _ ← restore p staged destination; lift (Raise exc)))
    (if defer_cleanup then mret tt
     else _ ← cleanup_private_upload (backup_of staged); cleanup_private_upload (replacement_of staged)).
