(* ===== verification/UploadPublicationProps.v ===== *)
(** Publication of uploads: the destination is replaced only as agreed, wholly or not at all,
    and taken back when the caller fails. *)

From S2P Require Import Prelude ChunkUploads UploadPublication.
From stdpp Require Import gmap.
Open Scope Z_scope.

(* ------------------------------------------------------------------ *)
(** ** System calls *)

(** A file but for the time stamp of its names. *)
Definition still (n : Inode) : bool * Z * bytes * Z := (regular n, device n, data n, mtime n).

(** No file was written, and nothing fails from here on if nothing failed before. *)
Definition kept (d d' : Disk) : Prop :=
  (forall i, still <$> inodes d' !! i = still <$> inodes d !! i) /\ symlinked d' = symlinked d /\ (faults d = [] -> faults d' = []).

Lemma kept_refl d : kept d d.
Proof. done. Qed.
Lemma kept_trans d1 d2 d3 : kept d1 d2 -> kept d2 d3 -> kept d1 d3.
Proof. intros (H1&H2&H3) (G1&G2&G3). split_and!; [intros i; by rewrite G1|congruence|auto]. Qed.

Lemma touch_kept i d : kept d (touch i d).
Proof.
  split_and!; [|done|done]. intros j. cbn. destruct (decide (i = j)) as [->|Hne]; [|by rewrite lookup_alter_ne].
  rewrite lookup_alter_eq. by destruct (inodes d !! j).
Qed.

Lemma rename_kept i n d : kept d (touch i (set_names n d)).
Proof. exact (touch_kept i (set_names n d)). Qed.

Lemma wp_syscall {A : Type} (Q : res A -> Disk -> Prop) (k : unit -> ST Disk A) d :
  (forall d1, names d1 = names d -> inodes d1 = inodes d -> kept d d1 -> wp (k tt) Q d1) ->
  (forall d1, names d1 = names d -> kept d d1 -> faults d <> [] -> Q (Raise OSError) d1) -> wp (syscall ≫= k) Q d.
Proof.
  intros HOk Hf. apply wp_bind. unfold wp at 1, syscall. destruct (faults d) as [|[] l] eqn:E; cbn.
  - apply HOk; [done|done|apply kept_refl].
  - apply Hf; [done| |done]. split_and!; [done|done|]. by rewrite E.
  - apply HOk; [done|done|]. split_and!; [done|done|]. rewrite E. done.
Qed.

Lemma wp_finally {A : Type} (c : ST Disk A) (f : ST Disk unit) (Q : res A -> Disk -> Prop) d :
  wp c (fun r d1 => wp f (fun _ d2 => Q r d2) d1) d -> wp (finally c f) Q d.
Proof. unfold wp, finally. by destruct (c d) as [r d1]. Qed.

(** The outcome of a call that adds or moves a name. *)
Definition renames {A : Type} (d : Disk) (n : gmap pystr nat) (why : exn -> Prop) (r : res A) (d' : Disk) : Prop :=
  kept d d' /\ match r with Ok _ => names d' = n | Raise e => is_os_error e = true /\ names d' = names d /\ (faults d = [] -> why e) end.

Lemma link_spec s t i d :
  names d !! s = Some i ->
  wp (link s t) (renames d (<[t := i]> (names d)) (fun e => e = FileExistsError /\ is_Some (names d !! t))) d.
Proof.
  intros Hs. unfold link. apply wp_syscall; [|by intros d1 Hn Hk Hf; split]. intros d1 Hn _ Hk. apply wp_bind, wp_gets. cbn [id]. rewrite Hn, Hs.
  case_bool_decide as Ht; [by split; [|split_and!]|]. apply wp_modify. split; [|cbn; by rewrite Hn]. eapply kept_trans; [exact Hk|]. apply rename_kept.
Qed.

Lemma replace_spec s t i d :
  names d !! s = Some i -> names d !! t <> Some i ->
  wp (replace s t) (renames d (<[t := i]> (delete s (names d))) (fun _ => False)) d.
Proof.
  intros Hs Ht. unfold replace. apply wp_syscall; [|by intros d1 Hn Hk Hf; split]. intros d1 Hn _ Hk. apply wp_bind, wp_gets. cbn [id].
  rewrite Hn, Hs, bool_decide_false by done. apply wp_modify. split; [|cbn; by rewrite Hn]. eapply kept_trans; [exact Hk|]. apply rename_kept.
Qed.

Lemma unlink_spec p missing_ok d :
  (missing_ok = true \/ is_Some (names d !! p)) -> wp (unlink p missing_ok) (renames d (delete p (names d)) (fun _ => False)) d.
Proof.
  intros Hp. unfold unlink. apply wp_syscall; [|by intros d1 Hn Hk Hf; split]. intros d1 Hn _ Hk. apply wp_bind, wp_gets. cbn [id]. rewrite Hn.
  destruct (names d !! p) as [i|] eqn:E.
  - apply wp_modify. split; [|cbn; by rewrite Hn]. eapply kept_trans; [exact Hk|]. apply rename_kept.
  - destruct Hp as [->|[? ?]]; [|done]. split; [done|]. by rewrite delete_id.
Qed.

(** [cleanup_private_upload] removes the name, or leaves it when the call fails. *)
Lemma cleanup_spec p d :
  wp (cleanup_private_upload p)
     (fun r d' => r = Ok tt /\ kept d d' /\ (names d' = delete p (names d) \/ names d' = names d /\ faults d <> [])) d.
Proof.
  unfold cleanup_private_upload. apply wp_catch. eapply wp_mono; [apply (unlink_spec p true); by left|]. intros [[]|e] d' [Hk Hr].
  - split_and!; [done|done|by left].
  - destruct Hr as (->&Hn&Hf). split_and!; [done|done|]. right. split; [done|]. intros E. by apply Hf.
Qed.

(* ------------------------------------------------------------------ *)
(** ** Publication *)

(** The revision at a name. *)
Definition revision_at (d : Disk) (p : pystr) : option Revision :=
  i ← names d !! p; n ← inodes d !! i; Some (device n, i, zlen (data n), mtime n, ctime n).

Lemma revision_spec p d :
  wp (revision p)
     (fun r d' => kept d d' /\ names d' = names d /\
        match r with
        | Ok v => inodes d' = inodes d /\ v = revision_at d p /\ mem p (symlinked d) = false /\
                  (forall i n, names d !! p = Some i -> inodes d !! i = Some n -> regular n = true)
        | Raise e => faults d = [] -> mem p (symlinked d) = true \/ exists i n, names d !! p = Some i /\ inodes d !! i = Some n /\ regular n = false
        end) d.
Proof.
  unfold revision. apply wp_bind, wp_gets. cbn [id]. apply wp_bind, wp_lift. destruct (mem p (symlinked d)) eqn:E; cbn [raise_if].
  { split_and!; [apply kept_refl|done|]. intros _. by left. }
  unfold lstat. apply wp_bind. apply wp_syscall; [|intros d1 Hn Hk Hf; by split_and!]. intros d1 Hn Hi Hk. apply wp_gets. unfold revision_at. rewrite Hn, Hi.
  destruct (names d !! p) as [i|] eqn:Ep; cbn [mbind option_bind]; [|by apply wp_ret]. destruct (inodes d !! i) as [n|] eqn:Ei; cbn [mbind option_bind].
  2:{ apply wp_ret. split_and!; try done. intros j m [= <-]. congruence. }
  apply wp_bind, wp_lift. destruct (regular n) eqn:Er; cbn [negb raise_if]; [apply wp_ret; split_and!; try done; intros j m [= <-]; congruence|]. split_and!; [done|done|]. intros _. right. by eauto 10.
Qed.

Section Publication.
Context (staged destination : pystr).
Let backup := backup_of staged.
Let replacement := replacement_of staged.

(** The staged file is private: the names beside it are free, and it is another file than the
    one at the destination. *)
Record prepared (d : Disk) (i : nat) : Prop := {
  prep_staged : names d !! staged = Some i;
  prep_backup : names d !! backup = None;
  prep_replacement : names d !! replacement = None;
  prep_other : names d !! destination <> Some i;
  prep_inode old : names d !! destination = Some old -> is_Some (inodes d !! old);
  prep_names : destination <> backup /\ destination <> replacement
}.

Lemma backup_ne : backup <> replacement.
Proof. unfold backup, replacement, backup_of, replacement_of. intros E. apply app_inv_head in E. vm_compute in E. discriminate E. Qed.
Lemma staged_ne : staged <> backup /\ staged <> replacement.
Proof.
  unfold backup, replacement, backup_of, replacement_of. split; intros E; apply (f_equal length) in E; rewrite length_app in E; vm_compute (length (str _)) in E; lia.
Qed.

(** The other names are as before. *)
Definition same_off (d d' : Disk) : Prop := forall k, k <> backup -> k <> replacement -> names d' !! k = names d !! k.

(** The names once the file is in place. *)
Definition placed (d : Disk) (i : nat) (d' : Disk) : Prop :=
  match names d !! destination with
  | None => names d' = <[destination := i]> (names d)
  | Some old => names d' = <[destination := i]> (<[backup := old]> (names d))
  end.

(** The revision that is compared does not depend on the time stamp. *)
Definition content_at (d : Disk) (p : pystr) : option (Z * nat * Z * Z) := content_revision <$> revision_at d p.

Lemma kept_content d d' k : kept d d' -> names d' !! k = names d !! k -> content_at d' k = content_at d k.
Proof.
  intros (Hi&_&_) Hn. unfold content_at, revision_at. rewrite Hn. destruct (names d !! k) as [i|]; [|done]. cbn. specialize (Hi i).
  destruct (inodes d' !! i) as [n'|], (inodes d !! i) as [n|]; cbn in *; try done. injection Hi as E1 E2 E3 E4. congruence.
Qed.

Lemma place_new_spec p d i :
  prepared d i -> expected p = None -> names d !! destination = None ->
  wp (place p staged destination)
     (fun r d' => kept d d' /\ match r with Ok _ => placed d i d' | Raise e => same_off d d' /\ (faults d = [] -> False) end) d.
Proof.
  intros Hp Ee Ed. unfold place, placed. rewrite Ee, Ed. apply wp_catch. eapply wp_mono; [apply (link_spec _ _ i), Hp|].
  intros [u|e] d' [Hk Hr]; [done|]. destruct Hr as (_&Hn&Hf). assert (same_off d d') by (intros k _ _; by rewrite Hn).
  assert (faults d = [] -> False) as Hno by (intros E; destruct (Hf E) as [_ [? Hx]]; by rewrite Ed in Hx). destruct (is_FileExistsError e); by split.
Qed.

Lemma place_over_spec p d i old approved :
  prepared d i -> expected p = Some approved -> names d !! destination = Some old -> revision_at d destination = Some approved ->
  mem destination (symlinked d) = false -> (forall n, inodes d !! old = Some n -> regular n = true) ->
  wp (place p staged destination)
     (fun r d' => kept d d' /\ match r with Ok _ => placed d i d' | Raise e => same_off d d' /\ (faults d = [] -> False) end) d.
Proof.
  intros Hp Ee Ed Hrev Hsym Hreg. pose proof backup_ne as Hbr. destruct staged_ne as [Hsb Hsr]. destruct (prep_names d i Hp) as [Hdb Hdr].
  unfold place, placed. rewrite Ee, Ed. set (Q := fun (r : res unit) d' => _).
  assert (forall d1 e, kept d d1 -> same_off d d1 -> (faults d = [] -> False) -> Q (Raise e) d1) as HQ by (by intros).
  apply wp_bind. eapply wp_mono; [apply (link_spec destination backup old d Ed)|].
  intros [[]|e] d1 [Hk1 Hn1]; [|destruct Hn1 as (_&Hn1&Hf); apply HQ; [done|intros k _ _; by rewrite Hn1|]].
  2:{ intros E. destruct (Hf E) as [_ [? Hx]]. by rewrite (prep_backup d i Hp) in Hx. }
  assert (same_off d d1) as Ho1 by (intros k H1 H2; by rewrite Hn1, lookup_insert_ne).
  assert (names d1 !! destination = Some old) as Ed1 by (by rewrite Ho1).
  assert (content_at d1 destination = Some (content_revision approved)) as Hc1.
  { rewrite (kept_content d d1) by (done || by rewrite Ho1). unfold content_at. by rewrite Hrev. }
  apply wp_bind. eapply wp_mono; [apply revision_spec|]. intros [v|e] d2 (Hk2&Hn2&Hv).
  2:{ apply HQ; [by eapply kept_trans|intros k H1 H2; rewrite Hn2; by apply Ho1|]. intros E. destruct Hk1 as (Hi1&Hs1&Hf1). destruct (Hv (Hf1 E)) as [Hm|(j&n&Hj&Hin&Hr)].
      - rewrite Hs1 in Hm. congruence.
      - rewrite Ed1 in Hj. injection Hj as <-. specialize (Hi1 old). rewrite Hin in Hi1. destruct (inodes d !! old) as [n'|] eqn:En; [|done]. cbn in Hi1.
        injection Hi1 as E1 _ _ _. rewrite (Hreg n' eq_refl) in E1. congruence. }
  destruct Hv as (_&->&_). apply wp_bind, wp_lift. unfold content_at in Hc1. destruct (revision_at d1 destination) as [c|]; [|done]. cbn in Hc1. injection Hc1 as ->.
  rewrite bool_decide_true by done. cbn [negb raise_if]. assert (kept d d2) as Hk by (by eapply kept_trans).
  assert (names d2 !! staged = Some i) as Hst by (rewrite Hn2, Ho1 by done; apply Hp).
  apply wp_bind. eapply wp_mono; [apply (link_spec staged replacement i d2 Hst)|]. intros [[]|e] d3 [Hk3 Hn3].
  2:{ destruct Hn3 as (_&Hn3&Hf). apply HQ; [by eapply kept_trans|intros k H1 H2; rewrite Hn3, Hn2; by apply Ho1|]. intros E.
      destruct Hk as (_&_&Hfk). destruct (Hf (Hfk E)) as [_ [? Hx]]. rewrite Hn2, Hn1, lookup_insert_ne, (prep_replacement d i Hp) in Hx by done. done. }
  assert (kept d d3) as Hk' by (by eapply kept_trans). eapply wp_mono; [apply (replace_spec replacement destination i d3)|].
  { by rewrite Hn3, lookup_insert_eq. }
  { rewrite Hn3, lookup_insert_ne, Hn2, Ed1 by done. rewrite <- Ed. apply Hp. }
  intros [[]|e] d4 [Hk4 Hn4].
  - split; [by eapply kept_trans|]. rewrite Hn4, Hn3, Hn2, Hn1. rewrite delete_insert_id; [done|]. rewrite lookup_insert_ne by done. apply Hp.
  - destruct Hn4 as (_&Hn4&Hf). apply HQ; [by eapply kept_trans| |intros E; destruct Hk' as (_&_&Hfk); by apply Hf, Hfk].
    intros k H1 H2. rewrite Hn4, Hn3, lookup_insert_ne, Hn2 by done. by apply Ho1.
Qed.
Lemma placed_names d i d1 : prepared d i -> placed d i d1 ->
  names d1 !! staged = Some i /\ names d1 !! destination = Some i /\ names d1 !! replacement = None /\
  (forall k, k <> backup -> k <> destination -> names d1 !! k = names d !! k) /\
  (forall old, names d !! destination = Some old -> names d1 !! backup = Some old).
Proof.
  intros Hp Hpl. destruct staged_ne as [Hsb Hsr], (prep_names d i Hp) as [Hdb Hdr]. pose proof backup_ne as Hbr. unfold placed in Hpl.
  assert (staged <> destination) as Hsd by (intros E; apply (prep_other d i Hp); rewrite <- E; apply Hp).
  pose proof (prep_staged d i Hp). pose proof (prep_replacement d i Hp).
  destruct (names d !! destination) as [old|]; rewrite Hpl; split_and!; try (by rewrite lookup_insert_eq); try (by rewrite !lookup_insert_ne by done).
  - intros k H1 H2. by rewrite !lookup_insert_ne by done.
  - intros old' [= <-]. by rewrite lookup_insert_ne, lookup_insert_eq by done.
  - intros k H1 H2. by rewrite !lookup_insert_ne by done.
Qed.

Lemma restore_spec p d i d1 :
  prepared d i -> placed d i d1 -> (expected p = None <-> names d !! destination = None) ->
  wp (restore p staged destination)
     (fun r d' => kept d1 d' /\ (forall k, k <> backup -> k <> destination -> names d' !! k = names d !! k) /\
        (names d' !! destination = names d !! destination \/ names d' !! destination = Some i) /\
        (faults d1 = [] -> r = Ok tt /\ names d' !! destination = names d !! destination)) d1.
Proof.
  intros Hp Hpl Hex. destruct (placed_names d i d1 Hp Hpl) as (Hs&Hd&_&Ho&Hb). destruct (prep_names d i Hp) as [Hdb _].
  set (Q := fun (r : res unit) d' => _).
  assert (forall r d2, names d2 = names d1 -> kept d1 d2 -> (faults d1 = [] -> False) -> Q r d2) as HQ.
  { intros r d2 Hn Hk Hf. split_and!; [done|intros k H1 H2; rewrite Hn; by apply Ho|right; by rewrite Hn|done]. }
  unfold restore, path_exists. apply wp_bind, wp_catch, wp_syscall; [|intros d2 Hn Hk Hf; by apply HQ]. intros d2 Hn2 _ Hk2. apply wp_gets.
  rewrite Hn2, Hd, bool_decide_true by done. unfold samefile.
  apply wp_bind, wp_syscall; [|intros d3 Hn Hk Hf; apply HQ; [congruence|by eapply kept_trans|intros E; by apply Hf, Hk2]]. intros d3 Hn3 _ Hk3.
  assert (kept d1 d3) as K3 by (by eapply kept_trans).
  apply wp_syscall; [|intros d4 Hn Hk Hf; apply HQ; [congruence|by eapply kept_trans|intros E; by apply Hf, K3]]. intros d4 Hn4 _ Hk4.
  assert (kept d1 d4) as K4 by (by eapply kept_trans). assert (names d4 = names d1) as N4 by congruence.
  apply wp_bind, wp_gets. cbn [id]. rewrite N4, Hs, Hd. apply wp_ret. rewrite bool_decide_true by done.
  destruct (expected p) as [approved|] eqn:Ee.
  - destruct (names d !! destination) as [old|] eqn:Ed; [|by pose proof (proj2 Hex eq_refl)]. eapply wp_mono; [apply (replace_spec backup destination old)|].
    { rewrite N4. by apply Hb. } { rewrite N4, Hd. intros [= ->]. by apply (prep_other d old Hp). }
    intros [[]|e] d5 [Hk5 Hn5]; [|destruct Hn5 as (_&Hn5&Hf); apply HQ; [congruence|by eapply kept_trans|intros E; by apply Hf, K4]].
    split_and!; [by eapply kept_trans| | |]; rewrite Hn5, N4.
    + intros k H1 H2. rewrite lookup_insert_ne, lookup_delete_ne by done. by apply Ho.
    + left. by rewrite lookup_insert_eq.
    + intros _. split; [done|]. by rewrite lookup_insert_eq.
  - assert (names d !! destination = None) as Ed by (by apply Hex). eapply wp_mono; [apply (unlink_spec destination false); right; rewrite N4; by eauto|].
    intros [[]|e] d5 [Hk5 Hn5]; [|destruct Hn5 as (_&Hn5&Hf); apply HQ; [congruence|by eapply kept_trans|intros E; by apply Hf, K4]].
    split_and!; [by eapply kept_trans| | |]; rewrite Hn5, N4.
    + intros k H1 H2. rewrite lookup_delete_ne by done. by apply Ho.
    + left. by rewrite lookup_delete_eq, Ed.
    + intros _. split; [done|]. by rewrite lookup_delete_eq, Ed.
Qed.

(** The links beside the staged file are removed. *)
Lemma cleanups_spec d :
  wp (_ ← cleanup_private_upload backup; cleanup_private_upload replacement)
     (fun _ d' => kept d d' /\ same_off d d' /\ (faults d = [] -> names d' !! backup = None /\ names d' !! replacement = None)) d.
Proof.
  pose proof backup_ne as Hbr. apply wp_bind. eapply wp_mono; [apply cleanup_spec|]. intros r d1 (->&Hk1&Hn1).
  eapply wp_mono; [apply cleanup_spec|]. intros r d2 (->&Hk2&Hn2).
  assert (same_off d d1) as Ho1 by (intros k H1 H2; destruct Hn1 as [->|[-> _]]; by rewrite ?lookup_delete_ne).
  split_and!; [by eapply kept_trans| |].
  - intros k H1 H2. rewrite <- Ho1 by done. destruct Hn2 as [->|[-> _]]; by rewrite ?lookup_delete_ne.
  - intros E. destruct Hk1 as (_&_&Hf1). destruct Hn1 as [Hn1|[_ ?]]; [|done]. destruct Hn2 as [Hn2|[_ Hne]]; [|by specialize (Hf1 E)].
    by rewrite Hn2, lookup_delete_eq, lookup_delete_ne, Hn1, lookup_delete_eq.
Qed.
(** The caller's work leaves the files alone. *)
Definition leaves_files (body : ST Disk unit) : Prop := forall d, names (body d).2 = names d /\ kept d (body d).2.

(** The caller returns, or nothing fails after it. *)
Definition recoverable (body : ST Disk unit) : Prop := forall d, (body d).1 = Ok tt \/ faults (body d).2 = [].

Lemma published_spec p d i body :
  prepared d i -> leaves_files body -> revision_at d destination = expected p -> mem destination (symlinked d) = false ->
  (forall j n, names d !! destination = Some j -> inodes d !! j = Some n -> regular n = true) ->
  wp (_ ← place p staged destination; catch (fun _ => true) body (fun exc => _ ← restore p staged destination; lift (Raise exc)))
     (fun r d' => kept d d' /\ (forall k, k <> backup -> k <> replacement -> k <> destination -> names d' !! k = names d !! k) /\
        match r with
        | Ok _ => names d' !! destination = Some i
        | Raise e => (names d' !! destination = names d !! destination \/ names d' !! destination = Some i) /\
                     (recoverable body -> names d' !! destination = names d !! destination) /\
                     (faults d = [] -> exists d1, (body d1).1 = Raise e)
        end) d.
Proof.
  intros Hp Hbody Hrev Hsym Hreg. destruct (prep_names d i Hp) as [Hdb Hdr].
  assert (expected p = None <-> names d !! destination = None) as Hex.
  { rewrite <- Hrev. unfold revision_at. destruct (names d !! destination) as [j|] eqn:Ed; [|done]. destruct (prep_inode d i Hp j Ed) as [n Hn]. cbn. by rewrite Hn. }
  assert (wp (place p staged destination)
     (fun r d' => kept d d' /\ match r with Ok _ => placed d i d' | Raise e => same_off d d' /\ (faults d = [] -> False) end) d) as Hplace.
  { destruct (names d !! destination) as [old|] eqn:Ed; [|by apply place_new_spec, Ed; [done|apply Hex]].
    destruct (expected p) as [approved|] eqn:Ee; [|by pose proof (proj1 Hex eq_refl)]. eapply place_over_spec; eauto. }
  apply wp_bind. eapply wp_mono; [exact Hplace|]. intros [[]|e] d1 [Hk1 H1].
  2:{ destruct H1 as [H1 Hf]. split_and!; [done|intros k ? ? ?; by apply H1|left; by apply H1|intros _; by apply H1|done]. }
  destruct (placed_names d i d1 Hp H1) as (_&Hd1&_&Ho1&_). apply wp_catch. unfold wp at 1.
  destruct (Hbody d1) as [Hn2 Hk2]. destruct (body d1) as [r d2] eqn:Eb. cbn [fst snd] in *.
  assert (kept d d2) as Hk by (by eapply kept_trans).
  destruct r as [[]|e]; [split_and!; [done|intros k ? ? ?; rewrite Hn2; by apply Ho1|by rewrite Hn2]|].
  assert (placed d i d2) as H2 by (unfold placed in *; rewrite Hn2; exact H1).
  apply wp_bind. eapply wp_mono; [by apply (restore_spec p d i d2)|]. intros r d3 (Hk3&Ho3&Hd3&Hf3).
  assert (recoverable body -> names d3 !! destination = names d !! destination) as Hrec.
  { intros Hr. apply Hf3. destruct (Hr d1) as [E|E]; rewrite Eb in E; done. }
  assert (kept d d3) as K3 by (by eapply kept_trans).
  destruct r as [u|e3].
  - apply wp_lift. split_and!; [done|intros k ? ? ?; by apply Ho3|done|done|]. intros _. exists d1. by rewrite Eb.
  - split_and!; [done|intros k ? ? ?; by apply Ho3|done|done|]. intros E. by destruct (Hf3 (proj2 (proj2 Hk) E)) as [? _].
Qed.

(** What a publication has done. *)
Definition publication_outcome (p : UploadPublication) (defer : bool) (body : ST Disk unit) (d : Disk) (i : nat) (r : res unit) (d' : Disk) : Prop :=
  (forall j, still <$> inodes d' !! j = still <$> inodes d !! j) /\
  (forall k, k <> destination -> k <> backup_of staged -> k <> replacement_of staged -> names d' !! k = names d !! k) /\
  (names d' !! destination = names d !! destination \/
   names d' !! destination = Some i /\ destination = path p /\ revision_at d destination = expected p) /\
  (r = Ok tt -> names d' !! destination = Some i /\ destination = path p /\ revision_at d destination = expected p) /\
  ((exists e, r = Raise e) -> recoverable body -> names d' !! destination = names d !! destination) /\
  (faults d = [] -> destination = path p -> revision_at d destination = expected p -> mem destination (symlinked d) = false ->
   (forall j n, names d !! destination = Some j -> inodes d !! j = Some n -> regular n = true) -> (forall d1, (body d1).1 = Ok tt) ->
   r = Ok tt /\ (defer = false -> names d' !! backup_of staged = None /\ names d' !! replacement_of staged = None)).

Lemma publish_spec p defer body d i : prepared d i -> leaves_files body -> wp (publish p staged destination defer body) (publication_outcome p defer body d i) d.
Proof.
  intros Hp Hbody. destruct (prep_names d i Hp) as [Hdb Hdr]. unfold publish. apply wp_bind. case_bool_decide as Hpath.
  2:{ apply wp_lift. unfold publication_outcome. split_and!; try done. by left. }
  eapply wp_mono; [apply revision_spec|]. intros [v|e] d1 (Hk1&Hn1&Hv).
  2:{ split_and!; try done; [apply Hk1|intros k ? ? ?; by rewrite Hn1|left; by rewrite Hn1|intros _ _; by rewrite Hn1|].
      intros Hf _ Hrev Hsym Hreg _. destruct (Hv Hf) as [Hm|(j&n&H1&H2&H3)]; [congruence|]. specialize (Hreg j n H1 H2). congruence. }
  destruct Hv as (Hi1&->&Hsym&Hreg). apply wp_bind, wp_lift. case_bool_decide as Hrev; cbn [negb raise_if].
  2:{ split_and!; try done; [apply Hk1|intros k ? ? ?; by rewrite Hn1|left; by rewrite Hn1|intros _ _; by rewrite Hn1]. }
  assert (prepared d1 i) as Hp1 by (destruct Hp; split; rewrite ?Hn1, ?Hi1; done).
  assert (revision_at d1 destination = expected p) as Hrev1 by (unfold revision_at in *; by rewrite Hn1, Hi1).
  pose proof (published_spec p d1 i body Hp1 Hbody Hrev1) as Hpub. rewrite (proj1 (proj2 Hk1)), Hn1, Hi1 in Hpub. specialize (Hpub Hsym Hreg).
  apply wp_finally. eapply wp_mono; [exact Hpub|]. cbn beta. intros r d2 (Hk2&Ho2&Hr).
  assert (kept d d2) as K2 by (by eapply kept_trans).
  eapply (wp_mono _ (fun _ d3 => kept d2 d3 /\ same_off d2 d3 /\ (faults d2 = [] -> defer = false -> names d3 !! backup = None /\ names d3 !! replacement = None))).
  { destruct defer; [apply wp_ret; by split_and!|]. eapply wp_mono; [apply cleanups_spec|]. intros _ d3 (?&?&?). by split_and!; [| |auto]. }
  intros _ d3 (Hk3&Ho3&Hf3). assert (names d3 !! destination = names d2 !! destination) as Hd3 by (by apply Ho3).
  assert (kept d d3) as K3 by (by eapply kept_trans). unfold publication_outcome. rewrite Hd3. split_and!.
  - apply K3.
  - intros k H1 H2 H3. rewrite Ho3 by done. by apply Ho2.
  - destruct r as [u|e]; [by right|]. destruct Hr as ([Hr|Hr]&_&_); [by left|by right].
  - intros ->. done.
  - intros [e ->] Hrec. by apply Hr.
  - intros Hf _ _ _ _ Hok. destruct r as [[]|e]; [split; [done|]; intros Hdef; apply Hf3; [by apply K2|done]|].
    destruct Hr as (_&_&Hr). destruct (Hr (proj2 (proj2 Hk1) Hf)) as [d0 Hb0]. by rewrite Hok in Hb0.
Qed.

(** C21.  Publication is bound to consent and atomic: whatever system calls fail, a publication
    changes no file and no name but the destination and the two private links; it puts the
    staged file at the destination only when that is the approved path and has exactly the
    approved revision, and returns only then; when it raises, the destination is the file
    it was, provided the caller's work returned or nothing fails after it; and when nothing
    fails and the caller returns, an approved publication returns and the private links are
    gone. *)
Theorem publication_bound_to_consent p defer body d i r d' :
  prepared d i -> leaves_files body -> publish p staged destination defer body d = (r, d') ->
  (forall j, still <$> inodes d' !! j = still <$> inodes d !! j) /\
  (forall k, k <> destination -> k <> backup_of staged -> k <> replacement_of staged -> names d' !! k = names d !! k) /\
  (names d' !! destination = names d !! destination \/
   names d' !! destination = Some i /\ destination = path p /\ revision_at d destination = expected p) /\
  (r = Ok tt -> names d' !! destination = Some i /\ destination = path p /\ revision_at d destination = expected p) /\
  ((exists e, r = Raise e) -> recoverable body -> names d' !! destination = names d !! destination) /\
  (faults d = [] -> destination = path p -> revision_at d destination = expected p -> mem destination (symlinked d) = false ->
   (forall j n, names d !! destination = Some j -> inodes d !! j = Some n -> regular n = true) -> (forall d1, (body d1).1 = Ok tt) ->
   r = Ok tt /\ (defer = false -> names d' !! backup_of staged = None /\ names d' !! replacement_of staged = None)).
Proof. intros Hp Hb E. exact (wp_run _ _ _ _ _ (publish_spec p defer body d i Hp Hb) E). Qed.
End Publication.

(* ------------------------------------------------------------------ *)
(** ** Instances *)

Definition demo_staged : pystr := str "/depot/tmp1".
Definition demo_destination : pystr := str "/depot/image.iso".
Definition demo_disk (l : list bool) : Disk :=
  mkDisk (<[demo_staged := 2%nat]> {[demo_destination := 1%nat]})
    (<[2%nat := mkInode true 7 [x02] 20 20]> {[1%nat := mkInode true 7 [x01] 10 10]}) [] 30 l.
Definition demo_publication : UploadPublication := mkUploadPublication demo_destination (Some (7, 1%nat, 1, 10, 10)).
Definition demo_body : ST Disk unit := mret tt.

Ltac closed_decide := apply (bool_decide_unpack _); vm_compute; exact I.

Lemma demo_prepared : prepared demo_staged demo_destination (demo_disk []) 2.
Proof.
  split; [closed_decide|closed_decide|closed_decide|closed_decide| |split; closed_decide].
  intros old E. assert (Some old = Some 1%nat) as [= ->]; [rewrite <- E; closed_decide|]. exists (mkInode true 7 [x01] 10 10). vm_compute. reflexivity.
Qed.

(** [publication_bound_to_consent] at an overwrite that succeeds. *)
Lemma publication_bound_to_consent_witness : exists d', publish demo_publication demo_staged demo_destination false demo_body (demo_disk []) = (Ok tt, d') /\
  names d' !! demo_destination = Some 2%nat /\ names d' !! backup_of demo_staged = None.
Proof.
  destruct (publish demo_publication demo_staged demo_destination false demo_body (demo_disk [])) as [r d'] eqn:E.
  destruct (publication_bound_to_consent demo_staged demo_destination demo_publication false demo_body (demo_disk []) 2 r d' demo_prepared)
    as (_&_&_&Hok&_&Hlive); [intros d; split; [reflexivity|apply kept_refl]|exact E|].
  destruct Hlive as [-> Hgone]; [reflexivity|reflexivity|vm_compute; reflexivity|vm_compute; reflexivity| |reflexivity|].
  - intros j n Hj Hn. vm_compute in Hj. injection Hj as <-. vm_compute in Hn. injection Hn as <-. reflexivity.
  - exists d'. split; [reflexivity|]. split; [apply Hok; reflexivity|]. destruct (Hgone eq_refl) as [H1 _]. exact H1.
Defined.

(** When the caller fails and the call that puts the previous file back fails as well, the
    cleanup removes its last name. *)
Example previous_file_lost :
  (fun out : res unit * Disk => (out.1, names out.2 !! demo_destination, (map_to_list (names out.2)).*2))
    (publish demo_publication demo_staged demo_destination false (lift (Raise (ValueError "audit"))) (demo_disk (replicate 8 false ++ [true]))) =
  (Raise OSError, Some 2%nat, [2%nat; 2%nat]).
Proof. vm_compute. reflexivity. Qed.
